(* ===== verification/_CoqProject ===== *)
-Q . S2P
Prelude.v
ByteBuffer.v
Util.v
Timing.v
Rbac.v
Reputation.v
Channel.v
ChannelMgr.v
Social.v
Guild.v
GuildRules.v
GuildMoney.v
GuildBank.v
GuildLoad.v
Group.v
GroupHandler.v
GroupRules.v
GroupWorlds.v
GroupMembers.v
GroupRegistry.v
GroupRequests.v
GroupTheorems.v
