(* ===== verification/Prelude.v ===== *)
(** * A verification development for the game server

    The repository is a C++ server for an online role-playing game: a world
    server ([src/src/server/worldserver], [game], [scripts]), an authentication
    server, the shared library under them ([src/src/server/shared]), tools and
    vendored libraries.  This development models parts of the shared library and
    of the game library whose behaviour is data-structure and state-machine logic
    of the program's own: the wire format of packets, text utilities, timers and
    the event queue, the role based access control, reputation, and the chat
    channels with their manager and the packet handlers in front of them, the social
    lists, guilds with their bank, and groups with their loot rolls.

    ** Files

    - [Prelude]: machine integers with their wrap-around, flag words, record
      update, the effect monad [act], weakest preconditions, byte and string
      conversions, the ordered containers.
    - [ByteBuffer] (shared/Packets/ByteBuffer.h, WorldPacket.h): the buffer with
      its read and write cursors, all its operators, packed guids and dates,
      lists and maps on the wire; a [WorldPacket] as the list of its fields.
    - [Util] (shared/Utilities/Util.cpp): the tokenizer, time and money strings,
      invisible characters, and the C library's number parsing they use.
    - [Timing] (shared/Utilities/Timer.h, EventProcessor.cpp): the timer structs
      at their integer widths, and the event queue over a heap of events whose
      virtual methods are the class [EventMethods].
    - [Rbac] (game/Accounts/RBAC.cpp, AccountMgr.cpp, WorldSession.cpp): groups,
      roles and permissions, the account commands, their SQL statements as
      operations on tables, loading of definitions and accounts, the copy a
      session caches.
    - [Reputation] (game/Reputation/ReputationMgr.cpp, DBCStores.cpp): a player's
      standings, flags and counters, the spillover to other factions in single
      precision arithmetic, packets, loading and saving.
    - [Channel] (game/Chat/Channels/Channel.cpp): one chat channel: members and
      flags, ban list, owner, password, all operations and all packets.
    - [ChannelMgr] (game/Chat/Channels/ChannelMgr.cpp, ChannelHandler.cpp): the
      registries of channels by lower-cased name, one per team, and every chat
      packet handler; a world is both registries and the channels each player is
      in, and [chat_step] runs one request of one player.
    - [Social] (game/Entities/Player/SocialMgr.cpp, MiscHandler.cpp): friend and
      ignore lists, their statements as operations on the table
      [character_social], loading, broadcasts and the packet handlers.
    - [Guild] (game/Guilds/Guild.h, Guild.cpp): one guild with the players
      online: emblem, ranks, members, bank tabs, logs, every packet, statement
      and request.  [GuildRules] has its invariant, who may do what, leadership,
      founding and disbanding; [GuildMoney] the bank's money and the event log;
      [GuildBank] the moves of items within the bank and to an inventory;
      [GuildLoad] the rows a guild is read from at the start (Load functions of
      Guild.cpp, GuildMgr.cpp for one guild) and Validate, which repairs it.
    - [Group] (game/Groups/Group.h, Group.cpp, GroupMgr.cpp, GroupReference.cpp,
      with the methods of Player and ObjectAccessor they call): a heap of groups
      and the players, who point at each other; the registry of ids; loot and its
      rolls; instance binds; loading.  [GroupHandler] (Handlers/GroupHandler.cpp)
      has the packet handlers.
    - [GroupRules] has the state of links between groups and players ([links])
      with the records blurred to what the links are about, and what leaves it
      alone; [GroupWorlds] one lemma per change of that state; [GroupMembers]
      adding and removing members, leaders, sub-groups and raids; [GroupRegistry]
      ids, invitations and founding; [GroupRequests] every packet handler,
      logging in and out; [GroupTheorems] the claims and a small server.
    A file opens with the code's constants and records, has one definition per
    function of the code with the code's name, and then the lemmas and the
    properties.  Overloaded functions of the code have a suffix: [SetOwner_guid]
    is [Channel::SetOwner(uint64, bool)], [SetVisible_state] is
    [ReputationMgr::SetVisible(FactionState ...)]; loops have the suffix [_loop].

    ** How code is modelled

    A method of an object of type [S] that calls out of the modelled part
    (packets sent, statements for a database, calls on a player) with calls of
    type [E] is an action [act S E A]: a function from the state to either
    [Done] with the result, the new state and the calls in order, or [Fault]
    with what went wrong: a NULL pointer used, an assertion, an exception of the
    standard library or of [ByteBuffer], or the fuel of a loop used up.  [wp]
    asks that a run ends normally, [wlp] allows faults.  What the objects reach
    outside (the configuration, client data stores, the players online) is a
    class ([RepEnv], [ChannelEnv], ...) whose fields are parameters of every
    theorem; what such data or code obeys, where a theorem needs it, is a class
    of its own with an instance: [StoreLaws] of client data, [EventContract] of the
    methods of queued events, [QuietScripts] of scripts that leave the amounts of
    guild money as they are.

    An integer of the code is a [Z]; where an operation can leave its width the
    result is wrapped by [u8] ... [i64].  [float] is the standard library's
    software model of IEEE single precision ([spec_float]).  The UTF-8 library's
    lower-casing of names is a parameter with its documented laws.  [std::map] and
    [std::set] are [gmap Z] and [gset Z] iterated in key order by [map_iter] and
    [set_iter]; [operator[]] on a missing key inserts, as in the code
    ([map_index]).  Log output is left out.  A packet's bytes are those of its
    fields, by [packet_bytes]; the header of the network layer is not modelled.

    ** What the theorems show

    - The wire format: what is written is read back, for fields, packed guids,
      containers and dates, and no read leaves the buffer.
    - Timers and events: the value of each timer within its width; that an
      update of the queue, whose events may add, flag and kill others, uses no
      event that does not exist, and, when the events that are due add for later
      only and leave the due ones alone, calls exactly these, in order, and
      ends; that killing aborts every event once.
    - Access control: the calculated permissions are granted minus denied; every
      command acts as the abstract one on sets and leaves the stored copy in
      step, so that an account loaded later has the same permissions, but
      for default groups that were removed, which come back; the definitions are what the tables say; changing an access level moves the
      account between the groups of the levels.
    - Reputation: the counters shown to achievements always equal the number of
      visible, honored, revered and exalted factions, over every operation, loads
      from the database included; standings stay within the caps; the packets
      list what they should; loading and saving agree with the rows.
    - Channels: every operation computes a description without packets; the
      invariant of owner, flags, bans and members; delivery of messages; who is
      refused; what a member may not do; saving and loading.
    - The channel registries: whatever requests players send, except that they
      kick or ban themselves, a channel is registered under its own name, its members are exactly the players that
      list it, the two factions share no channel, a channel that loses its last
      member is deleted, and a player who logs out is in no channel.
    - Social lists: after any sequence of requests the table's rows, keyed by
      player, friend and flags, are the list in memory as far as the friends are
      characters that are not deleted, within its limits; the list a player is sent.
    - Guilds: every request keeps the rules of ranks, members, leader, tabs,
      logs and players online; who may change whose rank; who follows a leader;
      disbanding removes everybody; what a withdrawal does to bank, purse and
      count for every amount of 32 bits, and the daily limit; the event log is a
      ring whose table is a copy of it; moving items in the bank neither makes nor loses any, keeps stacks within their size and the
      tables a copy of what is in memory, takes the rights it needs, and keeps the
      rules of the guild ([bank_moves_keep_rules]).  Whatever the database holds, a guild that is loaded and kept obeys the rules.
    - Groups: from a sound world every honest packet is served without a dangling
      pointer, failed assertion or index out of bounds, and leaves a sound world;
      in every world that can be reached, groups and players point at each other,
      invitations too, parties and raids keep their sizes, the counters of the
      sub-groups are right, and the ids in the registry are those of the groups
      with members.  Joining, disbanding and the succession of leaders do what
      they say; a new id is free; the highest throw of those who need an item wins
      it; the loops that restart after an erasure end; the turn to loot goes round;
      a member without rights changes nothing by a command.
    ** Bounds and fuel

    [Update_loop] of the event queue takes fuel: one turn for each event that is
    due is enough when these events are tame (they add for later only, and neither
    flag nor kill what is due), and otherwise a run may end in [OutOfFuel], as the
    code may never end; loops over a container recurse on the list of its elements.
    Three loops of the group code start over or search, and take fuel computed from the state:
    [ResetInstances_loop] the square of the number of binds, [EndRoll_loop] the
    number of rolls, [next_free_loop] the length of the registry, each with some to
    spare; [instances_reset], [rolls_end] and
    [group_ids_fresh] show that it is enough.  [print_u64] writes at most 20 digits,
    which a 64-bit value fits.  Where a theorem needs a size below a machine bound
    (the members of a channel below 2^32, a packet below 2^63 bytes, the groups
    below 0xFFFFFFF0) it says so.

    ** Inputs that break the code

    Some inputs that the code does not refuse break what the theorems state.  The
    theorems say which they leave out, and others show what happens then.

    - The theorems about requests to groups are about [honest] ones: the player
      who asks is in the world, no player invites himself or accepts his own
      invitation; otherwise the code uses freed groups ([self_invitation_dangles],
      [own_invitation_dangles] in [GroupTheorems]).
    - A player who kicks or bans himself from a channel stays in it as a phantom
      ([self_kick] in [Channel]); the agreement of registries, channels and lists
      leaves such packets out, the separation of the factions does not.
    - Initial reputations of a faction at list position 128 or above run into the
      assertion of the buffer; a permission id that is no bit of the set throws.
    - A withdrawal of 2^31 or more from the bank of a guild takes money from the
      purse ([large_withdrawal_costs]); the right to withdraw for repairs alone is
      enough to take money ([repair_right_takes_gold]).
    - A row of tab rights for a tab from 128 on is written outside the array
      ([rights_row_leaves_array]); the broadcast of a deposit or withdrawal reads
      eight bytes at an amount of four, which is the event [StackOverRead].

    ** Not modelled

    The entities of the world (players, creatures, items), spells, maps,
    movement, scripts and AI are too large and too tied to floating point
    geometry and database content; of players only what the modelled parts call
    is there, as fields, calls or parameters.  Threat, the dungeon finder, battlegrounds
    and arena teams act on those entities.  Network and database connections,
    threads, configuration files and cryptography (SHA1 of accounts, SRP6, Warden)
    are library calls.  Calendar, tickets, mail and auctions are tables joined to
    items and players.  Of groups, the check for a battleground queue and the
    packet with the changed statistics of a member are left out: they change
    nothing.  Of the event queue, what the method [Abort] of an event does.
    Scripts are hooks that may change an amount of money, and do nothing else. *)

From stdpp Require Export base gmap sets list strings fin_maps sorting.
From Stdlib Require Export ZArith Lia.

#[global] Set Default Goal Selector "!".

(** ** Machine integers

    The program's [uintN] and [intN] values are [Z]s; an arithmetic result is
    brought back to its width by one of the two wrap functions. *)

Definition wrapu (w : Z) (z : Z) : Z := (z mod 2 ^ w)%Z.
Definition wraps (w : Z) (z : Z) : Z :=
  ((z + 2 ^ (w - 1)) mod 2 ^ w - 2 ^ (w - 1))%Z.

Abbreviation u8 := (wrapu 8).
Abbreviation u16 := (wrapu 16).
Abbreviation u32 := (wrapu 32).
Abbreviation u64 := (wrapu 64).
Abbreviation i8 := (wraps 8).
Abbreviation i16 := (wraps 16).
Abbreviation i32 := (wraps 32).
Abbreviation i64 := (wraps 64).

Open Scope Z_scope.

Lemma wrapu_range w z : 0 <= w → 0 <= wrapu w z < 2 ^ w.
Proof. intros ?. apply Z.mod_pos_bound. lia. Qed.

Lemma wrapu_id w z : 0 <= z < 2 ^ w → wrapu w z = z.
Proof. intros ?. by apply Z.mod_small. Qed.

Lemma wraps_range w z : 0 < w → - 2 ^ (w - 1) <= wraps w z < 2 ^ (w - 1).
Proof.
  intros Hw. unfold wraps.
  pose proof (Z.mod_pos_bound (z + 2 ^ (w - 1)) (2 ^ w) ltac:(lia)).
  assert (2 ^ w = 2 * 2 ^ (w - 1)) as E
    by (rewrite <- Z.pow_succ_r by lia; f_equal; lia).
  lia.
Qed.

Lemma wraps_id w z : 0 < w → - 2 ^ (w - 1) <= z < 2 ^ (w - 1) → wraps w z = z.
Proof.
  intros Hw Hz. unfold wraps.
  assert (2 ^ w = 2 * 2 ^ (w - 1)) as E
    by (rewrite <- Z.pow_succ_r by lia; f_equal; lia).
  rewrite Z.mod_small; lia.
Qed.

Lemma wrapu_add_l w a b : wrapu w (wrapu w a + b) = wrapu w (a + b).
Proof. apply Zplus_mod_idemp_l. Qed.

Lemma wrapu_add_r w a b : wrapu w (a + wrapu w b) = wrapu w (a + b).
Proof. apply Zplus_mod_idemp_r. Qed.

Lemma wrapu_sub_l w a b : wrapu w (wrapu w a - b) = wrapu w (a - b).
Proof. apply Zminus_mod_idemp_l. Qed.

Lemma wrapu_mul_l w a b : wrapu w (wrapu w a * b) = wrapu w (a * b).
Proof. apply Zmult_mod_idemp_l. Qed.

Lemma wrapu_idem w a : wrapu w (wrapu w a) = wrapu w a.
Proof. unfold wrapu. apply Zmod_mod. Qed.

(** Closed powers of two as numerals, which [lia] divides by. *)
Ltac compute_pow2 :=
  repeat match goal with
    | |- context [2 ^ Zpos ?p] =>
        let v := eval vm_compute in (2 ^ Zpos p) in change (2 ^ Zpos p) with v
    end.

(** ** Flag words *)

(** [flags & mask] used as a condition. *)
Definition has_flag (flags mask : Z) : bool := negb (Z.land flags mask =? 0).

Lemma has_flag_lor x a b : has_flag (Z.lor x a) b = has_flag x b || has_flag a b.
Proof.
  unfold has_flag. rewrite Z.land_lor_distr_l, <- negb_andb. f_equal.
  apply eq_true_iff_eq. rewrite andb_true_iff, !Z.eqb_eq. apply Z.lor_eq_0_iff.
Qed.

Lemma has_flag_ldiff_other x a b : Z.land b a = 0 → has_flag (Z.ldiff x a) b = has_flag x b.
Proof.
  intros Hab. unfold has_flag. do 2 f_equal. apply Z.bits_inj'. intros n _.
  rewrite !Z.land_spec, Z.ldiff_spec.
  assert (Z.testbit b n && Z.testbit a n = false) as Hn
    by (rewrite <- Z.land_spec, Hab; apply Z.bits_0).
  destruct (Z.testbit x n), (Z.testbit a n), (Z.testbit b n); done.
Qed.

Lemma has_flag_ldiff_same x a : has_flag (Z.ldiff x a) a = false.
Proof.
  unfold has_flag. apply negb_false_iff, Z.eqb_eq. apply Z.bits_inj'. intros n _.
  rewrite Z.land_spec, Z.ldiff_spec, Z.bits_0. by destruct (Z.testbit x n), (Z.testbit a n).
Qed.

(** ** Record update

    [r <| p := v |>] replaces field [p] of the record [r], for a record type
    whose eta-expansion is declared as an [Eta] instance. *)

Class Eta (R : Type) := eta : R → R.
Class Setter {R T : Type} (p : R → T) := { setf : (T → T) → R → R }.
Arguments setf {R T} p {_} f r /.

#[export] Hint Extern 1 (@Setter ?R ?T ?p) =>
  (let inst := constr:(@eta R _) in
   let e := eval hnf in inst in
   lazymatch eval pattern p in e with
   | ?F _ => exact {| setf := λ (f : T → T) (r : R), F (λ r' : R, f (p r')) r |}
   end) : typeclass_instances.

Notation "r <| p := v |>" := (setf p (λ _, v) r)
  (at level 1, left associativity, p constr, v at level 200).
Notation "r <| p ::= f |>" := (setf p f r)
  (at level 1, left associativity, p constr, f at level 200).

(** ** Effectful code

    A method that reads and changes an object of type [S] and makes calls that
    leave the modelled part (a packet sent, a statement handed to the
    database) is an action: it ends normally with a result, a new state and
    the calls made, in order, or it stops at a fault, again with the state and
    the calls made up to there. *)

Inductive fault :=
  | NullDeref                                   (* a NULL or dangling pointer used *)
  | AssertFailed                                (* ASSERT, which aborts *)
  | OutOfBounds                                 (* access past the end of a container *)
  | DivisionByZero                              (* [%] with a zero divisor *)
  | BitsetOutOfRange (pos : Z)                  (* std::out_of_range of std::bitset *)
  | BBPosition (add : bool) (pos size valueSize : Z)  (* ByteBufferPositionException *)
  | BBSource (pos size valueSize : Z)           (* ByteBufferSourceException *)
  | OutOfFuel.                                  (* the bound of a modelled loop was hit *)

Inductive res (S E A : Type) :=
  | Done (a : A) (s : S) (t : list E)
  | Fault (f : fault) (s : S) (t : list E).
Arguments Done {S E A} _ _ _.
Arguments Fault {S E A} _ _ _.

Definition act (S E A : Type) : Type := S → res S E A.

Section Actions.
Context {S E : Type}.

Definition prepend {A} (t : list E) (r : res S E A) : res S E A :=
  match r with
  | Done a s t' => Done a s (t ++ t')
  | Fault f s t' => Fault f s (t ++ t')
  end.

#[global] Instance act_ret : MRet (act S E) := λ A a s, Done a s [].
#[global] Instance act_bind : MBind (act S E) := λ A B f m s,
  match m s with
  | Done a s1 t1 => prepend t1 (f a s1)
  | Fault e s1 t1 => Fault e s1 t1
  end.

Definition get : act S E S := λ s, Done s s [].
Definition gets {A} (f : S → A) : act S E A := λ s, Done (f s) s [].
Definition put (s' : S) : act S E unit := λ s, Done tt s' [].
Definition modify (f : S → S) : act S E unit := λ s, Done tt (f s) [].
Definition emit (e : E) : act S E unit := λ s, Done tt s [e].
Definition raise {A} (e : fault) : act S E A := λ s, Fault e s [].
Definition when (b : bool) (m : act S E unit) : act S E unit :=
  if b then m else mret tt.
Definition require {A} (o : option A) : act S E A :=
  match o with Some a => mret a | None => raise NullDeref end.

Fixpoint forM_ {A} (l : list A) (f : A → act S E unit) : act S E unit :=
  match l with
  | [] => mret tt
  | x :: l' => f x ;; forM_ l' f
  end.

(** The three observations of a run. *)
Definition rstate {A} (r : res S E A) : S :=
  match r with Done _ s _ => s | Fault _ s _ => s end.
Definition rtrace {A} (r : res S E A) : list E :=
  match r with Done _ _ t => t | Fault _ _ t => t end.
Definition rval {A} (r : res S E A) : option A :=
  match r with Done a _ _ => Some a | Fault _ _ _ => None end.

(** A method of a part of the object: [sel] is the part, [upd] puts it back. *)
Definition zoom {S' A} (sel : S → S') (upd : S' → S → S) (m : S' → res S' E A) : act S E A := λ s,
  match m (sel s) with
  | Done a x t => Done a (upd x s) t
  | Fault f x t => Fault f (upd x s) t
  end.

(** Weakest preconditions: [wp] asks that the run ends normally, [wlp]
    allows it to stop at a fault. *)
Definition wp {A} (m : act S E A) (Q : A → S → list E → Prop) (s : S) : Prop :=
  match m s with Done a s' t => Q a s' t | Fault _ _ _ => False end.
Definition wlp {A} (m : act S E A) (Q : A → S → list E → Prop) (s : S) : Prop :=
  match m s with Done a s' t => Q a s' t | Fault _ _ _ => True end.

Lemma wp_ret {A} (a : A) Q s : Q a s [] → wp (mret a) Q s.
Proof. done. Qed.
Lemma wp_get Q s : Q s s [] → wp get Q s.
Proof. done. Qed.
Lemma wp_gets {A} (f : S → A) Q s : Q (f s) s [] → wp (gets f) Q s.
Proof. done. Qed.
Lemma wp_put s' Q s : Q tt s' [] → wp (put s') Q s.
Proof. done. Qed.
Lemma wp_modify f Q s : Q tt (f s) [] → wp (modify f) Q s.
Proof. done. Qed.
Lemma wp_emit e Q s : Q tt s [e] → wp (emit e) Q s.
Proof. done. Qed.

Lemma wp_bind {A B} (m : act S E A) (f : A → act S E B) Q s :
  wp m (λ a s1 t1, wp (f a) (λ b s2 t2, Q b s2 (t1 ++ t2)) s1) s →
  wp (m ≫= f) Q s.
Proof.
  unfold wp, mbind, act_bind. destruct (m s) as [a s1 t1|]; [|done].
  by destruct (f a s1).
Qed.

Lemma wp_mono {A} (m : act S E A) (P Q : A → S → list E → Prop) s :
  wp m P s → (∀ a s' t, P a s' t → Q a s' t) → wp m Q s.
Proof. unfold wp. destruct (m s); eauto. Qed.

Lemma wp_when b (m : act S E unit) Q s :
  (b = true → wp m Q s) → (b = false → Q tt s []) → wp (when b m) Q s.
Proof. destruct b; simpl; intros; [eauto|]. apply wp_ret. eauto. Qed.

(** A loop keeps an invariant of the state and a property of the calls. *)
Lemma wp_forM {A} (l : list A) f (I : S → Prop) (T : E → Prop) s :
  I s →
  (∀ x s, x ∈ l → I s → wp (f x) (λ _ s' t, I s' ∧ Forall T t) s) →
  wp (forM_ l f) (λ _ s' t, I s' ∧ Forall T t) s.
Proof.
  revert s. induction l as [|x l IH]; intros s HI Hf; simpl; [by apply wp_ret|].
  apply wp_bind. eapply wp_mono; [apply Hf; [set_solver|done]|].
  intros _ s1 t1 [HI1 HT1]. eapply wp_mono; [apply IH; [done|]|].
  - intros y s2 Hy. apply Hf. set_solver.
  - intros _ s2 t2 [HI2 HT2]. split; [done|]. by apply Forall_app.
Qed.

(** Every action that keeps [I] and makes only calls in [T]. *)
Definition keeps {A} (I : S → Prop) (m : act S E A) : Prop :=
  ∀ s, I s → wp m (λ _ s' _, I s') s.

Lemma keeps_ret {A} I (a : A) : keeps I (mret a).
Proof. intros s. done. Qed.
Lemma keeps_emit I e : keeps I (emit e).
Proof. intros s. done. Qed.
Lemma keeps_gets {A} I (f : S → A) : keeps I (gets f).
Proof. intros s. done. Qed.
Lemma keeps_get I : keeps I get.
Proof. intros s. done. Qed.
Lemma keeps_modify I f : (∀ s, I s → I (f s)) → keeps I (modify f).
Proof. intros Hf s Hs. apply wp_modify. auto. Qed.
Lemma keeps_bind {A B} I (m : act S E A) (f : A → act S E B) :
  keeps I m → (∀ a, keeps I (f a)) → keeps I (m ≫= f).
Proof.
  intros Hm Hf s Hs. apply wp_bind. eapply wp_mono; [by apply Hm|].
  intros a s1 t1 H1. eapply wp_mono; [by apply Hf|]. done.
Qed.
Lemma keeps_when I b m : keeps I m → keeps I (when b m).
Proof. intros Hm. destruct b; [done|]. apply keeps_ret. Qed.
Lemma keeps_forM {A} I (l : list A) f :
  (∀ x, x ∈ l → keeps I (f x)) → keeps I (forM_ l f).
Proof.
  induction l as [|x l IH]; intros Hf; simpl; [apply keeps_ret|].
  apply keeps_bind; [apply Hf; set_solver|]. intros _. apply IH. set_solver.
Qed.

(** What an action does to the state, however it ends. *)
Definition frames {A} (R : S → S → Prop) (m : act S E A) : Prop := ∀ s, R s (rstate (m s)).

Section Frames.
Context (R : S → S → Prop) `{!PreOrder R}.

Lemma frames_ret {A} (a : A) : frames R (mret a).
Proof. by intros s. Qed.
Lemma frames_raise {A} e : frames R (raise e : act S E A).
Proof. by intros s. Qed.
Lemma frames_get : frames R get.
Proof. by intros s. Qed.
Lemma frames_gets {A} (f : S → A) : frames R (gets f).
Proof. by intros s. Qed.
Lemma frames_emit e : frames R (emit e).
Proof. by intros s. Qed.
Lemma frames_modify f : (∀ s, R s (f s)) → frames R (modify f).
Proof. intros Hf s. apply Hf. Qed.
Lemma frames_require {A} (o : option A) : frames R (require o : act S E A).
Proof. destruct o; [apply frames_ret|apply frames_raise]. Qed.
Lemma frames_bind {A B} (m : act S E A) (f : A → act S E B) :
  frames R m → (∀ a, frames R (f a)) → frames R (m ≫= f).
Proof.
  intros Hm Hf s. specialize (Hm s). unfold mbind, act_bind. destruct (m s) as [a s1 t1|e s1 t1]; [|done].
  cbn in Hm. specialize (Hf a s1). destruct (f a s1); cbn in *; by etrans.
Qed.
Lemma frames_when b m : frames R m → frames R (when b m).
Proof. intros Hm. destruct b; [done|]. apply frames_ret. Qed.
Lemma frames_forM {A} (l : list A) f : (∀ x, x ∈ l → frames R (f x)) → frames R (forM_ l f).
Proof.
  induction l as [|x l IH]; intros Hf; simpl; [apply frames_ret|].
  apply frames_bind; [apply Hf; set_solver|]. intros _. apply IH. set_solver.
Qed.
Lemma wp_frames {A} (m : act S E A) Q s : wp m Q s → frames R m → wp m (λ a s' t, Q a s' t ∧ R s s') s.
Proof. unfold wp. intros Hm Hf. specialize (Hf s). by destruct (m s). Qed.
End Frames.
(** What an action writes, however it ends. *)
Definition emits {A} (T : E → Prop) (m : act S E A) : Prop := ∀ s, Forall T (rtrace (m s)).

Section Emits.
Context (T : E → Prop).

Lemma emits_ret {A} (a : A) : emits T (mret a).
Proof. by intros s; constructor. Qed.
Lemma emits_raise {A} e : emits T (raise e : act S E A).
Proof. by intros s; constructor. Qed.
Lemma emits_get : emits T get.
Proof. by intros s; constructor. Qed.
Lemma emits_modify f : emits T (modify f).
Proof. by intros s; constructor. Qed.
Lemma emits_emit e : T e → emits T (emit e).
Proof. intros He s. by constructor. Qed.
Lemma emits_require {A} (o : option A) : emits T (require o : act S E A).
Proof. destruct o; [apply emits_ret|apply emits_raise]. Qed.
Lemma emits_bind {A B} (m : act S E A) (f : A → act S E B) :
  emits T m → (∀ a, emits T (f a)) → emits T (m ≫= f).
Proof.
  intros Hm Hf s. specialize (Hm s). unfold mbind, act_bind. destruct (m s) as [a s1 t1|e s1 t1]; [|done].
  cbn in Hm. specialize (Hf a s1). destruct (f a s1); cbn in *; by apply Forall_app.
Qed.
Lemma emits_when b m : emits T m → emits T (when b m).
Proof. intros Hm. destruct b; [done|]. apply emits_ret. Qed.
Lemma emits_forM {A} (l : list A) f : (∀ x, x ∈ l → emits T (f x)) → emits T (forM_ l f).
Proof.
  induction l as [|x l IH]; intros Hf; simpl; [apply emits_ret|].
  apply emits_bind; [apply Hf; set_solver|]. intros _. apply IH. set_solver.
Qed.
Lemma wp_emits {A} (m : act S E A) Q s : wp m Q s → emits T m → wp m (λ a s' t, Q a s' t ∧ Forall T t) s.
Proof. unfold wp. intros Hm Hf. specialize (Hf s). by destruct (m s). Qed.
End Emits.
(** The relation of states that agree on [f]. *)
Definition same {B} (f : S → B) (s s' : S) : Prop := f s' = f s.
#[global] Instance same_PreOrder {B} (f : S → B) : PreOrder (same f).
Proof. split; [done|]. intros s1 s2 s3. unfold same. congruence. Qed.
End Actions.

Create HintDb act discriminated.
#[export] Hint Resolve keeps_ret keeps_emit keeps_gets keeps_get keeps_when : act.

(** [keeps_auto] decomposes an action along its syntax. *)
Ltac keeps_auto :=
  repeat first
    [ solve [auto with act]
    | apply keeps_bind; [|intros ?]
    | apply keeps_when
    | apply keeps_forM; intros ? ?
    | match goal with |- keeps _ (match ?x with _ => _ end) => destruct x end ].

(** [frames_auto] does the same for what an action leaves alone. *)
Ltac frames_auto :=
  repeat lazymatch goal with
  | |- frames _ (_ ≫= _) => apply frames_bind; [apply _| |intros ?]
  | |- frames _ (when _ _) => apply frames_when; [apply _|]
  | |- frames _ (forM_ _ _) => apply frames_forM; [apply _|intros ? ?]
  | |- frames _ (mret _) => apply frames_ret; apply _
  | |- frames _ (raise _) => apply frames_raise; apply _
  | |- frames _ get => apply frames_get; apply _
  | |- frames _ (gets _) => apply frames_gets; apply _
  | |- frames _ (emit _) => apply frames_emit; apply _
  | |- frames _ (require _) => apply frames_require; apply _
  | |- frames (same _) (modify _) => apply frames_modify; intros ?; unfold same; try reflexivity
  | |- frames _ (match ?x with _ => _ end) => destruct x eqn:?
  end.

(** ** Bytes and C strings *)

Definition byte_ok (b : Z) : Prop := 0 <= b < 256.

(** The characters of a [std::string] as unsigned bytes, and back. *)
Definition ascii_byte (a : Ascii.ascii) : Z := Z.of_N (Ascii.N_of_ascii a).
Definition byte_ascii (b : Z) : Ascii.ascii := Ascii.ascii_of_N (Z.to_N b).
Fixpoint string_bytes (s : string) : list Z :=
  match s with
  | EmptyString => []
  | String a s' => ascii_byte a :: string_bytes s'
  end.
Fixpoint bytes_string (l : list Z) : string :=
  match l with
  | [] => EmptyString
  | b :: l' => String (byte_ascii b) (bytes_string l')
  end.
(** [std::transform] with [::tolower]: the ASCII letters. *)
Definition lower_name (s : string) : string :=
  bytes_string ((λ b, if (65 <=? b)%Z && (b <=? 90)%Z then (b + 32)%Z else b) <$> string_bytes s).

Lemma ascii_byte_ok a : byte_ok (ascii_byte a).
Proof. unfold byte_ok, ascii_byte. pose proof (Ascii.N_ascii_bounded a). lia. Qed.

Lemma byte_ascii_byte a : byte_ascii (ascii_byte a) = a.
Proof. unfold byte_ascii, ascii_byte. rewrite N2Z.id. apply Ascii.ascii_N_embedding. Qed.

Lemma string_bytes_ok s : Forall byte_ok (string_bytes s).
Proof. induction s; simpl; constructor; auto using ascii_byte_ok. Qed.

Lemma bytes_string_bytes s : bytes_string (string_bytes s) = s.
Proof. induction s; simpl; [done|]. by rewrite byte_ascii_byte, IHs. Qed.

(** ** Ordered containers

    [std::map] and [std::set] are [gmap Z] and [gset Z]; their iteration order
    is by ascending key. *)

Definition le_key {V} (x y : Z * V) : Prop := x.1 <= y.1.
#[export] Instance le_key_dec {V} (x y : Z * V) : Decision (le_key x y).
Proof. unfold le_key. apply _. Defined.
#[export] Instance le_key_trans {V} : Transitive (@le_key V).
Proof. intros x y z. unfold le_key. lia. Qed.
#[export] Instance le_key_total {V} : Total (@le_key V).
Proof. intros x y. unfold le_key. lia. Qed.

Definition map_iter {V} (m : gmap Z V) : list (Z * V) :=
  merge_sort le_key (map_to_list m).
Definition map_begin {V} (m : gmap Z V) : option (Z * V) := head (map_iter m).
Definition set_iter (X : gset Z) : list Z := merge_sort Z.le (elements X).

(** [m.find(k)->second] where the element is known to exist, [m[k]] otherwise:
    [operator[]] inserts a value-initialised element when there is none. *)
Definition map_index {V} (dflt : V) (k : Z) (m : gmap Z V) : gmap Z V :=
  match m !! k with Some _ => m | None => <[k := dflt]> m end.

Lemma StronglySorted_filter {A} (R : A → A → Prop) (P : A → Prop) `{∀ x, Decision (P x)} l :
  StronglySorted R l → StronglySorted R (filter P l).
Proof.
  induction 1 as [|x l Hs IH HF]; [constructor|]. rewrite filter_cons.
  case_decide; [|done]. constructor; [done|]. rewrite Forall_forall in HF |- *.
  intros y [_ Hy]%list_elem_of_filter. auto.
Qed.

Lemma filter_all {A} (P : A → Prop) `{∀ x, Decision (P x)} (l : list A) :
  (∀ x, x ∈ l → P x) → filter P l = l.
Proof.
  induction l as [|x l IH]; intros Hl; [done|].
  rewrite filter_cons_True by set_solver. f_equal. set_solver.
Qed.


Lemma length_filter_fmap {A B} (f : A → B) (P : B → Prop) `{∀ x, Decision (P x)} (l : list A) :
  length (filter P (f <$> l)) = length (filter (λ x, P (f x)) l).
Proof.
  induction l as [|x l IH]; [done|]. cbn [fmap list_fmap]. rewrite !filter_cons.
  case_decide; simpl; by rewrite IH.
Qed.

Section OrderedMaps.
Context {V : Type}.
Implicit Types m : gmap Z V.

Lemma elem_of_map_iter m k v : (k, v) ∈ map_iter m ↔ m !! k = Some v.
Proof.
  unfold map_iter. rewrite merge_sort_Permutation. apply elem_of_map_to_list.
Qed.

Lemma map_iter_sorted m : StronglySorted le_key (map_iter m).
Proof. apply (StronglySorted_merge_sort le_key). Qed.

Lemma NoDup_map_iter m : NoDup (map_iter m).*1.
Proof.
  unfold map_iter. rewrite merge_sort_Permutation. apply NoDup_fst_map_to_list.
Qed.

Lemma map_iter_keys m k : k ∈ (map_iter m).*1 ↔ is_Some (m !! k).
Proof.
  rewrite list_elem_of_fmap. split.
  - intros [[k' v] [-> Hkv]]. apply elem_of_map_iter in Hkv. by exists v.
  - intros [v Hv]. exists (k, v). by rewrite elem_of_map_iter.
Qed.

Lemma length_map_iter m : length (map_iter m) = size m.
Proof. unfold map_iter. rewrite merge_sort_Permutation. apply length_map_to_list. Qed.

Lemma map_begin_None m : map_begin m = None ↔ m = ∅.
Proof.
  unfold map_begin. split.
  - intros H. apply map_size_empty_inv. rewrite <- length_map_iter.
    by destruct (map_iter m).
  - intros ->. done.
Qed.

Lemma map_begin_Some m k v :
  map_begin m = Some (k, v) →
  m !! k = Some v ∧ ∀ k' v', m !! k' = Some v' → k <= k'.
Proof.
  unfold map_begin. intros H.
  pose proof (map_iter_sorted m) as Hs. pose proof (elem_of_map_iter m) as He.
  destruct (map_iter m) as [|[k0 v0] l]; [done|]. simplify_eq/=. split.
  - apply He. left.
  - intros k' v' Hk'. apply He in Hk'. inversion Hs as [|? ? _ Hall]; subst.
    rewrite Forall_forall in Hall.
    apply list_elem_of_In in Hk'. destruct Hk' as [Hk'|Hk']; [simplify_eq; lia|].
    apply list_elem_of_In in Hk'. by apply Hall in Hk'.
Qed.

Lemma lookup_map_index (d : V) k m : map_index d k m !! k = Some (default d (m !! k)).
Proof. unfold map_index. destruct (m !! k) eqn:E; simpl; [done|]. by simplify_map_eq. Qed.

Lemma lookup_map_index_ne (d : V) k k' m : k ≠ k' → map_index d k m !! k' = m !! k'.
Proof. intros. unfold map_index. destruct (m !! k); [done|]. by simplify_map_eq. Qed.

Lemma map_index_present (d : V) k m : is_Some (m !! k) → map_index d k m = m.
Proof. intros [v Hv]. unfold map_index. by rewrite Hv. Qed.
End OrderedMaps.

Lemma elem_of_set_iter (X : gset Z) x : x ∈ set_iter X ↔ x ∈ X.
Proof. unfold set_iter. rewrite merge_sort_Permutation. apply elem_of_elements. Qed.

Create Rewrite HintDb ordered.
#[export] Hint Rewrite @elem_of_map_iter elem_of_set_iter @map_iter_keys : ordered.

(** [emits_auto] does the same for what an action writes. *)
Ltac emits_auto :=
  repeat lazymatch goal with
  | |- emits _ (_ ≫= _) => apply emits_bind; [|intros ?]
  | |- emits _ (when _ _) => apply emits_when
  | |- emits _ (forM_ _ _) => apply emits_forM; intros ? ?
  | |- emits _ (mret _) => apply emits_ret
  | |- emits _ (raise _) => apply emits_raise
  | |- emits _ get => apply emits_get
  | |- emits _ (emit _) => apply emits_emit
  | |- emits _ (require _) => apply emits_require
  | |- emits _ (modify _) => apply emits_modify
  | |- emits _ (match ?x with _ => _ end) => destruct x eqn:?
  end.
