(* ===== verification/ByteBuffer.v ===== *)
(** ByteBuffer and WorldPacket, the byte stream every packet is read from and
    written to (src/server/shared/Packets/).  The buffer operations are actions
    on the two positions and the storage; above them a packet is a list of
    typed fields, and the theorems of this file say that writing fields and
    reading them back is the identity and that a read never leaves the
    storage. *)

From S2P Require Import Prelude.

(** ** Little-endian encoding *)

Fixpoint le_bytes (n : nat) (z : Z) : list Z :=
  match n with
  | O => []
  | S n' => (z mod 256) :: le_bytes n' (z / 256)
  end.

Fixpoint le_val (l : list Z) : Z :=
  match l with
  | [] => 0
  | b :: l' => b + 256 * le_val l'
  end.

(** [EndianConvert] makes the in-memory bytes little-endian on either kind of
    machine, so a value of [n] bytes is stored as [le_bytes n]. *)
Definition from_bytes (signed : bool) (l : list Z) : Z :=
  if signed then wraps (8 * Z.of_nat (length l)) (le_val l) else le_val l.

(** ** The buffer *)

Record ByteBuffer := mkByteBuffer {
  _rpos : Z;
  _wpos : Z;
  _storage : list Z;
}.
#[export] Instance eta_ByteBuffer : Eta ByteBuffer :=
  λ r, mkByteBuffer (_rpos r) (_wpos r) (_storage r).

Definition bb (A : Type) : Type := act ByteBuffer Empty_set A.

Definition bb_empty : ByteBuffer := mkByteBuffer 0 0 [].

Definition bb_size (b : ByteBuffer) : Z := Z.of_nat (length (_storage b)).

Definition clear : bb unit := modify (λ _, bb_empty).

(** [memcpy(&_storage[pos], src, cnt)]. *)
Definition memcpy_to (pos : Z) (src : list Z) (st : list Z) : list Z :=
  take (Z.to_nat pos) st ++ src ++ drop (Z.to_nat pos + length src) st.

Definition vector_resize (n : Z) (st : list Z) : list Z :=
  take (Z.to_nat n) st ++ replicate (Z.to_nat n - length st) 0.

Definition append_raw (src : list Z) : bb unit :=
  b ← get;
  let cnt := Z.of_nat (length src) in
  if cnt =? 0 then raise (BBSource (_wpos b) (bb_size b) cnt) else
  if negb (bb_size b <? 10000000) then raise AssertFailed else
  let st := if bb_size b <? u64 (_wpos b + cnt)
            then vector_resize (u64 (_wpos b + cnt)) (_storage b) else _storage b in
  if Z.of_nat (length st) <? _wpos b + cnt then raise OutOfBounds else
  put (b <| _storage := memcpy_to (_wpos b) src st |>
         <| _wpos := u64 (_wpos b + cnt) |>).

Definition put_raw (pos : Z) (src : list Z) : bb unit :=
  b ← get;
  let cnt := Z.of_nat (length src) in
  if bb_size b <? u64 (pos + cnt) then raise (BBPosition true pos cnt (bb_size b)) else
  if bb_size b <? pos + cnt then raise OutOfBounds else
  put (b <| _storage := memcpy_to pos src (_storage b) |>).

(** [append<T>] and [put<T>] for a scalar of [n] bytes. *)
Definition append (n : nat) (value : Z) : bb unit := append_raw (le_bytes n value).
Definition put_num (n : nat) (pos : Z) (value : Z) : bb unit :=
  put_raw pos (le_bytes n value).

Definition lshift_unsigned (n : nat) (value : Z) : bb unit := append n value.
Definition lshift_signed (n : nat) (value : Z) : bb unit := append n value.
(** A floating point value is written as the bytes of its representation. *)
Definition lshift_floating (n : nat) (bits : Z) : bb unit := append n bits.

Definition lshift_string (value : string) : bb unit :=
  when (0 <? Z.of_nat (String.length value)) (append_raw (string_bytes value)) ;;
  append 1 0.

(** [read<T>(pos)]: the check is on the unsigned sum. *)
Definition read_at (signed : bool) (n : nat) (pos : Z) : bb Z :=
  b ← get;
  if bb_size b <? u64 (pos + Z.of_nat n)
  then raise (BBPosition false pos (Z.of_nat n) (bb_size b)) else
  if bb_size b <? pos + Z.of_nat n then raise OutOfBounds else
  mret (from_bytes signed (take n (drop (Z.to_nat pos) (_storage b)))).

Definition read (signed : bool) (n : nat) : bb Z :=
  b ← get;
  r ← read_at signed n (_rpos b);
  modify (λ b, b <| _rpos := u64 (_rpos b + Z.of_nat n) |>) ;;
  mret r.

Definition rshift_bool : bb bool := c ← read true 1; mret (bool_decide (c > 0)).
Definition rshift_unsigned (n : nat) : bb Z := read false n.
Definition rshift_signed (n : nat) : bb Z := read true n.
Definition rshift_floating (n : nat) : bb Z := read false n.

(** [operator>>(std::string&)]: the loop runs at most once per byte left. *)
Fixpoint rshift_string_loop (fuel : nat) (value : list Z) : bb (list Z) :=
  b ← get;
  if negb (_rpos b <? bb_size b) then mret value else
  match fuel with
  | O => raise OutOfFuel
  | S fuel' =>
      c ← read false 1;
      if c =? 0 then mret value else rshift_string_loop fuel' (value ++ [c])
  end.

Definition rshift_string : bb string :=
  b ← get;
  l ← rshift_string_loop (Z.to_nat (bb_size b - _rpos b)) [];
  mret (bytes_string l).

Definition operator_index (pos : Z) : bb Z :=
  b ← get;
  if bb_size b <=? pos then raise (BBPosition false pos 1 (bb_size b)) else
  match _storage b !! Z.to_nat pos with
  | Some x => mret x
  | None => raise OutOfBounds
  end.

Definition set_rpos (rpos_ : Z) : bb Z :=
  modify (λ b, b <| _rpos := rpos_ |>) ;; mret rpos_.
Definition set_wpos (wpos_ : Z) : bb Z :=
  modify (λ b, b <| _wpos := wpos_ |>) ;; mret wpos_.
Definition rfinish : bb unit := modify (λ b, b <| _rpos := _wpos b |>).

Definition read_skip (skip : Z) : bb unit :=
  b ← get;
  if bb_size b <? u64 (_rpos b + skip)
  then raise (BBPosition false (_rpos b) skip (bb_size b)) else
  put (b <| _rpos := u64 (_rpos b + skip) |>).

(** [read(uint8* dest, size_t len)]; the bytes copied are the result. *)
Definition read_bytes (len : nat) : bb (list Z) :=
  b ← get;
  if bb_size b <? u64 (_rpos b + Z.of_nat len)
  then raise (BBPosition false (_rpos b) (Z.of_nat len) (bb_size b)) else
  if bb_size b <? _rpos b + Z.of_nat len then raise OutOfBounds else
  put (b <| _rpos := u64 (_rpos b + Z.of_nat len) |>) ;;
  mret (take len (drop (Z.to_nat (_rpos b)) (_storage b))).

(** The body of the [for] loop of [readPackGUID]. *)
Fixpoint readPackGUID_loop (guidmark : Z) (k : nat) (i : Z) (guid : Z) : bb Z :=
  match k with
  | O => mret guid
  | S k' =>
      if has_flag guidmark (Z.shiftl 1 i) then
        b ← get;
        if bb_size b <? u64 (_rpos b + 1)
        then raise (BBPosition false (_rpos b) 1 (bb_size b)) else
        bit ← rshift_unsigned 1;
        readPackGUID_loop guidmark k' (i + 1) (Z.lor guid (Z.shiftl bit (i * 8)))
      else readPackGUID_loop guidmark k' (i + 1) guid
  end.

Definition readPackGUID : bb Z :=
  b ← get;
  if bb_size b <? u64 (_rpos b + 1)
  then raise (BBPosition false (_rpos b) 1 (bb_size b)) else
  guidmark ← rshift_unsigned 1;
  readPackGUID_loop guidmark 8 0 0.

Definition resize (newsize : Z) : bb unit :=
  modify (λ b, mkByteBuffer 0 (Z.of_nat (length (vector_resize newsize (_storage b))))
                              (vector_resize newsize (_storage b))).

(** [append(ByteBuffer const&)] copies [wpos()] bytes of the contents. *)
Definition append_buffer (buffer : ByteBuffer) : bb unit :=
  when (negb (_wpos buffer =? 0))
    (if bb_size buffer <? _wpos buffer then raise OutOfBounds
     else append_raw (take (Z.to_nat (_wpos buffer)) (_storage buffer))).

(** The [for] loop of [appendPackGUID]: [guid] is shifted right until it is 0,
    at most eight times for a 64-bit value. *)
Fixpoint appendPackGUID_loop (fuel : nat) (i : Z) (guid mark : Z) (bytes : list Z) :
    Z * list Z :=
  if guid =? 0 then (mark, bytes) else
  match fuel with
  | O => (mark, bytes)
  | S fuel' =>
      if negb (Z.land guid 255 =? 0) then
        appendPackGUID_loop fuel' (i + 1) (Z.shiftr guid 8)
          (Z.lor mark (u8 (Z.shiftl 1 i))) (bytes ++ [u8 (Z.land guid 255)])
      else appendPackGUID_loop fuel' (i + 1) (Z.shiftr guid 8) mark bytes
  end.

Definition appendPackGUID (guid : Z) : bb unit :=
  let '(mark, bytes) := appendPackGUID_loop 8 0 guid 0 [] in
  append_raw (mark :: bytes).

(** ** Packed time *)

(** The fields of [struct tm] the two functions use. *)
Record tm := mktm {
  tm_min : Z; tm_hour : Z; tm_mday : Z; tm_mon : Z; tm_year : Z; tm_wday : Z }.

Definition ReadPackedTime_tm (packedDate : Z) : tm :=
  mktm (Z.land packedDate 63)
       (Z.land (Z.shiftr packedDate 6) 31)
       (Z.land (Z.shiftr packedDate 14) 63 + 1)
       (Z.land (Z.shiftr packedDate 20) 15)
       (Z.land (Z.shiftr packedDate 24) 31 + 100)
       0.

(** [mktime_tz] is the C library's [mktime(&lt) + timezone]. *)
Definition ReadPackedTime (mktime_tz : tm → Z) : bb Z :=
  packedDate ← read false 4;
  mret (u32 (mktime_tz (ReadPackedTime_tm packedDate))).

Definition pack_time (lt : tm) : Z :=
  Z.lor (Z.lor (Z.lor (Z.lor (Z.lor
    (Z.shiftl (tm_year lt - 100) 24) (Z.shiftl (tm_mon lt) 20))
    (Z.shiftl (tm_mday lt - 1) 14)) (Z.shiftl (tm_wday lt) 11))
    (Z.shiftl (tm_hour lt) 6)) (tm_min lt).

(** [localtime] is the C library's. *)
Definition AppendPackedTime (localtime : Z → tm) (time : Z) : bb unit :=
  append 4 (u32 (pack_time (localtime time))).

(** ** Containers

    A [Wire] instance says how values of a type are written and read and which
    bytes stand for them; the container templates are written against it. *)

(** [m] appends exactly [bs] to any buffer that is written at its end and has
    room under the size ASSERT. *)
Definition writes (m : bb unit) (bs : list Z) : Prop :=
  ∀ b, _wpos b = bb_size b → bb_size b + Z.of_nat (length bs) <= 10000000 →
    m b = Done tt (b <| _storage := _storage b ++ bs |>
                     <| _wpos := bb_size b + Z.of_nat (length bs) |>) [].

(** [m] reads [x] from any buffer whose bytes at the read position are [bs]. *)
Definition reads {T} (m : bb T) (bs : list Z) (x : T) : Prop :=
  ∀ b pre post, _storage b = pre ++ bs ++ post → _rpos b = Z.of_nat (length pre) →
    bb_size b < 2 ^ 63 →
    m b = Done x (b <| _rpos := _rpos b + Z.of_nat (length bs) |>) [].

Class Wire (T : Type) := {
  wire_ok : T → Prop;
  wire_bytes : T → list Z;
  wire_write : T → bb unit;
  wire_read : bb T;
  wire_write_spec x : wire_ok x → writes (wire_write x) (wire_bytes x);
  wire_read_spec x : wire_ok x → reads wire_read (wire_bytes x) x;
}.

Section Containers.
Context `{Wire T}.

(** [operator<<] and [operator>>] for [std::vector<T>] and [std::list<T>]. *)
Definition lshift_seq (v : list T) : bb unit :=
  lshift_unsigned 4 (u32 (Z.of_nat (length v))) ;; forM_ v wire_write.

Fixpoint rshift_seq_loop (vsize : nat) (v : list T) : bb (list T) :=
  match vsize with
  | O => mret v
  | S vsize' => t ← wire_read; rshift_seq_loop vsize' (v ++ [t])
  end.

Definition rshift_seq : bb (list T) :=
  vsize ← rshift_unsigned 4; rshift_seq_loop (Z.to_nat vsize) [].
End Containers.

Section MapContainers.
Context `{Wire V}.
(** [operator<<] and [operator>>] for [std::map<uint32, V>]: [insert] keeps
    the first pair of a repeated key. *)
Definition lshift_map (m : gmap Z V) : bb unit :=
  lshift_unsigned 4 (u32 (Z.of_nat (length (map_iter m)))) ;;
  forM_ (map_iter m) (λ kv, lshift_unsigned 4 kv.1 ;; wire_write kv.2).

Fixpoint rshift_map_loop (msize : nat) (m : gmap Z V) : bb (gmap Z V) :=
  match msize with
  | O => mret m
  | S msize' =>
      k ← rshift_unsigned 4;
      v ← wire_read;
      rshift_map_loop msize' (match m !! k with Some _ => m | None => <[k := v]> m end)
  end.

Definition rshift_map : bb (gmap Z V) :=
  msize ← rshift_unsigned 4; rshift_map_loop (Z.to_nat msize) ∅.
End MapContainers.

(** ** Packets as typed fields

    The rest of the development writes packets as an opcode and the list of
    fields streamed into it. *)

Inductive field :=
  | U8 (z : Z) | U16 (z : Z) | U32 (z : Z) | U64 (z : Z)
  | I8 (z : Z) | I16 (z : Z) | I32 (z : Z) | I64 (z : Z)
  | F32 (bits : Z)
  | Str (s : string).

Inductive kind := KU8 | KU16 | KU32 | KU64 | KI8 | KI16 | KI32 | KI64 | KF32 | KStr.

Definition field_kind (f : field) : kind :=
  match f with
  | U8 _ => KU8 | U16 _ => KU16 | U32 _ => KU32 | U64 _ => KU64
  | I8 _ => KI8 | I16 _ => KI16 | I32 _ => KI32 | I64 _ => KI64
  | F32 _ => KF32 | Str _ => KStr
  end.

Definition write_field (f : field) : bb unit :=
  match f with
  | U8 z => lshift_unsigned 1 z | U16 z => lshift_unsigned 2 z
  | U32 z => lshift_unsigned 4 z | U64 z => lshift_unsigned 8 z
  | I8 z => lshift_signed 1 z | I16 z => lshift_signed 2 z
  | I32 z => lshift_signed 4 z | I64 z => lshift_signed 8 z
  | F32 z => lshift_floating 4 z
  | Str s => lshift_string s
  end.

Definition read_field (k : kind) : bb field :=
  match k with
  | KU8 => z ← rshift_unsigned 1; mret (U8 z)
  | KU16 => z ← rshift_unsigned 2; mret (U16 z)
  | KU32 => z ← rshift_unsigned 4; mret (U32 z)
  | KU64 => z ← rshift_unsigned 8; mret (U64 z)
  | KI8 => z ← rshift_signed 1; mret (I8 z)
  | KI16 => z ← rshift_signed 2; mret (I16 z)
  | KI32 => z ← rshift_signed 4; mret (I32 z)
  | KI64 => z ← rshift_signed 8; mret (I64 z)
  | KF32 => z ← rshift_floating 4; mret (F32 z)
  | KStr => s ← rshift_string; mret (Str s)
  end.

Definition field_bytes (f : field) : list Z :=
  match f with
  | U8 z | I8 z => le_bytes 1 z
  | U16 z | I16 z => le_bytes 2 z
  | U32 z | I32 z | F32 z => le_bytes 4 z
  | U64 z | I64 z => le_bytes 8 z
  | Str s => string_bytes s ++ [0]
  end.

(** The value fits its type; a string has no NUL inside. *)
Definition field_ok (f : field) : Prop :=
  match f with
  | U8 z => 0 <= z < 2 ^ 8 | U16 z => 0 <= z < 2 ^ 16
  | U32 z | F32 z => 0 <= z < 2 ^ 32 | U64 z => 0 <= z < 2 ^ 64
  | I8 z => - 2 ^ 7 <= z < 2 ^ 7 | I16 z => - 2 ^ 15 <= z < 2 ^ 15
  | I32 z => - 2 ^ 31 <= z < 2 ^ 31 | I64 z => - 2 ^ 63 <= z < 2 ^ 63
  | Str s => (0 : Z) ∉ string_bytes s
  end.

Definition packet_bytes (fs : list field) : list Z := fs ≫= field_bytes.

Fixpoint write_fields (fs : list field) : bb unit :=
  match fs with
  | [] => mret tt
  | f :: fs' => write_field f ;; write_fields fs'
  end.

Fixpoint read_fields (ks : list kind) : bb (list field) :=
  match ks with
  | [] => mret []
  | k :: ks' => f ← read_field k; fs ← read_fields ks'; mret (f :: fs)
  end.

(** [WorldPacket]: the buffer with the opcode it is sent under. *)
Record WorldPacket := mkWorldPacket { m_opcode : Z; body : list field }.
#[export] Instance eta_WorldPacket : Eta WorldPacket :=
  λ r, mkWorldPacket (m_opcode r) (body r).

Definition Initialize (opcode : Z) : WorldPacket := mkWorldPacket opcode [].
(** [data << f]. *)
Definition stream (data : WorldPacket) (f : field) : WorldPacket :=
  data <| body ::= (λ b, b ++ [f]) |>.
Notation "data <+ f" := (stream data f) (at level 45, left associativity).
(** [size_t pos = data.wpos()] and [data.put<T>(pos, v)], with the position
    counted in fields. *)
Definition packet_wpos (data : WorldPacket) : nat := length (body data).
Definition packet_put (pos : nat) (f : field) (data : WorldPacket) : WorldPacket :=
  data <| body ::= <[pos := f]> |>.

(** ** Encoding lemmas *)

Lemma length_le_bytes n z : length (le_bytes n z) = n.
Proof. revert z. induction n; simpl; auto. Qed.

Lemma le_bytes_ok n z : Forall byte_ok (le_bytes n z).
Proof.
  revert z. induction n; intros z; simpl; constructor; [|done].
  apply Z.mod_pos_bound. lia.
Qed.

Lemma le_val_le_bytes n z : le_val (le_bytes n z) = z mod 2 ^ (8 * Z.of_nat n).
Proof.
  revert z. induction n as [|n IH]; intros z; simpl.
  { by rewrite Z.mod_1_r. }
  rewrite IH, Nat2Z.inj_succ, Z.mul_succ_r, Z.pow_add_r by lia.
  rewrite (Z.mul_comm _ (2 ^ 8)). change (2 ^ 8) with 256.
  rewrite Z.rem_mul_r by lia. done.
Qed.

Lemma le_bytes_le_val l : Forall byte_ok l → le_bytes (length l) (le_val l) = l.
Proof.
  induction 1 as [|b l Hb Hl IH]; simpl; [done|]. unfold byte_ok in Hb. f_equal.
  - rewrite Z.mul_comm, Z_mod_plus_full. apply Z.mod_small. lia.
  - rewrite Z.mul_comm, Z_div_plus_full, Z.div_small by lia. done.
Qed.

Lemma from_bytes_unsigned n z :
  0 <= z < 2 ^ (8 * Z.of_nat n) → from_bytes false (le_bytes n z) = z.
Proof. intros Hz. unfold from_bytes. rewrite le_val_le_bytes. by apply Z.mod_small. Qed.

Lemma from_bytes_signed n z :
  (0 < n)%nat → - 2 ^ (8 * Z.of_nat n - 1) <= z < 2 ^ (8 * Z.of_nat n - 1) →
  from_bytes true (le_bytes n z) = z.
Proof.
  intros Hn Hz. unfold from_bytes. rewrite le_val_le_bytes, length_le_bytes.
  transitivity (wraps (8 * Z.of_nat n) z); [|apply wraps_id; lia].
  unfold wraps. by rewrite Zplus_mod_idemp_l.
Qed.

Lemma length_string_bytes s : length (string_bytes s) = String.length s.
Proof. induction s; simpl; auto. Qed.

(** ** Writing *)

Lemma append_raw_writes bs : bs ≠ [] → writes (append_raw bs) bs.
Proof.
  intros Hne b Hw Hsz.
  assert (0 < Z.of_nat (length bs)) by (destruct bs; simpl in *; [done|lia]).
  assert (0 <= bb_size b) by (unfold bb_size; lia).
  unfold append_raw, get, put, mbind, act_bind. cbn -[Z.of_nat u64 Z.eqb Z.ltb].
  rewrite (proj2 (Z.eqb_neq _ _)) by lia.
  rewrite (proj2 (Z.ltb_lt (bb_size b) 10000000)) by lia. cbn -[Z.of_nat u64 Z.ltb].
  rewrite Hw, wrapu_id by lia.
  rewrite (proj2 (Z.ltb_lt (bb_size b) _)) by lia.
  assert (vector_resize (bb_size b + Z.of_nat (length bs)) (_storage b)
          = _storage b ++ replicate (length bs) 0) as ->.
  { unfold vector_resize, bb_size in *. rewrite take_ge by lia. do 2 f_equal. lia. }
  assert (Z.of_nat (length (_storage b ++ replicate (length bs) 0))
          = bb_size b + Z.of_nat (length bs)) as ->.
  { rewrite length_app, length_replicate. unfold bb_size. lia. }
  rewrite Z.ltb_irrefl. unfold memcpy_to, bb_size. do 2 f_equal.
  rewrite Nat2Z.id, take_app_length, drop_ge, app_nil_r; [done|].
  rewrite length_app, length_replicate. lia.
Qed.

Lemma writes_ret : writes (mret tt) [].
Proof.
  intros b Hw _. unfold mret, act_ret. destruct b as [r w st]; simpl in *.
  rewrite app_nil_r. unfold bb_size; simpl. do 2 f_equal. unfold bb_size in Hw; simpl in Hw. lia.
Qed.

Lemma writes_bind m1 m2 bs1 bs2 :
  writes m1 bs1 → writes m2 bs2 → writes (m1 ;; m2) (bs1 ++ bs2).
Proof.
  intros H1 H2 b Hw Hsz. rewrite length_app in Hsz.
  unfold mbind, act_bind. rewrite H1 by lia.
  rewrite H2; cycle 1.
  { unfold bb_size. simpl. rewrite length_app. lia. }
  { unfold bb_size in *. simpl. rewrite length_app. lia. }
  unfold prepend, bb_size. destruct b; simpl. rewrite <- app_assoc, !length_app.
  do 2 f_equal. lia.
Qed.

Lemma append_writes n z : (0 < n)%nat → writes (append n z) (le_bytes n z).
Proof. intros Hn. apply append_raw_writes. destruct n; [lia|done]. Qed.

Lemma lshift_string_writes s : writes (lshift_string s) (string_bytes s ++ [0]).
Proof.
  unfold lshift_string. apply writes_bind; [|apply (append_writes 1 0); lia].
  destruct s as [|a s]; [apply writes_ret|]. apply append_raw_writes. done.
Qed.

Lemma write_field_writes f : writes (write_field f) (field_bytes f).
Proof. destruct f; simpl; try (apply append_writes; lia). apply lshift_string_writes. Qed.

Lemma write_fields_writes fs : writes (write_fields fs) (packet_bytes fs).
Proof.
  induction fs as [|f fs IH]; [apply writes_ret|].
  apply writes_bind; [apply write_field_writes|done].
Qed.

(** ** Reading *)

Lemma reads_ret {T} (x : T) : reads (mret x) [] x.
Proof.
  intros b pre post _ Hr _. unfold mret, act_ret. destruct b; simpl in *.
  do 2 f_equal. lia.
Qed.

Lemma reads_bind {T U} (m : bb T) (f : T → bb U) bs1 bs2 x y :
  reads m bs1 x → reads (f x) bs2 y → reads (m ≫= f) (bs1 ++ bs2) y.
Proof.
  intros H1 H2 b pre post Hst Hr Hsz. unfold mbind, act_bind.
  rewrite (H1 b pre (bs2 ++ post)) by (rewrite <- ?app_assoc in *; done).
  rewrite (H2 _ (pre ++ bs1) post); simpl.
  - rewrite length_app. destruct b; simpl. do 2 f_equal. lia.
  - rewrite Hst. by rewrite <- !app_assoc.
  - rewrite length_app. lia.
  - done.
Qed.

Lemma reads_fmap {T U} (m : bb T) (g : T → U) bs x :
  reads m bs x → reads (y ← m; mret (g y)) bs (g x).
Proof.
  intros H. rewrite <- (app_nil_r bs). eapply reads_bind; [done|]. apply reads_ret.
Qed.

(** One in-range read, the common core of the scalar readers. *)
Lemma read_at_Done signed n b pre bs post :
  _storage b = pre ++ bs ++ post → length bs = n → bb_size b < 2 ^ 63 →
  read_at signed n (Z.of_nat (length pre)) b = Done (from_bytes signed bs) b [].
Proof.
  intros Hst Hn Hsz. assert (bb_size b = Z.of_nat (length pre + n + length post)) as E.
  { unfold bb_size. rewrite Hst, !length_app. lia. }
  unfold read_at, get, mbind, act_bind. cbn -[Z.of_nat u64 Z.ltb].
  rewrite wrapu_id by lia.
  rewrite (proj2 (Z.ltb_ge _ _)) by lia. rewrite Hst, Nat2Z.id, drop_app_length.
  rewrite take_app_le, take_ge by lia. done.
Qed.

Lemma read_reads signed n bs :
  length bs = n → reads (read signed n) bs (from_bytes signed bs).
Proof.
  intros Hn b pre post Hst Hr Hsz. unfold read, mbind, act_bind, get.
  cbn -[Z.of_nat u64 read_at]. rewrite Hr, (read_at_Done signed n b pre bs post) by done.
  cbn -[Z.of_nat u64]. rewrite Hr, Hn. assert (Z.of_nat (length pre + n) <= bb_size b).
  { unfold bb_size. rewrite Hst, !length_app. lia. }
  rewrite wrapu_id by lia. done.
Qed.

Lemma read_unsigned_reads n z :
  0 <= z < 2 ^ (8 * Z.of_nat n) → reads (rshift_unsigned n) (le_bytes n z) z.
Proof.
  intros Hz. rewrite <- (from_bytes_unsigned n z Hz) at 2.
  apply read_reads, length_le_bytes.
Qed.

Lemma read_signed_reads n z :
  (0 < n)%nat → - 2 ^ (8 * Z.of_nat n - 1) <= z < 2 ^ (8 * Z.of_nat n - 1) →
  reads (rshift_signed n) (le_bytes n z) z.
Proof.
  intros Hn Hz. rewrite <- (from_bytes_signed n z Hn Hz) at 2.
  apply read_reads, length_le_bytes.
Qed.

Lemma le_bytes_1 c : 0 <= c < 256 → le_bytes 1 c = [c].
Proof. intros. simpl. by rewrite Z.mod_small. Qed.

Lemma loop_in_range (b : ByteBuffer) pre c post :
  _storage b = pre ++ c :: post → _rpos b = Z.of_nat (length pre) →
  (_rpos b <? bb_size b) = true.
Proof.
  intros Hst ->. apply Z.ltb_lt. unfold bb_size. rewrite Hst, length_app. simpl. lia.
Qed.

Lemma string_loop_reads fuel l v :
  (length l < fuel)%nat → Forall byte_ok l → 0 ∉ l →
  reads (rshift_string_loop fuel v) (l ++ [0]) (v ++ l).
Proof.
  revert fuel v. induction l as [|c l IH]; intros fuel v Hf Hl Hz;
    (destruct fuel as [|fuel]; [simpl in Hf; lia|]); intros b pre post Hst Hr Hsz;
    cbn [rshift_string_loop]; unfold mbind at 1, act_bind at 1, get at 1.
  - rewrite (loop_in_range b pre 0 post) by done. cbn [negb].
    cut (reads (c ← read false 1; if c =? 0 then mret v
                else rshift_string_loop fuel (v ++ [c])) ([0] ++ []) (v ++ [])).
    { intros H. rewrite (H b pre post) by done. done. }
    apply reads_bind with (x := 0).
    + apply (read_unsigned_reads 1 0). simpl. lia.
    + rewrite app_nil_r. apply reads_ret.
  - rewrite (loop_in_range b pre c (l ++ [0] ++ post)); [|by rewrite Hst, <- app_assoc|done].
    cbn [negb]. inversion Hl as [|? ? Hc Hl']; subst.
    cut (reads (c0 ← read false 1; if c0 =? 0 then mret v
                else rshift_string_loop fuel (v ++ [c0])) ([c] ++ (l ++ [0])) (v ++ c :: l)).
    { intros H. rewrite (H b pre post) by done. done. }
    apply reads_bind with (x := c).
    + rewrite <- (le_bytes_1 c) by (unfold byte_ok in Hc; lia).
      apply read_unsigned_reads. unfold byte_ok in Hc. simpl. lia.
    + rewrite (proj2 (Z.eqb_neq c 0)) by set_solver.
      replace (v ++ c :: l) with ((v ++ [c]) ++ l) by (by rewrite <- app_assoc).
      apply IH; [simpl in Hf; lia|done|set_solver].
Qed.

Lemma rshift_string_reads s :
  0 ∉ string_bytes s → reads rshift_string (string_bytes s ++ [0]) s.
Proof.
  intros Hs b pre post Hst Hr Hsz. unfold rshift_string.
  cut (reads (l ← rshift_string_loop (Z.to_nat (bb_size b - _rpos b)) [];
              mret (bytes_string l)) (string_bytes s ++ [0]) s).
  { intros H. unfold mbind at 1, act_bind at 1, get.
    rewrite (H b pre post) by done. done. }
  rewrite <- (bytes_string_bytes s) at 2. apply reads_fmap.
  apply (string_loop_reads _ _ []); [|apply string_bytes_ok|done].
  unfold bb_size. rewrite Hst, !length_app, Hr. simpl. lia.
Qed.

Lemma read_field_reads f : field_ok f → reads (read_field (field_kind f)) (field_bytes f) f.
Proof.
  destruct f as [z|z|z|z|z|z|z|z|z|s]; intros Hok; cbn [field_kind read_field field_bytes];
    simpl in Hok;
    try (eapply (reads_fmap _ (λ z, _ z)); apply read_unsigned_reads; simpl; lia);
    try (eapply (reads_fmap _ (λ z, _ z)); apply read_signed_reads; simpl; lia).
  apply (reads_fmap _ Str), rshift_string_reads. done.
Qed.

Lemma read_fields_reads fs :
  Forall field_ok fs → reads (read_fields (field_kind <$> fs)) (packet_bytes fs) fs.
Proof.
  induction 1 as [|f fs Hf Hfs IH]; cbn [fmap list_fmap read_fields]; [apply reads_ret|].
  change (packet_bytes (f :: fs)) with (field_bytes f ++ packet_bytes fs).
  eapply reads_bind; [by apply read_field_reads|]. by apply (reads_fmap _ (cons f)).
Qed.

(** Running the writer and then the reader on an empty buffer. *)
Definition write_then_read {T} (w : bb unit) (r : bb T) : res ByteBuffer Empty_set T :=
  (w ;; r) bb_empty.

Lemma write_then_read_Done {T} (w : bb unit) (r : bb T) bs (x : T) :
  writes w bs → reads r bs x → Z.of_nat (length bs) <= 10000000 →
  write_then_read w r =
    Done x (mkByteBuffer (Z.of_nat (length bs)) (Z.of_nat (length bs)) bs) [].
Proof.
  intros Hw Hr Hsz. unfold write_then_read, mbind, act_bind.
  rewrite Hw by (unfold bb_size; simpl; lia).
  rewrite (Hr _ [] []); unfold bb_size; simpl; rewrite ?app_nil_r; try done.
  lia.
Qed.

(** ** Packed GUIDs *)

(** The mask byte: bit [i + j] is set when byte [j] of the list is not 0. *)
Fixpoint guid_mask (i : Z) (l : list Z) : Z :=
  match l with
  | [] => 0
  | b :: l' => Z.lor (if b =? 0 then 0 else u8 (Z.shiftl 1 i)) (guid_mask (i + 1) l')
  end.

Definition nonzero (l : list Z) : list Z := filter (λ b, b ≠ 0) l.

Lemma le_bytes_zero n : nonzero (le_bytes n 0) = [] ∧ ∀ i, guid_mask i (le_bytes n 0) = 0.
Proof.
  induction n as [|n [IH1 IH2]]; [done|]. cbn [le_bytes].
  change (0 mod 256) with 0. change (0 / 256) with 0. split.
  - unfold nonzero. by rewrite filter_cons_False by lia.
  - intros i. simpl. apply IH2.
Qed.

Lemma append_loop_spec fuel i guid mark bytes :
  0 <= guid < 2 ^ (8 * Z.of_nat fuel) →
  appendPackGUID_loop fuel i guid mark bytes =
    (Z.lor mark (guid_mask i (le_bytes fuel guid)), bytes ++ nonzero (le_bytes fuel guid)).
Proof.
  revert i guid mark bytes. induction fuel as [|fuel IH]; intros i guid mark bytes Hg.
  { simpl in *. assert (guid = 0) as -> by lia. by rewrite Z.lor_0_r, app_nil_r. }
  cbn [appendPackGUID_loop]. destruct (Z.eqb_spec guid 0) as [->|Hne].
  { destruct (le_bytes_zero (S fuel)) as [E1 E2]. rewrite E1, E2.
    by rewrite Z.lor_0_r, app_nil_r. }
  assert (0 <= guid / 256 < 2 ^ (8 * Z.of_nat fuel)) as Hg'.
  { rewrite Nat2Z.inj_succ, Z.mul_succ_r, Z.pow_add_r in Hg by lia.
    change (2 ^ 8) with 256 in Hg. split; [apply Z.div_pos; lia|].
    apply Z.div_lt_upper_bound; lia. }
  assert (Z.land guid 255 = guid mod 256) as -> by (apply (Z.land_ones guid 8); lia).
  assert (Z.shiftr guid 8 = guid / 256) as -> by (apply (Z.shiftr_div_pow2 guid 8); lia).
  cbn [le_bytes guid_mask]. unfold nonzero at 1.
  destruct (Z.eqb_spec (guid mod 256) 0) as [E|E]; cbn [negb]; rewrite IH by done.
  - rewrite filter_cons_False by lia. done.
  - rewrite filter_cons_True by done. rewrite Z.lor_assoc, <- app_assoc.
    unfold u8 at 2. rewrite Z.mod_mod by lia. done.
Qed.

Lemma guid_mask_head b i k :
  0 <= i < 8 → 0 <= k →
  Z.testbit (if b =? 0 then 0 else u8 (Z.shiftl 1 i)) k = (i =? k) && negb (b =? 0).
Proof.
  intros Hi Hk. destruct (Z.eqb_spec b 0) as [->|Hb].
  { by rewrite Z.bits_0, andb_false_r. }
  rewrite Z.shiftl_1_l.
  assert (0 <= 2 ^ i < 2 ^ 8) by (split; [lia|apply Z.pow_lt_mono_r; lia]).
  rewrite wrapu_id, Z.pow2_bits_eqb by lia. by rewrite andb_true_r.
Qed.

Lemma guid_mask_low i l k :
  0 <= k < i → i + Z.of_nat (length l) <= 8 → Z.testbit (guid_mask i l) k = false.
Proof.
  revert i. induction l as [|b l IH]; intros i Hk Hl; cbn [guid_mask]; [apply Z.bits_0|].
  simpl in Hl. rewrite Z.lor_spec, guid_mask_head, IH by lia.
  by rewrite (proj2 (Z.eqb_neq i k)) by lia.
Qed.

Lemma guid_mask_at i l j b :
  0 <= i → i + Z.of_nat (length l) <= 8 → l !! j = Some b →
  Z.testbit (guid_mask i l) (i + Z.of_nat j) = negb (b =? 0).
Proof.
  revert i j. induction l as [|c l IH]; intros i j Hi Hl Hj; [done|].
  cbn [guid_mask]. simpl in Hl. rewrite Z.lor_spec, guid_mask_head by lia.
  destruct j as [|j].
  - simpl in Hj. simplify_eq. rewrite Z.add_0_r, Z.eqb_refl, guid_mask_low by lia.
    by rewrite orb_false_r.
  - simpl in Hj. rewrite (proj2 (Z.eqb_neq i _)) by lia. simpl.
    rewrite <- (IH (i + 1) j) by (done || lia). f_equal. lia.
Qed.

Lemma le_val_cons_lor b l :
  0 <= b < 256 → 0 <= le_val l → le_val (b :: l) = Z.lor b (Z.shiftl (le_val l) 8).
Proof.
  intros Hb Hl. cbn [le_val]. rewrite Z.shiftl_mul_pow2 by lia.
  change (2 ^ 8) with 256. rewrite Z.mul_comm, <- Z.add_lor_land.
  assert (Z.land b (le_val l * 256) = 0) as ->; [|lia].
  apply Z.bits_inj'. intros n Hn. rewrite Z.land_spec, Z.bits_0.
  change 256 with (2 ^ 8). destruct (decide (n < 8)).
  - rewrite Z.mul_pow2_bits_low by lia. apply andb_false_r.
  - rewrite (Z.bits_above_log2 b n); [done|lia|].
    destruct (decide (b = 0)) as [->|]; [simpl; lia|].
    apply Z.log2_lt_pow2; [lia|]. apply Z.lt_le_trans with (2 ^ 8); [lia|].
    apply Z.pow_le_mono_r; lia.
Qed.

Lemma le_val_nonneg l : Forall byte_ok l → 0 <= le_val l.
Proof. induction 1 as [|b l Hb]; simpl; unfold byte_ok in *; lia. Qed.

Lemma has_flag_pow2 mask i :
  0 <= i → has_flag mask (Z.shiftl 1 i) = Z.testbit mask i.
Proof.
  intros Hi. unfold has_flag. rewrite Z.shiftl_1_l.
  destruct (Z.testbit mask i) eqn:E.
  - apply negb_true_iff, Z.eqb_neq. intros H0.
    assert (Z.testbit (Z.land mask (2 ^ i)) i = false) as H1 by (by rewrite H0, Z.bits_0).
    rewrite Z.land_spec, E, Z.pow2_bits_true in H1 by lia. done.
  - apply negb_false_iff, Z.eqb_eq, Z.bits_inj'. intros n Hn.
    rewrite Z.land_spec, Z.bits_0, Z.pow2_bits_eqb by lia.
    destruct (Z.eqb_spec i n) as [->|]; [by rewrite E|apply andb_false_r].
Qed.

Lemma readPackGUID_loop_reads mark l i g :
  Forall byte_ok l → 0 <= i →
  (∀ j b, l !! j = Some b → Z.testbit mark (i + Z.of_nat j) = negb (b =? 0)) →
  reads (readPackGUID_loop mark (length l) i g) (nonzero l)
        (Z.lor g (Z.shiftl (le_val l) (i * 8))).
Proof.
  intros Hl. revert i g. induction Hl as [|b l Hb Hl IH]; intros i g Hi Hm.
  { cbn [length readPackGUID_loop]. simpl. rewrite Z.shiftl_0_l, Z.lor_0_r. apply reads_ret. }
  cbn [length readPackGUID_loop]. rewrite has_flag_pow2 by done.
  specialize (Hm 0%nat b eq_refl) as Hm0. rewrite Z.add_0_r in Hm0. rewrite Hm0.
  assert (∀ j b', l !! j = Some b' → Z.testbit mark (i + 1 + Z.of_nat j) = negb (b' =? 0))
    as Hm' by (intros j b' Hj; rewrite <- (Hm (S j) b' Hj); f_equal; lia).
  rewrite le_val_cons_lor by (auto using le_val_nonneg).
  rewrite Z.shiftl_lor, Z.shiftl_shiftl by lia.
  replace (8 + i * 8) with ((i + 1) * 8) by lia. rewrite Z.lor_assoc.
  unfold nonzero. destruct (Z.eqb_spec b 0) as [->|Hne]; cbn [negb].
  { rewrite filter_cons_False by lia. rewrite Z.shiftl_0_l, Z.lor_0_r. apply IH; [lia|done]. }
  rewrite filter_cons_True by done. intros buf pre post Hst Hr Hsz.
  unfold mbind at 1, act_bind at 1, get. cbv beta iota.
  assert (_rpos buf + 1 <= bb_size buf).
  { unfold bb_size. rewrite Hst, Hr, !length_app. simpl. lia. }
  rewrite wrapu_id by lia. rewrite (proj2 (Z.ltb_ge _ _)) by lia.
  set (k := λ bit, readPackGUID_loop mark (length l) (i + 1) (Z.lor g (Z.shiftl bit (i * 8)))).
  cut (reads (rshift_unsigned 1 ≫= k) ([b] ++ nonzero l)
         (Z.lor (Z.lor g (Z.shiftl b (i * 8))) (Z.shiftl (le_val l) ((i + 1) * 8)))).
  { intros H1. rewrite (H1 buf pre post) by done. done. }
  apply reads_bind with (x := b); [|apply IH; [lia|done]].
  rewrite <- (le_bytes_1 b) by (unfold byte_ok in Hb; lia).
  apply read_unsigned_reads. unfold byte_ok in Hb. simpl. lia.
Qed.

Lemma appendPackGUID_writes guid :
  0 <= guid < 2 ^ 64 →
  writes (appendPackGUID guid)
    (guid_mask 0 (le_bytes 8 guid) :: nonzero (le_bytes 8 guid)).
Proof.
  intros Hg. unfold appendPackGUID. rewrite append_loop_spec by (simpl; lia).
  rewrite Z.lor_0_l. by apply append_raw_writes.
Qed.

Lemma guid_mask_range l i : 0 <= i → i + Z.of_nat (length l) <= 8 → 0 <= guid_mask i l < 256.
Proof.
  revert i. induction l as [|b l IH]; intros i Hi Hl; cbn [guid_mask]; [lia|].
  simpl in Hl. pose proof (IH (i + 1) ltac:(lia) ltac:(lia)) as H1.
  assert (0 <= (if b =? 0 then 0 else u8 (Z.shiftl 1 i)) < 2 ^ 8) as H2.
  { destruct (b =? 0); [lia|apply wrapu_range; lia]. }
  set (h := if b =? 0 then 0 else u8 (Z.shiftl 1 i)) in *. clearbody h.
  assert (0 <= Z.lor h (guid_mask (i + 1) l)) as H3 by (apply Z.lor_nonneg; lia).
  split; [done|]. destruct (decide (Z.lor h (guid_mask (i + 1) l) = 0)) as [->|Hne]; [lia|].
  change 256 with (2 ^ 8). apply Z.log2_lt_pow2; [lia|].
  rewrite Z.log2_lor by lia. apply Z.max_lub_lt.
  - destruct (decide (h = 0)) as [->|]; [simpl; lia|]. apply Z.log2_lt_pow2; lia.
  - destruct (decide (guid_mask (i + 1) l = 0)) as [->|]; [simpl; lia|].
    apply Z.log2_lt_pow2; lia.
Qed.

Lemma readPackGUID_reads guid :
  0 <= guid < 2 ^ 64 →
  reads readPackGUID (guid_mask 0 (le_bytes 8 guid) :: nonzero (le_bytes 8 guid)) guid.
Proof.
  intros Hg. set (l := le_bytes 8 guid). set (m := guid_mask 0 l).
  assert (length l = 8%nat) as Hlen by apply length_le_bytes.
  assert (0 <= m < 256) as Hm by (apply guid_mask_range; rewrite ?Hlen; lia).
  intros b pre post Hst Hr Hsz. unfold readPackGUID, mbind at 1, act_bind at 1, get.
  cbv beta iota. assert (_rpos b + 1 <= bb_size b).
  { unfold bb_size. rewrite Hst, Hr, !length_app. simpl. lia. }
  rewrite wrapu_id by lia. rewrite (proj2 (Z.ltb_ge _ _)) by lia.
  cut (reads (guidmark ← rshift_unsigned 1; readPackGUID_loop guidmark 8 0 0)
         ([m] ++ nonzero l) guid).
  { intros H1. rewrite (H1 b pre post) by done. done. }
  apply reads_bind with (x := m).
  { rewrite <- (le_bytes_1 m) by lia. apply read_unsigned_reads. simpl. lia. }
  assert (guid = Z.lor 0 (Z.shiftl (le_val l) (0 * 8))) as E.
  { rewrite Z.lor_0_l, Z.shiftl_0_r. unfold l. rewrite le_val_le_bytes, Z.mod_small; [done|].
    simpl. lia. }
  rewrite E, <- Hlen. apply readPackGUID_loop_reads; [apply le_bytes_ok|lia|].
  intros j c Hj. apply guid_mask_at; [lia|rewrite Hlen; lia|done].
Qed.

(** ** Containers *)

Section ContainerLemmas.
Context `{Wire T}.

Lemma forM_writes (l : list T) :
  Forall wire_ok l → writes (forM_ l wire_write) (l ≫= wire_bytes).
Proof.
  induction 1 as [|x l Hx Hl IH]; [apply writes_ret|].
  apply writes_bind; [by apply wire_write_spec|done].
Qed.

Lemma lshift_seq_writes (v : list T) :
  Forall wire_ok v → Z.of_nat (length v) < 2 ^ 32 →
  writes (lshift_seq v) (le_bytes 4 (Z.of_nat (length v)) ++ (v ≫= wire_bytes)).
Proof.
  intros Hv Hlen. unfold lshift_seq. rewrite wrapu_id by lia.
  apply writes_bind; [apply append_writes; lia|by apply forM_writes].
Qed.

Lemma seq_loop_reads (l v : list T) :
  Forall wire_ok l → reads (rshift_seq_loop (length l) v) (l ≫= wire_bytes) (v ++ l).
Proof.
  intros Hl. revert v. induction Hl as [|x l Hx Hl IH]; intros v.
  { rewrite app_nil_r. apply reads_ret. }
  cbn [length rshift_seq_loop mbind list_bind].
  eapply reads_bind; [by apply wire_read_spec|].
  replace (v ++ x :: l) with ((v ++ [x]) ++ l) by (by rewrite <- app_assoc). apply IH.
Qed.

Lemma rshift_seq_reads (v : list T) :
  Forall wire_ok v → Z.of_nat (length v) < 2 ^ 32 →
  reads rshift_seq (le_bytes 4 (Z.of_nat (length v)) ++ (v ≫= wire_bytes)) v.
Proof.
  intros Hv Hlen. unfold rshift_seq. eapply reads_bind.
  - apply read_unsigned_reads. simpl. lia.
  - rewrite Nat2Z.id. apply (seq_loop_reads v []). done.
Qed.
End ContainerLemmas.

#[export, refine] Instance wire_unsigned : Wire Z := {|
  wire_ok z := 0 <= z < 2 ^ 32;
  wire_bytes z := le_bytes 4 z;
  wire_write z := lshift_unsigned 4 z;
  wire_read := rshift_unsigned 4;
|}.
Proof.
  - intros x _. apply append_writes. lia.
  - intros x Hx. apply read_unsigned_reads. done.
Defined.

#[export, refine] Instance wire_string : Wire string := {|
  wire_ok s := 0 ∉ string_bytes s;
  wire_bytes s := string_bytes s ++ [0];
  wire_write s := lshift_string s;
  wire_read := rshift_string;
|}.
Proof.
  - intros x _. apply lshift_string_writes.
  - intros x Hx. by apply rshift_string_reads.
Defined.

#[export, refine] Instance wire_pair `{Wire A, Wire B} : Wire (A * B) := {|
  wire_ok p := wire_ok p.1 ∧ wire_ok p.2;
  wire_bytes p := wire_bytes p.1 ++ wire_bytes p.2;
  wire_write p := wire_write p.1 ;; wire_write p.2;
  wire_read := a ← wire_read; b ← wire_read; mret (a, b);
|}.
Proof.
  - intros x [? ?]. apply writes_bind; by apply wire_write_spec.
  - intros [a b] [? ?]. eapply reads_bind; [by apply wire_read_spec|].
    apply (reads_fmap _ (pair a)). by apply wire_read_spec.
Defined.

#[export, refine] Instance wire_seq `{Wire T} : Wire (list T) := {|
  wire_ok v := Forall wire_ok v ∧ Z.of_nat (length v) < 2 ^ 32;
  wire_bytes v := le_bytes 4 (Z.of_nat (length v)) ++ (v ≫= wire_bytes);
  wire_write v := lshift_seq v;
  wire_read := rshift_seq;
|}.
Proof.
  - intros x [? ?]. by apply lshift_seq_writes.
  - intros x [? ?]. by apply rshift_seq_reads.
Defined.

Section MapLemmas.
Context `{Wire V}.

Definition pair_bytes (kv : Z * V) : list Z := le_bytes 4 kv.1 ++ wire_bytes kv.2.
Definition map_wire_ok (m : gmap Z V) : Prop :=
  (∀ k v, m !! k = Some v → 0 <= k < 2 ^ 32 ∧ wire_ok v) ∧ Z.of_nat (size m) < 2 ^ 32.
Definition map_wire_bytes (m : gmap Z V) : list Z :=
  le_bytes 4 (Z.of_nat (size m)) ++ (map_iter m ≫= pair_bytes).

Lemma lshift_map_writes m : map_wire_ok m → writes (lshift_map m) (map_wire_bytes m).
Proof.
  intros [Hm Hsz]. unfold lshift_map, map_wire_bytes. rewrite length_map_iter, wrapu_id by lia.
  apply writes_bind; [apply append_writes; lia|].
  assert (∀ kv, kv ∈ map_iter m → wire_ok kv.2) as Hok.
  { intros [k v] Hkv. apply elem_of_map_iter in Hkv. by apply Hm in Hkv as [_ ?]. }
  clear Hm. induction (map_iter m) as [|[k v] l IH]; [apply writes_ret|].
  apply writes_bind; [|apply IH; set_solver].
  apply writes_bind; [apply append_writes; lia|]. apply wire_write_spec.
  apply (Hok (k, v)). set_solver.
Qed.

Lemma map_loop_reads l (m : gmap Z V) :
  NoDup l.*1 → (∀ k, k ∈ l.*1 → m !! k = None) →
  Forall (λ kv, 0 <= kv.1 < 2 ^ 32 ∧ wire_ok kv.2) l →
  reads (rshift_map_loop (length l) m) (l ≫= pair_bytes) (list_to_map l ∪ m).
Proof.
  revert m. induction l as [|[k v] l IH]; intros m Hnd Hfresh Hall.
  { simpl. rewrite (left_id_L ∅ (∪)). apply reads_ret. }
  inversion Hall as [|? ? [Hk Hv] Hall']; subst. simpl in Hk, Hv.
  cbn [fmap list_fmap fst] in Hnd, Hfresh. apply NoDup_cons in Hnd as [Hkl Hnd].
  cbn [length rshift_map_loop mbind list_bind pair_bytes fst snd].
  unfold pair_bytes at 1. rewrite <- (assoc_L (++)).
  eapply reads_bind; [apply read_unsigned_reads; simpl; lia|].
  eapply reads_bind; [by apply wire_read_spec|]. rewrite Hfresh by set_solver.
  assert (list_to_map ((k, v) :: l) ∪ m = list_to_map l ∪ <[k := v]> m) as ->.
  { simpl. rewrite <- insert_union_l, insert_union_r; [done|].
    by apply not_elem_of_list_to_map_1. }
  apply IH; [done| |done]. intros k' Hk'. rewrite lookup_insert_ne by set_solver.
  apply Hfresh. set_solver.
Qed.

Lemma rshift_map_reads m : map_wire_ok m → reads rshift_map (map_wire_bytes m) m.
Proof.
  intros [Hm Hsz]. unfold rshift_map, map_wire_bytes. eapply reads_bind.
  { apply read_unsigned_reads. simpl. lia. }
  rewrite Nat2Z.id, <- length_map_iter.
  assert (m = list_to_map (map_iter m) ∪ ∅) as E.
  { rewrite (right_id_L ∅ (∪)). rewrite <- (list_to_map_to_list m) at 1.
    apply list_to_map_proper; [|unfold map_iter; by rewrite merge_sort_Permutation].
    apply NoDup_fst_map_to_list. }
  rewrite E at 3. apply map_loop_reads; [apply NoDup_map_iter|done|].
  apply Forall_forall. intros [k v] Hkv. apply elem_of_map_iter in Hkv.
  by apply Hm in Hkv.
Qed.
End MapLemmas.

#[export, refine] Instance wire_map `{Wire V} : Wire (gmap Z V) := {|
  wire_ok := map_wire_ok;
  wire_bytes := map_wire_bytes;
  wire_write := lshift_map;
  wire_read := rshift_map;
|}.
Proof. - apply lshift_map_writes. - apply rshift_map_reads. Defined.

(** ** Reads stay inside the storage *)

Definition bb_wf (b : ByteBuffer) : Prop := 0 <= _rpos b <= bb_size b ∧ bb_size b < 2 ^ 63.

(** From a well-formed buffer [m] ends normally, or with the position exception;
    either way the storage is what it was and the read position is inside. *)
Definition reader_safe {T} (m : bb T) : Prop :=
  ∀ b, bb_wf b →
    match m b with
    | Done _ b' _ => _storage b' = _storage b ∧ bb_wf b' ∧ _rpos b <= _rpos b'
    | Fault f b' _ => _storage b' = _storage b ∧ bb_wf b' ∧ _rpos b <= _rpos b' ∧
        ∃ pos n, f = BBPosition false pos n (bb_size b)
    end.

Lemma safe_ret {T} (x : T) : reader_safe (mret x).
Proof. intros b Hb. simpl. auto with lia. Qed.

Lemma bb_size_storage b b' : _storage b' = _storage b → bb_size b' = bb_size b.
Proof. unfold bb_size. by intros ->. Qed.

Lemma safe_bind {T U} (m : bb T) (f : T → bb U) :
  reader_safe m → (∀ x, reader_safe (f x)) → reader_safe (m ≫= f).
Proof.
  intros Hm Hf b Hb. specialize (Hm b Hb). unfold mbind, act_bind.
  destruct (m b) as [x b1 t1|]; [|done]. destruct Hm as (E1 & Hw1 & Hr1).
  specialize (Hf x b1 Hw1). rewrite (bb_size_storage _ _ E1) in Hf.
  destruct (f x b1) as [y b2 t2|e b2 t2]; simpl; destruct Hf as (E2 & ? & ?);
    (split; [congruence|]); intuition lia.
Qed.

Lemma safe_read signed n : Z.of_nat n < 2 ^ 63 → reader_safe (read signed n).
Proof.
  intros Hn b [Hr Hs]. unfold read, read_at, mbind, act_bind, get.
  cbn -[Z.of_nat u64 Z.ltb]. rewrite wrapu_id by lia.
  destruct (Z.ltb_spec (bb_size b) (_rpos b + Z.of_nat n)) as [Hlt|Hge]; simpl.
  - unfold bb_wf. split_and!; try done; try lia. eauto.
  - unfold bb_wf, bb_size in *. simpl. rewrite wrapu_id by lia. split_and!; try done; lia.
Qed.

Lemma safe_get {U} (f : ByteBuffer → bb U) :
  (∀ b, bb_wf b → match f b b with
    | Done _ b' _ => _storage b' = _storage b ∧ bb_wf b' ∧ _rpos b <= _rpos b'
    | Fault e b' _ => _storage b' = _storage b ∧ bb_wf b' ∧ _rpos b <= _rpos b' ∧
        ∃ pos n, e = BBPosition false pos n (bb_size b)
    end) → reader_safe (get ≫= f).
Proof.
  intros Hf b Hb. specialize (Hf b Hb). unfold mbind, act_bind, get.
  by destruct (f b b).
Qed.

(** A read with enough bytes left. *)
Lemma read_in_range signed n b :
  bb_wf b → _rpos b + Z.of_nat n <= bb_size b →
  read signed n b =
    Done (from_bytes signed (take n (drop (Z.to_nat (_rpos b)) (_storage b))))
         (b <| _rpos := _rpos b + Z.of_nat n |>) [].
Proof.
  intros [Hr Hs] Hn. unfold read, read_at, mbind, act_bind, get.
  cbn -[Z.of_nat u64 Z.ltb]. rewrite wrapu_id by lia.
  rewrite (proj2 (Z.ltb_ge _ _)) by lia. simpl. by rewrite wrapu_id by lia.
Qed.

(** The loop of [operator>>(string&)] ends within one step per byte left. *)
Lemma safe_string_loop fuel v b :
  bb_wf b → bb_size b - _rpos b <= Z.of_nat fuel →
  match rshift_string_loop fuel v b with
  | Done _ b' _ => _storage b' = _storage b ∧ bb_wf b' ∧ _rpos b <= _rpos b'
  | Fault _ _ _ => False
  end.
Proof.
  revert v b. induction fuel as [|fuel IH]; intros v b Hwf Hf; cbn [rshift_string_loop];
    unfold mbind at 1, act_bind at 1, get; cbv beta iota;
    destruct (Z.ltb_spec (_rpos b) (bb_size b)) as [Hlt|Hge]; cbn [negb]; try lia;
    try (simpl; auto with lia; fail).
  unfold mbind, act_bind. rewrite read_in_range by (done || lia).
  set (b1 := b <| _rpos := _rpos b + Z.of_nat 1 |>).
  assert (bb_wf b1) by (unfold b1, bb_wf, bb_size in *; simpl; lia).
  destruct (_ =? 0); [simpl; split_and!; [done|done|lia]|].
  assert (bb_size b1 - _rpos b1 <= Z.of_nat fuel)
    by (unfold bb_size, b1 in *; simpl in *; lia).
  match goal with |- context [rshift_string_loop fuel ?v b1] => specialize (IH v b1 H H0) end.
  destruct (rshift_string_loop _ _ b1); simpl in *; intuition lia.
Qed.

Lemma safe_string : reader_safe rshift_string.
Proof.
  apply safe_get. intros b Hb. unfold mbind, act_bind.
  pose proof (safe_string_loop (Z.to_nat (bb_size b - _rpos b)) [] b Hb ltac:(lia)) as H.
  by destruct (rshift_string_loop _ _ b).
Qed.

Lemma safe_position T (g : ByteBuffer → Z) (m : bb T) :
  reader_safe m →
  reader_safe (b ← get;
               if g b <? u64 (_rpos b + 1)
               then raise (BBPosition false (_rpos b) 1 (bb_size b)) else m).
Proof.
  intros Hm. apply safe_get. intros b Hb. destruct (_ <? _).
  - simpl. split_and!; [done|done|lia|eauto].
  - by apply Hm.
Qed.

Lemma safe_pack_loop mark k i guid : reader_safe (readPackGUID_loop mark k i guid).
Proof.
  revert i guid. induction k as [|k IH]; intros i guid; cbn [readPackGUID_loop].
  { apply safe_ret. }
  destruct (has_flag _ _); [|apply IH]. apply (safe_position _ bb_size).
  apply safe_bind; [apply safe_read; lia|]. intros. apply IH.
Qed.

Lemma safe_readPackGUID : reader_safe readPackGUID.
Proof.
  apply (safe_position _ bb_size). apply safe_bind; [apply safe_read; lia|].
  intros. apply safe_pack_loop.
Qed.

Lemma safe_read_field k : reader_safe (read_field k).
Proof.
  destruct k; simpl; (apply safe_bind; [|intros; apply safe_ret]);
    try (apply safe_read; lia). apply safe_string.
Qed.

Lemma safe_read_fields ks : reader_safe (read_fields ks).
Proof.
  induction ks as [|k ks IH]; simpl; [apply safe_ret|].
  apply safe_bind; [apply safe_read_field|]. intros.
  apply safe_bind; [done|]. intros. apply safe_ret.
Qed.

(** ** Overwriting a placeholder *)

Lemma put_raw_in_place pre old new post w :
  length new = length old → Z.of_nat (length (pre ++ old ++ post)) < 2 ^ 63 →
  put_raw (Z.of_nat (length pre)) new (mkByteBuffer 0 w (pre ++ old ++ post)) =
    Done tt (mkByteBuffer 0 w (pre ++ new ++ post)) [].
Proof.
  intros Hlen Hsz. rewrite !length_app in Hsz.
  unfold put_raw, mbind, act_bind, get, put, bb_size. cbn -[Z.of_nat u64 Z.ltb].
  rewrite wrapu_id by lia. rewrite !length_app.
  rewrite (proj2 (Z.ltb_ge _ _)) by lia. cbn. unfold memcpy_to. do 2 f_equal.
  rewrite Nat2Z.id, take_app_length. do 2 f_equal.
  rewrite <- drop_drop, drop_app_length, drop_app_le, drop_ge by lia. done.
Qed.

(** ** Packed time *)

Lemma land_ones_mod x k m : 0 <= k → m = Z.ones k → Z.land x m = x mod 2 ^ k.
Proof. intros Hk ->. by apply Z.land_ones. Qed.

(** A field of the packed date: shift, then mask. *)
Lemma packed_field x s k m :
  0 <= s → 0 <= k → s + k <= 32 → m = Z.ones k →
  Z.land (Z.shiftr (u32 x) s) m = (x / 2 ^ s) mod 2 ^ k.
Proof.
  intros Hs Hk Hsk ->. unfold wrapu. rewrite <- Z.land_ones by lia.
  rewrite Z.land_ones by lia. rewrite <- Z.land_ones, <- Z.land_ones by lia.
  rewrite Z.shiftr_land, <- Z.shiftr_div_pow2 by lia. rewrite <- Z.land_assoc. f_equal.
  apply Z.bits_inj'. intros n Hn. rewrite Z.land_spec, Z.shiftr_spec by lia.
  rewrite !Z.testbit_ones_nonneg by lia.
  destruct (Z.ltb_spec n k), (Z.ltb_spec (n + s) 32); try done; lia.
Qed.

Lemma lor_add x y k : 0 <= k → 0 <= y < 2 ^ k → Z.lor (Z.shiftl x k) y = x * 2 ^ k + y.
Proof.
  intros Hk Hy. rewrite Z.shiftl_mul_pow2 by lia. rewrite <- Z.add_lor_land.
  assert (Z.land (x * 2 ^ k) y = 0) as ->; [|lia].
  apply Z.bits_inj'. intros n Hn. rewrite Z.land_spec, Z.bits_0.
  destruct (decide (n < k)).
  - by rewrite Z.mul_pow2_bits_low by lia.
  - destruct (decide (y = 0)) as [->|]; [rewrite Z.bits_0; apply andb_false_r|].
    rewrite (Z.bits_above_log2 y n); [apply andb_false_r|lia|].
    apply Z.log2_lt_pow2; [lia|]. apply Z.lt_le_trans with (2 ^ k); [lia|].
    apply Z.pow_le_mono_r; lia.
Qed.

Definition tm_ok (lt : tm) : Prop :=
  0 <= tm_min lt < 60 ∧ 0 <= tm_hour lt < 24 ∧ 1 <= tm_mday lt < 32 ∧
  0 <= tm_mon lt < 12 ∧ 100 <= tm_year lt < 356 ∧ 0 <= tm_wday lt < 7.

Lemma pack_time_sum lt :
  tm_ok lt →
  pack_time lt = (tm_year lt - 100) * 2 ^ 24 + tm_mon lt * 2 ^ 20
    + (tm_mday lt - 1) * 2 ^ 14 + tm_wday lt * 2 ^ 11 + tm_hour lt * 2 ^ 6 + tm_min lt.
Proof.
  intros (? & ? & ? & ? & ? & ?). unfold pack_time. rewrite <- !Z.lor_assoc.
  rewrite (lor_add (tm_hour lt) (tm_min lt) 6) by lia.
  rewrite (lor_add (tm_wday lt) _ 11) by lia.
  rewrite (lor_add (tm_mday lt - 1) _ 14) by lia.
  rewrite (lor_add (tm_mon lt) _ 20) by lia.
  rewrite (lor_add (tm_year lt - 100) _ 24) by lia. lia.
Qed.

(** ** Properties *)

(** C33: a packet written field by field into an empty buffer is read back field
    by field with the same values, and the read position ends at the write
    position. *)
Theorem packet_roundtrip fs :
  Forall field_ok fs → Z.of_nat (length (packet_bytes fs)) <= 10000000 →
  write_then_read (write_fields fs) (read_fields (field_kind <$> fs)) =
    Done fs (mkByteBuffer (Z.of_nat (length (packet_bytes fs)))
                          (Z.of_nat (length (packet_bytes fs))) (packet_bytes fs)) [].
Proof.
  intros Hfs Hsz. apply write_then_read_Done; [|by apply read_fields_reads|done].
  apply write_fields_writes.
Qed.

Lemma packet_roundtrip_witness :
  write_then_read (write_fields [U8 200; I32 (-7); Str "Trade"; U64 77])
                  (read_fields [KU8; KI32; KStr; KU64]) =
  Done [U8 200; I32 (-7); Str "Trade"; U64 77]
       (mkByteBuffer 19 19 (packet_bytes [U8 200; I32 (-7); Str "Trade"; U64 77])) [].
Proof.
  apply (packet_roundtrip [U8 200; I32 (-7); Str "Trade"; U64 77]); [|vm_compute; discriminate].
  repeat constructor; simpl; try lia. vm_compute. set_solver.
Defined.

(** a GUID appended in packed form takes between one and nine bytes and is
    read back unchanged, for every 64-bit value. *)
Theorem packed_guid_roundtrip guid :
  0 <= guid < 2 ^ 64 →
  ∃ bs, (1 <= length bs <= 9)%nat ∧ Forall byte_ok bs ∧
    write_then_read (appendPackGUID guid) readPackGUID =
      Done guid (mkByteBuffer (Z.of_nat (length bs)) (Z.of_nat (length bs)) bs) [].
Proof.
  intros Hg. exists (guid_mask 0 (le_bytes 8 guid) :: nonzero (le_bytes 8 guid)).
  assert (length (nonzero (le_bytes 8 guid)) <= 8)%nat as Hlen.
  { rewrite <- (length_le_bytes 8 guid) at 2. apply length_filter. }
  split; [cbn [length]; lia|]. split.
  - constructor; [apply guid_mask_range; rewrite ?length_le_bytes; lia|].
    apply Forall_forall. intros c [_ Hc]%list_elem_of_filter.
    pose proof (le_bytes_ok 8 guid) as H. rewrite Forall_forall in H. auto.
  - apply write_then_read_Done; [by apply appendPackGUID_writes|by apply readPackGUID_reads|].
    cbn [length]. lia.
Qed.

Lemma packed_guid_roundtrip_witness :
  ∃ bs, (1 <= length bs <= 9)%nat ∧ Forall byte_ok bs ∧
    write_then_read (appendPackGUID 0xF130000000002A00) readPackGUID =
      Done 0xF130000000002A00 (mkByteBuffer (Z.of_nat (length bs)) (Z.of_nat (length bs)) bs) [].
Proof. apply packed_guid_roundtrip. lia. Defined.

(** C37: whatever the bytes a client sent, reading any sequence of fields, a
    packed GUID or a string from a well-formed buffer ends normally or with the
    position exception; it never touches memory outside the storage, never
    changes it and never moves the read position back. *)
Theorem reads_stay_inside ks :
  reader_safe (read_fields ks) ∧ reader_safe readPackGUID ∧ reader_safe rshift_string.
Proof. split_and!; auto using safe_read_fields, safe_readPackGUID, safe_string. Qed.

(** vectors, lists and maps of any element type that round-trips are
    themselves read back as they were written. *)
Theorem container_roundtrip `{Wire T} (v : list T) (m : gmap Z T) :
  wire_ok v → wire_ok m →
  Z.of_nat (length (wire_bytes v)) <= 10000000 → Z.of_nat (length (wire_bytes m)) <= 10000000 →
  rval (write_then_read (lshift_seq v) rshift_seq) = Some v ∧
  rval (write_then_read (lshift_map m) rshift_map) = Some m.
Proof.
  intros Hv Hm Hlv Hlm. split.
  - rewrite (write_then_read_Done _ _ (wire_bytes v) v); [done| | |done].
    + by exact (wire_write_spec v Hv). + by exact (wire_read_spec v Hv).
  - rewrite (write_then_read_Done _ _ (wire_bytes m) m); [done| | |done].
    + by exact (wire_write_spec m Hm). + by exact (wire_read_spec m Hm).
Qed.

Lemma container_roundtrip_witness :
  rval (write_then_read (lshift_seq ["alpha"; "b"]) rshift_seq) = Some ["alpha"; "b"] ∧
  rval (write_then_read (lshift_map {[ 7 := "x" ]}) rshift_map) = Some {[ 7 := "x" ]}.
Proof.
  apply (container_roundtrip ["alpha"; "b"] {[ 7 := "x" ]}).
  - split; [|vm_compute; done]. repeat constructor; vm_compute; set_solver.
  - split; [|vm_compute; done]. intros k s Hk. apply lookup_singleton_Some in Hk as [<- <-].
    split; [lia|]. vm_compute. set_solver.
  - vm_compute. discriminate.
  - vm_compute. discriminate.
Defined.

(** overwriting a 32-bit placeholder of a packet, as the senders do with a
    count known only at the end, gives the bytes of the packet whose field is
    replaced; this is what [packet_put] says on fields. *)
Theorem placeholder_put fs1 z fs2 z' op :
  Z.of_nat (length (packet_bytes (fs1 ++ U32 z :: fs2))) < 2 ^ 63 →
  rstate (put_num 4 (Z.of_nat (length (packet_bytes fs1))) z'
            (mkByteBuffer 0 0 (packet_bytes (fs1 ++ U32 z :: fs2)))) =
  mkByteBuffer 0 0
    (packet_bytes (body (packet_put (length fs1) (U32 z')
                           (mkWorldPacket op (fs1 ++ U32 z :: fs2))))).
Proof.
  intros Hsz. unfold packet_put. cbn [body setf].
  replace (<[length fs1 := U32 z']> (fs1 ++ U32 z :: fs2)) with (fs1 ++ U32 z' :: fs2)
    by (rewrite insert_app_r_alt, Nat.sub_diag by lia; done).
  unfold packet_bytes in *.
  rewrite !bind_app in *. cbn [mbind list_bind field_bytes] in *.
  unfold put_num. rewrite put_raw_in_place; [done| |done].
  by rewrite !length_le_bytes.
Qed.

Lemma placeholder_put_witness :
  rstate (put_num 4 1 3 (mkByteBuffer 0 0 (packet_bytes [U8 1; U32 0; U64 5]))) =
  mkByteBuffer 0 0 (packet_bytes (body (packet_put 1 (U32 3) (mkWorldPacket 155 [U8 1; U32 0; U64 5])))).
Proof. apply (placeholder_put [U8 1] 0 [U64 5] 3 155). vm_compute. done. Defined.

(** the packed date keeps minute, hour, day, month and year of every date
    from 2000 to 2031 (the weekday is dropped on reading). *)
Theorem packed_time_roundtrip lt :
  tm_ok lt → tm_year lt < 132 →
  ReadPackedTime_tm (u32 (pack_time lt)) =
    mktm (tm_min lt) (tm_hour lt) (tm_mday lt) (tm_mon lt) (tm_year lt) 0.
Proof.
  intros Hok Hy. unfold ReadPackedTime_tm.
  rewrite (packed_field _ 6 5), (packed_field _ 14 6), (packed_field _ 20 4),
    (packed_field _ 24 5) by (reflexivity || lia).
  assert (Z.land (u32 (pack_time lt)) 63 = pack_time lt mod 64) as ->.
  { rewrite <- (Z.shiftr_0_r (u32 _)), (packed_field _ 0 6) by (reflexivity || lia).
    by rewrite Z.div_1_r. }
  rewrite pack_time_sum by done. destruct lt as [mi h d mo y w].
  unfold tm_ok in Hok. simpl in *. compute_pow2. f_equal; Z.div_mod_to_equations; lia.
Qed.

Lemma packed_time_roundtrip_witness :
  ReadPackedTime_tm (u32 (pack_time (mktm 59 23 31 11 131 3))) = mktm 59 23 31 11 131 0.
Proof. apply (packed_time_roundtrip (mktm 59 23 31 11 131 3)); [unfold tm_ok|]; simpl; lia. Defined.

(** The five bits read for the year do not hold what the writer stores from
    2032 on: the year comes back 32 years early. *)
Example packed_time_year_lost :
  tm_year (ReadPackedTime_tm (u32 (pack_time (mktm 0 0 1 0 132 0)))) = 100.
Proof. reflexivity. Qed.
