(* ===== verification/Util.v ===== *)
(** String utilities of src/server/shared/Utilities/Util.cpp and the overflow
    aware timers of Timer.h: the tokenizer that the configuration and database
    loaders use, the time and money strings of the commands, the clean-up of
    chat lines, the millisecond clock difference and the update timers. *)

From S2P Require Import Prelude.
From Stdlib Require Export Ascii.
Open Scope string_scope.
Open Scope list_scope.
Open Scope Z_scope.

Abbreviation ascii := Ascii.ascii.
Definition NUL : ascii := "000"%char.

#[local] Arguments String.append !_ _ : simpl nomatch.

(** ** The C library's number parsing and printing *)

Definition is_digit (a : ascii) : bool :=
  (48 <=? ascii_byte a) && (ascii_byte a <=? 57).
Definition digit_val (a : ascii) : Z := ascii_byte a - 48.
Definition digit_char (d : Z) : ascii := byte_ascii (d + 48).
Definition is_space (a : ascii) : bool :=
  (ascii_byte a =? 32) || ((9 <=? ascii_byte a) && (ascii_byte a <=? 13)).

(** The decimal digits of a non-negative number, as [ostream << unsigned]
    prints them; [fuel] bounds the number of digits. *)
Fixpoint print_digits (fuel : nat) (z : Z) : string :=
  match fuel with
  | O => EmptyString
  | S fuel' =>
      if z <? 10 then String (digit_char z) EmptyString
      else String.append (print_digits fuel' (z / 10))
                         (String (digit_char (z mod 10)) EmptyString)
  end.
Definition print_u64 (z : Z) : string := print_digits 20 z.

(** [strtol] in base 10: blanks, a sign, digits, and a result limited to the
    64-bit [long]; [atol] is its value and [atoi] the value as an [int]. *)
Fixpoint scan_digits (acc : Z) (s : string) : Z :=
  match s with
  | EmptyString => acc
  | String a s' => if is_digit a then scan_digits (10 * acc + digit_val a) s' else acc
  end.
Fixpoint skip_space (s : string) : string :=
  match s with
  | String a s' => if is_space a then skip_space s' else s
  | EmptyString => EmptyString
  end.
Definition strtol (s : string) : Z :=
  let clamp z := Z.max (- 2 ^ 63) (Z.min (2 ^ 63 - 1) z) in
  match skip_space s with
  | String a s' =>
      if ascii_byte a =? 45 then clamp (- scan_digits 0 s')
      else if ascii_byte a =? 43 then clamp (scan_digits 0 s')
      else clamp (scan_digits 0 (String a s'))
  | EmptyString => 0
  end.
Definition atol (s : string) : Z := strtol s.
Definition atoi (s : string) : Z := i32 (strtol s).

(** ** Tokenizer

    The characters between two separators; a last token is kept only when it is
    not empty.  The loop stops at the first NUL of the copy. [posold] is what
    has been read since the last separator. *)
Fixpoint Tokenizer_loop (sep : ascii) (posold : string) (src : string) : list string :=
  match src with
  | EmptyString => if String.eqb posold EmptyString then [] else [posold]
  | String a src' =>
      if Ascii.eqb a sep then posold :: Tokenizer_loop sep EmptyString src'
      else if Ascii.eqb a NUL then (if String.eqb posold EmptyString then [] else [posold])
      else Tokenizer_loop sep (String.append posold (String a EmptyString)) src'
  end.
(** With a NUL separator the loop would run past the end of the copy. *)
Definition Tokenizer (src : string) (sep : ascii) : option (list string) :=
  if Ascii.eqb sep NUL then None else Some (Tokenizer_loop sep EmptyString src).

(** ** Lines of chat *)

Definition invChars : list Z := [32; 9; 7; 10].
Definition is_invisible (a : ascii) : bool := bool_decide (ascii_byte a ∈ invChars).

(** The loop of [stripLineInvisibleChars]: the string is rewritten in place,
    [wpos] is where the next character kept goes. *)
Fixpoint strip_loop (n : nat) (pos wpos : nat) (space : bool) (str : list ascii) :
    nat * list ascii :=
  match n with
  | O => (wpos, str)
  | S n' =>
      match str !! pos with
      | None => (wpos, str)
      | Some a =>
          if is_invisible a then
            if negb space then strip_loop n' (S pos) (S wpos) true (<[wpos := " "%char]> str)
            else strip_loop n' (S pos) wpos space str
          else if negb (Nat.eqb wpos pos)
               then strip_loop n' (S pos) (S wpos) false (<[wpos := a]> str)
               else strip_loop n' (S pos) (S wpos) false str
      end
  end.

Fixpoint contains (pat str : list ascii) : bool :=
  match str with
  | [] => bool_decide (pat = [])
  | _ :: str' => bool_decide (pat = take (length pat) str) || contains pat str'
  end.

Definition stripLineInvisibleChars (str : list ascii) : list ascii :=
  let '(wpos, str1) := strip_loop (length str) 0 0 false str in
  let str2 := if Nat.ltb wpos (length str1) then take wpos str1 else str1 in
  if contains (String.list_ascii_of_string "|TInterface") str2 then [] else str2.

(** ** Time and money strings *)

Definition MINUTE : Z := 60.
Definition HOUR : Z := MINUTE * 60.
Definition DAY : Z := HOUR * 24.

Definition secsToTimeString (timeInSecs : Z) (shortText hoursOnly : bool) : string :=
  let secs := timeInSecs mod MINUTE in
  let minutes := timeInSecs mod HOUR / MINUTE in
  let hours := timeInSecs mod DAY / HOUR in
  let days := timeInSecs / DAY in
  let app b n short long :=
    if b : bool then String.append (print_u64 n) (if shortText then short else long)
    else EmptyString in
  String.append (app (negb (days =? 0)) days "d" " Day(s) ")
    (String.append (app (negb (hours =? 0) || hoursOnly) hours "h" " Hour(s) ")
      (if negb hoursOnly then
        String.append (app (negb (minutes =? 0)) minutes "m" " Minute(s) ")
          (app (negb (secs =? 0) || ((days =? 0) && (hours =? 0) && (minutes =? 0)))
               secs "s" " Second(s).")
       else EmptyString)).

Definition time_multiplier (a : ascii) : option Z :=
  let c := ascii_byte a in
  if c =? 100 then Some DAY else if c =? 104 then Some HOUR
  else if c =? 109 then Some MINUTE else if c =? 115 then Some 1 else None.

Fixpoint TimeStringToSecs_loop (secs buffer : Z) (timestring : string) : Z :=
  match timestring with
  | EmptyString => secs
  | String a rest =>
      if is_digit a then
        TimeStringToSecs_loop secs (u32 (u32 (buffer * 10) + digit_val a)) rest
      else
        match time_multiplier a with
        | None => 0                                        (* bad format *)
        | Some multiplier =>
            TimeStringToSecs_loop (u32 (secs + u32 (buffer * multiplier))) 0 rest
        end
  end.
Definition TimeStringToSecs (timestring : string) : Z := TimeStringToSecs_loop 0 0 timestring.

Fixpoint count_char (c : Z) (s : string) : Z :=
  match s with
  | EmptyString => 0
  | String a s' => (if ascii_byte a =? c then 1 else 0) + count_char c s'
  end.

Fixpoint MoneyStringToMoney_loop (money : Z) (tokens : list string) : Z :=
  match tokens with
  | [] => money
  | tok :: rest =>
      let gCount := count_char 103 tok in
      let sCount := count_char 115 tok in
      let cCount := count_char 99 tok in
      if negb (gCount + sCount + cCount =? 1) then 0 else
      let amount := u32 (atoi tok) in
      MoneyStringToMoney_loop
        (if gCount =? 1 then i32 (money + u32 (u32 (amount * 100) * 100))
         else if sCount =? 1 then i32 (money + u32 (amount * 100))
         else if cCount =? 1 then i32 (money + amount) else money) rest
  end.

Definition MoneyStringToMoney (moneyString : string) : Z :=
  if negb ((count_char 103 moneyString =? 1) || (count_char 115 moneyString =? 1)
           || (count_char 99 moneyString =? 1)) then 0
  else match Tokenizer moneyString " "%char with
       | Some tokens => MoneyStringToMoney_loop 0 tokens
       | None => 0
       end.

(** ** Digits *)

Lemma byte_ascii_val b : 0 <= b < 256 → ascii_byte (byte_ascii b) = b.
Proof.
  intros Hb. unfold ascii_byte, byte_ascii. rewrite N_ascii_embedding by lia. lia.
Qed.

Lemma digit_char_val d : 0 <= d < 10 → digit_val (digit_char d) = d.
Proof. intros Hd. unfold digit_val, digit_char. rewrite byte_ascii_val by lia. lia. Qed.

Lemma digit_char_digit d : 0 <= d < 10 → is_digit (digit_char d) = true.
Proof.
  intros Hd. unfold is_digit, digit_char. rewrite byte_ascii_val by lia.
  apply andb_true_iff. split; apply Z.leb_le; lia.
Qed.

Lemma append_assoc (s1 s2 s3 : string) :
  String.append (String.append s1 s2) s3 = String.append s1 (String.append s2 s3).
Proof. induction s1; cbn [String.append]; congruence. Qed.

Lemma append_nil_r (s : string) : String.append s "" = s.
Proof. induction s; cbn [String.append]; congruence. Qed.

(** Scanning the digits of [z] shifts what was scanned before and adds [z]. *)
Lemma scan_print fuel z :
  0 <= z < 10 ^ Z.of_nat fuel →
  ∃ k, 0 <= k ∧ ∀ acc r,
    scan_digits acc (String.append (print_digits fuel z) r) = scan_digits (acc * 10 ^ k + z) r.
Proof.
  revert z. induction fuel as [|fuel IH]; intros z Hz; [simpl in Hz; exists 0; split; [lia|];
    intros; simpl; f_equal; lia|].
  cbn [print_digits]. destruct (Z.ltb_spec z 10).
  - exists 1. split; [lia|]. intros acc r. cbn [String.append scan_digits].
    rewrite digit_char_digit, digit_char_val by lia. f_equal. lia.
  - rewrite Nat2Z.inj_succ, Z.pow_succ_r in Hz by lia.
    destruct (IH (z / 10)) as (k & Hk & IHk).
    { split; [apply Z.div_pos; lia|apply Z.div_lt_upper_bound; lia]. }
    exists (k + 1). split; [lia|]. intros acc r. rewrite append_assoc, IHk.
    pose proof (Z.mod_pos_bound z 10 ltac:(lia)). pose proof (Z.div_mod z 10 ltac:(lia)).
    cbn [String.append scan_digits]. rewrite digit_char_digit, digit_char_val by lia.
    f_equal. rewrite Z.pow_add_r by lia. lia.
Qed.

Definition digits_only (s : string) : Prop :=
  Forall (λ a, is_digit a = true) (String.list_ascii_of_string s).

Lemma print_digits_only fuel z : 0 <= z → digits_only (print_digits fuel z).
Proof.
  revert z. unfold digits_only. induction fuel as [|fuel IH]; intros z Hz; [constructor|].
  cbn [print_digits]. destruct (Z.ltb_spec z 10).
  - repeat constructor. apply digit_char_digit. lia.
  - assert (∀ s a, Forall (λ a, is_digit a = true) (String.list_ascii_of_string s) →
      is_digit a = true → Forall (λ a, is_digit a = true)
        (String.list_ascii_of_string (String.append s (String a "")))) as Happ.
    { induction s; cbn; intros a' Hs Ha; [by repeat constructor|].
      inversion Hs; subst. constructor; auto. }
    apply Happ; [apply IH, Z.div_pos; lia|]. apply digit_char_digit.
    apply Z.mod_pos_bound. lia.
Qed.

Lemma print_u64_nonempty z : print_u64 z ≠ "".
Proof.
  unfold print_u64. change 20%nat with (S 19). generalize 19%nat as n. intros n.
  cbn [print_digits]. destruct (z <? 10); [done|].
  by destruct (print_digits n (z / 10)).
Qed.

Lemma digit_not_space a : is_digit a = true → is_space a = false ∧
  ascii_byte a ≠ 45 ∧ ascii_byte a ≠ 43 ∧ ascii_byte a ≠ 32 ∧ ascii_byte a ≠ 0.
Proof.
  unfold is_digit, is_space. intros [H1%Z.leb_le H2%Z.leb_le]%andb_true_iff.
  split; [|lia]. apply orb_false_iff. split; [apply Z.eqb_neq; lia|].
  apply andb_false_iff. right. apply Z.leb_gt. lia.
Qed.

Lemma atol_print z : 0 <= z < 2 ^ 63 → atol (print_u64 z) = z.
Proof.
  intros Hz. unfold atol, strtol.
  destruct (scan_print 20 z) as (k & Hk & Hscan); [lia|].
  specialize (Hscan 0 ""). rewrite append_nil_r in Hscan. cbn [scan_digits] in Hscan.
  pose proof (print_u64_nonempty z) as Hne. pose proof (print_digits_only 20 z ltac:(lia)) as Hd.
  unfold print_u64 in *. destruct (print_digits 20 z) as [|a s] eqn:E; [done|].
  inversion Hd as [|? ? Ha _]; subst. destruct (digit_not_space a Ha) as (Hs & H1 & H2 & _).
  cbn [skip_space]. rewrite Hs.
  rewrite (proj2 (Z.eqb_neq _ _) H1), (proj2 (Z.eqb_neq _ _) H2), Hscan. lia.
Qed.

(** ** Tokens *)

(** The text that lists each token followed by the separator. *)
Fixpoint with_separators (sep : ascii) (ts : list string) : string :=
  match ts with
  | [] => ""
  | t :: ts' => String.append t (String sep (with_separators sep ts'))
  end.

Definition token_ok (sep : ascii) (t : string) : Prop :=
  sep ∉ String.list_ascii_of_string t ∧ NUL ∉ String.list_ascii_of_string t.

Lemma tokenizer_token sep cur t r :
  token_ok sep t →
  Tokenizer_loop sep cur (String.append t r) = Tokenizer_loop sep (String.append cur t) r.
Proof.
  unfold token_ok. revert cur. induction t as [|a t IH]; intros cur [H1 H2].
  { by rewrite append_nil_r. }
  simpl in H1, H2. cbn [String.append Tokenizer_loop].
  destruct (Ascii.eqb_spec a sep); [set_solver|]. destruct (Ascii.eqb_spec a NUL); [set_solver|].
  rewrite IH by set_solver. by rewrite append_assoc.
Qed.

Lemma tokenizer_with_separators sep ts :
  Forall (token_ok sep) ts → Tokenizer_loop sep "" (with_separators sep ts) = ts.
Proof.
  induction 1 as [|t ts Ht Hts IH]; [done|]. cbn [with_separators].
  rewrite tokenizer_token by done. cbn [Tokenizer_loop String.append].
  by rewrite Ascii.eqb_refl, IH.
Qed.

(** ** Time strings *)

Lemma time_print fuel z :
  0 <= z < 10 ^ Z.of_nat (S fuel) →
  ∃ k, 0 <= k ∧ ∀ secs buffer r,
    TimeStringToSecs_loop secs buffer (String.append (print_digits (S fuel) z) r) =
    TimeStringToSecs_loop secs (u32 (buffer * 10 ^ k + z)) r.
Proof.
  revert z. induction fuel as [|fuel IH]; intros z Hz.
  - exists 1. split; [lia|]. intros secs buffer r. cbn [print_digits].
    rewrite (proj2 (Z.ltb_lt _ _)) by lia. cbn [String.append TimeStringToSecs_loop].
    rewrite digit_char_digit, digit_char_val by lia. by rewrite wrapu_add_l.
  - set (n := S fuel) in *. cbn [print_digits]. destruct (Z.ltb_spec z 10).
    { exists 1. split; [lia|]. intros secs buffer r. cbn [String.append TimeStringToSecs_loop].
      rewrite digit_char_digit, digit_char_val by lia. by rewrite wrapu_add_l. }
    rewrite Nat2Z.inj_succ, Z.pow_succ_r in Hz by lia.
    destruct (IH (z / 10)) as (k & Hk & IHk).
    { split; [apply Z.div_pos; lia|apply Z.div_lt_upper_bound; lia]. }
    exists (k + 1). split; [lia|]. intros secs buffer r. rewrite append_assoc, IHk.
    pose proof (Z.mod_pos_bound z 10 ltac:(lia)). pose proof (Z.div_mod z 10 ltac:(lia)).
    cbn [String.append TimeStringToSecs_loop]. rewrite digit_char_digit, digit_char_val by lia.
    rewrite wrapu_mul_l, wrapu_add_l. f_equal. f_equal. rewrite Z.pow_add_r by lia. lia.
Qed.

(** One unit of the time string, printed or left out because it is 0. *)
Definition time_piece (b : bool) (n : Z) (unit : ascii) : string :=
  if b then String.append (print_u64 n) (String unit "") else "".

Lemma time_piece_loop b n unit mult secs r :
  time_multiplier unit = Some mult → is_digit unit = false →
  0 <= n < 2 ^ 64 → (b = false → n = 0) → 0 <= secs < 2 ^ 32 →
  TimeStringToSecs_loop secs 0 (String.append (time_piece b n unit) r) =
  TimeStringToSecs_loop (u32 (secs + n * mult)) 0 r.
Proof.
  intros Hm Hd Hn Hb Hs. destruct b; cbn [time_piece].
  - destruct (time_print 19 n) as (k & Hk & Hloop).
    { change (Z.of_nat 20) with 20. lia. }
    unfold time_piece, print_u64. rewrite append_assoc, Hloop.
    cbn [String.append TimeStringToSecs_loop]. rewrite Hd, Hm.
    rewrite Z.mul_0_l, Z.add_0_l. by rewrite wrapu_mul_l, wrapu_add_r.
  - rewrite Hb by done. rewrite Z.mul_0_l, Z.add_0_r, wrapu_id by done. done.
Qed.

Lemma secsToTimeString_pieces t :
  secsToTimeString t true false =
    String.append (time_piece (negb (t / DAY =? 0)) (t / DAY) "d")
   (String.append (time_piece (negb (t mod DAY / HOUR =? 0)) (t mod DAY / HOUR) "h")
   (String.append (time_piece (negb (t mod HOUR / MINUTE =? 0)) (t mod HOUR / MINUTE) "m")
   (String.append (time_piece (negb (t mod MINUTE =? 0)
        || ((t / DAY =? 0) && (t mod DAY / HOUR =? 0) && (t mod HOUR / MINUTE =? 0)))
      (t mod MINUTE) "s") ""))).
Proof. unfold secsToTimeString, time_piece. by rewrite orb_false_r, append_nil_r. Qed.

(** ** Stripping invisible characters *)

(** What the in-place loop computes: runs of invisible characters become one
    blank. *)
Fixpoint collapse (space : bool) (l : list ascii) : list ascii :=
  match l with
  | [] => []
  | a :: l' =>
      if is_invisible a then (if space then collapse true l' else " "%char :: collapse true l')
      else a :: collapse false l'
  end.

Lemma take_insert_last {A} (l : list A) n x :
  (n < length l)%nat → take (S n) (<[n := x]> l) = take n l ++ [x].
Proof.
  intros Hn. rewrite (take_S_r _ n x) by (by apply list_lookup_insert_eq).
  by rewrite take_insert_ge by lia.
Qed.

Lemma strip_loop_spec n pos wpos space str :
  (n + pos = length str)%nat → (wpos <= pos)%nat →
  let '(wpos', str') := strip_loop n pos wpos space str in
  length str' = length str ∧ (wpos' <= length str)%nat ∧
  take wpos' str' = take wpos str ++ collapse space (drop pos str).
Proof.
  revert pos wpos space str. induction n as [|n IH]; intros pos wpos space str Hn Hw;
    cbn [strip_loop].
  { rewrite drop_ge by lia. simpl. rewrite app_nil_r. split_and!; [done|lia|done]. }
  destruct (lookup_lt_is_Some_2 str pos) as [a Ha]; [lia|]. rewrite Ha.
  rewrite (drop_S _ _ _ Ha). cbn [collapse].
  assert (∀ x, drop (S pos) (<[wpos := x]> str) = drop (S pos) str) as Hdrop
    by (intros; by rewrite drop_insert_lt by lia).
  destruct (is_invisible a); [destruct space|]; cbn [negb].
  - apply IH; lia.
  - specialize (IH (S pos) (S wpos) true (<[wpos := " "%char]> str)).
    rewrite length_insert, Hdrop, take_insert_last, <- app_assoc in IH by lia. apply IH; lia.
  - destruct (Nat.eqb_spec wpos pos) as [->|Hne]; cbn [negb].
    + specialize (IH (S pos) (S pos) false str).
      rewrite (take_S_r _ _ _ Ha), <- app_assoc in IH. apply IH; lia.
    + specialize (IH (S pos) (S wpos) false (<[wpos := a]> str)).
      rewrite length_insert, Hdrop, take_insert_last, <- app_assoc in IH by lia. apply IH; lia.
Qed.

Lemma stripLine_collapse str :
  stripLineInvisibleChars str =
    if contains (String.list_ascii_of_string "|TInterface") (collapse false str)
    then [] else collapse false str.
Proof.
  unfold stripLineInvisibleChars.
  pose proof (strip_loop_spec (length str) 0 0 false str ltac:(lia) ltac:(lia)) as H.
  destruct (strip_loop _ _ _ _ _) as [wpos str1]. destruct H as (Hlen & Hw & Ht).
  simpl in Ht. rewrite drop_0 in Ht.
  assert ((if Nat.ltb wpos (length str1) then take wpos str1 else str1) = collapse false str) as ->.
  { destruct (Nat.ltb_spec wpos (length str1)); [done|]. rewrite <- Ht.
    by rewrite take_ge by lia. }
  done.
Qed.

(** Neither a control character nor two blanks in a row. *)
Fixpoint stripped (space : bool) (l : list ascii) : Prop :=
  match l with
  | [] => True
  | a :: l' => (is_invisible a = false ∧ stripped false l')
             ∨ (a = " "%char ∧ space = false ∧ stripped true l')
  end.

Lemma collapse_stripped space l : stripped space (collapse space l).
Proof.
  revert space. induction l as [|a l IH]; intros space; [done|]. cbn [collapse].
  destruct (is_invisible a) eqn:E; [destruct space; [apply IH|]|]; cbn [stripped]; auto.
Qed.

Lemma collapse_id space l : stripped space l → collapse space l = l.
Proof.
  revert space. induction l as [|a l IH]; intros space; [done|]. cbn [stripped collapse].
  intros [[E Hl]|(-> & -> & Hl)].
  - rewrite E, IH; done.
  - change (is_invisible " ") with true. cbv iota. by rewrite IH.
Qed.

(** ** The time text is read back *)

Lemma time_units t :
  t = t / DAY * DAY + t mod DAY / HOUR * HOUR + t mod HOUR / MINUTE * MINUTE + t mod MINUTE.
Proof. change DAY with 86400. change HOUR with 3600. change MINUTE with 60.
  Z.div_mod_to_equations. lia. Qed.

(** The short text of a duration ("2d3h4m5s") is read back by
    [TimeStringToSecs] as the duration, up to the 32 bits of its result:
    durations of a uint32 survive exactly, longer ones are truncated. *)
Theorem time_string_roundtrip t :
  0 <= t < 2 ^ 64 → TimeStringToSecs (secsToTimeString t true false) = u32 t.
Proof.
  intros Ht. unfold TimeStringToSecs. rewrite secsToTimeString_pieces.
  assert (0 <= t / DAY <= t ∧ 0 <= t mod DAY / HOUR < 24 ∧ 0 <= t mod HOUR / MINUTE < 60 ∧
    0 <= t mod MINUTE < 60) as (H1 & H2 & H3 & H4)
    by (change DAY with 86400; change HOUR with 3600; change MINUTE with 60; split_and!;
        Z.div_mod_to_equations; lia).
  assert (0 <= t / DAY < 2 ^ 64 ∧ 0 <= t mod DAY / HOUR < 2 ^ 64 ∧
    0 <= t mod HOUR / MINUTE < 2 ^ 64 ∧ 0 <= t mod MINUTE < 2 ^ 64) as (B1 & B2 & B3 & B4) by lia.
  assert (∀ z b, (negb (z =? 0) || b) = false → z = 0) as Hz.
  { intros z b [E _]%orb_false_iff. by rewrite negb_false_iff, Z.eqb_eq in E. }
  assert (∀ z, negb (z =? 0) = false → z = 0) as Hz'
    by (intros z E; by rewrite negb_false_iff, Z.eqb_eq in E).
  assert (∀ z, 0 <= u32 z < 2 ^ 32) as Hr by (intros; apply wrapu_range; lia).
  rewrite (time_piece_loop _ _ _ DAY) by (done || apply Hz' || lia).
  rewrite (time_piece_loop _ _ _ HOUR) by (done || apply Hz' || apply Hr).
  rewrite (time_piece_loop _ _ _ MINUTE) by (done || apply Hz' || apply Hr).
  rewrite (time_piece_loop _ _ _ 1) by (done || apply Hz || apply Hr).
  cbn [TimeStringToSecs_loop]. rewrite Z.mul_1_r, Z.add_0_l.
  rewrite !wrapu_add_l, <- Z.add_assoc, wrapu_add_l. f_equal. pose proof (time_units t). lia.
Qed.

Lemma time_string_roundtrip_witness :
  TimeStringToSecs (secsToTimeString (2 ^ 32 + 93784) true false) = 93784.
Proof. apply time_string_roundtrip. lia. Defined.

(** [stripLineInvisibleChars] leaves no control character and no two
    blanks in a row, and doing it again changes nothing: the in-place loop, with
    its two indices, computes the collapsed line. *)
Theorem stripLine_normalises str :
  stripped false (stripLineInvisibleChars str) ∧
  stripLineInvisibleChars (stripLineInvisibleChars str) = stripLineInvisibleChars str.
Proof.
  rewrite !stripLine_collapse.
  destruct (contains _ (collapse false str)) eqn:E; [done|].
  rewrite (collapse_id false (collapse false str)) by apply collapse_stripped.
  rewrite E. split; [apply collapse_stripped|done].
Qed.

(** The tokenizer gives back the tokens of a text that lists each one
    followed by the separator, empty tokens included; when the separator after
    the last token is left out, the last one comes back too, unless it is
    empty. *)
Theorem tokenizer_roundtrip sep ts last :
  sep ≠ NUL → Forall (token_ok sep) ts → token_ok sep last →
  Tokenizer (String.append (with_separators sep ts) last) sep =
    Some (ts ++ (if String.eqb last "" then [] else [last])).
Proof.
  intros Hsep Hts Hl. unfold Tokenizer. destruct (Ascii.eqb_spec sep NUL); [done|]. f_equal.
  induction Hts as [|t ts Ht Hts IH]; cbn [with_separators String.append app].
  - rewrite <- (append_nil_r last) at 1. by rewrite tokenizer_token.
  - rewrite append_assoc, tokenizer_token by done. cbn [String.append Tokenizer_loop].
    by rewrite Ascii.eqb_refl, IH.
Qed.

Lemma tokenizer_roundtrip_witness :
  Tokenizer "12  7 x" " " = Some ["12"; ""; "7"; "x"].
Proof.
  apply (tokenizer_roundtrip " " ["12"; ""; "7"] "x"); [done|..].
  - repeat constructor; vm_compute; set_solver.
  - split; vm_compute; set_solver.
Defined.
