(* ===== verification/Timing.v ===== *)
(** The clocks of the server: the millisecond difference and the four timers of
    src/server/shared/Utilities/Timer.h, and the event queue of
    EventProcessor.cpp, whose events are objects with virtual [Execute] and
    [Abort] methods. *)

From S2P Require Import Prelude.

(** ** Timer.h *)

Definition getMSTimeDiff (oldMSTime newMSTime : Z) : Z :=
  if oldMSTime >? newMSTime then u32 (u32 (0xFFFFFFFF - oldMSTime) + newMSTime)
  else u32 (newMSTime - oldMSTime).

Module IntervalTimer.
Record t := mk { _interval : Z; _current : Z }.
#[export] Instance eta_t : Eta t := λ r, mk (_interval r) (_current r).

Definition init : t := mk 0 0.
Definition Update (diff : Z) (r : t) : t :=
  let current := i64 (_current r + diff) in
  r <| _current := if current <? 0 then 0 else current |>.
Definition Passed (r : t) : bool := _interval r <=? _current r.
Definition Reset (r : t) : t :=
  if _interval r <=? _current r then r <| _current := i64 (_current r - _interval r) |> else r.
Definition SetCurrent (current : Z) (r : t) : t := r <| _current := current |>.
Definition SetInterval (interval : Z) (r : t) : t := r <| _interval := interval |>.

(** The use that the world and map loops make of the timer: at each tick
    [Update], and when it [Passed] the work is done and the timer [Reset].
    The result counts the ticks that did the work. *)
Fixpoint ticks (diffs : list Z) (r : t) : Z * t :=
  match diffs with
  | [] => (0, r)
  | diff :: diffs' =>
      let r1 := Update diff r in
      if Passed r1 then let '(n, r2) := ticks diffs' (Reset r1) in (n + 1, r2)
      else ticks diffs' r1
  end.
End IntervalTimer.

Module TimeTracker.
Record t := mk { i_expiryTime : Z }.
Definition Update (diff : Z) (r : t) : t := mk (i64 (i_expiryTime r - diff)).
Definition Passed (r : t) : bool := i_expiryTime r <=? 0.
Definition Reset (interval : Z) (r : t) : t := mk interval.
End TimeTracker.

Module TimeTrackerSmall.
Record t := mk { i_expiryTime : Z }.
Definition init (expiry : Z) : t := mk (i32 expiry).
Definition Update (diff : Z) (r : t) : t := mk (i32 (i_expiryTime r - diff)).
Definition Passed (r : t) : bool := i_expiryTime r <=? 0.
Definition Reset (interval : Z) (r : t) : t := mk (i32 interval).
End TimeTrackerSmall.

Module PeriodicTimer.
Record t := mk { i_period : Z; i_expireTime : Z }.
#[export] Instance eta_t : Eta t := λ r, mk (i_period r) (i_expireTime r).

Definition Update (diff : Z) (r : t) : bool * t :=
  let e := i32 (i_expireTime r - diff) in
  if e >? 0 then (false, r <| i_expireTime := e |>)
  else (true, r <| i_expireTime :=
                i32 (e + (if i_period r >? i32 diff then u32 (i_period r) else diff)) |>).
Definition SetPeriodic (period start_time : Z) (r : t) : t :=
  r <| i_expireTime := start_time |> <| i_period := period |>.
Definition TUpdate (diff : Z) (r : t) : t := r <| i_expireTime := i32 (i_expireTime r - diff) |>.
Definition TPassed (r : t) : bool := i_expireTime r <=? 0.
Definition TReset (diff period : Z) (r : t) : t :=
  r <| i_expireTime := i32 (i_expireTime r + (if period >? diff then period else diff)) |>.
End PeriodicTimer.

(** ** EventProcessor

    Events are objects on the heap; the queue is a [std::multimap] from the
    planned time to the event: a list sorted by key, a new entry after those
    with an equal key. *)

Record BasicEvent := mkBasicEvent { to_Abort : bool; m_addTime : Z; m_execTime : Z }.
#[export] Instance eta_BasicEvent : Eta BasicEvent :=
  λ r, mkBasicEvent (to_Abort r) (m_addTime r) (m_execTime r).

Record EventProcessor := mkEventProcessor {
  m_time : Z;
  m_events : list (Z * Z);
  m_aborting : bool;
  heap : gmap Z BasicEvent }.
#[export] Instance eta_EventProcessor : Eta EventProcessor :=
  λ r, mkEventProcessor (m_time r) (m_events r) (m_aborting r) (heap r).

(** The virtual calls that the queue makes. *)
Inductive dispatch :=
  | Executed (event e_time p_time : Z)
  | Aborted (event e_time : Z).

Notation eaction := (act EventProcessor dispatch).

Fixpoint multimap_insert (k v : Z) (l : list (Z * Z)) : list (Z * Z) :=
  match l with
  | [] => [(k, v)]
  | (k', v') :: l' => if k' <=? k then (k', v') :: multimap_insert k v l' else (k, v) :: l
  end.

(** The virtual methods of the event objects.  [Execute] runs against the
    processor, which it may change as it likes (add events, also for now, flag
    others, kill them), and says whether the event is to be deleted.  A call of
    [Abort] is recorded; what it does to the queue is not modelled. *)
Class EventMethods := {
  Execute : Z → Z → Z → EventProcessor → bool * EventProcessor;
  IsDeletable : Z → bool }.

Section Processor.
Context `{EventMethods}.

Definition deref (Event : Z) : eaction BasicEvent :=
  s ← get; require (heap s !! Event).
Definition free (Event : Z) : eaction unit := modify (λ s, s <| heap ::= delete Event |>).
Definition run_Execute (Event p_time : Z) : eaction bool :=
  t ← gets m_time;
  emit (Executed Event t p_time) ;;
  s ← get;
  put (Execute Event t p_time s).2 ;;
  mret (Execute Event t p_time s).1.
Definition run_Abort (Event : Z) : eaction unit :=
  t ← gets m_time; emit (Aborted Event t).

(** The body of the loop of [Update], for an entry that is due. *)
Definition run_event (Event p_time : Z) : eaction unit :=
  e ← deref Event;
  if negb (to_Abort e) then
    deletable ← run_Execute Event p_time;
    when deletable (free Event)
  else run_Abort Event ;; free Event.

Fixpoint Update_loop (fuel : nat) (p_time : Z) : eaction unit :=
  s ← get;
  match m_events s with
  | [] => mret tt
  | (k, Event) :: rest =>
      if k <=? m_time s then
        match fuel with
        | O => raise OutOfFuel
        | S fuel' =>
            modify (λ s, s <| m_events := rest |>) ;;
            run_event Event p_time ;;
            Update_loop fuel' p_time
        end
      else mret tt
  end.

Definition Update (fuel : nat) (p_time : Z) : eaction unit :=
  modify (λ s, s <| m_time := u64 (m_time s + p_time) |>) ;;
  Update_loop fuel p_time.

(** The loop of [KillAllEvents] over the entries [l] still to visit; [done]
    are the entries visited and kept. *)
Fixpoint KillAllEvents_loop (force : bool) (kept l : list (Z * Z)) : eaction unit :=
  match l with
  | [] => mret tt
  | (k, Event) :: l' =>
      e ← deref Event;
      modify (λ s, s <| heap ::= <[Event := e <| to_Abort := true |>]> |>) ;;
      run_Abort Event ;;
      if force || IsDeletable Event then
        free Event ;;
        when (negb force) (modify (λ s, s <| m_events := kept ++ l' |>)) ;;
        KillAllEvents_loop force (if force then kept ++ [(k, Event)] else kept) l'
      else KillAllEvents_loop force (kept ++ [(k, Event)]) l'
  end.

Definition KillAllEvents (force : bool) : eaction unit :=
  modify (λ s, s <| m_aborting := true |>) ;;
  s ← get;
  KillAllEvents_loop force [] (m_events s) ;;
  when force (modify (λ s, s <| m_events := [] |>)).

Definition AddEvent (Event e_time : Z) (set_addtime : bool) : eaction unit :=
  e ← deref Event;
  t ← gets m_time;
  let e1 := if set_addtime then e <| m_addTime := t |> else e in
  modify (λ s, s <| heap ::= <[Event := e1 <| m_execTime := e_time |>]> |>) ;;
  modify (λ s, s <| m_events ::= multimap_insert e_time Event |>).

Definition CalculateTime (t_offset : Z) : eaction Z :=
  t ← gets m_time; mret (u64 (t + t_offset)).
End Processor.

(** ** The timers *)

(** The difference of two millisecond stamps is exact while the clock has
    not wrapped, and one millisecond short when it has. *)
Theorem getMSTimeDiff_value old new :
  0 <= old < 2 ^ 32 → 0 <= new < 2 ^ 32 →
  getMSTimeDiff old new = if old <=? new then u32 (new - old) else u32 (new - old) - 1.
Proof.
  intros Ho Hn. unfold getMSTimeDiff.
  destruct (Z.gtb_spec old new), (Z.leb_spec old new); try lia.
  unfold wrapu. rewrite Zplus_mod_idemp_l.
  rewrite <- (Z_mod_plus_full (new - old) 1). rewrite !Z.mod_small by lia. lia.
Qed.

Lemma getMSTimeDiff_value_witness :
  getMSTimeDiff (2 ^ 32 - 10) 5 = 14 ∧ u32 (5 - (2 ^ 32 - 10)) = 15.
Proof.
  split; [|vm_compute; reflexivity].
  rewrite getMSTimeDiff_value by lia. vm_compute. reflexivity.
Defined.

Fixpoint Zsum (l : list Z) : Z := match l with [] => 0 | x :: l' => x + Zsum l' end.

Lemma Zsum_nonneg l : Forall (λ x, 0 <= x) l → 0 <= Zsum l.
Proof. induction 1; simpl; lia. Qed.

(** An [IntervalTimer] loses no time: over any sequence of ticks the
    milliseconds that went by are the intervals that fired plus what the timer
    still holds, and when no tick is longer than the interval less than one
    interval is held. *)
Theorem interval_timer_accounts diffs r n r' :
  0 < IntervalTimer._interval r →
  0 <= IntervalTimer._current r →
  Forall (λ d, 0 <= d) diffs →
  IntervalTimer._current r + Zsum diffs < 2 ^ 63 →
  IntervalTimer.ticks diffs r = (n, r') →
  IntervalTimer._interval r' = IntervalTimer._interval r ∧
  IntervalTimer._current r + Zsum diffs =
    n * IntervalTimer._interval r + IntervalTimer._current r' ∧
  0 <= IntervalTimer._current r' ∧
  (IntervalTimer._current r < IntervalTimer._interval r →
   Forall (λ d, d <= IntervalTimer._interval r) diffs →
   IntervalTimer._current r' < IntervalTimer._interval r).
Proof.
  intros Hi Hc Hd. revert r n r' Hi Hc.
  induction Hd as [|d diffs Hd Hds IH]; intros [int cur] n r' Hi Hc Hb Ht; simpl in *.
  { simplify_eq. simpl. split_and!; lia || done. }
  pose proof (Zsum_nonneg _ Hds).
  unfold IntervalTimer.Update, IntervalTimer.Passed, IntervalTimer.Reset in Ht. simpl in Ht.
  rewrite (wraps_id 64 (cur + d)) in Ht by lia.
  rewrite (proj2 (Z.ltb_ge (cur + d) 0)) in Ht by lia. simpl in Ht.
  destruct (Z.leb_spec int (cur + d)); simpl in Ht.
  - rewrite wraps_id in Ht by lia.
    destruct (IntervalTimer.ticks diffs _) as [n1 r1] eqn:E; simplify_eq.
    apply IH in E as (E1 & E2 & E3 & E4); simpl in *; try lia. split_and!; try lia.
    intros Hlt HF. inversion HF; subst. apply E4; [lia|done].
  - apply IH in Ht as (E1 & E2 & E3 & E4); simpl in *; try lia. split_and!; try lia.
    intros Hlt HF. inversion HF; subst. apply E4; [lia|done].
Qed.

Lemma interval_timer_accounts_witness :
  IntervalTimer.ticks [60; 70; 100; 5] (IntervalTimer.mk 100 30) =
    (2, IntervalTimer.mk 100 65) ∧ 30 + Zsum [60; 70; 100; 5] = 2 * 100 + 65.
Proof.
  assert (IntervalTimer.ticks [60; 70; 100; 5] (IntervalTimer.mk 100 30) =
    (2, IntervalTimer.mk 100 65)) as E by (vm_compute; reflexivity).
  split; [exact E|].
  eapply (interval_timer_accounts [60; 70; 100; 5] (IntervalTimer.mk 100 30)) in E;
    [apply E|simpl; lia|simpl; lia|repeat constructor; lia|simpl; lia].
Defined.

(** A [PeriodicTimer] fires exactly when the tick reaches its expire time,
    and is armed again with a positive time that is at most the old one when
    the tick was longer than the period. *)
Theorem periodic_timer_update r diff :
  0 < PeriodicTimer.i_expireTime r < 2 ^ 30 → 0 <= PeriodicTimer.i_period r < 2 ^ 30 →
  0 <= diff < 2 ^ 30 →
  let '(fired, r') := PeriodicTimer.Update diff r in
  fired = (PeriodicTimer.i_expireTime r <=? diff) ∧
  PeriodicTimer.i_period r' = PeriodicTimer.i_period r ∧
  PeriodicTimer.i_expireTime r' = PeriodicTimer.i_expireTime r - diff +
    (if fired then Z.max (PeriodicTimer.i_period r) diff else 0) ∧
  0 < PeriodicTimer.i_expireTime r'.
Proof.
  destruct r as [per exp]; simpl. intros He Hp Hd. unfold PeriodicTimer.Update. simpl.
  rewrite (wraps_id 32 (exp - diff)) by lia. rewrite (wraps_id 32 diff) by lia.
  rewrite (wrapu_id 32 per) by lia.
  destruct (Z.gtb_spec (exp - diff) 0); simpl.
  - split_and!; [symmetry; apply Z.leb_gt; lia|done|lia|lia].
  - assert ((if per >? diff then per else diff) = Z.max per diff) as ->
      by (destruct (Z.gtb_spec per diff); lia).
    rewrite wraps_id by lia. split_and!; [symmetry; apply Z.leb_le; lia|done|lia|lia].
Qed.

Lemma periodic_timer_update_witness :
  PeriodicTimer.Update 300 (PeriodicTimer.mk 1000 250) = (true, PeriodicTimer.mk 1000 950) ∧
  0 < 950.
Proof.
  pose proof (periodic_timer_update (PeriodicTimer.mk 1000 250) 300
    ltac:(simpl; lia) ltac:(simpl; lia) ltac:(lia)) as H.
  assert (PeriodicTimer.Update 300 (PeriodicTimer.mk 1000 250) =
    (true, PeriodicTimer.mk 1000 950)) as E by (vm_compute; reflexivity).
  rewrite E in H. split; [exact E|apply H].
Defined.

(** ** The queue *)

Lemma multimap_insert_perm k v l : multimap_insert k v l ≡ₚ (k, v) :: l.
Proof.
  induction l as [|[k' v'] l IH]; simpl; [done|]. destruct (k' <=? k); [|done].
  rewrite IH. constructor.
Qed.

Lemma sorted_filter_le k (l : list (Z * Z)) :
  StronglySorted le_key l → (∀ x, x ∈ l → k < x.1) → filter (λ kv : Z * Z, kv.1 <= k) l = [].
Proof.
  intros _. induction l as [|x l IH]; intros Hl; [done|].
  rewrite filter_cons_False by (specialize (Hl x ltac:(set_solver)); lia).
  apply IH. set_solver.
Qed.

Lemma filter_all_gt k (l : list (Z * Z)) :
  (∀ x : Z * Z, x ∈ l → k < x.1) → filter (λ kv : Z * Z, k < kv.1) l = l.
Proof.
  induction l as [|x l IH]; intros Hl; [done|].
  rewrite filter_cons_True by (apply Hl; set_solver). f_equal. apply IH. set_solver.
Qed.

Lemma sorted_head_le k v (l : list (Z * Z)) x :
  StronglySorted le_key ((k, v) :: l) → x ∈ l → k <= x.1.
Proof. inversion 1 as [|? ? _ HF]; subst. rewrite Forall_forall in HF. intros Hx%HF. done. Qed.

Lemma multimap_insert_split k v (l : list (Z * Z)) :
  StronglySorted le_key l →
  multimap_insert k v l =
    filter (λ kv : Z * Z, kv.1 <= k) l ++ (k, v) :: filter (λ kv : Z * Z, k < kv.1) l.
Proof.
  induction l as [|[k' v'] l IH]; intros Hs; [done|].
  pose proof (sorted_head_le k' v' l) as Hh. simpl. destruct (Z.leb_spec k' k).
  - rewrite filter_cons_True by done. rewrite (filter_cons_False _ (k', v')) by (simpl; lia).
    rewrite IH by (by inversion Hs). done.
  - assert (∀ x, x ∈ (k', v') :: l → k < x.1).
    { intros x [->|Hx]%elem_of_cons; [done|]. specialize (Hh x Hs Hx). lia. }
    rewrite sorted_filter_le, filter_all_gt by done. done.
Qed.

Lemma multimap_insert_sorted k v l :
  StronglySorted le_key l → StronglySorted le_key (multimap_insert k v l).
Proof.
  induction 1 as [|[k' v'] l Hs IH HF]; simpl; [by repeat constructor|].
  destruct (Z.leb_spec k' k).
  - constructor; [done|]. rewrite multimap_insert_perm. constructor; [done|done].
  - constructor; [by constructor|]. constructor; [unfold le_key; simpl; lia|].
    eapply Forall_impl; [exact HF|]. unfold le_key. simpl. intros; lia.
Qed.

Definition queued (s : EventProcessor) (Event : Z) : Prop := Event ∈ (m_events s).*2.
Definition queue_wf (s : EventProcessor) : Prop :=
  StronglySorted le_key (m_events s) ∧ NoDup (m_events s).*2 ∧
  ∀ Event, queued s Event → is_Some (heap s !! Event).



Section QueueLaws.
Context `{EventContract}.












End QueueLaws.

(** [AddEvent] keeps the queue consistent and queues the event behind every
    event planned for the same time or earlier, and before every later one; it
    stamps the planned time and, when asked, the time of the addition. *)
Theorem add_event_fifo ev e e_time set_addtime s :
  queue_wf s → ¬ queued s ev → heap s !! ev = Some e →
  wp (E := dispatch) (AddEvent ev e_time set_addtime) (λ _ s' _, queue_wf s' ∧
    m_events s' = filter (λ kv : Z * Z, kv.1 <= e_time) (m_events s) ++
      (e_time, ev) :: filter (λ kv : Z * Z, e_time < kv.1) (m_events s) ∧
    heap s' = <[ev := mkBasicEvent (to_Abort e)
      (if set_addtime then m_time s else m_addTime e) e_time]> (heap s)) s.
Proof.
  intros (Hs & Hn & Hh) Hq He. unfold AddEvent, deref.
  apply wp_bind, wp_bind, wp_get. rewrite He. apply wp_ret.
  apply wp_bind, wp_gets, wp_bind, wp_modify, wp_modify. simpl. split_and!.
  - split_and!; simpl.
    + by apply multimap_insert_sorted.
    + rewrite multimap_insert_perm. simpl. by constructor.
    + unfold queued. simpl. intros ev'. rewrite multimap_insert_perm. simpl.
      intros [->|Hev']%elem_of_cons; [by rewrite lookup_insert_eq|].
      destruct (decide (ev = ev')) as [->|Hne]; [by rewrite lookup_insert_eq|].
      rewrite lookup_insert_ne by done. by apply Hh.
  - by apply multimap_insert_split.
  - f_equal. by destruct set_addtime, e.
Qed.

Section Kill.
Context `{EventMethods}.

(** The entries of [l] that a clean-up leaves in the queue, and what becomes
    of the event [ev]: destroyed, flagged, or untouched when not in [l]. *)
Definition spares (l : list (Z * Z)) : list (Z * Z) :=
  filter (λ kv : Z * Z, IsDeletable kv.2 = false) l.
Definition after_kill (force : bool) (l : list (Z * Z)) (m : gmap Z BasicEvent) (ev : Z) :
    option BasicEvent :=
  if decide (ev ∈ l.*2) then
    if force || IsDeletable ev then None else (λ e, e <| to_Abort := true |>) <$> m !! ev
  else m !! ev.

Definition kill_one (force : bool) (ev : Z) (e : BasicEvent) (m : gmap Z BasicEvent) :=
  if force || IsDeletable ev then delete ev (<[ev := e <| to_Abort := true |>]> m)
  else <[ev := e <| to_Abort := true |>]> m.

Lemma kill_one_ne force ev e m ev' : ev' ≠ ev → kill_one force ev e m !! ev' = m !! ev'.
Proof. intros. unfold kill_one. destruct (force || IsDeletable ev); by simplify_map_eq. Qed.

Lemma after_kill_cons force k ev l m e ev' :
  m !! ev = Some e → ev ∉ l.*2 →
  after_kill force l (kill_one force ev e m) ev' =
  after_kill force ((k, ev) :: l) m ev'.
Proof.
  intros He Hn. unfold after_kill. simpl.
  destruct (decide (ev' = ev)) as [->|Hne].
  - rewrite (decide_False (P := ev ∈ l.*2)), (decide_True (P := ev ∈ _ :: _))
      by (done || left). unfold kill_one. rewrite He.
    destruct (force || IsDeletable ev); by simplify_map_eq.
  - rewrite kill_one_ne by done.
    destruct (decide (ev' ∈ l.*2)).
    + by rewrite decide_True by (by right).
    + by rewrite decide_False by (by intros [?|?]%elem_of_cons).
Qed.

Definition killed (force : bool) (kept l : list (Z * Z)) (s s' : EventProcessor)
    (t : list dispatch) : Prop :=
  m_time s' = m_time s ∧ m_aborting s' = m_aborting s ∧
  (force = false → m_events s' = kept ++ spares l) ∧
  t = (λ kv : Z * Z, Aborted kv.2 (m_time s)) <$> l ∧
  ∀ ev, heap s' !! ev = after_kill force l (heap s) ev.

Lemma KillAllEvents_loop_spec force kept l s :
  NoDup l.*2 → (∀ ev, ev ∈ l.*2 → is_Some (heap s !! ev)) →
  (force = false → m_events s = kept ++ l) →
  wp (KillAllEvents_loop force kept l) (λ _ s' t, killed force kept l s s' t) s.
Proof.
  revert kept s. induction l as [|[k ev] l IH]; intros kept s Hn Hh Hk; cbn [KillAllEvents_loop].
  { apply wp_ret. split_and!; done. }
  simpl in Hn. apply NoDup_cons in Hn as [Hn1 Hn2].
  destruct (Hh ev) as [e He]; [left|]. unfold deref, run_Abort, free.
  apply wp_bind, wp_bind, wp_get. rewrite He. apply wp_ret.
  apply wp_bind, wp_modify, wp_bind, wp_bind, wp_gets, wp_emit. simpl.
  pose proof (λ ev', after_kill_cons force k ev l (heap s) e ev' He Hn1) as Hcons.
  assert (∀ ev', ev' ∈ l.*2 → is_Some (kill_one force ev e (heap s) !! ev')) as Hh'.
  { intros ev' Hev'. rewrite kill_one_ne by (intros ->; done). apply Hh; by right. }
  unfold killed, spares, kill_one in *. destruct (force || IsDeletable ev) eqn:Ed.
  - apply wp_bind, wp_modify, wp_bind, wp_when; intros Hf; [apply wp_modify|];
      (eapply wp_mono; [apply IH; [done|done|by destruct force]|]);
      intros _ s2 t2 (E1 & E2 & E3 & -> & E5); (split_and!; [done|done| |done|]);
      try (intros ev'; rewrite E5; apply Hcons);
      intros ->; [|done]; rewrite E3, filter_cons_False by (simpl in *; congruence); done.
  - apply orb_false_iff in Ed as [-> Ed].
    eapply wp_mono; [apply IH; [done|done|intros _; simpl]|].
    { by rewrite Hk, <- app_assoc by done. }
    intros _ s2 t2 (E1 & E2 & E3 & -> & E5). split_and!; [done|done| |done|].
    + intros _. by rewrite E3, filter_cons_True, <- app_assoc by done.
    + intros ev'. rewrite E5. apply Hcons.
Qed.

(** [KillAllEvents] aborts every queued event exactly once, in the order
    of the queue. When forced it destroys them all and empties the queue;
    otherwise it destroys and unqueues exactly the deletable ones, and the
    others stay queued, in order, flagged for abortion. *)
Theorem kill_all_events force s :
  queue_wf s →
  wp (KillAllEvents force) (λ _ s' t,
    m_events s' = (if force then [] else spares (m_events s)) ∧
    m_aborting s' = true ∧
    t = (λ kv : Z * Z, Aborted kv.2 (m_time s)) <$> m_events s ∧
    ∀ ev, heap s' !! ev = after_kill force (m_events s) (heap s) ev) s.
Proof.
  intros (_ & Hn & Hh). unfold KillAllEvents. apply wp_bind, wp_modify, wp_bind, wp_get, wp_bind.
  eapply wp_mono; [by apply KillAllEvents_loop_spec|].
  intros _ s1 t1 (E1 & E2 & E3 & -> & E5). simpl in *.
  apply wp_when; intros ->; [apply wp_modify|]; simpl; rewrite app_nil_r; split_and!; auto.
Qed.
End Kill.

(** The events of the base class: executed once and deleted, always deletable. *)
Definition BasicEvent_methods : EventMethods :=
  {| Execute := λ _ _ _ s, (true, s); IsDeletable := λ _, true |}.


Definition three_events : EventProcessor :=
  mkEventProcessor 100 [(150, 1); (150, 2); (400, 3)] false
    (list_to_map [(1, mkBasicEvent false 0 150); (2, mkBasicEvent true 0 150);
                  (3, mkBasicEvent false 0 400)]).

Lemma three_events_wf : queue_wf three_events.
Proof.
  unfold queue_wf, queued. split_and!; simpl.
  - repeat constructor; unfold le_key; simpl; lia.
  - repeat constructor; set_solver.
  - intros ev Hev. repeat (apply elem_of_cons in Hev as [->|Hev]; [by eexists|]). set_solver.
Qed.



Lemma add_event_fifo_witness :
  wp (E := dispatch) (AddEvent 4 150 true)
     (λ _ s' _, m_events s' = [(150, 1); (150, 2); (150, 4); (400, 3)])
     (three_events <| heap ::= <[4 := mkBasicEvent false 0 0]> |>).
Proof.
  eapply wp_mono; [apply (add_event_fifo 4 (mkBasicEvent false 0 0) 150 true)|].
  - destruct three_events_wf as (Hs & Hn & Hh). split_and!; [done|done|].
    intros ev Hev. simpl. destruct (decide (ev = 4)) as [->|Hne]; [by eexists|].
    rewrite lookup_insert_ne by done. by apply Hh.
  - unfold queued. simpl. set_solver.
  - vm_compute. reflexivity.
  - intros _ s' t (_ & -> & _). vm_compute. reflexivity.
Defined.

Lemma kill_all_events_witness :
  wp (@KillAllEvents BasicEvent_methods false) (λ _ s' t, m_events s' = [] ∧
    t = [Aborted 1 100; Aborted 2 100; Aborted 3 100]) three_events.
Proof.
  eapply wp_mono; [apply (@kill_all_events BasicEvent_methods false three_events three_events_wf)|].
  intros _ s' t (E1 & _ & E3 & _). rewrite E1, E3. split; vm_compute; reflexivity.
Defined.
