(* ===== verification/Rbac.v ===== *)
(** Role based access control of accounts: src/server/game/Accounts/RBAC.cpp
    and RBAC.h, the RBAC part of AccountMgr.cpp, the login database tables that
    its statements (src/server/shared/Database/Implementation/LoginDatabase.cpp)
    read and write, and the session's cached permissions
    (src/server/game/Server/WorldSession.cpp). *)

From S2P Require Import Prelude Util.
Open Scope string_scope.
Open Scope list_scope.
Open Scope Z_scope.

(** ** Data *)

Definition RBAC_PERM_TWO_SIDE_INTERACTION_CHANNEL : Z := 26.
Definition RBAC_PERM_WHO_SEE_ALL_SEC_LEVELS : Z := 35.
Definition RBAC_PERM_SILENTLY_JOIN_CHANNEL : Z := 45.
Definition RBAC_PERM_CHANGE_CHANNEL_NOT_MODERATOR : Z := 46.
Definition RBAC_PERM_CHECK_FOR_LOWER_SECURITY : Z := 47.
Definition RBAC_PERM_MAX : Z := 48.

Inductive RBACCommandResult :=
  | RBAC_OK
  | RBAC_CANT_ADD_ALREADY_ADDED
  | RBAC_CANT_REVOKE_NOT_IN_LIST
  | RBAC_IN_GRANTED_LIST
  | RBAC_IN_DENIED_LIST
  | RBAC_ID_DOES_NOT_EXISTS.
#[export] Instance RBACCommandResult_eq_dec : EqDecision RBACCommandResult.
Proof. solve_decision. Defined.

(** [std::bitset<RBAC_PERM_MAX>]: bit [i] of the number is position [i];
    [test], [set] and [reset] throw [std::out_of_range] at other positions. *)
Module Bitset.
Definition t := Z.
Definition in_range (pos : Z) : bool := (0 <=? pos) && (pos <? RBAC_PERM_MAX).
Definition set (b : t) (pos : Z) : t := Z.lor b (Z.shiftl 1 pos).
Definition reset (b : t) (pos : Z) : t := Z.ldiff b (Z.shiftl 1 pos).
Definition or (b c : t) : t := Z.lor b c.
Definition and_not (b c : t) : t := Z.ldiff b c.
End Bitset.

Record RBACPermission := mkRBACPermission { perm_id : Z; perm_name : string }.
Record RBACRole := mkRBACRole { role_id : Z; role_name : string; _perms : Bitset.t }.
Record RBACGroup := mkRBACGroup { group_id : Z; group_name : string; group_roles : gset Z }.
#[export] Instance eta_RBACRole : Eta RBACRole :=
  λ r, mkRBACRole (role_id r) (role_name r) (_perms r).
#[export] Instance eta_RBACGroup : Eta RBACGroup :=
  λ r, mkRBACGroup (group_id r) (group_name r) (group_roles r).

Module Role.
Definition GrantPermission (permissionId : Z) (r : RBACRole) : RBACRole :=
  if permissionId <? RBAC_PERM_MAX then r <| _perms ::= λ p, Bitset.set p permissionId |> else r.
Definition RevokePermission (permissionId : Z) (r : RBACRole) : RBACRole :=
  if permissionId <? RBAC_PERM_MAX then r <| _perms ::= λ p, Bitset.reset p permissionId |> else r.
End Role.

Module Group.
Definition GrantRole (roleId : Z) (g : RBACGroup) : RBACGroup :=
  g <| group_roles ::= λ s, {[ roleId ]} ∪ s |>.
Definition RevokeRole (roleId : Z) (g : RBACGroup) : RBACGroup :=
  g <| group_roles ::= λ s, s ∖ {[ roleId ]} |>.
End Group.

Record AccountMgr := mkAccountMgr {
  _permissions : gmap Z RBACPermission;
  _roles : gmap Z RBACRole;
  _groups : gmap Z RBACGroup;
  _defaultSecGroups : gmap Z (gset Z);
  _defaultGroups : gset Z }.
#[export] Instance eta_AccountMgr : Eta AccountMgr :=
  λ r, mkAccountMgr (_permissions r) (_roles r) (_groups r) (_defaultSecGroups r)
         (_defaultGroups r).

Definition GetRBACGroup (groupId : Z) (m : AccountMgr) : option RBACGroup := _groups m !! groupId.
Definition GetRBACRole (roleId : Z) (m : AccountMgr) : option RBACRole := _roles m !! roleId.
Definition GetRBACPermission (permissionId : Z) (m : AccountMgr) : option RBACPermission :=
  _permissions m !! permissionId.

Record RBACData := mkRBACData {
  _id : Z; _name : string; _realmId : Z;
  groups : gset Z;
  _grantedRoles : gset Z; _deniedRoles : gset Z;
  _grantedPerms : Bitset.t; _deniedPerms : Bitset.t; _globalPerms : Bitset.t }.
#[export] Instance eta_RBACData : Eta RBACData :=
  λ r, mkRBACData (_id r) (_name r) (_realmId r) (groups r) (_grantedRoles r) (_deniedRoles r)
         (_grantedPerms r) (_deniedPerms r) (_globalPerms r).

Definition new_RBACData (id : Z) (name : string) (realmId : Z) : RBACData :=
  mkRBACData id name realmId ∅ ∅ ∅ 0 0 0.

(** ** The login database

    The tables, keyed by their primary keys (account, object, realm), and the
    statements that the code hands to the database. *)

Inductive login_stmt :=
  | LOGIN_INS_RBAC_ACCOUNT_GROUP (acc groupId realmId : Z)
  | LOGIN_DEL_RBAC_ACCOUNT_GROUP (acc groupId realmId : Z)
  | LOGIN_INS_RBAC_ACCOUNT_ROLE (acc roleId : Z) (granted : bool) (realmId : Z)
  | LOGIN_DEL_RBAC_ACCOUNT_ROLE (acc roleId realmId : Z)
  | LOGIN_INS_RBAC_ACCOUNT_PERMISSION (acc permissionId : Z) (granted : bool) (realmId : Z)
  | LOGIN_DEL_RBAC_ACCOUNT_PERMISSION (acc permissionId realmId : Z)
  | LOGIN_DEL_ACCOUNT_ACCESS (acc : Z)
  | LOGIN_DEL_ACCOUNT_ACCESS_BY_REALM (acc realmId : Z)
  | LOGIN_INS_ACCOUNT_ACCESS (acc gmlevel realmId : Z).

Record LoginDB := mkLoginDB {
  rbac_account_groups : gmap (Z * Z * Z) bool;
  rbac_account_roles : gmap (Z * Z * Z) bool;
  rbac_account_permissions : gmap (Z * Z * Z) bool;
  account_access : gmap (Z * Z) Z }.
#[export] Instance eta_LoginDB : Eta LoginDB :=
  λ r, mkLoginDB (rbac_account_groups r) (rbac_account_roles r) (rbac_account_permissions r)
         (account_access r).

(** INSERT fails, without effect, on a duplicate key; with ON DUPLICATE KEY
    UPDATE it replaces the value.  DELETE of an object for a realm also deletes
    its row for all realms (-1). *)
Definition sql_insert {K} `{Countable K} {V} (k : K) (v : V) (m : gmap K V) : gmap K V :=
  match m !! k with Some _ => m | None => <[k := v]> m end.
Definition sql_delete (acc id realmId : Z) (m : gmap (Z * Z * Z) bool) : gmap (Z * Z * Z) bool :=
  delete (acc, id, realmId) (delete (acc, id, -1) m).

Definition exec_stmt (st : login_stmt) (db : LoginDB) : LoginDB :=
  match st with
  | LOGIN_INS_RBAC_ACCOUNT_GROUP a g r =>
      db <| rbac_account_groups ::= sql_insert (a, g, r) true |>
  | LOGIN_DEL_RBAC_ACCOUNT_GROUP a g r => db <| rbac_account_groups ::= sql_delete a g r |>
  | LOGIN_INS_RBAC_ACCOUNT_ROLE a i b r => db <| rbac_account_roles ::= <[(a, i, r) := b]> |>
  | LOGIN_DEL_RBAC_ACCOUNT_ROLE a i r => db <| rbac_account_roles ::= sql_delete a i r |>
  | LOGIN_INS_RBAC_ACCOUNT_PERMISSION a i b r =>
      db <| rbac_account_permissions ::= <[(a, i, r) := b]> |>
  | LOGIN_DEL_RBAC_ACCOUNT_PERMISSION a i r =>
      db <| rbac_account_permissions ::= sql_delete a i r |>
  | LOGIN_DEL_ACCOUNT_ACCESS a =>
      db <| account_access ::= filter (λ kv : Z * Z * Z, kv.1.1 ≠ a) |>
  | LOGIN_DEL_ACCOUNT_ACCESS_BY_REALM a r =>
      db <| account_access ::= λ m, delete (a, r) (delete (a, -1) m) |>
  | LOGIN_INS_ACCOUNT_ACCESS a l r => db <| account_access ::= sql_insert (a, r) l |>
  end.
Definition exec_stmts (sts : list login_stmt) (db : LoginDB) : LoginDB :=
  foldl (λ db st, exec_stmt st db) db sts.

(** The rows of an account for a realm (or all realms), ordered by object and
    realm. *)
Definition sql_rows (acc realmId : Z) (m : gmap (Z * Z * Z) bool) : list (Z * bool) :=
  id ← set_iter (set_map (λ k : Z * Z * Z, k.1.2) (dom m));
  realm ← set_iter {[ realmId; -1 ]};
  match m !! (acc, id, realm) with Some b => [(id, b)] | None => [] end.
(** [GROUP BY groupId]: one row per group. *)
Definition LOGIN_SEL_RBAC_ACCOUNT_GROUPS (acc realmId : Z) (db : LoginDB) : list Z :=
  remove_dups (sql_rows acc realmId (rbac_account_groups db)).*1.
Definition LOGIN_SEL_RBAC_ACCOUNT_ROLES (acc realmId : Z) (db : LoginDB) : list (Z * bool) :=
  sql_rows acc realmId (rbac_account_roles db).
Definition LOGIN_SEL_RBAC_ACCOUNT_PERMISSIONS (acc realmId : Z) (db : LoginDB) :
    list (Z * bool) := sql_rows acc realmId (rbac_account_permissions db).

(** ** RBACData

    The methods of an account's data; the definitions of groups, roles and
    permissions are those of the account manager [mgr]. *)

Notation raction := (act RBACData login_stmt).

Section Data.
Context (mgr : AccountMgr).

Definition test (b : RBACData → Bitset.t) (pos : Z) : raction bool :=
  if Bitset.in_range pos then gets (λ d, Z.testbit (b d) pos)
  else raise (BitsetOutOfRange pos).

Definition HasPermission (permission : Z) : raction bool := test _globalPerms permission.

Definition CalculateNewPermissions : raction unit :=
  d ← get;
  let tempGrantedRoles :=
    foldl (λ acc itGroup,
        match GetRBACGroup itGroup mgr with
        | None => acc
        | Some group => acc ∪ group_roles group
        end) (_grantedRoles d) (set_iter (groups d)) in
  let role_perms it :=
    match GetRBACRole it mgr with Some role => _perms role | None => 0 end in
  let granted :=
    foldl (λ acc it, Bitset.or acc (role_perms it)) (_grantedPerms d)
      (set_iter tempGrantedRoles) in
  let direct := Bitset.and_not granted (_deniedPerms d) in
  let final :=
    foldl (λ acc it, Bitset.and_not acc (role_perms it)) direct (set_iter (_deniedRoles d)) in
  modify (λ d, d <| _globalPerms := final |>).

Definition SaveRole (roleId : Z) (granted : bool) (realmId : Z) : raction unit :=
  d ← get; emit (LOGIN_INS_RBAC_ACCOUNT_ROLE (_id d) roleId granted realmId).
Definition SavePermission (permission : Z) (granted : bool) (realmId : Z) : raction unit :=
  d ← get; emit (LOGIN_INS_RBAC_ACCOUNT_PERMISSION (_id d) permission granted realmId).

Definition AddGroup (groupId realmId : Z) : raction RBACCommandResult :=
  match GetRBACGroup groupId mgr with
  | None => mret RBAC_ID_DOES_NOT_EXISTS
  | Some _ =>
      d ← get;
      if bool_decide (groupId ∈ groups d) then mret RBAC_CANT_ADD_ALREADY_ADDED else
      modify (λ d, d <| groups ::= λ s, {[ groupId ]} ∪ s |>) ;;
      when (negb (realmId =? 0))
        (emit (LOGIN_INS_RBAC_ACCOUNT_GROUP (_id d) groupId realmId) ;;
         CalculateNewPermissions) ;;
      mret RBAC_OK
  end.

Definition RemoveGroup (groupId realmId : Z) : raction RBACCommandResult :=
  d ← get;
  if negb (bool_decide (groupId ∈ groups d)) then mret RBAC_CANT_REVOKE_NOT_IN_LIST else
  modify (λ d, d <| groups ::= λ s, s ∖ {[ groupId ]} |>) ;;
  when (negb (realmId =? 0))
    (emit (LOGIN_DEL_RBAC_ACCOUNT_GROUP (_id d) groupId realmId) ;;
     CalculateNewPermissions) ;;
  mret RBAC_OK.

Definition GrantRole (roleId realmId : Z) : raction RBACCommandResult :=
  match GetRBACRole roleId mgr with
  | None => mret RBAC_ID_DOES_NOT_EXISTS
  | Some _ =>
      d ← get;
      if bool_decide (roleId ∈ _deniedRoles d) then mret RBAC_IN_DENIED_LIST else
      if bool_decide (roleId ∈ _grantedRoles d) then mret RBAC_CANT_ADD_ALREADY_ADDED else
      modify (λ d, d <| _grantedRoles ::= λ s, {[ roleId ]} ∪ s |>) ;;
      when (negb (realmId =? 0)) (SaveRole roleId true realmId ;; CalculateNewPermissions) ;;
      mret RBAC_OK
  end.

Definition DenyRole (roleId realmId : Z) : raction RBACCommandResult :=
  match GetRBACRole roleId mgr with
  | None => mret RBAC_ID_DOES_NOT_EXISTS
  | Some _ =>
      d ← get;
      if bool_decide (roleId ∈ _grantedRoles d) then mret RBAC_IN_GRANTED_LIST else
      if bool_decide (roleId ∈ _deniedRoles d) then mret RBAC_CANT_ADD_ALREADY_ADDED else
      modify (λ d, d <| _deniedRoles ::= λ s, {[ roleId ]} ∪ s |>) ;;
      when (negb (realmId =? 0)) (SaveRole roleId false realmId ;; CalculateNewPermissions) ;;
      mret RBAC_OK
  end.

Definition RevokeRole (roleId realmId : Z) : raction RBACCommandResult :=
  d ← get;
  modify (λ d, d <| _grantedRoles ::= λ s, s ∖ {[ roleId ]} |>
                 <| _deniedRoles ::= λ s, s ∖ {[ roleId ]} |>) ;;
  if negb (bool_decide (roleId ∈ _grantedRoles d) || bool_decide (roleId ∈ _deniedRoles d))
  then mret RBAC_CANT_REVOKE_NOT_IN_LIST else
  when (negb (realmId =? 0))
    (emit (LOGIN_DEL_RBAC_ACCOUNT_ROLE (_id d) roleId realmId) ;; CalculateNewPermissions) ;;
  mret RBAC_OK.

Definition GrantPermission (permissionId realmId : Z) : raction RBACCommandResult :=
  match GetRBACPermission permissionId mgr with
  | None => mret RBAC_ID_DOES_NOT_EXISTS
  | Some _ =>
      denied ← test _deniedPerms permissionId;
      if denied : bool then mret RBAC_IN_DENIED_LIST else
      granted ← test _grantedPerms permissionId;
      if granted : bool then mret RBAC_CANT_ADD_ALREADY_ADDED else
      modify (λ d, d <| _grantedPerms ::= λ b, Bitset.set b permissionId |>) ;;
      when (negb (realmId =? 0))
        (SavePermission permissionId true realmId ;; CalculateNewPermissions) ;;
      mret RBAC_OK
  end.

Definition DenyPermission (permissionId realmId : Z) : raction RBACCommandResult :=
  match GetRBACPermission permissionId mgr with
  | None => mret RBAC_ID_DOES_NOT_EXISTS
  | Some _ =>
      granted ← test _grantedPerms permissionId;
      if granted : bool then mret RBAC_IN_GRANTED_LIST else
      denied ← test _deniedPerms permissionId;
      if denied : bool then mret RBAC_CANT_ADD_ALREADY_ADDED else
      modify (λ d, d <| _deniedPerms ::= λ b, Bitset.set b permissionId |>) ;;
      when (negb (realmId =? 0))
        (SavePermission permissionId false realmId ;; CalculateNewPermissions) ;;
      mret RBAC_OK
  end.

Definition RevokePermission (permissionId realmId : Z) : raction RBACCommandResult :=
  granted ← test _grantedPerms permissionId;
  denied ← (if granted : bool then mret true else test _deniedPerms permissionId);
  if negb (granted || denied) then mret RBAC_CANT_REVOKE_NOT_IN_LIST else
  modify (λ d, d <| _grantedPerms ::= λ b, Bitset.reset b permissionId |>
                 <| _deniedPerms ::= λ b, Bitset.reset b permissionId |>) ;;
  when (negb (realmId =? 0))
    (d ← get; emit (LOGIN_DEL_RBAC_ACCOUNT_PERMISSION (_id d) permissionId realmId) ;;
     CalculateNewPermissions) ;;
  mret RBAC_OK.

Definition ignore {A} (m : raction A) : raction unit := m ;; mret tt.

Definition LoadFromDB (db : LoginDB) : raction unit :=
  d ← get;
  forM_ (LOGIN_SEL_RBAC_ACCOUNT_GROUPS (_id d) (_realmId d) db)
    (λ g, ignore (AddGroup g 0)) ;;
  forM_ (LOGIN_SEL_RBAC_ACCOUNT_ROLES (_id d) (_realmId d) db)
    (λ row, ignore (if row.2 : bool then GrantRole row.1 0 else DenyRole row.1 0)) ;;
  forM_ (LOGIN_SEL_RBAC_ACCOUNT_PERMISSIONS (_id d) (_realmId d) db)
    (λ row, ignore (if row.2 : bool then GrantPermission row.1 0 else DenyPermission row.1 0)) ;;
  forM_ (set_iter (_defaultGroups mgr)) (λ g, ignore (AddGroup g 0)) ;;
  CalculateNewPermissions.
End Data.

(** ** AccountMgr *)

(** The result sets of the queries of [LoadRBAC] (no row is a NULL result), and
    the two settings of the configuration file that this part reads. *)
Record RbacTables := mkRbacTables {
  rbac_permissions : list (Z * string);
  rbac_roles : list (Z * string);
  rbac_role_permissions : list (Z * Z);
  rbac_groups : list (Z * string);
  rbac_group_roles : list (Z * Z);
  rbac_security_level_groups : list (Z * Z);
  conf_RBAC_DefaultGroups : string;
  conf_RealmID : Z }.

Notation maction := (act AccountMgr login_stmt).

Definition ClearRBAC : maction unit := put (mkAccountMgr ∅ ∅ ∅ ∅ ∅).

(** A query whose result set is empty makes [LoadRBAC] return. *)
Definition unless_empty {A} (rows : list A) (k : maction unit) : maction unit :=
  match rows with [] => mret tt | _ => k end.

Definition LoadRBAC_role_permission (row : Z * Z) : maction unit :=
  m ← get;
  role ← require (_roles m !! row.1);
  modify (λ m, m <| _roles ::= <[row.1 := Role.GrantPermission row.2 role]> |>).
Definition LoadRBAC_group_role (row : Z * Z) : maction unit :=
  m ← get;
  group ← require (_groups m !! row.1);
  modify (λ m, m <| _groups ::= <[row.1 := Group.GrantRole row.2 group]> |>).

(** [cur] is the key whose set the pointer [groups] designates; [lastSecId]
    keeps its first value, 255, throughout. *)
Fixpoint LoadRBAC_sec_groups (cur : option Z) (rows : list (Z * Z)) : maction unit :=
  match rows with
  | [] => mret tt
  | (sec, groupId) :: rows' =>
      let secId := u8 sec in
      let next := if negb (255 =? secId) then Some secId else cur in
      when (negb (255 =? secId)) (modify (λ m, m <| _defaultSecGroups ::= map_index ∅ secId |>)) ;;
      key ← require next;
      modify (λ m, m <| _defaultSecGroups ::= alter (λ s, {[ groupId ]} ∪ s) key |>) ;;
      LoadRBAC_sec_groups next rows'
  end.

Definition LoadRBAC_default_groups (conf : string) : maction unit :=
  forM_ (default [] (Tokenizer conf ","%char)) (λ tok,
    let groupId := u32 (atoi tok) in
    when (negb (groupId =? 0)) (modify (λ m, m <| _defaultGroups ::= λ s, {[ groupId ]} ∪ s |>))).

Definition LoadRBAC (q : RbacTables) : maction unit :=
  ClearRBAC ;;
  unless_empty (rbac_permissions q) (
  forM_ (rbac_permissions q) (λ row,
    modify (λ m, m <| _permissions ::= <[row.1 := mkRBACPermission row.1 row.2]> |>)) ;;
  unless_empty (rbac_roles q) (
  forM_ (rbac_roles q) (λ row,
    modify (λ m, m <| _roles ::= <[row.1 := mkRBACRole row.1 row.2 0]> |>)) ;;
  unless_empty (rbac_role_permissions q) (
  forM_ (rbac_role_permissions q) LoadRBAC_role_permission ;;
  unless_empty (rbac_groups q) (
  forM_ (rbac_groups q) (λ row,
    modify (λ m, m <| _groups ::= <[row.1 := mkRBACGroup row.1 row.2 ∅]> |>)) ;;
  unless_empty (rbac_group_roles q) (
  forM_ (rbac_group_roles q) LoadRBAC_group_role ;;
  unless_empty (rbac_security_level_groups q) (
  LoadRBAC_sec_groups None (rbac_security_level_groups q) ;;
  LoadRBAC_default_groups (conf_RBAC_DefaultGroups q))))))).

(** The account data is an object apart from the manager: its methods run on a
    pair of both. *)
Notation paction := (act (AccountMgr * RBACData) login_stmt).
Definition on_rbac {A} (m : AccountMgr → raction A) : paction A := λ s,
  match m s.1 s.2 with
  | Done a d t => Done a (s.1, d) t
  | Fault f d t => Fault f (s.1, d) t
  end.
Definition defaultSecGroups_at (level : Z) : paction (gset Z) :=
  modify (λ s, (s.1 <| _defaultSecGroups ::= map_index ∅ level |>, s.2)) ;;
  gets (λ s, default ∅ (_defaultSecGroups s.1 !! level)).

(** The rows (level, realm) of an account for a realm, highest level first. *)
Definition ge_level (x y : Z * Z) : Prop := y.1 <= x.1.
#[export] Instance ge_level_dec x y : Decision (ge_level x y).
Proof. unfold ge_level. apply _. Defined.
Definition LOGIN_SEL_ACCOUNT_ACCESS_BY_ID (acc realmId : Z) (db : LoginDB) : list (Z * Z) :=
  merge_sort ge_level (realm ← set_iter {[ realmId; -1 ]};
    match account_access db !! (acc, realm) with Some l => [(l, realm)] | None => [] end).

Definition UpdateAccountAccess (RealmID : Z) (db : LoginDB) (has_rbac : bool)
    (accountId securityLevel realmId : Z) : paction unit :=
  let serverRealmId := if negb (realmId =? -1) then realmId else RealmID in
  when (negb has_rbac)
    (modify (λ s, (s.1, new_RBACData accountId "" serverRealmId)) ;;
     on_rbac (λ mgr, LoadFromDB mgr db)) ;;
  forM_ (LOGIN_SEL_ACCOUNT_ACCESS_BY_ID accountId serverRealmId db) (λ row,
    groupsToRemove ← defaultSecGroups_at (u8 row.1);
    forM_ (set_iter groupsToRemove) (λ it,
      on_rbac (λ mgr, ignore (RemoveGroup mgr it row.2)))) ;;
  groupsToAdd ← defaultSecGroups_at securityLevel;
  forM_ (set_iter groupsToAdd) (λ it, on_rbac (λ mgr, ignore (AddGroup mgr it realmId))) ;;
  (if realmId =? -1 then emit (LOGIN_DEL_ACCOUNT_ACCESS accountId)
   else emit (LOGIN_DEL_ACCOUNT_ACCESS_BY_REALM accountId realmId)) ;;
  when (negb (securityLevel =? 0))
    (emit (LOGIN_INS_ACCOUNT_ACCESS accountId securityLevel realmId)).

(** [AccountMgr::HasPermission]: the question asked of a fresh copy. *)
Definition AccountMgr_HasPermission (mgr : AccountMgr) (db : LoginDB)
    (accountId permissionId realmId : Z) : res RBACData login_stmt bool :=
  let d := new_RBACData accountId "" (i32 realmId) in
  if accountId =? 0 then Done false d []
  else (LoadFromDB mgr db ;; HasPermission permissionId) d.

(** [WorldSession]'s cached copy ([_RBACData]), loaded when first needed. *)
Definition session_LoadPermissions (mgr : AccountMgr) (db : LoginDB)
    (accountId realmID : Z) (name : string) : act (option RBACData) login_stmt unit := λ _,
  match LoadFromDB mgr db (new_RBACData accountId name realmID) with
  | Done _ d t => Done tt (Some d) t
  | Fault f d t => Fault f (Some d) t
  end.
Definition session_HasPermission (mgr : AccountMgr) (db : LoginDB)
    (accountId realmID : Z) (name : string) (permission : Z) :
    act (option RBACData) login_stmt bool :=
  s ← get;
  when (bool_decide (s = None)) (session_LoadPermissions mgr db accountId realmID name) ;;
  s ← get;
  d ← require s;
  if Bitset.in_range permission then mret (Z.testbit (_globalPerms d) permission)
  else raise (BitsetOutOfRange permission).
Definition session_InvalidateRBACData : act (option RBACData) login_stmt unit :=
  put None.

(** ** The calculated permissions *)

(** [p] is granted: directly, by a granted role, or by a role of a group; and
    denied: directly or by a denied role. *)
Definition has_role (mgr : AccountMgr) (d : RBACData) (r : Z) : Prop :=
  r ∈ _grantedRoles d ∨
  ∃ g group, g ∈ groups d ∧ _groups mgr !! g = Some group ∧ r ∈ group_roles group.
Definition role_gives (mgr : AccountMgr) (r p : Z) : Prop :=
  ∃ role, _roles mgr !! r = Some role ∧ Z.testbit (_perms role) p = true.
Definition granted_by (mgr : AccountMgr) (d : RBACData) (p : Z) : Prop :=
  Z.testbit (_grantedPerms d) p = true ∨ ∃ r, has_role mgr d r ∧ role_gives mgr r p.
Definition denied_by (mgr : AccountMgr) (d : RBACData) (p : Z) : Prop :=
  Z.testbit (_deniedPerms d) p = true ∨ ∃ r, r ∈ _deniedRoles d ∧ role_gives mgr r p.

(** The value that [CalculateNewPermissions] stores. *)
Definition calculated (mgr : AccountMgr) (d : RBACData) : Bitset.t :=
  _globalPerms (rstate (CalculateNewPermissions mgr d)).
Definition recalc (mgr : AccountMgr) (d : RBACData) : RBACData :=
  d <| _globalPerms := calculated mgr d |>.

Lemma CalculateNewPermissions_run mgr d :
  CalculateNewPermissions mgr d = Done tt (recalc mgr d) [].
Proof. done. Qed.

Section Calculated.
Context (mgr : AccountMgr).

Lemma role_perms_bit r p :
  Z.testbit (match GetRBACRole r mgr with Some role => _perms role | None => 0 end) p = true
  ↔ role_gives mgr r p.
Proof.
  unfold role_gives, GetRBACRole. destruct (_roles mgr !! r) as [role|]; split.
  - eauto.
  - by intros (? & [= <-] & ?).
  - rewrite Z.bits_0. done.
  - by intros (? & ? & ?).
Qed.

Lemma temp_roles_spec (l : list Z) (X : gset Z) r :
  r ∈ foldl (λ acc g, match GetRBACGroup g mgr with
                      | None => acc | Some group => acc ∪ group_roles group end) X l
  ↔ r ∈ X ∨ ∃ g group, g ∈ l ∧ _groups mgr !! g = Some group ∧ r ∈ group_roles group.
Proof.
  revert X. induction l as [|g l IH]; intros X; simpl.
  - split; [auto|]. intros [?|(? & ? & ?%elem_of_nil & _)]; done.
  - rewrite IH. unfold GetRBACGroup. destruct (_groups mgr !! g) as [grp|] eqn:E; [|].
    + rewrite elem_of_union. split.
      * intros [[?|?]|(g' & grp' & ? & ? & ?)]; [by left|right..].
        -- exists g, grp. split_and!; [left|done|done].
        -- exists g', grp'. split_and!; [by right|done|done].
      * intros [?|(g' & grp' & [->|Hg]%elem_of_cons & Hl & Hr)]; [auto|simplify_eq; auto|].
        right. eauto.
    + split.
      * intros [?|(g' & grp' & ? & ? & ?)]; [by left|right].
        exists g', grp'. split_and!; [by right|done|done].
      * intros [?|(g' & grp' & [->|Hg]%elem_of_cons & Hl & Hr)]; [auto|congruence|].
        right. eauto.
Qed.

Lemma or_roles_spec (l : list Z) b p :
  Z.testbit (foldl (λ acc it, Bitset.or acc
    (match GetRBACRole it mgr with Some role => _perms role | None => 0 end)) b l) p = true
  ↔ Z.testbit b p = true ∨ ∃ r, r ∈ l ∧ role_gives mgr r p.
Proof.
  revert b. induction l as [|r l IH]; intros b; simpl.
  - split; [auto|]. by intros [?|(? & ?%elem_of_nil & _)].
  - rewrite IH. unfold Bitset.or. rewrite Z.lor_spec, orb_true_iff, role_perms_bit.
    setoid_rewrite elem_of_cons. naive_solver.
Qed.

Lemma and_not_roles_spec (l : list Z) b p :
  0 <= p →
  Z.testbit (foldl (λ acc it, Bitset.and_not acc
    (match GetRBACRole it mgr with Some role => _perms role | None => 0 end)) b l) p = true
  ↔ Z.testbit b p = true ∧ ¬ ∃ r, r ∈ l ∧ role_gives mgr r p.
Proof.
  intros Hp. revert b. induction l as [|r l IH]; intros b; simpl.
  - split; [|by intros [? _]]. intros ?. split; [done|]. by intros (? & ?%elem_of_nil & _).
  - rewrite IH. unfold Bitset.and_not.
    rewrite Z.ldiff_spec, andb_true_iff, negb_true_iff, <- not_true_iff_false, role_perms_bit.
    setoid_rewrite elem_of_cons. naive_solver.
Qed.

Lemma calculated_spec d p :
  0 <= p →
  Z.testbit (calculated mgr d) p = true ↔ granted_by mgr d p ∧ ¬ denied_by mgr d p.
Proof.
  intros Hp. unfold calculated. simpl. rewrite and_not_roles_spec by done.
  unfold Bitset.and_not. rewrite Z.ldiff_spec, andb_true_iff, negb_true_iff,
    <- not_true_iff_false, or_roles_spec.
  unfold granted_by, denied_by, has_role.
  setoid_rewrite elem_of_set_iter. setoid_rewrite temp_roles_spec.
  setoid_rewrite elem_of_set_iter. tauto.
Qed.
End Calculated.

(** ** The commands and their specification

    The eight methods that the commands call, and what an account's
    assignments are to the outside: a set of groups, and for roles and
    permissions a map that says which are granted ([true]) and which denied. *)

Inductive rbac_op :=
  | op_AddGroup (groupId : Z) | op_RemoveGroup (groupId : Z)
  | op_GrantRole (roleId : Z) | op_DenyRole (roleId : Z) | op_RevokeRole (roleId : Z)
  | op_GrantPermission (permissionId : Z) | op_DenyPermission (permissionId : Z)
  | op_RevokePermission (permissionId : Z).

Definition run_op (mgr : AccountMgr) (realmId : Z) (o : rbac_op) : raction RBACCommandResult :=
  match o with
  | op_AddGroup g => AddGroup mgr g realmId
  | op_RemoveGroup g => RemoveGroup mgr g realmId
  | op_GrantRole r => GrantRole mgr r realmId
  | op_DenyRole r => DenyRole mgr r realmId
  | op_RevokeRole r => RevokeRole mgr r realmId
  | op_GrantPermission p => GrantPermission mgr p realmId
  | op_DenyPermission p => DenyPermission mgr p realmId
  | op_RevokePermission p => RevokePermission mgr p realmId
  end.

Record assignment := mkAssignment {
  a_groups : gset Z; a_roles : gmap Z bool; a_perms : gmap Z bool }.
#[export] Instance eta_assignment : Eta assignment :=
  λ a, mkAssignment (a_groups a) (a_roles a) (a_perms a).

Definition assign (known : bool) (id : Z) (b : bool) (m : gmap Z bool) :
    RBACCommandResult * gmap Z bool :=
  if negb known then (RBAC_ID_DOES_NOT_EXISTS, m) else
  match m !! id with
  | Some b' => (if Bool.eqb b b' then RBAC_CANT_ADD_ALREADY_ADDED
                else if b then RBAC_IN_DENIED_LIST else RBAC_IN_GRANTED_LIST, m)
  | None => (RBAC_OK, <[id := b]> m)
  end.
Definition unassign (id : Z) (m : gmap Z bool) : RBACCommandResult * gmap Z bool :=
  match m !! id with
  | Some _ => (RBAC_OK, delete id m)
  | None => (RBAC_CANT_REVOKE_NOT_IN_LIST, m)
  end.

Definition spec_op (mgr : AccountMgr) (o : rbac_op) (a : assignment) :
    RBACCommandResult * assignment :=
  let roles r := (r.1, a <| a_roles := r.2 |>) in
  let perms r := (r.1, a <| a_perms := r.2 |>) in
  match o with
  | op_AddGroup g =>
      if negb (bool_decide (is_Some (_groups mgr !! g))) then (RBAC_ID_DOES_NOT_EXISTS, a)
      else if bool_decide (g ∈ a_groups a) then (RBAC_CANT_ADD_ALREADY_ADDED, a)
      else (RBAC_OK, a <| a_groups ::= λ s, {[ g ]} ∪ s |>)
  | op_RemoveGroup g =>
      if bool_decide (g ∈ a_groups a) then (RBAC_OK, a <| a_groups ::= λ s, s ∖ {[ g ]} |>)
      else (RBAC_CANT_REVOKE_NOT_IN_LIST, a)
  | op_GrantRole r => roles (assign (bool_decide (is_Some (_roles mgr !! r))) r true (a_roles a))
  | op_DenyRole r => roles (assign (bool_decide (is_Some (_roles mgr !! r))) r false (a_roles a))
  | op_RevokeRole r => roles (unassign r (a_roles a))
  | op_GrantPermission p =>
      perms (assign (bool_decide (is_Some (_permissions mgr !! p))) p true (a_perms a))
  | op_DenyPermission p =>
      perms (assign (bool_decide (is_Some (_permissions mgr !! p))) p false (a_perms a))
  | op_RevokePermission p => perms (unassign p (a_perms a))
  end.

(** The statement that makes a command permanent. *)
Definition op_stmt (acc realmId : Z) (o : rbac_op) : login_stmt :=
  match o with
  | op_AddGroup g => LOGIN_INS_RBAC_ACCOUNT_GROUP acc g realmId
  | op_RemoveGroup g => LOGIN_DEL_RBAC_ACCOUNT_GROUP acc g realmId
  | op_GrantRole r => LOGIN_INS_RBAC_ACCOUNT_ROLE acc r true realmId
  | op_DenyRole r => LOGIN_INS_RBAC_ACCOUNT_ROLE acc r false realmId
  | op_RevokeRole r => LOGIN_DEL_RBAC_ACCOUNT_ROLE acc r realmId
  | op_GrantPermission p => LOGIN_INS_RBAC_ACCOUNT_PERMISSION acc p true realmId
  | op_DenyPermission p => LOGIN_INS_RBAC_ACCOUNT_PERMISSION acc p false realmId
  | op_RevokePermission p => LOGIN_DEL_RBAC_ACCOUNT_PERMISSION acc p realmId
  end.
Definition op_stmts (acc realmId : Z) (o : rbac_op) (code : RBACCommandResult) :
    list login_stmt :=
  if bool_decide (code = RBAC_OK) && negb (realmId =? 0) then [op_stmt acc realmId o] else [].

(** The data [d] represents the assignment [a]. *)
Record represents (d : RBACData) (a : assignment) : Prop := {
  rep_groups : groups d = a_groups a;
  rep_granted r : r ∈ _grantedRoles d ↔ a_roles a !! r = Some true;
  rep_denied r : r ∈ _deniedRoles d ↔ a_roles a !! r = Some false;
  rep_gperms p : Z.testbit (_grantedPerms d) p = true ↔ a_perms a !! p = Some true;
  rep_dperms p : Z.testbit (_deniedPerms d) p = true ↔ a_perms a !! p = Some false;
  rep_range p : is_Some (a_perms a !! p) → Bitset.in_range p = true }.

(** [_globalPerms] is up to date. *)
Definition coherent (mgr : AccountMgr) (d : RBACData) : Prop :=
  _globalPerms d = calculated mgr d.

Definition perms_in_range (mgr : AccountMgr) : Prop :=
  ∀ p, is_Some (_permissions mgr !! p) → Bitset.in_range p = true.
(** The id with which a command makes [std::bitset::test] throw: one that is no
    bit of the set, given to [RevokePermission], which looks nothing up first, or
    known to the manager and given to one of the other two. *)
Definition throws (mgr : AccountMgr) (o : rbac_op) : option Z :=
  match o with
  | op_GrantPermission p | op_DenyPermission p =>
      if bool_decide (is_Some (_permissions mgr !! p)) && negb (Bitset.in_range p) then Some p else None
  | op_RevokePermission p => if Bitset.in_range p then None else Some p
  | _ => None
  end.

Lemma bitset_set_bit b pos i :
  0 <= pos → Z.testbit (Bitset.set b pos) i = true ↔ i = pos ∨ Z.testbit b i = true.
Proof.
  intros Hp. unfold Bitset.set.
  rewrite Z.lor_spec, Z.shiftl_1_l, Z.pow2_bits_eqb by done.
  rewrite orb_true_iff, Z.eqb_eq. naive_solver.
Qed.

Lemma bitset_reset_bit b pos i :
  0 <= pos → Z.testbit (Bitset.reset b pos) i = true ↔ i ≠ pos ∧ Z.testbit b i = true.
Proof.
  intros Hp. unfold Bitset.reset.
  destruct (decide (i < 0)) as [Hi|Hi].
  { rewrite !Z.testbit_neg_r by lia. naive_solver. }
  rewrite Z.ldiff_spec, Z.shiftl_1_l, Z.pow2_bits_eqb by done.
  rewrite andb_true_iff, negb_true_iff, Z.eqb_neq. naive_solver.
Qed.

Lemma in_range_spec p : Bitset.in_range p = true ↔ 0 <= p < 48.
Proof. unfold Bitset.in_range, RBAC_PERM_MAX. rewrite andb_true_iff. lia. Qed.

Section Refinement.
Context (mgr : AccountMgr).

Lemma run_test f pos d :
  Bitset.in_range pos = true → test f pos d = Done (Z.testbit (f d) pos) d [].
Proof. intros H. unfold test. by rewrite H. Qed.

Definition op_post (realmId : Z) (o : rbac_op) (d : RBACData) (a : assignment)
    (code : RBACCommandResult) (d' : RBACData) (t : list login_stmt) : Prop :=
  code = (spec_op mgr o a).1 ∧ represents d' (spec_op mgr o a).2 ∧
  _id d' = _id d ∧ _realmId d' = _realmId d ∧ _name d' = _name d ∧
  t = op_stmts (_id d) realmId o code ∧
  (coherent mgr d → realmId ≠ 0 → coherent mgr d') ∧ (code ≠ RBAC_OK → d' = d).

Lemma represents_recalc d a : represents d a → represents (recalc mgr d) a.
Proof. by intros []. Qed.

Lemma coherent_recalc d : coherent mgr (recalc mgr d).
Proof. done. Qed.

(** A command that fails, and one that succeeds with the data [d1] before the
    recalculation. *)
Lemma post_error realmId o d a code :
  represents d a → spec_op mgr o a = (code, a) → code ≠ RBAC_OK →
  op_post realmId o d a code d [].
Proof.
  intros Hr E Hc. unfold op_post, op_stmts. rewrite E. split_and!; try done.
  by rewrite bool_decide_false.
Qed.

Lemma post_ok realmId o d d1 a :
  (spec_op mgr o a).1 = RBAC_OK → represents d1 (spec_op mgr o a).2 →
  _id d1 = _id d → _realmId d1 = _realmId d → _name d1 = _name d →
  op_post realmId o d a RBAC_OK (if realmId =? 0 then d1 else recalc mgr d1)
    (if realmId =? 0 then [] else [op_stmt (_id d) realmId o]).
Proof.
  intros E Hr H1 H2 H3. unfold op_post, op_stmts. rewrite E.
  destruct (Z.eqb_spec realmId 0); split_and!; try done.
  by apply represents_recalc.
Qed.

(** Roles and permissions are kept as two disjoint sets of one map. *)
Lemma represents_roles_insert d a r (b : bool) :
  represents d a → a_roles a !! r = None →
  represents (if b then d <| _grantedRoles ::= λ s, {[ r ]} ∪ s |>
              else d <| _deniedRoles ::= λ s, {[ r ]} ∪ s |>)
    (a <| a_roles ::= <[r := b]> |>).
Proof.
  intros [] Hn. destruct b; split; simpl; try done; intros r';
    rewrite ?elem_of_union, ?elem_of_singleton; destruct (decide (r = r')) as [<-|];
    simplify_map_eq; naive_solver congruence.
Qed.

Lemma represents_roles_delete d a r :
  represents d a →
  represents (d <| _grantedRoles ::= λ s, s ∖ {[ r ]} |> <| _deniedRoles ::= λ s, s ∖ {[ r ]} |>)
    (a <| a_roles ::= delete r |>).
Proof.
  intros []. split; simpl; try done; intros r';
    rewrite elem_of_difference, elem_of_singleton; destruct (decide (r = r')) as [<-|];
    simplify_map_eq; naive_solver congruence.
Qed.

Lemma represents_perms_insert d a p (b : bool) :
  represents d a → a_perms a !! p = None → Bitset.in_range p = true →
  represents (if b then d <| _grantedPerms ::= λ s, Bitset.set s p |>
              else d <| _deniedPerms ::= λ s, Bitset.set s p |>)
    (a <| a_perms ::= <[p := b]> |>).
Proof.
  intros [] Hn Hp. pose proof Hp as Hp'%in_range_spec. destruct b; split; simpl; try done;
    intros p'; rewrite ?bitset_set_bit by lia; destruct (decide (p = p')) as [<-|];
    simplify_map_eq; try done; naive_solver congruence.
Qed.

Lemma represents_perms_delete d a p :
  represents d a → Bitset.in_range p = true →
  represents (d <| _grantedPerms ::= λ s, Bitset.reset s p |>
                <| _deniedPerms ::= λ s, Bitset.reset s p |>)
    (a <| a_perms ::= delete p |>).
Proof.
  intros [] Hp. pose proof Hp as Hp'%in_range_spec. split; simpl; try done;
    intros p'; rewrite ?bitset_reset_bit by lia; destruct (decide (p = p')) as [<-|];
    simplify_map_eq; try done; naive_solver congruence.
Qed.

(** A success: the run ends in [d1], recalculated and saved when a realm is
    given, and [d1] represents what the specification says. *)
Lemma ok_case realmId o d d1 a (m : raction RBACCommandResult) :
  m d = Done RBAC_OK (if realmId =? 0 then d1 else recalc mgr d1)
          (if realmId =? 0 then [] else [op_stmt (_id d) realmId o]) →
  (spec_op mgr o a).1 = RBAC_OK → represents d1 (spec_op mgr o a).2 →
  _id d1 = _id d → _realmId d1 = _realmId d → _name d1 = _name d →
  wp m (op_post realmId o d a) d.
Proof. intros Hm. intros. unfold wp. rewrite Hm. by apply post_ok. Qed.
Lemma error_case realmId o d a code (m : raction RBACCommandResult) :
  m d = Done code d [] → represents d a → spec_op mgr o a = (code, a) → code ≠ RBAC_OK →
  wp m (op_post realmId o d a) d.
Proof. intros Hm. intros. unfold wp. rewrite Hm. by apply post_error. Qed.

Lemma role_flag d a r :
  represents d a →
  a_roles a !! r = if bool_decide (r ∈ _grantedRoles d) then Some true
                   else if bool_decide (r ∈ _deniedRoles d) then Some false else None.
Proof.
  intros [_ Hg Hd _ _ _]. specialize (Hg r). specialize (Hd r).
  repeat case_bool_decide; destruct (a_roles a !! r) as [[]|]; naive_solver.
Qed.
Lemma perm_flag d a p :
  represents d a →
  a_perms a !! p = if Z.testbit (_grantedPerms d) p then Some true
                   else if Z.testbit (_deniedPerms d) p then Some false else None.
Proof.
  intros [_ _ _ Hg Hd _]. specialize (Hg p). specialize (Hd p).
  destruct (Z.testbit (_grantedPerms d) p), (Z.testbit (_deniedPerms d) p),
    (a_perms a !! p) as [[]|]; naive_solver.
Qed.

Lemma group_ops realmId o d a g :
  represents d a → o = op_AddGroup g ∨ o = op_RemoveGroup g →
  wp (run_op mgr realmId o) (op_post realmId o d a) d.
Proof.
  intros Hr Ho. pose proof (rep_groups _ _ Hr) as Hg. destruct Hr as [? ? ? ? ? ?].
  destruct Ho as [-> | ->]; simpl.
  - unfold AddGroup, GetRBACGroup. destruct (_groups mgr !! g) as [grp|] eqn:E.
    + destruct (decide (g ∈ groups d)).
      * apply (error_case _ _ _ _ RBAC_CANT_ADD_ALREADY_ADDED); [|done| |done].
        { unfold mbind, act_bind. simpl. by rewrite bool_decide_true. }
        simpl. by rewrite E, bool_decide_true, bool_decide_true by (done || congruence).
      * apply (ok_case _ _ _ (d <| groups ::= λ s, {[ g ]} ∪ s |>)); try done; simpl;
          rewrite ?E, ?bool_decide_true, ?bool_decide_false by (done || congruence); try done.
        { unfold mbind, act_bind. simpl. rewrite bool_decide_false by done.
          by destruct (realmId =? 0). }
        split; simpl; try done. congruence.
    + apply (error_case _ _ _ _ RBAC_ID_DOES_NOT_EXISTS); try done. simpl. by rewrite E.
  - unfold RemoveGroup. destruct (decide (g ∈ groups d)).
    + apply (ok_case _ _ _ (d <| groups ::= λ s, s ∖ {[ g ]} |>)); try done; simpl;
        rewrite ?bool_decide_true by congruence; try done.
      { unfold mbind, act_bind. simpl. rewrite bool_decide_true by done.
        by destruct (realmId =? 0). }
      split; simpl; try done. congruence.
    + apply (error_case _ _ _ _ RBAC_CANT_REVOKE_NOT_IN_LIST); [|done| |done]; simpl.
      * unfold mbind, act_bind. simpl. by rewrite bool_decide_false.
      * by rewrite bool_decide_false by congruence.
Qed.

Local Ltac spec_eval := simpl; unfold assign, unassign; simpl;
  repeat match goal with E : _ = Some _ |- _ => rewrite E | E : _ = None |- _ => rewrite E end;
  rewrite ?bool_decide_true by (by eexists); simpl; try done;
  try (match goal with |- _ = (_, ?a) => by destruct a end).
Local Ltac run_eval := unfold mbind, act_bind; simpl;
  repeat first [rewrite bool_decide_true by assumption | rewrite bool_decide_false by assumption];
  try done.

Lemma role_assign_ops realmId o d a r (b : bool) :
  represents d a → o = (if b then op_GrantRole r else op_DenyRole r) →
  wp (run_op mgr realmId o) (op_post realmId o d a) d.
Proof.
  intros Hr ->. pose proof (role_flag d a r Hr) as Hf.
  pose proof (represents_roles_insert d a r b Hr) as Hi.
  destruct b; simpl; unfold GrantRole, DenyRole, GetRBACRole;
    destruct (_roles mgr !! r) as [role|] eqn:E;
    try (apply (error_case _ _ _ _ RBAC_ID_DOES_NOT_EXISTS); [done|done|by spec_eval|done]).
  - destruct (decide (r ∈ _grantedRoles d)), (decide (r ∈ _deniedRoles d));
      repeat first [rewrite bool_decide_true in Hf by assumption
                   |rewrite bool_decide_false in Hf by assumption].
    + apply (error_case _ _ _ _ RBAC_IN_DENIED_LIST); [by run_eval|done| |done].
      exfalso. pose proof (proj1 (rep_denied _ _ Hr r)). naive_solver.
    + apply (error_case _ _ _ _ RBAC_CANT_ADD_ALREADY_ADDED); [by run_eval|done|by spec_eval|done].
    + apply (error_case _ _ _ _ RBAC_IN_DENIED_LIST); [by run_eval|done|by spec_eval|done].
    + apply (ok_case _ _ _ (d <| _grantedRoles ::= λ s, {[ r ]} ∪ s |>)); try done; spec_eval.
      * run_eval. by destruct (realmId =? 0).
      * by apply Hi.
  - destruct (decide (r ∈ _grantedRoles d)), (decide (r ∈ _deniedRoles d));
      repeat first [rewrite bool_decide_true in Hf by assumption
                   |rewrite bool_decide_false in Hf by assumption].
    + apply (error_case _ _ _ _ RBAC_IN_GRANTED_LIST); [by run_eval|done|by spec_eval|done].
    + apply (error_case _ _ _ _ RBAC_IN_GRANTED_LIST); [by run_eval|done|by spec_eval|done].
    + apply (error_case _ _ _ _ RBAC_CANT_ADD_ALREADY_ADDED); [by run_eval|done|by spec_eval|done].
    + apply (ok_case _ _ _ (d <| _deniedRoles ::= λ s, {[ r ]} ∪ s |>)); try done; spec_eval.
      * run_eval. by destruct (realmId =? 0).
      * by apply Hi.
Qed.

Lemma role_revoke_op realmId o d a r :
  represents d a → o = op_RevokeRole r →
  wp (run_op mgr realmId o) (op_post realmId o d a) d.
Proof.
  intros Hr ->. pose proof (role_flag d a r Hr) as Hf.
  pose proof (represents_roles_delete d a r Hr) as Hd.
  simpl. unfold RevokeRole.
  destruct (bool_decide (r ∈ _grantedRoles d) || bool_decide (r ∈ _deniedRoles d)) eqn:Eb.
  - apply (ok_case _ _ _ (d <| _grantedRoles ::= λ s, s ∖ {[ r ]} |>
                            <| _deniedRoles ::= λ s, s ∖ {[ r ]} |>)); try done;
      (destruct (a_roles a !! r) eqn:E; [|by repeat case_bool_decide]); spec_eval.
    run_eval. rewrite Eb. by destruct (realmId =? 0).
  - apply orb_false_iff in Eb as [E1%bool_decide_eq_false E2%bool_decide_eq_false].
    assert (d <| _grantedRoles ::= λ s, s ∖ {[ r ]} |> <| _deniedRoles ::= λ s, s ∖ {[ r ]} |> = d)
      as Hsame.
    { destruct d; simpl in *. f_equal; apply leibniz_equiv; set_solver. }
    apply (error_case _ _ _ _ RBAC_CANT_REVOKE_NOT_IN_LIST); [|done| |done].
    + run_eval. simpl in Hsame. by rewrite Hsame.
    + repeat case_bool_decide; try done. spec_eval.
Qed.

Lemma perm_assign_ops realmId o d a p (b : bool) :
  (is_Some (_permissions mgr !! p) → Bitset.in_range p = true) → represents d a →
  o = (if b then op_GrantPermission p else op_DenyPermission p) →
  wp (run_op mgr realmId o) (op_post realmId o d a) d.
Proof.
  intros Hrange Hr ->. pose proof (perm_flag d a p Hr) as Hf.
  pose proof (represents_perms_insert d a p b Hr) as Hi.
  destruct b; simpl; unfold GrantPermission, DenyPermission, GetRBACPermission;
    destruct (_permissions mgr !! p) as [perm|] eqn:E;
    try (apply (error_case _ _ _ _ RBAC_ID_DOES_NOT_EXISTS); [done|done|by spec_eval|done]);
    pose proof (Hrange ltac:(by eexists)) as Hp; unfold test; rewrite Hp.
  - destruct (Z.testbit (_deniedPerms d) p) eqn:E2;
      destruct (Z.testbit (_grantedPerms d) p) eqn:E1.
    + exfalso. pose proof (proj1 (rep_dperms _ _ Hr p)). naive_solver.
    + apply (error_case _ _ _ _ RBAC_IN_DENIED_LIST); [|done|by spec_eval|done].
      run_eval. by rewrite E2.
    + apply (error_case _ _ _ _ RBAC_CANT_ADD_ALREADY_ADDED); [|done|by spec_eval|done].
      run_eval. by rewrite E2, E1.
    + apply (ok_case _ _ _ (d <| _grantedPerms ::= λ s, Bitset.set s p |>)); try done; spec_eval.
      * run_eval. rewrite E2, E1. by destruct (realmId =? 0).
      * by apply Hi.
  - destruct (Z.testbit (_grantedPerms d) p) eqn:E1;
      [|destruct (Z.testbit (_deniedPerms d) p) eqn:E2].
    + apply (error_case _ _ _ _ RBAC_IN_GRANTED_LIST); [|done|by spec_eval|done].
      run_eval. by rewrite E1.
    + apply (error_case _ _ _ _ RBAC_CANT_ADD_ALREADY_ADDED); [|done|by spec_eval|done].
      run_eval. by rewrite E1, E2.
    + apply (ok_case _ _ _ (d <| _deniedPerms ::= λ s, Bitset.set s p |>)); try done; spec_eval.
      * run_eval. rewrite E1, E2. by destruct (realmId =? 0).
      * by apply Hi.
Qed.

Lemma perm_revoke_op realmId o d a p :
  represents d a → o = op_RevokePermission p → Bitset.in_range p = true →
  wp (run_op mgr realmId o) (op_post realmId o d a) d.
Proof.
  intros Hr -> Hp. pose proof (perm_flag d a p Hr) as Hf.
  pose proof (represents_perms_delete d a p Hr Hp) as Hd.
  simpl. unfold RevokePermission, test. rewrite Hp.
  destruct (Z.testbit (_grantedPerms d) p || Z.testbit (_deniedPerms d) p) eqn:Eb.
  - apply (ok_case _ _ _ (d <| _grantedPerms ::= λ s, Bitset.reset s p |>
                            <| _deniedPerms ::= λ s, Bitset.reset s p |>)); try done;
      destruct (Z.testbit (_grantedPerms d) p) eqn:E1, (Z.testbit (_deniedPerms d) p) eqn:E2;
      try done; spec_eval; run_eval; rewrite ?E1; simpl; rewrite ?E2; simpl;
      by destruct (realmId =? 0).
  - apply orb_false_iff in Eb as [E1 E2]. rewrite E1, E2 in Hf.
    apply (error_case _ _ _ _ RBAC_CANT_REVOKE_NOT_IN_LIST); [|done|by spec_eval|done].
    run_eval. rewrite E1. simpl. by rewrite E2.
Qed.

Lemma op_refines_aux realmId o d a :
  throws mgr o = None → represents d a →
  wp (run_op mgr realmId o) (op_post realmId o d a) d.
Proof.
  intros Ho Hr.
  assert (∀ p, (if bool_decide (is_Some (_permissions mgr !! p)) && negb (Bitset.in_range p) then Some p else None) = None →
    is_Some (_permissions mgr !! p) → Bitset.in_range p = true) as Hp.
  { intros p Hn Hk. rewrite bool_decide_true in Hn by done. by destruct (Bitset.in_range p). }
  destruct o as [g|g|r|r|r|p|p|p]; cbn [throws] in Ho; try pose proof (Hp _ Ho).
  - by eapply group_ops; [|left].
  - by eapply group_ops; [|right].
  - by apply (role_assign_ops _ _ _ _ r true).
  - by apply (role_assign_ops _ _ _ _ r false).
  - by eapply role_revoke_op.
  - by apply (perm_assign_ops _ _ _ _ p true).
  - by apply (perm_assign_ops _ _ _ _ p false).
  - eapply perm_revoke_op; [done..|]. by destruct (Bitset.in_range p).
Qed.
Lemma op_throws realmId o d p :
  throws mgr o = Some p → run_op mgr realmId o d = Fault (BitsetOutOfRange p) d [].
Proof.
  destruct o as [| | | | |q|q|q]; cbn [throws run_op]; try done.
  - case_bool_decide as Hk; [|done]. destruct (Bitset.in_range q) eqn:E; [done|]. intros [= <-].
    unfold GrantPermission, GetRBACPermission. destruct Hk as [perm ->]. unfold test. rewrite E. done.
  - case_bool_decide as Hk; [|done]. destruct (Bitset.in_range q) eqn:E; [done|]. intros [= <-].
    unfold DenyPermission, GetRBACPermission. destruct Hk as [perm ->]. unfold test. rewrite E. done.
  - destruct (Bitset.in_range q) eqn:E; [done|]. intros [= <-]. unfold RevokePermission, test. by rewrite E.
Qed.
Lemma assign_throws_not p : perms_in_range mgr → throws mgr (op_GrantPermission p) = None ∧ throws mgr (op_DenyPermission p) = None.
Proof.
  intros Hm. cbn [throws]. case_bool_decide as Hk; [|done]. by rewrite (Hm p Hk).
Qed.
End Refinement.

(** ** What the database says of an account

    The row that counts: realms are read in ascending order, so the row for all
    realms (-1) comes before the row of a realm, and the first one wins. *)
Definition effective_row (acc realmId : Z) (m : gmap (Z * Z * Z) bool) (id : Z) : option bool :=
  match m !! (acc, id, Z.min realmId (-1)) with
  | Some b => Some b
  | None => m !! (acc, id, Z.max realmId (-1))
  end.

Record db_view (mgr : AccountMgr) (db : LoginDB) (acc realmId : Z) (a : assignment) : Prop := {
  view_groups g : g ∈ a_groups a ↔ is_Some (_groups mgr !! g) ∧
    (is_Some (effective_row acc realmId (rbac_account_groups db) g) ∨ g ∈ _defaultGroups mgr);
  view_roles r : a_roles a !! r =
    if bool_decide (is_Some (_roles mgr !! r))
    then effective_row acc realmId (rbac_account_roles db) r else None;
  view_perms p : a_perms a !! p =
    if bool_decide (is_Some (_permissions mgr !! p))
    then effective_row acc realmId (rbac_account_permissions db) p else None }.

Definition first_flag (rows : list (Z * bool)) (id : Z) : option bool :=
  head (omap (λ row : Z * bool, if decide (row.1 = id) then Some row.2 else None) rows).

Lemma first_flag_app l1 l2 id :
  first_flag (l1 ++ l2) id =
    match first_flag l1 id with Some b => Some b | None => first_flag l2 id end.
Proof.
  unfold first_flag. rewrite omap_app.
  destruct (omap (λ row : Z * bool, if decide (row.1 = id) then Some row.2 else None) l1); done.
Qed.

Lemma first_flag_is_Some rows id : is_Some (first_flag rows id) ↔ id ∈ rows.*1.
Proof.
  induction rows as [|[i b] rows IH]; [split; [by intros []|by intros ?%elem_of_nil]|].
  change ((i, b) :: rows) with ([(i, b)] ++ rows). rewrite first_flag_app, fmap_app, elem_of_app.
  unfold first_flag at 1. simpl. rewrite list_elem_of_singleton. destruct (decide (i = id)); simpl.
  - split; [by left|]. by eexists.
  - rewrite IH. naive_solver.
Qed.

Lemma set_iter_sorted_eq (X : gset Z) l :
  StronglySorted Z.le l → elements X ≡ₚ l → set_iter X = l.
Proof.
  intros Hl Hp. unfold set_iter. apply (StronglySorted_unique Z.le).
  - apply (StronglySorted_merge_sort Z.le).
  - done.
  - by rewrite merge_sort_Permutation.
Qed.

Lemma set_iter_realms r :
  set_iter {[ r; -1 ]} = if decide (r = -1) then [-1] else [Z.min r (-1); Z.max r (-1)].
Proof.
  destruct (decide (r = -1)) as [->|Hr]; apply set_iter_sorted_eq.
  - repeat constructor.
  - replace ({[-1; -1]} : gset Z) with ({[-1]} : gset Z) by set_solver.
    by rewrite elements_singleton.
  - repeat constructor; lia.
  - rewrite elements_union_singleton, elements_singleton by set_solver.
    destruct (decide (r < -1)).
    + by rewrite Z.min_l, Z.max_r by lia.
    + rewrite Z.min_r, Z.max_l by lia. apply Permutation_swap.
Qed.

Section Rows.
Context (acc realmId : Z) (m : gmap (Z * Z * Z) bool).

Definition rows_of (id : Z) : list (Z * bool) :=
  realm ← set_iter {[ realmId; -1 ]};
  match m !! (acc, id, realm) with Some b => [(id, b)] | None => [] end.

Lemma first_flag_rows_of id id' :
  first_flag (rows_of id) id' = if decide (id = id') then effective_row acc realmId m id else None.
Proof.
  unfold rows_of, effective_row. rewrite set_iter_realms.
  destruct (decide (realmId = -1)) as [->|Hr].
  - rewrite Z.min_id, Z.max_id. destruct (decide (id = id')) as [->|];
      simpl; destruct (m !! _); unfold first_flag; simpl; by try (destruct (decide _)).
  - destruct (decide (id = id')) as [->|]; simpl;
      destruct (m !! (acc, _, Z.min _ _)), (m !! (acc, _, Z.max _ _));
      unfold first_flag; simpl; by repeat destruct (decide _).
Qed.

Lemma first_flag_sql_rows id : first_flag (sql_rows acc realmId m) id = effective_row acc realmId m id.
Proof.
  unfold sql_rows. fold rows_of. change (λ id0 : Z, _) with rows_of.
  assert (∀ l, NoDup l → first_flag (l ≫= rows_of) id =
    if decide (id ∈ l) then effective_row acc realmId m id else None) as Hl.
  { induction 1 as [|i l Hi Hl IH]; [done|]. rewrite bind_cons, first_flag_app, IH.
    rewrite first_flag_rows_of. destruct (decide (i = id)) as [->|Hne].
    - rewrite (decide_False (P := id ∈ l)), (decide_True (P := id ∈ id :: l)) by (done || left).
      by destruct (effective_row _ _ _ _).
    - destruct (decide (id ∈ l)).
      + by rewrite decide_True by by right.
      + by rewrite decide_False by set_solver. }
  rewrite Hl.
  - case_decide as Hd; [done|]. rewrite elem_of_set_iter, elem_of_map in Hd.
    unfold effective_row. assert (∀ r, m !! (acc, id, r) = None) as Hn.
    { intros r. apply not_elem_of_dom. intros Hin. apply Hd. by exists (acc, id, r). }
    by rewrite !Hn.
  - unfold set_iter. rewrite merge_sort_Permutation. apply NoDup_elements.
Qed.

(** The four ways in which a statement changes the row that counts. *)
Lemma effective_insert id (b : bool) :
  effective_row acc realmId m id = None →
  effective_row acc realmId (<[(acc, id, realmId) := b]> m) id = Some b.
Proof.
  unfold effective_row. intros Hn. destruct (decide (realmId < -1)).
  - rewrite Z.min_l by lia. by rewrite lookup_insert_eq.
  - rewrite Z.min_r, Z.max_l in * by lia. destruct (m !! (acc, id, -1)) eqn:E; [done|].
    destruct (decide (realmId = -1)) as [->|]; [by rewrite lookup_insert_eq|].
    rewrite lookup_insert_ne, E by congruence. by rewrite lookup_insert_eq.
Qed.
Lemma effective_insert_ne id id' r (b : bool) :
  id ≠ id' →
  effective_row acc realmId (<[(acc, id, r) := b]> m) id' = effective_row acc realmId m id'.
Proof. intros. unfold effective_row. by rewrite !lookup_insert_ne by congruence. Qed.
Lemma effective_delete id : effective_row acc realmId (sql_delete acc id realmId m) id = None.
Proof.
  unfold effective_row, sql_delete. destruct (decide (realmId < -1)).
  - rewrite Z.min_l, Z.max_r by lia. rewrite lookup_delete_eq.
    destruct (decide (realmId = -1)); [lia|]. rewrite lookup_delete_ne by congruence.
    by rewrite lookup_delete_eq.
  - rewrite Z.min_r, Z.max_l by lia. rewrite lookup_delete_eq.
    destruct (decide (realmId = -1)) as [->|]; [by rewrite lookup_delete_eq|].
    rewrite lookup_delete_ne by congruence. by rewrite lookup_delete_eq.
Qed.
Lemma effective_delete_ne id id' :
  id ≠ id' →
  effective_row acc realmId (sql_delete acc id realmId m) id' = effective_row acc realmId m id'.
Proof.
  intros. unfold effective_row, sql_delete. by rewrite !lookup_delete_ne by congruence.
Qed.
End Rows.

(** ** Loading *)

(** A loop of commands without a realm, as the loader makes them. *)
Definition spec_ops (mgr : AccountMgr) (ops : list rbac_op) (a : assignment) : assignment :=
  foldl (λ a o, (spec_op mgr o a).2) a ops.

Section Loading.
Context (mgr : AccountMgr) (Hrange : perms_in_range mgr).

Definition same_account (d d' : RBACData) : Prop :=
  _id d' = _id d ∧ _name d' = _name d ∧ _realmId d' = _realmId d.

Lemma load_loop {A} (f : A → rbac_op) (g : A → raction unit) (l : list A) d a :
  (∀ x, g x = ignore (run_op mgr 0 (f x))) → (∀ x, throws mgr (f x) = None) → represents d a →
  wp (forM_ l g) (λ _ d' t, t = [] ∧ represents d' (spec_ops mgr (f <$> l) a) ∧
    same_account d d') d.
Proof.
  intros Hg Ho. revert d a. induction l as [|x l IH]; intros d a Hr; simpl; [by apply wp_ret|].
  apply wp_bind. rewrite Hg. unfold ignore. apply wp_bind.
  eapply wp_mono; [by apply op_refines_aux|].
  intros code d1 t1 (_ & Hr1 & H1 & H2 & H3 & -> & _). apply wp_ret.
  eapply wp_mono; [by apply IH|].
  intros _ d2 t2 (-> & Hr2 & E1 & E2 & E3). unfold op_stmts. rewrite andb_false_r.
  split_and!; [done|done|]. unfold same_account. split_and!; congruence.
Qed.

Lemma spec_groups l a :
  let a' := spec_ops mgr (op_AddGroup <$> l) a in
  a_roles a' = a_roles a ∧ a_perms a' = a_perms a ∧
  ∀ g, g ∈ a_groups a' ↔ g ∈ a_groups a ∨ (g ∈ l ∧ is_Some (_groups mgr !! g)).
Proof.
  intros a'; subst a'. revert a. induction l as [|g l IH]; intros a.
  { split_and!; try done. simpl. intros g. rewrite elem_of_nil. naive_solver. }
  change (spec_ops mgr (op_AddGroup <$> g :: l) a)
    with (spec_ops mgr (op_AddGroup <$> l) (spec_op mgr (op_AddGroup g) a).2).
  destruct (IH (spec_op mgr (op_AddGroup g) a).2) as (E1 & E2 & E3).
  rewrite E1, E2. setoid_rewrite E3. setoid_rewrite elem_of_cons. simpl.
  repeat case_bool_decide; simpl; split_and!; try done; intros g';
    rewrite ?elem_of_union, ?elem_of_singleton; naive_solver.
Qed.

(** Assigning the rows in order leaves the first flag of each id. *)
Lemma assign_rows (known : Z → bool) (rows : list (Z * bool)) (m : gmap Z bool) (id : Z) :
  foldl (λ m row, (assign (known row.1) row.1 row.2 m).2) m rows !! id =
    match m !! id with
    | Some b => Some b
    | None => if known id then first_flag rows id else None
    end.
Proof.
  revert m. induction rows as [|[i b] rows IH]; intros m; simpl.
  { destruct (m !! id); [done|]. by destruct (known id). }
  rewrite IH. change ((i, b) :: rows) with ([(i, b)] ++ rows). rewrite first_flag_app.
  unfold assign, first_flag at 2. simpl. destruct (decide (i = id)) as [->|Hne]; simpl.
  - destruct (known id); simpl; [|done]. destruct (m !! id) eqn:E; simpl; rewrite ?E; [done|].
    by rewrite lookup_insert_eq.
  - destruct (known i); simpl; [|done]. destruct (m !! i) eqn:E; simpl; [done|].
    by rewrite lookup_insert_ne.
Qed.

Definition role_row (row : Z * bool) : rbac_op :=
  if row.2 then op_GrantRole row.1 else op_DenyRole row.1.
Definition perm_row (row : Z * bool) : rbac_op :=
  if row.2 then op_GrantPermission row.1 else op_DenyPermission row.1.

Lemma spec_roles rows a :
  spec_ops mgr (role_row <$> rows) a = a <| a_roles :=
    foldl (λ m row, (assign (bool_decide (is_Some (_roles mgr !! row.1))) row.1 row.2 m).2)
      (a_roles a) rows |>.
Proof.
  revert a. induction rows as [|[i b] rows IH]; intros a; simpl; [by destruct a|].
  unfold spec_ops in *. simpl. rewrite IH. by destruct b.
Qed.
Lemma spec_perms rows a :
  spec_ops mgr (perm_row <$> rows) a = a <| a_perms :=
    foldl (λ m row, (assign (bool_decide (is_Some (_permissions mgr !! row.1))) row.1 row.2 m).2)
      (a_perms a) rows |>.
Proof.
  revert a. induction rows as [|[i b] rows IH]; intros a; simpl; [by destruct a|].
  unfold spec_ops in *. simpl. rewrite IH. by destruct b.
Qed.

Lemma represents_new id name realmId :
  represents (new_RBACData id name realmId) (mkAssignment ∅ ∅ ∅).
Proof.
  split; simpl; try done; intros x; rewrite ?lookup_empty, ?Z.bits_0; set_solver.
Qed.

Lemma load_spec db acc name realmId a :
  db_view mgr db acc realmId a →
  wp (LoadFromDB mgr db) (λ _ d' t, t = [] ∧ represents d' a ∧ coherent mgr d' ∧
    same_account (new_RBACData acc name realmId) d') (new_RBACData acc name realmId).
Proof.
  intros [Vg Vr Vp]. unfold LoadFromDB.
  apply wp_bind, wp_get. simpl.
  apply wp_bind. eapply wp_mono;
    [by apply (load_loop op_AddGroup), represents_new|].
  intros _ d1 t1 (-> & Hr1 & E1). apply wp_bind. eapply wp_mono;
    [by apply (load_loop role_row); [intros [? []]|intros [? []]|apply Hr1]|].
  intros _ d2 t2 (-> & Hr2 & E2). apply wp_bind. eapply wp_mono;
    [by apply (load_loop perm_row); [intros [? []]|intros [? []]; by apply assign_throws_not|apply Hr2]|].
  intros _ d3 t3 (-> & Hr3 & E3). apply wp_bind. eapply wp_mono;
    [by apply (load_loop op_AddGroup); [| |apply Hr3]|].
  intros _ d4 t4 (-> & Hr4 & E4). unfold wp. rewrite CalculateNewPermissions_run.
  unfold same_account in *. split_and!; [done| |apply coherent_recalc|simpl in *; intuition congruence..].
  apply represents_recalc. clear -Hr4 Vg Vr Vp.
  match type of Hr4 with represents _ ?a4 => assert (a4 = a) as <-; [|done] end.
  rewrite spec_perms, spec_roles.
  match goal with |- spec_ops _ _ ?b = _ => destruct (spec_groups (set_iter (_defaultGroups mgr)) b)
    as (E1 & E2 & E3) end.
  match goal with |- ?b = _ => destruct b as [g1 r1 p1] end. destruct a as [ga ra pa]. simpl in *.
  match type of E3 with context [spec_ops mgr _ ?b] =>
    destruct (spec_groups (LOGIN_SEL_RBAC_ACCOUNT_GROUPS acc realmId db) b) as (F1 & F2 & F3) end.
  simpl in *. subst r1 p1. f_equal.
  - apply leibniz_equiv. intros g. rewrite E3, F3, Vg, elem_of_set_iter.
    unfold LOGIN_SEL_RBAC_ACCOUNT_GROUPS. rewrite elem_of_remove_dups, <- first_flag_is_Some,
      first_flag_sql_rows. set_solver.
  - apply map_eq. intros r.
    etransitivity; [exact (assign_rows (λ r, bool_decide (is_Some (_roles mgr !! r))) _ _ _)|].
    rewrite F1, lookup_empty, Vr. unfold LOGIN_SEL_RBAC_ACCOUNT_ROLES. by rewrite first_flag_sql_rows.
  - apply map_eq. intros p.
    etransitivity; [exact (assign_rows (λ p, bool_decide (is_Some (_permissions mgr !! p))) _ _ _)|].
    rewrite F2, lookup_empty, Vp. unfold LOGIN_SEL_RBAC_ACCOUNT_PERMISSIONS.
    by rewrite first_flag_sql_rows.
Qed.
End Loading.

(** ** Persistence *)

Section Persistence.
Context (mgr : AccountMgr).

(** What the rows say while the account is in memory: as [db_view], but a group
    that is there only by default may have been removed. *)
Record rows_view (db : LoginDB) (acc realmId : Z) (a : assignment) : Prop := {
  rv_groups g : g ∈ a_groups a → is_Some (_groups mgr !! g) ∧
    (is_Some (effective_row acc realmId (rbac_account_groups db) g) ∨ g ∈ _defaultGroups mgr);
  rv_rows g : is_Some (_groups mgr !! g) → is_Some (effective_row acc realmId (rbac_account_groups db) g) →
    g ∈ a_groups a;
  rv_roles r : a_roles a !! r =
    if bool_decide (is_Some (_roles mgr !! r))
    then effective_row acc realmId (rbac_account_roles db) r else None;
  rv_perms p : a_perms a !! p =
    if bool_decide (is_Some (_permissions mgr !! p))
    then effective_row acc realmId (rbac_account_permissions db) p else None }.

(** The default groups that exist: every load adds them. *)
Definition default_groups : gset Z := filter (λ g, is_Some (_groups mgr !! g)) (_defaultGroups mgr).
Definition with_defaults (a : assignment) : assignment := a <| a_groups ::= λ s, s ∪ default_groups |>.

Lemma db_view_rows db acc realmId a : db_view mgr db acc realmId a → rows_view db acc realmId a.
Proof. intros [Vg Vr Vp]. split; [intros g; by apply Vg| |done|done]. intros g Hk He. apply Vg. auto. Qed.
Lemma rows_db_view db acc realmId a : rows_view db acc realmId a → db_view mgr db acc realmId (with_defaults a).
Proof.
  intros [V1 V2 Vr Vp]. split; [|done|done]. intros g. unfold with_defaults, default_groups. cbn.
  rewrite elem_of_union, elem_of_filter. split; [|naive_solver].
  intros [Hg|[Hk Hg]]; [by apply V1|auto].
Qed.

Lemma view_assign (known : Z → bool) (acc realmId : Z) (t : gmap (Z * Z * Z) bool) (m : gmap Z bool) (id : Z) (b : bool) :
  (∀ i, m !! i = if known i then effective_row acc realmId t i else None) →
  (assign (known id) id b m).1 = RBAC_OK →
  ∀ i, (assign (known id) id b m).2 !! i =
    if known i then effective_row acc realmId (<[(acc, id, realmId) := b]> t) i else None.
Proof.
  intros Hm Hok i. unfold assign in *. pose proof (Hm id) as Hid.
  destruct (known id) eqn:Hk; [|done]. simpl in *.
  destruct (m !! id) eqn:E; [by repeat case_match|]. simpl.
  destruct (decide (id = i)) as [<-|Hne].
  - by rewrite lookup_insert_eq, Hk, effective_insert.
  - by rewrite lookup_insert_ne, effective_insert_ne by done.
Qed.

Lemma view_unassign (known : Z → bool) (acc realmId : Z) (t : gmap (Z * Z * Z) bool) (m : gmap Z bool) (id : Z) :
  (∀ i, m !! i = if known i then effective_row acc realmId t i else None) →
  (unassign id m).1 = RBAC_OK →
  ∀ i, (unassign id m).2 !! i =
    if known i then effective_row acc realmId (sql_delete acc id realmId t) i else None.
Proof.
  intros Hm Hok i. unfold unassign in *. destruct (m !! id) eqn:E; [|done]. simpl.
  destruct (decide (id = i)) as [<-|Hne].
  - rewrite lookup_delete_eq, effective_delete. by destruct (known id).
  - by rewrite lookup_delete_ne, effective_delete_ne by done.
Qed.

Lemma view_add_group db acc realmId a g :
  rows_view db acc realmId a → is_Some (_groups mgr !! g) → g ∉ a_groups a →
  rows_view (db <| rbac_account_groups ::= sql_insert (acc, g, realmId) true |>) acc realmId
    (a <| a_groups ::= λ s, {[ g ]} ∪ s |>).
Proof.
  intros [V1 V2 Vr Vp] Hk Hn.
  assert (effective_row acc realmId (rbac_account_groups db) g = None) as He.
  { apply eq_None_not_Some. intros He. by apply Hn, V2. }
  assert (sql_insert (acc, g, realmId) true (rbac_account_groups db) =
          <[(acc, g, realmId) := true]> (rbac_account_groups db)) as Hins.
  { unfold sql_insert. unfold effective_row in He.
    destruct (rbac_account_groups db !! (acc, g, realmId)) eqn:E; [|done]. exfalso.
    destruct (decide (realmId < -1)).
    - rewrite Z.min_l in He by lia. by rewrite E in He.
    - rewrite Z.min_r, Z.max_l in He by lia.
      destruct (rbac_account_groups db !! (acc, g, -1)); [done|congruence]. }
  split; cbn -[sql_insert effective_row]; rewrite ?Hins; try done; intros g'; rewrite elem_of_union, elem_of_singleton;
    (destruct (decide (g = g')) as [<-|Hne]; [rewrite effective_insert by done|rewrite effective_insert_ne by done]).
  - intros _. split; [done|left; by eexists].
  - intros [->|Hg]; [done|by apply V1].
  - by left.
  - intros. right. by apply V2.
Qed.

Lemma view_remove_group db acc realmId a g :
  rows_view db acc realmId a →
  rows_view (db <| rbac_account_groups ::= sql_delete acc g realmId |>) acc realmId
    (a <| a_groups ::= λ s, s ∖ {[ g ]} |>).
Proof.
  intros [V1 V2 Vr Vp]. split; cbn -[sql_delete effective_row]; try done; intros g';
    rewrite elem_of_difference, elem_of_singleton;
    (destruct (decide (g = g')) as [<-|Hne]; [rewrite effective_delete|rewrite effective_delete_ne by done]).
  - naive_solver.
  - intros [? _]. by apply V1.
  - by intros _ [].
  - intros. split; [by apply V2|done].
Qed.

Local Notation known_role :=
  (λ r : Z, @bool_decide (is_Some (_roles mgr !! r)) (is_Some_dec (_roles mgr !! r))).
Local Notation known_perm :=
  (λ p : Z, @bool_decide (is_Some (_permissions mgr !! p)) (is_Some_dec (_permissions mgr !! p))).

Lemma view_step o db acc realmId a :
  rows_view db acc realmId a → (spec_op mgr o a).1 = RBAC_OK →
  rows_view (exec_stmt (op_stmt acc realmId o) db) acc realmId (spec_op mgr o a).2.
Proof.
  intros V Hok. pose proof V as [Vg Vg' Vr Vp].
  destruct o as [g|g|r|r|r|p|p|p]; simpl in *.
  - repeat case_bool_decide; simpl in *; try done. by apply view_add_group.
  - case_bool_decide; simpl in *; [|done]. by apply view_remove_group.
  - split; simpl; [done|done| |done]. by apply (view_assign known_role).
  - split; simpl; [done|done| |done]. by apply (view_assign known_role).
  - split; simpl; [done|done| |done]. by apply (view_unassign known_role).
  - split; simpl; [done|done|done|].
    by apply (view_assign known_perm).
  - split; simpl; [done|done|done|].
    by apply (view_assign known_perm).
  - split; simpl; [done|done|done|].
    by apply (view_unassign known_perm).
Qed.

Lemma spec_op_error o a : (spec_op mgr o a).1 ≠ RBAC_OK → (spec_op mgr o a).2 = a.
Proof.
  destruct a as [g r p]; destruct o; simpl; unfold assign, unassign; intros;
    repeat case_match; simpl in *; congruence.
Qed.

Definition run_ops (realmId : Z) (ops : list rbac_op) : raction unit :=
  forM_ ops (λ o, ignore (run_op mgr realmId o)).

Lemma run_ops_spec ops realmId d a db :
  Forall (λ o, throws mgr o = None) ops → realmId ≠ 0 →
  _realmId d = realmId → represents d a → coherent mgr d → rows_view db (_id d) realmId a →
  wp (run_ops realmId ops) (λ _ d' t, represents d' (spec_ops mgr ops a) ∧ coherent mgr d' ∧
    same_account d d' ∧ rows_view (exec_stmts t db) (_id d) realmId (spec_ops mgr ops a)) d.
Proof.
  intros Hops Hreal. revert d a db. unfold run_ops.
  induction Hops as [|o ops Ho Hops IH]; intros d a db Hd Hr Hc Hv; simpl.
  { by apply wp_ret. }
  apply wp_bind. unfold ignore at 1. apply wp_bind.
  eapply wp_mono; [by apply op_refines_aux|].
  intros code d1 t1 (-> & Hr1 & E1 & E2 & E3 & -> & Hc1 & _). apply wp_ret.
  set (t1 := op_stmts (_id d) realmId o _).
  assert (rows_view (exec_stmts t1 db) (_id d1) realmId (spec_op mgr o a).2) as Hv1.
  { rewrite E1. subst t1. unfold op_stmts. rewrite (proj2 (Z.eqb_neq _ _) Hreal), andb_true_r.
    case_bool_decide as Hok; simpl; [by apply view_step|]. by rewrite spec_op_error. }
  eapply wp_mono; [apply (IH d1 (spec_op mgr o a).2 (exec_stmts t1 db)); [congruence|done|auto|done]|].
  intros _ d2 t2 (Hr2 & Hc2 & (F1 & F2 & F3) & Hv2).
  split_and!; [done|done|unfold same_account; split_and!; congruence|].
  rewrite app_nil_r. unfold exec_stmts. rewrite foldl_app, <- E1. exact Hv2.
Qed.

Lemma represents_unique d1 d2 a :
  represents d1 a → represents d2 a → coherent mgr d1 → coherent mgr d2 →
  same_account d1 d2 → d1 = d2.
Proof.
  intros [G1 R1 D1 P1 N1 _] [G2 R2 D2 P2 N2 _] C1 C2 (E1 & E2 & E3).
  assert (_grantedPerms d1 = _grantedPerms d2) as Hp.
  { apply Z.bits_inj'. intros n _. apply eq_true_iff_eq. by rewrite P1, P2. }
  assert (_deniedPerms d1 = _deniedPerms d2) as Hq.
  { apply Z.bits_inj'. intros n _. apply eq_true_iff_eq. by rewrite N1, N2. }
  assert (_grantedRoles d1 = _grantedRoles d2) as Hg
    by (apply leibniz_equiv; intros r; by rewrite R1, R2).
  assert (_deniedRoles d1 = _deniedRoles d2) as Hd
    by (apply leibniz_equiv; intros r; by rewrite D1, D2).
  assert (calculated mgr d1 = calculated mgr d2) as Hcalc
    by (unfold calculated; simpl; by rewrite G1, G2, Hp, Hq, Hg, Hd).
  unfold coherent in *. destruct d1, d2. simpl in *. congruence.
Qed.
End Persistence.

(** ** Properties *)

(** C6: [CalculateNewPermissions] computes granted minus denied: the stored
    permissions are exactly those granted (directly, by a role, or by a role of
    a group) and not denied (directly or by a role) — a denial always wins —
    and nothing else of the account changes. *)
Theorem calculate_new_permissions mgr d :
  wp (CalculateNewPermissions mgr) (λ _ d' t, t = [] ∧
    (∀ p, 0 <= p → Z.testbit (_globalPerms d') p = true ↔
      granted_by mgr d p ∧ ¬ denied_by mgr d p) ∧
    d' = d <| _globalPerms := _globalPerms d' |>) d.
Proof.
  unfold wp. rewrite CalculateNewPermissions_run. split_and!; [done| |done].
  intros p Hp. by apply calculated_spec.
Qed.

(** C5: Each of the eight commands, with whatever id, refines the specification on
    assignments: it returns the specified code, the data then represents the
    specified assignment, exactly one statement is sent (when it succeeds for a
    realm), the calculated permissions stay up to date, and a command that fails
    changes and sends nothing.  The exception are permission ids that are no bit
    of the set of 48: to revoke any such id, or to grant or deny one that the
    manager knows, throws [std::out_of_range], with nothing changed or sent. *)
Theorem rbac_command_refines mgr realmId o d a :
  represents d a →
  match throws mgr o with
  | None => wp (run_op mgr realmId o) (op_post mgr realmId o d a) d
  | Some p => run_op mgr realmId o d = Fault (BitsetOutOfRange p) d []
  end.
Proof.
  intros Hr. destruct (throws mgr o) eqn:E; [by apply op_throws|by apply op_refines_aux].
Qed.

(** C8: Reloading an account from the database gives back the data in memory and
    the default groups: after any sequence of commands for the realm of the
    account (a realm that is not 0, known permissions below [RBAC_PERM_MAX], no
    command that throws), on data that agreed with the database, a fresh
    [LoadFromDB] on the database changed by the statements sent ends in the same
    roles and permissions, the same groups and besides the default groups that
    exist, which are added at every load, and the permissions calculated from
    these; so in exactly the data in memory unless a default group has been
    removed, which does not last. *)
Theorem rbac_persistent mgr db ops realmId d a :
  perms_in_range mgr → Forall (λ o, throws mgr o = None) ops → realmId ≠ 0 →
  _realmId d = realmId → represents d a → coherent mgr d → db_view mgr db (_id d) realmId a →
  wp (run_ops mgr realmId ops) (λ _ d' t, ∃ d'',
    LoadFromDB mgr (exec_stmts t db) (new_RBACData (_id d) (_name d) realmId) = Done tt d'' [] ∧
    d'' = recalc mgr (d' <| groups ::= λ s, s ∪ default_groups mgr |>) ∧
    (default_groups mgr ⊆ groups d' → d'' = d')) d.
Proof.
  intros Hm Hops Hr Hd Hrep Hc Hv.
  eapply wp_mono; [by apply run_ops_spec, db_view_rows|].
  intros _ d' t (Hrep' & Hc' & (E1 & E2 & E3) & Hv').
  pose proof (load_spec mgr Hm _ (_id d) (_name d) realmId _ (rows_db_view mgr _ _ _ _ Hv')) as Hl. unfold wp in Hl.
  destruct (LoadFromDB _ _ _) as [[] d1 t1|]; [|done].
  destruct Hl as (-> & Hrep1 & Hc1 & (F1 & F2 & F3)). exists d1. split; [done|].
  assert (d1 = recalc mgr (d' <| groups ::= λ s, s ∪ default_groups mgr |>)) as ->.
  { eapply represents_unique; [exact Hrep1| |done|apply coherent_recalc|].
    - apply represents_recalc. destruct Hrep'. split; cbn; [by f_equal|done..].
    - unfold same_account. simpl in *. split_and!; congruence. }
  split; [done|]. intros Hsub.
  assert (d' <| groups ::= λ s, s ∪ default_groups mgr |> = d') as ->.
  { destruct d'. unfold setf. cbn in *. f_equal. set_solver. }
  unfold coherent in Hc'. unfold recalc. destruct d'. cbn in *. by rewrite <- Hc'.
Qed.

(** C7: [LoadFromDB] gives an account what the database says: the rows of its
    realm and of all realms, those for all realms first (so that a flag for all
    realms wins over the flag of the realm), limited to known ids, and the
    default groups. It never stops at a fault when the known permissions are
    below [RBAC_PERM_MAX]. *)
Theorem rbac_load mgr db acc name realmId a :
  perms_in_range mgr → db_view mgr db acc realmId a →
  wp (LoadFromDB mgr db) (λ _ d t, t = [] ∧ represents d a ∧ coherent mgr d ∧
    same_account (new_RBACData acc name realmId) d) (new_RBACData acc name realmId).
Proof. intros Hm Hv. by apply load_spec. Qed.

(** [RevokePermission] does not bound its argument: an id that is no bit of
    the set throws [std::out_of_range] instead of reporting that the account
    does not have the permission; nothing has been changed by then. *)
Theorem revoke_unknown_permission mgr realmId p d :
  0 <= p < 2 ^ 32 →
  RevokePermission mgr p realmId d = Fault (BitsetOutOfRange p) d [] ↔ RBAC_PERM_MAX <= p.
Proof.
  intros Hp. unfold RevokePermission, test. destruct (Bitset.in_range p) eqn:E.
  - apply in_range_spec in E. split; [|unfold RBAC_PERM_MAX; lia].
    unfold mbind, act_bind. simpl. destruct (Z.testbit (_grantedPerms d) p); simpl;
      destruct (Z.testbit (_deniedPerms d) p); simpl; by destruct (realmId =? 0).
  - split; [|done]. intros _. unfold RBAC_PERM_MAX.
    destruct (Z.le_gt_cases 48 p); [done|].
    assert (Bitset.in_range p = true) by (apply in_range_spec; lia). congruence.
Qed.

(** A manager with two permissions, two roles and one group, for the
    witnesses. *)
Definition mgr0 : AccountMgr :=
  mkAccountMgr {[ 3 := mkRBACPermission 3 "join"; 47 := mkRBACPermission 47 "check" ]}
    {[ 1 := mkRBACRole 1 "player" 8; 2 := mkRBACRole 2 "mute" (Z.shiftl 1 47) ]}
    {[ 10 := mkRBACGroup 10 "players" {[ 1 ]} ]} {[ 0 := {[ 10 ]} ]} {[ 10 ]}.
Definition db0 : LoginDB :=
  mkLoginDB ∅ {[ (7, 2, 1) := true; (7, 2, -1) := false ]} {[ (7, 47, 1) := true ]} ∅.
Definition assignment0 : assignment :=
  mkAssignment {[ 10 ]} {[ 2 := false ]} {[ 47 := true ]}.

Lemma mgr0_range : perms_in_range mgr0.
Proof.
  intros p. simpl. destruct (decide (p = 3)) as [->|]; [done|].
  destruct (decide (p = 47)) as [->|]; [done|].
  rewrite lookup_insert_ne, lookup_singleton_ne by congruence. by intros [].
Qed.

Lemma db0_view : db_view mgr0 db0 7 1 assignment0.
Proof.
  split; simpl.
  - intros g. unfold effective_row. rewrite !lookup_empty.
    destruct (decide (g = 10)) as [->|]; simplify_map_eq; [|by split; [set_solver|intros [[] _]]].
    split; [intros _|set_solver]. split; [by eexists|right; set_solver].
  - intros r. unfold effective_row. simpl.
    destruct (decide (r = 2)) as [->|]; [by vm_compute|].
    assert (∀ x, rbac_account_roles db0 !! (7, r, x) = None) as Hn
      by (intros x; simpl; rewrite lookup_insert_ne, lookup_singleton_ne by congruence; done).
    simpl in Hn. rewrite !Hn, lookup_singleton_ne by congruence. by case_bool_decide.
  - intros p. unfold effective_row. simpl.
    destruct (decide (p = 47)) as [->|]; [by vm_compute|].
    assert (∀ x, rbac_account_permissions db0 !! (7, p, x) = None) as Hn
      by (intros x; simpl; rewrite lookup_singleton_ne by congruence; done).
    simpl in Hn. rewrite !Hn, lookup_singleton_ne by congruence. by case_bool_decide.
Qed.

(** Account 7, loaded from [db0] for realm 1. *)
Definition account7 : RBACData := rstate (LoadFromDB mgr0 db0 (new_RBACData 7 "seven" 1)).

Lemma account7_spec :
  represents account7 assignment0 ∧ coherent mgr0 account7 ∧
  same_account (new_RBACData 7 "seven" 1) account7.
Proof.
  pose proof (load_spec mgr0 mgr0_range db0 7 "seven" 1 _ db0_view) as H.
  unfold wp, account7 in *. destruct (LoadFromDB _ _ _); [|done]. apply H.
Qed.

Lemma rbac_command_refines_witness :
  wp (run_op mgr0 1 (op_GrantRole 1)) (λ code _ t,
    code = RBAC_OK ∧ t = [LOGIN_INS_RBAC_ACCOUNT_ROLE 7 1 true 1]) account7.
Proof.
  eapply wp_mono; [apply (rbac_command_refines mgr0 1 (op_GrantRole 1) account7 assignment0);
    apply account7_spec|].
  intros code d' t (-> & _ & _ & _ & _ & -> & _). split; vm_compute; reflexivity.
Defined.

(** The default group 10 is removed, and is back when the account is loaded. *)
Lemma rbac_persistent_witness :
  wp (run_ops mgr0 1 [op_RevokeRole 2; op_GrantRole 1; op_RemoveGroup 10; op_DenyPermission 3; op_GrantRole 9])
    (λ _ d' t, groups d' = ∅ ∧
      ∃ d'', LoadFromDB mgr0 (exec_stmts t db0) (new_RBACData 7 "seven" 1) = Done tt d'' [] ∧ groups d'' = {[ 10 ]})
    account7.
Proof.
  set (ops := [op_RevokeRole 2; op_GrantRole 1; op_RemoveGroup 10; op_DenyPermission 3; op_GrantRole 9]).
  pose proof (rbac_persistent mgr0 db0 ops 1 account7 assignment0 mgr0_range ltac:(repeat constructor) ltac:(lia)
    ltac:(apply account7_spec) ltac:(apply account7_spec) ltac:(apply account7_spec) db0_view) as Hw.
  assert (match run_ops mgr0 1 ops account7 with Done _ d' _ => groups d' | Fault _ _ _ => {[ 0 ]} end = ∅) as Hg
    by (vm_compute; reflexivity).
  revert Hw Hg. unfold wp. destruct (run_ops mgr0 1 ops account7) as [[] d' t|]; [|intros []].
  intros (d'' & Hl & Hd & _) Hg. split; [exact Hg|]. exists d''. split; [exact Hl|].
  rewrite Hd. unfold recalc. cbn [groups setf eta eta_RBACData]. rewrite Hg. vm_compute. reflexivity.
Defined.

Lemma rbac_load_witness :
  wp (LoadFromDB mgr0 db0) (λ _ d _, represents d assignment0) (new_RBACData 7 "seven" 1).
Proof.
  eapply wp_mono; [apply (rbac_load mgr0 db0 7 "seven" 1 assignment0 mgr0_range db0_view)|].
  intros _ d t (_ & H & _). exact H.
Defined.

Lemma revoke_unknown_permission_witness :
  RevokePermission mgr0 48 1 account7 = Fault (BitsetOutOfRange 48) account7 [].
Proof. apply revoke_unknown_permission; unfold RBAC_PERM_MAX; lia. Defined.

(** ** Loading the definitions *)

Record tables_ok (q : RbacTables) : Prop := {
  ok_permissions : rbac_permissions q ≠ [];
  ok_roles : rbac_roles q ≠ [];
  ok_role_permissions : rbac_role_permissions q ≠ [];
  ok_groups : rbac_groups q ≠ [];
  ok_group_roles : rbac_group_roles q ≠ [];
  ok_security : rbac_security_level_groups q ≠ [];
  (* the foreign keys *)
  ok_fk_roles row : row ∈ rbac_role_permissions q → row.1 ∈ (rbac_roles q).*1 ∧ 0 <= row.2;
  ok_fk_groups row : row ∈ rbac_group_roles q → row.1 ∈ (rbac_groups q).*1;
  (* no security level 255 *)
  ok_levels row : row ∈ rbac_security_level_groups q → u8 row.1 ≠ 255 }.

Lemma forM_modify {S E A} (f : A → S → S) (l : list A) (s : S) :
  forM_ (E := E) l (λ x, modify (f x)) s = Done tt (foldl (λ s x, f x s) s l) [].
Proof.
  revert s. induction l as [|x l IH]; intros s; [done|]. simpl. unfold mbind, act_bind. simpl.
  by rewrite IH.
Qed.

Section LoadDefinitions.
Definition insert_rows {V} (mk : Z → string → V) (rows : list (Z * string)) (m : gmap Z V) :=
  foldl (λ m row, <[row.1 := mk row.1 row.2]> m) m rows.

Lemma insert_rows_spec {V} (mk : Z → string → V) rows m id v :
  insert_rows mk rows m !! id = Some v →
  m !! id = Some v ∨ (id ∈ rows.*1 ∧ ∃ name, v = mk id name).
Proof.
  revert m. induction rows as [|[i n] rows IH]; intros m; simpl; [by left|].
  intros [H|[H1 H2]]%IH; [|right; split; [by right|done]].
  destruct (decide (i = id)) as [->|]; simplify_map_eq; [|by left].
  right. split; [left|by exists n].
Qed.
Lemma insert_rows_is_Some {V} (mk : Z → string → V) rows m id :
  is_Some (insert_rows mk rows m !! id) ↔ id ∈ rows.*1 ∨ is_Some (m !! id).
Proof.
  revert m. induction rows as [|[i n] rows IH]; intros m; simpl.
  { rewrite elem_of_nil. naive_solver. }
  rewrite IH, elem_of_cons. destruct (decide (i = id)) as [->|]; simplify_map_eq; naive_solver.
Qed.

Lemma role_permissions_loop rows m :
  (∀ row, row ∈ rows → is_Some (_roles m !! row.1) ∧ 0 <= row.2) →
  wp (E := login_stmt) (forM_ rows LoadRBAC_role_permission) (λ _ m' t, ∃ R,
    m' = m <| _roles := R |> ∧ ∀ r, match R !! r, _roles m !! r with
      | Some role', Some role => ∀ p, Z.testbit (_perms role') p = true ↔
          Z.testbit (_perms role) p = true ∨ ((r, p) ∈ rows ∧ p < RBAC_PERM_MAX)
      | None, None => True
      | _, _ => False
      end) m.
Proof.
  revert m. induction rows as [|[r0 p0] rows IH]; intros m Hrows; simpl.
  { apply wp_ret. exists (_roles m). split; [by destruct m|]. intros r.
    destruct (_roles m !! r); [|done]. intros p. rewrite elem_of_nil. naive_solver. }
  destruct (Hrows (r0, p0)) as [[role0 Hr0] Hp0]; [left|]. simpl in *.
  unfold LoadRBAC_role_permission at 1. apply wp_bind, wp_bind, wp_get, wp_bind. simpl.
  rewrite Hr0. apply wp_ret, wp_modify. eapply wp_mono; [apply IH|].
  { intros row Hrow. simpl. destruct (Hrows row) as [H1 H2]; [by right|]. split; [|done].
    rewrite lookup_insert_is_Some. destruct (decide (r0 = row.1)); auto. }
  intros _ m' t (R & -> & HR). exists R. split; [done|]. intros r. specialize (HR r). simpl in HR.
  destruct (decide (r0 = r)) as [<-|Hne].
  - rewrite lookup_insert_eq in HR. rewrite Hr0. destruct (R !! r0) as [role'|]; [|done].
    intros p. rewrite HR, elem_of_cons. unfold Role.GrantPermission.
    destruct (Z.ltb_spec p0 RBAC_PERM_MAX); simpl; [rewrite bitset_set_bit by done|];
      naive_solver lia.
  - rewrite lookup_insert_ne in HR by done. destruct (R !! r), (_roles m !! r); try done.
    intros p. rewrite HR, elem_of_cons. naive_solver.
Qed.

Lemma group_roles_loop rows m :
  (∀ row, row ∈ rows → is_Some (_groups m !! row.1)) →
  wp (E := login_stmt) (forM_ rows LoadRBAC_group_role) (λ _ m' t, ∃ G,
    m' = m <| _groups := G |> ∧ ∀ g, match G !! g, _groups m !! g with
      | Some group', Some group => ∀ r, r ∈ group_roles group' ↔
          r ∈ group_roles group ∨ (g, r) ∈ rows
      | None, None => True
      | _, _ => False
      end) m.
Proof.
  revert m. induction rows as [|[g0 r0] rows IH]; intros m Hrows; simpl.
  { apply wp_ret. exists (_groups m). split; [by destruct m|]. intros r.
    destruct (_groups m !! r); [|done]. intros p. rewrite elem_of_nil. naive_solver. }
  destruct (Hrows (g0, r0)) as [group0 Hg0]; [left|]. simpl in *.
  unfold LoadRBAC_group_role at 1. apply wp_bind, wp_bind, wp_get, wp_bind. simpl.
  rewrite Hg0. apply wp_ret, wp_modify. eapply wp_mono; [apply IH|].
  { intros row Hrow. simpl. rewrite lookup_insert_is_Some.
    destruct (decide (g0 = row.1)); auto. right. split; [done|]. apply Hrows. by right. }
  intros _ m' t (G & -> & HG). exists G. split; [done|]. intros g. specialize (HG g). simpl in HG.
  destruct (decide (g0 = g)) as [<-|Hne].
  - rewrite lookup_insert_eq in HG. rewrite Hg0. destruct (G !! g0) as [group'|]; [|done].
    intros r. rewrite HG, elem_of_cons. simpl. rewrite elem_of_union, elem_of_singleton.
    naive_solver.
  - rewrite lookup_insert_ne in HG by done. destruct (G !! g), (_groups m !! g); try done.
    intros x. rewrite HG, elem_of_cons. naive_solver.
Qed.

Lemma sec_groups_loop cur rows m :
  (∀ row, row ∈ rows → u8 row.1 ≠ 255) →
  wp (E := login_stmt) (LoadRBAC_sec_groups cur rows) (λ _ m' t, ∃ D,
    m' = m <| _defaultSecGroups := D |> ∧ ∀ l g, g ∈ default ∅ (D !! l) ↔
      g ∈ default ∅ (_defaultSecGroups m !! l) ∨ ∃ sec, (sec, g) ∈ rows ∧ u8 sec = l) m.
Proof.
  revert cur m. induction rows as [|[sec0 g0] rows IH]; intros cur m Hrows; cbn [LoadRBAC_sec_groups].
  { apply wp_ret. exists (_defaultSecGroups m). split; [by destruct m|]. intros l g.
    setoid_rewrite elem_of_nil. naive_solver. }
  specialize (Hrows (sec0, g0) ltac:(left)) as H0. simpl in H0.
  rewrite (proj2 (Z.eqb_neq 255 (u8 sec0))) by congruence. cbn [negb when].
  apply wp_bind, wp_modify, wp_bind, wp_ret, wp_bind, wp_modify.
  eapply wp_mono; [apply IH; intros; apply Hrows; by right|].
  intros _ m' t (D & -> & HD). exists D. split; [done|]. intros l g. rewrite HD. clear HD. simpl.
  setoid_rewrite elem_of_cons. destruct (decide (u8 sec0 = l)) as [<-|Hne].
  - rewrite lookup_alter_eq, lookup_map_index. simpl. rewrite elem_of_union, elem_of_singleton.
    naive_solver.
  - rewrite lookup_alter_ne, lookup_map_index_ne by done. naive_solver.
Qed.

Lemma default_groups_loop conf m :
  wp (E := login_stmt) (LoadRBAC_default_groups conf) (λ _ m' t, ∃ X,
    m' = m <| _defaultGroups := X |> ∧ ∀ g, g ∈ X ↔ g ∈ _defaultGroups m ∨
      (g ≠ 0 ∧ ∃ tok, tok ∈ default [] (Tokenizer conf ","%char) ∧ g = u32 (atoi tok))) m.
Proof.
  unfold LoadRBAC_default_groups. revert m. generalize (default [] (Tokenizer conf ","%char)) as l.
  induction l as [|tok l IH]; intros m; cbn [forM_].
  { apply wp_ret. exists (_defaultGroups m). split; [by destruct m|]. intros g.
    setoid_rewrite elem_of_nil. naive_solver. }
  apply wp_bind, wp_when; intros Hb; [apply wp_modify|];
    (eapply wp_mono; [apply IH|]); intros _ m' t (X & -> & HX); exists X; (split; [done|]);
    intros g; rewrite HX; simpl; setoid_rewrite elem_of_cons;
    rewrite ?negb_true_iff, ?negb_false_iff, ?Z.eqb_neq, ?Z.eqb_eq in Hb;
    rewrite ?elem_of_union, ?elem_of_singleton; naive_solver.
Qed.
End LoadDefinitions.

(** What the loaded definitions must be. *)
Record definitions_of (q : RbacTables) (m : AccountMgr) : Prop := {
  def_permissions p : is_Some (_permissions m !! p) ↔ p ∈ (rbac_permissions q).*1;
  def_roles r : is_Some (_roles m !! r) ↔ r ∈ (rbac_roles q).*1;
  def_role_permissions r role p : _roles m !! r = Some role →
    Z.testbit (_perms role) p = true ↔ (r, p) ∈ rbac_role_permissions q ∧ p < RBAC_PERM_MAX;
  def_groups g : is_Some (_groups m !! g) ↔ g ∈ (rbac_groups q).*1;
  def_group_roles g group r : _groups m !! g = Some group →
    r ∈ group_roles group ↔ (g, r) ∈ rbac_group_roles q;
  def_security l g : g ∈ default ∅ (_defaultSecGroups m !! l) ↔
    ∃ sec, (sec, g) ∈ rbac_security_level_groups q ∧ u8 sec = l;
  def_default g : g ∈ _defaultGroups m ↔ g ≠ 0 ∧
    ∃ tok, tok ∈ default [] (Tokenizer (conf_RBAC_DefaultGroups q) ","%char) ∧
           g = u32 (atoi tok) }.

Lemma unless_empty_cons {A} (rows : list A) k : rows ≠ [] → unless_empty rows k = k.
Proof. by destruct rows. Qed.

(** [LoadRBAC] on tables that respect their foreign keys, none of them
    empty, always finishes and loads exactly what they say, whatever the
    manager held before: the known ids, the permissions of each role (those
    below [RBAC_PERM_MAX]), the roles of each group, the groups of each security
    level, and the default groups of the configuration. *)
Theorem load_rbac q m :
  tables_ok q → wp (LoadRBAC q) (λ _ m' t, definitions_of q m') m.
Proof.
  intros []. unfold LoadRBAC. apply wp_bind. unfold ClearRBAC. apply wp_put.
  rewrite !unless_empty_cons by done.
  apply wp_bind. unfold wp at 1. rewrite forM_modify. simpl.
  apply wp_bind. unfold wp at 1. rewrite forM_modify. simpl.
  match goal with |- wp _ _ ?m0 => assert (∃ P R, m0 = mkAccountMgr P R ∅ ∅ ∅ ∧
    P = insert_rows mkRBACPermission (rbac_permissions q) ∅ ∧
    R = insert_rows (λ i n, mkRBACRole i n 0) (rbac_roles q) ∅) as (P & R & -> & HP & HR) end.
  { eexists _, _. split_and!; [|done|done]. unfold insert_rows.
    clear. generalize (∅ : gmap Z RBACPermission) as P, (∅ : gmap Z RBACRole) as R.
    induction (rbac_permissions q) as [|row rows IH]; intros P R; simpl; [|apply IH].
    revert R. induction (rbac_roles q) as [|row' rows' IH']; intros R; simpl; [done|apply IH']. }
  apply wp_bind. eapply wp_mono; [apply role_permissions_loop|].
  { intros row Hrow. destruct (ok_fk_roles0 row Hrow). split; [|done]. simpl.
    rewrite HR, insert_rows_is_Some. by left. }
  intros _ m1 t1 (R1 & -> & HR1). simpl in HR1.
  apply wp_bind. unfold wp at 1. rewrite forM_modify. simpl.
  match goal with |- wp _ _ ?m0 => assert (∃ G, m0 = mkAccountMgr P R1 G ∅ ∅ ∧
    G = insert_rows (λ i n, mkRBACGroup i n ∅) (rbac_groups q) ∅) as (G & -> & HG) end.
  { eexists. split; [|done]. unfold insert_rows. simpl.
    clear. generalize (∅ : gmap Z RBACGroup) as G.
    induction (rbac_groups q) as [|row rows IH]; intros G; simpl; [done|apply IH]. }
  apply wp_bind. eapply wp_mono; [apply group_roles_loop|].
  { intros row Hrow. simpl. rewrite HG, insert_rows_is_Some. left. by apply ok_fk_groups0. }
  intros _ m2 t2 (G1 & -> & HG1). simpl in HG1.
  apply wp_bind. eapply wp_mono; [by apply sec_groups_loop|].
  intros _ m3 t3 (D & -> & HD). simpl in HD.
  eapply wp_mono; [apply default_groups_loop|]. intros _ m4 t4 (X & -> & HX). simpl in HX.
  split; simpl.
  - intros p. rewrite HP, insert_rows_is_Some, lookup_empty.
    split; [intros [?|[]]; done|by left].
  - intros r. specialize (HR1 r). trans (is_Some (R !! r)).
    + destruct (R1 !! r), (R !! r); try done; split; intros; by eexists.
    + rewrite HR, insert_rows_is_Some, lookup_empty. split; [intros [?|[]]; done|by left].
  - intros r role p Hr. specialize (HR1 r). rewrite Hr in HR1.
    destruct (R !! r) as [role0|] eqn:E; [|done]. rewrite HR1. rewrite HR in E.
    apply insert_rows_spec in E as [E|[_ [name ->]]]; [by rewrite lookup_empty in E|]. simpl.
    rewrite Z.bits_0. naive_solver.
  - intros g. specialize (HG1 g). trans (is_Some (G !! g)).
    + destruct (G1 !! g), (G !! g); try done; split; intros; by eexists.
    + rewrite HG, insert_rows_is_Some, lookup_empty. split; [intros [?|[]]; done|by left].
  - intros g group r Hg. specialize (HG1 g). rewrite Hg in HG1.
    destruct (G !! g) as [group0|] eqn:E; [|done]. rewrite HG1. rewrite HG in E.
    apply insert_rows_spec in E as [E|[_ [name ->]]]; [by rewrite lookup_empty in E|]. simpl.
    set_solver.
  - intros l g. rewrite HD, lookup_empty. simpl. set_solver.
  - intros g. rewrite HX. set_solver.
Qed.

Definition tables0 : RbacTables :=
  mkRbacTables [(3, "join"); (47, "check")] [(1, "player"); (2, "mute")]
    [(1, 3); (2, 47); (2, 99)] [(10, "players")] [(10, 1)] [(0, 10); (256, 11)] "10,x,10" 1.

Lemma tables0_ok : tables_ok tables0.
Proof.
  split; simpl; try done; intros row Hrow;
    repeat (apply elem_of_cons in Hrow as [->|Hrow]; [vm_compute; set_solver|]); set_solver.
Qed.

Lemma load_rbac_witness :
  wp (LoadRBAC tables0) (λ _ m _, definitions_of tables0 m) mgr0.
Proof. apply (load_rbac tables0 mgr0 tables0_ok). Defined.

(** The pointer [groups] is only set when the level differs from 255, the
    initial value of [lastSecId], which is never updated: a table that starts
    with level 255 makes the loader use a null pointer. *)
Example load_rbac_level_255 :
  match LoadRBAC (mkRbacTables [(3, "join")] [(1, "player")] [(1, 3)] [(10, "players")] [(10, 1)]
    [(255, 10)] "" 1) mgr0 with Fault NullDeref _ _ => true | _ => false end = true.
Proof. vm_compute. reflexivity. Qed.

(** ** Changing the security level of an account *)

Definition no_access (st : login_stmt) : Prop :=
  match st with
  | LOGIN_DEL_ACCOUNT_ACCESS _ | LOGIN_DEL_ACCOUNT_ACCESS_BY_REALM _ _
  | LOGIN_INS_ACCOUNT_ACCESS _ _ _ => False
  | _ => True
  end.

Lemma no_access_exec t db :
  Forall no_access t → account_access (exec_stmts t db) = account_access db.
Proof.
  intros Ht. revert db. induction Ht as [|st t Hst Ht IH]; intros db; [done|].
  unfold exec_stmts in *. simpl. rewrite IH. by destruct st.
Qed.

Section UpdateAccess.
(** The manager may gain empty default sets; what it defines stays. *)
Definition same_definitions (m m' : AccountMgr) : Prop :=
  _groups m' = _groups m ∧ _roles m' = _roles m ∧ _permissions m' = _permissions m ∧
  ∀ l, default ∅ (_defaultSecGroups m' !! l) = default ∅ (_defaultSecGroups m !! l).

Lemma same_definitions_refl m : same_definitions m m.
Proof. done. Qed.
Lemma same_definitions_trans m1 m2 m3 :
  same_definitions m1 m2 → same_definitions m2 m3 → same_definitions m1 m3.
Proof. unfold same_definitions. intuition congruence. Qed.

Lemma defaultSecGroups_at_spec l s :
  wp (defaultSecGroups_at l) (λ X s' t, t = [] ∧ s'.2 = s.2 ∧ same_definitions s.1 s'.1 ∧
    X = default ∅ (_defaultSecGroups s.1 !! l)) s.
Proof.
  unfold defaultSecGroups_at. apply wp_bind, wp_modify, wp_gets. split_and!; try done.
  - split_and!; try done. intros l'. simpl. destruct (decide (l = l')) as [->|].
    + by rewrite lookup_map_index.
    + by rewrite lookup_map_index_ne.
  - simpl. by rewrite lookup_map_index.
Qed.

(** Adding and removing a group never fails and leaves the access rows. *)
Lemma add_group_spec mgr g realmId d :
  wp (ignore (AddGroup mgr g realmId)) (λ _ d' t, Forall no_access t ∧
    ∀ x, x ∈ groups d' ↔ x ∈ groups d ∨ (x = g ∧ is_Some (_groups mgr !! g))) d.
Proof.
  unfold ignore, AddGroup, GetRBACGroup, wp, mbind, act_bind.
  destruct (_groups mgr !! g) as [grp|]; simpl.
  - case_bool_decide; simpl; [|destruct (realmId =? 0); simpl]; (split; [by repeat constructor|]);
      intros x; rewrite ?elem_of_union, ?elem_of_singleton; split; try naive_solver;
      intros [?|[? _]]; subst; auto.
  - split; [done|]. intros x. split; [by left|]. by intros [?|[_ []]].
Qed.
Lemma remove_group_spec mgr g realmId d :
  wp (ignore (RemoveGroup mgr g realmId)) (λ _ d' t, Forall no_access t ∧
    ∀ x, x ∈ groups d' ↔ x ∈ groups d ∧ x ≠ g) d.
Proof.
  unfold ignore, RemoveGroup, wp, mbind, act_bind. simpl.
  case_bool_decide; simpl; [destruct (realmId =? 0); simpl|]; (split; [by repeat constructor|]);
    intros x; rewrite ?elem_of_difference, ?elem_of_singleton; try done.
  split; [|by intros []]. intros Hx. split; [done|]. by intros ->.
Qed.

Definition only_groups (f : Z → gset Z → Prop) (s s' : AccountMgr * RBACData)
    (t : list login_stmt) : Prop :=
  Forall no_access t ∧ same_definitions s.1 s'.1 ∧ ∀ x, x ∈ groups s'.2 ↔ f x (groups s.2).

Lemma wp_on_rbac {A} (m : AccountMgr → raction A) Q s :
  wp (m s.1) (λ a d t, Q a (s.1, d) t) s.2 → wp (on_rbac m) Q s.
Proof. unfold wp, on_rbac. by destruct (m s.1 s.2). Qed.

Lemma add_groups_loop l realmId s :
  wp (forM_ l (λ it, on_rbac (λ mgr, ignore (AddGroup mgr it realmId)))) (λ _ s' t,
    only_groups (λ x G, x ∈ G ∨ (x ∈ l ∧ is_Some (_groups s.1 !! x))) s s' t) s.
Proof.
  revert s. induction l as [|g l IH]; intros s; simpl.
  { apply wp_ret. split_and!; try done. intros x. rewrite elem_of_nil. naive_solver. }
  apply wp_bind, wp_on_rbac. eapply wp_mono; [apply add_group_spec|].
  intros _ d1 t1 (Ht1 & H1). eapply wp_mono; [apply IH|].
  intros _ s2 t2 (Ht2 & Hm2 & H2). split_and!; [by apply Forall_app|done|].
  intros x. rewrite H2. simpl. rewrite H1, elem_of_cons. naive_solver.
Qed.
Lemma remove_groups_loop l realmId s :
  wp (forM_ l (λ it, on_rbac (λ mgr, ignore (RemoveGroup mgr it realmId)))) (λ _ s' t,
    only_groups (λ x G, x ∈ G ∧ x ∉ l) s s' t) s.
Proof.
  revert s. induction l as [|g l IH]; intros s; simpl.
  { apply wp_ret. split_and!; try done. intros x. rewrite elem_of_nil. naive_solver. }
  apply wp_bind, wp_on_rbac. eapply wp_mono; [apply remove_group_spec|].
  intros _ d1 t1 (Ht1 & H1). eapply wp_mono; [apply IH|].
  intros _ s2 t2 (Ht2 & Hm2 & H2). split_and!; [by apply Forall_app|done|].
  intros x. rewrite H2. simpl. rewrite H1, elem_of_cons. naive_solver.
Qed.

Lemma old_levels_loop (rows : list (Z * Z)) s :
  wp (forM_ rows (λ row,
    groupsToRemove ← defaultSecGroups_at (u8 row.1);
    forM_ (set_iter groupsToRemove) (λ it,
      on_rbac (λ mgr, ignore (RemoveGroup mgr it row.2))))) (λ _ s' t,
    only_groups (λ x G, x ∈ G ∧ ∀ row, row ∈ rows →
      x ∉ default ∅ (_defaultSecGroups s.1 !! u8 row.1)) s s' t) s.
Proof.
  revert s. induction rows as [|row rows IH]; intros s; cbn [forM_].
  { apply wp_ret. split_and!; try done. intros x. setoid_rewrite elem_of_nil. naive_solver. }
  apply wp_bind, wp_bind. eapply wp_mono; [apply defaultSecGroups_at_spec|].
  intros X s1 t1 (-> & E1 & Hm1 & ->). eapply wp_mono; [apply remove_groups_loop|].
  intros _ s2 t2 (Ht2 & Hm2 & H2). eapply wp_mono; [apply IH|].
  intros _ s3 t3 (Ht3 & Hm3 & H3). split_and!.
  - by apply Forall_app.
  - eauto using same_definitions_trans.
  - intros x. rewrite H3, H2, E1, elem_of_set_iter. setoid_rewrite elem_of_cons.
    destruct Hm2 as (_ & _ & _ & Hd2), Hm1 as (_ & _ & _ & Hd1).
    setoid_rewrite Hd2. setoid_rewrite Hd1. naive_solver.
Qed.
End UpdateAccess.

(** [UpdateAccountAccess] on a loaded account replaces its access level:
    once its statements are executed the account has exactly one row for the
    realm, with the new level (none when the level is 0), and no row for all
    realms (or, when the level is for all realms, no other row at all); other
    accounts are untouched. The groups of the old levels are removed and those
    of the new level that exist are added. *)
Theorem update_account_access RealmID db acc level realmId mgr d :
  let rows := LOGIN_SEL_ACCOUNT_ACCESS_BY_ID acc (if realmId =? -1 then RealmID else realmId) db in
  let old x := ∃ row, row ∈ rows ∧ x ∈ default ∅ (_defaultSecGroups mgr !! u8 row.1) in
  let new x := x ∈ default ∅ (_defaultSecGroups mgr !! level) ∧ is_Some (_groups mgr !! x) in
  wp (UpdateAccountAccess RealmID db true acc level realmId) (λ _ s' t,
    (∀ a r, account_access (exec_stmts t db) !! (a, r) =
      if decide (a = acc) then
        if decide (r = realmId) then (if level =? 0 then None else Some level)
        else if decide (r = -1 ∨ realmId = -1) then None else account_access db !! (a, r)
      else account_access db !! (a, r)) ∧
    ∀ x, x ∈ groups s'.2 ↔ (x ∈ groups d ∧ ¬ old x) ∨ new x) (mgr, d).
Proof.
  intros rows old new. unfold UpdateAccountAccess. cbn [negb when].
  apply wp_bind, wp_ret, wp_bind. replace (if negb (realmId =? -1) then realmId else RealmID)
    with (if realmId =? -1 then RealmID else realmId) by by destruct (realmId =? -1).
  eapply wp_mono; [apply old_levels_loop|]. fold rows. intros _ s1 t1 (Ht1 & Hm1 & H1).
  apply wp_bind. eapply wp_mono; [apply defaultSecGroups_at_spec|].
  intros X s2 t2 (-> & E2 & Hm2 & ->). apply wp_bind. eapply wp_mono; [apply add_groups_loop|].
  intros _ s3 t3 (Ht3 & Hm3 & H3). simpl in *.
  set (del := if realmId =? -1 then LOGIN_DEL_ACCOUNT_ACCESS acc
              else LOGIN_DEL_ACCOUNT_ACCESS_BY_REALM acc realmId).
  replace (if realmId =? -1 then emit (LOGIN_DEL_ACCOUNT_ACCESS acc)
    else emit (LOGIN_DEL_ACCOUNT_ACCESS_BY_REALM acc realmId))
    with (emit (S := AccountMgr * RBACData) del) by (unfold del; by destruct (realmId =? -1)).
  apply wp_bind, wp_emit.
  assert (∀ x, x ∈ groups s3.2 ↔ (x ∈ groups d ∧ ¬ old x) ∨ new x) as Hg.
  { intros x. rewrite H3, E2, H1, elem_of_set_iter. unfold old, new.
    destruct Hm1 as (G1 & _ & _ & D1), Hm2 as (G2 & _ & _ & D2). rewrite G2, G1, D1. naive_solver. }
  assert (∀ m a r, account_access (exec_stmt del m) !! (a, r) =
    if decide (a = acc ∧ (r = realmId ∨ r = -1 ∨ realmId = -1)) then None
    else account_access m !! (a, r)) as Hdel.
  { intros m a r. unfold del. destruct (Z.eqb_spec realmId (-1)) as [->|Hr]; simpl.
    - rewrite map_lookup_filter. case_decide as Hd; destruct (account_access m !! (a, r)); simpl; try done.
      + destruct Hd as [-> _]. by case_guard.
      + case_guard; [done|]. simpl in *. tauto.
    - destruct (decide (a = acc)) as [->|Hne].
      + destruct (decide (r = realmId)) as [->|]; [|destruct (decide (r = -1)) as [->|]].
        * rewrite lookup_delete_eq. by rewrite decide_True by auto.
        * rewrite lookup_delete_ne, lookup_delete_eq by congruence. by rewrite decide_True by auto.
        * rewrite !lookup_delete_ne by congruence. by rewrite decide_False by tauto.
      + rewrite !lookup_delete_ne by congruence. by rewrite decide_False by tauto. }
  assert (∀ t4, account_access (exec_stmts (t1 ++ t3 ++ del :: t4) db) =
    account_access (exec_stmts t4 (exec_stmt del (exec_stmts (t1 ++ t3) db)))) as Hrun.
  { intros t4. unfold exec_stmts. by rewrite !foldl_app. }
  assert (account_access (exec_stmts (t1 ++ t3) db) = account_access db) as Hbase
    by (apply no_access_exec; by apply Forall_app).
  apply wp_when; [intros Hl%negb_true_iff|intros Hl%negb_false_iff]; [apply wp_emit|];
    (split; [|exact Hg]); intros a r; simpl; rewrite Hrun, Hl; simpl.
  - unfold sql_insert. rewrite !Hdel, Hbase. rewrite decide_True by auto.
    destruct (decide (a = acc)) as [->|Hne].
    + destruct (decide (r = realmId)) as [->|]; [by rewrite lookup_insert_eq|].
      rewrite lookup_insert_ne, Hdel, Hbase by congruence. repeat case_decide; tauto.
    + rewrite lookup_insert_ne, Hdel, Hbase by congruence. by rewrite decide_False by tauto.
  - rewrite Hdel, Hbase. repeat case_decide; tauto.
Qed.

(** A session answers from its cached copy: the first question loads it and
    answers from the assignment that the database holds then; later questions
    give the same answer whatever the database has become, until the copy is
    invalidated. *)
Theorem session_cache mgr db acc realm name p a :
  perms_in_range mgr → db_view mgr db acc realm a → Bitset.in_range p = true →
  wp (session_HasPermission mgr db acc realm name p) (λ b s _, ∃ d,
    s = Some d ∧ represents d a ∧ (b = true ↔ granted_by mgr d p ∧ ¬ denied_by mgr d p) ∧
    (∀ db', session_HasPermission mgr db' acc realm name p s = Done b s []) ∧
    session_InvalidateRBACData s = Done tt None []) None.
Proof.
  intros Hm Hv Hp. pose proof (load_spec mgr Hm db acc name realm a Hv) as Hl.
  unfold wp, session_HasPermission, session_LoadPermissions, mbind, act_bind in *. simpl.
  destruct (LoadFromDB mgr db (new_RBACData acc name realm)) as [[] d t|]; [|done].
  destruct Hl as (-> & Hr & Hc & _). simpl. rewrite Hp. simpl. exists d. split_and!; try done.
  rewrite Hc. apply calculated_spec. apply in_range_spec in Hp. lia.
Qed.

Lemma session_cache_witness :
  wp (session_HasPermission mgr0 db0 7 1 "seven" 3) (λ b s _, b = true) None.
Proof.
  eapply wp_mono; [apply (session_cache mgr0 db0 7 1 "seven" 3 assignment0);
    [exact mgr0_range|exact db0_view|reflexivity]|].
  intros b s t (d & Hs & Hr & Hb & _). apply Hb. split.
  - right. exists 1. split.
    + right. exists 10, (mkRBACGroup 10 "players" {[ 1 ]}). rewrite (rep_groups _ _ Hr).
      split_and!; [set_solver|vm_compute; reflexivity|set_solver].
    + exists (mkRBACRole 1 "player" 8). split; vm_compute; reflexivity.
  - intros [H|(r & H & role & Hrole & Hbit)].
    + apply (rep_dperms _ _ Hr) in H. vm_compute in H. discriminate.
    + apply (rep_denied _ _ Hr) in H. simpl in H.
      apply lookup_singleton_Some in H as [<- _]. vm_compute in Hrole. injection Hrole as <-.
      vm_compute in Hbit. discriminate.
Defined.
