(* ===== verification/Reputation.v ===== *)
(** Reputation of a player with the factions:
    src/server/game/Reputation/ReputationMgr.cpp and ReputationMgr.h, with the
    faction records of DBCStructure.h and the team lists of DBCStores.cpp.  The
    faction store, the spillover templates, the reputation rate, the script hook
    and the player the manager belongs to are an environment. *)

From S2P Require Import Prelude ByteBuffer.
From Stdlib Require Import SpecFloat.

(** ** Floats

    [float] is IEEE binary32: [spec_float] with a 24-bit mantissa and the
    exponent bound 128, the operations rounding to nearest even. *)

Definition f32_of_Z (z : Z) : spec_float := binary_normalize 24 128 z 0 false.
Definition f32_mul : spec_float → spec_float → spec_float := SFmul 24 128.
Definition f32_add : spec_float → spec_float → spec_float := SFadd 24 128.
Definition f32_half : spec_float := binary_normalize 24 128 1 (-1) false.
Definition f32_zero : spec_float := S754_zero false.
Definition f32_one : spec_float := f32_of_Z 1.

(** [floor(x)] and the truncation of a conversion, as integers. *)
Definition f32_floor (x : spec_float) : option Z :=
  match x with
  | S754_zero _ => Some 0
  | S754_finite s m e => Some (Z.shiftl (if s then Z.neg m else Z.pos m) e)
  | _ => None
  end.
Definition f32_trunc (x : spec_float) : option Z :=
  match x with
  | S754_zero _ => Some 0
  | S754_finite s m e =>
      let a := Z.shiftl (Z.pos m) e in Some (if s then - a else a)
  | _ => None
  end.

(** ** Data *)

Definition FACTION_FLAG_VISIBLE : Z := 0x01.
Definition FACTION_FLAG_AT_WAR : Z := 0x02.
Definition FACTION_FLAG_HIDDEN : Z := 0x04.
Definition FACTION_FLAG_INVISIBLE_FORCED : Z := 0x08.
Definition FACTION_FLAG_PEACE_FORCED : Z := 0x10.
Definition FACTION_FLAG_INACTIVE : Z := 0x20.
Definition FACTION_FLAG_SPECIAL : Z := 0x80.

Definition REP_HATED : Z := 0.
Definition REP_HOSTILE : Z := 1.
Definition REP_NEUTRAL : Z := 3.
Definition REP_HONORED : Z := 5.
Definition REP_REVERED : Z := 6.
Definition REP_EXALTED : Z := 7.
Definition MIN_REPUTATION_RANK : Z := REP_HATED.
Definition MAX_REPUTATION_RANK : Z := 8.

Record FactionEntry := mkFactionEntry {
  fe_ID : Z;
  reputationListID : Z;
  BaseRepRaceMask : list Z;
  BaseRepClassMask : list Z;
  BaseRepValue : list Z;
  ReputationFlags : list Z;
  team : Z;
  spilloverRateIn : spec_float;
  spilloverRateOut : spec_float;
  spilloverMaxRankIn : Z }.

Definition CanHaveReputation (f : FactionEntry) : bool := 0 <=? reputationListID f.

Record FactionState := mkFactionState {
  ID : Z; ReputationListID : Z; Standing : Z; Flags : Z; needSend : bool; needSave : bool }.
#[export] Instance eta_FactionState : Eta FactionState :=
  λ r, mkFactionState (ID r) (ReputationListID r) (Standing r) (Flags r) (needSend r) (needSave r).

Record ReputationMgr := mkReputationMgr {
  _factions : gmap Z FactionState;
  _forcedReactions : gmap Z Z;
  _visibleFactionCount : Z; _honoredFactionCount : Z;
  _reveredFactionCount : Z; _exaltedFactionCount : Z;
  _sendFactionIncreased : bool }.
#[export] Instance eta_ReputationMgr : Eta ReputationMgr :=
  λ r, mkReputationMgr (_factions r) (_forcedReactions r) (_visibleFactionCount r)
    (_honoredFactionCount r) (_reveredFactionCount r) (_exaltedFactionCount r)
    (_sendFactionIncreased r).

(** One of the spillover templates: faction, rate and rank, four of each. *)
Record RepSpilloverTemplate := mkRepSpilloverTemplate {
  spill_faction : list Z; faction_rate : list spec_float; faction_rank : list Z }.

(** What the manager uses from outside: the faction store (its rows and their
    number), the templates, the configured rate, the script hook that may
    change a standing, the player (race and class masks, guid, whether the
    session is still loading), and what the processor makes of a float that
    does not fit an int32. *)
Class RepEnv := {
  sFactionStore : gmap Z FactionEntry;
  sFactionStore_rows : Z;
  sRepSpillover : gmap Z RepSpilloverTemplate;
  RATE_REPUTATION_GAIN : spec_float;
  OnPlayerReputationChange : Z → Z → bool → Z;
  getRaceMask : Z;
  getClassMask : Z;
  GetGUIDLow : Z;
  PlayerLoading : bool;
  float_out_of_range : spec_float → Z }.

Inductive rep_event :=
  | SendDirectMessage (p : WorldPacket)
  | ReputationChanged (faction : Z)
  | UpdateAchievementCriteria (criteria faction : Z)
  | CHAR_DEL_CHAR_REPUTATION_BY_FACTION (guid faction : Z)
  | CHAR_INS_CHAR_REPUTATION_BY_FACTION (guid faction standing flags : Z).
Notation repact := (act ReputationMgr rep_event).

Definition SMSG_INITIALIZE_FACTIONS : Z := 0x122.
Definition SMSG_SET_FACTION_VISIBLE : Z := 0x123.
Definition SMSG_SET_FACTION_STANDING : Z := 0x124.
Definition SMSG_SET_FORCED_REACTIONS : Z := 0x2A5.
Definition ACHIEVEMENT_CRITERIA_TYPE_KNOWN_FACTIONS : Z := 89.
Definition ACHIEVEMENT_CRITERIA_TYPE_GAIN_REPUTATION : Z := 46.
Definition ACHIEVEMENT_CRITERIA_TYPE_GAIN_EXALTED_REPUTATION : Z := 47.
Definition ACHIEVEMENT_CRITERIA_TYPE_GAIN_REVERED_REPUTATION : Z := 87.
Definition ACHIEVEMENT_CRITERIA_TYPE_GAIN_HONORED_REPUTATION : Z := 88.

(** ** Ranks *)

Definition PointsInRank : list Z := [36000; 3000; 3000; 3000; 6000; 12000; 21000; 1000].
Definition Reputation_Cap : Z := 42999.
Definition Reputation_Bottom : Z := -42000.

(** The loop of [ReputationToRank], from rank [i] downwards. *)
Fixpoint ReputationToRank_loop (i : nat) (limit standing : Z) : Z :=
  match i with
  | O => MIN_REPUTATION_RANK
  | S i' =>
      let limit := limit - nth i' PointsInRank 0 in
      if standing >=? limit then Z.of_nat i' else ReputationToRank_loop i' limit standing
  end.
Definition ReputationToRank (standing : Z) : Z :=
  ReputationToRank_loop (Z.to_nat MAX_REPUTATION_RANK) (Reputation_Cap + 1) standing.

Section Reputation.
Context `{RepEnv}.

Definition LookupEntry (id : Z) : option FactionEntry :=
  if id >=? sFactionStore_rows then None else sFactionStore !! id.
(** [sFactionTeamMap]: the factions of a team, in the order of the store. *)
Definition row_ids : list Z := Z.of_nat <$> seq 0 (Z.to_nat sFactionStore_rows).
Definition GetFactionTeamList (faction : Z) : option (list Z) :=
  let flist := filter (λ i, match LookupEntry i with
                            | Some f => bool_decide (team f = faction ∧ team f ≠ 0)
                            | None => false
                            end = true) row_ids in
  if bool_decide (flist = []) then None else Some flist.

Definition int32_of (x : spec_float) (z : option Z) : Z :=
  match z with
  | Some z => if (- 2 ^ 31 <=? z) && (z <? 2 ^ 31) then z else float_out_of_range x
  | None => float_out_of_range x
  end.

(** *** Accessors *)

Definition GetState_id (id : Z) (r : ReputationMgr) : option FactionState :=
  _factions r !! u32 id.
Definition GetState (f : FactionEntry) (r : ReputationMgr) : option FactionState :=
  if CanHaveReputation f then GetState_id (reputationListID f) r else None.

Definition mask_matches (f : FactionEntry) (i : nat) : bool :=
  let race := nth i (BaseRepRaceMask f) 0 in
  let class := nth i (BaseRepClassMask f) 0 in
  (has_flag race getRaceMask || ((race =? 0) && negb (class =? 0)))
  && (has_flag class getClassMask || (class =? 0)).
(** The loops over the four masks: the value at the first one that matches. *)
Fixpoint first_match (f : FactionEntry) (values : list Z) (n i : nat) : Z :=
  match n with
  | O => 0
  | S n' => if mask_matches f i then nth i values 0 else first_match f values n' (S i)
  end.
Definition GetBaseReputation (f : option FactionEntry) : Z :=
  match f with None => 0 | Some f => first_match f (BaseRepValue f) 4 0 end.
Definition GetDefaultStateFlags (f : option FactionEntry) : Z :=
  match f with None => 0 | Some f => first_match f (ReputationFlags f) 4 0 end.

Definition GetReputation (f : option FactionEntry) (r : ReputationMgr) : Z :=
  match f with
  | None => 0
  | Some f =>
      match GetState f r with
      | Some state => i32 (GetBaseReputation (Some f) + Standing state)
      | None => 0
      end
  end.
Definition GetReputation_id (faction_id : Z) (r : ReputationMgr) : Z :=
  match LookupEntry faction_id with None => 0 | Some f => GetReputation (Some f) r end.
Definition GetRank (f : option FactionEntry) (r : ReputationMgr) : Z :=
  ReputationToRank (GetReputation f r).
Definition GetBaseRank (f : option FactionEntry) : Z := ReputationToRank (GetBaseReputation f).
(** [Player::GetReputationRank] *)
Definition GetReputationRank (faction : Z) (r : ReputationMgr) : Z :=
  GetRank (LookupEntry faction) r.

Definition IsAtWar (f : option FactionEntry) (r : ReputationMgr) : bool :=
  match f with
  | None => false
  | Some f => match GetState f r with
              | Some s => has_flag (Flags s) FACTION_FLAG_AT_WAR
              | None => false
              end
  end.
Definition IsAtWar_id (faction_id : Z) (r : ReputationMgr) : bool :=
  match LookupEntry faction_id with None => false | Some f => IsAtWar (Some f) r end.
Definition GetForcedRankIfAny (template_faction : Z) (r : ReputationMgr) : option Z :=
  _forcedReactions r !! template_faction.

(** *** Changes of a state record; [k] is its key in [_factions] *)

Definition with_faction (k : Z) (g : FactionState → repact unit) : repact unit :=
  s ← get; f ← require (_factions s !! k); g f.
Definition set_faction (k : Z) (f : FactionState) : repact unit :=
  modify (λ r, r <| _factions ::= <[k := f]> |>).

Definition ApplyForceReaction (faction_id rank : Z) (apply : bool) : repact unit :=
  if apply then modify (λ r, r <| _forcedReactions ::= <[faction_id := rank]> |>)
  else modify (λ r, r <| _forcedReactions ::= delete faction_id |>).

Definition UpdateRankCounters (old_rank new_rank : Z) : repact unit :=
  let dec p := u8 (p - 1) in let inc p := u8 (p + 1) in
  when (old_rank >=? REP_EXALTED) (modify (λ r, r <| _exaltedFactionCount ::= dec |>)) ;;
  when (old_rank >=? REP_REVERED) (modify (λ r, r <| _reveredFactionCount ::= dec |>)) ;;
  when (old_rank >=? REP_HONORED) (modify (λ r, r <| _honoredFactionCount ::= dec |>)) ;;
  when (new_rank >=? REP_EXALTED) (modify (λ r, r <| _exaltedFactionCount ::= inc |>)) ;;
  when (new_rank >=? REP_REVERED) (modify (λ r, r <| _reveredFactionCount ::= inc |>)) ;;
  when (new_rank >=? REP_HONORED) (modify (λ r, r <| _honoredFactionCount ::= inc |>)).

Definition SendVisible (f : FactionState) : repact unit :=
  if PlayerLoading then mret tt
  else emit (SendDirectMessage (Initialize SMSG_SET_FACTION_VISIBLE <+ U32 (ReputationListID f))).

Definition SetVisible_state (k : Z) : repact unit :=
  with_faction k (λ f,
    if has_flag (Flags f) (Z.lor FACTION_FLAG_INVISIBLE_FORCED FACTION_FLAG_HIDDEN)
       && negb (has_flag (Flags f) FACTION_FLAG_SPECIAL) then mret tt else
    if has_flag (Flags f) FACTION_FLAG_VISIBLE then mret tt else
    let f' := f <| Flags ::= λ x, Z.lor x FACTION_FLAG_VISIBLE |>
                <| needSend := true |> <| needSave := true |> in
    set_faction k f' ;;
    modify (λ r, r <| _visibleFactionCount ::= λ c, u8 (c + 1) |>) ;;
    SendVisible f').

Definition SetAtWar_state (k : Z) (atWar : bool) : repact unit :=
  with_faction k (λ f,
    if atWar && has_flag (Flags f) FACTION_FLAG_PEACE_FORCED then mret tt else
    if Bool.eqb (has_flag (Flags f) FACTION_FLAG_AT_WAR) atWar then mret tt else
    set_faction k (f <| Flags ::= λ x, if atWar then Z.lor x FACTION_FLAG_AT_WAR
                                       else Z.ldiff x FACTION_FLAG_AT_WAR |>
                     <| needSend := true |> <| needSave := true |>)).

Definition SetInactive_state (k : Z) (inactive : bool) : repact unit :=
  with_faction k (λ f,
    if inactive && (has_flag (Flags f) (Z.lor FACTION_FLAG_INVISIBLE_FORCED FACTION_FLAG_HIDDEN)
                    || negb (has_flag (Flags f) FACTION_FLAG_VISIBLE)) then mret tt else
    if Bool.eqb (has_flag (Flags f) FACTION_FLAG_INACTIVE) inactive then mret tt else
    set_faction k (f <| Flags ::= λ x, if inactive then Z.lor x FACTION_FLAG_INACTIVE
                                       else Z.ldiff x FACTION_FLAG_INACTIVE |>
                     <| needSend := true |> <| needSave := true |>)).

Definition if_known (repListID : Z) (m : FactionState → repact unit) : repact unit :=
  s ← get; match _factions s !! repListID with Some f => m f | None => mret tt end.
Definition SetVisible (f : FactionEntry) : repact unit :=
  if reputationListID f <? 0 then mret tt
  else if_known (reputationListID f) (λ _, SetVisible_state (reputationListID f)).
Definition SetVisible_template (template_faction : Z) : repact unit :=
  if template_faction =? 0 then mret tt else
  match LookupEntry template_faction with
  | None => mret tt
  | Some f =>
      if has_flag (nth 1 (BaseRepRaceMask f) 0) getRaceMask
         && (nth 1 (BaseRepValue f) 0 =? Reputation_Bottom) then mret tt
      else SetVisible f
  end.
Definition SetAtWar (repListID : Z) (on : bool) : repact unit :=
  if_known repListID (λ f,
    if has_flag (Flags f) (Z.lor FACTION_FLAG_INVISIBLE_FORCED FACTION_FLAG_HIDDEN) then mret tt
    else SetAtWar_state repListID on).
Definition SetInactive (repListID : Z) (on : bool) : repact unit :=
  if_known repListID (λ _, SetInactive_state repListID on).

(** *** Packets *)

Fixpoint SendForceReactions_loop (l : list (Z * Z)) (data : WorldPacket) : WorldPacket :=
  match l with
  | [] => data
  | (faction, rank) :: l' => SendForceReactions_loop l' (data <+ U32 faction <+ U32 rank)
  end.
Definition SendForceReactions : repact unit :=
  r ← get;
  emit (SendDirectMessage (SendForceReactions_loop (map_iter (_forcedReactions r))
    (Initialize SMSG_SET_FORCED_REACTIONS
      <+ U32 (u32 (Z.of_nat (size (_forcedReactions r))))))).

Fixpoint SendState_loop (own : Z) (l : list (Z * FactionState)) (data : WorldPacket)
    (count : Z) : repact (WorldPacket * Z) :=
  match l with
  | [] => mret (data, count)
  | (k, f) :: l' =>
      if needSend f then
        set_faction k (f <| needSend := false |>) ;;
        if negb (ReputationListID f =? own) then
          SendState_loop own l' (data <+ U32 (ReputationListID f) <+ U32 (u32 (Standing f)))
            (u32 (count + 1))
        else SendState_loop own l' data count
      else SendState_loop own l' data count
  end.
Definition SendState (k : Z) : repact unit :=
  r ← get;
  f ← require (_factions r !! k);
  let data := Initialize SMSG_SET_FACTION_STANDING <+ F32 0
                <+ U8 (if _sendFactionIncreased r then 1 else 0) in
  modify (λ r, r <| _sendFactionIncreased := false |>) ;;
  let p_count := packet_wpos data in
  out ← SendState_loop (ReputationListID f) (map_iter (_factions r))
    (data <+ U32 1 <+ U32 (ReputationListID f) <+ U32 (u32 (Standing f))) 1;
  emit (SendDirectMessage (packet_put p_count (U32 out.2) out.1)).
Definition SendStates : repact unit :=
  r ← get; forM_ (map_iter (_factions r)).*1 SendState.

(** [for (; a != to; ++a)] on uint32 runs [to - a] times, modulo 2^32; each
    append asserts that the buffer has fewer than 10000000 bytes. *)
Definition packet_size (data : WorldPacket) : Z := Z.of_nat (length (packet_bytes (body data))).
Definition append_checked (data : WorldPacket) (f : field) : repact WorldPacket :=
  if packet_size data <? 10000000 then mret (data <+ f) else raise AssertFailed.
Fixpoint fill_absent (n : nat) (data : WorldPacket) : repact WorldPacket :=
  match n with
  | O => mret data
  | S n' => data ← append_checked data (U8 0); data ← append_checked data (U32 0); fill_absent n' data
  end.
Fixpoint SendInitialReputations_loop (l : list (Z * FactionState)) (a : Z) (data : WorldPacket) :
    repact WorldPacket :=
  match l with
  | [] => fill_absent (Z.to_nat (u32 (128 - a))) data
  | (k, f) :: l' =>
      data ← fill_absent (Z.to_nat (u32 (k - a))) data;
      data ← append_checked data (U8 (Flags f));
      data ← append_checked data (U32 (u32 (Standing f)));
      set_faction k (f <| needSend := false |>) ;;
      SendInitialReputations_loop l' (u32 (k + 1)) data
  end.
Definition SendInitialReputations : repact unit :=
  r ← get;
  data ← SendInitialReputations_loop (map_iter (_factions r)) 0
    (Initialize SMSG_INITIALIZE_FACTIONS <+ U32 128);
  emit (SendDirectMessage data).

(** *** Gaining and losing reputation *)

Definition SetOneFactionReputation (f : option FactionEntry) (standing : Z) (incremental : bool) :
    repact bool :=
  f ← require f;
  r ← get;
  let k := u32 (reputationListID f) in
  match _factions r !! k with
  | None => mret false
  | Some itr =>
      let BaseRep := GetBaseReputation (Some f) in
      let standing :=
        if incremental then
          let x := f32_add (f32_mul (f32_of_Z standing) RATE_REPUTATION_GAIN) f32_half in
          i32 (int32_of x (f32_floor x) + i32 (Standing itr + BaseRep))
        else standing in
      let standing :=
        if standing >? Reputation_Cap then Reputation_Cap
        else if standing <? Reputation_Bottom then Reputation_Bottom else standing in
      let old_rank := ReputationToRank (i32 (Standing itr + BaseRep)) in
      let new_rank := ReputationToRank standing in
      set_faction k (itr <| Standing := i32 (standing - BaseRep) |>
                         <| needSend := true |> <| needSave := true |>) ;;
      SetVisible_state k ;;
      when (new_rank <=? REP_HOSTILE) (SetAtWar_state k true) ;;
      when (new_rank >? old_rank) (modify (λ r, r <| _sendFactionIncreased := true |>)) ;;
      UpdateRankCounters old_rank new_rank ;;
      emit (ReputationChanged (fe_ID f)) ;;
      emit (UpdateAchievementCriteria ACHIEVEMENT_CRITERIA_TYPE_KNOWN_FACTIONS (fe_ID f)) ;;
      emit (UpdateAchievementCriteria ACHIEVEMENT_CRITERIA_TYPE_GAIN_REPUTATION (fe_ID f)) ;;
      emit (UpdateAchievementCriteria ACHIEVEMENT_CRITERIA_TYPE_GAIN_EXALTED_REPUTATION (fe_ID f)) ;;
      emit (UpdateAchievementCriteria ACHIEVEMENT_CRITERIA_TYPE_GAIN_REVERED_REPUTATION (fe_ID f)) ;;
      emit (UpdateAchievementCriteria ACHIEVEMENT_CRITERIA_TYPE_GAIN_HONORED_REPUTATION (fe_ID f)) ;;
      mret true
  end.

(** The spillover of a template, entry [i] of four. *)
Definition SpillTemplate_entry (t : RepSpilloverTemplate) (standing : Z) (incremental : bool)
    (i : nat) : repact unit :=
  let faction := nth i (spill_faction t) 0 in
  r ← get;
  when (negb (faction =? 0) && (GetReputationRank faction r <=? nth i (faction_rank t) 0))
    (let x := f32_mul (f32_of_Z standing) (nth i (faction_rate t) f32_zero) in
     SetOneFactionReputation (LookupEntry faction) (int32_of x (f32_trunc x)) incremental ;;
     mret tt).

(** The spillover to the factions of a list; the result is that of the last
    one changed. *)
Fixpoint SpillList_loop (f : FactionEntry) (out : spec_float) (incremental res : bool)
    (flist : list Z) : repact bool :=
  match flist with
  | [] => mret res
  | id :: flist' =>
      match LookupEntry id with
      | None => SpillList_loop f out incremental res flist'
      | Some calc =>
          r ← get;
          if bool_decide (fe_ID calc = fe_ID f)
             || (GetRank (Some calc) r >? spilloverMaxRankIn calc)
          then SpillList_loop f out incremental res flist' else
          let x := f32_mul out (spilloverRateIn calc) in
          let spilloverRep := int32_of x (f32_trunc x) in
          if negb (spilloverRep =? 0) || negb incremental then
            res' ← SetOneFactionReputation (Some calc) spilloverRep incremental;
            SpillList_loop f out incremental res' flist'
          else SpillList_loop f out incremental res flist'
      end
  end.

(** Where the spillover goes when the faction has no sub-factions: to the
    parent when it has a standing of its own, to the sisters otherwise. *)
Definition SpillTeam (f : FactionEntry) (out : spec_float) (incremental : bool) :
    repact (option (list Z)) :=
  match LookupEntry (team f) with
  | None => mret None
  | Some parent =>
      r ← get;
      match _factions r !! u32 (reputationListID parent) with
      | Some parentState =>
          if has_flag (Flags parentState) FACTION_FLAG_SPECIAL then
            SetOneFactionReputation (Some parent) (int32_of out (f32_trunc out)) incremental ;;
            mret None
          else mret (GetFactionTeamList (team f))
      | None => mret (GetFactionTeamList (team f))
      end
  end.

Definition Spillover (f : FactionEntry) (standing : Z) (incremental : bool) : repact bool :=
  match sRepSpillover !! fe_ID f with
  | Some t =>
      forM_ [0; 1; 2; 3]%nat (SpillTemplate_entry t standing incremental) ;; mret false
  | None =>
      let out := f32_of_Z standing in
      match GetFactionTeamList (fe_ID f) with
      | Some flist => SpillList_loop f out incremental false flist
      | None =>
          if negb (team f =? 0) && negb (SFeqb (spilloverRateOut f) f32_zero) then
            let out := f32_mul out (spilloverRateOut f) in
            flist ← SpillTeam f out incremental;
            match flist with
            | Some flist => SpillList_loop f out incremental false flist
            | None => mret false
            end
          else mret false
      end
  end.

Definition SetReputation (f : FactionEntry) (standing : Z) (incremental : bool) : repact bool :=
  let standing := OnPlayerReputationChange (fe_ID f) standing incremental in
  res ← Spillover f standing incremental;
  r ← get;
  match _factions r !! u32 (reputationListID f) with
  | Some _ =>
      res ← SetOneFactionReputation (Some f) standing incremental;
      SendState (u32 (reputationListID f)) ;;
      mret res
  | None => mret res
  end.

(** *** Loading and saving *)

Definition Initialize_entry (i : Z) : repact unit :=
  match LookupEntry i with
  | Some f =>
      when (0 <=? reputationListID f)
        (let newFaction := mkFactionState (fe_ID f) (reputationListID f) 0
           (u8 (GetDefaultStateFlags (Some f))) true true in
         when (has_flag (Flags newFaction) FACTION_FLAG_VISIBLE)
           (modify (λ r, r <| _visibleFactionCount ::= λ c, u8 (c + 1) |>)) ;;
         UpdateRankCounters REP_HOSTILE (GetBaseRank (Some f)) ;;
         set_faction (ReputationListID newFaction) newFaction)
  | None => mret tt
  end.
Definition Reputation_Initialize : repact unit :=
  modify (λ r, r <| _factions := ∅ |> <| _visibleFactionCount := 0 |>
    <| _honoredFactionCount := 0 |> <| _reveredFactionCount := 0 |>
    <| _exaltedFactionCount := 0 |> <| _sendFactionIncreased := false |>) ;;
  forM_ (tail row_ids) Initialize_entry.

(** A row of character_reputation: faction, standing, flags. *)
Definition LoadFromDB_row (row : Z * Z * Z) : repact unit :=
  let '(faction, standing, dbFlags) := row in
  match LookupEntry (u16 faction) with
  | Some f =>
      when (0 <=? reputationListID f)
        (let k := reputationListID f in
         modify (λ r, r <| _factions ::= map_index (mkFactionState 0 0 0 0 false false) k |>) ;;
         with_faction k (λ s, set_faction k (s <| Standing := standing |>)) ;;
         let BaseRep := GetBaseReputation (Some f) in
         UpdateRankCounters (ReputationToRank BaseRep)
           (ReputationToRank (i32 (BaseRep + standing))) ;;
         let dbFactionFlags := u16 dbFlags in
         when (has_flag dbFactionFlags FACTION_FLAG_VISIBLE) (SetVisible_state k) ;;
         when (has_flag dbFactionFlags FACTION_FLAG_INACTIVE) (SetInactive_state k true) ;;
         (if has_flag dbFactionFlags FACTION_FLAG_AT_WAR then SetAtWar_state k true
          else with_faction k (λ s,
            when (has_flag (Flags s) FACTION_FLAG_VISIBLE) (SetAtWar_state k false))) ;;
         r ← get;
         when (GetRank (Some f) r <=? REP_HOSTILE) (SetAtWar_state k true) ;;
         with_faction k (λ s,
           when (Flags s =? dbFactionFlags)
             (set_faction k (s <| needSend := false |> <| needSave := false |>))))
  | None => mret tt
  end.
Definition LoadFromDB (rows : list (Z * Z * Z)) : repact unit :=
  Reputation_Initialize ;; forM_ rows LoadFromDB_row.

Definition SaveToDB_entry (kf : Z * FactionState) : repact unit :=
  let f := kf.2 in
  when (needSave f)
    (emit (CHAR_DEL_CHAR_REPUTATION_BY_FACTION GetGUIDLow (u16 (ID f))) ;;
     emit (CHAR_INS_CHAR_REPUTATION_BY_FACTION GetGUIDLow (u16 (ID f)) (Standing f) (u16 (Flags f))) ;;
     set_faction kf.1 (f <| needSave := false |>)).
Definition SaveToDB : repact unit :=
  r ← get; forM_ (map_iter (_factions r)) SaveToDB_entry.
End Reputation.

(** ** Ranks *)

Lemma ReputationToRank_table standing :
  ReputationToRank standing =
    if standing <? -6000 then 0 else if standing <? -3000 then 1 else if standing <? 0 then 2
    else if standing <? 3000 then 3 else if standing <? 9000 then 4
    else if standing <? 21000 then 5 else if standing <? 42000 then 6 else 7.
Proof.
  unfold ReputationToRank. change (Z.to_nat MAX_REPUTATION_RANK) with 8%nat.
  unfold Reputation_Cap. cbn -[Z.geb Z.ltb].
  rewrite !Z.geb_leb. repeat case_match; rewrite ?Z.leb_le, ?Z.leb_gt, ?Z.ltb_lt, ?Z.ltb_ge in *;
    try reflexivity; lia.
Qed.

(** [ReputationToRank] is the threshold table of the game: the eight ranks
    start at -42000, -6000, -3000, 0, 3000, 9000, 21000 and 42000; everything
    below is hated, everything above exalted. *)
Theorem reputation_rank_table standing :
  ReputationToRank standing =
    if standing <? -6000 then 0 else if standing <? -3000 then 1 else if standing <? 0 then 2
    else if standing <? 3000 then 3 else if standing <? 9000 then 4
    else if standing <? 21000 then 5 else if standing <? 42000 then 6 else 7.
Proof. apply ReputationToRank_table. Qed.

Lemma ReputationToRank_mono a b : a <= b → ReputationToRank a <= ReputationToRank b.
Proof.
  intros. rewrite !ReputationToRank_table. repeat case_match;
    rewrite ?Z.ltb_lt, ?Z.ltb_ge in *; lia.
Qed.

(** ** Runs *)

Lemma prepend_nil {S E A} (r : res S E A) : prepend [] r = r.
Proof. by destruct r. Qed.

Section Packets.
Context `{RepEnv}.

Lemma packet_size_stream data f :
  packet_size (data <+ f) = packet_size data + Z.of_nat (length (field_bytes f)).
Proof. unfold packet_size, packet_bytes. cbn. rewrite bind_app, length_app. cbn. rewrite app_nil_r. lia. Qed.
Lemma wp_append_checked data f (Q : WorldPacket → ReputationMgr → list rep_event → Prop) r :
  packet_size data < 10000000 → Q (data <+ f) r [] → wp (append_checked data f) Q r.
Proof. intros Hs HQ. unfold append_checked. by rewrite (proj2 (Z.ltb_lt _ _)). Qed.
Lemma wp_fill_absent n : ∀ data r (Q : WorldPacket → ReputationMgr → list rep_event → Prop),
  packet_size data + 5 * Z.of_nat n <= 10000000 →
  (∀ data', data' = mkWorldPacket (m_opcode data) (body data ++ concat (replicate n [U8 0; U32 0])) →
     packet_size data' = packet_size data + 5 * Z.of_nat n → Q data' r []) →
  wp (fill_absent n data) Q r.
Proof.
  induction n as [|n IH]; intros data r Q Hs HQ; cbn [fill_absent].
  { apply wp_ret, HQ; [rewrite app_nil_r; by destruct data|lia]. }
  apply wp_bind, wp_append_checked; [lia|]. apply wp_bind, wp_append_checked; [rewrite packet_size_stream; change (Z.of_nat (length (field_bytes _))) with 1; lia|].
  pose proof (packet_size_stream (data <+ U8 0) (U32 0)) as E. rewrite (packet_size_stream data) in E.
  change (Z.of_nat (length (field_bytes (U8 0)))) with 1 in E. change (Z.of_nat (length (field_bytes (U32 0)))) with 4 in E.
  apply IH; [lia|]. intros data' -> E'. cbn [app]. apply HQ.
  - cbn. by rewrite <- !app_assoc.
  - rewrite E'. lia.
Qed.

(** What the client is told of list position [i]. *)
Definition client_entry (m : gmap Z FactionState) (i : Z) : list field :=
  match m !! i with Some f => [U8 (Flags f); U32 (u32 (Standing f))] | None => [U8 0; U32 0] end.

Lemma client_absent (m : gmap Z FactionState) (a n : Z) :
  0 <= n → (∀ i, a <= i < a + n → m !! i = None) →
  (seqZ a n ≫= client_entry m) = concat (replicate (Z.to_nat n) [U8 0; U32 0]).
Proof.
  intros Hn. revert n Hn a. apply (natlike_ind (λ n, ∀ a, _ → _)); [done|].
  intros n Hn IH a Ha.
  replace (Z.to_nat (Z.succ n)) with (S (Z.to_nat n)) by lia.
  rewrite seqZ_cons by lia. rewrite bind_cons. simpl. unfold client_entry at 1.
  rewrite Ha by lia. simpl. f_equal. f_equal. rewrite Z.pred_succ. apply IH.
  intros i Hi. apply Ha. lia.
Qed.

(** The states with [needSend] cleared on the keys of [l]. *)
Definition cleared (l : list (Z * FactionState)) (m : gmap Z FactionState) : gmap Z FactionState :=
  foldl (λ m kf, <[kf.1 := kf.2 <| needSend := false |>]> m) m l.

Lemma SendInitial_loop_spec l m a data r :
  StronglySorted le_key l → NoDup l.*1 → (∀ k f, (k, f) ∈ l → a <= k < 128 ∧ m !! k = Some f) →
  (∀ k, a <= k → is_Some (m !! k) → k ∈ l.*1) → 0 <= a <= 128 →
  packet_size data + 5 * (128 - a) <= 10000000 →
  wp (SendInitialReputations_loop l a data) (λ out r' t, t = [] ∧
    out = mkWorldPacket (m_opcode data) (body data ++ (seqZ a (128 - a) ≫= client_entry m)) ∧
    r' = r <| _factions := cleared l (_factions r) |>) r.
Proof.
  intros Hs. revert a data r. induction Hs as [|[k f] l Hs IH HF]; intros a data r Hn Hl Hm Ha Hsz;
    cbn [SendInitialReputations_loop].
  { rewrite wrapu_id by lia. apply wp_fill_absent; [lia|]. intros data' -> _. split_and!; [done| |by destruct r].
    rewrite client_absent; [done|lia|].
    intros i Hi. apply eq_None_not_Some. intros Hi'. apply Hm in Hi'; [|lia].
    by apply elem_of_nil in Hi'. }
  destruct (Hl k f) as [Hk Hmk]; [left|]. simpl in Hn. apply NoDup_cons in Hn as [Hn1 Hn2].
  rewrite (wrapu_id 32 (k - a)) by lia. apply wp_bind, wp_fill_absent; [lia|]. intros data1 -> E1.
  set (data1 := mkWorldPacket _ _) in *.
  apply wp_bind, wp_append_checked; [lia|]. apply wp_bind, wp_append_checked; [rewrite packet_size_stream; change (Z.of_nat (length (field_bytes _))) with 1; lia|].
  pose proof (packet_size_stream (data1 <+ U8 (Flags f)) (U32 (u32 (Standing f)))) as E2.
  rewrite (packet_size_stream data1) in E2. change (Z.of_nat (length (field_bytes (U8 (Flags f))))) with 1 in E2.
  change (Z.of_nat (length (field_bytes (U32 (u32 (Standing f)))))) with 4 in E2.
  apply wp_bind. unfold set_faction. apply wp_modify. rewrite (wrapu_id 32 (k + 1)) by lia.
  assert (∀ k' f', (k', f') ∈ l → k < k') as Hgt.
  { intros k' f' Hin. rewrite Forall_forall in HF. specialize (HF (k', f') Hin).
    unfold le_key in HF. simpl in HF. assert (k ≠ k'); [|lia]. intros ->. apply Hn1.
    by apply (list_elem_of_fmap_2 fst _ (k', f')). }
  eapply wp_mono; [apply IH; [done| | |lia|lia]|].
  - intros k' f' Hin. destruct (Hl k' f') as [? ?]; [by right|]. split; [|done].
    specialize (Hgt k' f' Hin). lia.
  - intros k' Hk' Hsome. apply Hm in Hsome; [|lia]. simpl in Hsome.
    apply elem_of_cons in Hsome as [->|?]; [lia|done].
  - intros out r' t (-> & -> & ->). split_and!; [done| |done]. simpl. f_equal.
    replace (128 - a) with ((k - a) + (1 + (128 - (k + 1)))) by lia.
    rewrite (seqZ_app a (k - a)), (seqZ_app _ 1) by lia. rewrite !bind_app, (client_absent m a (k - a)); [|lia|].
    + replace (a + (k - a)) with k by lia. rewrite (seqZ_cons k 1) by lia. rewrite bind_cons.
      assert (client_entry m k = [U8 (Flags f); U32 (u32 (Standing f))]) as ->
        by (unfold client_entry; by rewrite Hmk).
      rewrite (seqZ_nil (Z.succ k) (Z.pred 1)) by lia. simpl. by rewrite <- !app_assoc.
    + intros i Hi. apply eq_None_not_Some. intros Hi'. apply Hm in Hi'; [|lia].
      simpl in Hi'. apply elem_of_cons in Hi' as [->|Hi']; [lia|].
      apply list_elem_of_fmap in Hi' as [[k' f'] [-> Hin]]. specialize (Hgt _ _ Hin). simpl in *. lia.
Qed.

Lemma cleared_lookup l m k :
  NoDup l.*1 → (∀ k f, (k, f) ∈ l → m !! k = Some f) →
  cleared l m !! k =
    if decide (k ∈ l.*1) then (λ f, f <| needSend := false |>) <$> m !! k else m !! k.
Proof.
  revert m. induction l as [|[k0 f0] l IH]; intros m Hn Hl; [done|].
  simpl in Hn. apply NoDup_cons in Hn as [Hn1 Hn2]. unfold cleared in *. simpl. rewrite IH.
  - destruct (decide (k0 = k)) as [->|Hne].
    + rewrite decide_False, decide_True by (done || left).
      rewrite lookup_insert_eq, (Hl k f0) by left. done.
    + rewrite lookup_insert_ne by done. destruct (decide (k ∈ l.*1)).
      * by rewrite decide_True by by right.
      * by rewrite decide_False by by intros [?|?]%elem_of_cons.
  - done.
  - intros k' f' Hin. rewrite lookup_insert_ne; [apply Hl; by right|]. intros ->. apply Hn1.
    by apply (list_elem_of_fmap_2 fst _ (k', f')).
Qed.

Lemma cleared_all m : cleared (map_iter m) m = (λ f, f <| needSend := false |>) <$> m.
Proof.
  apply map_eq. intros k. rewrite cleared_lookup, lookup_fmap.
  - case_decide as Hd; [done|]. rewrite map_iter_keys in Hd. destruct (m !! k); [|done].
    exfalso. apply Hd. by eexists.
  - apply NoDup_map_iter.
  - intros k' f'. apply elem_of_map_iter.
Qed.
End Packets.

(** [SendInitialReputations] sends one packet with the count and exactly 128
    entries, entry [i] being the flags and the standing of the faction at list
    position [i], or zeros where there is none; every faction is then marked as
    sent.  (A position of 128 or more would make the last loop run on through
    uint32 until the buffer's assertion fails.) *)
Theorem send_initial_reputations r :
  (∀ k, is_Some (_factions r !! k) → 0 <= k < 128) →
  SendInitialReputations r = Done tt
    (r <| _factions ::= fmap (λ f, f <| needSend := false |>) |>)
    [SendDirectMessage (mkWorldPacket SMSG_INITIALIZE_FACTIONS
       (U32 128 :: (seqZ 0 128 ≫= client_entry (_factions r))))].
Proof.
  intros Hk. unfold SendInitialReputations.
  pose proof (SendInitial_loop_spec (map_iter (_factions r)) (_factions r) 0
    (Initialize SMSG_INITIALIZE_FACTIONS <+ U32 128) r) as Hl. unfold wp in Hl.
  unfold mbind, act_bind. cbn [get prepend app].
  destruct (SendInitialReputations_loop _ _ _ _) as [out r' t|].
  - destruct Hl as (-> & -> & ->).
    + apply map_iter_sorted.
    + apply NoDup_map_iter.
    + intros k f Hkf%elem_of_map_iter. split; [apply Hk; by eexists|done].
    + intros k _ Hs. by apply map_iter_keys.
    + lia.
    + vm_compute. discriminate.
    + cbn [prepend emit app]. rewrite cleared_all. done.
  - destruct Hl.
    + apply map_iter_sorted.
    + apply NoDup_map_iter.
    + intros k f0 Hkf%elem_of_map_iter. split; [apply Hk; by eexists|done].
    + intros k _ Hs. by apply map_iter_keys.
    + lia.
    + vm_compute. discriminate.
Qed.

Definition rep_store0 : gmap Z FactionEntry :=
  {[ 72 := mkFactionEntry 72 19 [1; 0; 0; 0] [0; 0; 0; 0] [3100; 0; 0; 0] [17; 0; 0; 0] 469
             f32_half f32_half 5;
     76 := mkFactionEntry 76 14 [2; 1; 0; 0] [0; 0; 0; 0] [3100; -42000; 0; 0] [17; 6; 0; 0] 67
             f32_half f32_half 5;
     47 := mkFactionEntry 47 20 [1; 0; 0; 0] [0; 0; 0; 0] [3100; 0; 0; 0] [17; 0; 0; 0] 469
             f32_half f32_half 5 ]}.
(** A human (race mask 1) with two factions of the alliance and one of the
    horde. *)
Definition rep_env0 : RepEnv :=
  {| sFactionStore := rep_store0; sFactionStore_rows := 80; sRepSpillover := ∅;
     RATE_REPUTATION_GAIN := f32_one; OnPlayerReputationChange := λ _ s _, s;
     getRaceMask := 1; getClassMask := 1; GetGUIDLow := 5; PlayerLoading := false;
     float_out_of_range := λ _, - 2 ^ 31 |}.
Definition rep0 : ReputationMgr :=
  rstate (@Reputation_Initialize rep_env0 (mkReputationMgr ∅ ∅ 0 0 0 0 true)).

Lemma rep0_keys k f : _factions rep0 !! k = Some f → k = 14 ∨ k = 19 ∨ k = 20.
Proof.
  intros Hk. destruct (decide (k = 14)) as [->|]; [by left|].
  destruct (decide (k = 19)) as [->|]; [by right; left|].
  destruct (decide (k = 20)) as [->|]; [by right; right|].
  exfalso. apply (f_equal (λ o, bool_decide (is_Some o))) in Hk. simpl in Hk.
  assert (k ∈ dom (_factions rep0)) as Hd.
  { apply elem_of_dom. destruct (_factions rep0 !! k); [by eexists|]. by rewrite bool_decide_false in Hk by (by intros []). }
  apply elem_of_elements in Hd. vm_compute in Hd.
  repeat (apply elem_of_cons in Hd as [->|Hd]; [done|]). by apply elem_of_nil in Hd.
Qed.

Lemma send_initial_reputations_witness :
  SendInitialReputations rep0 =
  Done tt (rep0 <| _factions ::= fmap (λ f, f <| needSend := false |>) |>)
    [SendDirectMessage (mkWorldPacket SMSG_INITIALIZE_FACTIONS
       (U32 128 :: (seqZ 0 128 ≫= client_entry (_factions rep0))))].
Proof.
  apply (send_initial_reputations rep0). intros k [f Hf].
  apply rep0_keys in Hf. destruct Hf as [->|[->| ->]]; lia.
Defined.

Section SendAndSave.
Context `{RepEnv}.

(** The entries a [SMSG_SET_FACTION_STANDING] adds to that of faction [own]. *)
Definition also_sent (own : Z) (l : list (Z * FactionState)) : list (Z * FactionState) :=
  filter (λ kf : Z * FactionState, needSend kf.2 = true ∧ ReputationListID kf.2 ≠ own) l.
Definition standing_fields (kf : Z * FactionState) : list field :=
  [U32 (ReputationListID kf.2); U32 (u32 (Standing kf.2))].

Lemma cleared_same (m : gmap Z FactionState) k f :
  m !! k = Some f → needSend f = false → <[k := f <| needSend := false |>]> m = m.
Proof. intros Hk Hs. apply insert_id. rewrite Hk. f_equal. by destruct f; simpl in *; subst. Qed.

Lemma SendState_loop_spec own l data count r :
  NoDup l.*1 → (∀ k f, (k, f) ∈ l → _factions r !! k = Some f) →
  wp (SendState_loop own l data count) (λ out r' t, t = [] ∧
    out.1 = mkWorldPacket (m_opcode data) (body data ++ (also_sent own l ≫= standing_fields)) ∧
    (0 <= count → count + Z.of_nat (length (also_sent own l)) < 2 ^ 32 →
     out.2 = count + Z.of_nat (length (also_sent own l))) ∧
    r' = r <| _factions := cleared l (_factions r) |>) r.
Proof.
  revert data count r. induction l as [|[k f] l IH]; intros data count r Hn Hl; cbn [SendState_loop].
  { apply wp_ret. unfold also_sent. simpl. rewrite app_nil_r, Z.add_0_r.
    split_and!; [done|by destruct data|done|by destruct r]. }
  simpl in Hn. apply NoDup_cons in Hn as [Hn1 Hn2].
  pose proof (Hl k f ltac:(left)) as Hk. unfold also_sent. rewrite filter_cons. cbn [fst snd].
  assert (∀ x, ∀ k' f', (k', f') ∈ l →
    _factions (r <| _factions ::= <[k := x]> |>) !! k' = Some f') as Hl'.
  { intros x k' f' Hin. simpl. rewrite lookup_insert_ne; [apply Hl; by right|]. intros ->.
    apply Hn1. by apply (list_elem_of_fmap_2 fst _ (k', f')). }
  destruct (needSend f) eqn:Ens.
  - unfold set_faction. apply wp_bind, wp_modify.
    destruct (Z.eqb_spec (ReputationListID f) own) as [Eo|Eo]; cbn [negb].
    + rewrite decide_False by tauto. eapply wp_mono; [apply IH; auto|].
      intros out r' t (-> & E2 & E3 & ->). split_and!; done.
    + rewrite decide_True by tauto. eapply wp_mono; [apply IH; auto|].
      intros out r' t (-> & E2 & E3 & ->). split_and!; try done.
      * rewrite E2. simpl. by rewrite <- !app_assoc.
      * unfold also_sent in *. cbn [length]. intros Hc1 Hc2. rewrite (wrapu_id 32) in E3 by lia.
        rewrite E3 by lia. lia.
  - rewrite decide_False by (intros []; done). eapply wp_mono; [apply IH; [done|]|].
    + intros k' f' Hin. apply Hl. by right.
    + intros out r' t (-> & E2 & E3 & ->). split_and!; try done. 
      assert (cleared ((k, f) :: l) (_factions r) = cleared l (_factions r)) as ->; [|done].
      unfold cleared. cbn [foldl fst snd]. by rewrite cleared_same.
Qed.

Definition saved (l : list (Z * FactionState)) (m : gmap Z FactionState) : gmap Z FactionState :=
  foldl (λ m kf, <[kf.1 := kf.2 <| needSave := false |>]> m) m l.
Definition save_stmts (kf : Z * FactionState) : list rep_event :=
  if needSave kf.2 then
    [CHAR_DEL_CHAR_REPUTATION_BY_FACTION GetGUIDLow (u16 (ID kf.2));
     CHAR_INS_CHAR_REPUTATION_BY_FACTION GetGUIDLow (u16 (ID kf.2)) (Standing kf.2)
       (u16 (Flags kf.2))]
  else [].

Lemma SaveToDB_loop l r :
  NoDup l.*1 → (∀ k f, (k, f) ∈ l → _factions r !! k = Some f) →
  forM_ l SaveToDB_entry r =
    Done tt (r <| _factions := saved l (_factions r) |>) (l ≫= save_stmts).
Proof.
  revert r. induction l as [|[k f] l IH]; intros r Hn Hl; [by destruct r|].
  simpl in Hn. apply NoDup_cons in Hn as [Hn1 Hn2]. pose proof (Hl k f ltac:(left)) as Hk.
  rewrite bind_cons. unfold save_stmts at 1. cbn [forM_].
  unfold SaveToDB_entry, set_faction, mbind, act_bind. cbn [fst snd].
  destruct (needSave f) eqn:Ens; simpl.
  - rewrite IH; [done|done|]. intros k' f' Hin. simpl.
    rewrite lookup_insert_ne; [apply Hl; by right|]. intros ->.
    apply Hn1. by apply (list_elem_of_fmap_2 fst _ (k', f')).
  - rewrite IH; [|done|intros k' f' Hin; apply Hl; by right]. simpl.
    rewrite (insert_id (_factions r)); [done|]. rewrite Hk. f_equal. destruct f; simpl in *. by subst.
Qed.

Lemma saved_all_aux l m :
  NoDup l.*1 → (∀ k f, (k, f) ∈ l → m !! k = Some f) →
  ∀ k, saved l m !! k =
    if decide (k ∈ l.*1) then (λ f, f <| needSave := false |>) <$> m !! k else m !! k.
Proof.
  revert m. induction l as [|[k0 f0] l IH]; intros m Hn Hl k; [done|].
  simpl in Hn. apply NoDup_cons in Hn as [Hn1 Hn2]. unfold saved in *. simpl. rewrite IH.
  - destruct (decide (k0 = k)) as [->|Hne].
    + rewrite decide_False, decide_True by (done || left).
      rewrite lookup_insert_eq, (Hl k f0) by left. done.
    + rewrite lookup_insert_ne by done. destruct (decide (k ∈ l.*1)).
      * by rewrite decide_True by by right.
      * by rewrite decide_False by by intros [?|?]%elem_of_cons.
  - done.
  - intros k' f' Hin. rewrite lookup_insert_ne; [apply Hl; by right|]. intros ->. apply Hn1.
    by apply (list_elem_of_fmap_2 fst _ (k', f')).
Qed.

Lemma saved_all m : saved (map_iter m) m = (λ f, f <| needSave := false |>) <$> m.
Proof.
  apply map_eq. intros k. rewrite saved_all_aux, lookup_fmap.
  - case_decide as Hd; [done|]. rewrite map_iter_keys in Hd. destruct (m !! k); [|done].
    exfalso. apply Hd. by eexists.
  - apply NoDup_map_iter.
  - intros k' f'. apply elem_of_map_iter.
Qed.
End SendAndSave.

(** [SendState] reports the faction and then every other faction with news,
    in list order, each with its standing; the count that was left open at the
    start of the packet is the number of entries, and afterwards no faction has
    news and the visual effect is reset. *)
Theorem send_state r k f :
  _factions r !! k = Some f → Z.of_nat (size (_factions r)) < 2 ^ 32 - 1 →
  let others := also_sent (ReputationListID f) (map_iter (_factions r)) in
  SendState k r = Done tt
    (r <| _factions ::= fmap (λ f, f <| needSend := false |>) |> <| _sendFactionIncreased := false |>)
    [SendDirectMessage (mkWorldPacket SMSG_SET_FACTION_STANDING
       (F32 0 :: U8 (if _sendFactionIncreased r then 1 else 0) ::
        U32 (1 + Z.of_nat (length others)) ::
        standing_fields (k, f) ++ (others ≫= standing_fields)))].
Proof.
  intros Hk Hsz others. unfold SendState, mbind, act_bind. cbn [get prepend app].
  rewrite Hk. cbn [require mret act_ret modify prepend app].
  match goal with |- context [SendState_loop ?own ?l ?data ?c ?r0] =>
    pose proof (SendState_loop_spec own l data c r0) as Hl; unfold wp in Hl;
    destruct (SendState_loop own l data c r0) as [[out n] r' t|] end.
  - destruct Hl as (-> & E1 & E2 & ->).
    + apply NoDup_map_iter.
    + intros k' f' Hin%elem_of_map_iter. exact Hin.
    + cbn [fst snd] in *. fold others in E1, E2.
      assert (Z.of_nat (length others) <= Z.of_nat (size (_factions r))) as Hlen.
      { rewrite <- length_map_iter. unfold others, also_sent.
        pose proof (length_filter (λ kf : Z * FactionState, needSend kf.2 = true
          ∧ ReputationListID kf.2 ≠ ReputationListID f) (map_iter (_factions r))). lia. }
      rewrite E2 by lia. unfold emit. cbn [prepend app]. subst out. f_equal.
      simpl. by rewrite cleared_all.
  - destruct Hl; [apply NoDup_map_iter|intros k' f' Hin%elem_of_map_iter; exact Hin].
Qed.

Lemma send_state_witness :
  SendState 19 rep0 = Done tt
    (rep0 <| _factions ::= fmap (λ f, f <| needSend := false |>) |> <| _sendFactionIncreased := false |>)
    [SendDirectMessage (mkWorldPacket SMSG_SET_FACTION_STANDING
       [F32 0; U8 0; U32 3; U32 19; U32 0; U32 14; U32 0; U32 20; U32 0])].
Proof.
  rewrite (send_state rep0 19 (mkFactionState 72 19 0 17 true true));
    [|vm_compute; reflexivity|vm_compute; reflexivity].
  vm_compute. reflexivity.
Defined.

(** [SaveToDB] replaces the row of exactly the factions that changed since
    the last save, in list order, and marks them saved: saving again right
    after sends nothing. *)
Theorem save_to_db `{RepEnv} r :
  let r' := r <| _factions ::= fmap (λ f, f <| needSave := false |>) |> in
  SaveToDB r = Done tt r' (map_iter (_factions r) ≫= save_stmts) ∧
  SaveToDB r' = Done tt r' [].
Proof.
  assert (∀ r0, SaveToDB r0 = Done tt (r0 <| _factions ::= fmap (λ f, f <| needSave := false |>) |>)
    (map_iter (_factions r0) ≫= save_stmts)) as Hsave.
  { intros r0. unfold SaveToDB, mbind, act_bind. cbn [get prepend app].
    rewrite SaveToDB_loop; [|apply NoDup_map_iter|intros k f; apply elem_of_map_iter].
    cbn [prepend app]. f_equal. unfold setf. simpl. by rewrite saved_all. }
  intros r'. split; [apply Hsave|]. rewrite Hsave. f_equal.
  - unfold r'. simpl. f_equal. rewrite <- map_fmap_compose. by apply map_fmap_ext.
  - assert (∀ k f, (k, f) ∈ map_iter (_factions r') → needSave f = false) as Hl.
    { intros k f Hf%elem_of_map_iter. unfold r' in Hf. simpl in Hf.
      rewrite lookup_fmap in Hf. apply fmap_Some in Hf as (f0 & _ & ->). done. }
    induction (map_iter (_factions r')) as [|[k f] l IH]; [done|].
    rewrite bind_cons. unfold save_stmts at 1. simpl. rewrite (Hl k f) by left. simpl.
    apply IH. intros. eapply Hl. by right.
Qed.

(** ** Counting the factions of a rank *)

Definition cnt (P : FactionState → bool) (m : gmap Z FactionState) : Z :=
  Z.of_nat (size (filter (λ kf : Z * FactionState, P kf.2 = true) m)).

Lemma cnt_empty P : cnt P ∅ = 0.
Proof. unfold cnt. by rewrite map_filter_empty, map_size_empty. Qed.

Lemma cnt_insert_new P m k f :
  m !! k = None → cnt P (<[k := f]> m) = cnt P m + Z.b2z (P f).
Proof.
  intros Hk. unfold cnt. destruct (P f) eqn:Ef.
  - rewrite map_filter_insert_True by done. rewrite map_size_insert_None; [simpl; lia|].
    apply map_lookup_filter_None. by left.
  - rewrite map_filter_insert_False by (simpl; congruence). rewrite delete_id by done. simpl. lia.
Qed.

Lemma cnt_insert P m k f f' :
  m !! k = Some f → cnt P (<[k := f']> m) = cnt P m - Z.b2z (P f) + Z.b2z (P f').
Proof.
  intros Hk. rewrite <- (insert_delete_id m k f) at 2 by done.
  rewrite <- insert_delete_eq.
  rewrite !cnt_insert_new by apply lookup_delete_eq. lia.
Qed.

Lemma cnt_ext P Q m : (∀ k f, m !! k = Some f → P f = Q f) → cnt P m = cnt Q m.
Proof.
  intros Hpq. unfold cnt. f_equal. f_equal. apply map_filter_ext. intros k f Hk. simpl.
  by rewrite (Hpq k f).
Qed.

(** ** The invariant of the manager *)

Definition visible (f : FactionState) : bool := has_flag (Flags f) FACTION_FLAG_VISIBLE.
Definition at_war (f : FactionState) : bool := has_flag (Flags f) FACTION_FLAG_AT_WAR.
Definition peace_forced (f : FactionState) : bool := has_flag (Flags f) FACTION_FLAG_PEACE_FORCED.
Definition showable (f : FactionState) : bool :=
  negb (has_flag (Flags f) (Z.lor FACTION_FLAG_INVISIBLE_FORCED FACTION_FLAG_HIDDEN))
  || has_flag (Flags f) FACTION_FLAG_SPECIAL.

(** What the client data guarantees: a faction is found under its own id, list
    positions are below 128 and not shared, base values are within the bounds, and no faction
    starts both at war and forced to peace; the templates name known factions. *)
Class StoreLaws `{RepEnv} := {
  store_id i e : LookupEntry i = Some e → fe_ID e = i;
  store_unique i j e e' : LookupEntry i = Some e → LookupEntry j = Some e' →
    0 <= reputationListID e → reputationListID e = reputationListID e' → i = j;
  store_range i e : LookupEntry i = Some e → 0 <= i < 2 ^ 16 ∧
    - 2 ^ 31 <= reputationListID e < 128 ∧ 0 < sFactionStore_rows;
  store_zero e : LookupEntry 0 = Some e → reputationListID e < 0;
  store_base i e : LookupEntry i = Some e →
    Reputation_Bottom <= GetBaseReputation (Some e) <= Reputation_Cap;
  store_flags i e : LookupEntry i = Some e →
    has_flag (u8 (GetDefaultStateFlags (Some e))) FACTION_FLAG_PEACE_FORCED = true →
    has_flag (u8 (GetDefaultStateFlags (Some e))) FACTION_FLAG_AT_WAR = false;
  spill_known t i : sRepSpillover !! i = Some t →
    Forall (λ f, f = 0 ∨ is_Some (LookupEntry f)) (spill_faction t) }.

Section Invariant.
Context `{StoreLaws}.

Definition rank_of (f : FactionState) : Z :=
  ReputationToRank (i32 (GetBaseReputation (LookupEntry (ID f)) + Standing f)).
Definition at_least (rank : Z) (f : FactionState) : bool := rank <=? rank_of f.

Record factions_ok (m : gmap Z FactionState) : Prop := {
  fok_key k f : m !! k = Some f → ReputationListID f = k ∧ 0 <= k < 2 ^ 31 ∧
    ∃ e, LookupEntry (ID f) = Some e ∧ reputationListID e = k;
  fok_peace k f : m !! k = Some f → peace_forced f = true → at_war f = false }.

(** The counters, as they are when a faction of rank [new] is still counted
    as [old]; [rep_wf] is the case without such a faction. *)
Record counted (old new : Z) (r : ReputationMgr) : Prop := {
  cnt_factions : factions_ok (_factions r);
  cnt_visible : _visibleFactionCount r = u8 (cnt visible (_factions r));
  cnt_honored : _honoredFactionCount r = u8 (cnt (at_least REP_HONORED) (_factions r)
    + Z.b2z (REP_HONORED <=? old) - Z.b2z (REP_HONORED <=? new));
  cnt_revered : _reveredFactionCount r = u8 (cnt (at_least REP_REVERED) (_factions r)
    + Z.b2z (REP_REVERED <=? old) - Z.b2z (REP_REVERED <=? new));
  cnt_exalted : _exaltedFactionCount r = u8 (cnt (at_least REP_EXALTED) (_factions r)
    + Z.b2z (REP_EXALTED <=? old) - Z.b2z (REP_EXALTED <=? new)) }.
Definition complete (r : ReputationMgr) : Prop :=
  ∀ i e, LookupEntry i = Some e → 0 <= reputationListID e →
    is_Some (_factions r !! reputationListID e).
Definition rep_wf (r : ReputationMgr) : Prop := counted 0 0 r ∧ complete r.

(** Changing flags and marks of a state, not its standing. *)
Definition same_standing (f f' : FactionState) : Prop :=
  ID f' = ID f ∧ ReputationListID f' = ReputationListID f ∧ Standing f' = Standing f.

Lemma rank_of_same f f' : same_standing f f' → rank_of f' = rank_of f.
Proof. unfold rank_of. by intros (-> & _ & ->). Qed.

Lemma factions_ok_insert m k f f' :
  factions_ok m → m !! k = Some f → ID f' = ID f → ReputationListID f' = ReputationListID f →
  (peace_forced f' = true → at_war f' = false) →
  factions_ok (<[k := f']> m).
Proof.
  intros [Hkey Hpeace] Hk HID HL Hp. split; intros k' x Hx.
  - destruct (decide (k = k')) as [<-|Hne]; simplify_map_eq; [|eauto].
    rewrite HL, HID. eauto.
  - destruct (decide (k = k')) as [<-|Hne]; simplify_map_eq; eauto.
Qed.

Lemma complete_insert r k f' v :
  complete r → complete (r <| _factions ::= <[k := f']> |> <| _visibleFactionCount := v |>).
Proof.
  intros Hc i e Hi He. simpl. specialize (Hc i e Hi He).
  destruct (decide (k = reputationListID e)) as [->|]; simplify_map_eq; [by eexists|done].
Qed.

Lemma counted_flags old new r k f f' :
  counted old new r → _factions r !! k = Some f → same_standing f f' →
  (peace_forced f' = true → at_war f' = false) →
  counted old new (r <| _factions ::= <[k := f']> |>
    <| _visibleFactionCount ::= λ c, u8 (c - Z.b2z (visible f) + Z.b2z (visible f')) |>).
Proof.
  intros [Hf Hv Hh Hr He] Hk Hs Hp. pose proof (rank_of_same f f' Hs) as Hrank.
  destruct Hs as (E1 & E2 & E3).
  split; simpl; [by eapply factions_ok_insert| |..].
  - rewrite Hv, (cnt_insert _ _ _ f) by done. unfold wrapu.
    rewrite <- Zplus_mod_idemp_l, Zminus_mod_idemp_l, Zplus_mod_idemp_l. done.
  - rewrite Hh, (cnt_insert _ _ _ f) by done. f_equal. unfold at_least. rewrite Hrank. lia.
  - rewrite Hr, (cnt_insert _ _ _ f) by done. f_equal. unfold at_least. rewrite Hrank. lia.
  - rewrite He, (cnt_insert _ _ _ f) by done. f_equal. unfold at_least. rewrite Hrank. lia.
Qed.

Lemma counted_visible_range old new r : counted old new r → 0 <= _visibleFactionCount r < 256.
Proof. intros [_ -> _ _ _]. apply (wrapu_range 8). lia. Qed.

(** A step that changes only flags and marks of the faction at [k]. *)
Definition flag_step (k : Z) (f : FactionState) (r r' : ReputationMgr)
    (Q : FactionState → Prop) : Prop :=
  ∃ f', _factions r' = <[k := f']> (_factions r) ∧ same_standing f f' ∧
    peace_forced f' = peace_forced f ∧ showable f' = showable f ∧ Q f' ∧
    _sendFactionIncreased r' = _sendFactionIncreased r.

Lemma flag_step_none k f r (Q : FactionState → Prop) :
  _factions r !! k = Some f → Q f → flag_step k f r r Q.
Proof. intros Hk HQ. exists f. split_and!; try done. by rewrite insert_id. Qed.

Lemma wp_with_faction k g Q r f :
  _factions r !! k = Some f → wp (g f) Q r → wp (with_faction k g) Q r.
Proof.
  intros Hk Hg. unfold with_faction. apply wp_bind, wp_get, wp_bind. rewrite Hk.
  by apply wp_ret.
Qed.

(** The flags of a state after bits were set or cleared. *)
Lemma counted_set_flags old new r k f (g : Z → Z) :
  counted old new r → _factions r !! k = Some f →
  has_flag (g (Flags f)) FACTION_FLAG_VISIBLE = visible f →
  has_flag (g (Flags f)) FACTION_FLAG_PEACE_FORCED = peace_forced f →
  (peace_forced f = true → has_flag (g (Flags f)) FACTION_FLAG_AT_WAR = false) →
  counted old new (r <| _factions ::= <[k := f <| Flags ::= g |> <| needSend := true |>
    <| needSave := true |>]> |>).
Proof.
  intros Hc Hk Hv Hp Hw. pose proof (counted_visible_range _ _ _ Hc).
  set (f' := f <| Flags ::= g |> <| needSend := true |> <| needSave := true |>).
  pose proof (counted_flags old new r k f f' Hc Hk ltac:(done)) as Hc'.
  destruct Hc' as [C1 C2 C3 C4 C5].
  { intros E. apply Hw. rewrite <- Hp. exact E. }
  split; simpl in *; try done. rewrite <- C2, (Hv : visible f' = visible f).
  rewrite wrapu_id; lia.
Qed.

Lemma SetVisible_state_spec old new k f r :
  counted old new r → _factions r !! k = Some f →
  wp (SetVisible_state k) (λ _ r' t, counted old new r' ∧
    flag_step k f r r' (λ f', visible f' = visible f || showable f ∧ at_war f' = at_war f)) r.
Proof.
  intros Hc Hk. pose proof (fok_peace _ (cnt_factions _ _ _ Hc) k f Hk) as Hpw.
  unfold SetVisible_state. apply (wp_with_faction _ _ _ _ f Hk).
  unfold visible, showable.
  destruct (has_flag (Flags f) (Z.lor _ _)) eqn:E1, (has_flag (Flags f) FACTION_FLAG_SPECIAL) eqn:E2;
    simpl; try (apply wp_ret; split; [done|apply flag_step_none; [done|]]; simpl;
                by rewrite orb_false_r).
  all: destruct (has_flag (Flags f) FACTION_FLAG_VISIBLE) eqn:E3; simpl;
    [apply wp_ret; (split; [done|by apply flag_step_none])|].
  all: unfold set_faction; apply wp_bind, wp_modify, wp_bind, wp_modify.
  all: set (f' := f <| Flags ::= λ x, Z.lor x FACTION_FLAG_VISIBLE |>
                    <| needSend := true |> <| needSave := true |>).
  all: assert (counted old new (r <| _factions ::= <[k := f']> |>
    <| _visibleFactionCount ::= λ c, u8 (c + 1) |>)) as Hc'
    by (eapply (counted_flags _ _ _ _ _ f') in Hc;
        [|done|done|unfold peace_forced, at_war, f'; simpl; rewrite !has_flag_lor, !orb_false_r; exact Hpw];
        unfold visible in Hc; rewrite E3 in Hc; unfold f' in Hc at 2; simpl in Hc;
        rewrite has_flag_lor, orb_true_r, Z.sub_0_r in Hc; exact Hc).
  all: unfold SendVisible; destruct PlayerLoading; [apply wp_ret|apply wp_emit];
    (split; [exact Hc'|]); exists f'; unfold peace_forced, showable, at_war, visible, f'; simpl;
    rewrite !has_flag_lor, ?orb_false_r; split_and!; try done; by rewrite orb_true_r.
Qed.

Lemma SetAtWar_state_spec old new k f on r :
  counted old new r → _factions r !! k = Some f →
  wp (SetAtWar_state k on) (λ _ r' t, counted old new r' ∧
    flag_step k f r r' (λ f', visible f' = visible f ∧
      at_war f' = if on && peace_forced f then at_war f else on)) r.
Proof.
  intros Hc Hk. pose proof (fok_peace _ (cnt_factions _ _ _ Hc) k f Hk) as Hpw.
  unfold SetAtWar_state. apply (wp_with_faction _ _ _ _ f Hk).
  fold (peace_forced f) (at_war f). destruct (on && peace_forced f) eqn:E1.
  { apply wp_ret. split; [done|by apply flag_step_none]. }
  destruct (Bool.eqb (at_war f) on) eqn:E2.
  { apply eqb_prop in E2. apply wp_ret. split; [done|]. by apply flag_step_none. }
  unfold set_faction. apply wp_modify. split.
  - apply counted_set_flags; try done.
    + destruct on; [by rewrite has_flag_lor, orb_false_r|by rewrite has_flag_ldiff_other].
    + destruct on; [by rewrite has_flag_lor, orb_false_r|by rewrite has_flag_ldiff_other].
    + intros Hp. rewrite Hp, andb_true_r in E1. subst. apply has_flag_ldiff_same.
  - eexists. split; [done|]. unfold peace_forced, showable, at_war, visible. simpl.
    destruct on; rewrite ?has_flag_lor, ?orb_false_r, ?has_flag_ldiff_same,
      ?has_flag_ldiff_other by done; split_and!; try done; by rewrite orb_true_r.
Qed.

Lemma SetInactive_state_spec old new k f on r :
  counted old new r → _factions r !! k = Some f →
  wp (SetInactive_state k on) (λ _ r' t, counted old new r' ∧
    flag_step k f r r' (λ f', visible f' = visible f ∧ at_war f' = at_war f)) r.
Proof.
  intros Hc Hk. pose proof (fok_peace _ (cnt_factions _ _ _ Hc) k f Hk) as Hpw.
  unfold SetInactive_state. apply (wp_with_faction _ _ _ _ f Hk).
  match goal with |- context [if ?b then _ else _] => destruct b end.
  { apply wp_ret. split; [done|by apply flag_step_none]. }
  destruct (Bool.eqb _ on) eqn:E2.
  { apply wp_ret. split; [done|]. by apply flag_step_none. }
  unfold set_faction. apply wp_modify. split.
  - apply counted_set_flags; try done; destruct on;
      rewrite ?has_flag_lor, ?orb_false_r, ?has_flag_ldiff_other by done; done.
  - eexists. split; [done|]. unfold peace_forced, showable, at_war, visible. simpl.
    destruct on; rewrite ?has_flag_lor, ?orb_false_r, ?has_flag_ldiff_other by done; done.
Qed.

Lemma UpdateRankCounters_spec old new r :
  counted old new r →
  wp (UpdateRankCounters old new) (λ _ r' t, counted 0 0 r' ∧ t = [] ∧
    _factions r' = _factions r ∧ _sendFactionIncreased r' = _sendFactionIncreased r) r.
Proof.
  intros [C1 C2 C3 C4 C5]. unfold UpdateRankCounters, wp, mbind, act_bind. rewrite !Z.geb_leb.
  assert (∀ a c : Z, c = u8 (a + 1 - 0) → u8 (c - 1) = u8 a) as U1
    by (intros a c ->; rewrite wrapu_sub_l; f_equal; lia).
  assert (∀ a c : Z, c = u8 (a + 0 - 1) → u8 (c + 1) = u8 a) as U2
    by (intros a c ->; rewrite wrapu_add_l; f_equal; lia).
  assert (∀ a c : Z, c = u8 (a + 0 - 0) → c = u8 a) as U3
    by (intros a c ->; f_equal; lia).
  assert (∀ a c : Z, c = u8 (a + 1 - 1) → u8 (u8 (c - 1) + 1) = u8 a) as U4
    by (intros a c ->; rewrite wrapu_sub_l, wrapu_add_l; f_equal; lia).
  destruct (REP_EXALTED <=? old), (REP_REVERED <=? old), (REP_HONORED <=? old),
    (REP_EXALTED <=? new), (REP_REVERED <=? new), (REP_HONORED <=? new); simpl in *;
    (split_and!; [|done|done|done]); split; simpl; try done;
    rewrite Z.add_0_r, Z.sub_0_r; first [by apply U1|by apply U2|by apply U4|by apply U3].
Qed.

(** What a change asks for, and what it is limited to. *)
Definition asked (e : FactionEntry) (standing : Z) (incremental : bool) (r : ReputationMgr) : Z :=
  if incremental then
    let x := f32_add (f32_mul (f32_of_Z standing) RATE_REPUTATION_GAIN) f32_half in
    i32 (int32_of x (f32_floor x) + GetReputation (Some e) r)
  else standing.
Definition clamp (z : Z) : Z := Z.max Reputation_Bottom (Z.min Reputation_Cap z).

Lemma wf_entry r k f i e :
  rep_wf r → LookupEntry i = Some e → 0 <= reputationListID e → k = reputationListID e →
  _factions r !! k = Some f → LookupEntry (ID f) = Some e.
Proof.
  intros [[Hf _ _ _ _] _] Hi He -> Hk. destruct (fok_key _ Hf _ _ Hk) as (_ & _ & e' & He' & Hl).
  assert (ID f = i) as ->; [|done]. eapply store_unique; try done; by rewrite Hl.
Qed.

Lemma clamp_match z :
  (if z >? Reputation_Cap then Reputation_Cap
   else if z <? Reputation_Bottom then Reputation_Bottom else z) = clamp z.
Proof.
  unfold clamp, Reputation_Cap, Reputation_Bottom.
  destruct (Z.gtb_spec z 42999), (Z.ltb_spec z (-42000)); lia.
Qed.

Definition one_changed (e : FactionEntry) (standing : Z) (incremental : bool)
    (r : ReputationMgr) (ok : bool) (r' : ReputationMgr) : Prop :=
  rep_wf r' ∧ ok = (0 <=? reputationListID e) ∧
  (∀ k, k ≠ reputationListID e → _factions r' !! k = _factions r !! k) ∧
  (ok = false → r' = r) ∧
  (ok = true → GetReputation (Some e) r' = clamp (asked e standing incremental r) ∧
    ∃ f', _factions r' !! reputationListID e = Some f' ∧
      (showable f' = true → visible f' = true) ∧
      (GetRank (Some e) r' <= REP_HOSTILE → at_war f' = true ∨ peace_forced f' = true) ∧
      (GetRank (Some e) r < GetRank (Some e) r' → _sendFactionIncreased r' = true)).

Lemma GetReputation_at e r f :
  0 <= reputationListID e < 2 ^ 31 → _factions r !! reputationListID e = Some f →
  GetReputation (Some e) r = i32 (GetBaseReputation (Some e) + Standing f).
Proof.
  intros He Hf. unfold GetReputation, GetState, GetState_id, CanHaveReputation.
  rewrite (proj2 (Z.leb_le _ _)) by lia. rewrite wrapu_id by lia. by rewrite Hf.
Qed.

Lemma SetOne_spec i e standing incremental r :
  rep_wf r → LookupEntry i = Some e →
  wp (SetOneFactionReputation (Some e) standing incremental)
     (λ ok r' t, one_changed e standing incremental r ok r') r.
Proof.
  intros Hwf Hi. pose proof Hwf as [Hc Hcomp]. destruct (store_range _ _ Hi) as (_ & Hrange & _).
  unfold SetOneFactionReputation. apply wp_bind, wp_ret, wp_bind, wp_get.
  destruct (Z.lt_ge_cases (reputationListID e) 0) as [Hneg|Hpos].
  { destruct (_factions r !! u32 (reputationListID e)) as [f|] eqn:Ef.
    - exfalso. destruct (fok_key _ (cnt_factions _ _ _ Hc) _ _ Ef) as (_ & Hk & e' & _ & Hl).
      unfold wrapu in Hk. rewrite <- (Z_mod_plus_full _ 1), Z.mod_small in Hk by lia. lia.
    - apply wp_ret. unfold one_changed. rewrite (proj2 (Z.leb_gt _ _)) by done.
      split_and!; done. }
  rewrite (wrapu_id 32) by lia. destruct (Hcomp i e Hi Hpos) as [f Hf]. rewrite Hf.
  pose proof (wf_entry r _ f i e Hwf Hi Hpos eq_refl Hf) as HID.
  pose proof (GetReputation_at e r f ltac:(lia) Hf) as Hrep.
  rewrite (Z.add_comm (Standing f)), <- Hrep, clamp_match.
  fold (asked e standing incremental r). set (s := clamp (asked e standing incremental r)).
  assert (Reputation_Bottom <= s <= Reputation_Cap) as Hs
    by (unfold s, clamp, Reputation_Bottom, Reputation_Cap; lia).
  pose proof (store_base _ _ Hi) as Hb. unfold Reputation_Bottom, Reputation_Cap in Hs, Hb.
  set (base := GetBaseReputation (Some e)) in *.
  rewrite (wraps_id 32 (s - base)) by lia.
  set (old := ReputationToRank (GetReputation (Some e) r)). set (new := ReputationToRank s).
  set (f1 := f <| Standing := s - base |> <| needSend := true |> <| needSave := true |>).
  assert (rank_of f = old) as Hold by (unfold rank_of, old; by rewrite HID, Hrep).
  assert (rank_of f1 = new) as Hnew.
  { unfold rank_of. simpl. rewrite HID. fold base. rewrite wraps_id by lia.
    unfold new. f_equal. lia. }
  unfold set_faction. apply wp_bind, wp_modify.
  set (r1 := r <| _factions ::= <[reputationListID e := f1]> |>).
  assert (counted old new r1) as Hc1.
  { destruct Hc as [C1 C2 C3 C4 C5]. split; simpl.
    - eapply factions_ok_insert; try done. apply (fok_peace _ C1 _ _ Hf).
    - rewrite C2, (cnt_insert _ _ _ f) by done. f_equal.
      change (visible f1) with (visible f). lia.
    - rewrite C3, (cnt_insert _ _ _ f) by done. f_equal. unfold at_least. rewrite Hold, Hnew.
      simpl. lia.
    - rewrite C4, (cnt_insert _ _ _ f) by done. f_equal. unfold at_least. rewrite Hold, Hnew.
      simpl. lia.
    - rewrite C5, (cnt_insert _ _ _ f) by done. f_equal. unfold at_least. rewrite Hold, Hnew.
      simpl. lia. }
  assert (_factions r1 !! reputationListID e = Some f1) as Hf1 by (simpl; by rewrite lookup_insert_eq).
  apply wp_bind. eapply wp_mono; [by apply (SetVisible_state_spec old new _ f1)|].
  intros _ r2 t2 (Hc2 & f2 & E2 & S2 & P2 & W2 & [V2 A2] & I2).
  assert (_factions r2 !! reputationListID e = Some f2) as Hf2 by (rewrite E2; by rewrite lookup_insert_eq).
  (* at war when hostile *)
  apply wp_bind. eapply (wp_mono _ (λ _ r3 _, counted old new r3 ∧
    flag_step (reputationListID e) f2 r2 r3 (λ f3, visible f3 = visible f2 ∧
      (new <= REP_HOSTILE → at_war f3 = true ∨ peace_forced f3 = true)))).
  { apply wp_when; intros Hw.
    - eapply wp_mono; [by apply (SetAtWar_state_spec old new _ f2 true)|].
      intros _ r3 t3 (Hc3 & f3 & E3 & S3 & P3 & W3 & [V3 A3] & I3). split; [done|].
      exists f3. split_and!; try done. intros _. rewrite A3, P3.
      destruct (peace_forced f2); [by right|by left].
    - split; [done|]. apply flag_step_none; [done|]. split; [done|].
      apply Z.leb_gt in Hw. lia. }
  intros _ r3 t3 (Hc3 & f3 & E3 & S3 & P3 & W3 & [V3 A3] & I3).
  assert (_factions r3 !! reputationListID e = Some f3) as Hf3 by (rewrite E3; by rewrite lookup_insert_eq).
  apply wp_bind. eapply (wp_mono _ (λ _ r4 _, counted old new r4 ∧ _factions r4 = _factions r3 ∧
    (old < new → _sendFactionIncreased r4 = true))).
  { apply wp_when; intros Hw; [apply wp_modify|].
    - destruct Hc3. by split_and!.
    - rewrite Z.gtb_ltb, Z.ltb_ge in Hw. split_and!; try done. lia. }
  intros _ r4 t4 (Hc4 & E4 & I4). apply wp_bind.
  eapply wp_mono; [by apply UpdateRankCounters_spec|]. intros _ r5 t5 (Hc5 & _ & E5 & I5).
  do 6 apply wp_bind, wp_emit. apply wp_ret.
  assert (_factions r5 = <[reputationListID e := f3]> (_factions r)) as Efin.
  { rewrite E5, E4, E3, E2. simpl. by rewrite !insert_insert_eq. }
  assert (GetReputation (Some e) r5 = s) as Hfin.
  { rewrite (GetReputation_at e r5 f3); [|lia|by rewrite Efin, lookup_insert_eq].
    destruct S3 as (_ & _ & ->), S2 as (_ & _ & ->). fold base.
    change (Standing f1) with (s - base). rewrite wraps_id; lia. }
  unfold one_changed. rewrite (proj2 (Z.leb_le _ _)) by done. split_and!; try done.
  - split; [done|]. intros i' e' Hi' He'. rewrite Efin.
    destruct (decide (reputationListID e = reputationListID e')) as [->|]; simplify_map_eq;
      [by eexists|by apply (Hcomp i')].
  - intros k' Hk'. by rewrite Efin, lookup_insert_ne.
  - intros _. split; [done|]. exists f3. split_and!.
    + by rewrite Efin, lookup_insert_eq.
    + rewrite V3, V2. rewrite W3, W2. intros ->. apply orb_true_r.
    + unfold GetRank. rewrite Hfin. exact A3.
    + unfold GetRank. rewrite Hfin, I5. exact I4.
Qed.

(** *** The operations keep the invariant *)

Lemma flag_step_complete k f r r' Q : complete r → flag_step k f r r' Q → complete r'.
Proof.
  intros Hc (f' & E & _) i e Hi He. rewrite E. specialize (Hc i e Hi He).
  destruct (decide (k = reputationListID e)) as [->|]; simplify_map_eq; [by eexists|done].
Qed.

Lemma cnt_fmap P (g : FactionState → FactionState) m :
  (∀ f, P (g f) = P f) → cnt P (g <$> m) = cnt P m.
Proof.
  intros Hg. unfold cnt. rewrite map_filter_fmap, map_size_fmap. f_equal. f_equal.
  apply map_filter_ext. intros k f _. simpl. by rewrite Hg.
Qed.

(** Clearing marks on every faction. *)
Lemma rep_wf_fmap (g : FactionState → FactionState) r b :
  (∀ f, same_standing f (g f) ∧ Flags (g f) = Flags f) →
  rep_wf r → rep_wf (r <| _factions ::= fmap g |> <| _sendFactionIncreased := b |>).
Proof.
  intros Hg [[[K P] C2 C3 C4 C5] Hc].
  assert (∀ f, rank_of (g f) = rank_of f) as Hrank by (intros f; apply rank_of_same, Hg).
  assert (∀ f, visible (g f) = visible f) as Hv
    by (intros f; unfold visible; by rewrite (proj2 (Hg f))).
  split; [split; simpl|].
  - split.
    + intros k f. rewrite lookup_fmap. intros (f0 & Hf & ->)%fmap_Some.
      destruct (Hg f0) as [(-> & -> & _) _]. eauto.
    + intros k f. rewrite lookup_fmap. intros (f0 & Hf & ->)%fmap_Some.
      unfold peace_forced, at_war. rewrite (proj2 (Hg f0)). eauto.
  - by rewrite cnt_fmap.
  - rewrite C3, cnt_fmap; [done|]. intros f. unfold at_least. by rewrite Hrank.
  - rewrite C4, cnt_fmap; [done|]. intros f. unfold at_least. by rewrite Hrank.
  - rewrite C5, cnt_fmap; [done|]. intros f. unfold at_least. by rewrite Hrank.
  - intros i e Hi He. simpl. rewrite lookup_fmap. destruct (Hc i e Hi He) as [f ->]. by eexists.
Qed.

Lemma keeps_flags k (m : repact unit) :
  (∀ r f, counted 0 0 r → _factions r !! k = Some f →
    wp m (λ _ r' t, counted 0 0 r' ∧ ∃ Q, flag_step k f r r' Q) r) →
  ∀ r f, rep_wf r → _factions r !! k = Some f → wp m (λ _ r' _, rep_wf r') r.
Proof.
  intros Hm r f [Hc Hcomp] Hf. eapply wp_mono; [by apply (Hm r f)|].
  intros _ r' t [Hc' [Q Hstep]]. split; [done|]. by eapply flag_step_complete.
Qed.

Lemma keeps_if_known k (m : FactionState → repact unit) :
  (∀ r f, rep_wf r → _factions r !! k = Some f → wp (m f) (λ _ r' _, rep_wf r') r) →
  keeps rep_wf (if_known k m).
Proof.
  intros Hm r Hwf. unfold if_known. apply wp_bind, wp_get.
  destruct (_factions r !! k) as [f|] eqn:E; [|by apply wp_ret].
  eapply wp_mono; [by apply (Hm r f)|]. done.
Qed.

Lemma SetVisible_state_wf k r f :
  rep_wf r → _factions r !! k = Some f → wp (SetVisible_state k) (λ _ r' _, rep_wf r') r.
Proof.
  revert r f. apply keeps_flags. intros r f Hc Hf.
  eapply wp_mono; [by apply SetVisible_state_spec|]. intros _ r' t [? ?]. split; [done|]. by eexists.
Qed.
Lemma SetAtWar_state_wf k on r f :
  rep_wf r → _factions r !! k = Some f → wp (SetAtWar_state k on) (λ _ r' _, rep_wf r') r.
Proof.
  revert r f. apply keeps_flags. intros r f Hc Hf.
  eapply wp_mono; [by apply SetAtWar_state_spec|]. intros _ r' t [? ?]. split; [done|]. by eexists.
Qed.
Lemma SetInactive_state_wf k on r f :
  rep_wf r → _factions r !! k = Some f → wp (SetInactive_state k on) (λ _ r' _, rep_wf r') r.
Proof.
  revert r f. apply keeps_flags. intros r f Hc Hf.
  eapply wp_mono; [by apply SetInactive_state_spec|]. intros _ r' t [? ?]. split; [done|]. by eexists.
Qed.

Lemma SetVisible_wf e : keeps rep_wf (SetVisible e).
Proof.
  unfold SetVisible. destruct (reputationListID e <? 0); [apply keeps_ret|].
  apply keeps_if_known. intros r f Hwf Hf. by eapply SetVisible_state_wf.
Qed.
Lemma SetAtWar_wf k on : keeps rep_wf (SetAtWar k on).
Proof.
  apply keeps_if_known. intros r f Hwf Hf. destruct (has_flag _ _); [by apply wp_ret|].
  by eapply SetAtWar_state_wf.
Qed.
Lemma SetInactive_wf k on : keeps rep_wf (SetInactive k on).
Proof. apply keeps_if_known. intros r f Hwf Hf. by eapply SetInactive_state_wf. Qed.
Lemma SetVisible_template_wf id : keeps rep_wf (SetVisible_template id).
Proof.
  unfold SetVisible_template. repeat case_match; try apply keeps_ret. apply SetVisible_wf.
Qed.

Lemma SetOne_wf i e standing incremental :
  LookupEntry i = Some e → keeps rep_wf (SetOneFactionReputation (Some e) standing incremental).
Proof. intros Hi r Hwf. eapply wp_mono; [by eapply SetOne_spec|]. by intros ok r' t []. Qed.

Lemma SendState_wf k r : is_Some (_factions r !! k) → rep_wf r → wp (SendState k) (λ _ r' _, rep_wf r') r.
Proof.
  intros [f Hf] Hwf. unfold SendState. apply wp_bind, wp_get, wp_bind. rewrite Hf.
  apply wp_ret, wp_bind, wp_modify, wp_bind. eapply wp_mono.
  { apply SendState_loop_spec; [apply NoDup_map_iter|]. intros k' f'. apply elem_of_map_iter. }
  intros out r' t (_ & _ & _ & ->). apply wp_emit. simpl. rewrite cleared_all.
  by apply (rep_wf_fmap (λ f, f <| needSend := false |>) r false).
Qed.

Lemma SpillTemplate_wf t standing incremental j :
  (∃ i, sRepSpillover !! i = Some t) → keeps rep_wf (SpillTemplate_entry t standing incremental j).
Proof.
  intros [i Ht]. unfold SpillTemplate_entry. apply keeps_bind; [apply keeps_get|]. intros r0.
  destruct (_ && _) eqn:E; [|apply keeps_ret]. simpl. apply andb_true_iff in E as [E _].
  pose proof (spill_known t i Ht) as Hk. rewrite Forall_forall in Hk.
  destruct (nth_in_or_default j (spill_faction t) 0) as [Hin|H0']; [|by rewrite H0' in E].
  apply list_elem_of_In, Hk in Hin as [H0'|[e He]]; [by rewrite H0' in E|]. rewrite He.
  apply keeps_bind; [by eapply SetOne_wf|]. intros ?. apply keeps_ret.
Qed.

Lemma SpillList_wf f out incremental res flist :
  keeps rep_wf (SpillList_loop f out incremental res flist).
Proof.
  revert res. induction flist as [|id flist IH]; intros res; cbn [SpillList_loop]; [apply keeps_ret|].
  destruct (LookupEntry id) as [calc|] eqn:E; [|apply IH].
  apply keeps_bind; [apply keeps_get|]. intros r0. repeat case_match; try apply IH.
  apply keeps_bind; [by eapply SetOne_wf|]. intros ?. apply IH.
Qed.

Lemma SpillTeam_wf f out incremental : keeps rep_wf (SpillTeam f out incremental).
Proof.
  unfold SpillTeam. destruct (LookupEntry (team f)) as [parent|] eqn:E; [|apply keeps_ret].
  apply keeps_bind; [apply keeps_get|]. intros r0. repeat case_match; try apply keeps_ret.
  apply keeps_bind; [by eapply SetOne_wf|]. intros ?. apply keeps_ret.
Qed.

Lemma Spillover_wf f standing incremental : keeps rep_wf (Spillover f standing incremental).
Proof.
  unfold Spillover. destruct (sRepSpillover !! fe_ID f) as [t|] eqn:E.
  - apply keeps_bind; [|intros; apply keeps_ret]. apply keeps_forM. intros j _.
    apply SpillTemplate_wf. by eexists.
  - destruct (GetFactionTeamList (fe_ID f)); [apply SpillList_wf|].
    destruct (_ && _); [|apply keeps_ret]. apply keeps_bind; [apply SpillTeam_wf|].
    intros [flist|]; [apply SpillList_wf|apply keeps_ret].
Qed.

Lemma SetReputation_wf i f standing incremental :
  LookupEntry i = Some f → keeps rep_wf (SetReputation f standing incremental).
Proof.
  intros Hi. unfold SetReputation. apply keeps_bind; [apply Spillover_wf|]. intros res.
  intros r Hwf. apply wp_bind, wp_get.
  destruct (_factions r !! u32 (reputationListID f)) as [fs|] eqn:E; [|by apply wp_ret].
  apply wp_bind. eapply wp_mono; [by eapply SetOne_spec|].
  intros ok r' t (Hwf' & Hok & Hother & Hfalse & Htrue). apply wp_bind.
  eapply wp_mono; [apply SendState_wf; [|done]|].
  - destruct ok; [|rewrite Hfalse by done; by eexists].
    destruct (Htrue eq_refl) as (_ & f' & Hf' & _). symmetry in Hok. apply Z.leb_le in Hok.
    destruct (store_range _ _ Hi) as (_ & ? & _). rewrite wrapu_id by lia. by eexists.
  - intros u r'' t' Hwf''. by apply wp_ret.
Qed.

Lemma ApplyForceReaction_wf id rank apply : keeps rep_wf (ApplyForceReaction id rank apply).
Proof.
  unfold ApplyForceReaction.
  destruct apply; apply keeps_modify; intros r [[C1 C2 C3 C4 C5] Hc]; split; try done; by split.
Qed.
Lemma SendForceReactions_wf : keeps rep_wf SendForceReactions.
Proof. apply keeps_bind; [apply keeps_get|]. intros r. apply keeps_emit. Qed.

Lemma factions_positions r : rep_wf r → ∀ k, is_Some (_factions r !! k) → 0 <= k < 128.
Proof.
  intros [[Hk _] _] k [f Hf]. destruct (fok_key _ Hk _ _ Hf) as (_ & [Hlow _] & e & He & <-).
  destruct (store_range _ _ He) as (_ & ? & _). lia.
Qed.
Lemma SendInitialReputations_wf : keeps rep_wf SendInitialReputations.
Proof.
  intros r Hwf. unfold SendInitialReputations. apply wp_bind, wp_get, wp_bind.
  pose proof (factions_positions r Hwf) as Hpos.
  eapply wp_mono; [apply (SendInitial_loop_spec (map_iter (_factions r)) (_factions r))|].
  - apply map_iter_sorted.
  - apply NoDup_map_iter.
  - intros k f Hkf%elem_of_map_iter. split; [apply Hpos; by eexists|done].
  - intros k _ Hs. by apply map_iter_keys.
  - lia.
  - vm_compute. discriminate.
  - intros out r' t (_ & _ & ->). apply wp_emit. rewrite cleared_all.
    pose proof (rep_wf_fmap (λ f, f <| needSend := false |>) r (_sendFactionIncreased r)) as Hm.
    destruct r; simpl in *. by apply Hm.
Qed.
Lemma SendStates_wf : keeps rep_wf SendStates.
Proof.
  intros r Hwf. unfold SendStates. apply wp_bind, wp_get.
  assert (∀ l r, (∀ k, k ∈ l → is_Some (_factions r !! k)) → rep_wf r →
    wp (forM_ l SendState) (λ _ r' _, rep_wf r') r) as Hl.
  { clear. induction l as [|k l IH]; intros r Hl Hwf; [by apply wp_ret|]. simpl. apply wp_bind.
    destruct (Hl k) as [f Hf]; [left|]. unfold SendState. apply wp_bind, wp_get, wp_bind.
    rewrite Hf. apply wp_ret, wp_bind, wp_modify, wp_bind. eapply wp_mono.
    { apply SendState_loop_spec; [apply NoDup_map_iter|]. intros k' f'. apply elem_of_map_iter. }
    intros out r' t (_ & _ & _ & ->). apply wp_emit. simpl. rewrite cleared_all. apply IH.
    - intros k' Hk'. simpl. rewrite lookup_fmap. destruct (Hl k') as [f' ->]; [by right|]. by eexists.
    - by apply (rep_wf_fmap (λ f, f <| needSend := false |>) r false). }
  eapply wp_mono; [apply Hl; [|done]|done].
  intros k Hk. by apply map_iter_keys in Hk.
Qed.
Lemma SaveToDB_wf : keeps rep_wf SaveToDB.
Proof.
  intros r Hwf. unfold SaveToDB. apply wp_bind, wp_get. unfold wp.
  rewrite SaveToDB_loop; [|apply NoDup_map_iter|intros k f; apply elem_of_map_iter].
  rewrite saved_all.
  pose proof (rep_wf_fmap (λ f, f <| needSave := false |>) r (_sendFactionIncreased r)) as Hm.
  destruct r; simpl in *. by apply Hm.
Qed.

(** *** Initialisation and loading *)

(** The counters are updated independently of the factions. *)
Lemma UpdateRankCounters_factions old new r :
  ∃ r', UpdateRankCounters old new r = Done tt r' [] ∧ _factions r' = _factions r ∧
    ∀ m, UpdateRankCounters old new (r <| _factions := m |>) = Done tt (r' <| _factions := m |>) [].
Proof.
  unfold UpdateRankCounters, mbind, act_bind.
  destruct (old >=? REP_EXALTED), (old >=? REP_REVERED), (old >=? REP_HONORED),
    (new >=? REP_EXALTED), (new >=? REP_REVERED), (new >=? REP_HONORED); simpl;
    eexists; (split; [reflexivity|]); done.
Qed.

Definition initial_state (e : FactionEntry) : FactionState :=
  mkFactionState (fe_ID e) (reputationListID e) 0 (u8 (GetDefaultStateFlags (Some e))) true true.

(** The factions in the map come from entries outside [l]. *)
Definition from_others (l : list Z) (r : ReputationMgr) : Prop :=
  ∀ k f, _factions r !! k = Some f → ID f ∉ l.

Lemma Initialize_entry_spec i l r :
  i ∉ l → counted 0 0 r → from_others (i :: l) r →
  wp (Initialize_entry i) (λ _ r' t, t = [] ∧ counted 0 0 r' ∧ from_others l r' ∧
    _factions r' = match LookupEntry i with
                   | Some e => if 0 <=? reputationListID e
                               then <[reputationListID e := initial_state e]> (_factions r)
                               else _factions r
                   | None => _factions r
                   end) r.
Proof.
  intros Hil Hc Ho.
  assert (from_others l r) as Hol.
  { intros k f Hf Hin. apply (Ho k f Hf). by right. }
  unfold Initialize_entry. destruct (LookupEntry i) as [e|] eqn:E; [|by apply wp_ret].
  destruct (Z.leb_spec 0 (reputationListID e)) as [Hpos|Hneg]; [|by apply wp_ret].
  cbn [when]. fold (initial_state e). set (f := initial_state e). set (k := reputationListID e).
  pose proof (store_id _ _ E) as HID. destruct (store_range _ _ E) as (_ & Hrange & _).
  pose proof (store_base _ _ E) as Hb. unfold Reputation_Bottom, Reputation_Cap in Hb.
  assert (_factions r !! k = None) as Hnew.
  { apply eq_None_not_Some. intros [f' Hf'].
    destruct (fok_key _ (cnt_factions _ _ _ Hc) _ _ Hf') as (_ & _ & e' & He' & Hl').
    assert (ID f' = i) as Hi; [|by apply (Ho k f' Hf'); rewrite Hi; left].
    eapply store_unique; try done; rewrite Hl'; done. }
  assert (rank_of f = GetBaseRank (Some e)) as Hrank.
  { unfold rank_of, GetBaseRank, f. cbn [ID Standing initial_state]. rewrite HID, E, Z.add_0_r.
    by rewrite wraps_id by lia. }
  set (r1 := r <| _visibleFactionCount ::= λ c, if visible f then u8 (c + 1) else c |>).
  assert (wp (when (has_flag (Flags f) FACTION_FLAG_VISIBLE)
     (modify (λ r, r <| _visibleFactionCount ::= λ c, u8 (c + 1) |>)))
     (λ _ r' t, r' = r1 ∧ t = ([] : list rep_event)) r) as Hvis.
  { unfold r1, visible. apply wp_when; intros ->; [by apply wp_modify|]. by destruct r. }
  apply wp_bind. eapply wp_mono; [exact Hvis|]. intros _ ? ? [-> ->].
  destruct (UpdateRankCounters_factions REP_HOSTILE (GetBaseRank (Some e)) r1)
    as (r2 & E2 & F2 & Hm).
  apply wp_bind. unfold wp at 1. rewrite E2. apply wp_modify.
  pose proof (counted_visible_range _ _ _ Hc) as Hvr.
  assert (counted REP_HOSTILE (GetBaseRank (Some e)) (r1 <| _factions ::= <[k := f]> |>)) as Hc1.
  { destruct Hc as [[K P] C2 C3 C4 C5]. split; simpl.
    - split; intros k' f' Hf'; (destruct (decide (k = k')) as [<-|Hne];
        [rewrite lookup_insert_eq in Hf'; injection Hf' as <-
        |rewrite lookup_insert_ne in Hf' by done; by eauto]).
      + split_and!; [done|lia|lia|]. exists e. unfold f. cbn [ID initial_state]. by rewrite HID.
      + by apply (store_flags _ _ E).
    - rewrite (cnt_insert_new _ _ _ _ Hnew), C2. destruct (visible f); simpl.
      + by rewrite wrapu_add_l.
      + by rewrite Z.add_0_r.
    - rewrite (cnt_insert_new _ _ _ _ Hnew), C3. f_equal. unfold at_least. rewrite Hrank. simpl. lia.
    - rewrite (cnt_insert_new _ _ _ _ Hnew), C4. f_equal. unfold at_least. rewrite Hrank. simpl. lia.
    - rewrite (cnt_insert_new _ _ _ _ Hnew), C5. f_equal. unfold at_least. rewrite Hrank. simpl. lia. }
  pose proof (UpdateRankCounters_spec _ _ _ Hc1) as Hu. unfold wp in Hu.
  change (r1 <| _factions ::= <[k := f]> |>)
    with (r1 <| _factions := <[k := f]> (_factions r1) |>) in Hu.
  rewrite Hm in Hu. destruct Hu as (Hc2 & _).
  change (_factions r1) with (_factions r) in *.
  change (ReputationListID f) with k.
  assert (r2 <| _factions ::= <[k := f]> |> = r2 <| _factions := <[k := f]> (_factions r) |>) as ->
    by (unfold setf; by rewrite F2).
  split_and!; [done|done| |done].
  intros k' f'. simpl. destruct (decide (k = k')) as [<-|Hne]; simplify_map_eq.
  - intros [= <-]. exact Hil.
  - apply Hol.
Qed.

Lemma Initialize_loop l r :
  NoDup l → counted 0 0 r → from_others l r →
  wp (forM_ l Initialize_entry) (λ _ r' t, t = [] ∧ counted 0 0 r' ∧
    (∀ i e, i ∈ l → LookupEntry i = Some e → 0 <= reputationListID e →
      _factions r' !! reputationListID e = Some (initial_state e)) ∧
    (∀ k, ((∀ i e, i ∈ l → LookupEntry i = Some e → reputationListID e ≠ k) →
      _factions r' !! k = _factions r !! k))) r.
Proof.
  intros Hn. revert r. induction Hn as [|i l Hi Hn IH]; intros r Hc Ho; cbn [forM_].
  { apply wp_ret. split_and!; [done|done| |done]. by intros ? ? ?%elem_of_nil. }
  apply wp_bind. eapply wp_mono; [by apply (Initialize_entry_spec i l)|].
  intros _ r1 t1 (-> & Hc1 & Ho1 & E1). eapply wp_mono; [by apply IH|].
  intros _ r2 t2 (-> & Hc2 & Hin & Hout). split_and!; [done|done|..].
  - intros j e [->|Hj]%elem_of_cons Hlook Hpos; [|by apply (Hin j)].
    rewrite Hout.
    + rewrite E1, Hlook, (proj2 (Z.leb_le _ _)) by done. by rewrite lookup_insert_eq.
    + intros i' e' Hi' He' Heq. assert (i' = i) as ->; [|done].
      eapply store_unique; [exact He'|exact Hlook|lia|done].
  - intros k Hk. rewrite Hout.
    + rewrite E1. destruct (LookupEntry i) as [e|] eqn:E; [|done].
      destruct (0 <=? reputationListID e); [|done]. rewrite lookup_insert_ne; [done|].
      apply (Hk i e); [left|done].
    + intros j e Hj. apply Hk. by right.
Qed.

Lemma row_ids_lookup i e :
  LookupEntry i = Some e → 0 <= reputationListID e → i ∈ tail row_ids.
Proof.
  intros Hi He. pose proof (store_range _ _ Hi) as (Hr & _ & Hrows).
  assert (i ≠ 0) as Hi0.
  { intros ->. pose proof (store_zero _ Hi). lia. }
  assert (i < sFactionStore_rows) as Hlt.
  { unfold LookupEntry in Hi. rewrite Z.geb_leb in Hi.
    destruct (Z.leb_spec sFactionStore_rows i); [done|lia]. }
  unfold row_ids. destruct (Z.to_nat sFactionStore_rows) as [|n] eqn:En; [lia|].
  cbn [seq fmap list_fmap tail]. apply list_elem_of_fmap. exists (Z.to_nat i). split; [lia|].
  apply elem_of_seq. lia.
Qed.

Lemma Initialize_spec r :
  wp Reputation_Initialize (λ _ r' t, t = [] ∧ rep_wf r' ∧
    ∀ i e, LookupEntry i = Some e → 0 <= reputationListID e →
      _factions r' !! reputationListID e = Some (initial_state e)) r.
Proof.
  unfold Reputation_Initialize. apply wp_bind, wp_modify.
  eapply wp_mono; [apply (Initialize_loop (tail row_ids))|].
  - assert (NoDup row_ids) as Hn by (apply NoDup_fmap_2; [apply _|apply NoDup_seq]).
    destruct row_ids; [constructor|]. by apply NoDup_cons in Hn as [_ Hn].
  - split; simpl; rewrite ?cnt_empty; try done.
  - intros k f Hf. simpl in Hf. by rewrite lookup_empty in Hf.
  - intros _ r' t (-> & Hc & Hin & _). split_and!; [done|split; [done|]|].
    + intros i e Hi He. rewrite (Hin i e); [by eexists|by eapply row_ids_lookup|done..].
    + intros i e Hi He. apply (Hin i e); [by eapply row_ids_lookup|done..].
Qed.

(** The state of a row being loaded: only the faction at [k] has changed, and
    its standing is that of the row. *)
Definition loading (k standing : Z) (r r' : ReputationMgr) : Prop :=
  counted 0 0 r' ∧ complete r' ∧
  ∃ f', _factions r' = <[k := f']> (_factions r) ∧ Standing f' = standing.

Lemma loading_step k standing r0 r f (m : repact unit) :
  loading k standing r0 r → _factions r !! k = Some f →
  wp m (λ _ r' t, counted 0 0 r' ∧ ∃ Q, flag_step k f r r' Q) r →
  wp m (λ _ r' t, loading k standing r0 r') r.
Proof.
  intros (Hc & Hcomp & f0 & E0 & S0) Hf Hm. eapply wp_mono; [exact Hm|].
  intros _ r' t (Hc' & Q & Hstep). split_and!; [done|by eapply flag_step_complete|].
  destruct Hstep as (f' & E & (_ & _ & S) & _). exists f'. split.
  - rewrite E, E0. by rewrite insert_insert_eq.
  - rewrite S. rewrite E0, lookup_insert_eq in Hf. by injection Hf as <-.
Qed.
Lemma loading_at k standing r0 r :
  loading k standing r0 r → ∃ f, _factions r !! k = Some f.
Proof. intros (_ & _ & f' & E & _). exists f'. by rewrite E, lookup_insert_eq. Qed.

Lemma loading_visible k standing r0 : keeps (loading k standing r0) (SetVisible_state k).
Proof.
  intros r Hl. destruct (loading_at _ _ _ _ Hl) as [f Hf]. apply (loading_step _ _ _ _ f _ Hl Hf).
  eapply wp_mono; [apply (SetVisible_state_spec 0 0 k f); [apply Hl|done]|].
  intros _ r' t [? ?]. split; [done|]. by eexists.
Qed.
Lemma loading_war k standing r0 on : keeps (loading k standing r0) (SetAtWar_state k on).
Proof.
  intros r Hl. destruct (loading_at _ _ _ _ Hl) as [f Hf]. apply (loading_step _ _ _ _ f _ Hl Hf).
  eapply wp_mono; [apply (SetAtWar_state_spec 0 0 k f); [apply Hl|done]|].
  intros _ r' t [? ?]. split; [done|]. by eexists.
Qed.
Lemma loading_inactive k standing r0 on : keeps (loading k standing r0) (SetInactive_state k on).
Proof.
  intros r Hl. destruct (loading_at _ _ _ _ Hl) as [f Hf]. apply (loading_step _ _ _ _ f _ Hl Hf).
  eapply wp_mono; [apply (SetInactive_state_spec 0 0 k f); [apply Hl|done]|].
  intros _ r' t [? ?]. split; [done|]. by eexists.
Qed.
Lemma loading_with k standing r0 (g : FactionState → repact unit) :
  (∀ r f, loading k standing r0 r → _factions r !! k = Some f →
     wp (g f) (λ _ r' _, loading k standing r0 r') r) →
  keeps (loading k standing r0) (with_faction k g).
Proof.
  intros Hg r Hl. destruct (loading_at _ _ _ _ Hl) as [f Hf].
  apply (wp_with_faction _ _ _ _ f Hf). by apply Hg.
Qed.

Lemma loading_marks k standing r0 r f b1 b2 :
  loading k standing r0 r → _factions r !! k = Some f →
  loading k standing r0 (r <| _factions ::= <[k := f <| needSend := b1 |> <| needSave := b2 |>]> |>).
Proof.
  intros (Hc & Hcomp & f0 & E0 & S0) Hf. set (f' := f <| needSend := b1 |> <| needSave := b2 |>).
  pose proof (counted_visible_range _ _ _ Hc) as Hv.
  pose proof (counted_flags 0 0 r k f f' Hc Hf ltac:(done) (fok_peace _ (cnt_factions _ _ _ Hc) _ _ Hf))
    as [C1 C2 C3 C4 C5]. split_and!.
  - split; simpl in *; try done. rewrite <- C2. change (visible f') with (visible f).
    rewrite wrapu_id; lia.
  - intros i e Hi He. simpl. specialize (Hcomp i e Hi He).
    destruct (decide (k = reputationListID e)) as [->|]; simplify_map_eq; [by eexists|done].
  - exists f'. simpl. rewrite E0, insert_insert_eq. split; [done|].
    rewrite E0, lookup_insert_eq in Hf. by injection Hf as <-.
Qed.

Lemma LoadFromDB_row_spec i e standing flags r f :
  rep_wf r → LookupEntry (u16 i) = Some e → 0 <= reputationListID e →
  _factions r !! reputationListID e = Some f → Standing f = 0 →
  wp (LoadFromDB_row (i, standing, flags))
    (λ _ r' t, loading (reputationListID e) standing r r') r.
Proof.
  intros Hwf Hi Hpos Hf H0'. pose proof Hwf as [Hc Hcomp].
  pose proof (wf_entry r _ f _ e Hwf Hi Hpos eq_refl Hf) as HID.
  pose proof (store_base _ _ Hi) as Hb. unfold Reputation_Bottom, Reputation_Cap in Hb.
  unfold LoadFromDB_row. rewrite Hi, (proj2 (Z.leb_le _ _)) by done. cbn [when].
  set (k := reputationListID e) in *. set (base := GetBaseReputation (Some e)) in *.
  apply wp_bind, wp_modify.
  assert (r <| _factions ::= map_index (mkFactionState 0 0 0 0 false false) k |> = r) as ->.
  { unfold setf. rewrite map_index_present by (by eexists). by destruct r. }
  apply wp_bind, (wp_with_faction _ _ _ _ f Hf). unfold set_faction. apply wp_modify.
  set (f1 := f <| Standing := standing |>). set (r1 := r <| _factions ::= <[k := f1]> |>).
  set (old := ReputationToRank base). set (new := ReputationToRank (i32 (base + standing))).
  assert (counted old new r1) as Hc1.
  { assert (rank_of f = old) as Hold.
    { unfold rank_of. rewrite HID, H0', Z.add_0_r. fold base. by rewrite wraps_id by lia. }
    assert (rank_of f1 = new) as Hnew by (unfold rank_of; change (ID f1) with (ID f); by rewrite HID).
    destruct Hc as [C1 C2 C3 C4 C5]. split; simpl.
    - eapply factions_ok_insert; try done. apply (fok_peace _ C1 _ _ Hf).
    - rewrite C2, (cnt_insert _ _ _ f) by done. f_equal.
      change (visible f1) with (visible f). lia.
    - rewrite C3, (cnt_insert _ _ _ f) by done. f_equal. unfold at_least. rewrite Hold, Hnew.
      simpl. lia.
    - rewrite C4, (cnt_insert _ _ _ f) by done. f_equal. unfold at_least. rewrite Hold, Hnew.
      simpl. lia.
    - rewrite C5, (cnt_insert _ _ _ f) by done. f_equal. unfold at_least. rewrite Hold, Hnew.
      simpl. lia. }
  apply wp_bind. eapply wp_mono; [by apply UpdateRankCounters_spec|].
  intros _ r2 t2 (Hc2 & _ & E2 & _).
  assert (loading k standing r r2) as Hl2.
  { split_and!; [done| |exists f1; by rewrite E2].
    intros i' e' Hi' He'. rewrite E2. simpl. specialize (Hcomp i' e' Hi' He').
    destruct (decide (k = reputationListID e')) as [->|]; simplify_map_eq; [by eexists|done]. }
  match goal with |- wp ?m _ _ => assert (keeps (loading k standing r) m) as Hk end.
  { apply keeps_bind; [apply keeps_when, loading_visible|intros _].
    apply keeps_bind; [apply keeps_when, loading_inactive|intros _].
    apply keeps_bind; [|intros _; apply keeps_bind; [apply keeps_get|intros r0];
      apply keeps_bind; [apply keeps_when, loading_war|intros _]].
    - destruct (has_flag _ _); [apply loading_war|]. apply loading_with. intros r' f' Hl' Hf'.
      apply wp_when; [|done]. intros _. by apply loading_war.
    - apply loading_with. intros r' f' Hl' Hf'. apply wp_when; [|done]. intros _.
      unfold set_faction. apply wp_modify. by apply loading_marks. }
  eapply wp_mono; [by apply Hk|]. intros u r' t Hl'. exact Hl'.
Qed.

(** The standing that the rows give to faction [i]. *)
Fixpoint row_standing (rows : list (Z * Z * Z)) (i : Z) : option Z :=
  match rows with
  | [] => None
  | row :: rows' => if decide (u16 row.1.1 = i) then Some row.1.2 else row_standing rows' i
  end.

Lemma row_standing_None rows i : i ∉ (λ row : Z * Z * Z, u16 row.1.1) <$> rows → row_standing rows i = None.
Proof.
  induction rows as [|row rows IH]; intros Hi; [done|]. cbn [row_standing].
  rewrite decide_False by set_solver. apply IH. set_solver.
Qed.

Lemma load_rows rows r :
  NoDup ((λ row : Z * Z * Z, u16 row.1.1) <$> rows) → rep_wf r →
  (∀ row e f, row ∈ rows → LookupEntry (u16 row.1.1) = Some e →
    _factions r !! reputationListID e = Some f → Standing f = 0) →
  wp (forM_ rows LoadFromDB_row) (λ _ r' t, rep_wf r' ∧
    ∀ i e, LookupEntry i = Some e → 0 <= reputationListID e →
      Standing <$> _factions r' !! reputationListID e =
        match row_standing rows i with
        | Some s => Some s
        | None => Standing <$> _factions r !! reputationListID e
        end) r.
Proof.
  revert r. induction rows as [|[[i0 s0] fl0] rows IH]; intros r Hn Hwf Hz; cbn [forM_].
  { by apply wp_ret. }
  cbn [fmap list_fmap fst snd] in Hn. apply NoDup_cons in Hn as [Hn1 Hn2].
  assert (wp (LoadFromDB_row (i0, s0, fl0)) (λ _ r1 t, rep_wf r1 ∧
    ∀ i e, LookupEntry i = Some e → 0 <= reputationListID e →
      Standing <$> _factions r1 !! reputationListID e =
        if decide (u16 i0 = i) then Some s0 else Standing <$> _factions r !! reputationListID e) r) as Hrow.
  { destruct (LookupEntry (u16 i0)) as [e0|] eqn:E0;
      [destruct (Z.le_gt_cases 0 (reputationListID e0)) as [Hpos|Hneg]|].
    - pose proof Hwf as [_ Hcomp]. destruct (Hcomp _ _ E0 Hpos) as [f0 Hf0].
      eapply wp_mono; [apply (LoadFromDB_row_spec i0 e0 s0 fl0 r f0); try done|].
      { apply (Hz (i0, s0, fl0) e0 f0); [left|done|done]. }
      intros _ r1 t1 (Hc1 & Hcomp1 & f' & E1 & S1). split; [done|]. intros i e Hi He. rewrite E1.
      destruct (decide (u16 i0 = i)) as [<-|Hne].
      + rewrite E0 in Hi. injection Hi as <-. rewrite lookup_insert_eq. simpl. by rewrite S1.
      + rewrite lookup_insert_ne; [done|]. intros Heq. apply Hne.
        eapply store_unique; [exact E0|exact Hi|done|done].
    - unfold LoadFromDB_row. rewrite E0, (proj2 (Z.leb_gt _ _)) by done. apply wp_ret. split; [done|].
      intros i e Hi He. rewrite decide_False; [done|]. intros <-. rewrite E0 in Hi.
      injection Hi as <-. lia.
    - unfold LoadFromDB_row. rewrite E0. apply wp_ret. split; [done|].
      intros i e Hi He. rewrite decide_False; [done|]. intros <-. by rewrite E0 in Hi. }
  apply wp_bind. eapply wp_mono; [exact Hrow|]. intros _ r1 t1 (Hwf1 & H1).
  assert (∀ row e f, row ∈ rows → LookupEntry (u16 row.1.1) = Some e →
    0 <= reputationListID e → _factions r1 !! reputationListID e = Some f → Standing f = 0) as Hz1.
  { intros row e f Hin He Hpos Hf. specialize (H1 _ _ He Hpos). rewrite Hf in H1.
    rewrite decide_False in H1; [|intros Heq; apply Hn1; rewrite Heq; apply list_elem_of_fmap; by exists row].
    destruct (_factions r !! reputationListID e) as [f0|] eqn:Ef; [|done].
    injection H1 as ->. apply (Hz row e f0); [by right|done|done]. }
  eapply wp_mono; [apply IH; [done|done|]|].
  - intros row e f Hin He Hf. destruct (Z.le_gt_cases 0 (reputationListID e)) as [Hpos|Hneg].
    + by eapply Hz1.
    + destruct Hwf1 as [[[K _] _ _ _ _] _]. destruct (K _ _ Hf) as (_ & ? & _). lia.
  - intros _ r2 t2 (Hwf2 & H2). split; [done|]. intros i e Hi He. rewrite (H2 i e Hi He).
    cbn [row_standing fst snd]. rewrite (H1 i e Hi He). destruct (decide (u16 i0 = i)) as [<-|Hne]; [|done].
    by rewrite row_standing_None.
Qed.
End Invariant.

(** ** Properties of the manager *)

(** The operations the rest of the server calls. *)
Inductive rep_op :=
  | op_SetReputation (faction standing : Z) (incremental : bool)
  | op_SetOneFactionReputation (faction standing : Z) (incremental : bool)
  | op_SetVisible (faction : Z)
  | op_SetVisible_template (faction : Z)
  | op_SetAtWar (repListID : Z) (on : bool)
  | op_SetInactive (repListID : Z) (on : bool)
  | op_ApplyForceReaction (faction rank : Z) (apply : bool)
  | op_SendInitialReputations | op_SendForceReactions | op_SendStates
  | op_SaveToDB
  | op_LoadFromDB (rows : list (Z * Z * Z)).

(** The rows of one character: the key of the table is the character and the
    faction, so a faction has at most one. *)
Definition distinct_rows (rows : list (Z * Z * Z)) : Prop :=
  NoDup ((λ row : Z * Z * Z, u16 row.1.1) <$> rows).
Definition op_ok (o : rep_op) : Prop :=
  match o with op_LoadFromDB rows => distinct_rows rows | _ => True end.

Section Properties.
Context `{StoreLaws}.

(** A faction is named by its id; unknown ids are not passed on. *)
Definition for_faction (id : Z) (m : FactionEntry → repact unit) : repact unit :=
  match LookupEntry id with Some e => m e | None => mret tt end.
Definition run_rep_op (o : rep_op) : repact unit :=
  match o with
  | op_SetReputation f s inc => for_faction f (λ e, SetReputation e s inc ;; mret tt)
  | op_SetOneFactionReputation f s inc =>
      for_faction f (λ e, SetOneFactionReputation (Some e) s inc ;; mret tt)
  | op_SetVisible f => for_faction f SetVisible
  | op_SetVisible_template f => SetVisible_template f
  | op_SetAtWar k on => SetAtWar k on
  | op_SetInactive k on => SetInactive k on
  | op_ApplyForceReaction f rank apply => ApplyForceReaction f rank apply
  | op_SendInitialReputations => SendInitialReputations
  | op_SendForceReactions => SendForceReactions
  | op_SendStates => SendStates
  | op_SaveToDB => SaveToDB
  | op_LoadFromDB rows => LoadFromDB rows
  end.

Lemma LoadFromDB_spec rows r :
  distinct_rows rows →
  wp (LoadFromDB rows) (λ _ r' t, rep_wf r' ∧
    ∀ i e, LookupEntry i = Some e → 0 <= reputationListID e →
      Standing <$> _factions r' !! reputationListID e =
        Some (default 0 (row_standing rows i))) r.
Proof.
  intros Hn. unfold LoadFromDB. apply wp_bind. eapply wp_mono; [apply Initialize_spec|].
  intros _ r1 t1 (_ & Hwf & Hinit). eapply wp_mono; [apply load_rows; [done|done|]|].
  - intros row e f _ He Hf. destruct (Z.le_gt_cases 0 (reputationListID e)) as [Hpos|Hneg].
    + rewrite (Hinit _ _ He Hpos) in Hf. by injection Hf as <-.
    + destruct Hwf as [[[K _] _ _ _ _] _]. destruct (K _ _ Hf) as (_ & ? & _). lia.
  - intros _ r2 t2 (Hwf2 & H2). split; [done|]. intros i e Hi He. rewrite (H2 i e Hi He).
    rewrite (Hinit i e Hi He). simpl. by destruct (row_standing rows i).
Qed.

Lemma run_rep_op_wf o : op_ok o → keeps rep_wf (run_rep_op o).
Proof.
  intros Hok. destruct o; simpl; unfold for_faction; repeat case_match; try apply keeps_ret;
    eauto using SetVisible_wf, SetVisible_template_wf, SetAtWar_wf, SetInactive_wf,
      ApplyForceReaction_wf, SendInitialReputations_wf, SendForceReactions_wf, SendStates_wf,
      SaveToDB_wf.
  - apply keeps_bind; [by eapply SetReputation_wf|]. intros _. apply keeps_ret.
  - apply keeps_bind; [by eapply SetOne_wf|]. intros _. apply keeps_ret.
  - intros r _. eapply wp_mono; [by apply LoadFromDB_spec|]. by intros u r' t [? _].
Qed.

(** C11: From the initialisation on, through any sequence of gains, losses, flag
    changes, forced reactions, packets, saves and loads of rows of distinct factions
    (the table's key), no operation stops at a fault (the assertion on a packet's
    size included) and the manager stays consistent: every reputation faction of the
    store has its state, under its list position; the counters of visible, honored,
    revered and exalted factions are the numbers of such factions (in 8 bits); no
    faction forced to peace is ever at war. This is of sound client data
    (StoreLaws): an entry is stored under its own id of 16 bits (0 is no reputation
    faction), no two factions share a list position, positions are below the 128
    that the client shows (beyond, the loop that fills the packet of initial
    reputations runs into the assertion), base values are within -42000 and 42999,
    no faction is by default at war and forced to peace, and spillover templates
    name known factions. *)
Theorem reputation_invariant ops r0 :
  Forall op_ok ops →
  wp (Reputation_Initialize ;; forM_ ops run_rep_op) (λ _ r _, rep_wf r) r0.
Proof.
  intros Hops. rewrite Forall_forall in Hops.
  apply wp_bind. eapply wp_mono; [apply Initialize_spec|].
  intros _ r1 t1 (_ & Hwf & _). eapply wp_mono.
  - apply (keeps_forM rep_wf ops run_rep_op); [|exact Hwf].
    intros o Ho. apply run_rep_op_wf, Hops, Ho.
  - by intros u r2 t2 Hr.
Qed.

(** [SetOneFactionReputation] sets what is asked, within -42000 and
    42999, on that faction only: the reputation afterwards is the new value,
    or the old one plus the gain, clamped; the faction becomes visible if it
    may be shown, is at war when the new rank is hostile or worse unless
    peace is forced, and a rank gained is announced. *)
Theorem set_one_reputation i e standing incremental r :
  rep_wf r → LookupEntry i = Some e →
  wp (SetOneFactionReputation (Some e) standing incremental)
     (λ ok r' t, one_changed e standing incremental r ok r') r.
Proof. apply SetOne_spec. Qed.

(** [LoadFromDB] restores the standings: whatever the manager held, after
    loading rows of distinct factions each faction of the store has the
    standing of its row (0 without a row), and the manager is consistent. *)
Theorem load_reputation rows r :
  distinct_rows rows →
  wp (LoadFromDB rows) (λ _ r' t, rep_wf r' ∧
    ∀ i e, LookupEntry i = Some e → 0 <= reputationListID e →
      Standing <$> _factions r' !! reputationListID e =
        Some (default 0 (row_standing rows i))) r.
Proof. apply LoadFromDB_spec. Qed.
End Properties.

Lemma rep_env0_lookup i e :
  @LookupEntry rep_env0 i = Some e →
  (i = 72 ∧ e = mkFactionEntry 72 19 [1; 0; 0; 0] [0; 0; 0; 0] [3100; 0; 0; 0] [17; 0; 0; 0] 469
             f32_half f32_half 5) ∨
  (i = 76 ∧ e = mkFactionEntry 76 14 [2; 1; 0; 0] [0; 0; 0; 0] [3100; -42000; 0; 0] [17; 6; 0; 0] 67
             f32_half f32_half 5) ∨
  (i = 47 ∧ e = mkFactionEntry 47 20 [1; 0; 0; 0] [0; 0; 0; 0] [3100; 0; 0; 0] [17; 0; 0; 0] 469
             f32_half f32_half 5).
Proof.
  unfold LookupEntry. destruct (i >=? @sFactionStore_rows rep_env0); [done|].
  simpl. unfold rep_store0.
  intros [[<- <-]|[_ [[<- <-]|[_ [<- <-]%lookup_singleton_Some]]%lookup_insert_Some]]%lookup_insert_Some;
    auto.
Qed.

#[export] Instance rep_env0_laws : @StoreLaws rep_env0.
Proof.
  split.
  - intros i e Hi. by destruct (rep_env0_lookup i e Hi) as [[-> ->]|[[-> ->]|[-> ->]]].
  - intros i j e e' Hi Hj. destruct (rep_env0_lookup i e Hi) as [[-> ->]|[[-> ->]|[-> ->]]],
      (rep_env0_lookup j e' Hj) as [[-> ->]|[[-> ->]|[-> ->]]]; done.
  - intros i e Hi. destruct (rep_env0_lookup i e Hi) as [[-> ->]|[[-> ->]|[-> ->]]]; simpl; lia.
  - intros e He. by destruct (rep_env0_lookup 0 e He) as [[? ->]|[[? ->]|[? ->]]].
  - intros i e Hi. destruct (rep_env0_lookup i e Hi) as [[-> ->]|[[-> ->]|[-> ->]]];
      vm_compute; split; discriminate.
  - intros i e Hi. by destruct (rep_env0_lookup i e Hi) as [[-> ->]|[[-> ->]|[-> ->]]].
  - intros t i Ht. simpl in Ht. by rewrite lookup_empty in Ht.
Qed.

Lemma rep0_wf : @rep_wf rep_env0 rep0.
Proof.
  pose proof (@Initialize_spec rep_env0 rep_env0_laws (mkReputationMgr ∅ ∅ 0 0 0 0 true)) as Hi.
  unfold wp, rep0 in *. destruct (Reputation_Initialize _); [|done]. apply Hi.
Qed.

Lemma reputation_invariant_witness :
  wp (@Reputation_Initialize rep_env0 ;;
      forM_ [op_LoadFromDB [(72, 5000, 17); (76, -100, 2)]; op_SendInitialReputations;
             op_SetReputation 72 40000 true; op_SetAtWar 19 true; op_SendStates; op_SaveToDB]
        (@run_rep_op rep_env0)) (λ _ r _, @rep_wf rep_env0 r) rep0.
Proof.
  apply (@reputation_invariant rep_env0 rep_env0_laws).
  repeat constructor; vm_compute; set_solver.
Defined.

Lemma set_one_reputation_witness :
  ∃ e, @LookupEntry rep_env0 72 = Some e ∧
  wp (@SetOneFactionReputation rep_env0 (Some e) 50000 true)
    (λ ok r' t, ok = true ∧ @GetReputation rep_env0 (Some e) r' = 42999) rep0.
Proof.
  eexists. split; [vm_compute; reflexivity|].
  eapply wp_mono; [apply (@set_one_reputation rep_env0 rep_env0_laws 72);
    [exact rep0_wf|vm_compute; reflexivity]|].
  intros ok r' t (_ & -> & _ & _ & Ht). split; [reflexivity|].
  destruct (Ht eq_refl) as [-> _]. vm_compute. reflexivity.
Defined.

Lemma load_reputation_witness :
  wp (@LoadFromDB rep_env0 [(72, 5000, 19); (76, 100, 6)])
    (λ _ r' t, @rep_wf rep_env0 r' ∧ Standing <$> _factions r' !! 19 = Some 5000 ∧
               Standing <$> _factions r' !! 20 = Some 0) rep0.
Proof.
  eapply wp_mono; [apply (@load_reputation rep_env0 rep_env0_laws [(72, 5000, 19); (76, 100, 6)])|].
  - vm_compute. repeat constructor; set_solver.
  - intros _ r' t (Hwf & Hs). split; [exact Hwf|]. split.
    + refine (eq_trans (Hs 72 (mkFactionEntry 72 19 [1; 0; 0; 0] [0; 0; 0; 0] [3100; 0; 0; 0]
        [17; 0; 0; 0] 469 f32_half f32_half 5) _ _) _); [vm_compute; reflexivity|simpl; lia|].
      vm_compute. reflexivity.
    + refine (eq_trans (Hs 47 (mkFactionEntry 47 20 [1; 0; 0; 0] [0; 0; 0; 0] [3100; 0; 0; 0]
        [17; 0; 0; 0] 469 f32_half f32_half 5) _ _) _); [vm_compute; reflexivity|simpl; lia|].
      vm_compute. reflexivity.
Defined.

(** *** The gain rate *)

Lemma gain_points :
  forallb (λ s, match f32_floor (f32_add (f32_mul (f32_of_Z s) f32_one) f32_half) with
                | Some z => z =? s | None => false end) (seqZ (-1000) 2001) = true.
Proof. vm_compute. reflexivity. Qed.

(** At the default gain rate of 1.0 the float arithmetic of an incremental
    change loses nothing: a gain or loss of up to 1000 points asks for exactly
    that change (rounding a product instead of truncating it, which the comment
    in the code worries about, does keep every point). *)
Theorem gain_exact `{RepEnv} e standing r :
  RATE_REPUTATION_GAIN = f32_one → -1000 <= standing <= 1000 →
  asked e standing true r = i32 (standing + GetReputation (Some e) r).
Proof.
  intros Hrate Hs. unfold asked. rewrite Hrate. do 2 f_equal.
  pose proof gain_points as Hp. rewrite forallb_forall in Hp.
  specialize (Hp standing). destruct (f32_floor _) as [z|].
  - rewrite (proj1 (Z.eqb_eq z standing)).
    + simpl. rewrite (proj2 (Z.leb_le _ _)), (proj2 (Z.ltb_lt _ _)) by lia. done.
    + apply Hp. apply list_elem_of_In, elem_of_seqZ. lia.
  - discriminate Hp. apply list_elem_of_In, elem_of_seqZ. lia.
Qed.

Lemma gain_exact_witness :
  let e := mkFactionEntry 72 19 [1; 0; 0; 0] [0; 0; 0; 0] [3100; 0; 0; 0] [17; 0; 0; 0] 469
             f32_half f32_half 5 in
  @asked rep_env0 e (-75) true rep0 = i32 (-75 + @GetReputation rep_env0 (Some e) rep0).
Proof. intros e. apply (@gain_exact rep_env0 e (-75) rep0 eq_refl). lia. Defined.
