(* ===== verification/Channel.v ===== *)
(** Chat channels: src/server/game/Chat/Channels/Channel.cpp and Channel.h.  A
    channel keeps its members with their flags, its ban list, owner, password and
    settings; its operations send packets to members, maintain each player's own
    list of channels and save the channel to the character database. *)

From S2P Require Import Prelude ByteBuffer Util Rbac.
Open Scope string_scope.
Open Scope list_scope.
Open Scope Z_scope.

(** ** Constants *)

Definition CHAT_JOINED_NOTICE : Z := 0x00.
Definition CHAT_LEFT_NOTICE : Z := 0x01.
Definition CHAT_YOU_JOINED_NOTICE : Z := 0x02.
Definition CHAT_YOU_LEFT_NOTICE : Z := 0x03.
Definition CHAT_WRONG_PASSWORD_NOTICE : Z := 0x04.
Definition CHAT_NOT_MEMBER_NOTICE : Z := 0x05.
Definition CHAT_NOT_MODERATOR_NOTICE : Z := 0x06.
Definition CHAT_PASSWORD_CHANGED_NOTICE : Z := 0x07.
Definition CHAT_OWNER_CHANGED_NOTICE : Z := 0x08.
Definition CHAT_PLAYER_NOT_FOUND_NOTICE : Z := 0x09.
Definition CHAT_NOT_OWNER_NOTICE : Z := 0x0A.
Definition CHAT_CHANNEL_OWNER_NOTICE : Z := 0x0B.
Definition CHAT_MODE_CHANGE_NOTICE : Z := 0x0C.
Definition CHAT_ANNOUNCEMENTS_ON_NOTICE : Z := 0x0D.
Definition CHAT_ANNOUNCEMENTS_OFF_NOTICE : Z := 0x0E.
Definition CHAT_MUTED_NOTICE : Z := 0x11.
Definition CHAT_PLAYER_KICKED_NOTICE : Z := 0x12.
Definition CHAT_BANNED_NOTICE : Z := 0x13.
Definition CHAT_PLAYER_BANNED_NOTICE : Z := 0x14.
Definition CHAT_PLAYER_UNBANNED_NOTICE : Z := 0x15.
Definition CHAT_PLAYER_NOT_BANNED_NOTICE : Z := 0x16.
Definition CHAT_PLAYER_ALREADY_MEMBER_NOTICE : Z := 0x17.
Definition CHAT_INVITE_NOTICE : Z := 0x18.
Definition CHAT_INVITE_WRONG_FACTION_NOTICE : Z := 0x19.
Definition CHAT_WRONG_FACTION_NOTICE : Z := 0x1A.
Definition CHAT_INVALID_NAME_NOTICE : Z := 0x1B.
Definition CHAT_NOT_MODERATED_NOTICE : Z := 0x1C.
Definition CHAT_PLAYER_INVITED_NOTICE : Z := 0x1D.
Definition CHAT_PLAYER_INVITE_BANNED_NOTICE : Z := 0x1E.
Definition CHAT_THROTTLED_NOTICE : Z := 0x1F.
Definition CHAT_NOT_IN_AREA_NOTICE : Z := 0x20.
Definition CHAT_NOT_IN_LFG_NOTICE : Z := 0x21.
Definition CHAT_VOICE_ON_NOTICE : Z := 0x22.
Definition CHAT_VOICE_OFF_NOTICE : Z := 0x23.

Definition CHANNEL_FLAG_CUSTOM : Z := 0x01.
Definition CHANNEL_FLAG_TRADE : Z := 0x04.
Definition CHANNEL_FLAG_NOT_LFG : Z := 0x08.
Definition CHANNEL_FLAG_GENERAL : Z := 0x10.
Definition CHANNEL_FLAG_CITY : Z := 0x20.
Definition CHANNEL_FLAG_LFG : Z := 0x40.
Definition CHANNEL_DBC_FLAG_TRADE : Z := 0x00008.
Definition CHANNEL_DBC_FLAG_CITY_ONLY2 : Z := 0x00020.
Definition CHANNEL_DBC_FLAG_LFG : Z := 0x40000.

Definition MEMBER_FLAG_NONE : Z := 0x00.
Definition MEMBER_FLAG_OWNER : Z := 0x01.
Definition MEMBER_FLAG_MODERATOR : Z := 0x02.
Definition MEMBER_FLAG_MUTED : Z := 0x08.

Definition SMSG_MESSAGECHAT : Z := 0x096.
Definition SMSG_CHANNEL_NOTIFY : Z := 0x099.
Definition SMSG_CHANNEL_LIST : Z := 0x09B.
Definition SMSG_USERLIST_ADD : Z := 0x3F0.
Definition SMSG_USERLIST_REMOVE : Z := 0x3F1.
Definition SMSG_USERLIST_UPDATE : Z := 0x3F2.
Definition CHAT_MSG_CHANNEL : Z := 0x11.
Definition LANG_UNIVERSAL : Z := 0.
Definition SEC_PLAYER : Z := 0.

(** ** Data *)

Record PlayerInfo := mkPlayerInfo { player : Z; flags : Z }.
#[export] Instance eta_PlayerInfo : Eta PlayerInfo := λ r, mkPlayerInfo (player r) (flags r).

Definition IsOwner (p : PlayerInfo) : bool := has_flag (flags p) MEMBER_FLAG_OWNER.
Definition IsModerator (p : PlayerInfo) : bool := has_flag (flags p) MEMBER_FLAG_MODERATOR.
Definition IsMuted (p : PlayerInfo) : bool := has_flag (flags p) MEMBER_FLAG_MUTED.
Definition set_member_flag (flag : Z) (state : bool) (p : PlayerInfo) : PlayerInfo :=
  p <| flags ::= λ x, if state then Z.lor x flag else Z.ldiff x flag |>.
Definition info_SetOwner : bool → PlayerInfo → PlayerInfo := set_member_flag MEMBER_FLAG_OWNER.
Definition info_SetModerator : bool → PlayerInfo → PlayerInfo :=
  set_member_flag MEMBER_FLAG_MODERATOR.
Definition info_SetMuted : bool → PlayerInfo → PlayerInfo := set_member_flag MEMBER_FLAG_MUTED.

Record Channel := mkChannel {
  _announce : bool; _ownership : bool; _IsSaved : bool;
  _flags : Z; _channelId : Z; _Team : Z; _ownerGUID : Z;
  _name : string; _password : string;
  playersStore : gmap Z PlayerInfo;
  bannedStore : gset Z }.
#[export] Instance eta_Channel : Eta Channel :=
  λ r, mkChannel (_announce r) (_ownership r) (_IsSaved r) (_flags r) (_channelId r) (_Team r)
    (_ownerGUID r) (_name r) (_password r) (playersStore r) (bannedStore r).

(** The calls a channel makes: packets to sessions, the players' own lists of
    channels ([Player::JoinedChannel], [Player::LeftChannel]), statements to
    the character database. *)
Inductive channel_event :=
  | SendPacket (guid : Z) (p : WorldPacket)
  | JoinedChannel (guid : Z)
  | LeftChannel (guid : Z)
  | CHAR_INS_CHANNEL (name : string) (team : Z)
  | CHAR_UPD_CHANNEL (announce ownership : bool) (password bannedList name : string) (team : Z)
  | CHAR_UPD_CHANNEL_USAGE (name : string) (team : Z)
  | CHAR_DEL_OLD_CHANNELS (seconds : Z).
Notation chanact := (act Channel channel_event).

(** A player as the channel sees one. *)
Record PlayerView := mkPlayerView {
  GetName : string;
  GetTeam : Z;
  GetSecurity : Z;
  HasGroup : bool;
  GetChatTag : Z;
  isGMVisible : bool;
  HasIgnore : Z → bool;
  IsVisibleGloballyFor : Z → bool;
  GetRBACData : RBACData }.

(** The world around the channel: the players online, by guid and by name, the
    names of all players, the channel records of the client data, and the
    configuration. *)
Class ChannelEnv := {
  FindPlayer : Z → option PlayerView;
  FindPlayerByName : string → option (Z * PlayerView);
  GetPlayerNameByGUID : Z → option string;
  sChatChannelsStore : Z → option Z;
  CONFIG_PRESERVE_CUSTOM_CHANNELS : bool;
  CONFIG_PRESERVE_CUSTOM_CHANNEL_DURATION : Z;
  CONFIG_RESTRICTED_LFG_CHANNEL : bool;
  CONFIG_ALLOW_TWO_SIDE_INTERACTION_CHANNEL : bool;
  CONFIG_GM_LEVEL_IN_WHO_LIST : Z }.

Section ChannelOps.
Context `{ChannelEnv}.

(** The session's answer, from its loaded copy ([Rbac.session_HasPermission]). *)
Definition HasPermission (p : PlayerView) (permission : Z) : bool :=
  Z.testbit (_globalPerms (GetRBACData p)) permission.

Definition IsConstant (c : Channel) : bool := negb (_channelId c =? 0).
Definition IsLFG (c : Channel) : bool := has_flag (_flags c) CHANNEL_FLAG_LFG.
Definition IsOn (who : Z) (c : Channel) : bool := bool_decide (is_Some (playersStore c !! who)).
Definition IsBanned (guid : Z) (c : Channel) : bool := bool_decide (guid ∈ bannedStore c).
Definition GetNumPlayers (c : Channel) : Z := u32 (Z.of_nat (size (playersStore c))).
Definition GetPlayerFlags (guid : Z) (c : Channel) : Z :=
  match playersStore c !! guid with Some p => flags p | None => 0 end.
Definition SetPassword (npassword : string) (c : Channel) : Channel := c <| _password := npassword |>.
Definition SetAnnounce (nannounce : bool) (c : Channel) : Channel := c <| _announce := nannounce |>.
Definition SetOwnership (ownership : bool) (c : Channel) : Channel := c <| _ownership := ownership |>.

(** [playersStore[guid]]: the element, inserted with zeros if missing. *)
Definition new_PlayerInfo : PlayerInfo := mkPlayerInfo 0 0.
Definition player_at (guid : Z) : chanact PlayerInfo :=
  modify (λ c, c <| playersStore ::= map_index new_PlayerInfo guid |>) ;;
  gets (λ c, default new_PlayerInfo (playersStore c !! guid)).
Definition update_player (guid : Z) (f : PlayerInfo → PlayerInfo) : chanact unit :=
  p ← player_at guid;
  modify (λ c, c <| playersStore ::= <[guid := f p]> |>).

(** *** Sending *)

Definition SendToOne (data : WorldPacket) (who : Z) : chanact unit :=
  match FindPlayer who with Some _ => emit (SendPacket who data) | None => mret tt end.
Definition SendToAll (data : WorldPacket) (guid : Z) : chanact unit :=
  c ← get;
  forM_ (map_iter (playersStore c)) (λ i,
    match FindPlayer i.1 with
    | Some p => when ((guid =? 0) || negb (HasIgnore p (u32 guid))) (emit (SendPacket i.1 data))
    | None => mret tt
    end).
Definition SendToAllButOne (data : WorldPacket) (who : Z) : chanact unit :=
  c ← get;
  forM_ (map_iter (playersStore c)) (λ i,
    when (negb (i.1 =? who))
      (match FindPlayer i.1 with
       | Some _ => emit (SendPacket i.1 data) | None => mret tt end)).

(** *** Packets *)

Definition MakeNotifyPacket (notify_type : Z) (c : Channel) : WorldPacket :=
  Initialize SMSG_CHANNEL_NOTIFY <+ U8 notify_type <+ Str (_name c).
Definition MakeJoined (guid : Z) (c : Channel) := MakeNotifyPacket CHAT_JOINED_NOTICE c <+ U64 guid.
Definition MakeLeft (guid : Z) (c : Channel) := MakeNotifyPacket CHAT_LEFT_NOTICE c <+ U64 guid.
Definition MakeYouJoined (c : Channel) :=
  MakeNotifyPacket CHAT_YOU_JOINED_NOTICE c <+ U8 (_flags c) <+ U32 (_channelId c) <+ U32 0.
Definition MakeYouLeft (c : Channel) :=
  MakeNotifyPacket CHAT_YOU_LEFT_NOTICE c <+ U32 (_channelId c)
    <+ U8 (if IsConstant c then 1 else 0).
Definition MakeWrongPassword (c : Channel) := MakeNotifyPacket CHAT_WRONG_PASSWORD_NOTICE c.
Definition MakeNotMember (c : Channel) := MakeNotifyPacket CHAT_NOT_MEMBER_NOTICE c.
Definition MakeNotModerator (c : Channel) := MakeNotifyPacket CHAT_NOT_MODERATOR_NOTICE c.
Definition MakePasswordChanged (guid : Z) (c : Channel) :=
  MakeNotifyPacket CHAT_PASSWORD_CHANGED_NOTICE c <+ U64 guid.
Definition MakeOwnerChanged (guid : Z) (c : Channel) :=
  MakeNotifyPacket CHAT_OWNER_CHANGED_NOTICE c <+ U64 guid.
Definition MakePlayerNotFound (name : string) (c : Channel) :=
  MakeNotifyPacket CHAT_PLAYER_NOT_FOUND_NOTICE c <+ Str name.
Definition MakeNotOwner (c : Channel) := MakeNotifyPacket CHAT_NOT_OWNER_NOTICE c.
Definition MakeChannelOwner (c : Channel) :=
  let name := match GetPlayerNameByGUID (_ownerGUID c) with
              | Some name => if String.eqb name "" then "PLAYER_NOT_FOUND" else name
              | None => "PLAYER_NOT_FOUND"
              end in
  MakeNotifyPacket CHAT_CHANNEL_OWNER_NOTICE c
    <+ Str (if IsConstant c || (_ownerGUID c =? 0) then "Nobody" else name).
Definition MakeModeChange (guid oldflags : Z) (c : Channel) :=
  MakeNotifyPacket CHAT_MODE_CHANGE_NOTICE c <+ U64 guid <+ U8 oldflags
    <+ U8 (GetPlayerFlags guid c).
Definition MakeAnnouncementsOn (guid : Z) (c : Channel) :=
  MakeNotifyPacket CHAT_ANNOUNCEMENTS_ON_NOTICE c <+ U64 guid.
Definition MakeAnnouncementsOff (guid : Z) (c : Channel) :=
  MakeNotifyPacket CHAT_ANNOUNCEMENTS_OFF_NOTICE c <+ U64 guid.
Definition MakeMuted (c : Channel) := MakeNotifyPacket CHAT_MUTED_NOTICE c.
Definition MakePlayerKicked (bad good : Z) (c : Channel) :=
  MakeNotifyPacket CHAT_PLAYER_KICKED_NOTICE c <+ U64 bad <+ U64 good.
Definition MakeBanned (c : Channel) := MakeNotifyPacket CHAT_BANNED_NOTICE c.
Definition MakePlayerBanned (bad good : Z) (c : Channel) :=
  MakeNotifyPacket CHAT_PLAYER_BANNED_NOTICE c <+ U64 bad <+ U64 good.
Definition MakePlayerUnbanned (bad good : Z) (c : Channel) :=
  MakeNotifyPacket CHAT_PLAYER_UNBANNED_NOTICE c <+ U64 bad <+ U64 good.
Definition MakePlayerNotBanned (name : string) (c : Channel) :=
  MakeNotifyPacket CHAT_PLAYER_NOT_BANNED_NOTICE c <+ Str name.
Definition MakePlayerAlreadyMember (guid : Z) (c : Channel) :=
  MakeNotifyPacket CHAT_PLAYER_ALREADY_MEMBER_NOTICE c <+ U64 guid.
Definition MakeInvite (guid : Z) (c : Channel) := MakeNotifyPacket CHAT_INVITE_NOTICE c <+ U64 guid.
Definition MakeInviteWrongFaction (c : Channel) :=
  MakeNotifyPacket CHAT_INVITE_WRONG_FACTION_NOTICE c.
Definition MakeWrongFaction (c : Channel) := MakeNotifyPacket CHAT_WRONG_FACTION_NOTICE c.
Definition MakeInvalidName (c : Channel) := MakeNotifyPacket CHAT_INVALID_NAME_NOTICE c.
Definition MakeNotModerated (c : Channel) := MakeNotifyPacket CHAT_NOT_MODERATED_NOTICE c.
Definition MakePlayerInvited (name : string) (c : Channel) :=
  MakeNotifyPacket CHAT_PLAYER_INVITED_NOTICE c <+ Str name.
Definition MakePlayerInviteBanned (name : string) (c : Channel) :=
  MakeNotifyPacket CHAT_PLAYER_INVITE_BANNED_NOTICE c <+ Str name.
Definition MakeThrottled (c : Channel) := MakeNotifyPacket CHAT_THROTTLED_NOTICE c.
Definition MakeNotInArea (c : Channel) := MakeNotifyPacket CHAT_NOT_IN_AREA_NOTICE c.
Definition MakeNotInLfg (c : Channel) := MakeNotifyPacket CHAT_NOT_IN_LFG_NOTICE c.
Definition MakeVoiceOn (guid : Z) (c : Channel) :=
  MakeNotifyPacket CHAT_VOICE_ON_NOTICE c <+ U64 guid.
Definition MakeVoiceOff (guid : Z) (c : Channel) :=
  MakeNotifyPacket CHAT_VOICE_OFF_NOTICE c <+ U64 guid.

(** A packet made from the channel as it is now, to one member or to all. *)
Definition notify_one (make : Channel → WorldPacket) (who : Z) : chanact unit :=
  c ← get; SendToOne (make c) who.
Definition notify_all (make : Channel → WorldPacket) : chanact unit :=
  c ← get; SendToAll (make c) 0.

Definition JoinNotify (guid : Z) : chanact unit :=
  c ← get;
  let data := Initialize (if IsConstant c then SMSG_USERLIST_ADD else SMSG_USERLIST_UPDATE)
    <+ U64 guid <+ U8 (GetPlayerFlags guid c) <+ U8 (_flags c) <+ U32 (GetNumPlayers c)
    <+ Str (_name c) in
  if IsConstant c then SendToAllButOne data guid else SendToAll data 0.
Definition LeaveNotify (guid : Z) : chanact unit :=
  c ← get;
  let data := Initialize SMSG_USERLIST_REMOVE
    <+ U64 guid <+ U8 (_flags c) <+ U32 (GetNumPlayers c) <+ Str (_name c) in
  if IsConstant c then SendToAllButOne data guid else SendToAll data 0.

(** *** The database *)

Fixpoint banlist (l : list Z) : string :=
  match l with
  | [] => ""
  | guid :: l' => String.append (print_u64 guid) (String " "%char (banlist l'))
  end.
Definition UpdateChannelInDB : chanact unit :=
  c ← get;
  when (_IsSaved c)
    (emit (CHAR_UPD_CHANNEL (_announce c) (_ownership c) (_password c)
             (banlist (set_iter (bannedStore c))) (_name c) (_Team c))).
Definition UpdateChannelUseageInDB : chanact unit :=
  c ← get; emit (CHAR_UPD_CHANNEL_USAGE (_name c) (_Team c)).
Definition CleanOldChannelsInDB : chanact unit :=
  when (CONFIG_PRESERVE_CUSTOM_CHANNEL_DURATION >? 0)
    (emit (CHAR_DEL_OLD_CHANNELS (u32 (CONFIG_PRESERVE_CUSTOM_CHANNEL_DURATION * DAY)))).

(** The row of a saved channel: announce, ownership, password, ban list. *)
Definition read_banlist (s : string) : gset Z :=
  foldl (λ acc tok, let guid := u64 (atol tok) in
           if negb (guid =? 0) then {[ guid ]} ∪ acc else acc) ∅
    (default [] (Tokenizer s " "%char)).
Definition Channel_flags (channelId : Z) : Z :=
  match sChatChannelsStore channelId with
  | Some dbc =>
      let f := CHANNEL_FLAG_GENERAL in
      let f := if has_flag dbc CHANNEL_DBC_FLAG_TRADE then Z.lor f CHANNEL_FLAG_TRADE else f in
      let f := if has_flag dbc CHANNEL_DBC_FLAG_CITY_ONLY2 then Z.lor f CHANNEL_FLAG_CITY else f in
      if has_flag dbc CHANNEL_DBC_FLAG_LFG then Z.lor f CHANNEL_FLAG_LFG
      else Z.lor f CHANNEL_FLAG_NOT_LFG
  | None => CHANNEL_FLAG_CUSTOM
  end.
Definition new_Channel (row : option (bool * bool * string * option string))
    (name : string) (channelId team : Z) : Channel * list channel_event :=
  let c := mkChannel true true false 0 channelId team 0 name "" ∅ ∅ in
  match sChatChannelsStore channelId with
  | Some _ =>
      (c <| _announce := false |> <| _ownership := false |> <| _flags := Channel_flags channelId |>, [])
  | None =>
      let c := c <| _flags := Channel_flags channelId |> in
      if CONFIG_PRESERVE_CUSTOM_CHANNELS then
        match row with
        | Some (announce, ownership, password, list) =>
            (c <| _announce := announce |> <| _ownership := ownership |>
               <| _password := password |>
               <| bannedStore := match list with Some s => read_banlist s | None => ∅ end |>
               <| _IsSaved := true |>, [])
        | None => (c <| _IsSaved := true |>, [CHAR_INS_CHANNEL name team])
        end
      else (c, [])
  end.

(** *** Owner and modes *)

Definition SetOwner_guid (guid : Z) (exclaim : bool) : chanact unit :=
  c ← get;
  when (negb (_ownerGUID c =? 0))
    (match playersStore c !! _ownerGUID c with
     | Some p => modify (λ c, c <| playersStore ::= <[_ownerGUID c := info_SetOwner false p]> |>)
     | None => mret tt
     end) ;;
  modify (λ c, c <| _ownerGUID := guid |>) ;;
  when (negb (guid =? 0))
    (oldFlag ← gets (GetPlayerFlags guid);
     update_player guid (info_SetModerator true) ;;
     update_player guid (info_SetOwner true) ;;
     notify_all (MakeModeChange guid oldFlag) ;;
     when exclaim (notify_all (MakeOwnerChanged guid)) ;;
     UpdateChannelInDB).

Definition SetModerator_guid (guid : Z) (set : bool) : chanact unit :=
  p ← player_at guid;
  when (negb (Bool.eqb (IsModerator p) set))
    (oldFlag ← gets (GetPlayerFlags guid);
     update_player guid (info_SetModerator set) ;;
     notify_all (MakeModeChange guid oldFlag)).
Definition SetMute_guid (guid : Z) (set : bool) : chanact unit :=
  p ← player_at guid;
  when (negb (Bool.eqb (IsMuted p) set))
    (oldFlag ← gets (GetPlayerFlags guid);
     update_player guid (info_SetMuted set) ;;
     notify_all (MakeModeChange guid oldFlag)).

(** *** The operations of the players *)

(** The two checks that most operations start with: [guid] is a member, and
    is a moderator or has the permission to act without being one. *)
Definition if_member (guid : Z) (k : chanact unit) : chanact unit :=
  c ← get; if IsOn guid c then k else notify_one MakeNotMember guid.
Definition if_moderator (guid : Z) (me : PlayerView) (k : chanact unit) : chanact unit :=
  p ← player_at guid;
  if negb (IsModerator p) && negb (HasPermission me RBAC_PERM_CHANGE_CHANNEL_NOT_MODERATOR)
  then notify_one MakeNotModerator guid else k.

Definition JoinChannel (guid : Z) (me : PlayerView) (pass : string) : chanact unit :=
  c ← get;
  if IsOn guid c then
    when (negb (IsConstant c)) (notify_one (MakePlayerAlreadyMember guid) guid)
  else if IsBanned guid c then notify_one MakeBanned guid
  else if negb (String.eqb (_password c) "") && negb (String.eqb pass (_password c)) then
    notify_one MakeWrongPassword guid
  else if IsLFG c && CONFIG_RESTRICTED_LFG_CHANNEL && (GetSecurity me =? SEC_PLAYER)
          && HasGroup me then notify_one MakeNotInLfg guid
  else
    emit (JoinedChannel guid) ;;
    when (_announce c && negb (HasPermission me RBAC_PERM_SILENTLY_JOIN_CHANNEL))
      (notify_all (MakeJoined guid)) ;;
    modify (λ c, c <| playersStore ::= <[guid := mkPlayerInfo guid MEMBER_FLAG_NONE]> |>) ;;
    notify_one MakeYouJoined guid ;;
    JoinNotify guid ;;
    c ← get;
    when (negb (IsConstant c))
      (when (negb (bool_decide (playersStore c = ∅))) UpdateChannelUseageInDB ;;
       when ((_ownerGUID c =? 0) && _ownership c)
         (SetOwner_guid guid (1 <? Z.of_nat (size (playersStore c))) ;;
          update_player guid (info_SetModerator true))).

Definition LeaveChannel (guid : Z) (me : PlayerView) (send : bool) : chanact unit :=
  c ← get;
  if negb (IsOn guid c) then when send (notify_one MakeNotMember guid)
  else
    when send (notify_one MakeYouLeft guid ;; emit (LeftChannel guid)) ;;
    p ← player_at guid;
    let changeowner := IsOwner p in
    modify (λ c, c <| playersStore ::= delete guid |>) ;;
    when (_announce c && negb (HasPermission me RBAC_PERM_SILENTLY_JOIN_CHANNEL))
      (notify_all (MakeLeft guid)) ;;
    LeaveNotify guid ;;
    c ← get;
    when (negb (IsConstant c))
      (UpdateChannelUseageInDB ;;
       match map_begin (playersStore c) with
       | Some (_, p) =>
           when (changeowner && _ownership c)
             (let newowner := player p in
              update_player newowner (info_SetModerator true) ;;
              SetOwner_guid newowner true)
       | None => mret tt
       end).

Definition KickOrBan (guid : Z) (me : PlayerView) (badname : string) (ban : bool) : chanact unit :=
  if_member guid (if_moderator guid me (
    c ← get;
    let victim := match FindPlayerByName badname with Some (g, _) => g | None => 0 end in
    if (victim =? 0) || negb (IsOn victim c) then notify_one (MakePlayerNotFound badname) guid else
    let changeowner := _ownerGUID c =? victim in
    if negb (HasPermission me RBAC_PERM_CHANGE_CHANNEL_NOT_MODERATOR) && changeowner
       && negb (guid =? _ownerGUID c) then notify_one MakeNotOwner guid else
    let silent := HasPermission me RBAC_PERM_SILENTLY_JOIN_CHANNEL in
    (if ban && negb (IsBanned victim c) then
       modify (λ c, c <| bannedStore ::= λ s, {[ victim ]} ∪ s |>) ;;
       UpdateChannelInDB ;;
       when (negb silent) (notify_all (MakePlayerBanned victim guid))
     else when (negb silent) (notify_all (MakePlayerKicked victim guid))) ;;
    modify (λ c, c <| playersStore ::= delete victim |>) ;;
    emit (LeftChannel victim) ;;
    c ← get;
    when (changeowner && _ownership c && negb (bool_decide (playersStore c = ∅)))
      (let newowner := guid in
       update_player newowner (info_SetModerator true) ;;
       SetOwner_guid newowner true))).
Definition Kick guid me badname := KickOrBan guid me badname false.
Definition Ban guid me badname := KickOrBan guid me badname true.

Definition UnBan (guid : Z) (me : PlayerView) (badname : string) : chanact unit :=
  if_member guid (if_moderator guid me (
    c ← get;
    let victim := match FindPlayerByName badname with Some (g, _) => g | None => 0 end in
    if (victim =? 0) || negb (IsBanned victim c) then notify_one (MakePlayerNotFound badname) guid
    else
      modify (λ c, c <| bannedStore ::= λ s, s ∖ {[ victim ]} |>) ;;
      notify_all (MakePlayerUnbanned victim guid) ;;
      UpdateChannelInDB)).

Definition Password (guid : Z) (me : PlayerView) (pass : string) : chanact unit :=
  if_member guid (if_moderator guid me (
    modify (SetPassword pass) ;;
    notify_all (MakePasswordChanged guid) ;;
    UpdateChannelInDB)).

(** Players of different teams meet only when both sessions may. *)
Definition teams_apart (me you : PlayerView) : bool :=
  negb (GetTeam me =? GetTeam you)
  && (negb (HasPermission me RBAC_PERM_TWO_SIDE_INTERACTION_CHANNEL)
      || negb (HasPermission you RBAC_PERM_TWO_SIDE_INTERACTION_CHANNEL)).

Definition SetMode (guid : Z) (me : PlayerView) (p2n : string) (mod_ set : bool) : chanact unit :=
  if_member guid (if_moderator guid me (
    c ← get;
    if (guid =? _ownerGUID c) && String.eqb p2n (GetName me) && mod_ then mret tt else
    match FindPlayerByName p2n with
    | None => notify_one (MakePlayerNotFound p2n) guid
    | Some (victim, newp) =>
        if (victim =? 0) || negb (IsOn victim c) || teams_apart me newp then
          notify_one (MakePlayerNotFound p2n) guid
        else if (_ownerGUID c =? victim) && negb (_ownerGUID c =? guid) then
          notify_one MakeNotOwner guid
        else if mod_ then SetModerator_guid victim set else SetMute_guid victim set
    end)).

Definition SetOwner (guid : Z) (me : PlayerView) (newname : string) : chanact unit :=
  if_member guid (
    c ← get;
    if negb (HasPermission me RBAC_PERM_CHANGE_CHANNEL_NOT_MODERATOR)
       && negb (guid =? _ownerGUID c) then notify_one MakeNotOwner guid else
    match FindPlayerByName newname with
    | None => notify_one (MakePlayerNotFound newname) guid
    | Some (victim, newp) =>
        if (victim =? 0) || negb (IsOn victim c) || teams_apart me newp then
          notify_one (MakePlayerNotFound newname) guid
        else
          update_player victim (info_SetModerator true) ;;
          SetOwner_guid victim true
    end).

Definition SendWhoOwner (guid : Z) : chanact unit :=
  c ← get; SendToOne (if IsOn guid c then MakeChannelOwner c else MakeNotMember c) guid.

Fixpoint List_loop (guid : Z) (me : PlayerView) (l : list (Z * PlayerInfo)) (data : WorldPacket)
    (count : Z) : WorldPacket * Z :=
  match l with
  | [] => (data, count)
  | (k, p) :: l' =>
      match FindPlayer k with
      | Some member =>
          if (HasPermission me RBAC_PERM_WHO_SEE_ALL_SEC_LEVELS
              || (GetSecurity member <=? CONFIG_GM_LEVEL_IN_WHO_LIST))
             && IsVisibleGloballyFor member guid
          then List_loop guid me l' (data <+ U64 k <+ U8 (flags p)) (u32 (count + 1))
          else List_loop guid me l' data count
      | None => List_loop guid me l' data count
      end
  end.
Definition List (guid : Z) (me : PlayerView) : chanact unit :=
  if_member guid (
    c ← get;
    let data := Initialize SMSG_CHANNEL_LIST <+ U8 1 <+ Str (_name c) <+ U8 (_flags c) in
    let pos := packet_wpos data in
    let out := List_loop guid me (map_iter (playersStore c)) (data <+ U32 0) 0 in
    SendToOne (packet_put pos (U32 out.2) out.1) guid).

Definition Announce (guid : Z) (me : PlayerView) : chanact unit :=
  if_member guid (if_moderator guid me (
    modify (λ c, c <| _announce ::= negb |>) ;;
    c ← get;
    notify_all (if _announce c then MakeAnnouncementsOn guid else MakeAnnouncementsOff guid) ;;
    UpdateChannelInDB)).

Definition Say (guid : Z) (what : string) (lang : Z) : chanact unit :=
  if String.eqb what "" then mret tt else
  let chatTag := match FindPlayer guid with Some p => GetChatTag p | None => 0 end in
  let lang := if CONFIG_ALLOW_TWO_SIDE_INTERACTION_CHANNEL then LANG_UNIVERSAL else lang in
  if_member guid (
    p ← player_at guid;
    if IsMuted p then notify_one MakeMuted guid else
    c ← get;
    let data := Initialize SMSG_MESSAGECHAT <+ U8 CHAT_MSG_CHANNEL <+ U32 lang <+ U64 guid
      <+ U32 0 <+ Str (_name c) <+ U64 guid
      <+ U32 (u32 (Z.of_nat (String.length what) + 1)) <+ Str what <+ U8 chatTag in
    SendToAll data (if negb (IsModerator p) then guid else 0)).

Definition Invite (guid : Z) (me : PlayerView) (newname : string) : chanact unit :=
  if_member guid (
    c ← get;
    match FindPlayerByName newname with
    | None => notify_one (MakePlayerNotFound newname) guid
    | Some (g, newp) =>
        if negb (isGMVisible newp) then notify_one (MakePlayerNotFound newname) guid
        else if IsBanned g c then notify_one (MakePlayerInviteBanned newname) guid
        else if teams_apart me newp then notify_one MakeInviteWrongFaction guid
        else if IsOn g c then notify_one (MakePlayerAlreadyMember g) guid
        else
          when (negb (HasIgnore newp (u32 guid))) (notify_one (MakeInvite guid) g) ;;
          notify_one (MakePlayerInvited (GetName newp)) guid
    end).
End ChannelOps.

(** ** What the helpers do to the state *)

(** The event is no change of a player's list of channels. *)
Definition quiet (e : channel_event) : Prop :=
  match e with JoinedChannel _ | LeftChannel _ => False | _ => True end.
#[export] Instance quiet_dec e : Decision (quiet e).
Proof. destruct e; apply _. Defined.

Section Effects.
Context `{ChannelEnv}.

(** An action that only sends and saves. *)
Definition sends (m : chanact unit) : Prop :=
  ∀ c, wp m (λ _ c' t, c' = c ∧ Forall quiet t) c.

Lemma sends_ret : sends (mret tt).
Proof. intros c. by apply wp_ret. Qed.
Lemma sends_emit e : quiet e → sends (emit e).
Proof. intros He c. apply wp_emit. split; [done|]. by repeat constructor. Qed.
Lemma sends_when b m : sends m → sends (when b m).
Proof. intros Hm. destruct b; [done|apply sends_ret]. Qed.
Lemma sends_bind m (k : unit → chanact unit) : sends m → sends (k tt) → sends (m ≫= k).
Proof.
  intros Hm Hk c. apply wp_bind. eapply wp_mono; [apply Hm|]. intros [] c1 t1 [-> Ht1].
  eapply wp_mono; [apply Hk|]. intros [] c2 t2 [-> Ht2]. split; [done|]. by apply Forall_app.
Qed.
Lemma sends_get (k : Channel → chanact unit) : (∀ c, sends (k c)) → sends (get ≫= k).
Proof.
  intros Hk c. apply wp_bind, wp_get. eapply wp_mono; [apply Hk|].
  intros [] c2 t2 [-> Ht2]. done.
Qed.
Lemma sends_forM {A} (l : list A) f : (∀ x, sends (f x)) → sends (forM_ l f).
Proof.
  intros Hf. induction l as [|x l IH]; simpl; [apply sends_ret|]. by apply sends_bind.
Qed.

Lemma sends_to_one data who : sends (SendToOne data who).
Proof. unfold SendToOne. destruct (FindPlayer who); [by apply sends_emit|apply sends_ret]. Qed.
Lemma sends_to_all data guid : sends (SendToAll data guid).
Proof.
  apply sends_get. intros c. apply sends_forM. intros i.
  destruct (FindPlayer i.1); [|apply sends_ret]. by apply sends_when, sends_emit.
Qed.
Lemma sends_to_all_but data who : sends (SendToAllButOne data who).
Proof.
  apply sends_get. intros c. apply sends_forM. intros i. apply sends_when.
  destruct (FindPlayer i.1); [by apply sends_emit|apply sends_ret].
Qed.
Lemma sends_notify_one make who : sends (notify_one make who).
Proof. apply sends_get. intros c. apply sends_to_one. Qed.
Lemma sends_notify_all make : sends (notify_all make).
Proof. apply sends_get. intros c. apply sends_to_all. Qed.
Lemma sends_update : sends UpdateChannelInDB.
Proof. apply sends_get. intros c. by apply sends_when, sends_emit. Qed.
Lemma sends_usage : sends UpdateChannelUseageInDB.
Proof. apply sends_get. intros c. by apply sends_emit. Qed.
Lemma sends_join guid : sends (JoinNotify guid).
Proof.
  apply sends_get. intros c. destruct (IsConstant c); [apply sends_to_all_but|apply sends_to_all].
Qed.
Lemma sends_leave guid : sends (LeaveNotify guid).
Proof.
  apply sends_get. intros c. destruct (IsConstant c); [apply sends_to_all_but|apply sends_to_all].
Qed.

(** A sending step in front of the rest. *)
Lemma wp_sends m (k : unit → chanact unit) (Q : unit → Channel → list channel_event → Prop) c :
  sends m → (∀ t1, Forall quiet t1 → wp (k tt) (λ a c' t, Q a c' (t1 ++ t)) c) →
  wp (m ≫= k) Q c.
Proof.
  intros Hm Hk. apply wp_bind. eapply wp_mono; [apply Hm|]. intros [] c1 t1 [-> Ht1]. by apply Hk.
Qed.

(** *** Changing one member *)

Definition put_player (guid : Z) (f : PlayerInfo → PlayerInfo) (c : Channel) : Channel :=
  c <| playersStore ::= λ m, <[guid := f (default new_PlayerInfo (m !! guid))]> m |>.

Lemma player_at_known guid c p :
  playersStore c !! guid = Some p → player_at guid c = Done p c [].
Proof.
  intros Hp. unfold player_at, mbind, act_bind. simpl.
  rewrite map_index_present by (by eexists). rewrite Hp. simpl. by destruct c.
Qed.

Lemma wp_player_at guid (k : PlayerInfo → chanact unit) Q c p :
  playersStore c !! guid = Some p → wp (k p) Q c → wp (player_at guid ≫= k) Q c.
Proof.
  intros Hp Hk. apply wp_bind. unfold wp at 1. rewrite (player_at_known _ _ _ Hp). exact Hk.
Qed.

Lemma update_player_spec guid f c :
  wp (update_player guid f) (λ _ c' t, c' = put_player guid f c ∧ t = []) c.
Proof.
  unfold update_player, player_at. apply wp_bind, wp_bind, wp_modify, wp_gets, wp_modify.
  split; [|done]. unfold put_player, setf. simpl. f_equal.
  rewrite lookup_map_index. simpl. unfold map_index.
  destruct (playersStore c !! guid); [done|]. by rewrite insert_insert_eq.
Qed.

(** The state after [SetOwner(guid, exclaim)]. *)
Definition owner_cleared (c : Channel) : Channel :=
  match playersStore c !! _ownerGUID c with
  | Some p => if _ownerGUID c =? 0 then c
              else c <| playersStore ::= <[_ownerGUID c := info_SetOwner false p]> |>
  | None => c
  end.
Definition owner_set (guid : Z) (c : Channel) : Channel :=
  let c1 := (owner_cleared c) <| _ownerGUID := guid |> in
  if guid =? 0 then c1
  else put_player guid (λ p, info_SetOwner true (info_SetModerator true p)) c1.

Lemma put_put guid f g c : put_player guid f (put_player guid g c) = put_player guid (λ p, f (g p)) c.
Proof.
  unfold put_player, setf. simpl. rewrite lookup_insert_eq, insert_insert_eq. done.
Qed.

Lemma SetOwner_guid_spec guid exclaim c :
  wp (SetOwner_guid guid exclaim) (λ _ c' t, c' = owner_set guid c ∧ Forall quiet t) c.
Proof.
  unfold SetOwner_guid, owner_set. apply wp_bind, wp_get.
  apply wp_bind. eapply (wp_mono _ (λ _ c' t, c' = owner_cleared c ∧ t = [])).
  { unfold owner_cleared. apply wp_when; intros Ho.
    - apply negb_true_iff in Ho. rewrite Ho.
      destruct (playersStore c !! _ownerGUID c) as [p|]; [|by apply wp_ret].
      apply wp_modify. done.
    - apply negb_false_iff in Ho. rewrite Ho.
      split; [by destruct (playersStore c !! _ownerGUID c)|done]. }
  intros _ c1 t1 [-> ->]. apply wp_bind, wp_modify.
  destruct (guid =? 0); cbn [negb when]; [by apply wp_ret|].
  apply wp_bind, wp_gets. apply wp_bind. eapply wp_mono; [apply update_player_spec|].
  intros _ c2 t2 [-> ->]. apply wp_bind. eapply wp_mono; [apply update_player_spec|].
  intros _ c3 t3 [-> ->]. rewrite put_put.
  apply wp_sends; [apply sends_notify_all|]. intros t4 Ht4.
  apply wp_sends; [apply sends_when, sends_notify_all|]. intros t5 Ht5.
  eapply wp_mono; [apply sends_update|]. intros _ c4 t6 [-> Ht6]. split; [done|].
  simpl. by rewrite !Forall_app.
Qed.

Lemma SetModerator_guid_spec guid (b : bool) c p :
  playersStore c !! guid = Some p →
  wp (SetModerator_guid guid b) (λ _ c' t, Forall quiet t ∧
    c' = if Bool.eqb (IsModerator p) b then c else put_player guid (info_SetModerator b) c) c.
Proof.
  intros Hp. unfold SetModerator_guid. apply (wp_player_at _ _ _ _ p Hp).
  destruct (Bool.eqb (IsModerator p) b); cbn [negb when]; [by apply wp_ret|].
  apply wp_bind, wp_gets, wp_bind. eapply wp_mono; [apply update_player_spec|].
  intros _ c2 t2 [-> ->]. eapply wp_mono; [apply sends_notify_all|].
  by intros _ c3 t3 [-> Ht].
Qed.
Lemma SetMute_guid_spec guid (b : bool) c p :
  playersStore c !! guid = Some p →
  wp (SetMute_guid guid b) (λ _ c' t, Forall quiet t ∧
    c' = if Bool.eqb (IsMuted p) b then c else put_player guid (info_SetMuted b) c) c.
Proof.
  intros Hp. unfold SetMute_guid. apply (wp_player_at _ _ _ _ p Hp).
  destruct (Bool.eqb (IsMuted p) b); cbn [negb when]; [by apply wp_ret|].
  apply wp_bind, wp_gets, wp_bind. eapply wp_mono; [apply update_player_spec|].
  intros _ c2 t2 [-> ->]. eapply wp_mono; [apply sends_notify_all|].
  by intros _ c3 t3 [-> Ht].
Qed.

(** *** The checks *)

Lemma wp_if_member guid k Q c :
  (is_Some (playersStore c !! guid) → wp k Q c) →
  (playersStore c !! guid = None → ∀ t, Forall quiet t → Q tt c t) →
  wp (if_member guid k) Q c.
Proof.
  intros Hon Hoff. unfold if_member. apply wp_bind, wp_get. unfold IsOn.
  case_bool_decide as Hd.
  - eapply wp_mono; [by apply Hon|]. done.
  - eapply wp_mono; [apply sends_notify_one|]. intros [] c' t [-> Ht]. apply Hoff; [|done].
    by apply eq_None_not_Some.
Qed.
Lemma wp_if_moderator guid me k Q c p :
  playersStore c !! guid = Some p →
  (IsModerator p || HasPermission me RBAC_PERM_CHANGE_CHANNEL_NOT_MODERATOR = true → wp k Q c) →
  (IsModerator p || HasPermission me RBAC_PERM_CHANGE_CHANNEL_NOT_MODERATOR = false →
    ∀ t, Forall quiet t → Q tt c t) →
  wp (if_moderator guid me k) Q c.
Proof.
  intros Hp Hyes Hno. unfold if_moderator. apply (wp_player_at _ _ _ _ p Hp).
  rewrite <- negb_orb. destruct (IsModerator p || _); simpl.
  - by apply Hyes.
  - eapply wp_mono; [apply sends_notify_one|]. intros [] c' t [-> Ht]. by apply Hno.
Qed.
End Effects.

(** ** The abstract channel

    An operation without its packets: what it makes of the channel.  The
    refinement theorem below shows that the code computes this. *)

Inductive chan_op :=
  | OpJoin (guid : Z) (me : PlayerView) (pass : string)
  | OpLeave (guid : Z) (me : PlayerView) (send : bool)
  | OpKickOrBan (guid : Z) (me : PlayerView) (badname : string) (ban : bool)
  | OpUnBan (guid : Z) (me : PlayerView) (badname : string)
  | OpPassword (guid : Z) (me : PlayerView) (pass : string)
  | OpSetMode (guid : Z) (me : PlayerView) (p2n : string) (mod_ set : bool)
  | OpSetOwner (guid : Z) (me : PlayerView) (newname : string)
  | OpWhoOwner (guid : Z)
  | OpList (guid : Z) (me : PlayerView)
  | OpAnnounce (guid : Z) (me : PlayerView)
  | OpSay (guid : Z) (what : string) (lang : Z)
  | OpInvite (guid : Z) (me : PlayerView) (newname : string).

Section Abstract.
Context `{ChannelEnv}.

Definition run_op (op : chan_op) : chanact unit :=
  match op with
  | OpJoin guid me pass => JoinChannel guid me pass
  | OpLeave guid me send => LeaveChannel guid me send
  | OpKickOrBan guid me badname ban => KickOrBan guid me badname ban
  | OpUnBan guid me badname => UnBan guid me badname
  | OpPassword guid me pass => Password guid me pass
  | OpSetMode guid me p2n mod_ set => SetMode guid me p2n mod_ set
  | OpSetOwner guid me newname => SetOwner guid me newname
  | OpWhoOwner guid => SendWhoOwner guid
  | OpList guid me => List guid me
  | OpAnnounce guid me => Announce guid me
  | OpSay guid what lang => Say guid what lang
  | OpInvite guid me newname => Invite guid me newname
  end.

(** A member who is a moderator or may act as one. *)
Definition moderates (guid : Z) (me : PlayerView) (c : Channel) : bool :=
  match playersStore c !! guid with
  | Some p => IsModerator p || HasPermission me RBAC_PERM_CHANGE_CHANNEL_NOT_MODERATOR
  | None => false
  end.
(** The member with this name, which has guid 0 if there is none. *)
Definition named (name : string) : Z :=
  match FindPlayerByName name with Some (g, _) => g | None => 0 end.
Definition refuses (guid : Z) (me : PlayerView) (pass : string) (c : Channel) : bool :=
  IsBanned guid c
  || (negb (String.eqb (_password c) "") && negb (String.eqb pass (_password c)))
  || (IsLFG c && CONFIG_RESTRICTED_LFG_CHANNEL && (GetSecurity me =? SEC_PLAYER) && HasGroup me).
Definition add_member (guid : Z) (c : Channel) : Channel :=
  c <| playersStore ::= <[guid := mkPlayerInfo guid MEMBER_FLAG_NONE]> |>.
Definition remove_member (guid : Z) (c : Channel) : Channel := c <| playersStore ::= delete guid |>.

(** The moderator's act on another member, or the owner's: the member must be
    there, be of a reachable team, and be the owner only if the owner acts. *)
Definition target (me : PlayerView) (name : string) (c : Channel) : option Z :=
  match FindPlayerByName name with
  | Some (victim, newp) =>
      if (victim =? 0) || negb (IsOn victim c) || teams_apart me newp then None else Some victim
  | None => None
  end.
Definition set_flag_of (victim : Z) (flag : Z) (b : bool) (c : Channel) : Channel :=
  match playersStore c !! victim with
  | Some p => if Bool.eqb (has_flag (flags p) flag) b then c
              else put_player victim (set_member_flag flag b) c
  | None => c
  end.

Definition effect (op : chan_op) (c : Channel) : Channel :=
  match op with
  | OpJoin guid me pass =>
      if IsOn guid c || refuses guid me pass c then c
      else
        let c' := add_member guid c in
        if negb (IsConstant c) && (_ownerGUID c =? 0) && _ownership c then
          put_player guid (info_SetModerator true) (owner_set guid c')
        else c'
  | OpLeave guid _ _ =>
      match playersStore c !! guid with
      | None => c
      | Some p =>
          let c' := remove_member guid c in
          match map_begin (playersStore c') with
          | Some (_, q) =>
              if negb (IsConstant c) && IsOwner p && _ownership c then
                owner_set (player q) (put_player (player q) (info_SetModerator true) c')
              else c'
          | None => c'
          end
      end
  | OpKickOrBan guid me badname ban =>
      let victim := named badname in
      if negb (moderates guid me c) || (victim =? 0) || negb (IsOn victim c)
         || (negb (HasPermission me RBAC_PERM_CHANGE_CHANNEL_NOT_MODERATOR)
             && (_ownerGUID c =? victim) && negb (guid =? _ownerGUID c))
      then c
      else
        let c1 := if ban then c <| bannedStore ::= λ s, {[ victim ]} ∪ s |> else c in
        let c2 := remove_member victim c1 in
        if (_ownerGUID c =? victim) && _ownership c && negb (bool_decide (playersStore c2 = ∅))
        then owner_set guid (put_player guid (info_SetModerator true) c2)
        else c2
  | OpUnBan guid me badname =>
      if moderates guid me c && negb (named badname =? 0) then
        c <| bannedStore ::= λ s, s ∖ {[ named badname ]} |>
      else c
  | OpPassword guid me pass => if moderates guid me c then SetPassword pass c else c
  | OpSetMode guid me p2n mod_ set =>
      if negb (moderates guid me c)
         || ((guid =? _ownerGUID c) && String.eqb p2n (GetName me) && mod_)
      then c
      else
        match target me p2n c with
        | Some victim =>
            if (_ownerGUID c =? victim) && negb (_ownerGUID c =? guid) then c
            else set_flag_of victim (if mod_ then MEMBER_FLAG_MODERATOR else MEMBER_FLAG_MUTED) set c
        | None => c
        end
  | OpSetOwner guid me newname =>
      if negb (IsOn guid c)
         || (negb (HasPermission me RBAC_PERM_CHANGE_CHANNEL_NOT_MODERATOR)
             && negb (guid =? _ownerGUID c))
      then c
      else
        match target me newname c with
        | Some victim => owner_set victim (put_player victim (info_SetModerator true) c)
        | None => c
        end
  | OpAnnounce guid me => if moderates guid me c then c <| _announce ::= negb |> else c
  | OpWhoOwner _ | OpList _ _ | OpSay _ _ _ | OpInvite _ _ _ => c
  end.

(** The players' own lists of channels, seen from one channel: the players who
    have it on their list, from [s] to [s'] by the calls [t].  A player who
    joins did not have it, one who leaves had it. *)
Inductive list_run (s : gset Z) : list channel_event → gset Z → Prop :=
  | run_nil : list_run s [] s
  | run_quiet e t s' : quiet e → list_run s t s' → list_run s (e :: t) s'
  | run_joined g t s' : g ∉ s → list_run ({[ g ]} ∪ s) t s' → list_run s (JoinedChannel g :: t) s'
  | run_left g t s' : g ∈ s → list_run (s ∖ {[ g ]}) t s' → list_run s (LeftChannel g :: t) s'.
(** The lists the operation itself is to keep: the player who calls
    [LeaveChannel] with [send = false] has taken the channel off his list
    before. *)
Definition lists_before (op : chan_op) (c : Channel) : gset Z :=
  match op with
  | OpLeave guid _ false => dom (playersStore c) ∖ {[ guid ]}
  | _ => dom (playersStore c)
  end.

(** Every member is stored under his own guid. *)
Definition keys_ok (c : Channel) : Prop :=
  ∀ k p, playersStore c !! k = Some p → player p = k.

(** A player is not his own victim. *)
Definition not_self (op : chan_op) : bool :=
  match op with OpKickOrBan guid _ badname _ => negb (named badname =? guid) | _ => true end.

Lemma lists_quiet t s s' : Forall quiet t → s = s' → list_run s t s'.
Proof. intros Ht <-. induction Ht; [apply run_nil|by apply run_quiet]. Qed.
Lemma lists_app t1 t2 s s1 s2 : list_run s t1 s1 → list_run s1 t2 s2 → list_run s (t1 ++ t2) s2.
Proof.
  induction 1 as [s|s e t s1 He _ IH|s g t s1 Hg _ IH|s g t s1 Hg _ IH]; intros H2; simpl;
    [done|apply run_quiet|apply run_joined|apply run_left]; auto.
Qed.

(** *** The members after each step *)

Lemma dom_put guid f c :
  dom (playersStore (put_player guid f c)) = {[ guid ]} ∪ dom (playersStore c).
Proof. unfold put_player, setf. cbn [playersStore]. set_solver. Qed.
Lemma dom_cleared c : dom (playersStore (owner_cleared c)) = dom (playersStore c).
Proof.
  unfold owner_cleared. destruct (playersStore c !! _ownerGUID c) as [p|] eqn:E; [|done].
  destruct (_ownerGUID c =? 0); [done|]. unfold setf. cbn [playersStore].
  apply elem_of_dom_2 in E. set_solver.
Qed.
Lemma dom_owner_set guid c :
  guid ∈ dom (playersStore c) → dom (playersStore (owner_set guid c)) = dom (playersStore c).
Proof.
  intros Hg. unfold owner_set. destruct (guid =? 0); [etrans; [|apply dom_cleared]; done|].
  rewrite dom_put. unfold setf. cbn [playersStore]. rewrite dom_cleared. set_solver.
Qed.
Lemma dom_set_flag_of victim flag b c :
  dom (playersStore (set_flag_of victim flag b c)) = dom (playersStore c).
Proof.
  unfold set_flag_of. destruct (playersStore c !! victim) as [p|] eqn:E; [|done].
  destruct (Bool.eqb _ b); [done|]. rewrite dom_put. apply elem_of_dom_2 in E. set_solver.
Qed.
End Abstract.

(** ** The code computes the abstract channel *)

Section Refinement.
Context `{ChannelEnv}.

Definition implements (op : chan_op) : Prop :=
  ∀ c, wp (run_op op) (λ _ c' t, c' = effect op c ∧
    (not_self op = true → keys_ok c →
      list_run (lists_before op c) t (dom (playersStore c')))) c.

(** An operation that leaves the members as they are. *)
Lemma implements_quiet op :
  (∀ c, lists_before op c = dom (playersStore c)) →
  (∀ c, dom (playersStore (effect op c)) = dom (playersStore c)) →
  (∀ c, wp (run_op op) (λ _ c' t, c' = effect op c ∧ Forall quiet t) c) →
  implements op.
Proof.
  intros Hb Hd Hw c. eapply wp_mono; [apply Hw|]. intros _ c' t [-> Ht].
  split; [done|]. intros _ _. apply lists_quiet; [done|]. by rewrite Hb, Hd.
Qed.

Lemma implements_sends op :
  (∀ c, lists_before op c = dom (playersStore c)) →
  (∀ c, effect op c = c) → sends (run_op op) → implements op.
Proof.
  intros Hb He Hs. apply implements_quiet; [done|intros c; by rewrite He|].
  intros c. rewrite He. apply Hs.
Qed.

(** An operation of a moderator. *)
Lemma wp_moderates guid me k (Q : unit → Channel → list channel_event → Prop) c :
  (moderates guid me c = true → wp k Q c) →
  (moderates guid me c = false → ∀ t, Forall quiet t → Q tt c t) →
  wp (if_member guid (if_moderator guid me k)) Q c.
Proof.
  unfold moderates. intros Hyes Hno. apply wp_if_member.
  - intros [p Hp]. rewrite Hp in Hyes, Hno. by apply (wp_if_moderator _ _ _ _ _ p).
  - intros Hp. rewrite Hp in Hno. auto.
Qed.

Lemma wp_sends_last m (Q : unit → Channel → list channel_event → Prop) c :
  sends m → (∀ t, Forall quiet t → Q tt c t) → wp m Q c.
Proof. intros Hm HQ. eapply wp_mono; [apply Hm|]. intros [] c' t [-> Ht]. by apply HQ. Qed.

Lemma password_implements guid me pass : implements (OpPassword guid me pass).
Proof.
  apply implements_quiet; [done|intros c; simpl; by destruct (moderates guid me c)|].
  intros c. simpl. apply wp_moderates; intros ->; [|done].
  apply wp_bind, wp_modify. apply wp_sends; [apply sends_notify_all|]. intros t1 Ht1.
  apply wp_sends_last; [apply sends_update|]. intros t2 Ht2. split; [done|].
  simpl. by apply Forall_app.
Qed.

Lemma announce_implements guid me : implements (OpAnnounce guid me).
Proof.
  apply implements_quiet; [done|intros c; simpl; by destruct (moderates guid me c)|].
  intros c. simpl. apply wp_moderates; intros ->; [|done].
  apply wp_bind, wp_modify, wp_bind, wp_get.
  apply wp_sends; [apply sends_notify_all|]. intros t1 Ht1.
  apply wp_sends_last; [apply sends_update|]. intros t2 Ht2. split; [done|].
  simpl. by apply Forall_app.
Qed.

Lemma unban_absent v c : v ∉ bannedStore c → c <| bannedStore ::= λ s, s ∖ {[ v ]} |> = c.
Proof.
  intros Hv. destruct c. unfold setf. simpl in *. f_equal. set_solver.
Qed.
Lemma ban_present v c : v ∈ bannedStore c → c <| bannedStore ::= λ s, {[ v ]} ∪ s |> = c.
Proof.
  intros Hv. destruct c. unfold setf. simpl in *. f_equal. set_solver.
Qed.

Lemma unban_implements guid me badname : implements (OpUnBan guid me badname).
Proof.
  apply implements_quiet; [done|intros c; simpl; by destruct (_ && _)|].
  intros c. simpl. apply wp_moderates; intros ->; [|done].
  change (match FindPlayerByName badname with Some (g, _) => g | None => 0 end)
    with (named badname).
  apply wp_bind, wp_get. cbn [andb app].
  destruct (named badname =? 0); cbn [negb orb]; [by apply wp_sends_last; [apply sends_notify_one|]|].
  unfold IsBanned. case_bool_decide as Hb; cbn [negb].
  - apply wp_bind, wp_modify. apply wp_sends; [apply sends_notify_all|]. intros t1 Ht1.
    apply wp_sends_last; [apply sends_update|]. intros t2 Ht2. split; [done|].
    simpl. by apply Forall_app.
  - apply wp_sends_last; [apply sends_notify_one|]. intros t Ht.
    split; [|done]. symmetry. by apply unban_absent.
Qed.

Lemma set_flag_spec victim (mod_ b : bool) c :
  is_Some (playersStore c !! victim) →
  wp (if mod_ then SetModerator_guid victim b else SetMute_guid victim b)
    (λ _ c' t, c' = set_flag_of victim (if mod_ then MEMBER_FLAG_MODERATOR else MEMBER_FLAG_MUTED) b c
       ∧ Forall quiet t) c.
Proof.
  intros [p Hp]. unfold set_flag_of. rewrite Hp.
  destruct mod_; [eapply wp_mono; [by apply SetModerator_guid_spec|]
                 |eapply wp_mono; [by apply SetMute_guid_spec|]]; by intros _ c' t [Ht ->].
Qed.

Lemma IsOn_true guid c : IsOn guid c = true → is_Some (playersStore c !! guid).
Proof. apply bool_decide_eq_true_1. Qed.
Lemma IsOn_false guid c : IsOn guid c = false → playersStore c !! guid = None.
Proof. intros Hn. apply eq_None_not_Some. by apply bool_decide_eq_false_1 in Hn. Qed.

(** [target] makes the checks the code makes one after the other. *)
Lemma wp_target me name c (k : Z → chanact unit) make guid Q :
  (∀ v, target me name c = Some v → v ≠ 0 → is_Some (playersStore c !! v) → wp (k v) Q c) →
  (target me name c = None → ∀ t, Forall quiet t → Q tt c t) →
  wp (match FindPlayerByName name with
      | None => notify_one make guid
      | Some (victim, newp) =>
          if (victim =? 0) || negb (IsOn victim c) || teams_apart me newp
          then notify_one make guid else k victim
      end) Q c.
Proof.
  unfold target. intros Hyes Hno. destruct (FindPlayerByName name) as [[v newp]|].
  - destruct ((v =? 0) || _ || _) eqn:E.
    + apply wp_sends_last; [apply sends_notify_one|auto].
    + apply orb_false_iff in E as [E _]. apply orb_false_iff in E as [E1 E2].
      apply Hyes; [done|lia|]. by apply IsOn_true, negb_false_iff.
  - apply wp_sends_last; [apply sends_notify_one|auto].
Qed.

Lemma setmode_implements guid me p2n mod_ set : implements (OpSetMode guid me p2n mod_ set).
Proof.
  apply implements_quiet; [done| |].
  { intros c. simpl. destruct (_ || _); [done|]. destruct (target me p2n c); [|done].
    destruct (_ && _); [done|]. apply dom_set_flag_of. }
  intros c. simpl. apply wp_moderates; intros ->; cbn [negb orb]; [|done].
  apply wp_bind, wp_get. destruct (_ && _ && _); [by apply wp_ret|].
  apply (wp_target me p2n c (λ v, if (_ownerGUID c =? v) && negb (_ownerGUID c =? guid)
    then notify_one MakeNotOwner guid
    else if mod_ then SetModerator_guid v set else SetMute_guid v set)).
  - intros v -> Hv Hon. destruct (_ && _).
    + by apply wp_sends_last; [apply sends_notify_one|].
    + eapply wp_mono; [by apply set_flag_spec|]. done.
  - intros ->. done.
Qed.

(** The two steps with which an owner is made. *)
Lemma make_owner_spec v c :
  wp (update_player v (info_SetModerator true) ;; SetOwner_guid v true)
    (λ _ c' t, c' = owner_set v (put_player v (info_SetModerator true) c) ∧ Forall quiet t) c.
Proof.
  apply wp_bind. eapply wp_mono; [apply update_player_spec|].
  intros _ c1 t1 [-> ->]. eapply wp_mono; [apply SetOwner_guid_spec|]. done.
Qed.

Lemma target_on me name c v : target me name c = Some v → v ≠ 0 ∧ v ∈ dom (playersStore c).
Proof.
  unfold target. destruct (FindPlayerByName name) as [[g newp]|]; [|done].
  destruct ((g =? 0) || _ || _) eqn:E; [done|]. intros [= <-].
  apply orb_false_iff in E as [E _]. apply orb_false_iff in E as [E1 E2]. split; [lia|].
  by apply elem_of_dom, IsOn_true, negb_false_iff.
Qed.

Lemma setowner_implements guid me newname : implements (OpSetOwner guid me newname).
Proof.
  apply implements_quiet; [done| |].
  { intros c. simpl. destruct (_ || _); [done|].
    destruct (target me newname c) as [v|] eqn:E; [|done].
    apply target_on in E as [_ E]. rewrite dom_owner_set; rewrite dom_put; set_solver. }
  intros c. simpl. apply wp_if_member.
  - intros Hon. unfold IsOn. rewrite bool_decide_true by done. cbn [negb orb].
    apply wp_bind, wp_get. destruct (_ && _); [by apply wp_sends_last; [apply sends_notify_one|]|].
    apply (wp_target me newname c
      (λ v, update_player v (info_SetModerator true) ;; SetOwner_guid v true)).
    + intros v -> Hv _. eapply wp_mono; [apply make_owner_spec|]. done.
    + intros ->. done.
  - intros Hn t Ht. unfold IsOn. rewrite bool_decide_false; [done|]. rewrite Hn. by intros [].
Qed.

Lemma sends_if_member guid k : sends k → sends (if_member guid k).
Proof. intros Hk. apply sends_get. intros c. destruct (IsOn guid c); [done|apply sends_notify_one]. Qed.

Lemma who_implements guid : implements (OpWhoOwner guid).
Proof. apply implements_sends; [done|done|]. apply sends_get. intros c. apply sends_to_one. Qed.

Lemma list_implements guid me : implements (OpList guid me).
Proof.
  apply implements_sends; [done|done|]. apply sends_if_member, sends_get. intros c.
  apply sends_to_one.
Qed.

Lemma invite_implements guid me newname : implements (OpInvite guid me newname).
Proof.
  apply implements_sends; [done|done|]. apply sends_if_member, sends_get. intros c.
  destruct (FindPlayerByName newname) as [[g newp]|]; [|apply sends_notify_one].
  repeat case_match; try apply sends_notify_one.
  apply sends_bind; [apply sends_when|]; apply sends_notify_one.
Qed.

Lemma say_implements guid what lang : implements (OpSay guid what lang).
Proof.
  apply implements_quiet; [done|done|]. intros c. simpl. unfold Say.
  destruct (String.eqb what ""); [by apply wp_ret|].
  apply wp_if_member; [|done]. intros [p Hp]. apply (wp_player_at _ _ _ _ p Hp).
  destruct (IsMuted p); [by apply wp_sends_last; [apply sends_notify_one|]|].
  apply wp_bind, wp_get. by apply wp_sends_last; [apply sends_to_all|].
Qed.

Lemma add_member_dom guid c :
  dom (playersStore (add_member guid c)) = {[ guid ]} ∪ dom (playersStore c).
Proof. unfold add_member, setf. cbn [playersStore]. set_solver. Qed.
Lemma remove_member_dom guid c :
  dom (playersStore (remove_member guid c)) = dom (playersStore c) ∖ {[ guid ]}.
Proof. unfold remove_member, setf. cbn [playersStore]. by rewrite dom_delete_L. Qed.

Lemma join_implements guid me pass : implements (OpJoin guid me pass).
Proof.
  intros c. simpl. unfold JoinChannel, refuses. apply wp_bind, wp_get.
  assert (∀ make, wp (notify_one make guid) (λ _ c' t, c' = c ∧
    (true = true → keys_ok c →
      list_run (dom (playersStore c)) t (dom (playersStore c')))) c) as Hno.
  { intros make. apply wp_sends_last; [apply sends_notify_one|]. intros t Ht.
    split; [done|]. intros _ _. by apply lists_quiet. }
  destruct (IsOn guid c) eqn:Hon; cbn [orb].
  { apply wp_when; [by intros _; apply Hno|].
    intros _. split; [done|]. intros _ _. apply run_nil. }
  destruct (IsBanned guid c); cbn [orb]; [apply Hno|].
  destruct (negb _ && _); cbn [orb]; [apply Hno|].
  destruct (_ && _ && _ && _); [apply Hno|].
  assert (∀ c' t, Forall quiet t → dom (playersStore c') = {[ guid ]} ∪ dom (playersStore c) →
    list_run (dom (playersStore c)) ([JoinedChannel guid] ++ t) (dom (playersStore c'))) as Hjoin.
  { intros c' t Ht Hc'. apply run_joined; [|by apply lists_quiet].
    apply not_elem_of_dom. by apply IsOn_false. }
  apply wp_bind, wp_emit. apply wp_sends; [apply sends_when, sends_notify_all|]. intros t1 Ht1.
  apply wp_bind, wp_modify. apply wp_sends; [apply sends_notify_one|]. intros t2 Ht2.
  apply wp_sends; [apply sends_join|]. intros t3 Ht3. apply wp_bind, wp_get.
  change (c <| playersStore ::= _ |>) with (add_member guid c).
  change (IsConstant (add_member guid c)) with (IsConstant c).
  change (_ownerGUID (add_member guid c)) with (_ownerGUID c).
  change (_ownership (add_member guid c)) with (_ownership c).
  destruct (IsConstant c); cbn [negb andb when].
  { apply wp_ret. split; [done|]. intros _ _. apply Hjoin; [by rewrite !Forall_app|].
    apply add_member_dom. }
  apply wp_sends; [apply sends_when, sends_usage|]. intros t4 Ht4.
  destruct ((_ownerGUID c =? 0) && _ownership c); cbn [when].
  - apply wp_bind. eapply wp_mono; [apply SetOwner_guid_spec|].
    intros _ c1 t5 [-> Ht5]. eapply wp_mono; [apply update_player_spec|].
    intros _ c2 t6 [-> ->]. split; [done|]. intros _ _.
    apply Hjoin; [by rewrite !Forall_app|].
    rewrite dom_put, dom_owner_set; rewrite add_member_dom; set_solver.
  - apply wp_ret. split; [done|]. intros _ _. apply Hjoin; [by rewrite !Forall_app|].
    apply add_member_dom.
Qed.

(** The new owner after the old one left. *)
Lemma owner_set_put guid c :
  guid ∈ dom (playersStore c) →
  dom (playersStore (owner_set guid (put_player guid (info_SetModerator true) c)))
  = dom (playersStore c).
Proof. intros Hg. rewrite dom_owner_set; rewrite dom_put; set_solver. Qed.

(** A player who leaves is no member any more, and nothing else changes. *)
Lemma leave_dom guid me send c :
  keys_ok c → dom (playersStore (effect (OpLeave guid me send) c)) = dom (playersStore c) ∖ {[ guid ]}.
Proof.
  intros Hk. cbn [effect]. destruct (playersStore c !! guid) as [p|] eqn:Hp.
  2: { apply not_elem_of_dom in Hp. set_solver. }
  pose proof (remove_member_dom guid c) as Hd.
  destruct (map_begin (playersStore (remove_member guid c))) as [[k q]|] eqn:Eb; [|done].
  destruct (_ && _ && _); [|done]. apply map_begin_Some in Eb as [Eb _].
  assert (guid ≠ k ∧ playersStore c !! k = Some q) as [Hne Hq]
    by (apply lookup_delete_Some; exact Eb).
  apply Hk in Hq as Hqk. rewrite owner_set_put; [done|]. rewrite Hqk, Hd.
  apply elem_of_dom_2 in Hq. set_solver.
Qed.

(** The calls on the players' lists: the leaving player's, if he asked. *)
Lemma leave_calls guid me send c :
  wp (LeaveChannel guid me send) (λ _ c' t, c' = effect (OpLeave guid me send) c ∧
    ∃ t1 t2, t = t1 ++ t2 ∧ Forall quiet t1 ∧
      if send && IsOn guid c then ∃ t3, t2 = LeftChannel guid :: t3 ∧ Forall quiet t3
      else Forall quiet t2) c.
Proof.
  unfold LeaveChannel. cbn [effect]. apply wp_bind, wp_get.
  destruct (IsOn guid c) eqn:Hon; cbn [negb]; cycle 1.
  { apply IsOn_false in Hon. rewrite Hon, andb_false_r.
    apply wp_sends_last; [apply sends_when, sends_notify_one|]. intros t Ht.
    split; [done|]. exists [], t. split_and!; try done. }
  rewrite andb_true_r. apply IsOn_true in Hon as [p Hp]. rewrite Hp.
  apply wp_bind. eapply (wp_mono _ (λ _ c' t, c' = c ∧ ∃ t0, Forall quiet t0 ∧
    t = t0 ++ if send then [LeftChannel guid] else [])).
  { destruct send; cbn [when]; [|apply wp_ret; split; [done|]; by exists []].
    apply wp_sends; [apply sends_notify_one|]. intros t Ht. apply wp_emit.
    split; [done|]. by exists t. }
  intros _ c1 t1 [-> (t0 & Ht0 & ->)]. apply (wp_player_at _ _ _ _ p Hp).
  apply wp_bind, wp_modify. change (c <| playersStore ::= _ |>) with (remove_member guid c).
  apply wp_sends; [apply sends_when, sends_notify_all|]. intros t2 Ht2.
  apply wp_sends; [apply sends_leave|]. intros t3 Ht3. apply wp_bind, wp_get.
  change (IsConstant (remove_member guid c)) with (IsConstant c).
  change (_ownership (remove_member guid c)) with (_ownership c).
  assert (∀ t, Forall quiet t → ∃ u1 u2,
    (t0 ++ if send then [LeftChannel guid] else []) ++ [] ++ t2 ++ t3 ++ [] ++ t = u1 ++ u2 ∧
    Forall quiet u1 ∧
    if send then ∃ u3, u2 = LeftChannel guid :: u3 ∧ Forall quiet u3 else Forall quiet u2) as Hl.
  { intros t Ht. rewrite <- app_assoc. exists t0. eexists. split; [done|]. split; [done|].
    destruct send; simpl; [eexists; split; [done|]|]; by rewrite !Forall_app. }
  destruct (IsConstant c); cbn [negb andb when].
  { apply wp_ret. split; [by destruct (map_begin _) as [[??]|]|]. by apply Hl. }
  apply wp_sends; [apply sends_usage|]. intros t4 Ht4.
  destruct (map_begin (playersStore (remove_member guid c))) as [[k q]|] eqn:Eb;
    [|apply wp_ret; split; [done|]; apply Hl; by rewrite app_nil_r].
  destruct (IsOwner p && _ownership c); cbn [when];
    [|apply wp_ret; split; [done|]; apply Hl; by rewrite app_nil_r].
  eapply wp_mono; [apply make_owner_spec|]. intros _ c' t5 [-> Ht5]. split; [done|].
  apply Hl. by apply Forall_app.
Qed.

Lemma leave_implements guid me send : implements (OpLeave guid me send).
Proof.
  intros c. eapply wp_mono; [apply leave_calls|].
  intros _ c' t [-> (t1 & t2 & -> & Ht1 & Ht2)]. split; [done|]. intros _ Hk.
  rewrite leave_dom by done. eapply lists_app; [by apply lists_quiet|].
  destruct (IsOn guid c) eqn:Hon.
  - apply IsOn_true in Hon as [p Hp]. apply elem_of_dom_2 in Hp.
    destruct send; simpl in *; [|by apply lists_quiet].
    destruct Ht2 as (t3 & -> & Ht3). apply run_left; [done|by apply lists_quiet].
  - rewrite andb_false_r in Ht2. apply IsOn_false, not_elem_of_dom in Hon.
    apply lists_quiet; [done|]. destruct send; simpl; set_solver.
Qed.

Lemma ban_step victim guid (ban silent : bool) c :
  wp (if ban && negb (IsBanned victim c) then
        modify (λ c, c <| bannedStore ::= λ s, {[ victim ]} ∪ s |>) ;;
        UpdateChannelInDB ;;
        when (negb silent) (notify_all (MakePlayerBanned victim guid))
      else when (negb silent) (notify_all (MakePlayerKicked victim guid)))
    (λ _ c' t, c' = (if ban then c <| bannedStore ::= λ s, {[ victim ]} ∪ s |> else c)
       ∧ Forall quiet t) c.
Proof.
  destruct ban; cbn [andb];
    [|by apply wp_sends_last; [apply sends_when, sends_notify_all|]].
  unfold IsBanned. case_bool_decide as Hb; cbn [negb].
  - apply wp_sends_last; [apply sends_when, sends_notify_all|]. intros t Ht.
    split; [|done]. symmetry. by apply ban_present.
  - apply wp_bind, wp_modify. apply wp_sends; [apply sends_update|]. intros t1 Ht1.
    apply wp_sends_last; [apply sends_when, sends_notify_all|]. intros t2 Ht2.
    split; [done|]. simpl. by apply Forall_app.
Qed.

(** Nobody is kicked, or the named member is. *)
Definition kick_refused (guid : Z) (me : PlayerView) (badname : string) (c : Channel) : bool :=
  negb (moderates guid me c) || (named badname =? 0) || negb (IsOn (named badname) c)
  || (negb (HasPermission me RBAC_PERM_CHANGE_CHANNEL_NOT_MODERATOR)
      && (_ownerGUID c =? named badname) && negb (guid =? _ownerGUID c)).
Definition one_leaves (g : Z) (t : list channel_event) : Prop :=
  ∃ t1 t2, t = t1 ++ LeftChannel g :: t2 ∧ Forall quiet t1 ∧ Forall quiet t2.
Lemma kick_run guid me badname ban c :
  wp (KickOrBan guid me badname ban) (λ _ c' t, c' = effect (OpKickOrBan guid me badname ban) c ∧
    if kick_refused guid me badname c then c' = c ∧ Forall quiet t
    else named badname ∈ dom (playersStore c) ∧ one_leaves (named badname) t ∧
      (named badname ≠ guid → dom (playersStore c') = dom (playersStore c) ∖ {[ named badname ]})) c.
Proof.
  cbn [effect]. unfold kick_refused, KickOrBan.
  apply wp_moderates; intros Hm; rewrite Hm; cbn [negb orb]; [|done].
  assert (∀ make, wp (notify_one make guid) (λ _ c' t, c' = c ∧ c' = c ∧ Forall quiet t) c) as Hno
    by (intros make; by apply wp_sends_last; [apply sends_notify_one|]).
  apply wp_bind, wp_get.
  change (match FindPlayerByName badname with Some (g, _) => g | None => 0 end)
    with (named badname). set (victim := named badname) in *.
  destruct ((victim =? 0) || negb (IsOn victim c)) eqn:Evic; cbn [orb]; [apply Hno|].
  assert (victim ∈ dom (playersStore c)) as Hvic.
  { apply orb_false_iff in Evic as [_ Evic]. by apply elem_of_dom, IsOn_true, negb_false_iff. }
  destruct (negb _ && (_ownerGUID c =? victim) && _); [apply Hno|].
  apply wp_bind. eapply wp_mono; [apply ban_step|]. intros _ c1 t1 [Hc1 Ht1]. rewrite <- Hc1.
  apply wp_bind, wp_modify. change (c1 <| playersStore ::= _ |>) with (remove_member victim c1).
  apply wp_bind, wp_emit, wp_bind, wp_get.
  assert (_ownership (remove_member victim c1) = _ownership c) as ->
    by (rewrite Hc1; by destruct ban).
  assert (playersStore c1 = playersStore c) as Hs by (rewrite Hc1; by destruct ban).
  assert (dom (playersStore (remove_member victim c1)) = dom (playersStore c) ∖ {[ victim ]}) as Hd
    by by rewrite remove_member_dom, Hs.
  assert (∀ t, Forall quiet t → one_leaves victim (t1 ++ [] ++ [LeftChannel victim] ++ [] ++ t)) as Hl
    by (intros t Ht; by exists t1, t).
  destruct ((_ownerGUID c =? victim) && _ownership c && _); cbn [when].
  - eapply wp_mono; [apply make_owner_spec|]. intros _ c' t5 [-> Ht5]. split_and!; [done|done|by apply Hl|].
    intros Hne. rewrite <- Hd. apply owner_set_put. rewrite Hd.
    unfold moderates in Hm. destruct (playersStore c !! guid) eqn:Eg; [|done].
    apply elem_of_dom_2 in Eg. set_solver.
  - apply wp_ret. split_and!; [done|done|by apply Hl|done].
Qed.

Lemma kick_implements guid me badname ban : implements (OpKickOrBan guid me badname ban).
Proof.
  intros c. cbn [run_op not_self lists_before]. eapply wp_mono; [apply kick_run|].
  intros _ c' t [-> Ht]. split; [done|]. intros Hne _. revert Ht.
  destruct (kick_refused guid me badname c).
  - intros [Hc Ht]. apply lists_quiet; [done|]. by rewrite Hc.
  - intros (Hin & (t1 & t2 & -> & H1 & H2) & Hd). eapply lists_app; [by apply lists_quiet|].
    apply run_left; [done|]. apply lists_quiet; [done|]. rewrite Hd; [done|lia].
Qed.

Lemma op_implements op : implements op.
Proof.
  destruct op;
    auto using join_implements, leave_implements, kick_implements, unban_implements,
      password_implements, setmode_implements, setowner_implements, who_implements,
      list_implements, announce_implements, say_implements, invite_implements.
Qed.
End Refinement.

(** ** The invariant of a channel *)

(** A member is stored under his guid, and only the recorded owner has the
    owner flag. *)
Definition member_ok (owner : Z) (k : Z) (p : PlayerInfo) : Prop :=
  player p = k ∧ k ≠ 0 ∧ (IsOwner p = true → k = owner).

Record channel_wf (c : Channel) : Prop := {
  wf_members : map_Forall (member_ok (_ownerGUID c)) (playersStore c);
  wf_bans : bannedStore c ## dom (playersStore c);
  wf_constant : _ownership c = true → IsConstant c = false }.

(** A channel with ownership is empty and was never owned, or the owner is a
    member and has the flag. *)
Definition has_owner (c : Channel) : Prop :=
  ∃ p, playersStore c !! _ownerGUID c = Some p ∧ IsOwner p = true.
Definition channel_owned (c : Channel) : Prop :=
  _ownership c = true → (playersStore c = ∅ ∧ _ownerGUID c = 0) ∨ has_owner c.

Definition actor (op : chan_op) : Z :=
  match op with
  | OpJoin g _ _ | OpLeave g _ _ | OpKickOrBan g _ _ _ | OpUnBan g _ _ | OpPassword g _ _
  | OpSetMode g _ _ _ _ | OpSetOwner g _ _ | OpWhoOwner g | OpList g _ | OpAnnounce g _
  | OpSay g _ _ | OpInvite g _ _ => g
  end.

Section Invariant.
Context `{ChannelEnv}.
Implicit Types c : Channel.

Lemma IsOwner_flag flag b p :
  Z.land MEMBER_FLAG_OWNER flag = 0 → IsOwner (set_member_flag flag b p) = IsOwner p.
Proof.
  intros Hf. unfold IsOwner, set_member_flag. simpl. destruct b.
  - rewrite has_flag_lor. unfold has_flag at 2. rewrite Z.land_comm, Hf. apply orb_false_r.
  - by apply has_flag_ldiff_other.
Qed.
Lemma IsOwner_set b p : IsOwner (info_SetOwner b p) = b.
Proof.
  unfold IsOwner, info_SetOwner, set_member_flag. simpl. destruct b.
  - rewrite has_flag_lor. apply orb_true_r.
  - apply has_flag_ldiff_same.
Qed.
Lemma player_flag flag b p : player (set_member_flag flag b p) = player p.
Proof. done. Qed.

Lemma member_ok_flag o k flag b p :
  Z.land MEMBER_FLAG_OWNER flag = 0 → member_ok o k p → member_ok o k (set_member_flag flag b p).
Proof. unfold member_ok. intros Hf. by rewrite IsOwner_flag, player_flag. Qed.

Lemma put_flag_wf v flag b c :
  Z.land MEMBER_FLAG_OWNER flag = 0 → v ∈ dom (playersStore c) → channel_wf c →
  channel_wf (put_player v (set_member_flag flag b) c).
Proof.
  intros Hf [p Hp]%elem_of_dom [Hm Hb Hc]. split; [| |done].
  - unfold put_player, setf. cbn [playersStore _ownerGUID]. rewrite Hp.
    apply map_Forall_insert_2; [|done]. apply member_ok_flag; [done|]. by apply Hm.
  - rewrite dom_put. apply elem_of_dom_2 in Hp. cbn. set_solver.
Qed.
Lemma put_flag_owner v flag b c :
  Z.land MEMBER_FLAG_OWNER flag = 0 → has_owner c → has_owner (put_player v (set_member_flag flag b) c).
Proof.
  intros Hf (p & Hp & Ho). unfold has_owner, put_player, setf. cbn [playersStore _ownerGUID].
  destruct (decide (v = _ownerGUID c)) as [->|Hne].
  - rewrite Hp, lookup_insert_eq. eexists. split; [done|]. simpl. by rewrite IsOwner_flag.
  - rewrite lookup_insert_ne by done. by exists p.
Qed.

Lemma cleared_members c :
  map_Forall (member_ok (_ownerGUID c)) (playersStore c) →
  map_Forall (λ k p, player p = k ∧ k ≠ 0 ∧ IsOwner p = false) (playersStore (owner_cleared c)).
Proof.
  intros Hm k p Hp.
  assert (playersStore (owner_cleared c) !! k =
    if decide (k = _ownerGUID c) then info_SetOwner false <$> playersStore c !! k
    else playersStore c !! k) as E.
  { unfold owner_cleared. case_decide as Hk.
    - subst k. destruct (playersStore c !! _ownerGUID c) as [q|] eqn:Eq; simpl; [|done].
      apply Hm in Eq as Hq. destruct Hq as (_ & Hne & _).
      rewrite (proj2 (Z.eqb_neq _ _) Hne). unfold setf. cbn [playersStore].
      by rewrite lookup_insert_eq.
    - destruct (playersStore c !! _ownerGUID c); [|done].
      destruct (_ownerGUID c =? 0); [done|]. unfold setf. cbn [playersStore].
      by rewrite lookup_insert_ne. }
  rewrite E in Hp. case_decide as Hk.
  - apply fmap_Some in Hp as (q & Hq & ->). apply Hm in Hq as (H1 & H2 & _).
    split_and!; [done|done|]. apply IsOwner_set.
  - apply Hm in Hp as (H1 & H2 & H3). split_and!; [done|done|].
    destruct (IsOwner p); [|done]. by rewrite H3 in Hk.
Qed.

Lemma owner_cleared_same c :
  (bannedStore (owner_cleared c), _ownership (owner_cleared c), _channelId (owner_cleared c))
  = (bannedStore c, _ownership c, _channelId c).
Proof.
  unfold owner_cleared. destruct (playersStore c !! _); [|done]. by destruct (_ =? _).
Qed.

Lemma owner_set_wf v c :
  v ≠ 0 → v ∈ dom (playersStore c) → channel_wf c →
  channel_wf (owner_set v c) ∧ has_owner (owner_set v c).
Proof.
  intros Hv Hin [Hm Hb Hc]. pose proof (cleared_members _ Hm) as Hcl.
  pose proof (owner_cleared_same c) as [= Ebs Eow Eid]. rewrite <- dom_cleared in Hin.
  apply elem_of_dom in Hin as [p Hp]. apply Hcl in Hp as Hpo. destruct Hpo as (Hpk & _ & _).
  unfold owner_set. rewrite (proj2 (Z.eqb_neq _ _) Hv). split.
  - split.
    + unfold put_player, setf. cbn [playersStore _ownerGUID]. rewrite Hp.
      apply map_Forall_insert_2.
      * split_and!; [by rewrite <- Hpk|done|done].
      * intros k q Hq. apply Hcl in Hq as (H1 & H2 & H3). unfold member_ok. by rewrite H3.
    + rewrite dom_put. unfold setf. cbn. rewrite Ebs, dom_cleared.
      apply elem_of_dom_2 in Hp. rewrite dom_cleared in Hp. set_solver.
    + unfold IsConstant in *. cbn. rewrite Eow, Eid. exact Hc.
  - unfold has_owner, put_player, setf. cbn [playersStore _ownerGUID].
    rewrite Hp, lookup_insert_eq. eexists. split; [done|]. apply IsOwner_set.
Qed.

(** Making an owner where there is none. *)
Lemma owner_set_absent v c :
  v ≠ 0 → playersStore c !! _ownerGUID c = None →
  owner_set v c = put_player v (λ p, info_SetOwner true (info_SetModerator true p))
                    (c <| _ownerGUID := v |>).
Proof.
  intros Hv Hn. unfold owner_set, owner_cleared. rewrite Hn.
  by rewrite (proj2 (Z.eqb_neq _ _) Hv).
Qed.

Definition channel_good (c : Channel) : Prop := channel_wf c ∧ channel_owned c.
(** After an operation the channel is good, or its last member left. *)
Definition good_or_empty (c : Channel) : Prop :=
  channel_wf c ∧ (channel_owned c ∨ playersStore c = ∅).

Lemma owned_by c : has_owner c → channel_owned c.
Proof. intros Ho _. by right. Qed.

Lemma set_flag_of_good v flag b c :
  Z.land MEMBER_FLAG_OWNER flag = 0 → channel_good c → channel_good (set_flag_of v flag b c).
Proof.
  intros Hf [Hw Ho]. unfold set_flag_of. destruct (playersStore c !! v) as [p|] eqn:Hp; [|done].
  destruct (Bool.eqb _ b); [done|]. apply elem_of_dom_2 in Hp. split; [by apply put_flag_wf|].
  intros Hown. destruct (Ho Hown) as [[He _]|Hh].
  - rewrite He in Hp. set_solver.
  - right. by apply put_flag_owner.
Qed.

Lemma add_member_wf guid c :
  guid ≠ 0 → guid ∉ bannedStore c → channel_wf c → channel_wf (add_member guid c).
Proof.
  intros Hg Hban [Hm Hb Hc]. split; [| |done].
  - apply map_Forall_insert_2; [by split_and!|done].
  - rewrite add_member_dom. cbn. set_solver.
Qed.
Lemma add_member_owner guid c :
  playersStore c !! guid = None → has_owner c → has_owner (add_member guid c).
Proof.
  intros Hg (p & Hp & Ho). exists p. split; [|done].
  unfold add_member, setf. cbn [playersStore _ownerGUID].
  rewrite lookup_insert_ne; [done|]. intros ->. by rewrite Hp in Hg.
Qed.
Lemma remove_member_wf guid c : channel_wf c → channel_wf (remove_member guid c).
Proof.
  intros [Hm Hb Hc]. split; [| |done].
  - by apply map_Forall_delete.
  - rewrite remove_member_dom. cbn. set_solver.
Qed.
Lemma remove_member_owner guid c :
  guid ≠ _ownerGUID c → has_owner c → has_owner (remove_member guid c).
Proof.
  intros Hg (p & Hp & Ho). exists p. split; [|done].
  unfold remove_member, setf. cbn [playersStore _ownerGUID]. by rewrite lookup_delete_ne.
Qed.

(** A moderator's flag, then the owner's. *)
Lemma make_owner_good v c :
  v ≠ 0 → v ∈ dom (playersStore c) → channel_wf c →
  channel_good (owner_set v (put_player v (info_SetModerator true) c)).
Proof.
  intros Hv Hin Hw. destruct (owner_set_wf v (put_player v (info_SetModerator true) c)) as [Hw' Ho'].
  - done.
  - rewrite dom_put. set_solver.
  - by apply put_flag_wf.
  - split; [done|]. by apply owned_by.
Qed.

Lemma good_good_or_empty c : channel_good c → good_or_empty c.
Proof. intros [Hw Ho]. split; auto. Qed.

Lemma join_good guid me pass c :
  guid ≠ 0 → channel_good c → channel_good (effect (OpJoin guid me pass) c).
Proof.
  intros Hg [Hw Ho]. cbn [effect]. destruct (IsOn guid c) eqn:Hon; [done|]. cbn [orb].
  destruct (refuses guid me pass c) eqn:Er; [done|].
  assert (guid ∉ bannedStore c) as Hban.
  { unfold refuses, IsBanned in Er. case_bool_decide; [done|done]. }
  apply IsOn_false in Hon. pose proof (add_member_wf _ _ Hg Hban Hw) as Hw'.
  destruct (negb (IsConstant c) && (_ownerGUID c =? 0) && _ownership c) eqn:Eo.
  - destruct (owner_set_wf guid (add_member guid c)) as [Hw2 Ho2]; [done| |done|].
    + rewrite add_member_dom. set_solver.
    + split; [apply put_flag_wf; [done| |done]|by apply owned_by, put_flag_owner].
      rewrite dom_owner_set; rewrite add_member_dom; set_solver.
  - split; [done|]. intros Hown. change (_ownership c = true) in Hown.
    rewrite Hown, (wf_constant _ Hw Hown) in Eo. simpl in Eo.
    destruct (Ho Hown) as [[_ Hz]|Hh]; [by rewrite Hz in Eo|].
    right. by apply add_member_owner.
Qed.

Lemma leave_good guid me send c :
  channel_good c → good_or_empty (effect (OpLeave guid me send) c).
Proof.
  intros [Hw Ho]. cbn [effect].
  destruct (playersStore c !! guid) as [p|] eqn:Hp; [|by apply good_good_or_empty].
  pose proof (remove_member_wf guid c Hw) as Hw'.
  destruct (map_begin (playersStore (remove_member guid c))) as [[k q]|] eqn:Eb.
  - apply map_begin_Some in Eb as [Eb _]. apply (wf_members _ Hw') in Eb as Hq.
    destruct Hq as (Hqk & Hk & _). apply good_good_or_empty.
    destruct (negb (IsConstant c) && IsOwner p && _ownership c) eqn:Eo.
    + rewrite Hqk. apply make_owner_good; [done| |done]. by apply elem_of_dom_2 in Eb.
    + split; [done|]. intros Hown. change (_ownership c = true) in Hown.
      rewrite Hown, (wf_constant _ Hw Hown), andb_true_r in Eo. simpl in Eo.
      destruct (Ho Hown) as [[He _]|(r & Hr & Hro)]; [by rewrite He in Hp|].
      right. apply remove_member_owner; [|by exists r]. intros ->. congruence.
  - apply map_begin_None in Eb. split; [done|]. by right.
Qed.

Lemma kick_good guid me badname ban c :
  guid ≠ 0 → named badname ≠ guid → channel_good c →
  channel_good (effect (OpKickOrBan guid me badname ban) c).
Proof.
  intros Hg Hne [Hw Ho]. cbn [effect]. set (victim := named badname) in *.
  destruct (moderates guid me c) eqn:Hm; cbn [negb orb]; [|done].
  destruct ((victim =? 0) || _ || _); [done|].
  set (c1 := if ban then _ else c).
  assert (playersStore c1 = playersStore c ∧ _ownership c1 = _ownership c ∧
    _ownerGUID c1 = _ownerGUID c ∧ IsConstant c1 = IsConstant c ∧
    bannedStore c1 ⊆ {[ victim ]} ∪ bannedStore c) as (Hs & Hown & Hog & Hco & Hbs).
  { subst c1. destruct ban; cbn; split_and!; try done; set_solver. }
  assert (channel_wf (remove_member victim c1)) as Hw'.
  { destruct Hw as [Hm' Hb Hc]. split.
    - cbn. rewrite Hs, Hog. by apply map_Forall_delete.
    - rewrite remove_member_dom, Hs. cbn. set_solver.
    - unfold IsConstant in *. cbn in *. rewrite Hown. intros E. rewrite Hco. auto. }
  assert (guid ∈ dom (playersStore (remove_member victim c1))) as Hin.
  { rewrite remove_member_dom, Hs. unfold moderates in Hm.
    destruct (playersStore c !! guid) eqn:Eg; [|done]. apply elem_of_dom_2 in Eg. set_solver. }
  rewrite (bool_decide_false (playersStore (remove_member victim c1) = ∅))
    by (intros E; rewrite E in Hin; set_solver).
  cbn [negb]. rewrite andb_true_r.
  destruct ((_ownerGUID c =? victim) && _ownership c) eqn:Eo; [by apply make_owner_good|].
  split; [done|]. intros E. change (_ownership c1 = true) in E. rewrite Hown in E.
  rewrite E, andb_true_r in Eo. apply Z.eqb_neq in Eo.
  destruct (Ho E) as [[He _]|(r & Hr & Hro)].
  - rewrite remove_member_dom, Hs, He in Hin. set_solver.
  - right. apply remove_member_owner; [by rewrite Hog|]. exists r. by rewrite Hs, Hog.
Qed.

(** Every operation but leaving keeps a channel good. *)
Lemma effect_stays_good op c :
  actor op ≠ 0 → not_self op = true → (∀ g me send, op ≠ OpLeave g me send) → channel_good c →
  channel_good (effect op c).
Proof.
  intros Ha Hself Hno Hc.
  destruct op as [guid me pass|guid me send|guid me badname ban| | | | | | | | |];
    [by apply join_good|by destruct (Hno guid me send)| |..].
  - apply kick_good; [done| |done]. simpl in Hself. lia.
  - cbn [effect]. destruct (_ && _); [|done]. destruct Hc as [[Hm Hb Hk] Ho].
    split; [|done]. split; [done| |done]. cbn. set_solver.
  - cbn [effect]. destruct (moderates _ _ _); [|done]. by destruct Hc as [[] ?].
  - cbn [effect]. destruct (_ || _); [done|]. destruct (target _ _ _); [|done].
    destruct (_ && _); [done|]. apply set_flag_of_good; [by destruct mod_|done].
  - cbn [effect]. destruct (_ || _); [done|].
    destruct (target me newname c) as [v|] eqn:Et; [|done].
    apply target_on in Et as [Hv Hin]. apply make_owner_good; [done|done|apply Hc].
  - done.
  - done.
  - cbn [effect]. destruct (moderates _ _ _); [|done]. by destruct Hc as [[] ?].
  - done.
  - done.
Qed.

Lemma effect_good op c :
  actor op ≠ 0 → not_self op = true → channel_good c → good_or_empty (effect op c).
Proof.
  intros Ha Hself Hc. destruct op; try (by apply leave_good);
    apply good_good_or_empty, effect_stays_good; done.
Qed.

(** *** What no operation changes *)

(** What a channel was made with: its name, number, flags, and whether it has
    an owner. *)
Definition identity (c : Channel) : string * Z * Z * bool :=
  (_name c, _channelId c, _flags c, _ownership c).
(** The channels of the group finder have no owner. *)
Definition lfg_unowned (c : Channel) : Prop := IsLFG c = true → _ownership c = false.

Lemma identity_owner_set v c : identity (owner_set v c) = identity c.
Proof.
  unfold owner_set, owner_cleared, identity.
  destruct (v =? 0), (playersStore c !! _ownerGUID c), (_ownerGUID c =? 0); done.
Qed.
Lemma identity_put v f c : identity (put_player v f c) = identity c.
Proof. done. Qed.

Lemma effect_identity op c : identity (effect op c) = identity c.
Proof.
  destruct op; cbn [effect]; repeat (case_match; try done);
    rewrite ?identity_put, ?identity_owner_set, ?identity_put; try done;
    unfold set_flag_of; by repeat case_match.
Qed.

(** Only the player who acts can become a member. *)
Lemma effect_members op c :
  keys_ok c → dom (playersStore (effect op c)) ⊆ {[ actor op ]} ∪ dom (playersStore c).
Proof.
  intros Hk. destruct op as [guid me pass|guid me send|guid me badname ban| | |guid me p2n mod_ b
    |guid me newname| | | | |]; cbn [effect actor].
  - destruct (_ || _); [set_solver|]. destruct (_ && _ && _); [|rewrite add_member_dom; set_solver].
    rewrite dom_put, dom_owner_set; rewrite add_member_dom; set_solver.
  - destruct (playersStore c !! guid) as [p|]; [|set_solver].
    pose proof (remove_member_dom guid c) as Hd.
    destruct (map_begin (playersStore (remove_member guid c))) as [[k q]|] eqn:Eb; [|set_solver].
    destruct (_ && _ && _); [|set_solver]. apply map_begin_Some in Eb as [Eb _].
    pose proof (elem_of_dom_2 _ _ _ Eb) as Hin.
    change (delete guid (playersStore c) !! k = Some q) in Eb.
    apply lookup_delete_Some in Eb as [_ Eb]. apply Hk in Eb. subst k. rewrite owner_set_put by done. set_solver.
  - destruct (_ || _); [set_solver|]. set (c1 := if ban then _ else c).
    assert (playersStore c1 = playersStore c) as Hs by (subst c1; by destruct ban).
    pose proof (remove_member_dom (named badname) c1) as Hd. rewrite Hs in Hd.
    destruct (_ && _); [|set_solver].
    unfold owner_set. destruct (guid =? 0); rewrite ?dom_put; unfold setf; cbn [playersStore];
      rewrite dom_cleared, dom_put, Hd; set_solver.
  - destruct (_ && _); set_solver.
  - destruct (moderates _ _ _); set_solver.
  - destruct (_ || _); [set_solver|]. destruct (target _ _ _); [|set_solver].
    destruct (_ && _); [set_solver|]. rewrite dom_set_flag_of. set_solver.
  - destruct (_ || _); [set_solver|]. destruct (target me newname c) as [v|] eqn:E; [|set_solver].
    apply target_on in E as [_ E]. rewrite owner_set_put by done. set_solver.
  - set_solver.
  - set_solver.
  - destruct (moderates _ _ _); set_solver.
  - set_solver.
  - set_solver.
Qed.

Lemma new_Channel_good row name channelId team :
  (channelId ≠ 0 → is_Some (sChatChannelsStore channelId)) →
  channel_good (new_Channel row name channelId team).1.
Proof.
  intros Hid. unfold new_Channel. destruct (sChatChannelsStore channelId) as [dbc|] eqn:E.
  - split; [split; [done|set_solver|done]|done].
  - assert (channelId = 0) as -> by (destruct (decide (channelId = 0)); [done|]; by destruct Hid).
    destruct CONFIG_PRESERVE_CUSTOM_CHANNELS; [|split; [split|left]; done].
    destruct row as [[[[a o] pw] l]|]; (split; [split; [done|set_solver|done]|by left]).
Qed.
Lemma new_Channel_fresh row name channelId team :
  let c := (new_Channel row name channelId team).1 in
  playersStore c = ∅ ∧ _name c = name ∧ lfg_unowned c.
Proof.
  unfold new_Channel, lfg_unowned, IsLFG, Channel_flags.
  destruct (sChatChannelsStore channelId); [done|].
  destruct CONFIG_PRESERVE_CUSTOM_CHANNELS; [|done]. by destruct row as [[[[a o] pw] l]|].
Qed.

Lemma wf_keys c : channel_wf c → keys_ok c.
Proof. intros [Hm _ _] k p Hp. by apply Hm in Hp as [? _]. Qed.
End Invariant.

(** ** A world with three players, for the witnesses *)

Definition player0 (name : string) (team : Z) (perms : list Z) : PlayerView :=
  mkPlayerView name team SEC_PLAYER false 0 true (λ _, false) (λ _, true)
    ((new_RBACData 1 name 1) <| _globalPerms := foldr (λ p acc, Bitset.set acc p) 0 perms |>).
Definition ann : PlayerView := player0 "Ann" 469 [].
Definition bob : PlayerView := player0 "Bob" 469 [].
Definition cid : PlayerView := player0 "Cid" 469 [].
#[export] Instance channel_env0 : ChannelEnv := {|
  FindPlayer := λ g, if g =? 10 then Some ann else if g =? 20 then Some bob
                     else if g =? 30 then Some cid else None;
  FindPlayerByName := λ n, if String.eqb n "Ann" then Some (10, ann)
                           else if String.eqb n "Bob" then Some (20, bob)
                           else if String.eqb n "Cid" then Some (30, cid) else None;
  GetPlayerNameByGUID := λ _, None;
  sChatChannelsStore := λ id, if id =? 26 then Some 0x40000 else None;
  CONFIG_PRESERVE_CUSTOM_CHANNELS := true;
  CONFIG_PRESERVE_CUSTOM_CHANNEL_DURATION := 14;
  CONFIG_RESTRICTED_LFG_CHANNEL := true;
  CONFIG_ALLOW_TWO_SIDE_INTERACTION_CHANNEL := false;
  CONFIG_GM_LEVEL_IN_WHO_LIST := 3 |}.
Definition channel0 : Channel := (new_Channel None "trade" 0 469).1.
(** Ann made the channel, Bob joined. *)
Definition channel2 : Channel :=
  rstate (JoinChannel 20 bob "" (rstate (JoinChannel 10 ann "" channel0))).

(** ** Properties of the channels *)

(** C9: Every operation of a channel runs to its end and leaves the channel as
    its packet-free description says, on every branch (missing member, missing
    permission, unknown player, owner protected from moderators, ...); the
    players' own lists of channels are brought in line with the members, by
    exactly one [JoinedChannel] or [LeftChannel] call for each change, except
    when a moderator kicks himself. *)
Theorem channel_op_refines `{ChannelEnv} op c :
  wp (run_op op) (λ _ c' t, c' = effect op c ∧
    (not_self op = true → keys_ok c →
      list_run (lists_before op c) t (dom (playersStore c')))) c.
Proof. apply op_implements. Qed.

Lemma channel_op_refines_witness :
  wp (run_op (OpKickOrBan 10 ann "Bob" true)) (λ _ c' t,
    list_run (dom (playersStore channel2)) t (dom (playersStore c')) ∧
    (elements (dom (playersStore c')), elements (bannedStore c')) = ([10], [20])) channel2.
Proof.
  eapply wp_mono; [apply (channel_op_refines (OpKickOrBan 10 ann "Bob" true) channel2)|].
  intros _ c' t [Hc Hl]. split.
  - apply Hl; [vm_compute; reflexivity|].
    apply (bool_decide_unpack (map_Forall (λ k p, player p = k) (playersStore channel2))).
    vm_compute. exact I.
  - rewrite Hc. vm_compute. reflexivity.
Defined.

(** C10: The invariant of a channel: every member is stored under his own
    non-zero guid, nobody but the recorded owner has the owner flag, no member
    is banned, and a channel with ownership that has members has an owner among
    them.  A new channel, fresh or loaded, has it, and every operation of a
    player other than kicking himself preserves it, except that the last member
    may leave. *)
Theorem channel_invariant `{ChannelEnv} op c row name channelId team :
  (channelId ≠ 0 → is_Some (sChatChannelsStore channelId)) →
  channel_good (new_Channel row name channelId team).1 ∧
  (actor op ≠ 0 → not_self op = true → channel_good c →
   wp (run_op op) (λ _ c' _, good_or_empty c') c).
Proof.
  intros Hid. split; [by apply new_Channel_good|].
  intros Ha Hs Hc. eapply wp_mono; [apply op_implements|].
  intros _ c' t [-> _]. by apply effect_good.
Qed.

Lemma channel_good_dec_channel2 c :
  playersStore c = {[ 10 := mkPlayerInfo 10 3; 20 := mkPlayerInfo 20 0 ]} →
  _ownerGUID c = 10 → bannedStore c = ∅ → IsConstant c = false →
  channel_good c.
Proof.
  intros Hp Ho Hb Hc. split; [split|].
  - rewrite Hp, Ho. intros k p [[<- <-]|[Hk [<- <-]%lookup_singleton_Some]]%lookup_insert_Some;
      by split_and!.
  - rewrite Hb. clear. set_solver.
  - done.
  - intros _. right. exists (mkPlayerInfo 10 3). by rewrite Hp, Ho.
Qed.

Lemma channel_invariant_witness :
  channel_good channel0 ∧ wp (run_op (OpLeave 10 ann true)) (λ _ c' _, good_or_empty c') channel2.
Proof.
  destruct (channel_invariant (OpLeave 10 ann true) channel2 None "trade" 0 469) as [H1 H2];
    [by intros []|].
  split; [exact H1|]. apply H2; [done|done|].
  apply channel_good_dec_channel2; vm_compute; reflexivity.
Defined.

(** C39: A player who neither moderates the channel nor owns it, and has no
    permission to act as a moderator, changes nothing: whatever he tries but
    joining and leaving, members, flags, bans, owner, password and settings
    stay as they are. *)
Theorem unprivileged_changes_nothing `{ChannelEnv} op c me :
  match op with
  | OpJoin _ _ _ | OpLeave _ _ _ => False
  | OpKickOrBan _ m _ _ | OpUnBan _ m _ | OpPassword _ m _ | OpSetMode _ m _ _ _ | OpSetOwner _ m _
  | OpList _ m | OpAnnounce _ m | OpInvite _ m _ => m = me
  | OpWhoOwner _ | OpSay _ _ _ => True
  end →
  HasPermission me RBAC_PERM_CHANGE_CHANNEL_NOT_MODERATOR = false →
  (∀ p, playersStore c !! actor op = Some p → IsModerator p = false) →
  actor op ≠ _ownerGUID c →
  wp (run_op op) (λ _ c' _, c' = c) c.
Proof.
  intros Hop Hme Hmod Hown. eapply wp_mono; [apply op_implements|]. intros _ c' t [-> _].
  assert (moderates (actor op) me c = false) as Hm.
  { unfold moderates. destruct (playersStore c !! actor op) as [p|] eqn:E; [|done].
    by rewrite (Hmod p eq_refl), Hme. }
  apply Z.eqb_neq in Hown.
  destruct op; simpl in *; subst; rewrite ?Hm, ?Hme, ?Hown; simpl; rewrite ?orb_true_r; done.
Qed.

Lemma unprivileged_changes_nothing_witness :
  wp (run_op (OpSetOwner 20 bob "Bob")) (λ _ c' _, c' = channel2) channel2.
Proof.
  apply (unprivileged_changes_nothing (OpSetOwner 20 bob "Bob") channel2 bob).
  - reflexivity.
  - vm_compute. reflexivity.
  - assert (playersStore channel2 !! 20 = Some (mkPlayerInfo 20 0)) as E by (vm_compute; reflexivity).
    cbn [actor]. rewrite E. intros p [= <-]. reflexivity.
  - vm_compute. discriminate.
Defined.

(** ** Answers and packets *)

(** What [SendToOne] and [SendToAll] send. *)
Definition reply `{ChannelEnv} (who : Z) (data : WorldPacket) : list channel_event :=
  match FindPlayer who with Some _ => [SendPacket who data] | None => [] end.
Definition hears `{ChannelEnv} (guid : Z) (k : Z) : bool :=
  match FindPlayer k with
  | Some p => (guid =? 0) || negb (HasIgnore p (u32 guid))
  | None => false
  end.
Definition broadcast `{ChannelEnv} (guid : Z) (data : WorldPacket) (c : Channel) : list channel_event :=
  (λ k, SendPacket k data) <$> filter (λ k, hears guid k = true) (map_iter (playersStore c)).*1.

Section Packets.
Context `{ChannelEnv}.

Lemma SendToOne_run data who c : SendToOne data who c = Done tt c (reply who data).
Proof. unfold SendToOne, reply. by destruct (FindPlayer who). Qed.
Lemma notify_one_run make who c : notify_one make who c = Done tt c (reply who (make c)).
Proof. unfold notify_one, mbind, act_bind. simpl. by rewrite SendToOne_run. Qed.

Lemma SendToAll_run data guid c : SendToAll data guid c = Done tt c (broadcast guid data c).
Proof.
  unfold SendToAll, mbind, act_bind, broadcast. simpl.
  match goal with |- prepend [] ?m = _ => enough (m = Done tt c
    ((λ k, SendPacket k data) <$> filter (λ k, hears guid k = true) (map_iter (playersStore c)).*1))
    as -> by done end.
  generalize (map_iter (playersStore c)) as l. induction l as [|[k p] l IH]; [done|].
  cbn [forM_]. unfold mbind, act_bind in IH |- *. cbn [fmap list_fmap fst].
  rewrite filter_cons.
  assert (match FindPlayer k with
          | Some p => when ((guid =? 0) || negb (HasIgnore p (u32 guid))) (emit (SendPacket k data))
          | None => mret tt
          end = when (hears guid k) (emit (SendPacket k data))) as ->
    by (unfold hears; by destruct (FindPlayer k)).
  destruct (hears guid k); cbn [when]; [rewrite decide_True by done|rewrite decide_False by done];
    [unfold emit at 1|]; simpl; by rewrite IH.
Qed.

Lemma if_member_run guid k c p :
  playersStore c !! guid = Some p → if_member guid k c = k c.
Proof.
  intros Hp. unfold if_member, mbind, act_bind. simpl. unfold IsOn.
  rewrite bool_decide_true by (by eexists). by destruct (k c).
Qed.
End Packets.

(** A player is refused at the door with exactly one answer and no change:
    a member is told that he is one (in built-in channels he is told nothing),
    a banned player that he is banned, even with the right password, a wrong
    password is answered as such, and the looking-for-group channel is closed
    to a player in a group. *)
Theorem join_refused `{ChannelEnv} guid me pass c :
  IsOn guid c || refuses guid me pass c = true →
  JoinChannel guid me pass c = Done tt c
    (if IsOn guid c then
       (if IsConstant c then [] else reply guid (MakePlayerAlreadyMember guid c))
     else reply guid
       (if bool_decide (guid ∈ bannedStore c) then MakeBanned c
        else if negb (String.eqb (_password c) "") && negb (String.eqb pass (_password c))
             then MakeWrongPassword c
        else MakeNotInLfg c)).
Proof.
  intros Hr. unfold JoinChannel, mbind, act_bind. cbn [get prepend app].
  change (bool_decide (guid ∈ bannedStore c)) with (IsBanned guid c).
  unfold refuses in Hr. destruct (IsOn guid c).
  { destruct (IsConstant c); [done|]. cbn [negb when]. rewrite notify_one_run.
    unfold reply. by destruct (FindPlayer guid). }
  destruct (IsBanned guid c); [by rewrite notify_one_run|].
  destruct (negb _ && _); [by rewrite notify_one_run|]. cbn [orb] in Hr. rewrite Hr.
  by rewrite notify_one_run.
Qed.

Lemma join_refused_witness :
  JoinChannel 30 cid "open" (SetPassword "sesame" channel2) = Done tt (SetPassword "sesame" channel2)
    [SendPacket 30 (mkWorldPacket SMSG_CHANNEL_NOTIFY [U8 CHAT_WRONG_PASSWORD_NOTICE; Str "trade"])].
Proof.
  rewrite (join_refused 30 cid "open" (SetPassword "sesame" channel2)); vm_compute; reflexivity.
Defined.

(** When the owner leaves a custom channel that others are still in, the
    member with the smallest guid is the new owner: he gets both the owner and
    the moderator flag, nobody else keeps the owner flag, and the other members
    stay what they were. *)
Theorem leave_passes_ownership `{ChannelEnv} guid me send c p :
  channel_wf c → playersStore c !! guid = Some p → IsOwner p = true →
  _ownership c = true → dom (playersStore c) ≠ {[ guid ]} →
  wp (LeaveChannel guid me send) (λ _ c' _, ∃ q,
    let heir := _ownerGUID c' in
    playersStore c' = <[heir := q]> (delete guid (playersStore c)) ∧
    heir ≠ guid ∧ heir ∈ dom (playersStore c) ∧
    (∀ k, k ∈ dom (playersStore c) → k ≠ guid → heir <= k) ∧
    IsOwner q = true ∧ IsModerator q = true) c.
Proof.
  intros Hw Hp Ho Hown Hne. pose proof (op_implements (OpLeave guid me send) c) as Hi.
  cbn [run_op] in Hi. eapply wp_mono; [exact Hi|]. clear Hi.
  intros _ c' t [-> _]. cbn [effect]. rewrite Hp, Hown, Ho, (wf_constant _ Hw Hown). cbn [negb andb].
  pose proof (remove_member_dom guid c) as Hd.
  assert (_ownerGUID c = guid) as Hog
    by (symmetry; apply (wf_members _ Hw) in Hp as (_ & _ & Hf); auto).
  change (playersStore (remove_member guid c)) with (delete guid (playersStore c)) in *.
  destruct (map_begin (delete guid (playersStore c))) as [[k q]|] eqn:Eb.
  - apply map_begin_Some in Eb as [Eb Hmin]. apply lookup_delete_Some in Eb as Hk.
    destruct Hk as [Hgk Hk]. apply (wf_members _ Hw) in Hk as Hq. destruct Hq as (Hqk & Hk0 & _).
    rewrite Hqk, owner_set_absent; [|done|].
    + exists (info_SetOwner true (info_SetModerator true (info_SetModerator true q))).
      cbn [put_player setf eta eta_Channel playersStore _ownerGUID remove_member].
      rewrite Eb. cbn [default id from_option]. rewrite insert_insert_eq, lookup_insert_eq.
      split_and!; try done.
      * by apply elem_of_dom_2 in Hk.
      * intros k' [p' Hk']%elem_of_dom Hne'. apply (Hmin k' p'). by apply lookup_delete_Some.
      * apply IsOwner_set.
      * unfold IsModerator, info_SetOwner, info_SetModerator, set_member_flag.
        cbn [flags setf eta eta_PlayerInfo]. rewrite !has_flag_lor.
        change (has_flag MEMBER_FLAG_MODERATOR MEMBER_FLAG_MODERATOR) with true.
        by rewrite !orb_true_r.
    + unfold put_player, remove_member, setf. cbn [playersStore _ownerGUID].
      rewrite Hog, lookup_insert_ne by done. apply lookup_delete_eq.
  - apply map_begin_None in Eb. destruct Hne. rewrite Eb, dom_empty_L in Hd.
    apply elem_of_dom_2 in Hp. clear -Hd Hp. apply set_eq. intros k.
    destruct (decide (k = guid)); set_solver.
Qed.

Lemma leave_passes_ownership_witness :
  wp (LeaveChannel 10 ann true) (λ _ c' _, _ownerGUID c' = 20) channel2.
Proof.
  eapply wp_mono; [apply (leave_passes_ownership 10 ann true channel2 (mkPlayerInfo 10 3))|].
  - apply channel_good_dec_channel2; vm_compute; reflexivity.
  - vm_compute. reflexivity.
  - reflexivity.
  - vm_compute. reflexivity.
  - intros E. assert (20 ∈ ({[ 10 ]} : gset Z)) as Hin.
    { rewrite <- E. apply elem_of_dom. vm_compute. by eexists. }
    vm_compute in Hin. discriminate.
  - intros _ c' t (q & _ & Hne & Hin & _). simpl in *.
    assert (dom (playersStore channel2) = {[ 10; 20 ]}) as E by (vm_compute; reflexivity).
    rewrite E in Hin. set_solver.
Defined.


(** The packet of a line of chat. *)
Definition chat_packet (name what : string) (guid lang tag : Z) : WorldPacket :=
  mkWorldPacket SMSG_MESSAGECHAT
    [U8 CHAT_MSG_CHANNEL; U32 lang; U64 guid; U32 0; Str name; U64 guid;
     U32 (u32 (Z.of_nat (String.length what) + 1)); Str what; U8 tag].

(** What a member says reaches, once each and in the order of the member
    list, exactly the members who are online and do not ignore the speaker; a
    moderator is heard by those who ignore him too.  A muted member is told so
    and nobody hears him; whoever is not a member is told that; an empty line
    does nothing.  The channel does not change. *)
Theorem say_delivery `{ChannelEnv} guid what lang c :
  what ≠ "" →
  let tag := match FindPlayer guid with Some p => GetChatTag p | None => 0 end in
  let spoken := if CONFIG_ALLOW_TWO_SIDE_INTERACTION_CHANNEL then LANG_UNIVERSAL else lang in
  Say guid what lang c = Done tt c
    (match playersStore c !! guid with
     | None => reply guid (MakeNotMember c)
     | Some p =>
         if IsMuted p then reply guid (MakeMuted c)
         else broadcast (if IsModerator p then 0 else guid)
                (chat_packet (_name c) what guid spoken tag) c
     end) ∧ Say guid "" lang c = Done tt c [].
Proof.
  intros Hw tag spoken. split; [|done]. unfold Say.
  apply String.eqb_neq in Hw. rewrite Hw. destruct (playersStore c !! guid) as [p|] eqn:Hp.
  - rewrite (if_member_run _ _ _ _ Hp). unfold mbind, act_bind.
    rewrite (player_at_known _ _ _ Hp). cbn [prepend app].
    destruct (IsMuted p); [by rewrite notify_one_run|]. cbn [get prepend app].
    rewrite SendToAll_run. by destruct (IsModerator p).
  - unfold if_member, mbind, act_bind. cbn [get prepend app]. unfold IsOn.
    rewrite bool_decide_false by (rewrite Hp; by intros []). by rewrite notify_one_run.
Qed.

Lemma say_delivery_witness :
  Say 20 "hi" 7 channel2 = Done tt channel2
    [SendPacket 10 (chat_packet "trade" "hi" 20 7 0); SendPacket 20 (chat_packet "trade" "hi" 20 7 0)].
Proof.
  destruct (say_delivery 20 "hi" 7 channel2) as [E _]; [discriminate|].
  rewrite E. vm_compute. reflexivity.
Defined.

(** *** The saved channel *)

Lemma banlist_separators l : banlist l = with_separators " " (print_u64 <$> l).
Proof. induction l as [|g l IH]; [done|]. simpl. by rewrite IH. Qed.

Lemma print_token_ok z : 0 <= z → token_ok " " (print_u64 z).
Proof.
  intros Hz. pose proof (print_digits_only 20 z Hz) as Hd. unfold digits_only in Hd.
  rewrite Forall_forall in Hd.
  split; intros Hin%Hd%digit_not_space; by destruct Hin as (_ & _ & _ & H1 & H2).
Qed.

Definition guid_ok (g : Z) : Prop := 0 < g < 2 ^ 63.

Lemma read_banlist_loop l (acc : gset Z) :
  Forall guid_ok l →
  foldl (λ acc tok, let guid := u64 (atol tok) in
           if negb (guid =? 0) then {[ guid ]} ∪ acc else acc) acc (print_u64 <$> l)
  = list_to_set l ∪ acc.
Proof.
  intros Hl. revert acc. induction Hl as [|g l Hg Hl IH]; intros acc; cbn [fmap list_fmap foldl];
    [set_solver|].
  unfold guid_ok in Hg. rewrite atol_print, wrapu_id by lia.
  rewrite (proj2 (Z.eqb_neq g 0)) by lia. cbn [negb]. rewrite IH. set_solver.
Qed.

Lemma read_banlist_of (X : gset Z) :
  set_Forall guid_ok X → read_banlist (banlist (set_iter X)) = X.
Proof.
  intros HX. assert (Forall guid_ok (set_iter X)) as Hl.
  { apply Forall_forall. intros g Hg%elem_of_set_iter. by apply HX. }
  unfold read_banlist, Tokenizer. rewrite banlist_separators.
  change (Ascii.eqb " " NUL) with false. rewrite tokenizer_with_separators; cbn [default from_option id].
  - rewrite read_banlist_loop by done. apply set_eq. intros g.
    rewrite elem_of_union, elem_of_list_to_set, elem_of_set_iter. set_solver.
  - apply Forall_fmap. eapply Forall_impl; [exact Hl|]. intros g Hg. apply print_token_ok.
    unfold guid_ok in Hg. lia.
Qed.

(** C38: Saving and loading a custom channel gives it back: what
    [UpdateChannelInDB] writes, read by the constructor when the channel is
    opened again, restores announcements, ownership, password and the ban list
    (the members are gone, and nobody owns it). *)
Theorem channel_save_load `{ChannelEnv} c team :
  CONFIG_PRESERVE_CUSTOM_CHANNELS = true → sChatChannelsStore 0 = None →
  _IsSaved c = true → set_Forall guid_ok (bannedStore c) →
  ∃ announce ownership password list,
    UpdateChannelInDB c = Done tt c
      [CHAR_UPD_CHANNEL announce ownership password list (_name c) (_Team c)] ∧
    new_Channel (Some (announce, ownership, password, Some list)) (_name c) 0 team =
      (mkChannel (_announce c) (_ownership c) true CHANNEL_FLAG_CUSTOM 0 team 0 (_name c)
         (_password c) ∅ (bannedStore c), []).
Proof.
  intros Hcfg Hdbc Hsaved Hban.
  exists (_announce c), (_ownership c), (_password c), (banlist (set_iter (bannedStore c))). split.
  - unfold UpdateChannelInDB, mbind, act_bind. cbn [get prepend app]. by rewrite Hsaved.
  - unfold new_Channel, Channel_flags. rewrite Hdbc, Hcfg. cbv beta iota zeta. by rewrite read_banlist_of.
Qed.

Lemma channel_save_load_witness :
  let c := rstate (Ban 10 ann "Bob" channel2) in
  (new_Channel (Some (true, true, "", Some "20 ")) "trade" 0 469).1 =
    mkChannel true true true 1 0 469 0 "trade" "" ∅ {[ 20 ]} ∧
  UpdateChannelInDB c = Done tt c [CHAR_UPD_CHANNEL true true "" "20 " "trade" 469].
Proof.
  intros c. assert (bannedStore c = {[ 20 ]}) as Eb by (vm_compute; reflexivity).
  destruct (channel_save_load c 469) as (a & o & pw & l & Hs & Hn).
  - reflexivity.
  - reflexivity.
  - vm_compute. reflexivity.
  - rewrite Eb. intros g Hg%elem_of_singleton. subst g. unfold guid_ok. lia.
  - assert (UpdateChannelInDB c = Done tt c [CHAR_UPD_CHANNEL true true "" "20 " "trade" 469]) as E
      by (vm_compute; reflexivity).
    split; [|exact E]. rewrite E in Hs.
    apply (f_equal (λ r, match r with
      | Done _ _ (CHAR_UPD_CHANNEL a o pw l _ _ :: _) => (a, o, pw, l) | _ => (a, o, pw, l) end)) in Hs.
    cbn in Hs. injection Hs as <- <- <- <-.
    rewrite Eb in Hn. change (_name c) with "trade" in Hn. rewrite Hn. vm_compute. reflexivity.
Defined.

(** *** The member list *)

(** The members that [me] is shown. *)
Definition shown `{ChannelEnv} (guid : Z) (me : PlayerView) (kp : Z * PlayerInfo) : bool :=
  match FindPlayer kp.1 with
  | Some member =>
      (HasPermission me RBAC_PERM_WHO_SEE_ALL_SEC_LEVELS
       || (GetSecurity member <=? CONFIG_GM_LEVEL_IN_WHO_LIST))
      && IsVisibleGloballyFor member guid
  | None => false
  end.
Definition list_entry (kp : Z * PlayerInfo) : list field := [U64 kp.1; U8 (flags kp.2)].

Lemma List_loop_run `{ChannelEnv} guid me l data count :
  0 <= count → count + Z.of_nat (length l) < 2 ^ 32 →
  List_loop guid me l data count =
    (mkWorldPacket (m_opcode data)
       (body data ++ (filter (λ kp, shown guid me kp = true) l ≫= list_entry)),
     count + Z.of_nat (length (filter (λ kp, shown guid me kp = true) l))).
Proof.
  revert data count. induction l as [|[k p] l IH]; intros data count H0 Hlt.
  - cbn. rewrite app_nil_r, Z.add_0_r. by destruct data.
  - cbn [List_loop length] in *. rewrite filter_cons.
    assert (∀ d n, match FindPlayer k with
       | Some member =>
           if (HasPermission me RBAC_PERM_WHO_SEE_ALL_SEC_LEVELS
               || (GetSecurity member <=? CONFIG_GM_LEVEL_IN_WHO_LIST))
              && IsVisibleGloballyFor member guid
           then d else n
       | None => n
       end = if shown guid me (k, p) then d else n : WorldPacket * Z) as Hs
      by (intros d n; unfold shown; cbn [fst]; by destruct (FindPlayer k)).
    rewrite Hs. destruct (shown guid me (k, p)).
    + rewrite wrapu_id, IH by lia. rewrite decide_True by done. unfold stream, setf. cbn.
      f_equal; [|lia]. by rewrite <- !app_assoc.
    + rewrite IH by lia. by rewrite decide_False by done.
Qed.

(** The member list a member asks for names, in guid order, every member who
    is online and visible to him, with the member's flags, and the count in the
    header, patched in after the loop, is the number of entries that follow. *)
Theorem list_packet `{ChannelEnv} guid me c :
  is_Some (playersStore c !! guid) → Z.of_nat (size (playersStore c)) < 2 ^ 32 →
  let entries := filter (λ kp, shown guid me kp = true) (map_iter (playersStore c)) in
  List guid me c = Done tt c
    (reply guid (mkWorldPacket SMSG_CHANNEL_LIST
       ([U8 1; Str (_name c); U8 (_flags c); U32 (Z.of_nat (length entries))]
        ++ (entries ≫= list_entry)))).
Proof.
  intros [p Hp] Hsz entries. unfold List. rewrite (if_member_run _ _ _ _ Hp).
  unfold mbind at 1, act_bind. cbn [get prepend app].
  rewrite List_loop_run by (try rewrite length_map_iter; lia). cbn [fst snd].
  rewrite SendToOne_run. done.
Qed.

Lemma list_packet_witness :
  List 20 bob channel2 = Done tt channel2
    [SendPacket 20 (mkWorldPacket SMSG_CHANNEL_LIST
       [U8 1; Str "trade"; U8 1; U32 2; U64 10; U8 3; U64 20; U8 0])].
Proof.
  rewrite (list_packet 20 bob channel2); [vm_compute; reflexivity| |vm_compute; reflexivity].
  vm_compute. by eexists.
Defined.

(** C40: The owner of a custom channel, with the moderator flag that owners get, who
    kicks himself comes back as a phantom when others are in the channel: the one
    change of anybody's list of channels is that his own list loses this one, but
    his entry in the channel is re-created by [playersStore[newowner]], owned by him
    and with player guid 0; alone, he leaves behind an empty channel with himself as
    recorded owner, which no later joiner comes to own. *)
Theorem self_kick `{ChannelEnv} guid me name ban c p :
  guid ≠ 0 → named name = guid → _ownerGUID c = guid → _ownership c = true →
  playersStore c !! guid = Some p → IsModerator p = true →
  wp (KickOrBan guid me name ban) (λ _ c' t,
    filter (λ e, ¬ quiet e) t = [LeftChannel guid] ∧
    if bool_decide (dom (playersStore c) = {[ guid ]}) then
      playersStore c' = ∅ ∧ _ownerGUID c' = guid ∧
      ∀ other you pass, effect (OpJoin other you pass) c' = c' ∨
        effect (OpJoin other you pass) c' = add_member other c'
    else
      playersStore c' = <[guid := mkPlayerInfo 0 (Z.lor MEMBER_FLAG_OWNER MEMBER_FLAG_MODERATOR)]>
                          (playersStore c)) c.
Proof.
  intros Hg Hname Hog Hown Hp Hm.
  eapply wp_mono; [apply kick_run|].
  intros _ c' t [-> Ht]. split.
  { revert Ht. unfold kick_refused, moderates. rewrite Hname, Hp, Hm, Hog, Z.eqb_refl, andb_false_r, (proj2 (Z.eqb_neq _ _) Hg).
    assert (IsOn guid c = true) as -> by (apply bool_decide_true; rewrite Hp; by eexists).
    cbn [negb orb andb]. intros (_ & (t1 & t2 & -> & H1 & H2) & _).
    assert (∀ l, Forall quiet l → filter (λ e, ¬ quiet e) l = []) as Hq.
    { intros l. induction 1 as [|e l He _ IH]; [done|]. rewrite filter_cons_False by naive_solver. exact IH. }
    rewrite filter_app, filter_cons_True, !Hq by (done || naive_solver). done. }
  cbn [effect]. unfold moderates. rewrite Hname, Hp, Hm, Hog, Hown.
  rewrite (proj2 (Z.eqb_neq _ _) Hg), Z.eqb_refl. cbn [orb negb andb].
  assert (IsOn guid c = true) as -> by (apply bool_decide_true; rewrite Hp; by eexists).
  cbn [negb orb]. rewrite andb_false_r. cbn [andb].
  set (c1 := if ban then _ else c).
  assert (playersStore c1 = playersStore c ∧ _ownerGUID c1 = guid) as [Hs Ho]
    by (subst c1; by destruct ban).
  pose proof (remove_member_dom guid c1) as Hd. rewrite Hs in Hd.
  pose proof (elem_of_dom_2 _ _ _ Hp) as Hin. case_bool_decide as Hsole.
  - assert (playersStore (remove_member guid c1) = ∅) as He.
    { apply dom_empty_iff_L. rewrite Hd, Hsole. set_solver. }
    rewrite bool_decide_true by done. cbn [negb]. split_and!; [done|done|].
    intros other you pass. cbn [effect]. destruct (_ || _); [by left|]. right.
    change (_ownerGUID (remove_member guid c1)) with (_ownerGUID c1). rewrite Ho.
    by rewrite (proj2 (Z.eqb_neq _ _) Hg), andb_false_r.
  - rewrite bool_decide_false; cycle 1.
    { intros E. apply Hsole. rewrite E, dom_empty_L in Hd. clear -Hd Hin. apply set_eq. intros k.
      destruct (decide (k = guid)); set_solver. }
    cbn [negb]. unfold owner_set, owner_cleared. rewrite (proj2 (Z.eqb_neq _ _) Hg).
    unfold put_player, remove_member, setf. cbn [playersStore _ownerGUID].
    rewrite Hs, Ho, lookup_delete_eq, lookup_insert_eq, (proj2 (Z.eqb_neq _ _) Hg).
    cbn [playersStore]. rewrite lookup_insert_eq, !insert_insert_eq.
    rewrite insert_delete_eq. done.
Qed.

Lemma self_kick_witness :
  wp (KickOrBan 10 ann "Ann" false) (λ _ c' t, LeftChannel 10 ∈ t ∧
    playersStore c' !! 10 = Some (mkPlayerInfo 0 3)) channel2.
Proof.
  eapply wp_mono; [apply (self_kick 10 ann "Ann" false channel2 (mkPlayerInfo 10 3))|];
    try (vm_compute; reflexivity).
  - discriminate.
  - intros u c' t [Ht Hc]. split.
    { assert (LeftChannel 10 ∈ filter (λ e, ¬ quiet e) t) as Hin by (rewrite Ht; by left).
      by apply list_elem_of_filter in Hin as [_ Hin]. }
    rewrite bool_decide_false in Hc.
    + rewrite Hc. vm_compute. reflexivity.
    + intros E. assert (20 ∈ ({[ 10 ]} : gset Z)) as Hin.
      { rewrite <- E. apply elem_of_dom. vm_compute. by eexists. }
      vm_compute in Hin. discriminate.
Defined.
