(* ===== verification/ChannelMgr.v ===== *)
(** The chat channels of the whole server: src/server/game/Chat/Channels/
    ChannelMgr.cpp (the registries of the two factions), the channel methods of
    Player.cpp, and the packet handlers of ChannelHandler.cpp.  Channels are
    objects on a heap; the registries and every player's list of channels hold
    pointers to them, and an empty channel is deleted. *)

From S2P Require Import Prelude ByteBuffer Util Rbac Channel.
Open Scope string_scope.
Open Scope list_scope.
Open Scope Z_scope.

(** ** Constants *)

Definition HORDE : Z := 67.
Definition ALLIANCE : Z := 469.
Definition CHANNEL_DBC_FLAG_ZONE_DEP : Z := 0x00002.
Definition CHANNEL_DBC_FLAG_GLOBAL : Z := 0x00004.
Definition CHANNEL_DBC_FLAG_CITY_ONLY : Z := 0x00010.
Definition CHANNEL_DBC_FLAG_GUILD_REQ : Z := 0x20000.
Definition AREA_FLAG_SLAVE_CAPITAL : Z := 0x00000008.
Definition AREA_FLAG_ARENA_INSTANCE : Z := 0x00010000.
Definition SMSG_CHANNEL_MEMBER_COUNT : Z := 0x3D5.

(** ** Data *)

Record ChannelMgr := mkChannelMgr { channels : gmap string Z; mgr_team : Z }.
#[export] Instance eta_ChannelMgr : Eta ChannelMgr := λ r, mkChannelMgr (channels r) (mgr_team r).

(** The two singletons. *)
Inductive side := AllianceMgr | HordeMgr.
#[export] Instance side_eq_dec : EqDecision side.
Proof. solve_decision. Defined.

(** The managers, the channels in memory by address, the next free address, and
    [m_channels] of every player. *)
Record ChatWorld := mkChatWorld {
  alliance : ChannelMgr; horde : ChannelMgr;
  heap : gmap Z Channel; next : Z;
  m_channels : gmap Z (list Z) }.
#[export] Instance eta_ChatWorld : Eta ChatWorld :=
  λ r, mkChatWorld (alliance r) (horde r) (heap r) (next r) (m_channels r).
Notation chatact := (act ChatWorld channel_event).

Definition mgr (s : side) (w : ChatWorld) : ChannelMgr :=
  match s with AllianceMgr => alliance w | HordeMgr => horde w end.
Definition update_mgr (s : side) (f : ChannelMgr → ChannelMgr) (w : ChatWorld) : ChatWorld :=
  match s with AllianceMgr => w <| alliance ::= f |> | HordeMgr => w <| horde ::= f |> end.
Definition channels_of (guid : Z) (w : ChatWorld) : list Z := default [] (m_channels w !! guid).
Definition empty_world : ChatWorld := mkChatWorld (mkChannelMgr ∅ 0) (mkChannelMgr ∅ 0) ∅ 1 ∅.

(** The player of a session. *)
Record Session := mkSession {
  GetGUID : Z; view : PlayerView; GetZoneId : Z; GetGuildId : Z; GetSessionDbcLocale : Z }.

(** What the handlers use from outside: the areas of the client data with their
    flags, the number of channel records, the row saved for a channel, the name
    that a record's pattern gives in a zone and a locale, and the spelling of
    player names. *)
Class ChatEnv := {
  chat_channel_env :: ChannelEnv;
  sChatChannelsStore_rows : Z;
  GetAreaEntryByAreaID : Z → option Z;
  CONFIG_CHANNEL_ON_CITY_ONLY_FLAG : bool;
  CHAR_SEL_CHANNEL : string → Z → option (bool * bool * string * option string);
  local_channel_name : Z → Z → Z → string;
  normalizePlayerName : string → option string }.

(** The packets about channels, by their opcodes. *)
Inductive request :=
  | CMSG_JOIN_CHANNEL | CMSG_LEAVE_CHANNEL | CMSG_CHANNEL_LIST | CMSG_CHANNEL_PASSWORD
  | CMSG_CHANNEL_SET_OWNER | CMSG_CHANNEL_OWNER | CMSG_CHANNEL_MODERATOR
  | CMSG_CHANNEL_UNMODERATOR | CMSG_CHANNEL_MUTE | CMSG_CHANNEL_UNMUTE | CMSG_CHANNEL_INVITE
  | CMSG_CHANNEL_KICK | CMSG_CHANNEL_BAN | CMSG_CHANNEL_UNBAN | CMSG_CHANNEL_ANNOUNCEMENTS
  | CMSG_CHANNEL_DISPLAY_LIST | CMSG_GET_CHANNEL_MEMBER_COUNT | CMSG_SET_CHANNEL_WATCH.

(** [Utf8toWStr] and [wstrToLower]: the key under which a name is registered. *)
Section ChatOps.
Context (wname : string → string).
Context `{ChatEnv}.

(** ** Pointers *)

(** The calls of a channel on the players' lists. *)
Definition list_call (p : Z) (w : ChatWorld) (e : channel_event) : ChatWorld :=
  match e with
  | JoinedChannel g => w <| m_channels ::= λ m, <[g := default [] (m !! g) ++ [p]]> m |>
  | LeftChannel g => w <| m_channels ::= λ m, <[g := filter (λ q, q ≠ p) (default [] (m !! g))]> m |>
  | _ => w
  end.

(** A method of the channel at [p]. *)
Definition on_channel (p : Z) (op : chanact unit) : chatact unit := λ w,
  match heap w !! p with
  | None => Fault NullDeref w []
  | Some c =>
      match op c with
      | Done _ c' t => Done tt (foldl (list_call p) (w <| heap ::= <[p := c']> |>) t) t
      | Fault f c' t => Fault f (foldl (list_call p) (w <| heap ::= <[p := c']> |>) t) t
      end
  end.
Definition deref_channel (p : Z) : chatact Channel := w ← get; require (heap w !! p).

(** ** ChannelMgr *)

Definition forTeam (team : Z) : option side :=
  if CONFIG_ALLOW_TWO_SIDE_INTERACTION_CHANNEL then Some AllianceMgr
  else if team =? ALLIANCE then Some AllianceMgr
  else if team =? HORDE then Some HordeMgr
  else None.

Definition setTeam (s : side) (newTeam : Z) : chatact unit :=
  modify (update_mgr s (λ m, m <| mgr_team := newTeam |>)).

Definition GetJoinChannel (s : side) (name : string) (channelId : Z) : chatact Z :=
  w ← get;
  match channels (mgr s w) !! wname name with
  | Some p => mret p
  | None =>
      let team := mgr_team (mgr s w) in
      let '(nchan, t) := new_Channel (CHAR_SEL_CHANNEL name team) name channelId team in
      let p := next w in
      forM_ t emit ;;
      modify (λ w, w <| heap ::= <[p := nchan]> |> <| next := p + 1 |>) ;;
      modify (update_mgr s (λ m, m <| channels ::= <[wname name := p]> |>)) ;;
      mret p
  end.

Definition MakeNotOnPacket (name : string) : WorldPacket :=
  Initialize SMSG_CHANNEL_NOTIFY <+ U8 5 <+ Str name.
Definition GetChannel (s : side) (name : string) (player : Z) : chatact (option Z) :=
  w ← get;
  match channels (mgr s w) !! wname name with
  | None => emit (SendPacket player (MakeNotOnPacket name)) ;; mret None
  | Some p => mret (Some p)
  end.

Definition mgr_LeftChannel (s : side) (name : string) : chatact unit :=
  w ← get;
  match channels (mgr s w) !! wname name with
  | None => mret tt
  | Some p =>
      channel ← deref_channel p;
      when ((GetNumPlayers channel =? 0) && negb (IsConstant channel))
        (modify (update_mgr s (λ m, m <| channels ::= delete (wname name) |>)) ;;
         modify (λ w, w <| heap ::= delete p |>))
  end.

(** ** Player *)

(** The flags of the channel's record and of the zone. *)
Definition CanJoinConstantChannelInZone (me : Session) (channel zone : Z) : bool :=
  if has_flag channel CHANNEL_DBC_FLAG_ZONE_DEP && has_flag zone AREA_FLAG_ARENA_INSTANCE
  then false
  else if has_flag channel CHANNEL_DBC_FLAG_CITY_ONLY && negb (has_flag zone AREA_FLAG_SLAVE_CAPITAL)
          && CONFIG_CHANNEL_ON_CITY_ONLY_FLAG then false
  else if has_flag channel CHANNEL_DBC_FLAG_GUILD_REQ && negb (GetGuildId me =? 0) then false
  else true.

(** [Player::LeftChannel]. *)
Definition player_LeftChannel (guid p : Z) : chatact unit :=
  modify (λ w, list_call p w (LeftChannel guid)).

(** The loop of [CleanupChannels]; each round takes one pointer off the list. *)
Fixpoint CleanupChannels_loop (fuel : nat) (me : Session) : chatact unit :=
  w ← get;
  match channels_of (GetGUID me) w with
  | [] => mret tt
  | ch :: rest =>
      match fuel with
      | O => raise OutOfFuel
      | S fuel' =>
          modify (λ w, w <| m_channels ::= <[GetGUID me := rest]> |>) ;;
          on_channel ch (LeaveChannel (GetGUID me) (view me) false) ;;
          match forTeam (GetTeam (view me)) with
          | Some s => c ← deref_channel ch; mgr_LeftChannel s (_name c)
          | None => mret tt
          end ;;
          CleanupChannels_loop fuel' me
      end
  end.
Definition CleanupChannels (me : Session) : chatact unit :=
  w ← get; CleanupChannels_loop (length (channels_of (GetGUID me) w)) me.

(** The first channel of the list with this number. *)
Fixpoint find_used (i : Z) (l : list Z) : chatact (option Z) :=
  match l with
  | [] => mret None
  | p :: l' =>
      c ← deref_channel p;
      if _channelId c =? i then mret (Some p) else find_used i l'
  end.

(** One record of the client's channel table: which channel to join, which to
    leave, and whether the client is told. *)
Definition UpdateLocalChannel_choice (me : Session) (s : side) (newZone zone i channel : Z)
    (usedChannel : option Z) : chatact (option Z * option Z * bool) :=
  if CanJoinConstantChannelInZone me channel zone then
    if negb (has_flag channel CHANNEL_DBC_FLAG_GLOBAL) then
      if has_flag channel CHANNEL_DBC_FLAG_CITY_ONLY && bool_decide (is_Some usedChannel)
      then mret (None, None, true)
      else
        join ← GetJoinChannel s (local_channel_name i newZone (GetSessionDbcLocale me)) i;
        match usedChannel with
        | Some used => if negb (join =? used) then mret (Some join, Some used, false)
                       else mret (None, None, true)
        | None => mret (Some join, None, true)
        end
    else
      join ← GetJoinChannel s (local_channel_name i newZone (GetSessionDbcLocale me)) i;
      mret (Some join, None, true)
  else mret (None, usedChannel, true).

Definition UpdateLocalChannels_entry (me : Session) (s : side) (newZone zone i : Z) : chatact unit :=
  match sChatChannelsStore i with
  | None => mret tt
  | Some channel =>
      w ← get;
      usedChannel ← find_used i (channels_of (GetGUID me) w);
      choice ← UpdateLocalChannel_choice me s newZone zone i channel usedChannel;
      let '(joinChannel, removeChannel, sendRemove) := choice in
      match joinChannel with
      | Some p => on_channel p (JoinChannel (GetGUID me) (view me) "")
      | None => mret tt
      end ;;
      match removeChannel with
      | Some p =>
          on_channel p (LeaveChannel (GetGUID me) (view me) sendRemove) ;;
          c ← deref_channel p;
          player_LeftChannel (GetGUID me) p ;;
          mgr_LeftChannel s (_name c)
      | None => mret tt
      end
  end.
Definition UpdateLocalChannels (me : Session) (loading teleporting : bool) (newZone : Z) :
    chatact unit :=
  if loading && negb teleporting then mret tt else
  match GetAreaEntryByAreaID newZone with
  | None => mret tt
  | Some zone =>
      match forTeam (GetTeam (view me)) with
      | None => mret tt
      | Some s => forM_ (seqZ 0 sChatChannelsStore_rows) (UpdateLocalChannels_entry me s newZone zone)
      end
  end.

Fixpoint LeaveLFG_loop (me : Session) (l : list Z) : chatact unit :=
  match l with
  | [] => mret tt
  | p :: l' =>
      c ← deref_channel p;
      if IsLFG c then on_channel p (LeaveChannel (GetGUID me) (view me) true)
      else LeaveLFG_loop me l'
  end.
Definition LeaveLFGChannel (me : Session) : chatact unit :=
  w ← get; LeaveLFG_loop me (channels_of (GetGUID me) w).

(** ** Handlers

    A handler reads its fields from the packet; the exception of a packet that
    is too short leaves it before anything happened. *)

Definition with_packet {A} (recvPacket : ByteBuffer) (reader : bb A) (k : A → chatact unit) :
    chatact unit :=
  match reader recvPacket with
  | Done a _ _ => k a
  | Fault f _ _ => raise f
  end.
Definition read_name : bb string := rshift_string.
Definition read_two_names : bb (string * string) :=
  channelName ← rshift_string; targetName ← rshift_string; mret (channelName, targetName).

(** The channel of a name, for the manager of the player's team. *)
Definition with_channel (me : Session) (name : string) (k : side → Z → chatact unit) : chatact unit :=
  match forTeam (GetTeam (view me)) with
  | None => mret tt
  | Some s =>
      channel ← GetChannel s name (GetGUID me);
      match channel with Some p => k s p | None => mret tt end
  end.

Definition read_join : bb (Z * string * string) :=
  channelId ← rshift_unsigned 4; unknown1 ← rshift_unsigned 1; unknown2 ← rshift_unsigned 1;
  channelName ← rshift_string; password ← rshift_string;
  mret (channelId, channelName, password).
Definition join_allowed (me : Session) (channelId : Z) : bool :=
  if channelId =? 0 then true else
  match sChatChannelsStore channelId, GetAreaEntryByAreaID (GetZoneId me) with
  | Some channel, Some zone => CanJoinConstantChannelInZone me channel zone
  | _, _ => false
  end.
Definition HandleJoinChannel (me : Session) (recvPacket : ByteBuffer) : chatact unit :=
  with_packet recvPacket read_join (λ '(channelId, channelName, password),
    if negb (join_allowed me channelId) then mret tt else
    if String.eqb channelName "" then mret tt else
    match forTeam (GetTeam (view me)) with
    | None => mret tt
    | Some s =>
        setTeam s (GetTeam (view me)) ;;
        p ← GetJoinChannel s channelName channelId;
        on_channel p (JoinChannel (GetGUID me) (view me) password)
    end).

Definition read_leave : bb string := unk ← rshift_unsigned 4; rshift_string.
Definition HandleLeaveChannel (me : Session) (recvPacket : ByteBuffer) : chatact unit :=
  with_packet recvPacket read_leave (λ channelName,
    if String.eqb channelName "" then mret tt else
    match forTeam (GetTeam (view me)) with
    | None => mret tt
    | Some s =>
        channel ← GetChannel s channelName (GetGUID me);
        match channel with
        | Some p => on_channel p (LeaveChannel (GetGUID me) (view me) true)
        | None => mret tt
        end ;;
        mgr_LeftChannel s channelName
    end).

(** The handlers that only pass on to the channel: by the channel's name, or
    with a second string, or with a player's name. *)
Definition handle_channel (me : Session) (recvPacket : ByteBuffer) (op : chanact unit) : chatact unit :=
  with_packet recvPacket read_name (λ channelName,
    with_channel me channelName (λ _ p, on_channel p op)).
Definition handle_target (me : Session) (recvPacket : ByteBuffer) (op : string → chanact unit) :
    chatact unit :=
  with_packet recvPacket read_two_names (λ '(channelName, targetName),
    match normalizePlayerName targetName with
    | None => mret tt
    | Some target => with_channel me channelName (λ _ p, on_channel p (op target))
    end).

Definition HandleChannelList (me : Session) (recvPacket : ByteBuffer) : chatact unit :=
  handle_channel me recvPacket (List (GetGUID me) (view me)).
Definition HandleChannelPassword (me : Session) (recvPacket : ByteBuffer) : chatact unit :=
  with_packet recvPacket read_two_names (λ '(channelName, password),
    with_channel me channelName (λ _ p, on_channel p (Password (GetGUID me) (view me) password))).
Definition HandleChannelSetOwner (me : Session) (recvPacket : ByteBuffer) : chatact unit :=
  handle_target me recvPacket (SetOwner (GetGUID me) (view me)).
Definition HandleChannelOwner (me : Session) (recvPacket : ByteBuffer) : chatact unit :=
  handle_channel me recvPacket (SendWhoOwner (GetGUID me)).
Definition HandleChannelModerator (me : Session) (recvPacket : ByteBuffer) : chatact unit :=
  handle_target me recvPacket (λ t, SetMode (GetGUID me) (view me) t true true).
Definition HandleChannelUnmoderator (me : Session) (recvPacket : ByteBuffer) : chatact unit :=
  handle_target me recvPacket (λ t, SetMode (GetGUID me) (view me) t true false).
Definition HandleChannelMute (me : Session) (recvPacket : ByteBuffer) : chatact unit :=
  handle_target me recvPacket (λ t, SetMode (GetGUID me) (view me) t false true).
Definition HandleChannelUnmute (me : Session) (recvPacket : ByteBuffer) : chatact unit :=
  handle_target me recvPacket (λ t, SetMode (GetGUID me) (view me) t false false).
Definition HandleChannelInvite (me : Session) (recvPacket : ByteBuffer) : chatact unit :=
  handle_target me recvPacket (Invite (GetGUID me) (view me)).
Definition HandleChannelKick (me : Session) (recvPacket : ByteBuffer) : chatact unit :=
  handle_target me recvPacket (Kick (GetGUID me) (view me)).
Definition HandleChannelBan (me : Session) (recvPacket : ByteBuffer) : chatact unit :=
  handle_target me recvPacket (Ban (GetGUID me) (view me)).
Definition HandleChannelUnban (me : Session) (recvPacket : ByteBuffer) : chatact unit :=
  handle_target me recvPacket (UnBan (GetGUID me) (view me)).
Definition HandleChannelAnnouncements (me : Session) (recvPacket : ByteBuffer) : chatact unit :=
  handle_channel me recvPacket (Announce (GetGUID me) (view me)).
Definition HandleChannelDisplayListQuery (me : Session) (recvPacket : ByteBuffer) : chatact unit :=
  HandleChannelList me recvPacket.
Definition HandleGetChannelMemberCount (me : Session) (recvPacket : ByteBuffer) : chatact unit :=
  with_packet recvPacket read_name (λ channelName,
    with_channel me channelName (λ _ p,
      channel ← deref_channel p;
      emit (SendPacket (GetGUID me) (Initialize SMSG_CHANNEL_MEMBER_COUNT
        <+ Str (_name channel) <+ U8 (_flags channel) <+ U32 (GetNumPlayers channel))))).
Definition HandleSetChannelWatch (me : Session) (recvPacket : ByteBuffer) : chatact unit :=
  with_packet recvPacket read_name (λ _, mret tt).

(** *** The requests of a client *)

Definition handle (me : Session) (rq : request) (recvPacket : ByteBuffer) : chatact unit :=
  match rq with
  | CMSG_JOIN_CHANNEL => HandleJoinChannel me recvPacket
  | CMSG_LEAVE_CHANNEL => HandleLeaveChannel me recvPacket
  | CMSG_CHANNEL_LIST => HandleChannelList me recvPacket
  | CMSG_CHANNEL_PASSWORD => HandleChannelPassword me recvPacket
  | CMSG_CHANNEL_SET_OWNER => HandleChannelSetOwner me recvPacket
  | CMSG_CHANNEL_OWNER => HandleChannelOwner me recvPacket
  | CMSG_CHANNEL_MODERATOR => HandleChannelModerator me recvPacket
  | CMSG_CHANNEL_UNMODERATOR => HandleChannelUnmoderator me recvPacket
  | CMSG_CHANNEL_MUTE => HandleChannelMute me recvPacket
  | CMSG_CHANNEL_UNMUTE => HandleChannelUnmute me recvPacket
  | CMSG_CHANNEL_INVITE => HandleChannelInvite me recvPacket
  | CMSG_CHANNEL_KICK => HandleChannelKick me recvPacket
  | CMSG_CHANNEL_BAN => HandleChannelBan me recvPacket
  | CMSG_CHANNEL_UNBAN => HandleChannelUnban me recvPacket
  | CMSG_CHANNEL_ANNOUNCEMENTS => HandleChannelAnnouncements me recvPacket
  | CMSG_CHANNEL_DISPLAY_LIST => HandleChannelDisplayListQuery me recvPacket
  | CMSG_GET_CHANNEL_MEMBER_COUNT => HandleGetChannelMemberCount me recvPacket
  | CMSG_SET_CHANNEL_WATCH => HandleSetChannelWatch me recvPacket
  end.

(** A kick or ban of the player himself. *)
Definition kicks_self (me : Session) (rq : request) (recvPacket : ByteBuffer) : bool :=
  match rq with
  | CMSG_CHANNEL_KICK | CMSG_CHANNEL_BAN =>
      match rval (read_two_names recvPacket) with
      | Some (_, targetName) =>
          match normalizePlayerName targetName with
          | Some target => named target =? GetGUID me
          | None => false
          end
      | None => false
      end
  | _ => false
  end.
End ChatOps.

(** ** Calls on the lists *)

Section Lists.
Implicit Types w : ChatWorld.

Lemma channels_of_put g g' l w :
  channels_of g' (w <| m_channels ::= <[g := l]> |>) = if decide (g = g') then l else channels_of g' w.
Proof.
  unfold channels_of. cbn [m_channels setf eta eta_ChatWorld]. case_decide as E.
  - subst g'. by rewrite lookup_insert_eq.
  - by rewrite lookup_insert_ne.
Qed.

(** Everything but the lists. *)
Definition same_objects w w' : Prop :=
  alliance w' = alliance w ∧ horde w' = horde w ∧ heap w' = heap w ∧ next w' = next w.

Lemma list_calls p s t s' w :
  list_run s t s' →
  (∀ g, p ∈ channels_of g w ↔ g ∈ s) → (∀ g, NoDup (channels_of g w)) →
  let w' := foldl (list_call p) w t in
  same_objects w w' ∧ (∀ g, NoDup (channels_of g w')) ∧
  ∀ g, (p ∈ channels_of g w' ↔ g ∈ s') ∧ ∀ q, q ≠ p → q ∈ channels_of g w' ↔ q ∈ channels_of g w.
Proof.
  intros Hr. revert w. induction Hr as [s|s e t s' He _ IH|s g t s' Hg _ IH|s g t s' Hg _ IH];
    intros w Hp Hd; cbn [foldl].
  - split_and!; [done|done|]. intros g. by rewrite Hp.
  - destruct e; try done; by apply IH.
  - set (w1 := list_call p w (JoinedChannel g)).
    assert (∀ g', channels_of g' w1 =
      if decide (g = g') then channels_of g w ++ [p] else channels_of g' w) as E
      by (intros g'; apply channels_of_put).
    assert (p ∉ channels_of g w) as Hnew by (by rewrite Hp).
    destruct (IH w1) as (Ho & Hd' & Hl).
    + intros g'. rewrite E. case_decide as Eg; [subst g'|].
      * rewrite elem_of_app, list_elem_of_singleton. set_solver.
      * rewrite Hp. set_solver.
    + intros g'. rewrite E. case_decide; [|done]. apply NoDup_app. split_and!; [done| |].
      * intros q Hq Hq'. apply list_elem_of_singleton in Hq'. by subst.
      * apply NoDup_singleton.
    + split_and!; [done|done|]. intros g'. destruct (Hl g') as [H1 H2]. split; [done|].
      intros q Hq. rewrite H2, E by done. case_decide; [subst g'|done].
      rewrite elem_of_app, list_elem_of_singleton. naive_solver.
  - set (w1 := list_call p w (LeftChannel g)).
    assert (∀ g', channels_of g' w1 =
      if decide (g = g') then filter (λ q, q ≠ p) (channels_of g w) else channels_of g' w) as E
      by (intros g'; apply channels_of_put).
    destruct (IH w1) as (Ho & Hd' & Hl).
    + intros g'. rewrite E. case_decide as Eg; [subst g'|].
      * rewrite list_elem_of_filter. set_solver.
      * rewrite Hp. set_solver.
    + intros g'. rewrite E. case_decide; [|done]. by apply NoDup_filter.
    + split_and!; [done|done|]. intros g'. destruct (Hl g') as [H1 H2]. split; [done|].
      intros q Hq. rewrite H2, E by done. case_decide; [subst g'|done].
      rewrite list_elem_of_filter. naive_solver.
Qed.

(** A method of a channel, seen from the world. *)
Definition after_op p c' (s' : gset Z) w w' : Prop :=
  alliance w' = alliance w ∧ horde w' = horde w ∧ heap w' = <[p := c']> (heap w) ∧
  next w' = next w ∧ (∀ g, NoDup (channels_of g w')) ∧
  ∀ g, (p ∈ channels_of g w' ↔ g ∈ s') ∧ ∀ q, q ≠ p → q ∈ channels_of g w' ↔ q ∈ channels_of g w.

Lemma wp_on_channel `{ChannelEnv} p c op w :
  heap w !! p = Some c → keys_ok c → not_self op = true →
  (∀ g, p ∈ channels_of g w ↔ g ∈ lists_before op c) → (∀ g, NoDup (channels_of g w)) →
  wp (on_channel p (run_op op))
    (λ _ w' _, after_op p (effect op c) (dom (playersStore (effect op c))) w w') w.
Proof.
  intros Hc Hk Hself Hp Hd. unfold wp, on_channel. rewrite Hc.
  pose proof (op_implements op c) as Hi. unfold wp in Hi.
  destruct (run_op op c) as [[] c' t|]; [|done]. destruct Hi as [-> Hl].
  specialize (Hl Hself Hk).
  pose (w1 := w <| heap ::= <[p := effect op c]> |>).
  destruct (list_calls p _ _ _ w1 Hl Hp Hd) as ((H1 & H2 & H3 & H4) & H5 & H6).
  split_and!; done.
Qed.
End Lists.

(** ** The invariant of the registries *)

(** A player's guid has a zero high part. *)
Definition player_guid (g : Z) : Prop := 0 < g < 2 ^ 32.

Section Registry.
(** The key of a name, and the manager that serves each player. *)
Context (wname : string → string) (home : Z → option side).
Implicit Types (w : ChatWorld) (x : option Z).

(** Pointers in the registries are live, under the key of the channel's name,
    and a channel has only members its manager serves; every channel in memory
    is registered, once; each is good, [x] perhaps empty; a channel is on the
    lists of its members and on no other. *)
Record chat_inv x w : Prop := {
  ci_fresh : ∀ p, is_Some (heap w !! p) → p < next w;
  ci_live : ∀ s k p, channels (mgr s w) !! k = Some p →
    ∃ c, heap w !! p = Some c ∧ wname (_name c) = k ∧
         ∀ g, g ∈ dom (playersStore c) → player_guid g ∧ home g = Some s;
  ci_registered : ∀ p c, heap w !! p = Some c →
    ∃ s, channels (mgr s w) !! wname (_name c) = Some p;
  ci_one : ∀ s s' k k' p,
    channels (mgr s w) !! k = Some p → channels (mgr s' w) !! k' = Some p → s = s';
  ci_good : ∀ p c, heap w !! p = Some c →
    good_or_empty c ∧ (x = Some p ∨ channel_good c);
  ci_lfg : ∀ p c, heap w !! p = Some c → lfg_unowned c;
  ci_lists : ∀ g p, p ∈ channels_of g w ↔ ∃ c, heap w !! p = Some c ∧ g ∈ dom (playersStore c);
  ci_nodup : ∀ g, NoDup (channels_of g w) }.

Lemma inv_weaken x w : chat_inv None w → chat_inv x w.
Proof.
  intros Hi. split; try apply Hi. intros p c Hc.
  by destruct (ci_good _ _ Hi _ _ Hc) as [H1 [?|H2]]; auto.
Qed.

Lemma inv_empty : chat_inv None empty_world.
Proof.
  split.
  - intros p [? Hp]. done.
  - intros [] k p Hk; done.
  - done.
  - intros [] s' k k' p Hk; done.
  - done.
  - done.
  - intros g p. split; [|by intros (c & Hc & _)]. unfold channels_of. simpl.
    rewrite lookup_empty. simpl. intros Hp. by apply elem_of_nil in Hp.
  - intros g. apply NoDup_nil_2.
Qed.

(** A member's channel is in the registry that serves him. *)
Lemma member_registered x w p c g s :
  chat_inv x w → heap w !! p = Some c → g ∈ dom (playersStore c) → home g = Some s →
  channels (mgr s w) !! wname (_name c) = Some p.
Proof.
  intros Hi Hc Hg Hs. destruct (ci_registered _ _ Hi _ _ Hc) as [s' Hr].
  destruct (ci_live _ _ Hi _ _ _ Hr) as (c' & Hc' & _ & Hm).
  assert (c' = c) as -> by congruence. destruct (Hm g Hg) as [_ Hs'].
  by assert (s' = s) as -> by congruence.
Qed.

(** After a method of the channel at [p] with the members' lists kept. *)
Lemma inv_after_op x p c c' w w' :
  chat_inv None w → heap w !! p = Some c →
  after_op p c' (dom (playersStore c')) w w' → identity c' = identity c →
  (∀ g, g ∈ dom (playersStore c') → g ∈ dom (playersStore c) ∨ player_guid g ∧
    ∃ s, home g = Some s ∧ channels (mgr s w) !! wname (_name c) = Some p) →
  good_or_empty c' ∧ (x = Some p ∨ channel_good c') →
  chat_inv x w'.
Proof.
  intros Hi Hc (Ha & Hh & Hheap & Hn & Hd & Hl) Hid Hm Hg.
  assert (∀ s, mgr s w' = mgr s w) as Hmgr by (by intros []).
  assert (_name c' = _name c) as Hname by (unfold identity in Hid; congruence).
  split.
  - intros q. rewrite Hheap, Hn. intros [c1 Hq]. apply (ci_fresh _ _ Hi).
    destruct (decide (p = q)) as [<-|Hne]; [by eexists|]. rewrite lookup_insert_ne in Hq by done.
    by eexists.
  - intros s k q. rewrite Hmgr, Hheap. intros Hk.
    destruct (ci_live _ _ Hi _ _ _ Hk) as (c1 & Hq & Hw & Hs).
    destruct (decide (p = q)) as [<-|Hne].
    + assert (c1 = c) as -> by congruence. exists c'. rewrite lookup_insert_eq, Hname.
      split_and!; try done. intros g Hg'. destruct (Hm g Hg') as [|(Hv & s' & Hs' & Hr)]; [by apply Hs|].
      split; [done|]. by rewrite (ci_one _ _ Hi _ _ _ _ _ Hk Hr).
    + exists c1. by rewrite lookup_insert_ne.
  - intros q c1. rewrite Hheap. destruct (decide (p = q)) as [<-|Hne].
    + rewrite lookup_insert_eq. intros [= <-]. rewrite Hname.
      destruct (ci_registered _ _ Hi _ _ Hc) as [s Hs]. exists s. by rewrite Hmgr.
    + rewrite lookup_insert_ne by done. intros Hq.
      destruct (ci_registered _ _ Hi _ _ Hq) as [s Hs]. exists s. by rewrite Hmgr.
  - intros s s' k k' q. rewrite !Hmgr. apply (ci_one _ _ Hi).
  - intros q c1. rewrite Hheap. destruct (decide (p = q)) as [<-|Hne].
    + rewrite lookup_insert_eq. by intros [= <-].
    + rewrite lookup_insert_ne by done. intros Hq.
      destruct (ci_good _ _ Hi _ _ Hq) as [? [?|?]]; [done|auto].
  - intros q c1. rewrite Hheap. destruct (decide (p = q)) as [<-|Hne].
    + rewrite lookup_insert_eq. intros [= <-]. specialize (ci_lfg _ _ Hi _ _ Hc).
      unfold identity in Hid. unfold lfg_unowned, IsLFG.
      by assert (_flags c' = _flags c ∧ _ownership c' = _ownership c) as [-> ->] by (split; congruence).
    + rewrite lookup_insert_ne by done. apply (ci_lfg _ _ Hi).
  - intros g q. rewrite Hheap. destruct (Hl g) as [H1 H2].
    destruct (decide (p = q)) as [<-|Hne].
    + rewrite H1, lookup_insert_eq. naive_solver.
    + rewrite H2, lookup_insert_ne by done. apply (ci_lists _ _ Hi).
  - done.
Qed.
End Registry.

(** ** Every step keeps the invariant *)

Section Steps.
Context (wname : string → string) (home : Z → option side) `{ChatEnv}.
Implicit Types (w : ChatWorld) (x : option Z) (me : Session).
Notation inv := (chat_inv wname home).

(** A session whose player the managers serve as [home] says. *)
Definition session_ok me : Prop :=
  player_guid (GetGUID me) ∧ forTeam (GetTeam (view me)) = home (GetGUID me).

Lemma after_op_mgr p c' s' w w' s : after_op p c' s' w w' → mgr s w' = mgr s w.
Proof. intros (Ha & Hh & _). by destruct s. Qed.

Definition leaves (op : chan_op) : bool :=
  match op with OpLeave _ _ _ => true | _ => false end.

(** A player's operation on a registered channel. *)
Lemma wp_op x p c op s k w :
  inv None w → heap w !! p = Some c → channels (mgr s w) !! k = Some p →
  player_guid (actor op) → home (actor op) = Some s →
  not_self op = true → lists_before op c = dom (playersStore c) →
  (leaves op = true → x = Some p) →
  wp (on_channel p (run_op op)) (λ _ w' _, inv x w' ∧
    after_op p (effect op c) (dom (playersStore (effect op c))) w w') w.
Proof.
  intros Hi Hc Hk Hg Hs Hself Hb Hx. destruct (ci_good _ _ _ _ Hi _ _ Hc) as [_ [?|Hgood]]; [done|].
  pose proof (wf_keys _ (proj1 Hgood)) as Hkeys.
  eapply wp_mono; [apply wp_on_channel; [done|done|done| |]|].
  - intros g. rewrite (ci_lists _ _ _ _ Hi), Hb. naive_solver.
  - apply (ci_nodup _ _ _ _ Hi).
  - intros u w' t Ha. split; [|done]. apply (inv_after_op _ _ x p c _ _ _ Hi Hc Ha).
    + apply effect_identity.
    + intros g Hin. apply (effect_members op c Hkeys) in Hin.
      apply elem_of_union in Hin as [->%elem_of_singleton|?]; [right|by left].
      split; [done|]. exists s. split; [done|].
      destruct (ci_live _ _ _ _ Hi _ _ _ Hk) as (c1 & Hc1 & <- & _).
      by assert (c1 = c) as -> by congruence.
    + assert (actor op ≠ 0) as Hne by (unfold player_guid in Hg; lia).
      split; [by apply effect_good|]. destruct (leaves op) eqn:El; [left; auto|right].
      apply effect_stays_good; try done. intros g v b ->. done.
Qed.

(** [LeaveChannel] that leaves the player's list to the caller. *)
Lemma foldl_quiet p t w : Forall quiet t → foldl (list_call p) w t = w.
Proof. induction 1 as [|e t He _ IH]; [done|]. simpl. by destruct e. Qed.

Lemma wp_leave_quietly p c g v w :
  heap w !! p = Some c →
  wp (on_channel p (LeaveChannel g v false))
    (λ _ w' _, w' = w <| heap ::= <[p := effect (OpLeave g v false) c]> |>) w.
Proof.
  intros Hc. unfold wp, on_channel. rewrite Hc. pose proof (leave_calls g v false c) as Hl.
  unfold wp in Hl. destruct (LeaveChannel g v false c) as [[] c' t|]; [|done].
  destruct Hl as (-> & t1 & t2 & -> & H1 & H2). apply foldl_quiet. by apply Forall_app.
Qed.

Lemma size_players c :
  (∀ g, g ∈ dom (playersStore c) → player_guid g) → Z.of_nat (size (playersStore c)) < 2 ^ 32.
Proof.
  intros Hg. rewrite <- size_dom.
  assert (dom (playersStore c) ⊆ list_to_set (seqZ 1 (2 ^ 32 - 1))) as Hs.
  { intros g Hin. apply elem_of_list_to_set, elem_of_seqZ. specialize (Hg g Hin).
    unfold player_guid in Hg. lia. }
  apply subseteq_size in Hs. rewrite size_list_to_set, length_seqZ in Hs by apply NoDup_seqZ. lia.
Qed.

(** Deleting an empty channel. *)
Lemma inv_delete p c s w w' :
  inv (Some p) w → heap w !! p = Some c → channels (mgr s w) !! wname (_name c) = Some p →
  playersStore c = ∅ →
  (∀ s', channels (mgr s' w') = if decide (s' = s) then delete (wname (_name c)) (channels (mgr s w))
                                else channels (mgr s' w)) →
  heap w' = delete p (heap w) → next w' = next w → m_channels w' = m_channels w →
  inv None w'.
Proof.
  intros Hi Hc Hr Hz Hmgr Hheap Hn Hl.
  assert (∀ s' k q, channels (mgr s' w') !! k = Some q →
    q ≠ p ∧ channels (mgr s' w) !! k = Some q) as Hreg.
  { intros s' k q. rewrite Hmgr. case_decide as E.
    - subst s'. intros [Hne Hq]%lookup_delete_Some. split; [|done]. intros ->. apply Hne.
      destruct (ci_live _ _ _ _ Hi _ _ _ Hq) as (c1 & Hc1 & <- & _). congruence.
    - intros Hq. split; [|done]. intros ->. by destruct (ci_one _ _ _ _ Hi _ _ _ _ _ Hq Hr). }
  assert (∀ g, channels_of g w' = channels_of g w) as Hlists
    by (intros g; unfold channels_of; by rewrite Hl).
  split.
  - intros q [c1 Hq]. rewrite Hheap in Hq. apply lookup_delete_Some in Hq as [_ Hq].
    rewrite Hn. apply (ci_fresh _ _ _ _ Hi). by eexists.
  - intros s' k q [Hne Hq]%Hreg. destruct (ci_live _ _ _ _ Hi _ _ _ Hq) as (c1 & Hc1 & ? & ?).
    exists c1. by rewrite Hheap, lookup_delete_ne.
  - intros q c1 Hq. rewrite Hheap in Hq. apply lookup_delete_Some in Hq as [Hne Hq].
    destruct (ci_registered _ _ _ _ Hi _ _ Hq) as [s' Hs]. exists s'. rewrite Hmgr.
    case_decide; [|done]. subst s'. rewrite lookup_delete_ne; [done|]. intros E. congruence.
  - intros s1 s2 k1 k2 q [_ H1]%Hreg [_ H2]%Hreg. by apply (ci_one _ _ _ _ Hi _ _ _ _ _ H1 H2).
  - intros q c1 Hq. rewrite Hheap in Hq. apply lookup_delete_Some in Hq as [Hne Hq].
    destruct (ci_good _ _ _ _ Hi _ _ Hq) as [? [?|?]]; [congruence|auto].
  - intros q c1 Hq. rewrite Hheap in Hq. apply lookup_delete_Some in Hq as [_ Hq].
    by apply (ci_lfg _ _ _ _ Hi q).
  - intros g q. rewrite Hlists, (ci_lists _ _ _ _ Hi), Hheap. split; intros (c1 & Hc1 & Hg).
    + exists c1. rewrite lookup_delete_ne; [done|]. intros <-.
      assert (c1 = c) as -> by congruence. rewrite Hz in Hg. set_solver.
    + apply lookup_delete_Some in Hc1 as [_ Hc1]. by exists c1.
  - intros g. rewrite Hlists. apply (ci_nodup _ _ _ _ Hi).
Qed.

(** The last member has left: the manager deletes the channel, unless the
    channel stays. *)
Lemma wp_mgr_LeftChannel p c s k name w :
  inv (Some p) w → heap w !! p = Some c → channels (mgr s w) !! k = Some p →
  wname name = wname (_name c) →
  wp (mgr_LeftChannel wname s name)
    (λ _ w' _, inv None w' ∧ m_channels w' = m_channels w ∧
      ∀ q c, heap w' !! q = Some c → heap w !! q = Some c) w.
Proof.
  intros Hi Hc Hk Hn. destruct (ci_live _ _ _ _ Hi _ _ _ Hk) as (c1 & Hc1 & Hkn & Hm).
  assert (c1 = c) as -> by congruence. subst k.
  destruct (ci_good _ _ _ _ Hi _ _ Hc) as [[Hw Hgood] _].
  unfold mgr_LeftChannel. apply wp_bind, wp_get. rewrite Hn, Hk. apply wp_bind.
  unfold deref_channel. apply wp_bind, wp_get. rewrite Hc. apply wp_ret.
  apply wp_when; intros Hb.
  - apply andb_true_iff in Hb as [Hz Hcon]. apply wp_bind, wp_modify, wp_modify.
    split; [|split; [by destruct s|]].
    2: { intros q c1. destruct s; apply lookup_delete_Some. }
    apply (inv_delete p c s w); try done; [| |by destruct s..].
    + unfold GetNumPlayers in Hz. rewrite wrapu_id in Hz.
      * apply map_size_empty_iff. lia.
      * split; [lia|]. apply size_players. intros g Hg. by apply Hm.
    + intros s'. by destruct s, s'.
  - split_and!; [|done|done]. split; try apply Hi. intros q c1 Hq.
    destruct (ci_good _ _ _ _ Hi _ _ Hq) as [H1 [Hx|H2]]; [|by auto]. split; [done|right].
    injection Hx as ->. assert (c1 = c) as -> by congruence. split; [done|].
    destruct Hgood as [?|He]; [done|]. intros Hown.
    rewrite (wf_constant _ Hw Hown) in Hb. unfold GetNumPlayers in Hb. by rewrite He in Hb.
Qed.

(** The channel that [GetJoinChannel] finds or makes. *)
Definition channel_for (s : side) (name : string) (channelId : Z) w : Channel :=
  match channels (mgr s w) !! wname name ≫= λ p, heap w !! p with
  | Some c => c
  | None => (new_Channel (CHAR_SEL_CHANNEL name (mgr_team (mgr s w))) name channelId
               (mgr_team (mgr s w))).1
  end.

(** Registering a new channel. *)
Lemma inv_register c s w w' :
  inv None w → channels (mgr s w) !! wname (_name c) = None → channel_good c → playersStore c = ∅ →
  lfg_unowned c →
  (∀ s', channels (mgr s' w') = if decide (s' = s)
    then <[wname (_name c) := next w]> (channels (mgr s w)) else channels (mgr s' w)) →
  heap w' = <[next w := c]> (heap w) → next w' = next w + 1 → m_channels w' = m_channels w →
  inv None w'.
Proof.
  intros Hi Hnone Hgood Hz Hlfg Hmgr Hheap Hn Hl.
  assert (∀ q c1, heap w !! q = Some c1 → q < next w) as Hfresh
    by (intros q c1 Hq; apply (ci_fresh _ _ _ _ Hi); by eexists).
  assert (∀ s' k q, channels (mgr s' w') !! k = Some q →
    (s' = s ∧ k = wname (_name c) ∧ q = next w) ∨
    (q < next w ∧ channels (mgr s' w) !! k = Some q)) as Hreg.
  { intros s' k q. rewrite Hmgr. case_decide as E; [subst s'; rewrite lookup_insert_Some|];
      intros Hq; [destruct Hq as [[<- <-]|[_ Hq]]; [by left|]|]; right;
      destruct (ci_live _ _ _ _ Hi _ _ _ Hq) as (c1 & Hc1 & _); eauto. }
  assert (∀ g, channels_of g w' = channels_of g w) as Hlists
    by (intros g; unfold channels_of; by rewrite Hl).
  assert (∀ q c1, heap w' !! q = Some c1 →
    (q = next w ∧ c1 = c) ∨ (q < next w ∧ heap w !! q = Some c1)) as Hin.
  { intros q c1. rewrite Hheap, lookup_insert_Some. intros [[<- <-]|[_ Hq]]; [by left|].
    right. eauto. }
  assert (∀ q c1, heap w !! q = Some c1 → heap w' !! q = Some c1) as Hup.
  { intros q c1 Hq. rewrite Hheap, lookup_insert_ne; [done|]. apply Hfresh in Hq. lia. }
  split.
  - intros q [c1 [[-> _]|[? _]]%Hin]; rewrite Hn; lia.
  - intros s' k q [(-> & -> & ->)|[Hq Hk]]%Hreg.
    + exists c. rewrite Hheap, lookup_insert_eq, Hz. split_and!; [done|done|set_solver].
    + destruct (ci_live _ _ _ _ Hi _ _ _ Hk) as (c1 & Hc1 & ? & ?). exists c1.
      split_and!; auto.
  - intros q c1 [[-> ->]|[_ Hq]]%Hin.
    + exists s. rewrite Hmgr, decide_True by done. apply lookup_insert_eq.
    + destruct (ci_registered _ _ _ _ Hi _ _ Hq) as [s' Hs]. exists s'. rewrite Hmgr.
      case_decide; [|done]. subst s'. rewrite lookup_insert_ne; [done|]. congruence.
  - intros s1 s2 k1 k2 q [(-> & -> & ->)|[Hq1 H1]]%Hreg [(-> & -> & E)|[Hq2 H2]]%Hreg;
      [done|lia|lia|]. by apply (ci_one _ _ _ _ Hi _ _ _ _ _ H1 H2).
  - intros q c1 [[-> ->]|[_ Hq]]%Hin; [split; [by apply good_good_or_empty|by right]|].
    by apply (ci_good _ _ _ _ Hi).
  - intros q c1 [[-> ->]|[_ Hq]]%Hin; [done|]. by apply (ci_lfg _ _ _ _ Hi q).
  - intros g q. rewrite Hlists, (ci_lists _ _ _ _ Hi). split; intros (c1 & Hc1 & Hg).
    + exists c1. auto.
    + apply Hin in Hc1 as [[-> ->]|[_ Hc1]]; [rewrite Hz in Hg; set_solver|by exists c1].
  - intros g. rewrite Hlists. apply (ci_nodup _ _ _ _ Hi).
Qed.

Lemma wp_GetJoinChannel s name channelId w :
  inv None w → (channelId ≠ 0 → is_Some (sChatChannelsStore channelId)) →
  wp (GetJoinChannel wname s name channelId)
    (λ p w' _, inv None w' ∧ channels (mgr s w') !! wname name = Some p ∧
      heap w' !! p = Some (channel_for s name channelId w) ∧
      m_channels w' = m_channels w ∧
      ∀ q c, heap w !! q = Some c → heap w' !! q = Some c) w.
Proof.
  intros Hi Hid. unfold GetJoinChannel, channel_for. apply wp_bind, wp_get.
  destruct (channels (mgr s w) !! wname name) as [p|] eqn:Ek.
  { apply wp_ret. destruct (ci_live _ _ _ _ Hi _ _ _ Ek) as (c & Hc & _). simpl.
    by rewrite Hc. }
  simpl. set (team := mgr_team (mgr s w)).
  pose proof (new_Channel_good (CHAR_SEL_CHANNEL name team) name channelId team Hid) as Hgood.
  pose proof (new_Channel_fresh (CHAR_SEL_CHANNEL name team) name channelId team) as (Hz & Hname & Hlfg).
  destruct (new_Channel _ _ _ _) as [c t]; simpl in *.
  apply wp_bind. eapply (wp_mono _ (λ _ w' _, w' = w)).
  { clear. induction t as [|e t IH]; [by apply wp_ret|]. apply wp_bind, wp_emit. exact IH. }
  intros u w' tr ->. apply wp_bind, wp_modify, wp_bind, wp_modify, wp_ret.
  rewrite <- Hname in *. split.
  { apply (inv_register c s w); try done; [|by destruct s..]. intros s'. by destruct s, s'. }
  assert (∀ s (f : ChannelMgr → ChannelMgr) w, heap (update_mgr s f w) = heap w) as Hh
    by (by intros []).
  split_and!.
  - destruct s; apply lookup_insert_eq.
  - rewrite Hh. apply lookup_insert_eq.
  - by destruct s.
  - intros q c1 Hq. rewrite Hh. cbn. rewrite lookup_insert_ne; [done|].
    assert (q < next w) by (apply (ci_fresh _ _ _ _ Hi); by eexists). lia.
Qed.

(** A player who leaves the channel at [p], and has it off his list. *)
Lemma inv_leave p c g v send l w w' :
  inv None w → heap w !! p = Some c → player_guid g →
  same_objects (w <| heap ::= <[p := effect (OpLeave g v send) c]> |>) w' →
  (∀ g', channels_of g' w' = if decide (g = g') then l else channels_of g' w) →
  NoDup l → (∀ q, q ∈ l ↔ q ∈ channels_of g w ∧ q ≠ p) →
  inv (Some p) w'.
Proof.
  intros Hi Hc Hg (Ha & Hh & Hheap & Hn) Hl Hnd Hq.
  destruct (ci_good _ _ _ _ Hi _ _ Hc) as [_ [?|Hgood]]; [done|].
  pose proof (wf_keys _ (proj1 Hgood)) as Hkeys. pose proof (leave_dom g v send c Hkeys) as Hd.
  apply (inv_after_op wname home (Some p) p c (effect (OpLeave g v send) c) w w' Hi Hc).
  - split_and!; [done|done|done|done| |].
    + intros g'. rewrite Hl. case_decide; [done|]. apply (ci_nodup _ _ _ _ Hi).
    + intros g'. rewrite Hl, Hd. case_decide as E.
      * subst g'. rewrite Hq. split; [set_solver|]. intros q Hne. rewrite Hq. naive_solver.
      * rewrite (ci_lists _ _ _ _ Hi). split; [|done].
        split; [intros (c1 & Hc1 & Hin)|intros Hin; exists c; set_solver].
        assert (c1 = c) as -> by congruence. set_solver.
  - apply effect_identity.
  - intros g' Hin. rewrite Hd in Hin. left. set_solver.
  - split; [|by left]. apply effect_good; [unfold player_guid in Hg; simpl; lia|done|done].
Qed.

(** The manager is told the name of a channel whose last player may have left. *)
Lemma deref_name p c {A} (k : Channel → chatact A) Q w :
  heap w !! p = Some c → wp (k c) Q w → wp (c ← deref_channel p; k c) Q w.
Proof.
  intros Hc Hk. apply wp_bind. unfold deref_channel. apply wp_bind, wp_get. rewrite Hc.
  apply wp_ret. eapply wp_mono; [exact Hk|done].
Qed.

Lemma listed_live p g w s :
  inv None w → p ∈ channels_of g w → home g = Some s →
  ∃ c, heap w !! p = Some c ∧ g ∈ dom (playersStore c) ∧
    channels (mgr s w) !! wname (_name c) = Some p.
Proof.
  intros Hi Hp Hs. apply (ci_lists _ _ _ _ Hi) in Hp as (c & Hc & Hg).
  exists c. split_and!; [done|done|]. by eapply member_registered.
Qed.

Lemma listed_home p g w : inv None w → p ∈ channels_of g w → ∃ s, home g = Some s.
Proof.
  intros Hi Hp. apply (ci_lists _ _ _ _ Hi) in Hp as (c & Hc & Hg).
  destruct (ci_registered _ _ _ _ Hi _ _ Hc) as [s Hs]. exists s.
  destruct (ci_live _ _ _ _ Hi _ _ _ Hs) as (c1 & Hc1 & _ & Hm).
  assert (c1 = c) as -> by congruence. by apply Hm.
Qed.

Lemma effect_name op c : _name (effect op c) = _name c.
Proof. pose proof (effect_identity op c) as Hi. unfold identity in Hi. congruence. Qed.

Lemma effect_constant op c : IsConstant (effect op c) = IsConstant c.
Proof.
  pose proof (effect_identity op c) as Hi. unfold identity, IsConstant in *.
  by assert (_channelId (effect op c) = _channelId c) as -> by congruence.
Qed.
Lemma effect_ownership op c : _ownership (effect op c) = _ownership c.
Proof. by injection (effect_identity op c). Qed.

Lemma wp_CleanupChannels_loop me n w :
  session_ok me → inv None w → length (channels_of (GetGUID me) w) = n →
  wp (CleanupChannels_loop wname n me) (λ _ w' _, inv None w' ∧
    channels_of (GetGUID me) w' = [] ∧
    ∀ g, g ≠ GetGUID me → channels_of g w' = channels_of g w) w.
Proof.
  intros [Hg Hhome]. revert w. induction n as [|n IH]; intros w Hi Hlen; cbn [CleanupChannels_loop];
    apply wp_bind, wp_get; destruct (channels_of (GetGUID me) w) as [|p rest] eqn:El; try done;
    try by apply wp_ret.
  assert (p ∈ channels_of (GetGUID me) w) as Hp by (rewrite El; set_solver).
  destruct (listed_home _ _ _ Hi Hp) as [s Hs].
  destruct (listed_live _ _ _ _ Hi Hp Hs) as (c & Hc & Hin & Hr).
  apply wp_bind, wp_modify, wp_bind.
  eapply wp_mono; [apply (wp_leave_quietly p c); exact Hc|]. intros u w1 t ->.
  pose (w1 := (w <| m_channels ::= <[GetGUID me := rest]> |>)
                <| heap ::= <[p := effect (OpLeave (GetGUID me) (view me) false) c]> |>).
  change (setf heap _ _) with w1.
  assert (∀ g, channels_of g w1 = if decide (GetGUID me = g) then rest else channels_of g w) as Hl
    by (intros g; apply channels_of_put).
  pose proof (ci_nodup _ _ _ _ Hi (GetGUID me)) as Hnd. rewrite El in Hnd.
  apply NoDup_cons in Hnd as [Hpr Hnd].
  assert (inv (Some p) w1) as Hi1.
  { apply (inv_leave p c (GetGUID me) (view me) false rest w); try done.
    intros q. rewrite El, elem_of_cons. split; [intros Hq|naive_solver].
    split; [by right|]. by intros ->. }
  rewrite Hhome, Hs. apply wp_bind. eapply deref_name; [apply lookup_insert_eq|].
  eapply wp_mono; [apply (wp_mgr_LeftChannel p (effect (OpLeave (GetGUID me) (view me) false) c) s
      (wname (_name c))); [done|apply lookup_insert_eq|by destruct s|done]|].
  intros u2 w2 t2 (Hi2 & Hm2 & _).
  assert (∀ g, channels_of g w2 = channels_of g w1) as Hl2
    by (intros g; unfold channels_of; by rewrite Hm2).
  eapply wp_mono; [apply IH; [done|]|].
  - rewrite Hl2, Hl, decide_True by done. simpl in Hlen. lia.
  - intros u3 w3 t3 (Hi3 & He & Ho). split_and!; [done|done|]. intros g Hne.
    rewrite Ho, Hl2, Hl, decide_False by done. done.
Qed.

Lemma inv_same x w w' :
  (∀ s, channels (mgr s w') = channels (mgr s w)) → heap w' = heap w → next w' = next w →
  (∀ g, channels_of g w' = channels_of g w) → inv x w → inv x w'.
Proof.
  intros Hmgr Hheap Hn Hl Hi. split; intros *; rewrite ?Hmgr, ?Hheap, ?Hn, ?Hl; try apply Hi.
  intros Hp. destruct (ci_registered _ _ _ _ Hi _ _ Hp) as [s Hs]. exists s. by rewrite Hmgr.
Qed.

Lemma lists_after_left p g w g' :
  channels_of g' (list_call p w (LeftChannel g)) =
    if decide (g = g') then filter (λ q, q ≠ p) (channels_of g w) else channels_of g' w.
Proof. apply channels_of_put. Qed.

(** Leaving with the list and the manager told by the caller. *)
Lemma wp_remove me send p s w :
  session_ok me → inv None w → p ∈ channels_of (GetGUID me) w → home (GetGUID me) = Some s →
  wp (on_channel p (LeaveChannel (GetGUID me) (view me) send) ;;
      c ← deref_channel p;
      player_LeftChannel (GetGUID me) p ;;
      mgr_LeftChannel wname s (_name c)) (λ _ w' _, inv None w') w.
Proof.
  intros [Hg Hhome] Hi Hp Hs. destruct (listed_live _ _ _ _ Hi Hp Hs) as (c & Hc & Hin & Hr).
  set (op := OpLeave (GetGUID me) (view me) send).
  assert (wp (on_channel p (LeaveChannel (GetGUID me) (view me) send)) (λ _ w1 _,
    (∀ s, mgr s w1 = mgr s w) ∧ heap w1 !! p = Some (effect op c) ∧
    inv (Some p) (list_call p w1 (LeftChannel (GetGUID me)))) w) as Hl.
  { destruct send; subst op.
    - eapply wp_mono; [eapply (wp_op (Some p) p c (OpLeave (GetGUID me) (view me) true)); done|].
      intros u w1 t [Hi1 Ha]. split_and!.
      + intros s'. by eapply after_op_mgr.
      + destruct Ha as (_ & _ & -> & _). apply lookup_insert_eq.
      + apply (inv_same _ w1); try done. intros g'. rewrite lists_after_left.
        case_decide; [subst g'|done]. apply filter_all. intros q Hq ->.
        destruct Ha as (_ & _ & _ & _ & _ & Ha). apply (proj1 (Ha _)) in Hq. revert Hq.
        destruct (ci_good _ _ _ _ Hi _ _ Hc) as [_ [?|[Hw _]]]; [done|].
        rewrite leave_dom by (by apply wf_keys). set_solver.
    - eapply wp_mono; [by apply (wp_leave_quietly p c)|]. intros u w1 t ->.
      split_and!; [by intros []|apply lookup_insert_eq|].
      apply (inv_leave p c (GetGUID me) (view me) false
        (filter (λ q, q ≠ p) (channels_of (GetGUID me) w)) w); try done.
      + intros g'. rewrite lists_after_left. done.
      + apply NoDup_filter, (ci_nodup _ _ _ _ Hi).
      + intros q. rewrite list_elem_of_filter. naive_solver. }
  apply wp_bind. eapply wp_mono; [exact Hl|]. intros u w1 t (Hmgr & Hc1 & Hi1).
  eapply deref_name; [exact Hc1|]. apply wp_bind, wp_modify.
  eapply wp_mono; [apply (wp_mgr_LeftChannel p (effect op c) s (wname (_name c)))|].
  - exact Hi1.
  - exact Hc1.
  - specialize (Hmgr s). destruct s; simpl in *; by rewrite Hmgr.
  - done.
  - by intros u2 w2 t2 (Hi2 & _).
Qed.

Lemma wp_find_used i l w :
  (∀ p, p ∈ l → is_Some (heap w !! p)) →
  wp (find_used i l) (λ r w' _, w' = w ∧ ∀ p, r = Some p → p ∈ l) w.
Proof.
  induction l as [|p l IH]; intros Hl; cbn [find_used]; [by apply wp_ret|].
  destruct (Hl p) as [c Hc]; [set_solver|]. eapply deref_name; [done|].
  destruct (_ =? _).
  - apply wp_ret. split; [done|]. intros q [= ->]. set_solver.
  - eapply wp_mono; [apply IH; set_solver|]. set_solver.
Qed.

(** A registered channel is in memory. *)
Lemma registered_live x s k p w :
  inv x w → channels (mgr s w) !! k = Some p → ∃ c, heap w !! p = Some c ∧ wname (_name c) = k.
Proof. intros Hi Hk. destruct (ci_live _ _ _ _ Hi _ _ _ Hk) as (c & ? & ? & _). eauto. Qed.

Lemma wp_join me pass s k p w :
  session_ok me → home (GetGUID me) = Some s → inv None w → channels (mgr s w) !! k = Some p →
  wp (on_channel p (JoinChannel (GetGUID me) (view me) pass)) (λ _ w' _, inv None w' ∧
    ∀ q, q ≠ p → q ∈ channels_of (GetGUID me) w → q ∈ channels_of (GetGUID me) w') w.
Proof.
  intros [Hg _] Hs Hi Hk. destruct (registered_live _ _ _ _ _ Hi Hk) as (c & Hc & _).
  eapply wp_mono; [apply (wp_op None p c (OpJoin (GetGUID me) (view me) pass) s k w); done|].
  intros u w' t [Hi' (_ & _ & _ & _ & _ & Ha)]. split; [done|]. intros q Hne Hq.
  by apply (proj2 (Ha (GetGUID me))).
Qed.

Lemma wp_choice me s newZone zone i channel used w :
  inv None w → is_Some (sChatChannelsStore i) →
  wp (UpdateLocalChannel_choice wname me s newZone zone i channel used) (λ r w' _,
    inv None w' ∧ m_channels w' = m_channels w ∧
    (∀ p, r.1.1 = Some p → ∃ k, channels (mgr s w') !! k = Some p) ∧
    ∀ p, r.1.2 = Some p → used = Some p ∧ r.1.1 ≠ Some p) w.
Proof.
  intros Hi Hst. unfold UpdateLocalChannel_choice.
  assert (∀ (k : Z → chatact (option Z * option Z * bool)) Q,
    (∀ p w1 t, inv None w1 → channels (mgr s w1) !! wname (local_channel_name i newZone (GetSessionDbcLocale me)) = Some p →
      m_channels w1 = m_channels w → wp (k p) (λ a w2 t2, Q a w2 (t ++ t2)) w1) →
    wp (join ← GetJoinChannel wname s (local_channel_name i newZone (GetSessionDbcLocale me)) i; k join) Q w) as Hjoin.
  { intros k Q Hk. apply wp_bind.
    eapply wp_mono; [by apply wp_GetJoinChannel|]. intros p w1 t (? & ? & _ & ? & _). by apply Hk. }
  destruct (CanJoinConstantChannelInZone _ _ _); [|by apply wp_ret].
  destruct (negb _).
  - destruct (_ && _); [by apply wp_ret|]. apply Hjoin. intros p w1 t Hi1 Hk Hm.
    destruct used as [u|]; [destruct (Z.eqb_spec p u)|]; simpl;
      apply wp_ret; simpl; split_and!; try done.
    + intros ? [= <-]. eauto.
    + intros ? [= <-]. split; congruence.
    + intros ? [= <-]. eauto.
  - apply Hjoin. intros p w1 t Hi1 Hk Hm. apply wp_ret. simpl. split_and!; try done.
    intros ? [= <-]. eauto.
Qed.

Lemma wp_entry me s newZone zone i w :
  session_ok me → home (GetGUID me) = Some s → inv None w →
  wp (UpdateLocalChannels_entry wname me s newZone zone i) (λ _ w' _, inv None w') w.
Proof.
  intros Hme Hs Hi. unfold UpdateLocalChannels_entry.
  destruct (sChatChannelsStore i) as [channel|] eqn:Est; [|by apply wp_ret].
  apply wp_bind, wp_get. apply wp_bind. eapply wp_mono.
  { apply wp_find_used. intros p Hp. destruct (listed_live _ _ _ _ Hi Hp Hs) as (c & Hc & _).
    by eexists. }
  intros used w0 t0 [-> Hused]. apply wp_bind.
  eapply wp_mono; [by apply wp_choice|].
  intros [[join remove] send] w1 t1 (Hi1 & Hm & Hj & Hr). simpl in Hj, Hr.
  apply wp_bind. eapply (wp_mono _ (λ _ w2 _, inv None w2 ∧
    ∀ q, join ≠ Some q → q ∈ channels_of (GetGUID me) w1 → q ∈ channels_of (GetGUID me) w2)).
  { destruct join as [p|]; [|by apply wp_ret]. destruct (Hj p eq_refl) as [k Hk].
    eapply wp_mono; [by eapply wp_join|]. intros u w2 t2 [? Hq]. split; [done|].
    intros q Hne. apply Hq. congruence. }
  intros u w2 t2 [Hi2 Hq]. destruct remove as [p|]; [|by apply wp_ret].
  destruct (Hr p eq_refl) as [-> Hne]. eapply wp_mono; [apply wp_remove; try done|done].
  apply Hq; [done|]. unfold channels_of. rewrite Hm. by apply Hused.
Qed.

Lemma wp_UpdateLocalChannels me loading teleporting newZone w :
  session_ok me → inv None w →
  wp (UpdateLocalChannels wname me loading teleporting newZone) (λ _ w' _, inv None w') w.
Proof.
  intros Hme Hi. unfold UpdateLocalChannels. destruct (_ && _); [by apply wp_ret|].
  destruct (GetAreaEntryByAreaID newZone); [|by apply wp_ret].
  rewrite (proj2 Hme). destruct (home (GetGUID me)) as [s|] eqn:Hs; [|by apply wp_ret].
  apply keeps_forM; [|done]. intros i _ w1 Hi1. by apply wp_entry.
Qed.

Lemma wp_LeaveLFG_loop me l w :
  session_ok me → inv None w → (∀ p, p ∈ l → p ∈ channels_of (GetGUID me) w) →
  wp (LeaveLFG_loop me l) (λ _ w' _, inv None w') w.
Proof.
  intros Hme Hi Hl. induction l as [|p l IH]; cbn [LeaveLFG_loop]; [by apply wp_ret|].
  assert (p ∈ channels_of (GetGUID me) w) as Hp by set_solver.
  destruct (listed_home _ _ _ Hi Hp) as [s Hs].
  destruct (listed_live _ _ _ _ Hi Hp Hs) as (c & Hc & _ & Hr).
  eapply deref_name; [done|]. destruct (IsLFG c) eqn:El; [|apply IH; set_solver].
  set (op := OpLeave (GetGUID me) (view me) true).
  eapply wp_mono; [apply (wp_op (Some p) p c op s (wname (_name c))); try done; apply Hme|].
  intros u w' t [Hi' (_ & _ & Hheap & _)]. split; try apply Hi'. intros q c1 Hq.
  destruct (ci_good _ _ _ _ Hi' _ _ Hq) as [Hg [Hx|Hc1]]; [|by auto]. split; [done|right].
  injection Hx as ->. rewrite Hheap, lookup_insert_eq in Hq.
  assert (c1 = effect op c) as -> by congruence.
  split; [apply Hg|]. intros Hown.
  by rewrite effect_ownership, (ci_lfg _ _ _ _ Hi _ _ Hc El) in Hown.
Qed.

Lemma wp_LeaveLFGChannel me w :
  session_ok me → inv None w → wp (LeaveLFGChannel me) (λ _ w' _, inv None w') w.
Proof.
  intros Hme Hi. unfold LeaveLFGChannel. apply wp_bind, wp_get. by apply wp_LeaveLFG_loop.
Qed.

Lemma wp_CleanupChannels me w :
  session_ok me → inv None w →
  wp (CleanupChannels wname me) (λ _ w' _, inv None w' ∧
    channels_of (GetGUID me) w' = [] ∧
    ∀ g, g ≠ GetGUID me → channels_of g w' = channels_of g w) w.
Proof.
  intros Hme Hi. unfold CleanupChannels. apply wp_bind, wp_get. by apply wp_CleanupChannels_loop.
Qed.

(** *** The handlers *)

Lemma wp_with_channel me name k (Q : unit → ChatWorld → list channel_event → Prop) w :
  session_ok me → inv None w →
  (∀ s p c, home (GetGUID me) = Some s → channels (mgr s w) !! wname name = Some p →
    heap w !! p = Some c → wp (k s p) Q w) →
  (home (GetGUID me) = None → Q tt w []) →
  (∀ s, home (GetGUID me) = Some s → channels (mgr s w) !! wname name = None →
    Q tt w [SendPacket (GetGUID me) (MakeNotOnPacket name)]) →
  wp (with_channel wname me name k) Q w.
Proof.
  intros [Hg Hhome] Hi Hk H0 H1. unfold with_channel. rewrite Hhome.
  destruct (home (GetGUID me)) as [s|] eqn:Hs; [|apply wp_ret; auto].
  apply wp_bind. unfold GetChannel. apply wp_bind, wp_get.
  destruct (channels (mgr s w) !! wname name) as [p|] eqn:Hp.
  - apply wp_ret. destruct (registered_live _ _ _ _ _ Hi Hp) as (c & Hc & _).
    eapply wp_mono; [by eapply Hk|done].
  - apply wp_bind, wp_emit, wp_ret, wp_ret. eauto.
Qed.

(** An operation of a channel asked for by name. *)
Lemma wp_named_op me name (op : chan_op) w :
  session_ok me → inv None w → actor op = GetGUID me → not_self op = true → leaves op = false →
  wp (with_channel wname me name (λ _ p, on_channel p (run_op op))) (λ _ w' _, inv None w') w.
Proof.
  intros Hme Hi Ha Hself Hl. apply wp_with_channel; try done. intros s p c Hs Hp Hc.
  eapply wp_mono; [eapply (wp_op None p c op s); try done|].
  - rewrite Ha. apply Hme.
  - by rewrite Ha.
  - by destruct op.
  - by rewrite Hl.
  - by intros u w' t [? _].
Qed.

(** A handler ends, or leaves everything as it was at a packet too short. *)
Definition served (m : chatact unit) (Q : ChatWorld → Prop) w : Prop :=
  match m w with
  | Done _ w' _ => Q w'
  | Fault f w' t => w' = w ∧ t = [] ∧ ∃ pos n size, f = BBPosition false pos n size
  end.

Lemma served_packet {A} b (reader : bb A) k Q w :
  bb_wf b → reader_safe reader → (∀ a, rval (reader b) = Some a → wp (k a) (λ _ w' _, Q w') w) →
  served (with_packet b reader k) Q w.
Proof.
  intros Hb Hr Hk. unfold served, with_packet. specialize (Hr b Hb).
  destruct (reader b) as [a b' t|f b' t]; simpl in *.
  - specialize (Hk a eq_refl). unfold wp in Hk. by destruct (k a w).
  - destruct Hr as (_ & _ & _ & pos & n & ->). eauto 10.
Qed.
Lemma served_mono m (P Q : ChatWorld → Prop) w : (∀ w', P w' → Q w') → served m P w → served m Q w.
Proof. unfold served. destruct (m w); auto. Qed.

Lemma safe_two_names : reader_safe read_two_names.
Proof.
  apply safe_bind; [apply safe_string|]. intros channelName.
  apply safe_bind; [apply safe_string|]. intros targetName. apply safe_ret.
Qed.
Lemma safe_read_leave : reader_safe read_leave.
Proof. apply safe_bind; [by apply safe_read|]. intros unk. apply safe_string. Qed.
Lemma read_leave_reads unk name :
  Forall field_ok [U32 unk; Str name] → reads read_leave (packet_bytes [U32 unk; Str name]) name.
Proof.
  rewrite !Forall_cons. intros (H1 & H2 & _).
  change (packet_bytes _) with (le_bytes 4 unk ++ (string_bytes name ++ [0]) ++ []).
  rewrite app_nil_r. eapply reads_bind; [apply read_unsigned_reads; exact H1|].
  apply rshift_string_reads. exact H2.
Qed.
Lemma safe_read_join : reader_safe read_join.
Proof.
  repeat (apply safe_bind; [by first [apply safe_read|apply safe_string]|intros ?]). apply safe_ret.
Qed.

Lemma served_channel me pkt (op : chan_op) w :
  session_ok me → inv None w → bb_wf pkt →
  actor op = GetGUID me → not_self op = true → leaves op = false →
  served (handle_channel wname me pkt (run_op op)) (inv None) w.
Proof.
  intros Hme Hi Hb Ha Hs Hl. apply served_packet; [done|apply safe_string|].
  intros name _. by apply wp_named_op.
Qed.

Lemma served_target me pkt (op : string → chan_op) w :
  session_ok me → inv None w → bb_wf pkt → (∀ t, actor (op t) = GetGUID me) →
  (∀ t, leaves (op t) = false) →
  (∀ c t n, rval (read_two_names pkt) = Some (c, t) → normalizePlayerName t = Some n →
    not_self (op n) = true) →
  served (handle_target wname me pkt (λ t, run_op (op t))) (inv None) w.
Proof.
  intros Hme Hi Hb Ha Hl Hs. apply served_packet; [done|apply safe_two_names|].
  intros [c t] Hr. destruct (normalizePlayerName t) as [n|] eqn:En; [|by apply wp_ret].
  apply wp_named_op; eauto.
Qed.

(** Joining the channel of a name, found or made. *)
Lemma wp_join_named me s channelId name pass w :
  session_ok me → home (GetGUID me) = Some s → inv None w → join_allowed me channelId = true →
  wp (setTeam s (GetTeam (view me)) ;;
      p ← GetJoinChannel wname s name channelId;
      on_channel p (JoinChannel (GetGUID me) (view me) pass)) (λ _ w' _,
    inv None w' ∧ ∃ p, channels (mgr s w') !! wname name = Some p ∧
      heap w' !! p = Some (effect (OpJoin (GetGUID me) (view me) pass)
        (channel_for s name channelId
          (update_mgr s (λ m, m <| mgr_team := GetTeam (view me) |>) w))) ∧
      ∀ q c, q ≠ p → heap w !! q = Some c → heap w' !! q = Some c) w.
Proof.
  intros Hme Hs Hi Ej.
  apply wp_bind, wp_modify, wp_bind. eapply wp_mono; [apply wp_GetJoinChannel|].
  - apply (inv_same _ w); try done; try intros []; by destruct s.
  - intros Hid. unfold join_allowed in Ej. rewrite (proj2 (Z.eqb_neq _ _) Hid) in Ej.
    by destruct (sChatChannelsStore channelId).
  - intros p w1 t (Hi1 & Hk & Hc & _ & Hup).
    eapply wp_mono; [eapply (wp_op None p _ (OpJoin (GetGUID me) (view me) pass) s); try done;
      apply Hme|].
    intros u w2 t2 [Hi2 Ha]. split; [done|]. exists p.
    rewrite (after_op_mgr _ _ _ _ _ s Ha). destruct Ha as (_ & _ & Hheap & _).
    rewrite Hheap. split_and!; [done|apply lookup_insert_eq|].
    intros q c Hne Hq. rewrite lookup_insert_ne by done. apply Hup. by destruct s.
Qed.

Lemma wp_HandleJoin me channelId channelName password w :
  session_ok me → inv None w →
  wp (if negb (join_allowed me channelId) then mret tt else
      if String.eqb channelName "" then mret tt else
      match forTeam (GetTeam (view me)) with
      | None => mret tt
      | Some s =>
          setTeam s (GetTeam (view me)) ;;
          p ← GetJoinChannel wname s channelName channelId;
          on_channel p (JoinChannel (GetGUID me) (view me) password)
      end) (λ _ w' _, inv None w') w.
Proof.
  intros Hme Hi. destruct (join_allowed me channelId) eqn:Ej; [|by apply wp_ret]. cbn [negb].
  destruct (String.eqb channelName ""); [by apply wp_ret|]. rewrite (proj2 Hme).
  destruct (home (GetGUID me)) as [s|] eqn:Hs; [|by apply wp_ret].
  eapply wp_mono; [by apply wp_join_named|]. by intros u w' t [? _].
Qed.

Lemma read_join_reads channelId u1 u2 name pass :
  Forall field_ok [U32 channelId; U8 u1; U8 u2; Str name; Str pass] →
  reads read_join (packet_bytes [U32 channelId; U8 u1; U8 u2; Str name; Str pass])
    (channelId, name, pass).
Proof.
  rewrite !Forall_cons. intros (H1 & H2 & H3 & H4 & H5 & _). 
  change (packet_bytes _) with (le_bytes 4 channelId ++ le_bytes 1 u1 ++ le_bytes 1 u2 ++
    (string_bytes name ++ [0]) ++ (string_bytes pass ++ [0]) ++ []).
  eapply reads_bind; [apply read_unsigned_reads; exact H1|].
  eapply reads_bind; [apply read_unsigned_reads; exact H2|].
  eapply reads_bind; [apply read_unsigned_reads; exact H3|].
  eapply reads_bind; [apply rshift_string_reads; exact H4|].
  eapply reads_bind; [apply rshift_string_reads; exact H5|]. apply reads_ret.
Qed.

Lemma wp_HandleLeave me name w :
  session_ok me → inv None w →
  wp (match forTeam (GetTeam (view me)) with
      | None => mret tt
      | Some s =>
          channel ← GetChannel wname s name (GetGUID me);
          match channel with
          | Some p => on_channel p (LeaveChannel (GetGUID me) (view me) true)
          | None => mret tt
          end ;;
          mgr_LeftChannel wname s name
      end) (λ _ w' _, inv None w') w.
Proof.
  intros Hme Hi. rewrite (proj2 Hme).
  destruct (home (GetGUID me)) as [s|] eqn:Hs; [|by apply wp_ret].
  apply wp_bind. unfold GetChannel. apply wp_bind, wp_get.
  destruct (channels (mgr s w) !! wname name) as [p|] eqn:Hp.
  - apply wp_ret. destruct (registered_live _ _ _ _ _ Hi Hp) as (c & Hc & Hn).
    set (op := OpLeave (GetGUID me) (view me) true).
    apply wp_bind. eapply wp_mono; [apply (wp_op (Some p) p c op s (wname name)); try done; apply Hme|].
    intros u w1 t [Hi1 Ha]. pose proof (after_op_mgr _ _ _ _ _ s Ha) as Hmgr.
    destruct Ha as (_ & _ & Hheap & _).
    eapply wp_mono; [apply (wp_mgr_LeftChannel p (effect op c) s (wname name)); [done| |by rewrite Hmgr|]|].
    + rewrite Hheap. apply lookup_insert_eq.
    + by rewrite effect_name.
    + by intros u2 w2 t2 (Hi2 & _).
  - apply wp_bind, wp_emit, wp_ret. apply wp_bind, wp_ret. unfold mgr_LeftChannel.
    apply wp_bind, wp_get. rewrite Hp. by apply wp_ret.
Qed.

Lemma handle_served me rq pkt w :
  session_ok me → inv None w → bb_wf pkt → kicks_self me rq pkt = false →
  served (handle wname me rq pkt) (inv None) w.
Proof.
  intros Hme Hi Hb Hk. destruct rq; cbn [handle].
  - apply served_packet; [done|apply safe_read_join|].
    intros [[channelId channelName] password] _. by apply wp_HandleJoin.
  - apply served_packet; [done|apply safe_read_leave|]. intros name _.
    destruct (String.eqb name ""); [by apply wp_ret|]. by apply wp_HandleLeave.
  - by apply (served_channel me pkt (OpList _ _)).
  - apply served_packet; [done|apply safe_two_names|]. intros [name pass] _.
    by apply (wp_named_op me name (OpPassword _ _ _)).
  - by apply (served_target me pkt (OpSetOwner _ _)).
  - by apply (served_channel me pkt (OpWhoOwner _)).
  - by apply (served_target me pkt (λ t, OpSetMode _ _ t true true)).
  - by apply (served_target me pkt (λ t, OpSetMode _ _ t true false)).
  - by apply (served_target me pkt (λ t, OpSetMode _ _ t false true)).
  - by apply (served_target me pkt (λ t, OpSetMode _ _ t false false)).
  - by apply (served_target me pkt (OpInvite _ _)).
  - apply (served_target me pkt (λ t, OpKickOrBan _ _ t false)); try done.
    intros c t n Hr Hn. unfold kicks_self in Hk. rewrite Hr, Hn in Hk. simpl. by rewrite Hk.
  - apply (served_target me pkt (λ t, OpKickOrBan _ _ t true)); try done.
    intros c t n Hr Hn. unfold kicks_self in Hk. rewrite Hr, Hn in Hk. simpl. by rewrite Hk.
  - by apply (served_target me pkt (OpUnBan _ _)).
  - by apply (served_channel me pkt (OpAnnounce _ _)).
  - by apply (served_channel me pkt (OpList _ _)).
  - apply served_packet; [done|apply safe_string|]. intros name _.
    apply wp_with_channel; try done. intros s p c Hs Hp Hc. by eapply deref_name.
  - apply served_packet; [done|apply safe_string|]. intros name _. by apply wp_ret.
Qed.
End Steps.

(** ** The managers' players

    What holds of every run, of those too in which a player kicks himself: a
    channel stays with one manager, and whoever is in it is served by that
    manager, but for the phantom with guid 0. *)

Section Sides.
Context (wname : string → string) (home : Z → option side).

Definition served_by (s : side) (g : Z) : Prop := g = 0 ∨ home g = Some s.
Definition members_ok (P : Z → Prop) (c : Channel) : Prop :=
  ∀ k q, playersStore c !! k = Some q → P k ∧ P (player q).
Record sides_inv (w : ChatWorld) : Prop := {
  si_fresh : ∀ p, is_Some (heap w !! p) → p < next w;
  si_live : ∀ s k p, channels (mgr s w) !! k = Some p →
    ∃ c, heap w !! p = Some c ∧ wname (_name c) = k ∧ members_ok (served_by s) c;
  si_registered : ∀ p c, heap w !! p = Some c → ∃ s, channels (mgr s w) !! wname (_name c) = Some p;
  si_one : ∀ s s' k k' p,
    channels (mgr s w) !! k = Some p → channels (mgr s' w) !! k' = Some p → s = s' }.

(** The channel at [p], as long as it is in memory, is one of [s]. *)
Definition belongs (s : side) (p : Z) (w : ChatWorld) : Prop :=
  p < next w ∧ ∀ c, heap w !! p = Some c → channels (mgr s w) !! wname (_name c) = Some p.
Definition steps {A} (m : chatact A) (w : ChatWorld) : Prop :=
  sides_inv w → sides_inv (rstate (m w)) ∧ ∀ s p, belongs s p w → belongs s p (rstate (m w)).

(** *** The members after an operation *)

Section Members.
Context `{ChannelEnv} (P : Z → Prop) (H0 : P 0).
Lemma members_alter c f g : members_ok P c → (∀ q, P (player q) → P (player (f q))) → P g →
  members_ok P (put_player g f c).
Proof.
  intros Hc Hf Hg k q. unfold put_player, setf. cbn [playersStore].
  intros [[<- <-]|[_ Hk]]%lookup_insert_Some; [|by apply Hc]. split; [done|]. apply Hf.
  destruct (playersStore c !! g) as [x|] eqn:E; [by apply (Hc g)|done].
Qed.
Lemma members_remove c g : members_ok P c → members_ok P (remove_member g c).
Proof. intros Hc k q. unfold remove_member, setf. cbn [playersStore]. intros [_ Hk]%lookup_delete_Some. by apply Hc. Qed.
Lemma members_owner_cleared c : members_ok P c → members_ok P (owner_cleared c).
Proof.
  intros Hc. unfold owner_cleared. destruct (playersStore c !! _ownerGUID c) as [x|] eqn:E; [|done].
  destruct (_ownerGUID c =? 0); [done|]. intros k q. unfold setf. cbn [playersStore].
  intros [[<- <-]|[_ Hk]]%lookup_insert_Some; [|by apply Hc]. by apply (Hc _ x).
Qed.
Lemma members_owner c g : members_ok P c → P g → members_ok P (owner_set g c).
Proof.
  intros Hc Hg. pose proof (members_owner_cleared c Hc) as Hd. unfold owner_set.
  destruct (g =? 0); [exact Hd|]. by apply members_alter.
Qed.
Lemma members_on c g : members_ok P c → IsOn g c = true → P g.
Proof. intros Hc [q Hq]%IsOn_true. by apply Hc in Hq as [? _]. Qed.
Lemma moderates_on g me c : moderates g me c = true → IsOn g c = true.
Proof. unfold moderates. destruct (playersStore c !! g) as [q|] eqn:E; [|done]. intros _. apply bool_decide_true. rewrite E. by eexists. Qed.
Lemma target_known me name c v : target me name c = Some v → IsOn v c = true.
Proof.
  unfold target. destruct (FindPlayerByName name) as [[g q]|]; [|done].
  destruct (IsOn g c) eqn:E; [|by rewrite orb_true_r]. destruct (_ || _ || _); [done|]. by intros [= <-].
Qed.

Definition joins (op : chan_op) : bool := match op with OpJoin _ _ _ => true | _ => false end.
Lemma members_effect op c : (joins op = true → P (actor op)) → members_ok P c → members_ok P (effect op c).
Proof.
  intros Ha Hc. destruct op as [g me pass|g me send|g me n ban|g me n|g me pass|g me n m b|g me n|g|g me|g me|g x l|g me n];
    cbn [effect joins actor] in *; try done.
  - specialize (Ha eq_refl). destruct (_ || _); [done|].
    assert (members_ok P (add_member g c)) as Hadd.
    { intros k q. unfold add_member, setf. cbn [playersStore]. intros [[<- <-]|[_ Hk]]%lookup_insert_Some; [done|by apply Hc]. }
    destruct (_ && _ && _); [|done]. apply members_alter; [by apply members_owner|done|done].
  - destruct (playersStore c !! g) as [x|]; [|done]. pose proof (members_remove c g Hc) as Hr.
    destruct (map_begin _) as [[k q]|] eqn:Eb; [|done]. destruct (_ && _ && _); [|done].
    apply map_begin_Some in Eb as [Eb _]. assert (P (player q)) as Hq by (by apply Hr in Eb as [_ ?]).
    apply members_owner; [|done]. by apply members_alter.
  - destruct (negb (moderates g me c)) eqn:Em; [done|]. apply negb_false_iff, moderates_on in Em.
    pose proof (members_on c g Hc Em) as Hg. destruct (_ || _ || _); [done|].
    set (c1 := if ban then _ else c). assert (members_ok P c1) as Hc1 by (subst c1; by destruct ban).
    pose proof (members_remove c1 (named n) Hc1) as Hr. destruct (_ && _ && _); [|done].
    apply members_owner; [|done]. by apply members_alter.
  - by destruct (_ && _).
  - by destruct (moderates g me c).
  - destruct (_ || _); [done|]. destruct (target me n c) as [v|] eqn:Et; [|done].
    pose proof (members_on c v Hc (target_known _ _ _ _ Et)). destruct (_ && _); [done|].
    unfold set_flag_of. destruct (playersStore c !! v) as [x|]; [|done]. destruct (Bool.eqb _ _); [done|]. by apply members_alter.
  - destruct (_ || _); [done|]. destruct (target me n c) as [v|] eqn:Et; [|done].
    pose proof (members_on c v Hc (target_known _ _ _ _ Et)). apply members_owner; [|done]. by apply members_alter.
  - by destruct (moderates g me c).
Qed.
End Members.

(** *** Actions *)

Section Actions.
Context `{ChatEnv}.
Implicit Types (w : ChatWorld) (me : Session).

Lemma steps_same {A} (m : chatact A) w :
  (∀ s, channels (mgr s (rstate (m w))) = channels (mgr s w)) → heap (rstate (m w)) = heap w →
  next (rstate (m w)) = next w → steps m w.
Proof.
  intros Hm Hh Hn [F L R O]. split.
  - split; intros *; rewrite ?Hh, ?Hn, ?Hm; [apply F|apply L| |apply O].
    intros Hp. destruct (R p c Hp) as [s Hs]. exists s. by rewrite Hm.
  - intros s p. unfold belongs. by rewrite Hh, Hn, Hm.
Qed.
Lemma steps_still {A} (m : chatact A) w : rstate (m w) = w → steps m w.
Proof. intros E. apply steps_same; by rewrite E. Qed.
Lemma steps_bind {A B} (m : chatact A) (f : A → chatact B) w :
  steps m w →
  (∀ a w' t, m w = Done a w' t → sides_inv w' → (∀ s p, belongs s p w → belongs s p w') → steps (f a) w') →
  steps (m ≫= f) w.
Proof.
  unfold steps, mbind, act_bind. intros Hm Hf Hw. destruct (Hm Hw) as [Hi Hb].
  destruct (m w) as [a w1 t|]; [|done]. destruct (Hf a w1 t eq_refl Hi Hb Hi) as [Hi2 Hb2].
  destruct (f a w1) as [b w2 t2|e w2 t2]; cbn in *; (split; [done|]; intros s p Hp; by apply Hb2, Hb).
Qed.
Lemma steps_get {B} (f : ChatWorld → chatact B) w : steps (f w) w → steps (get ≫= f) w.
Proof. intros Hf. apply steps_bind; [by apply steps_still|]. by intros a w' t [= -> -> _]. Qed.
Lemma steps_when b (m : chatact unit) w : (b = true → steps m w) → steps (when b m) w.
Proof. intros Hm. destruct b; [by apply Hm|by apply steps_still]. Qed.
Lemma still_channel_of p w : rstate (deref_channel p w) = w.
Proof. unfold deref_channel, mbind, act_bind, get, require. by destruct (heap w !! p). Qed.
Lemma deref_Done p w a w' t : deref_channel p w = Done a w' t → w' = w ∧ heap w !! p = Some a.
Proof. unfold deref_channel, mbind, act_bind, get, require. cbn. destruct (heap w !! p); [|done]. by intros [= -> -> _]. Qed.
Lemma steps_deref {B} p (f : Channel → chatact B) w :
  (∀ c, heap w !! p = Some c → steps (f c) w) → steps (c ← deref_channel p; f c) w.
Proof.
  intros Hf. apply steps_bind; [by apply steps_still, still_channel_of|].
  intros c w' t Hd _ _. apply deref_Done in Hd as [-> Hc]. by apply Hf.
Qed.
Lemma steps_forM {A} (f : A → chatact unit) l : (∀ x w, steps (f x) w) → ∀ w, steps (forM_ l f) w.
Proof.
  intros Hf. induction l as [|x l IH]; intros w; [by apply steps_still|].
  apply steps_bind; [apply Hf|]. intros [] w' t _ _ _. apply IH.
Qed.

Lemma registered_belongs s k p w : sides_inv w → channels (mgr s w) !! k = Some p → belongs s p w.
Proof.
  intros [F L _ _] Hk. destruct (L s k p Hk) as (c & Hc & <- & _). split; [apply F; by eexists|].
  intros c' Hc'. by assert (c' = c) as -> by congruence.
Qed.

Lemma list_calls_same p t w :
  let w' := foldl (list_call p) w t in
  (∀ s, mgr s w' = mgr s w) ∧ heap w' = heap w ∧ next w' = next w.
Proof.
  revert w. induction t as [|e t IH]; intros w; [done|]. cbn [foldl]. destruct (IH (list_call p w e)) as (E1 & E2 & E3).
  split_and!; [intros s; rewrite E1|rewrite E2|rewrite E3]; destruct e; try done; by destruct s.
Qed.

(** A method of a channel: who joins must be served by the channel's manager. *)
Lemma steps_op op p w :
  (joins op = true → ∃ s, belongs s p w ∧ home (actor op) = Some s) → steps (on_channel p (run_op op)) w.
Proof.
  intros Hj. unfold steps. intros Hw. unfold on_channel. destruct (heap w !! p) as [c|] eqn:Hc; [|done].
  pose proof (op_implements op c) as Hi. unfold wp in Hi. destruct (run_op op c) as [[] c' t|]; [|done].
  destruct Hi as [-> _]. cbn [rstate].
  set (w1 := w <| heap ::= <[p := effect op c]> |>). destruct (list_calls_same p t w1) as (E1 & E2 & E3).
  set (w' := foldl _ w1 t) in *. assert (∀ s, mgr s w' = mgr s w) as Em by (intros s; rewrite E1; by destruct s).
  assert (heap w' = <[p := effect op c]> (heap w)) as Eh by done. assert (next w' = next w) as En by done.
  clearbody w'. clear w1 E1 E2 E3. assert (_name (effect op c) = _name c) as Hname
    by (pose proof (effect_identity op c) as Hid; unfold identity in Hid; congruence).
  destruct Hw as [F L R O]. split; [split|].
  - intros q. rewrite Eh, En. intros [c1 [[<- _]|[_ Hq]]%lookup_insert_Some]; apply F; by eexists.
  - intros s k q. rewrite Em, Eh. intros Hk. destruct (L s k q Hk) as (c1 & Hq & Hn & Hm).
    destruct (decide (p = q)) as [<-|Hne]; [|exists c1; by rewrite lookup_insert_ne].
    assert (c1 = c) as -> by congruence. exists (effect op c). rewrite lookup_insert_eq, Hname. split_and!; [done..|].
    apply members_effect; [by left| |done]. intros Hjn. destruct (Hj Hjn) as (s' & [_ Hb] & Hs').
    right. rewrite (O s s' _ _ p Hk (Hb c Hc)). done.
  - intros q c1. rewrite Eh. intros [[<- <-]|[_ Hq]]%lookup_insert_Some.
    + rewrite Hname. destruct (R p c Hc) as [s Hs]. exists s. by rewrite Em.
    + destruct (R q c1 Hq) as [s Hs]. exists s. by rewrite Em.
  - intros s s' k k' q. rewrite !Em. apply O.
  - intros s q [Hq Hb]. split; [by rewrite En|]. intros c1. rewrite Eh, Em.
    intros [[<- <-]|[_ Hc1]]%lookup_insert_Some; [rewrite Hname|]; by apply Hb.
Qed.

Lemma steps_mgr_LeftChannel s name w : steps (mgr_LeftChannel wname s name) w.
Proof.
  unfold mgr_LeftChannel. apply steps_get. destruct (channels (mgr s w) !! wname name) as [p|] eqn:Hk; [|by apply steps_still].
  apply steps_deref. intros c Hc. apply steps_when. intros _ Hw. pose proof Hw as [F L R O].
  destruct (L s _ p Hk) as (c' & Hc' & Hn & _). assert (c' = c) as -> by congruence. clear Hc'.
  set (w' := rstate _).
  assert (∀ s', channels (mgr s' w') = if decide (s' = s) then delete (wname name) (channels (mgr s w)) else channels (mgr s' w)) as Em
    by (intros s'; subst w'; by destruct s, s').
  assert (heap w' = delete p (heap w)) as Eh by (subst w'; by destruct s).
  assert (next w' = next w) as En by (subst w'; by destruct s). clearbody w'.
  assert (∀ s' k q, channels (mgr s' w') !! k = Some q → q ≠ p ∧ channels (mgr s' w) !! k = Some q) as Hreg.
  { intros s' k q. rewrite Em. case_decide as E.
    - subst s'. intros [Hne Hq]%lookup_delete_Some. split; [|done]. intros ->. apply Hne.
      destruct (L _ _ _ Hq) as (c1 & Hc1 & <- & _). congruence.
    - intros Hq. split; [|done]. intros ->. apply E. by eapply O. }
  assert (∀ s' k q, channels (mgr s' w) !! k = Some q → q ≠ p → channels (mgr s' w') !! k = Some q) as Hkeep.
  { intros s' k q Hq Hne. rewrite Em. case_decide as E; [|done]. subst s'. rewrite lookup_delete_ne; [done|].
    intros <-. congruence. }
  split; [split|].
  - intros q [c1 Hq]. rewrite Eh in Hq. apply lookup_delete_Some in Hq as [_ Hq]. rewrite En. apply F. by eexists.
  - intros s' k q [Hne Hq]%Hreg. destruct (L _ _ _ Hq) as (c1 & Hc1 & ?). exists c1. by rewrite Eh, lookup_delete_ne.
  - intros q c1 Hq. rewrite Eh in Hq. apply lookup_delete_Some in Hq as [Hne Hq]. destruct (R q c1 Hq) as [s' Hs]. exists s'. by apply Hkeep.
  - intros s1 s2 k1 k2 q [_ H1]%Hreg [_ H2]%Hreg. by eapply O.
  - intros s' q [Hq Hb]. split; [by rewrite En|]. intros c1. rewrite Eh. intros [Hne Hc1]%lookup_delete_Some. by apply Hkeep; [apply Hb|].
Qed.

Lemma steps_GetJoinChannel s name channelId w : steps (GetJoinChannel wname s name channelId) w.
Proof.
  unfold GetJoinChannel. apply steps_get. destruct (channels (mgr s w) !! wname name) as [p|] eqn:Hk; [by apply steps_still|].
  pose proof (new_Channel_fresh (CHAR_SEL_CHANNEL name (mgr_team (mgr s w))) name channelId (mgr_team (mgr s w))) as (Hz & Hname & _).
  destruct (new_Channel _ _ _ _) as [c t]. cbn in Hz, Hname. apply steps_bind.
  { apply steps_forM. intros e w0. by apply steps_still. }
  intros [] w0 t0 Ht _ _. assert (w0 = w) as ->.
  { assert (∀ (l : list channel_event) w, rstate (forM_ l emit w : res ChatWorld channel_event unit) = w) as Hl.
    { clear. induction l as [|e l IH]; intros w; [done|]. cbn [forM_]. unfold mbind, act_bind. cbn. specialize (IH w). by destruct (forM_ l emit w). }
    specialize (Hl t w). by rewrite Ht in Hl. }
  intros Hw. pose proof Hw as [F L R O]. set (w' := rstate _).
  assert (∀ s', channels (mgr s' w') = if decide (s' = s) then <[wname name := next w]> (channels (mgr s w)) else channels (mgr s' w)) as Em
    by (intros s'; subst w'; by destruct s, s').
  assert (heap w' = <[next w := c]> (heap w)) as Eh by (subst w'; by destruct s).
  assert (next w' = next w + 1) as En by (subst w'; by destruct s). clearbody w'.
  assert (∀ q c1, heap w !! q = Some c1 → q < next w) as Hfresh by (intros q c1 Hq; apply F; by eexists).
  assert (∀ s' k q, channels (mgr s' w') !! k = Some q →
    (s' = s ∧ k = wname name ∧ q = next w) ∨ (q < next w ∧ channels (mgr s' w) !! k = Some q)) as Hreg.
  { intros s' k q. rewrite Em. case_decide as E; [subst s'; intros [[<- <-]|[_ Hq]]%lookup_insert_Some; [by left|]|intros Hq];
      right; destruct (L _ _ _ Hq) as (c1 & Hc1 & _); eauto. }
  assert (∀ s' k q, channels (mgr s' w) !! k = Some q → channels (mgr s' w') !! k = Some q) as Hkeep.
  { intros s' k q Hq. rewrite Em. case_decide as E; [|done]. subst s'. rewrite lookup_insert_ne; [done|]. intros <-. congruence. }
  split; [split|].
  - intros q. rewrite Eh, En. intros [c1 [[<- _]|[_ Hq]]%lookup_insert_Some]; [lia|]. apply Hfresh in Hq. lia.
  - intros s' k q [(-> & -> & ->)|[Hq Hk']]%Hreg.
    + exists c. rewrite Eh, lookup_insert_eq, Hname. split_and!; [done..|]. intros k x. by rewrite Hz, lookup_empty.
    + destruct (L _ _ _ Hk') as (c1 & Hc1 & ?). exists c1. rewrite Eh, lookup_insert_ne by lia. done.
  - intros q c1. rewrite Eh. intros [[<- <-]|[_ Hq]]%lookup_insert_Some.
    + exists s. rewrite Em, decide_True, Hname by done. apply lookup_insert_eq.
    + destruct (R q c1 Hq) as [s' Hs]. exists s'. by apply Hkeep.
  - intros s1 s2 k1 k2 q [(-> & -> & ->)|[Hq1 H1]]%Hreg [(-> & -> & E)|[Hq2 H2]]%Hreg; [done|lia|lia|]. by eapply O.
  - intros s' q [Hq Hb]. split; [lia|]. intros c1. rewrite Eh. intros [[<- _]|[_ Hc1]]%lookup_insert_Some; [lia|]. by apply Hkeep, Hb.
Qed.
Lemma GetJoinChannel_belongs s name channelId w p w' t :
  GetJoinChannel wname s name channelId w = Done p w' t → sides_inv w' → belongs s p w'.
Proof.
  intros Hd Hw'. eapply (registered_belongs s (wname name)); [done|]. revert Hd. unfold GetJoinChannel, mbind, act_bind, get. cbn.
  destruct (channels (mgr s w) !! wname name) as [q|] eqn:Hk; [by intros [= -> <- _]|].
  destruct (new_Channel _ _ _ _) as [c t0]. destruct (forM_ t0 emit w) as [[] w0 t1|]; [|done]. cbn.
  intros [= <- <- _]. destruct s; apply lookup_insert_eq.
Qed.

(** *** The handlers *)

Definition of_home me : Prop := forTeam (GetTeam (view me)) = home (GetGUID me).

Lemma steps_with_channel me name k w :
  of_home me → (∀ s p, home (GetGUID me) = Some s → belongs s p w → steps (k s p) w) → steps (with_channel wname me name k) w.
Proof.
  intros Hme Hk Hw. revert Hw. change (steps (with_channel wname me name k) w). unfold with_channel. rewrite Hme.
  destruct (home (GetGUID me)) as [s|] eqn:Hs; [|by apply steps_still]. intros Hw. revert Hw.
  change (steps (channel ← GetChannel wname s name (GetGUID me); match channel with Some p => k s p | None => mret tt end) w).
  unfold GetChannel. intros Hw. revert Hw.
  destruct (channels (mgr s w) !! wname name) as [p|] eqn:Hp.
  - intros Hw. pose proof (registered_belongs s _ p w Hw Hp) as Hb. specialize (Hk s p eq_refl Hb Hw).
    unfold mbind, act_bind, get. cbn. rewrite Hp. cbn. destruct (k s p w); exact Hk.
  - intros Hw. unfold mbind, act_bind, get. cbn. rewrite Hp. done.
Qed.
Lemma steps_packet {A} b (reader : bb A) (k : A → chatact unit) w :
  (∀ a, steps (k a) w) → steps (with_packet b reader k) w.
Proof. intros Hk. unfold with_packet. destruct (reader b); [apply Hk|by apply steps_still]. Qed.
Lemma steps_channel me pkt (op : chan_op) w :
  of_home me → joins op = false → steps (handle_channel wname me pkt (run_op op)) w.
Proof.
  intros Hme Hj. apply steps_packet. intros name. apply steps_with_channel; [done|]. intros s p _ _.
  apply steps_op. by rewrite Hj.
Qed.
Lemma steps_target me pkt (op : string → chan_op) w :
  of_home me → (∀ t, joins (op t) = false) → steps (handle_target wname me pkt (λ t, run_op (op t))) w.
Proof.
  intros Hme Hj. apply steps_packet. intros [c t]. destruct (normalizePlayerName t) as [n|]; [|by apply steps_still].
  apply steps_with_channel; [done|]. intros s p _ _. apply steps_op. by rewrite Hj.
Qed.
Lemma steps_leave me p send w : steps (on_channel p (LeaveChannel (GetGUID me) (view me) send)) w.
Proof. by apply (steps_op (OpLeave (GetGUID me) (view me) send)). Qed.
Lemma steps_join me pass s p w :
  belongs s p w → home (GetGUID me) = Some s → steps (on_channel p (JoinChannel (GetGUID me) (view me) pass)) w.
Proof. intros Hb Hs. apply (steps_op (OpJoin (GetGUID me) (view me) pass)). intros _. by exists s. Qed.

Lemma steps_handle me rq pkt w : of_home me → steps (handle wname me rq pkt) w.
Proof.
  intros Hme. destruct rq; cbn [handle].
  - apply steps_packet. intros [[channelId name] pass]. destruct (negb _); [by apply steps_still|].
    destruct (String.eqb name ""); [by apply steps_still|]. rewrite Hme.
    destruct (home (GetGUID me)) as [s|] eqn:Hs; [|by apply steps_still].
    apply steps_bind; [apply steps_same; try intros []; by destruct s|]. intros [] w1 t1 _ _ _.
    apply steps_bind; [apply steps_GetJoinChannel|]. intros p w2 t2 Hd Hw2 _.
    apply (steps_join me pass s); [by eapply GetJoinChannel_belongs|done].
  - apply steps_packet. intros name. destruct (String.eqb name ""); [by apply steps_still|]. rewrite Hme.
    destruct (home (GetGUID me)) as [s|] eqn:Hs; [|by apply steps_still].
    apply steps_bind; [apply steps_still; unfold GetChannel, mbind, act_bind, get; cbn; by destruct (_ !! _)|].
    intros channel w1 t1 _ _ _. apply steps_bind; [destruct channel; [apply steps_leave|by apply steps_still]|].
    intros [] w2 t2 _ _ _. apply steps_mgr_LeftChannel.
  - by apply (steps_channel me pkt (OpList _ _)).
  - apply steps_packet. intros [name pass]. apply steps_with_channel; [done|]. intros s p _ _. by apply (steps_op (OpPassword _ _ _)).
  - by apply (steps_target me pkt (OpSetOwner _ _)).
  - by apply (steps_channel me pkt (OpWhoOwner _)).
  - by apply (steps_target me pkt (λ t, OpSetMode _ _ t true true)).
  - by apply (steps_target me pkt (λ t, OpSetMode _ _ t true false)).
  - by apply (steps_target me pkt (λ t, OpSetMode _ _ t false true)).
  - by apply (steps_target me pkt (λ t, OpSetMode _ _ t false false)).
  - by apply (steps_target me pkt (OpInvite _ _)).
  - by apply (steps_target me pkt (λ t, OpKickOrBan _ _ t false)).
  - by apply (steps_target me pkt (λ t, OpKickOrBan _ _ t true)).
  - by apply (steps_target me pkt (OpUnBan _ _)).
  - by apply (steps_channel me pkt (OpAnnounce _ _)).
  - by apply (steps_channel me pkt (OpList _ _)).
  - apply steps_packet. intros name. apply steps_with_channel; [done|]. intros s p _ _. apply steps_deref. intros c _. by apply steps_still.
  - apply steps_packet. intros name. by apply steps_still.
Qed.

Lemma still_find_used i l w : rstate (find_used i l w) = w.
Proof.
  induction l as [|p l IH]; [done|]. cbn [find_used]. unfold mbind, act_bind. pose proof (still_channel_of p w) as Hd.
  destruct (deref_channel p w) as [c w1 t|]; [|done]. cbn in Hd. subst w1. destruct (_ =? i); [done|]. by destruct (find_used i l w).
Qed.
Lemma steps_choice me s newZone zone i channel used w :
  steps (UpdateLocalChannel_choice wname me s newZone zone i channel used) w.
Proof.
  unfold UpdateLocalChannel_choice. destruct (CanJoinConstantChannelInZone _ _ _); [|by apply steps_still].
  destruct (negb _); [destruct (_ && _); [by apply steps_still|]|]; (apply steps_bind; [apply steps_GetJoinChannel|]);
    intros p w1 t1 _ _ _; apply steps_still; [|done]. destruct used as [u|]; [by destruct (negb _)|done].
Qed.
Lemma choice_belongs me s newZone zone i channel used w p r b w' t :
  UpdateLocalChannel_choice wname me s newZone zone i channel used w = Done (Some p, r, b) w' t → sides_inv w' → belongs s p w'.
Proof.
  unfold UpdateLocalChannel_choice. destruct (CanJoinConstantChannelInZone _ _ _); [|done].
  destruct (negb _); [destruct (_ && _); [done|]|]; unfold mbind, act_bind;
    destruct (GetJoinChannel _ _ _ _ w) as [q w1 t1|] eqn:Eq; try done; [destruct used as [u|]; [destruct (negb _)|]|]; cbn;
    try done; intros [= <- <- <- <- <-] Hw'; by eapply GetJoinChannel_belongs.
Qed.
Lemma steps_entry me s newZone zone i w :
  home (GetGUID me) = Some s → steps (UpdateLocalChannels_entry wname me s newZone zone i) w.
Proof.
  intros Hs. unfold UpdateLocalChannels_entry. destruct (sChatChannelsStore i); [|by apply steps_still].
  apply steps_get, steps_bind; [apply steps_still, still_find_used|]. intros used w1 t1 _ _ _.
  apply steps_bind; [apply steps_choice|]. intros [[join remove] send] w2 t2 Hd Hw2 _.
  apply steps_bind.
  { destruct join as [p|]; [|by apply steps_still]. apply (steps_join me "" s); [by eapply choice_belongs|done]. }
  intros [] w3 t3 _ _ _. destruct remove as [p|]; [|by apply steps_still].
  apply steps_bind; [apply steps_leave|]. intros [] w4 t4 _ _ _. apply steps_deref. intros c _.
  apply steps_bind; [by apply steps_same; try intros []|]. intros [] w5 t5 _ _ _. apply steps_mgr_LeftChannel.
Qed.
Lemma steps_UpdateLocalChannels me loading teleporting newZone w :
  of_home me → steps (UpdateLocalChannels wname me loading teleporting newZone) w.
Proof.
  intros Hme. unfold UpdateLocalChannels. destruct (_ && _); [by apply steps_still|].
  destruct (GetAreaEntryByAreaID newZone); [|by apply steps_still]. rewrite Hme.
  destruct (home (GetGUID me)) as [s|] eqn:Hs; [|by apply steps_still].
  apply steps_forM. intros i w1. by apply steps_entry.
Qed.
Lemma steps_LeaveLFGChannel me w : steps (LeaveLFGChannel me) w.
Proof.
  unfold LeaveLFGChannel. apply steps_get. generalize (channels_of (GetGUID me) w). intros l.
  induction l as [|p l IH]; cbn [LeaveLFG_loop]; [by apply steps_still|]. apply steps_deref. intros c _.
  destruct (IsLFG c); [apply steps_leave|done].
Qed.
Lemma steps_CleanupChannels me w : steps (CleanupChannels wname me) w.
Proof.
  unfold CleanupChannels. apply steps_get. generalize (length (channels_of (GetGUID me) w)). intros n. revert w.
  induction n as [|n IH]; intros w; cbn [CleanupChannels_loop]; apply steps_get;
    destruct (channels_of (GetGUID me) w) as [|p rest]; try by apply steps_still.
  apply steps_bind; [by apply steps_same; try intros []|]. intros [] w1 t1 _ _ _.
  apply steps_bind; [apply steps_leave|]. intros [] w2 t2 _ _ _. apply steps_bind; [|intros [] w3 t3 _ _ _; apply IH].
  destruct (forTeam _) as [s|]; [|by apply steps_still]. apply steps_deref. intros c _. apply steps_mgr_LeftChannel.
Qed.
End Actions.

(** Everything that players can make the server do, self-kicks included. *)
Inductive any_run : chatact unit → Prop :=
  | any_request `{ChatEnv} me rq recvPacket : of_home me → any_run (handle wname me rq recvPacket)
  | any_zone `{ChatEnv} me loading teleporting newZone :
      of_home me → any_run (UpdateLocalChannels wname me loading teleporting newZone)
  | any_lfg `{ChatEnv} me : of_home me → any_run (LeaveLFGChannel me)
  | any_logout `{ChatEnv} me : of_home me → any_run (CleanupChannels wname me).
Inductive any_step : ChatWorld → ChatWorld → Prop :=
  | any_step_intro m w : any_run m → any_step w (rstate (m w)).

Lemma reachable_sides w : rtc any_step empty_world w → sides_inv w.
Proof.
  intros Hr. assert (sides_inv empty_world) as Hi.
  { split; [by intros p []|by intros [] k p|done|by intros [] s' k k' p]. }
  revert Hi. induction Hr as [w|w w1 w2 [m w0 Hm] _ IH]; [done|]. intros Hi. apply IH. destruct Hm.
  - by apply steps_handle.
  - by apply steps_UpdateLocalChannels.
  - by apply steps_LeaveLFGChannel.
  - by apply steps_CleanupChannels.
Qed.
End Sides.

(** ** All runs *)

Section Runs.
Context (wname : string → string) (home : Z → option side).

(** What a player can make the server do, each time with the players online and
    the configuration of the moment: a packet, a change of zone, leaving the
    group finder, logging out. *)
Inductive chat_run : chatact unit → Prop :=
  | run_request `{ChatEnv} me rq recvPacket :
      session_ok home me → bb_wf recvPacket → kicks_self me rq recvPacket = false →
      chat_run (handle wname me rq recvPacket)
  | run_zone `{ChatEnv} me loading teleporting newZone :
      session_ok home me → chat_run (UpdateLocalChannels wname me loading teleporting newZone)
  | run_lfg `{ChatEnv} me : session_ok home me → chat_run (LeaveLFGChannel me)
  | run_logout `{ChatEnv} me : session_ok home me → chat_run (CleanupChannels wname me).
Inductive chat_step : ChatWorld → ChatWorld → Prop :=
  | chat_step_intro m w : chat_run m → chat_step w (rstate (m w)).

Lemma served_wp m Q w : wp m (λ _ w' _, Q w') w → served m Q w.
Proof. unfold wp, served. by destruct (m w). Qed.

Lemma run_served m w : chat_run m → chat_inv wname home None w → served m (chat_inv wname home None) w.
Proof.
  intros [] Hi.
  - by apply handle_served.
  - by apply served_wp, wp_UpdateLocalChannels.
  - by apply served_wp, wp_LeaveLFGChannel.
  - apply served_wp. eapply wp_mono; [by apply (wp_CleanupChannels wname home)|].
    by intros u w' t (? & _).
Qed.

Lemma run_state m w :
  chat_run m → chat_inv wname home None w → chat_inv wname home None (rstate (m w)).
Proof.
  intros Hm Hi. pose proof (run_served m w Hm Hi) as Hs. unfold served in Hs.
  destruct (m w) as [|f w' t]; [done|]. by destruct Hs as [-> _].
Qed.

Lemma reachable_inv w : rtc chat_step empty_world w → chat_inv wname home None w.
Proof.
  intros Hr. assert (chat_inv wname home None empty_world) as Hi by apply inv_empty.
  revert Hi. induction Hr as [w|w w1 w2 [m w0 Hm] _ IH]; [done|]. intros Hi.
  by apply IH, run_state.
Qed.
End Runs.

(** ** A world for the witnesses *)

Definition names0 (s : string) : string := s.
#[export] Instance chat_env0 : ChatEnv := {|
  chat_channel_env := channel_env0;
  sChatChannelsStore_rows := 30;
  GetAreaEntryByAreaID := λ _, Some 0;
  CONFIG_CHANNEL_ON_CITY_ONLY_FLAG := true;
  CHAR_SEL_CHANNEL := λ _ _, None;
  local_channel_name := λ _ _ _, "LookingForGroup";
  normalizePlayerName := Some |}.
Definition home0 (g : Z) : option side := Some AllianceMgr.
Definition ann_session : Session := mkSession 10 ann 12 0 0.
Definition bob_session : Session := mkSession 20 bob 12 0 0.
Definition join_fields (channelId : Z) (name pass : string) : list field :=
  [U32 channelId; U8 0; U8 0; Str name; Str pass].
Definition received (fs : list field) : ByteBuffer :=
  mkByteBuffer 0 (Z.of_nat (length (packet_bytes fs))) (packet_bytes fs).
Definition join_trade : ByteBuffer := received (join_fields 0 "trade" "").
Definition trade_of (members : gmap Z PlayerInfo) : Channel :=
  mkChannel true true true CHANNEL_FLAG_CUSTOM 0 469 10 "trade" "" members ∅.
Definition joined_world : ChatWorld :=
  rstate (handle names0 bob_session CMSG_JOIN_CHANNEL join_trade
    (rstate (handle names0 ann_session CMSG_JOIN_CHANNEL join_trade empty_world))).

Lemma ann_session_ok : session_ok home0 ann_session.
Proof. split; [unfold player_guid; simpl; lia|done]. Qed.
Lemma bob_session_ok : session_ok home0 bob_session.
Proof. split; [unfold player_guid; simpl; lia|done]. Qed.
Lemma join_trade_wf : bb_wf join_trade.
Proof. split; [vm_compute; split; discriminate|reflexivity]. Qed.

Lemma joined_reachable : rtc (chat_step names0 home0) empty_world joined_world.
Proof.
  eapply rtc_l; [|apply rtc_once]; apply chat_step_intro; apply run_request;
    auto using ann_session_ok, bob_session_ok, join_trade_wf.
Qed.

(** ** Properties of the channel registry *)

(** C1: In every world that packets, zone changes and logouts lead to, from the
    empty one, the registries of the two factions, the channels in memory and
    the players' lists of channels agree: registered pointers are live and
    under the right name, every channel is registered once, its members are
    players its manager serves and have it on their lists, nobody else has, and
    each channel is well-formed.  In such a world whatever is done next runs to
    its end, or stops at a packet that is too short without having done
    anything: no dangling or NULL pointer is ever used.  One kind of packet is
    left out, here and before, because it breaks the agreement: a kick or ban of
    the player himself, after which he is in the channel and does not have it on
    his list ([self_kick] in Channel.v).  Players have guids below 2^32 and do
    not change team, and buffers are well-formed. *)
Theorem chat_worlds_sound wname home w :
  rtc (chat_step wname home) empty_world w →
  chat_inv wname home None w ∧
  ∀ m, chat_run wname home m → served m (chat_inv wname home None) w.
Proof.
  intros Hr. apply reachable_inv in Hr. split; [done|]. intros m Hm. by apply run_served.
Qed.

Lemma chat_worlds_sound_witness :
  chat_inv names0 home0 None joined_world ∧
  channels_of 10 joined_world = [1] ∧ channels_of 20 joined_world = [1] ∧
  served (CleanupChannels names0 ann_session) (chat_inv names0 home0 None) joined_world.
Proof.
  destruct (chat_worlds_sound names0 home0 joined_world joined_reachable) as [Hi Hs].
  split_and!; [exact Hi|vm_compute; reflexivity|vm_compute; reflexivity|].
  exact (Hs _ (run_logout names0 home0 ann_session ann_session_ok)).
Defined.

(** C13: A join packet, byte by byte, with a name and a channel number the player
    may join, takes the channel of that name of the player's manager, or makes
    it for the player's team, and the channel is then what [JoinChannel] makes
    of it; the other channels are as before. *)
Theorem join_by_packet wname home `{ChatEnv} me s channelId u1 u2 name pass recvPacket pre post w :
  session_ok home me → home (GetGUID me) = Some s → chat_inv wname home None w →
  Forall field_ok [U32 channelId; U8 u1; U8 u2; Str name; Str pass] →
  _storage recvPacket = pre ++ packet_bytes [U32 channelId; U8 u1; U8 u2; Str name; Str pass] ++ post →
  _rpos recvPacket = Z.of_nat (length pre) → bb_size recvPacket < 2 ^ 63 →
  join_allowed me channelId = true → name ≠ "" →
  wp (HandleJoinChannel wname me recvPacket) (λ _ w' _,
    chat_inv wname home None w' ∧
    ∃ p, channels (mgr s w') !! wname name = Some p ∧
      heap w' !! p = Some (effect (OpJoin (GetGUID me) (view me) pass)
        (channel_for wname s name channelId
          (update_mgr s (λ m, m <| mgr_team := GetTeam (view me) |>) w))) ∧
      ∀ q c, q ≠ p → heap w !! q = Some c → heap w' !! q = Some c) w.
Proof.
  intros Hme Hs Hi Hf Hst Hr Hsz Hj Hn. unfold HandleJoinChannel, with_packet.
  rewrite (read_join_reads channelId u1 u2 name pass Hf recvPacket pre post Hst Hr Hsz), Hj.
  apply String.eqb_neq in Hn. rewrite Hn, (proj2 Hme), Hs. by apply wp_join_named.
Qed.

Lemma join_by_packet_witness :
  wp (HandleJoinChannel names0 bob_session join_trade) (λ _ w' _,
    chat_inv names0 home0 None w' ∧ ∃ p, channels (alliance w') !! "trade" = Some p ∧
      ∃ c, heap w' !! p = Some c ∧ elements (dom (playersStore c)) = [10; 20])
    (rstate (handle names0 ann_session CMSG_JOIN_CHANNEL join_trade empty_world)).
Proof.
  eapply wp_mono; [apply (join_by_packet names0 home0 bob_session AllianceMgr 0 0 0 "trade" ""
    join_trade [] []); [apply bob_session_ok|reflexivity| | |reflexivity|reflexivity|reflexivity
    |reflexivity|discriminate]|].
  - apply (reachable_inv names0 home0), rtc_once, chat_step_intro, run_request;
      auto using ann_session_ok, join_trade_wf.
  - repeat constructor; try (vm_compute; discriminate); try reflexivity.
    + exact (bool_decide_unpack (0 ∉ string_bytes "trade") I).
    + exact (bool_decide_unpack (0 ∉ string_bytes "") I).
  - intros u w' t (Hi & p & Hk & Hp & _). split; [exact Hi|]. exists p. split; [exact Hk|].
    eexists. split; [exact Hp|]. vm_compute. reflexivity.
Defined.

(** C12: Without interaction between the factions in chat, two members of one
    channel are of the same team, whatever packets they and others sent,
    including those by which a player kicks himself, and whatever zones they
    entered or left: every run counts, those too that stop at a fault.  Guid 0
    is no player's: it is that of the phantom a self-kick leaves.  A player's
    team does not change. *)
Theorem factions_apart wname `{ChatEnv} (team_of : Z → Z) w p c g1 g2 :
  CONFIG_ALLOW_TWO_SIDE_INTERACTION_CHANNEL = false →
  rtc (any_step wname (λ g, forTeam (team_of g))) empty_world w →
  heap w !! p = Some c → g1 ≠ 0 → g2 ≠ 0 → IsOn g1 c = true → IsOn g2 c = true → team_of g1 = team_of g2.
Proof.
  intros Hcfg Hr%reachable_sides Hc N1 N2 [q1 H1]%IsOn_true [q2 H2]%IsOn_true.
  destruct (si_registered _ _ _ Hr _ _ Hc) as [s Hs].
  destruct (si_live _ _ _ Hr _ _ _ Hs) as (c' & Hc' & _ & Hm).
  assert (c' = c) as -> by congruence. destruct (Hm g1 q1 H1) as [[?|E1] _]; [done|].
  destruct (Hm g2 q2 H2) as [[?|E2] _]; [done|].
  unfold forTeam in E1, E2. rewrite Hcfg in E1, E2.
  destruct (Z.eqb_spec (team_of g1) ALLIANCE), (Z.eqb_spec (team_of g2) ALLIANCE),
    (Z.eqb_spec (team_of g1) HORDE), (Z.eqb_spec (team_of g2) HORDE); congruence.
Qed.

(** Ann and Bob of the Alliance and Gor of the Horde join a channel of one name,
    and Ann kicks herself: Gor is in no channel with Ann or Bob. *)
Definition gor_session : Session := mkSession 40 (player0 "Gor" 67 []) 12 0 0.
Definition split_world : ChatWorld :=
  rstate (handle names0 ann_session CMSG_CHANNEL_KICK (received [Str "trade"; Str "Ann"])
    (rstate (handle names0 gor_session CMSG_JOIN_CHANNEL join_trade joined_world))).
Definition team0 (g : Z) : Z := if g =? 40 then 67 else 469.

Lemma split_reachable : rtc (any_step names0 (λ g, forTeam (team0 g))) empty_world split_world.
Proof. do 4 (eapply rtc_r; [|by apply any_step_intro, any_request]). apply rtc_refl. Qed.

Lemma factions_apart_witness :
  map_Forall (λ _ c, IsOn 40 c = true → IsOn 10 c = false ∧ IsOn 20 c = false) (heap split_world) ∧
  map_iter ((λ c, elements (dom (playersStore c))) <$> heap split_world) = [(1, [10; 20]); (2, [40])].
Proof.
  split; [|vm_compute; reflexivity]. intros p c Hc H40.
  split; apply not_true_is_false; intros Hg.
  - discriminate (factions_apart names0 team0 split_world p c 40 10 eq_refl split_reachable Hc
      ltac:(discriminate) ltac:(discriminate) H40 Hg).
  - discriminate (factions_apart names0 team0 split_world p c 40 20 eq_refl split_reachable Hc
      ltac:(discriminate) ltac:(discriminate) H40 Hg).
Defined.

(** C14: Logging out takes a player out of every channel, in every world in which
    the registries, the channels and the players' lists agree, as they do after any
    requests but kicks of oneself (C1): [CleanupChannels] ends after one round for
    each channel of the list, his list is empty, he is a member of no channel in
    memory, the lists of the others are as they were, and the registry stays
    consistent. (A player who has kicked himself stays behind in that channel: it is
    not on his list.) As in C1, players have guids below 2^32 and keep their team. *)
Theorem cleanup_leaves_everything wname home `{ChatEnv} me w :
  session_ok home me → chat_inv wname home None w →
  wp (CleanupChannels wname me) (λ _ w' _, chat_inv wname home None w' ∧
    channels_of (GetGUID me) w' = [] ∧
    (∀ p c, heap w' !! p = Some c → IsOn (GetGUID me) c = false) ∧
    ∀ g, g ≠ GetGUID me → channels_of g w' = channels_of g w) w.
Proof.
  intros Hme Hi. eapply wp_mono; [by apply (wp_CleanupChannels wname home)|].
  intros u w' t (Hi' & He & Ho). split_and!; [done|done| |done]. intros p c Hc.
  destruct (IsOn (GetGUID me) c) eqn:E; [|done]. apply IsOn_true in E as [q Hq].
  apply elem_of_dom_2 in Hq. assert (p ∈ channels_of (GetGUID me) w') as Hp
    by (apply (ci_lists _ _ _ _ Hi'); eauto).
  rewrite He in Hp. set_solver.
Qed.

Lemma cleanup_leaves_everything_witness :
  wp (CleanupChannels names0 ann_session) (λ _ w' _,
    channels_of 10 w' = [] ∧ channels_of 20 w' = [1]) joined_world.
Proof.
  eapply wp_mono; [apply (cleanup_leaves_everything names0 home0 ann_session joined_world);
    [apply ann_session_ok|apply reachable_inv, joined_reachable]|].
  intros u w' t (_ & He & _ & Ho). split; [exact He|]. rewrite (Ho 20) by discriminate.
  vm_compute. reflexivity.
Defined.

(** When the last member leaves a channel that has no number, by a leave
    packet, the manager deletes it: the name is free again and the object is
    gone from memory and from his list. *)
Theorem last_leave_deletes wname home `{ChatEnv} me s name unk p c recvPacket pre post w :
  session_ok home me → home (GetGUID me) = Some s → chat_inv wname home None w →
  channels (mgr s w) !! wname name = Some p → heap w !! p = Some c →
  dom (playersStore c) = {[ GetGUID me ]} → IsConstant c = false →
  Forall field_ok [U32 unk; Str name] →
  _storage recvPacket = pre ++ packet_bytes [U32 unk; Str name] ++ post →
  _rpos recvPacket = Z.of_nat (length pre) → bb_size recvPacket < 2 ^ 63 → name ≠ "" →
  wp (HandleLeaveChannel wname me recvPacket) (λ _ w' _,
    channels (mgr s w') !! wname name = None ∧ heap w' = delete p (heap w) ∧
    p ∉ channels_of (GetGUID me) w') w.
Proof.
  intros Hme Hs Hi Hk Hc Hd Hcon Hf Hst Hr Hsz Hn. unfold HandleLeaveChannel, with_packet.
  rewrite (read_leave_reads unk name Hf recvPacket pre post Hst Hr Hsz).
  apply String.eqb_neq in Hn. rewrite Hn, (proj2 Hme), Hs. unfold GetChannel.
  apply wp_bind, wp_bind, wp_get. rewrite Hk. apply wp_ret.
  set (op := OpLeave (GetGUID me) (view me) true). apply wp_bind.
  eapply wp_mono; [apply (wp_op wname home (Some p) p c op s (wname name)); try done; apply Hme|].
  intros u w1 t [Hi1 Ha]. pose proof (after_op_mgr _ _ _ _ _ s Ha) as Hmgr.
  destruct Ha as (_ & _ & Hheap & _ & _ & Hl). destruct (Hl (GetGUID me)) as [Hp _].
  destruct (ci_good _ _ _ _ Hi _ _ Hc) as [_ [?|[Hw _]]]; [done|].
  assert (dom (playersStore (effect op c)) = ∅) as Hd1.
  { unfold op. rewrite leave_dom by (by apply wf_keys). set_solver. }
  unfold mgr_LeftChannel. apply wp_bind, wp_get. rewrite Hmgr, Hk.
  eapply deref_name; [rewrite Hheap; apply lookup_insert_eq|].
  rewrite effect_constant, Hcon.
  unfold GetNumPlayers. apply dom_empty_inv_L in Hd1. rewrite Hd1. simpl.
  apply wp_bind, wp_modify, wp_modify. rewrite Hd1, dom_empty_L in Hp. split_and!.
  - destruct s; apply lookup_delete_eq.
  - assert (heap w1 = <[p := effect op c]> (heap w)) as Hh by done.
    destruct s; cbn [heap setf update_mgr]; rewrite Hh; apply delete_insert_eq.
  - destruct s; set_solver.
Qed.

Lemma last_leave_deletes_witness :
  let alone := rstate (handle names0 ann_session CMSG_JOIN_CHANNEL join_trade empty_world) in
  wp (HandleLeaveChannel names0 ann_session (received [U32 0; Str "trade"])) (λ _ w' _,
    heap w' = ∅ ∧ channels (alliance w') !! "trade" = None) alone.
Proof.
  intros alone. eapply wp_mono; [apply (last_leave_deletes names0 home0 ann_session AllianceMgr
    "trade" 0 1 (trade_of {[ 10 := mkPlayerInfo 10 3 ]})
    (received [U32 0; Str "trade"]) [] [])|].
  - apply ann_session_ok.
  - reflexivity.
  - apply reachable_inv, rtc_once, chat_step_intro, run_request;
      auto using ann_session_ok, join_trade_wf.
  - reflexivity.
  - vm_compute. reflexivity.
  - vm_compute. reflexivity.
  - reflexivity.
  - repeat constructor; try (vm_compute; discriminate); try reflexivity.
    exact (bool_decide_unpack (0 ∉ string_bytes "trade") I).
  - reflexivity.
  - reflexivity.
  - reflexivity.
  - discriminate.
  - intros u w' t (Hk & Hh & _). split; [|exact Hk]. rewrite Hh. vm_compute. reflexivity.
Defined.
