(* ===== verification/Social.v ===== *)
(** Friends and ignore lists: src/server/game/Entities/Player/SocialMgr.cpp and
    the handlers of MiscHandler.cpp that change them, with the rows of
    [character_social] that the statements write and that the next login loads. *)

From S2P Require Import Prelude ByteBuffer Rbac Channel.
Open Scope string_scope.
Open Scope list_scope.
Open Scope Z_scope.

(** ** Constants *)

Definition FRIEND_STATUS_OFFLINE : Z := 0x00.
Definition FRIEND_STATUS_ONLINE : Z := 0x01.
Definition FRIEND_STATUS_AFK : Z := 0x02.
Definition FRIEND_STATUS_DND : Z := 0x04.
Definition SOCIAL_FLAG_FRIEND : Z := 0x01.
Definition SOCIAL_FLAG_IGNORED : Z := 0x02.
Definition FRIEND_LIST_FULL : Z := 0x01.
Definition FRIEND_ONLINE : Z := 0x02.
Definition FRIEND_NOT_FOUND : Z := 0x04.
Definition FRIEND_REMOVED : Z := 0x05.
Definition FRIEND_ADDED_ONLINE : Z := 0x06.
Definition FRIEND_ADDED_OFFLINE : Z := 0x07.
Definition FRIEND_ALREADY : Z := 0x08.
Definition FRIEND_SELF : Z := 0x09.
Definition FRIEND_ENEMY : Z := 0x0A.
Definition FRIEND_IGNORE_FULL : Z := 0x0B.
Definition FRIEND_IGNORE_SELF : Z := 0x0C.
Definition FRIEND_IGNORE_NOT_FOUND : Z := 0x0D.
Definition FRIEND_IGNORE_ALREADY : Z := 0x0E.
Definition FRIEND_IGNORE_ADDED : Z := 0x0F.
Definition FRIEND_IGNORE_REMOVED : Z := 0x10.
Definition SOCIALMGR_FRIEND_LIMIT : Z := 50.
Definition SOCIALMGR_IGNORE_LIMIT : Z := 50.
Definition SMSG_CONTACT_LIST : Z := 0x067.
Definition SMSG_FRIEND_STATUS : Z := 0x068.
Definition RBAC_PERM_TWO_SIDE_WHO_LIST : Z := 28.
Definition RBAC_PERM_TWO_SIDE_ADD_FRIEND : Z := 29.
Definition RBAC_PERM_ALLOW_GM_FRIEND : Z := 40.

(** The highest of these parts are zero in a player's guid. *)
Definition HIGHGUID_PLAYER : Z := 0.
Definition MAKE_NEW_GUID (l e h : Z) : Z :=
  u64 (Z.lor (Z.lor l (Z.shiftl e 24)) (Z.shiftl h 48)).

(** ** Data *)

Record FriendInfo := mkFriendInfo {
  Status : Z; Flags : Z; Area : Z; Level : Z; Class_ : Z; Note : string }.
#[export] Instance eta_FriendInfo : Eta FriendInfo :=
  λ r, mkFriendInfo (Status r) (Flags r) (Area r) (Level r) (Class_ r) (Note r).
Definition new_FriendInfo (flags : Z) (note : string) : FriendInfo :=
  mkFriendInfo FRIEND_STATUS_OFFLINE flags 0 0 0 note.

Record PlayerSocial := mkPlayerSocial { m_playerSocialMap : gmap Z FriendInfo; m_playerGUID : Z }.
#[export] Instance eta_PlayerSocial : Eta PlayerSocial :=
  λ r, mkPlayerSocial (m_playerSocialMap r) (m_playerGUID r).

(** [m_socialMap]: the lists of the players that have logged in. *)
Notation SocialMgr := (gmap Z PlayerSocial).

Inductive social_event :=
  | CHAR_UPD_ADD_CHARACTER_SOCIAL_FLAGS (flags guid friend : Z)
  | CHAR_UPD_REM_CHARACTER_SOCIAL_FLAGS (flags guid friend : Z)
  | CHAR_INS_CHARACTER_SOCIAL (guid friend flags : Z)
  | CHAR_DEL_CHARACTER_SOCIAL (guid friend : Z)
  | CHAR_UPD_CHARACTER_SOCIAL_NOTE (note : string) (guid friend : Z)
  | SendTo (guid : Z) (p : WorldPacket).
Notation socialact := (act PlayerSocial social_event).
Notation mgract := (act SocialMgr social_event).

(** A player: what the channels see of him, and the state that friends see. *)
Record SocialView := mkSocialView {
  pview : PlayerView; IsInWorld : bool; isDND : bool; isAFK : bool;
  zone_id : Z; getLevel : Z; getClass : Z }.

(** The table [character_social]: the notes of each guid, by friend and flags,
    which are the rest of the primary key. *)
Notation social_rows := (gmap (Z * Z) string).
Notation social_table := (gmap Z social_rows).
Definition table_rows (guid : Z) (db : social_table) : social_rows := default ∅ (db !! guid).
Definition update_rows (guid : Z) (f : social_rows → social_rows) (db : social_table) : social_table :=
  <[guid := f (table_rows guid db)]> db.
(** An update of the flags moves every row of the friend to another key; if two
    of them would get the same, the statement fails. *)
Definition set_flags (friend : Z) (g : Z → Z) (r : social_rows) : social_rows :=
  let changed := (λ kv : Z * Z * string, ((kv.1.1, g kv.1.2), kv.2)) <$>
                   map_to_list (filter (λ kv : Z * Z * string, kv.1.1 = friend) r) in
  if decide (NoDup changed.*1)
  then list_to_map changed ∪ filter (λ kv : Z * Z * string, kv.1.1 ≠ friend) r else r.
Definition exec_social (e : social_event) (db : social_table) : social_table :=
  match e with
  | CHAR_UPD_ADD_CHARACTER_SOCIAL_FLAGS flags guid friend =>
      update_rows guid (set_flags friend (λ f, Z.lor f flags)) db
  | CHAR_UPD_REM_CHARACTER_SOCIAL_FLAGS flags guid friend =>
      update_rows guid (set_flags friend (λ f, Z.ldiff f flags)) db
  | CHAR_INS_CHARACTER_SOCIAL guid friend flags =>
      match table_rows guid db !! (friend, flags) with
      | Some _ => db                                   (* duplicate key: the statement fails *)
      | None => update_rows guid <[(friend, flags) := ""]> db
      end
  | CHAR_DEL_CHARACTER_SOCIAL guid friend =>
      update_rows guid (filter (λ kv : Z * Z * string, kv.1.1 ≠ friend)) db
  | CHAR_UPD_CHARACTER_SOCIAL_NOTE note guid friend =>
      update_rows guid (map_imap (λ k n, Some (if k.1 =? friend then note else n))) db
  | SendTo _ _ => db
  end.
Definition exec_all (t : list social_event) (db : social_table) : social_table :=
  foldl (λ d e, exec_social e d) db t.

(** The players online; the functions of the UTF-8 library, which throw on
    invalid text; and the rows of the characters' and accounts' tables the
    handlers ask for.  [live_character] are the guids of characters that exist
    and are not deleted ([deleteinfos_name IS NULL]). *)
Class SocialEnv := {
  social_channel_env :: ChannelEnv;
  FindSocialPlayer : Z → option SocialView;
  utf8_distance : string → option Z;
  utf8to16 : string → option (list Z);
  utf16to8 : list Z → option string;
  TeamForRace : Z → Z;
  account_security : Z → Z;
  live_character : Z → bool }.

Section SocialOps.
Context `{SocialEnv}.

(** ** PlayerSocial *)

Definition GetNumberOfSocialsWithFlag (flag : Z) (s : PlayerSocial) : Z :=
  foldl (λ counter kf, if has_flag (Flags kf.2) flag then u32 (counter + 1) else counter) 0
    (map_iter (m_playerSocialMap s)).

Definition AddToSocialList (friendGuid : Z) (ignore : bool) : socialact bool :=
  s ← get;
  if (if ignore then SOCIALMGR_IGNORE_LIMIT <=? GetNumberOfSocialsWithFlag SOCIAL_FLAG_IGNORED s
      else SOCIALMGR_FRIEND_LIMIT <=? GetNumberOfSocialsWithFlag SOCIAL_FLAG_FRIEND s)
  then mret false
  else
    let flag := if ignore then SOCIAL_FLAG_IGNORED else SOCIAL_FLAG_FRIEND in
    match m_playerSocialMap s !! friendGuid with
    | Some fi =>
        emit (CHAR_UPD_ADD_CHARACTER_SOCIAL_FLAGS flag (m_playerGUID s) friendGuid) ;;
        modify (λ s, s <| m_playerSocialMap ::= <[friendGuid := fi <| Flags ::= λ f, Z.lor f flag |>]> |>) ;;
        mret true
    | None =>
        emit (CHAR_INS_CHARACTER_SOCIAL (m_playerGUID s) friendGuid flag) ;;
        let fi := (new_FriendInfo 0 "") <| Flags ::= λ f, Z.lor f flag |> in
        modify (λ s, s <| m_playerSocialMap ::= <[friendGuid := fi]> |>) ;;
        mret true
    end.

Definition RemoveFromSocialList (friendGuid : Z) (ignore : bool) : socialact unit :=
  s ← get;
  match m_playerSocialMap s !! friendGuid with
  | None => mret tt
  | Some fi =>
      let flag := if ignore then SOCIAL_FLAG_IGNORED else SOCIAL_FLAG_FRIEND in
      let fi := fi <| Flags ::= λ f, Z.ldiff f flag |> in
      modify (λ s, s <| m_playerSocialMap ::= <[friendGuid := fi]> |>) ;;
      if Flags fi =? 0 then
        emit (CHAR_DEL_CHARACTER_SOCIAL (m_playerGUID s) friendGuid) ;;
        modify (λ s, s <| m_playerSocialMap ::= delete friendGuid |>)
      else emit (CHAR_UPD_REM_CHARACTER_SOCIAL_FLAGS flag (m_playerGUID s) friendGuid)
  end.

(** [utf8truncate(note, len)]: an exception empties the text. *)
Definition utf8truncate (utf8str : string) (len : Z) : string :=
  match utf8_distance utf8str with
  | None => ""
  | Some wlen =>
      if wlen <=? len then utf8str else
      match utf8to16 utf8str with
      | None => ""
      | Some wstr => default "" (utf16to8 (take (Z.to_nat len) wstr))
      end
  end.

Definition SetFriendNote (friendGuid : Z) (note : string) : socialact unit :=
  s ← get;
  match m_playerSocialMap s !! friendGuid with
  | None => mret tt
  | Some fi =>
      let note := utf8truncate note 48 in
      emit (CHAR_UPD_CHARACTER_SOCIAL_NOTE note (m_playerGUID s) friendGuid) ;;
      modify (λ s, s <| m_playerSocialMap ::= <[friendGuid := fi <| Note := note |>]> |>)
  end.

Definition HasFriend (friendGuid : Z) (s : PlayerSocial) : bool :=
  match m_playerSocialMap s !! friendGuid with
  | Some fi => has_flag (Flags fi) SOCIAL_FLAG_FRIEND | None => false end.
Definition HasIgnore (ignore_guid : Z) (s : PlayerSocial) : bool :=
  match m_playerSocialMap s !! ignore_guid with
  | Some fi => has_flag (Flags fi) SOCIAL_FLAG_IGNORED | None => false end.

(** ** SocialMgr *)

(** [GetFriendInfo] for the player with this list: what he may know of the
    friend, who is seen or not. *)
Definition sees_in_list (me : SocialView) (target : SocialView) : bool :=
  if negb (HasPermission (pview me) RBAC_PERM_WHO_SEE_ALL_SEC_LEVELS)
     && (CONFIG_GM_LEVEL_IN_WHO_LIST <? GetSecurity (pview target)) then false
  else if negb (GetTeam (pview target) =? GetTeam (pview me))
          && negb (HasPermission (pview me) RBAC_PERM_TWO_SIDE_WHO_LIST) then false
  else true.
Definition GetFriendInfo (guid : Z) (me : SocialView) (mine : PlayerSocial) (friendGUID : Z)
    (friendInfo : FriendInfo) : FriendInfo :=
  let friendInfo := friendInfo <| Status := FRIEND_STATUS_OFFLINE |> <| Area := 0 |>
                      <| Level := 0 |> <| Class_ := 0 |> in
  match FindSocialPlayer friendGUID with
  | None => friendInfo
  | Some target =>
      let friendInfo := match m_playerSocialMap mine !! friendGUID with
                        | Some fi => friendInfo <| Note := Note fi |> | None => friendInfo end in
      if negb (sees_in_list me target) then friendInfo
      else if IsVisibleGloballyFor (pview target) guid then
        friendInfo <| Status := if isDND target then FRIEND_STATUS_DND
                                else if isAFK target then FRIEND_STATUS_AFK
                                else FRIEND_STATUS_ONLINE |>
          <| Area := zone_id target |> <| Level := getLevel target |> <| Class_ := getClass target |>
      else friendInfo
  end.

(** One entry of the contact list, which keeps what it learns. *)
Fixpoint SendSocialList_loop (guid : Z) (me : SocialView) (l : list (Z * FriendInfo))
    (data : WorldPacket) : socialact WorldPacket :=
  match l with
  | [] => mret data
  | (friend, fi) :: l' =>
      s ← get;
      let fi := GetFriendInfo guid me s friend fi in
      modify (λ s, s <| m_playerSocialMap ::= <[friend := fi]> |>) ;;
      let data := data <+ U64 friend <+ U32 (Flags fi) <+ Str (Note fi) in
      let data :=
        if has_flag (Flags fi) SOCIAL_FLAG_FRIEND then
          let data := data <+ U8 (Status fi) in
          if negb (Status fi =? 0)
          then data <+ U32 (Area fi) <+ U32 (Level fi) <+ U32 (Class_ fi) else data
        else data in
      SendSocialList_loop guid me l' data
  end.
Definition SendSocialList (guid : Z) (me : SocialView) : socialact unit :=
  s ← get;
  let size := u32 (Z.of_nat (base.size (m_playerSocialMap s))) in
  let data := Initialize SMSG_CONTACT_LIST <+ U32 7 <+ U32 size in
  data ← SendSocialList_loop guid me (map_iter (m_playerSocialMap s)) data;
  emit (SendTo guid data).

Definition MakeFriendStatusPacket (result guid : Z) : WorldPacket :=
  Initialize SMSG_FRIEND_STATUS <+ U8 result <+ U64 guid.

(** The players who hear of a friend's status. *)
Definition hears_of (guid : Z) (me : SocialView) (gs : Z * PlayerSocial) : bool :=
  HasFriend (u32 guid) gs.2 &&
  match FindSocialPlayer gs.1 with
  | None => false
  | Some target =>
      if negb (IsInWorld target) then false
      else if negb (HasPermission (pview target) RBAC_PERM_WHO_SEE_ALL_SEC_LEVELS)
              && (CONFIG_GM_LEVEL_IN_WHO_LIST <? GetSecurity (pview me)) then false
      else if negb (GetTeam (pview target) =? GetTeam (pview me))
              && negb (HasPermission (pview target) RBAC_PERM_TWO_SIDE_WHO_LIST) then false
      else IsVisibleGloballyFor (pview me) gs.1
  end.
Definition BroadcastToFriendListers (guid : Z) (me : SocialView) (packet : WorldPacket) : mgract unit :=
  m ← get;
  forM_ (map_iter m) (λ gs, when (hears_of guid me gs) (emit (SendTo gs.1 packet))).

Definition SendFriendStatus (guid : Z) (me : SocialView) (result friendGuid : Z) (broadcast : bool) :
    mgract unit :=
  m ← get;
  mine ← require (m !! guid);
  let fi := GetFriendInfo guid me mine friendGuid (new_FriendInfo 0 "") in
  let data := MakeFriendStatusPacket result friendGuid in
  let data := if (result =? FRIEND_ADDED_OFFLINE) || (result =? FRIEND_ADDED_ONLINE)
              then data <+ Str (Note fi) else data in
  let data := if (result =? FRIEND_ADDED_ONLINE) || (result =? FRIEND_ONLINE)
              then data <+ U8 (Status fi) <+ U32 (Area fi) <+ U32 (Level fi) <+ U32 (Class_ fi)
              else data in
  if broadcast then BroadcastToFriendListers guid me data
  else emit (SendTo guid data).

(** [RemovePlayerSocial], when the player logs out. *)
Definition RemovePlayerSocial (guid : Z) : mgract unit := modify (delete guid).

(** The rows of the login query, up to the client's limits. *)
Fixpoint LoadFromDB_rows (rows : list (Z * Z * string)) (social : PlayerSocial) : PlayerSocial :=
  match rows with
  | [] => social
  | (friendGuid, flags, note) :: rows' =>
      let social := social <| m_playerSocialMap ::= <[friendGuid := new_FriendInfo flags note]> |> in
      if SOCIALMGR_FRIEND_LIMIT + SOCIALMGR_IGNORE_LIMIT
         <=? Z.of_nat (base.size (m_playerSocialMap social)) then social
      else LoadFromDB_rows rows' social
  end.
Definition LoadFromDB (result : list (Z * Z * string)) (guid : Z) : mgract unit :=
  modify (λ m, let social := (default (mkPlayerSocial ∅ 0) (m !! guid)) <| m_playerGUID := guid |> in
               <[guid := LoadFromDB_rows result social]> m).

(** ** Handlers *)

(** A method of the player's own list, [GetPlayer()->GetSocial()]. *)
Definition on_social {A} (guid : Z) (m : socialact A) : mgract A := λ st,
  match st !! guid with
  | None => Fault NullDeref st []
  | Some s =>
      match m s with
      | Done a s' t => Done a (<[guid := s']> st) t
      | Fault f s' t => Fault f (<[guid := s']> st) t
      end
  end.

Definition GUID_LOPART (guid : Z) : Z := u32 guid.

Definition HandleContactList (guid : Z) (me : SocialView) : mgract unit :=
  on_social guid (SendSocialList guid me).

(** [row]: guid, race and account of the character with the name asked for. *)
Definition HandleAddFriendOpcodeCallBack (guid : Z) (me : SocialView) (row : option (Z * Z * Z))
    (friendNote : string) : mgract unit :=
  r ← match row with
      | Some (friendGuid, race, friendAccountId) =>
          if HasPermission (pview me) RBAC_PERM_ALLOW_GM_FRIEND
             || (account_security friendAccountId =? SEC_PLAYER) then
            if negb (friendGuid =? 0) then
              friendResult ←
                (if friendGuid =? guid then mret FRIEND_SELF
                 else if negb (GetTeam (pview me) =? TeamForRace race)
                         && negb (HasPermission (pview me) RBAC_PERM_TWO_SIDE_ADD_FRIEND)
                 then mret FRIEND_ENEMY
                 else
                   already ← on_social guid (gets (HasFriend (GUID_LOPART friendGuid)));
                   if (already : bool) then mret FRIEND_ALREADY
                   else
                     let friendResult :=
                       match FindSocialPlayer friendGuid with
                       | Some pFriend => if IsInWorld pFriend && IsVisibleGloballyFor (pview pFriend) guid
                                         then FRIEND_ADDED_ONLINE else FRIEND_ADDED_OFFLINE
                       | None => FRIEND_ADDED_OFFLINE
                       end in
                     added ← on_social guid (AddToSocialList (GUID_LOPART friendGuid) false);
                     mret (if (added : bool) then friendResult else FRIEND_LIST_FULL));
              on_social guid (SetFriendNote (GUID_LOPART friendGuid) friendNote) ;;
              mret (friendResult, friendGuid)
            else mret (FRIEND_NOT_FOUND, friendGuid)
          else mret (FRIEND_NOT_FOUND, friendGuid)
      | None => mret (FRIEND_NOT_FOUND, 0)
      end;
  SendFriendStatus guid me r.1 (GUID_LOPART r.2) false.

Definition HandleDelFriend (guid : Z) (me : SocialView) (friendGUID : Z) : mgract unit :=
  on_social guid (RemoveFromSocialList (GUID_LOPART friendGUID) false) ;;
  SendFriendStatus guid me FRIEND_REMOVED (GUID_LOPART friendGUID) false.

Definition HandleAddIgnoreOpcodeCallBack (guid : Z) (me : SocialView) (row : option Z) : mgract unit :=
  r ← match row with
      | Some ignoreGuid =>
          if negb (ignoreGuid =? 0) then
            if ignoreGuid =? guid then mret (FRIEND_IGNORE_SELF, ignoreGuid)
            else
              already ← on_social guid (gets (HasIgnore (GUID_LOPART ignoreGuid)));
              if (already : bool) then mret (FRIEND_IGNORE_ALREADY, ignoreGuid)
              else
                added ← on_social guid (AddToSocialList (GUID_LOPART ignoreGuid) true);
                mret (if (added : bool) then FRIEND_IGNORE_ADDED else FRIEND_IGNORE_FULL, ignoreGuid)
          else mret (FRIEND_IGNORE_NOT_FOUND, ignoreGuid)
      | None => mret (FRIEND_IGNORE_NOT_FOUND, 0)
      end;
  SendFriendStatus guid me r.1 (GUID_LOPART r.2) false.

Definition HandleDelIgnore (guid : Z) (me : SocialView) (ignoreGUID : Z) : mgract unit :=
  on_social guid (RemoveFromSocialList (GUID_LOPART ignoreGUID) true) ;;
  SendFriendStatus guid me FRIEND_IGNORE_REMOVED (GUID_LOPART ignoreGUID) false.

Definition HandleSetContactNotes (guid friendGUID : Z) (note : string) : mgract unit :=
  on_social guid (SetFriendNote (GUID_LOPART friendGUID) note).
End SocialOps.

(** A list as rows: flags and note by friend. *)
Notation social_list := (gmap Z (Z * string)).

(** ** Lists within the limits *)

Definition num_with (flag : Z) (r : social_list) : nat :=
  length (filter (λ kv : Z * (Z * string), has_flag kv.2.1 flag = true) (map_to_list r)).
(** Every entry is a friend or ignored, or both, and the client's limits hold. *)
Record list_ok (r : social_list) : Prop := {
  lo_flags : map_Forall (λ _ v, 1 <= v.1 <= 3) r;
  lo_friends : Z.of_nat (num_with SOCIAL_FLAG_FRIEND r) <= SOCIALMGR_FRIEND_LIMIT;
  lo_ignored : Z.of_nat (num_with SOCIAL_FLAG_IGNORED r) <= SOCIALMGR_IGNORE_LIMIT }.
(** What is saved of a list in memory. *)
Definition saved (m : gmap Z FriendInfo) : social_list := (λ fi, (Flags fi, Note fi)) <$> m.

Section Lists.
Implicit Types r : social_list.

Lemma num_insert flag k v r :
  num_with flag (<[k := v]> r) = (num_with flag (delete k r) + if has_flag v.1 flag then 1 else 0)%nat.
Proof.
  unfold num_with. rewrite <- insert_delete_eq.
  rewrite (map_to_list_insert (delete k r)) by apply lookup_delete_eq.
  rewrite filter_cons. simpl. destruct (has_flag v.1 flag); simpl; lia.
Qed.
Lemma num_lookup flag k v r :
  r !! k = Some v →
  num_with flag r = (num_with flag (delete k r) + if has_flag v.1 flag then 1 else 0)%nat.
Proof. intros Hk. rewrite <- num_insert. by rewrite insert_id. Qed.

Lemma GetNumber_num flag s :
  Z.of_nat (num_with flag (saved (m_playerSocialMap s))) < 2 ^ 32 →
  GetNumberOfSocialsWithFlag flag s = Z.of_nat (num_with flag (saved (m_playerSocialMap s))).
Proof.
  set (n := num_with flag (saved (m_playerSocialMap s))).
  assert (n = length (filter (λ kf : Z * FriendInfo, has_flag (Flags kf.2) flag = true)
    (map_iter (m_playerSocialMap s)))) as Hn.
  { subst n. unfold num_with, saved, map_iter.
    rewrite merge_sort_Permutation, map_to_list_fmap, length_filter_fmap. done. }
  rewrite Hn. clear n Hn. unfold GetNumberOfSocialsWithFlag.
  set (l := map_iter (m_playerSocialMap s)). clearbody l.
  cut (∀ acc, 0 <= acc → acc + Z.of_nat (length (filter
    (λ kf : Z * FriendInfo, has_flag (Flags kf.2) flag = true) l)) < 2 ^ 32 →
    foldl (λ counter kf, if has_flag (Flags kf.2) flag then u32 (counter + 1) else counter) acc l =
    acc + Z.of_nat (length (filter (λ kf : Z * FriendInfo, has_flag (Flags kf.2) flag = true) l))).
  { intros Hc Hl. rewrite Hc by lia. lia. }
  induction l as [|kf l IH]; intros acc Ha Hl; cbn [foldl]; [simpl; lia|].
  rewrite filter_cons in *. destruct (has_flag (Flags kf.2) flag); simpl in *.
  - rewrite wrapu_id, IH by lia. lia.
  - rewrite IH by lia. lia.
Qed.

(** The limits leave at most a hundred entries. *)
Lemma list_ok_size r : list_ok r → (size r <= 100)%nat.
Proof.
  intros [Hf H1 H2].
  cut (size r <= num_with SOCIAL_FLAG_FRIEND r + num_with SOCIAL_FLAG_IGNORED r)%nat.
  { unfold SOCIALMGR_FRIEND_LIMIT, SOCIALMGR_IGNORE_LIMIT in *. lia. }
  clear H1 H2. revert Hf. induction r as [|k v r Hk IH] using map_ind; intros Hf; [done|].
  apply map_Forall_insert in Hf as [Hv Hr]; [|done]. specialize (IH Hr).
  rewrite map_size_insert_None by done. rewrite !num_insert, delete_id by done.
  assert (v.1 = 1 ∨ v.1 = 2 ∨ v.1 = 3) as [E|[E|E]] by lia; rewrite E; simpl; lia.
Qed.

Lemma flag_values f : 1 <= f <= 3 →
  has_flag f SOCIAL_FLAG_FRIEND = negb (f =? 2) ∧ has_flag f SOCIAL_FLAG_IGNORED = negb (f =? 1).
Proof. intros Hf. assert (f = 1 ∨ f = 2 ∨ f = 3) as [->|[->| ->]] by lia; done. Qed.

Lemma num_delete_le flag k r : (num_with flag (delete k r) <= num_with flag r)%nat.
Proof.
  destruct (r !! k) as [v|] eqn:Hk; [rewrite (num_lookup flag k v r Hk); lia|].
  by rewrite delete_id.
Qed.
Lemma list_ok_delete k r : list_ok r → list_ok (delete k r).
Proof.
  intros [Hf H1 H2]. pose proof (num_delete_le SOCIAL_FLAG_FRIEND k r).
  pose proof (num_delete_le SOCIAL_FLAG_IGNORED k r). split; [by apply map_Forall_delete|lia|lia].
Qed.

(** A new entry for [k] is within the limits if each of its flags was set before
    or had room. *)
Lemma list_ok_insert k v r :
  list_ok r → 1 <= v.1 <= 3 →
  (∀ flag limit, (flag, limit) ∈ [(SOCIAL_FLAG_FRIEND, SOCIALMGR_FRIEND_LIMIT);
                                  (SOCIAL_FLAG_IGNORED, SOCIALMGR_IGNORE_LIMIT)] →
     has_flag v.1 flag = true →
     (∃ v0, r !! k = Some v0 ∧ has_flag v0.1 flag = true) ∨ Z.of_nat (num_with flag r) < limit) →
  list_ok (<[k := v]> r).
Proof.
  intros [Hf H1 H2] Hv Hroom.
  assert (∀ flag limit, (flag, limit) ∈ [(SOCIAL_FLAG_FRIEND, SOCIALMGR_FRIEND_LIMIT);
      (SOCIAL_FLAG_IGNORED, SOCIALMGR_IGNORE_LIMIT)] → Z.of_nat (num_with flag r) <= limit →
    Z.of_nat (num_with flag (<[k := v]> r)) <= limit) as Hn.
  { intros flag limit Hin Hl. rewrite num_insert. specialize (Hroom flag limit Hin).
    pose proof (num_delete_le flag k r). destruct (has_flag v.1 flag); [|lia].
    destruct (Hroom eq_refl) as [(v0 & Hk & Ho)|?]; [|lia].
    rewrite (num_lookup flag k v0 r Hk), Ho in Hl. lia. }
  split; [by apply map_Forall_insert_2|apply Hn; set_solver|apply Hn; set_solver].
Qed.
End Lists.

(** ** The statements keep the table in step *)

(** *** What a table lists

    The rows the login query asks for: those of live characters. *)

Section Listing.
Context `{SocialEnv}.

Definition live_rows (r : social_rows) : list (Z * Z * string) :=
  filter (λ kv, live_character kv.1.1 = true) (map_to_list r).
Definition listed (r : social_rows) : social_list :=
  list_to_map ((λ kv : Z * Z * string, (kv.1.1, (kv.1.2, kv.2))) <$> live_rows r).
(** A friend has one row, although the key of the table allows for more. *)
Definition one_row (r : social_rows) : Prop :=
  ∀ f a b, is_Some (r !! (f, a)) → is_Some (r !! (f, b)) → a = b.
Definition rows_of (guid : Z) (db : social_table) : social_list := listed (table_rows guid db).

Lemma elem_of_live_rows f fl n r :
  (f, fl, n) ∈ live_rows r ↔ r !! (f, fl) = Some n ∧ live_character f = true.
Proof. unfold live_rows. rewrite list_elem_of_filter, elem_of_map_to_list. simpl. tauto. Qed.

Lemma live_rows_nodup r : one_row r → NoDup ((λ kv : Z * Z * string, kv.1.1) <$> live_rows r).
Proof.
  intros Hr. apply NoDup_fmap_2_strong.
  - intros [[f a] n] [[f' b] n'] H1%elem_of_live_rows H2%elem_of_live_rows. simpl. intros <-.
    destruct H1 as [H1 _], H2 as [H2 _]. assert (a = b) as <- by (eapply Hr; by eexists). congruence.
  - apply NoDup_filter, NoDup_map_to_list.
Qed.

Lemma listed_lookup r f fl n :
  one_row r → listed r !! f = Some (fl, n) ↔ r !! (f, fl) = Some n ∧ live_character f = true.
Proof.
  intros Hr. unfold listed. rewrite <- elem_of_list_to_map, list_elem_of_fmap, <- elem_of_live_rows.
  - split; [intros ([[f' a] n'] & [= -> -> ->] & Hin); done|intros Hin; by exists (f, fl, n)].
  - rewrite <- list_fmap_compose. by apply live_rows_nodup.
Qed.

Lemma listed_eq r (R : social_list) :
  one_row r → (∀ f fl n, R !! f = Some (fl, n) ↔ r !! (f, fl) = Some n ∧ live_character f = true) →
  listed r = R.
Proof.
  intros Hr HR. apply map_eq. intros f. apply option_eq. intros [fl n]. by rewrite listed_lookup, HR.
Qed.

Lemma listed_insert r f fl :
  one_row r → listed r !! f = None → live_character f = true →
  r !! (f, fl) = None ∧ one_row (<[(f, fl) := ""]> r) ∧
  listed (<[(f, fl) := ""]> r) = <[f := (fl, "")]> (listed r).
Proof.
  intros Hr Hn Hf.
  assert (∀ a, r !! (f, a) = None) as Hno.
  { intros a. destruct (r !! (f, a)) as [n|] eqn:E; [|done].
    assert (listed r !! f = Some (a, n)) by (by apply listed_lookup). congruence. }
  assert (one_row (<[(f, fl) := ""]> r)) as Hr'.
  { intros f' a b [n1 H1] [n2 H2].
    apply lookup_insert_Some in H1 as [[E1 _]|[Hne1 H1]], H2 as [[E2 _]|[Hne2 H2]].
    - congruence.
    - injection E1 as <- <-. by rewrite Hno in H2.
    - injection E2 as <- <-. by rewrite Hno in H1.
    - eapply Hr; by eexists. }
  split; [done|]. split; [done|]. apply listed_eq; [done|]. intros f' fl' n'.
  rewrite !lookup_insert_Some, listed_lookup by done. split.
  - intros [[<- [= <- <-]]|(Hne & Hk & Hl)]; [auto|]. split; [|done]. right. split; [congruence|done].
  - intros [[[[= <- <-] <-]|[_ Hk]] Hl]; [auto|]. right. split; [|done]. intros <-. by rewrite Hno in Hk.
Qed.

Lemma listed_delete r f :
  one_row r → let r' := filter (λ kv : Z * Z * string, kv.1.1 ≠ f) r in
  one_row r' ∧ listed r' = delete f (listed r).
Proof.
  intros Hr r'. assert (one_row r') as Hr'.
  { intros f' a b [n1 [H1 _]%map_lookup_filter_Some] [n2 [H2 _]%map_lookup_filter_Some].
    eapply Hr; by eexists. }
  split; [done|]. apply listed_eq; [done|]. intros f' fl n. subst r'.
  rewrite lookup_delete_Some, listed_lookup, map_lookup_filter_Some by done. simpl. naive_solver.
Qed.

Lemma listed_note r f note :
  one_row r → let r' := map_imap (λ (k : Z * Z) n, Some (if k.1 =? f then note else n)) r in
  one_row r' ∧ listed r' = alter (λ v, (v.1, note)) f (listed r).
Proof.
  intros Hr r'.
  assert (∀ k n, r' !! k = Some n ↔ ∃ n0, r !! k = Some n0 ∧ n = if k.1 =? f then note else n0) as Hl.
  { intros k n. subst r'. rewrite map_lookup_imap. destruct (r !! k); simpl; naive_solver. }
  assert (one_row r') as Hr'.
  { intros f' a b [n1 (m1 & H1 & _)%Hl] [n2 (m2 & H2 & _)%Hl]. eapply Hr; by eexists. }
  split; [done|]. apply listed_eq; [done|]. intros f' fl n. rewrite lookup_alter_Some, Hl. simpl.
  destruct (Z.eqb_spec f' f) as [->|Hne].
  - split.
    + intros [(_ & [fl0 n0] & Hk & [= -> ->])|[? _]]; [|done]. apply listed_lookup in Hk as [Hk Hf]; [|done]. eauto.
    + intros [(n0 & Hk & ->) Hf]. left. split; [done|]. exists (fl, n0). split; [by apply listed_lookup|done].
  - rewrite listed_lookup by done. naive_solver.
Qed.

Lemma listed_flags r f fl n g :
  one_row r → r !! (f, fl) = Some n → live_character f = true →
  one_row (set_flags f g r) ∧ listed (set_flags f g r) = alter (λ v, (g v.1, v.2)) f (listed r).
Proof.
  intros Hr Hk Hf.
  assert (filter (λ kv : Z * Z * string, kv.1.1 = f) r = {[ (f, fl) := n ]}) as E.
  { apply map_eq. intros [f' a]. apply option_eq. intros n'. rewrite map_lookup_filter_Some, lookup_singleton_Some.
    simpl. split; [|naive_solver]. intros [H1 ->]. assert (a = fl) as -> by (eapply Hr; by eexists). naive_solver. }
  assert (∀ k n', set_flags f g r !! k = Some n' ↔
    (k = (f, g fl) ∧ n' = n) ∨ (k.1 ≠ f ∧ r !! k = Some n')) as Hl.
  { intros k n'. unfold set_flags. rewrite E, map_to_list_singleton. cbn [fmap list_fmap fst snd].
    rewrite decide_True by (apply NoDup_singleton). cbn [list_to_map foldr].
    rewrite lookup_union_Some; [|].
    - rewrite lookup_insert_Some, lookup_empty, map_lookup_filter_Some. simpl. naive_solver.
    - apply map_disjoint_spec. intros k' x y. rewrite lookup_insert_Some, lookup_empty, map_lookup_filter_Some.
      simpl. naive_solver. }
  assert (one_row (set_flags f g r)) as Hr'.
  { intros f' a b [n1 H1%Hl] [n2 H2%Hl]. simpl in *.
    destruct H1 as [[E1 _]|[? H1]], H2 as [[E2 _]|[? H2]]; [congruence..|]. eapply Hr; by eexists. }
  split; [done|]. apply listed_eq; [done|]. intros f' a n'. rewrite lookup_alter_Some, Hl. simpl.
  assert (listed r !! f = Some (fl, n)) as Hlf by (by apply listed_lookup).
  destruct (decide (f' = f)) as [->|Hne].
  - rewrite Hlf. naive_solver.
  - rewrite listed_lookup by done. naive_solver.
Qed.
End Listing.

(** The list in memory is what the table lists. *)
Section Links.
Context `{SocialEnv}.
Definition linked (guid : Z) (db : social_table) (s : PlayerSocial) : Prop :=
  m_playerGUID s = guid ∧ list_ok (rows_of guid db) ∧ saved (m_playerSocialMap s) = rows_of guid db ∧
  one_row (table_rows guid db).
(** After calls [t] it is so again, and the other players' rows are untouched. *)
Definition relinked (guid : Z) (db : social_table) (s : PlayerSocial) (t : list social_event) : Prop :=
  linked guid (exec_all t db) s ∧
  ∀ g, g ≠ guid → table_rows g (exec_all t db) = table_rows g db.
End Links.

Section Linked.
Context `{SocialEnv}.

Lemma table_rows_update g g' f db :
  table_rows g' (update_rows g f db) = if decide (g = g') then f (table_rows g db) else table_rows g' db.
Proof.
  unfold table_rows at 1, update_rows. case_decide as E.
  - subst g'. by rewrite lookup_insert_eq.
  - by rewrite lookup_insert_ne.
Qed.

Lemma relinked_refl g db s : linked g db s → relinked g db s [].
Proof. done. Qed.

(** One statement that changes the row as the memory changes. *)
Lemma relinked_step g db s e f (F : social_list → social_list) :
  exec_social e db = update_rows g f db → m_playerGUID s = g →
  one_row (f (table_rows g db)) → listed (f (table_rows g db)) = F (rows_of g db) →
  list_ok (F (rows_of g db)) → saved (m_playerSocialMap s) = F (rows_of g db) →
  relinked g db s [e].
Proof.
  intros He Hg Hone HF Hok Hs. unfold relinked, linked, rows_of, exec_all. cbn [foldl]. rewrite He.
  rewrite table_rows_update, decide_True, HF by done. split; [done|].
  intros g' Hne. by rewrite table_rows_update, decide_False by done.
Qed.

Lemma saved_insert k fi m : saved (<[k := fi]> m) = <[k := (Flags fi, Note fi)]> (saved m).
Proof. unfold saved. by rewrite fmap_insert. Qed.
Lemma saved_lookup k fi m : m !! k = Some fi → saved m !! k = Some (Flags fi, Note fi).
Proof. intros Hk. unfold saved. by rewrite lookup_fmap, Hk. Qed.
Lemma alter_row k v f (r : social_list) : r !! k = Some v → alter f k r = <[k := f v]> r.
Proof.
  intros Hk. apply map_eq. intros k'. destruct (decide (k = k')) as [<-|Hne].
  - by rewrite lookup_alter_eq, lookup_insert_eq, Hk.
  - by rewrite lookup_alter_ne, lookup_insert_ne.
Qed.

Lemma linked_flags g db s k fi :
  linked g db s → m_playerSocialMap s !! k = Some fi →
  1 <= Flags fi <= 3 ∧ rows_of g db !! k = Some (Flags fi, Note fi) ∧
  table_rows g db !! (k, Flags fi) = Some (Note fi) ∧ live_character k = true.
Proof.
  intros (_ & Hok & Hs & Hone) Hk. apply saved_lookup in Hk. rewrite Hs in Hk.
  split; [apply (lo_flags _ Hok k _ Hk)|]. split; [done|]. by apply listed_lookup.
Qed.

Lemma wp_AddToSocialList g db s friendGuid ignore :
  linked g db s → live_character friendGuid = true → wp (AddToSocialList friendGuid ignore) (λ b s' t, relinked g db s' t) s.
Proof.
  intros Hl Hlive. unfold AddToSocialList. apply wp_bind, wp_get.
  pose proof Hl as (_ & Hok & Hs & Hone).
  assert (∀ flag limit, (flag, limit) ∈ [(SOCIAL_FLAG_FRIEND, SOCIALMGR_FRIEND_LIMIT);
      (SOCIAL_FLAG_IGNORED, SOCIALMGR_IGNORE_LIMIT)] →
    GetNumberOfSocialsWithFlag flag s = Z.of_nat (num_with flag (rows_of g db))) as Hnum.
  { intros flag limit Hin. rewrite GetNumber_num; rewrite Hs; [done|].
    destruct Hok as [_ H1 H2]. unfold SOCIALMGR_FRIEND_LIMIT, SOCIALMGR_IGNORE_LIMIT in *.
    apply elem_of_cons in Hin as [[= -> ->]|Hin]; [lia|].
    apply list_elem_of_singleton in Hin as [= -> ->]. lia. }
  destruct (if ignore then _ else _) eqn:Hfull; [by apply wp_ret|].
  set (flag := if ignore then SOCIAL_FLAG_IGNORED else SOCIAL_FLAG_FRIEND).
  set (limit := if ignore then SOCIALMGR_IGNORE_LIMIT else SOCIALMGR_FRIEND_LIMIT).
  assert (Z.of_nat (num_with flag (rows_of g db)) < limit) as Hroom.
  { subst flag limit. destruct ignore; rewrite <- (Hnum _ SOCIALMGR_IGNORE_LIMIT) ||
      rewrite <- (Hnum _ SOCIALMGR_FRIEND_LIMIT); try set_solver; lia. }
  destruct (m_playerSocialMap s !! friendGuid) as [fi|] eqn:Hk.
  - destruct (linked_flags _ _ _ _ _ Hl Hk) as (Hf & Hr & Ht & _). destruct Hl as (Hg & _ & _).
    apply wp_bind, wp_emit, wp_bind, wp_modify, wp_ret.
    destruct (listed_flags _ _ _ _ (λ f, Z.lor f flag) Hone Ht Hlive) as [Hone' Hlist].
    eapply (relinked_step _ _ _ _ _ (alter (λ r, (Z.lor r.1 flag, r.2)) friendGuid));
      [cbn [exec_social]; by rewrite Hg|exact Hg|exact Hone'|exact Hlist| |].
    + rewrite (alter_row _ _ _ _ Hr). apply list_ok_insert; [done| |].
      * simpl. subst flag. assert (Flags fi = 1 ∨ Flags fi = 2 ∨ Flags fi = 3) as [->|[->| ->]] by lia;
          destruct ignore; vm_compute; split; discriminate.
      * intros fl lim Hin. simpl. rewrite has_flag_lor. intros [Ho|Hn]%orb_true_iff.
        -- left. eexists. split; [exact Hr|done].
        -- right. revert Hn Hroom Hin. subst flag limit.
           rewrite elem_of_cons, list_elem_of_singleton.
           intros Hn Hroom [[= -> ->]|[= -> ->]]; by destruct ignore.
    + rewrite (alter_row _ _ _ _ Hr). cbn [m_playerSocialMap setf eta eta_PlayerSocial].
      by rewrite saved_insert, Hs.
  - assert (rows_of g db !! friendGuid = None) as Hr
      by (rewrite <- Hs; unfold saved; by rewrite lookup_fmap, Hk).
    destruct Hl as (Hg & _ & _). apply wp_bind, wp_emit, wp_bind, wp_modify, wp_ret.
    destruct (listed_insert _ _ flag Hone Hr Hlive) as (Hno & Hone' & Hlist).
    eapply (relinked_step _ _ _ _ _ <[friendGuid := (flag, "")]>);
      [cbn [exec_social]; by rewrite Hg, Hno|exact Hg|exact Hone'|exact Hlist| |].
    + apply list_ok_insert; [done|subst flag; by destruct ignore|].
      intros fl lim Hin Hn. right. revert Hn Hroom Hin. subst flag limit.
      rewrite elem_of_cons, list_elem_of_singleton.
      intros Hn Hroom [[= -> ->]|[= -> ->]]; by destruct ignore.
    + cbn [m_playerSocialMap setf eta eta_PlayerSocial]. rewrite saved_insert, Hs.
      subst flag. by destruct ignore.
Qed.

Lemma wp_RemoveFromSocialList g db s friendGuid ignore :
  linked g db s → wp (RemoveFromSocialList friendGuid ignore) (λ u s' t, relinked g db s' t) s.
Proof.
  intros Hl. unfold RemoveFromSocialList. apply wp_bind, wp_get.
  destruct (m_playerSocialMap s !! friendGuid) as [fi|] eqn:Hk; [|by apply wp_ret].
  destruct (linked_flags _ _ _ _ _ Hl Hk) as (Hf & Hr & Ht & Hlive). destruct Hl as (Hg & Hok & Hs & Hone).
  set (flag := if ignore then _ else _). apply wp_bind, wp_modify.
  set (f' := Z.ldiff (Flags fi) flag).
  assert (f' = 0 ∨ 1 <= f' <= 3) as Hf'.
  { subst f' flag. assert (Flags fi = 1 ∨ Flags fi = 2 ∨ Flags fi = 3) as [->|[->| ->]] by lia;
      destruct ignore; vm_compute; auto; right; split; discriminate. }
  cbn [Flags setf eta eta_FriendInfo]. fold f'.
  destruct (Z.eqb_spec f' 0) as [Hz|Hz].
  - apply wp_bind, wp_emit, wp_modify. destruct (listed_delete _ friendGuid Hone) as [Hone' Hlist].
    eapply (relinked_step _ _ _ _ _ (delete friendGuid));
      [cbn [exec_social]; by rewrite Hg|exact Hg|exact Hone'|exact Hlist| |].
    + by apply list_ok_delete.
    + cbn [m_playerSocialMap setf eta eta_PlayerSocial]. rewrite delete_insert_eq.
      unfold saved. rewrite fmap_delete. by rewrite <- Hs.
  - apply wp_emit. destruct (listed_flags _ _ _ _ (λ f, Z.ldiff f flag) Hone Ht Hlive) as [Hone' Hlist].
    eapply (relinked_step _ _ _ _ _ (alter (λ r, (Z.ldiff r.1 flag, r.2)) friendGuid));
      [cbn [exec_social]; by rewrite Hg|exact Hg|exact Hone'|exact Hlist| |].
    + rewrite (alter_row _ _ _ _ Hr). apply list_ok_insert; [done|simpl; fold f'; lia|].
      intros fl limit _ Hfl. left. eexists. split; [done|]. simpl in *.
      revert Hfl. unfold has_flag. rewrite !negb_true_iff, !Z.eqb_neq. intros Hne Hz'. apply Hne.
      apply Z.bits_inj'. intros n Hn. rewrite Z.land_spec, Z.ldiff_spec, Z.bits_0.
      assert (Z.testbit (Flags fi) n && Z.testbit fl n = false) as E
        by (rewrite <- Z.land_spec, Hz'; apply Z.bits_0).
      destruct (Z.testbit (Flags fi) n), (Z.testbit fl n), (Z.testbit flag n); done.
    + rewrite (alter_row _ _ _ _ Hr). cbn [m_playerSocialMap setf eta eta_PlayerSocial].
      by rewrite saved_insert, Hs.
Qed.

Lemma wp_SetFriendNote g db s friendGuid note :
  linked g db s → wp (SetFriendNote friendGuid note) (λ u s' t, relinked g db s' t) s.
Proof.
  intros Hl. unfold SetFriendNote. apply wp_bind, wp_get.
  destruct (m_playerSocialMap s !! friendGuid) as [fi|] eqn:Hk; [|by apply wp_ret].
  destruct (linked_flags _ _ _ _ _ Hl Hk) as (Hf & Hr & _). destruct Hl as (Hg & Hok & Hs & Hone).
  apply wp_bind, wp_emit, wp_modify.
  destruct (listed_note _ friendGuid (utf8truncate note 48) Hone) as [Hone' Hlist].
  eapply (relinked_step _ _ _ _ _ (alter (λ r, (r.1, utf8truncate note 48)) friendGuid));
    [cbn [exec_social]; by rewrite Hg|exact Hg|exact Hone'|exact Hlist| |].
  - rewrite (alter_row _ _ _ _ Hr). apply list_ok_insert; [done|done|].
    intros fl limit _ Hfl. left. eauto.
  - rewrite (alter_row _ _ _ _ Hr). cbn [m_playerSocialMap setf eta eta_PlayerSocial].
    by rewrite saved_insert, Hs.
Qed.

(** *** The contact list *)

(** What the player may see of a friend right now. *)
Definition friend_view (guid : Z) (me : SocialView) (friend : Z) (fi : FriendInfo) : FriendInfo :=
  match FindSocialPlayer friend with
  | Some target =>
      if sees_in_list me target && IsVisibleGloballyFor (pview target) guid then
        mkFriendInfo (if isDND target then FRIEND_STATUS_DND
                      else if isAFK target then FRIEND_STATUS_AFK else FRIEND_STATUS_ONLINE)
          (Flags fi) (zone_id target) (getLevel target) (getClass target) (Note fi)
      else new_FriendInfo (Flags fi) (Note fi)
  | None => new_FriendInfo (Flags fi) (Note fi)
  end.
Definition contact_entry (guid : Z) (me : SocialView) (kf : Z * FriendInfo) : list field :=
  let fi := friend_view guid me kf.1 kf.2 in
  [U64 kf.1; U32 (Flags fi); Str (Note fi)] ++
  (if has_flag (Flags fi) SOCIAL_FLAG_FRIEND then
     U8 (Status fi) :: (if Status fi =? 0 then []
                        else [U32 (Area fi); U32 (Level fi); U32 (Class_ fi)])
   else []).

Lemma GetFriendInfo_listed guid me s friend fi :
  m_playerSocialMap s !! friend = Some fi → GetFriendInfo guid me s friend fi = friend_view guid me friend fi.
Proof.
  intros Hk. unfold GetFriendInfo, friend_view. rewrite Hk.
  destruct (FindSocialPlayer friend) as [target|]; [|by destruct fi].
  destruct (sees_in_list me target); [|by destruct fi]. cbn [negb andb].
  destruct (IsVisibleGloballyFor _ _); by destruct fi.
Qed.
Lemma friend_view_saved guid me friend fi :
  (Flags (friend_view guid me friend fi), Note (friend_view guid me friend fi)) = (Flags fi, Note fi).
Proof.
  unfold friend_view. destruct (FindSocialPlayer friend); [|done]. by destruct (_ && _).
Qed.

Lemma SendSocialList_loop_run guid me l data s :
  NoDup l.*1 → (∀ k fi, (k, fi) ∈ l → m_playerSocialMap s !! k = Some fi) →
  ∃ s', SendSocialList_loop guid me l data s =
    Done (mkWorldPacket (m_opcode data) (body data ++ (l ≫= contact_entry guid me))) s' [] ∧
    m_playerGUID s' = m_playerGUID s ∧ saved (m_playerSocialMap s') = saved (m_playerSocialMap s).
Proof.
  revert data s. induction l as [|[k fi] l IH]; intros data s Hnd Hl; cbn [SendSocialList_loop].
  { exists s. cbn. rewrite app_nil_r. by destruct data. }
  cbn [fmap list_fmap] in Hnd. apply NoDup_cons in Hnd as [Hnew Hnd].
  assert (m_playerSocialMap s !! k = Some fi) as Hk by (apply Hl; set_solver).
  unfold mbind at 1, act_bind at 1, get at 1. rewrite (GetFriendInfo_listed _ _ _ _ _ Hk).
  set (fi' := friend_view guid me k fi).
  set (s1 := s <| m_playerSocialMap ::= <[k := fi']> |>).
  destruct (IH (mkWorldPacket (m_opcode data) (body data ++ contact_entry guid me (k, fi))) s1)
    as (s' & Hr & Hg & Hs); [done| |].
  { intros k' fi1 Hin. cbn. rewrite lookup_insert_ne; [apply Hl; set_solver|].
    intros <-. apply Hnew. apply list_elem_of_fmap. by exists (k, fi1). }
  exists s'. split; [|split; [done|]].
  - cbn [prepend mbind]. unfold mbind at 1, act_bind at 1, modify at 1. fold s1.
    match goal with |- prepend [] (prepend [] (SendSocialList_loop _ _ _ ?d _)) = _ =>
      replace d with (mkWorldPacket (m_opcode data) (body data ++ contact_entry guid me (k, fi)))
    end.
    + rewrite Hr. cbn [prepend app body m_opcode]. by rewrite <- app_assoc.
    + unfold contact_entry. cbn [fst snd]. cbv zeta. fold fi'. unfold stream. cbn.
      destruct (has_flag (Flags fi') SOCIAL_FLAG_FRIEND), (Status fi' =? 0); cbn;
        by rewrite <- ?app_assoc.
  - rewrite Hs. cbn. rewrite saved_insert. unfold fi'. rewrite friend_view_saved.
    apply insert_id. by apply saved_lookup.
Qed.

Lemma SendSocialList_run guid me s :
  ∃ s', SendSocialList guid me s = Done tt s' [SendTo guid (mkWorldPacket SMSG_CONTACT_LIST
      (U32 7 :: U32 (u32 (Z.of_nat (size (m_playerSocialMap s)))) ::
       (map_iter (m_playerSocialMap s) ≫= contact_entry guid me)))] ∧
    m_playerGUID s' = m_playerGUID s ∧ saved (m_playerSocialMap s') = saved (m_playerSocialMap s).
Proof.
  unfold SendSocialList, mbind, act_bind, get.
  destruct (SendSocialList_loop_run guid me (map_iter (m_playerSocialMap s))
    (Initialize SMSG_CONTACT_LIST <+ U32 7 <+ U32 (u32 (Z.of_nat (size (m_playerSocialMap s))))) s)
    as (s' & Hr & Hg & Hs).
  - apply NoDup_map_iter.
  - intros k fi. apply elem_of_map_iter.
  - exists s'. rewrite Hr. done.
Qed.
End Linked.

(** ** Loading, and all requests *)

(** The lists in memory are what the table says, and the table is within the
    limits. *)
Record social_inv `{SocialEnv} (st : SocialMgr) (db : social_table) : Prop := {
  si_rows : ∀ g, list_ok (rows_of g db);
  si_one : ∀ g, one_row (table_rows g db);
  si_linked : ∀ g s, st !! g = Some s → linked g db s }.

(** What a session, or the world on its behalf, asks of the lists of [guid]. *)
Inductive social_request :=
  | ReqLogin (rows : list (Z * Z * string))
  | ReqLogout
  | ReqContactList
  | ReqAddFriend (row : option (Z * Z * Z)) (friendNote : string)
  | ReqDelFriend (friendGUID : Z)
  | ReqAddIgnore (row : option Z)
  | ReqDelIgnore (ignoreGUID : Z)
  | ReqSetNote (friendGUID : Z) (note : string)
  | ReqStatus (result friendGuid : Z) (broadcast : bool).

Section Requests.
Context `{SocialEnv}.

Definition serve_social (guid : Z) (me : SocialView) (rq : social_request) : mgract unit :=
  match rq with
  | ReqLogin rows => LoadFromDB rows guid
  | ReqLogout => RemovePlayerSocial guid
  | ReqContactList => HandleContactList guid me
  | ReqAddFriend row friendNote => HandleAddFriendOpcodeCallBack guid me row friendNote
  | ReqDelFriend friendGUID => HandleDelFriend guid me friendGUID
  | ReqAddIgnore row => HandleAddIgnoreOpcodeCallBack guid me row
  | ReqDelIgnore ignoreGUID => HandleDelIgnore guid me ignoreGUID
  | ReqSetNote friendGUID note => HandleSetContactNotes guid friendGUID note
  | ReqStatus result friendGuid broadcast => SendFriendStatus guid me result friendGuid broadcast
  end.
(** The rows of a login are those of live characters in the table, in any order
    and not more than 255; the other requests come from a player who is logged
    in, and a character found by name is live. *)
Definition login_rows (guid : Z) (db : social_table) (rows : list (Z * Z * string)) : Prop :=
  ∃ l, l ≡ₚ live_rows (table_rows guid db) ∧ rows = take 255 l.
Definition serves_social (guid : Z) (rq : social_request) (st : SocialMgr) (db : social_table) : Prop :=
  match rq with
  | ReqLogin rows => login_rows guid db rows
  | ReqAddFriend row _ =>
      is_Some (st !! guid) ∧ ∀ r, row = Some r → live_character (GUID_LOPART r.1.1) = true
  | ReqAddIgnore row => is_Some (st !! guid) ∧ ∀ g, row = Some g → live_character (GUID_LOPART g) = true
  | _ => is_Some (st !! guid)
  end.

Lemma exec_all_app t1 t2 db : exec_all (t1 ++ t2) db = exec_all t2 (exec_all t1 db).
Proof. apply foldl_app. Qed.

(** Actions that keep the invariant and the players who are logged in. *)
Definition social_keeps {A} (guid : Z) (m : mgract A) : Prop :=
  ∀ st db, social_inv st db → is_Some (st !! guid) →
    wp m (λ _ st' t, social_inv st' (exec_all t db) ∧ is_Some (st' !! guid)) st.

Lemma sk_ret {A} guid (a : A) : social_keeps guid (mret a).
Proof. intros st db Hi Hg. by apply wp_ret. Qed.
Lemma sk_bind {A B} guid (m : mgract A) (k : A → mgract B) :
  social_keeps guid m → (∀ a, social_keeps guid (k a)) → social_keeps guid (m ≫= k).
Proof.
  intros Hm Hk st db Hi Hg. apply wp_bind. eapply wp_mono; [by apply Hm|].
  intros a st1 t1 [Hi1 Hg1]. eapply wp_mono; [by apply Hk|].
  intros b st2 t2 [Hi2 Hg2]. by rewrite exec_all_app.
Qed.
Lemma sk_emit guid to p : social_keeps guid (emit (SendTo to p)).
Proof. intros st db Hi Hg. by apply wp_emit. Qed.
Lemma sk_on {A} guid (m : socialact A) :
  (∀ s db, linked guid db s → wp m (λ _ s' t, relinked guid db s' t) s) →
  social_keeps guid (on_social guid m).
Proof.
  intros Hm st db Hi [s Hs]. unfold wp, on_social. rewrite Hs.
  specialize (Hm s db (si_linked _ _ Hi _ _ Hs)). unfold wp in Hm.
  destruct (m s) as [a s' t|]; [|done]. destruct Hm as [Hl Ho].
  split; [|rewrite lookup_insert_eq; by eexists]. split.
  - intros g. destruct (decide (g = guid)) as [->|Hne]; [apply Hl|].
    unfold rows_of. rewrite Ho by done. apply Hi.
  - intros g. destruct (decide (g = guid)) as [->|Hne]; [apply Hl|].
    rewrite Ho by done. apply Hi.
  - intros g s1. rewrite lookup_insert_Some. intros [[<- <-]|[Hne Hg]]; [done|].
    pose proof (si_linked _ _ Hi _ _ Hg) as Hlg. unfold linked, rows_of in *.
    by rewrite Ho by done.
Qed.
Lemma sk_gets {A} guid (f : PlayerSocial → A) : social_keeps guid (on_social guid (gets f)).
Proof. apply sk_on. intros s db Hl. by apply wp_gets. Qed.

Lemma sk_broadcast guid me p : social_keeps guid (BroadcastToFriendListers guid me p).
Proof.
  unfold BroadcastToFriendListers. intros st db Hi Hg. apply wp_bind, wp_get.
  generalize (map_iter st). intros l. revert st db Hi Hg. change (social_keeps guid (forM_ l
    (λ gs, when (hears_of guid me gs) (emit (SendTo gs.1 p))))).
  induction l as [|gs l IH]; simpl; [apply sk_ret|]. apply sk_bind; [|done].
  destruct (hears_of guid me gs); [apply sk_emit|apply sk_ret].
Qed.
Lemma sk_status guid me result friendGuid broadcast :
  social_keeps guid (SendFriendStatus guid me result friendGuid broadcast).
Proof.
  intros st db Hi [s Hs]. unfold SendFriendStatus. apply wp_bind, wp_get. rewrite Hs.
  apply wp_bind, wp_ret. destruct broadcast; [apply sk_broadcast|apply sk_emit];
    try done; by eexists.
Qed.
Lemma sk_contact guid me : social_keeps guid (HandleContactList guid me).
Proof.
  apply sk_on. intros s db Hl. destruct (SendSocialList_run guid me s) as (s' & Hr & Hg & Hs).
  unfold wp. rewrite Hr. split; [|done]. destruct Hl as (Hg1 & Hok1 & Hs1 & Hone1). split_and!; try done.
  - by rewrite Hg.
  - by rewrite Hs.
Qed.

Lemma load_social_rows (R : social_list) rows s :
  (size R <= 100)%nat → saved (m_playerSocialMap s) ⊆ R →
  (∀ f fl n, (f, fl, n) ∈ rows → R !! f = Some (fl, n)) →
  (∀ f, is_Some (R !! f) → is_Some (m_playerSocialMap s !! f) ∨ f ∈ rows.*1.*1) →
  saved (m_playerSocialMap (LoadFromDB_rows rows s)) = R ∧
  m_playerGUID (LoadFromDB_rows rows s) = m_playerGUID s.
Proof.
  intros Hsz. revert s. induction rows as [|[[f fl] n] rows IH]; intros s Hsub Hin Hall.
  { cbn [LoadFromDB_rows]. split; [|done]. apply map_eq. intros f. destruct (R !! f) as [v|] eqn:Ef.
    - destruct (Hall f) as [[fi Hfi]|Hf]; [by eexists| |by apply elem_of_nil in Hf].
      apply saved_lookup in Hfi. rewrite Hfi, <- Ef. symmetry. by eapply lookup_weaken.
    - destruct (saved _ !! f) eqn:Es; [|done]. eapply lookup_weaken in Es; [|done]. congruence. }
  cbn [LoadFromDB_rows]. set (s1 := s <| m_playerSocialMap ::= _ |>).
  assert (saved (m_playerSocialMap s1) ⊆ R) as Hsub1.
  { subst s1. cbn. rewrite saved_insert. apply insert_subseteq_l; [|done].
    apply Hin. set_solver. }
  destruct (Z.leb_spec (SOCIALMGR_FRIEND_LIMIT + SOCIALMGR_IGNORE_LIMIT)
    (Z.of_nat (size (m_playerSocialMap s1)))) as [Hfull|_].
  - split; [|done]. apply map_subseteq_size_eq; [done|]. unfold saved. rewrite map_size_fmap.
    unfold SOCIALMGR_FRIEND_LIMIT, SOCIALMGR_IGNORE_LIMIT in Hfull. lia.
  - apply (IH s1); [done| |].
    + intros f1 fl1 n1 H1. apply Hin. set_solver.
    + intros f1 H1. destruct (Hall f1 H1) as [[fi Hfi]|Hf].
      * left. subst s1. cbn. destruct (decide (f = f1)) as [<-|Hne].
        -- rewrite lookup_insert_eq. by eexists.
        -- rewrite lookup_insert_ne by done. by eexists.
      * cbn in Hf. apply elem_of_cons in Hf as [->|Hf]; [|by right].
        left. subst s1. cbn. rewrite lookup_insert_eq. by eexists.
Qed.

Lemma wp_LoadFromDB guid rows st db :
  social_inv st db → serves_social guid (ReqLogin rows) st db →
  wp (LoadFromDB rows guid) (λ _ st' t, social_inv st' (exec_all t db)) st.
Proof.
  intros Hi Hrows. unfold LoadFromDB. apply wp_modify. cbn [exec_all foldl].
  set (s0 := (default (mkPlayerSocial ∅ 0) (st !! guid)) <| m_playerGUID := guid |>).
  assert (∀ f v, rows_of guid db !! f = Some v ↔ (f, v.1, v.2) ∈ rows) as Hin.
  { destruct Hrows as (l & Hl & ->). intros f [fl n]. pose proof (si_one _ _ Hi guid) as Hone.
    rewrite firstn_all2.
    - unfold rows_of. rewrite listed_lookup by done. by rewrite Hl, elem_of_live_rows.
    - pose proof (list_ok_size _ (si_rows _ _ Hi guid)) as Hsz. rewrite (Permutation_length Hl).
      unfold rows_of, listed in Hsz. rewrite map_size_list_to_map, length_fmap in Hsz; [lia|].
      rewrite <- list_fmap_compose. by apply live_rows_nodup. }
  destruct (load_social_rows (rows_of guid db) rows s0) as [Hs Hg].
  - apply list_ok_size, Hi.
  - subst s0. destruct (st !! guid) as [s|] eqn:Es; cbn.
    + destruct (si_linked _ _ Hi _ _ Es) as (_ & _ & Hl & _). by rewrite <- Hl.
    + unfold saved. rewrite fmap_empty. apply map_empty_subseteq.
  - intros f fl n Hf. by apply (Hin f (fl, n)).
  - intros f [v Hv]. right. apply Hin in Hv. apply list_elem_of_fmap. exists (f, v.1).
    split; [done|]. apply list_elem_of_fmap. by exists (f, v.1, v.2).
  - split; [apply Hi..|]. intros g s. rewrite lookup_insert_Some. intros [[<- <-]|[Hne Hk]].
    + split_and!; [by rewrite Hg|apply Hi|done|apply Hi].
    + by apply (si_linked _ _ Hi).
Qed.

Lemma sk_add_friend guid me row friendNote :
  (∀ r, row = Some r → live_character (GUID_LOPART r.1.1) = true) →
  social_keeps guid (HandleAddFriendOpcodeCallBack guid me row friendNote).
Proof.
  intros Hlive. apply sk_bind; [|intros r; apply sk_status].
  destruct row as [[[friendGuid race] acc]|]; [|apply sk_ret].
  destruct (_ || _); [|apply sk_ret]. destruct (negb _); [|apply sk_ret].
  apply sk_bind.
  - destruct (_ =? _); [apply sk_ret|]. destruct (_ && _); [apply sk_ret|].
    apply sk_bind; [apply sk_gets|]. intros []; [apply sk_ret|]. apply sk_bind.
    + apply sk_on. intros s db Hl. apply wp_AddToSocialList; [done|]. exact (Hlive _ eq_refl).
    + intros a. apply sk_ret.
  - intros r. apply sk_bind; [|intros; apply sk_ret]. apply sk_on. intros s db Hl.
    by apply wp_SetFriendNote.
Qed.
Lemma sk_add_ignore guid me row :
  (∀ g, row = Some g → live_character (GUID_LOPART g) = true) →
  social_keeps guid (HandleAddIgnoreOpcodeCallBack guid me row).
Proof.
  intros Hlive. apply sk_bind; [|intros r; apply sk_status]. destruct row as [ignoreGuid|]; [|apply sk_ret].
  destruct (negb _); [|apply sk_ret]. destruct (_ =? _); [apply sk_ret|].
  apply sk_bind; [apply sk_gets|]. intros []; [apply sk_ret|]. apply sk_bind.
  - apply sk_on. intros s db Hl. apply wp_AddToSocialList; [done|]. exact (Hlive _ eq_refl).
  - intros a. apply sk_ret.
Qed.
Lemma sk_remove guid me result friendGUID ignore :
  social_keeps guid (on_social guid (RemoveFromSocialList (GUID_LOPART friendGUID) ignore) ;;
    SendFriendStatus guid me result (GUID_LOPART friendGUID) false).
Proof.
  apply sk_bind; [|intros r; apply sk_status]. apply sk_on. intros s db Hl.
  by apply wp_RemoveFromSocialList.
Qed.

Lemma on_social_run {A} guid (m : socialact A) st s a s' t :
  st !! guid = Some s → m s = Done a s' t → on_social guid m st = Done a (<[guid := s']> st) t.
Proof. intros Hs Hm. unfold on_social. by rewrite Hs, Hm. Qed.

Lemma AddToSocialList_new guid s :
  m_playerSocialMap s !! guid = None →
  GetNumberOfSocialsWithFlag SOCIAL_FLAG_FRIEND s < SOCIALMGR_FRIEND_LIMIT →
  AddToSocialList guid false s =
    Done true (s <| m_playerSocialMap ::= <[guid := new_FriendInfo SOCIAL_FLAG_FRIEND ""]> |>)
      [CHAR_INS_CHARACTER_SOCIAL (m_playerGUID s) guid SOCIAL_FLAG_FRIEND].
Proof.
  intros Hk Hn. unfold AddToSocialList, mbind, act_bind, get.
  rewrite (proj2 (Z.leb_gt _ _)) by done. by rewrite Hk.
Qed.
Lemma SetFriendNote_known guid note fi s :
  m_playerSocialMap s !! guid = Some fi →
  SetFriendNote guid note s =
    Done tt (s <| m_playerSocialMap ::= <[guid := fi <| Note := utf8truncate note 48 |>]> |>)
      [CHAR_UPD_CHARACTER_SOCIAL_NOTE (utf8truncate note 48) (m_playerGUID s) guid].
Proof. intros Hk. unfold SetFriendNote, mbind, act_bind, get. by rewrite Hk. Qed.

Lemma social_keeps_run {A} guid (m : mgract A) st db :
  social_keeps guid m → social_inv st db → is_Some (st !! guid) →
  wp m (λ _ st' t, social_inv st' (exec_all t db)) st.
Proof. intros Hm Hi Hg. eapply wp_mono; [by apply Hm|]. by intros a st' t [? _]. Qed.
End Requests.

(** ** A world for the witnesses *)

Definition social_view (v : PlayerView) : SocialView := mkSocialView v true false true 12 80 1.
#[export] Instance social_env0 : SocialEnv := {|
  social_channel_env := channel_env0;
  FindSocialPlayer := λ g, if g =? 10 then Some (social_view ann)
                           else if g =? 20 then Some (social_view bob) else None;
  utf8_distance := λ s, Some (Z.of_nat (String.length s));
  utf8to16 := λ s, Some (string_bytes s);
  utf16to8 := λ l, Some (bytes_string l);
  TeamForRace := λ _, 469;
  account_security := λ _, SEC_PLAYER;
  live_character := λ g, negb (g =? 60) |}.
(** Ann has Bob as a friend and another, whose character was deleted; Cid, who
    is offline, is ignored. *)
Definition table0 : social_table :=
  {[ 10 := {[ (20, 1) := "tank"; (30, 2) := ""; (60, 1) := "gone" ]} ]}.
Definition lists0 : SocialMgr :=
  rstate (serve_social 10 (social_view ann) (ReqLogin [(20, 1, "tank"); (30, 2, "")]) ∅).

Definition ann_social : PlayerSocial :=
  mkPlayerSocial {[ 20 := new_FriendInfo 1 "tank"; 30 := new_FriendInfo 2 "" ]} 10.
Lemma lists0_ann : lists0 !! 10 = Some ann_social.
Proof. vm_compute. reflexivity. Qed.

Lemma table0_one g : one_row (table_rows g table0).
Proof.
  intros f a b. unfold table_rows, table0. destruct (decide (g = 10)) as [->|Hne].
  - rewrite lookup_singleton_eq. cbn [from_option id]. intros [n1 H1] [n2 H2].
    rewrite !lookup_insert_Some, lookup_singleton_Some in H1, H2.
    destruct H1 as [[E1 _]|[_ [[E1 _]|[_ [E1 _]]]]], H2 as [[E2 _]|[_ [[E2 _]|[_ [E2 _]]]]]; congruence.
  - rewrite lookup_singleton_ne by done. intros [n1 H1]. cbn [from_option id] in H1. by rewrite lookup_empty in H1.
Qed.
Lemma table0_rows : rows_of 10 table0 = {[ 20 := (1, "tank"); 30 := (2, "") ]}.
Proof. apply map_to_list_inj. vm_compute. reflexivity. Qed.
Lemma table0_ok g : list_ok (rows_of g table0).
Proof.
  destruct (decide (g = 10)) as [->|Hne].
  - rewrite table0_rows. apply list_ok_insert; [|simpl; lia|].
    + apply list_ok_insert; [split; [done|vm_compute; discriminate..]|simpl; lia|].
      intros fl lim Hin _. right. revert Hin.
      rewrite elem_of_cons, list_elem_of_singleton. by intros [[= -> ->]|[= -> ->]].
    + intros fl lim Hin _. right. revert Hin.
      rewrite elem_of_cons, list_elem_of_singleton. by intros [[= -> ->]|[= -> ->]].
  - unfold rows_of, table_rows, table0. rewrite lookup_singleton_ne by done.
    split; [done|vm_compute; discriminate..].
Qed.

(** ** Properties of the social lists *)

(** C31: The friend and ignore lists in memory always agree with the table - with
    the rows, keyed by player, friend and flags, whose friend is a character
    that is not deleted, which are those the login query joins - and both stay
    within the client's limits of 50 friends and 50 ignored players; a friend
    has one row, although the key would allow several.  Every request keeps
    this, whatever it answers, when its statements are executed on the table:
    logging in with the first 255 rows of the query in any order, adding,
    removing, notes, the contact list, and logging out.  Requests come from
    players who are logged in, who add characters that are not deleted; no
    character is deleted or restored meanwhile. *)
Theorem social_persistent `{SocialEnv} guid me rq st db :
  social_inv st db → serves_social guid rq st db →
  wp (serve_social guid me rq) (λ _ st' t, social_inv st' (exec_all t db)) st.
Proof.
  intros Hi Hs.
  assert (∀ m : mgract unit, social_keeps guid m → is_Some (st !! guid) →
    wp m (λ _ st' t, social_inv st' (exec_all t db)) st) as Hk
    by (intros m Hm Hg; by eapply social_keeps_run).
  destruct rq; cbn [serve_social serves_social] in *; [by apply wp_LoadFromDB| |apply Hk..]; try done; try apply Hs.
  - apply wp_modify. split; [apply Hi..|]. intros g s [_ Hg]%lookup_delete_Some. by apply Hi.
  - apply sk_contact.
  - apply sk_add_friend, Hs.
  - apply sk_remove.
  - apply sk_add_ignore, Hs.
  - apply sk_remove.
  - apply sk_on. intros s db' Hl. by apply wp_SetFriendNote.
  - apply sk_status.
Qed.

Lemma social_persistent_witness :
  wp (serve_social 10 (social_view ann) (ReqAddFriend (Some (30, 1, 5)) "healer"))
    (λ _ st' t, social_inv st' (exec_all t table0) ∧
      map_to_list (table_rows 10 (exec_all t table0)) =
        [((30, 3), "healer"); ((60, 1), "gone"); ((20, 1), "tank")]) lists0.
Proof.
  assert (wp (serve_social 10 (social_view ann) (ReqLogin [(20, 1, "tank"); (30, 2, "")]))
    (λ _ st' t, social_inv st' (exec_all t table0)) ∅) as Hl.
  { apply wp_LoadFromDB.
    - split; [apply table0_ok|apply table0_one|]. intros g s Hg. done.
    - exists [(20, 1, "tank"); (30, 2, "")]. split; [|reflexivity].
      assert (live_rows (table_rows 10 table0) = [(20, 1, "tank"); (30, 2, "")]) as E by (vm_compute; reflexivity).
      rewrite E. reflexivity. }
  assert (social_inv lists0 table0) as Hi by exact Hl.
  pose proof (social_persistent 10 (social_view ann) (ReqAddFriend (Some (30, 1, 5)) "healer")
    lists0 table0 Hi ltac:(split; [vm_compute; eexists; reflexivity|intros r [= <-]; vm_compute; reflexivity])) as Hw.
  revert Hw. unfold wp. destruct (serve_social _ _ _ lists0) as [u st' t|f st' t] eqn:Er;
    [|intros []]. intros Hw. split; [exact Hw|]. vm_compute in Er. injection Er as _ _ <-.
  vm_compute. reflexivity.
Defined.

(** The contact list a player is sent: the number of entries, then for each
    friend or ignored player, in guid order, guid, flags and note, and for a
    friend the status, with zone, level and class only if he is online and may
    be seen - the same team or permitted, not of a hidden security level, and
    visible. *)
Theorem contact_list `{SocialEnv} guid me st s :
  st !! guid = Some s → Z.of_nat (size (m_playerSocialMap s)) < 2 ^ 32 →
  wp (HandleContactList guid me) (λ _ st' t,
    t = [SendTo guid (mkWorldPacket SMSG_CONTACT_LIST
      (U32 7 :: U32 (Z.of_nat (size (m_playerSocialMap s))) ::
       (map_iter (m_playerSocialMap s) ≫= contact_entry guid me)))] ∧
    ∃ s', st' = <[guid := s']> st ∧ m_playerGUID s' = m_playerGUID s ∧
          saved (m_playerSocialMap s') = saved (m_playerSocialMap s)) st.
Proof.
  intros Hs Hsz. destruct (SendSocialList_run guid me s) as (s' & Hr & Hg & Hsv).
  unfold wp, HandleContactList, on_social. rewrite Hs, Hr.
  rewrite wrapu_id by lia. split; [done|]. by exists s'.
Qed.

Lemma contact_list_witness :
  wp (HandleContactList 10 (social_view ann)) (λ _ _ t,
    t = [SendTo 10 (mkWorldPacket SMSG_CONTACT_LIST
      [U32 7; U32 2; U64 20; U32 1; Str "tank"; U8 2; U32 12; U32 80; U32 1;
       U64 30; U32 2; Str ""])]) lists0.
Proof.
  eapply wp_mono; [apply (contact_list 10 (social_view ann) lists0 ann_social lists0_ann);
    vm_compute; reflexivity|].
  intros u st' t [-> _]. vm_compute. reflexivity.
Defined.

(** Adding as a friend a player who is offline: the statements insert the
    entry and store the note, the list in memory has both, but the answer,
    [FRIEND_ADDED_OFFLINE], carries an empty note. *)
Theorem offline_friend_note_lost `{SocialEnv} guid me friendGuid race acc friendNote st s :
  st !! guid = Some s → m_playerSocialMap s !! friendGuid = None → 0 < friendGuid < 2 ^ 32 →
  friendGuid ≠ guid → account_security acc = SEC_PLAYER → TeamForRace race = GetTeam (pview me) →
  GetNumberOfSocialsWithFlag SOCIAL_FLAG_FRIEND s < SOCIALMGR_FRIEND_LIMIT →
  FindSocialPlayer friendGuid = None →
  HandleAddFriendOpcodeCallBack guid me (Some (friendGuid, race, acc)) friendNote st =
    let note := utf8truncate friendNote 48 in
    Done tt (<[guid := s <| m_playerSocialMap ::= <[friendGuid := new_FriendInfo 1 note]> |>]> st)
      [CHAR_INS_CHARACTER_SOCIAL (m_playerGUID s) friendGuid SOCIAL_FLAG_FRIEND;
       CHAR_UPD_CHARACTER_SOCIAL_NOTE note (m_playerGUID s) friendGuid;
       SendTo guid (mkWorldPacket SMSG_FRIEND_STATUS [U8 FRIEND_ADDED_OFFLINE; U64 friendGuid; Str ""])].
Proof.
  intros Hs Hnew Hf Hne Hacc Hteam Hroom Hoff. unfold HandleAddFriendOpcodeCallBack.
  rewrite Hacc, Hteam, Hoff, orb_true_r, Z.eqb_refl. cbn [negb andb].
  rewrite (proj2 (Z.eqb_neq friendGuid 0)), (proj2 (Z.eqb_neq friendGuid guid)) by lia.
  assert (GUID_LOPART friendGuid = friendGuid) as Hlo by (apply wrapu_id; lia).
  cbn [negb]. rewrite Hlo.
  set (s1 := s <| m_playerSocialMap ::= <[friendGuid := new_FriendInfo SOCIAL_FLAG_FRIEND ""]> |>).
  set (s2 := s <| m_playerSocialMap ::= <[friendGuid := new_FriendInfo 1 (utf8truncate friendNote 48)]> |>).
  unfold mbind, act_bind.
  rewrite (on_social_run guid (gets (HasFriend friendGuid)) st s false s [] Hs)
    by (unfold gets, HasFriend; by rewrite Hnew).
  rewrite insert_id by done. cbv beta iota.
  rewrite (on_social_run _ _ st s _ _ _ Hs (AddToSocialList_new _ _ Hnew Hroom)). fold s1.
  cbn [prepend mret act_ret app].
  rewrite (on_social_run guid (SetFriendNote friendGuid friendNote) (<[guid := s1]> st) s1 tt s2
    [CHAR_UPD_CHARACTER_SOCIAL_NOTE (utf8truncate friendNote 48) (m_playerGUID s) friendGuid]).
  - cbn [prepend mret act_ret app fst snd]. rewrite insert_insert_eq. unfold SendFriendStatus, mbind, act_bind, get.
    rewrite lookup_insert_eq. cbn [require mret act_ret prepend]. unfold GetFriendInfo.
    rewrite Hlo, Hoff. done.
  - apply lookup_insert_eq.
  - erewrite SetFriendNote_known by apply lookup_insert_eq. subst s1 s2. cbn.
    by rewrite insert_insert_eq.
Qed.

Lemma offline_friend_note_lost_witness :
  rtrace (HandleAddFriendOpcodeCallBack 10 (social_view ann) (Some (40, 1, 5)) "healer" lists0) =
    [CHAR_INS_CHARACTER_SOCIAL 10 40 1; CHAR_UPD_CHARACTER_SOCIAL_NOTE "healer" 10 40;
     SendTo 10 (mkWorldPacket SMSG_FRIEND_STATUS [U8 FRIEND_ADDED_OFFLINE; U64 40; Str ""])].
Proof.
  rewrite (offline_friend_note_lost 10 (social_view ann) 40 1 5 "healer" lists0 ann_social lists0_ann);
    [reflexivity|reflexivity|split; reflexivity|discriminate|reflexivity..].
Defined.
