(* ===== verification/Guild.v ===== *)
(** Guilds: the classes of src/server/game/Guilds/Guild.h - the emblem, members,
    log holders and their entries, ranks, bank tabs - and the methods of
    [Guild] in Guild.cpp that do not move bank items.  The invariants are in
    GuildRules.v and GuildMoney.v. *)

From Stdlib Require Import SpecFloat.
From S2P Require Import Prelude ByteBuffer Util Rbac Channel Social.
Open Scope string_scope.
Open Scope list_scope.
Open Scope Z_scope.

(** ** Constants *)

Definition GUILD_BANK_MAX_TABS : Z := 6.
Definition GUILD_BANK_MAX_SLOTS : Z := 98.
Definition GUILD_BANK_MONEY_LOGS_TAB : Z := 100.
Definition GUILD_RANKS_MIN_COUNT : Z := 5.
Definition GUILD_RANKS_MAX_COUNT : Z := 10.
Definition GUILD_RANK_NONE : Z := 0xFF.
Definition GUILD_WITHDRAW_MONEY_UNLIMITED : Z := 0xFFFFFFFF.
Definition GUILD_WITHDRAW_SLOT_UNLIMITED : Z := 0xFFFFFFFF.
Definition GUILD_EVENT_LOG_GUID_UNDEFINED : Z := 0xFFFFFFFF.
Definition TAB_UNDEFINED : Z := 0xFF.

Definition GUILD_MEMBER_DATA_ZONEID : Z := 0.
Definition GUILD_MEMBER_DATA_LEVEL : Z := 1.

Definition GR_GUILDMASTER : Z := 0.
Definition GR_OFFICER : Z := 1.

Definition GR_RIGHT_EMPTY : Z := 0x40.
Definition GR_RIGHT_GCHATLISTEN : Z := Z.lor GR_RIGHT_EMPTY 0x1.
Definition GR_RIGHT_GCHATSPEAK : Z := Z.lor GR_RIGHT_EMPTY 0x2.
Definition GR_RIGHT_OFFCHATLISTEN : Z := Z.lor GR_RIGHT_EMPTY 0x4.
Definition GR_RIGHT_OFFCHATSPEAK : Z := Z.lor GR_RIGHT_EMPTY 0x8.
Definition GR_RIGHT_INVITE : Z := Z.lor GR_RIGHT_EMPTY 0x10.
Definition GR_RIGHT_REMOVE : Z := Z.lor GR_RIGHT_EMPTY 0x20.
Definition GR_RIGHT_PROMOTE : Z := Z.lor GR_RIGHT_EMPTY 0x80.
Definition GR_RIGHT_DEMOTE : Z := Z.lor GR_RIGHT_EMPTY 0x100.
Definition GR_RIGHT_SETMOTD : Z := Z.lor GR_RIGHT_EMPTY 0x1000.
Definition GR_RIGHT_EPNOTE : Z := Z.lor GR_RIGHT_EMPTY 0x2000.
Definition GR_RIGHT_EOFFNOTE : Z := Z.lor GR_RIGHT_EMPTY 0x8000.
Definition GR_RIGHT_MODIFY_GUILD_INFO : Z := Z.lor GR_RIGHT_EMPTY 0x10000.
Definition GR_RIGHT_WITHDRAW_GOLD_LOCK : Z := 0x20000.
Definition GR_RIGHT_WITHDRAW_REPAIR : Z := 0x40000.
Definition GR_RIGHT_WITHDRAW_GOLD : Z := 0x80000.
Definition GR_RIGHT_ALL : Z := 0x1DF1FF.

Definition GUILD_COMMAND_INVITE : Z := 1.
Definition GUILD_COMMAND_QUIT : Z := 3.
Definition GUILD_COMMAND_ROSTER : Z := 5.
Definition GUILD_COMMAND_PROMOTE : Z := 6.
Definition GUILD_COMMAND_DEMOTE : Z := 7.
Definition GUILD_COMMAND_REMOVE : Z := 8.
Definition GUILD_COMMAND_CHANGE_LEADER : Z := 10.
Definition GUILD_COMMAND_EDIT_MOTD : Z := 11.
Definition GUILD_COMMAND_CHANGE_RANK : Z := 16.
Definition GUILD_COMMAND_PUBLIC_NOTE : Z := 19.
Definition GUILD_COMMAND_VIEW_TAB : Z := 21.

Definition ERR_GUILD_COMMAND_SUCCESS : Z := 0.
Definition ERR_ALREADY_IN_GUILD_S : Z := 3.
Definition ERR_ALREADY_INVITED_TO_GUILD_S : Z := 5.
Definition ERR_GUILD_NAME_INVALID : Z := 6.
Definition ERR_GUILD_LEADER_LEAVE : Z := 8.
Definition ERR_GUILD_PERMISSIONS : Z := 8.
Definition ERR_GUILD_PLAYER_NOT_IN_GUILD : Z := 9.
Definition ERR_GUILD_PLAYER_NOT_FOUND_S : Z := 11.
Definition ERR_GUILD_NOT_ALLIED : Z := 12.
Definition ERR_GUILD_RANK_TOO_HIGH_S : Z := 13.
Definition ERR_GUILD_RANK_TOO_LOW_S : Z := 14.

Definition GE_PROMOTION : Z := 0.
Definition GE_DEMOTION : Z := 1.
Definition GE_MOTD : Z := 2.
Definition GE_JOINED : Z := 3.
Definition GE_LEFT : Z := 4.
Definition GE_REMOVED : Z := 5.
Definition GE_LEADER_CHANGED : Z := 7.
Definition GE_DISBANDED : Z := 8.
Definition GE_RANK_UPDATED : Z := 10.
Definition GE_RANK_DELETED : Z := 11.
Definition GE_SIGNED_ON : Z := 12.
Definition GE_SIGNED_OFF : Z := 13.
Definition GE_BANK_TAB_PURCHASED : Z := 15.
Definition GE_BANK_TAB_UPDATED : Z := 16.
Definition GE_BANK_MONEY_CHANGED : Z := 18.

Definition GUILD_BANK_RIGHT_VIEW_TAB : Z := 0x01.
Definition GUILD_BANK_RIGHT_PUT_ITEM : Z := 0x02.
Definition GUILD_BANK_RIGHT_DEPOSIT_ITEM : Z :=
  Z.lor GUILD_BANK_RIGHT_VIEW_TAB GUILD_BANK_RIGHT_PUT_ITEM.
Definition GUILD_BANK_RIGHT_FULL : Z := 0xFF.

Definition GUILD_BANK_LOG_DEPOSIT_ITEM : Z := 1.
Definition GUILD_BANK_LOG_WITHDRAW_ITEM : Z := 2.
Definition GUILD_BANK_LOG_MOVE_ITEM : Z := 3.
Definition GUILD_BANK_LOG_DEPOSIT_MONEY : Z := 4.
Definition GUILD_BANK_LOG_WITHDRAW_MONEY : Z := 5.
Definition GUILD_BANK_LOG_REPAIR_MONEY : Z := 6.
Definition GUILD_BANK_LOG_MOVE_ITEM2 : Z := 7.

Definition GUILD_EVENT_LOG_INVITE_PLAYER : Z := 1.
Definition GUILD_EVENT_LOG_JOIN_GUILD : Z := 2.
Definition GUILD_EVENT_LOG_PROMOTE_PLAYER : Z := 3.
Definition GUILD_EVENT_LOG_DEMOTE_PLAYER : Z := 4.
Definition GUILD_EVENT_LOG_UNINVITE_PLAYER : Z := 5.
Definition GUILD_EVENT_LOG_LEAVE_GUILD : Z := 6.

Definition ERR_GUILDEMBLEM_SUCCESS : Z := 0.
Definition ERR_GUILDEMBLEM_NOGUILD : Z := 2.
Definition ERR_GUILDEMBLEM_NOTGUILDMASTER : Z := 3.
Definition ERR_GUILDEMBLEM_NOTENOUGHMONEY : Z := 4.
Definition ERR_GUILDEMBLEM_INVALIDVENDOR : Z := 5.

Definition GUILDMEMBER_STATUS_NONE : Z := 0.
Definition GUILDMEMBER_STATUS_ONLINE : Z := 1.

Definition SMSG_GUILD_QUERY_RESPONSE : Z := 0x055.
Definition SMSG_GUILD_INVITE : Z := 0x083.
Definition SMSG_GUILD_INFO : Z := 0x088.
Definition SMSG_GUILD_ROSTER : Z := 0x08A.
Definition SMSG_GUILD_EVENT : Z := 0x092.
Definition SMSG_GUILD_COMMAND_RESULT : Z := 0x093.
Definition MSG_SAVE_GUILD_EMBLEM : Z := 0x1F1.
Definition SMSG_GUILD_BANK_LIST : Z := 0x3E8.
Definition MSG_GUILD_BANK_LOG_QUERY : Z := 0x3EE.
Definition MSG_GUILD_PERMISSIONS : Z := 0x3FD.
Definition MSG_GUILD_BANK_MONEY_WITHDRAWN : Z := 0x3FE.
Definition MSG_GUILD_EVENT_LOG_QUERY : Z := 0x3FF.
Definition MSG_QUERY_GUILD_BANK_TEXT : Z := 0x40A.
Definition SMSG_CALENDAR_FILTER_GUILD : Z := 0x438.
Definition CHAT_MSG_GUILD : Z := 0x04.
Definition CHAT_MSG_OFFICER : Z := 0x05.
Definition LANG_ADDON : Z := 0xFFFFFFFF.
Definition CALENDAR_MAX_INVITES : Z := 100.
Definition CALENDAR_ERROR_INVITES_EXCEEDED : Z := 14.
Definition GUILD_CHARTER_TYPE : Z := 9.

Definition COPPER : Z := 1.
Definition SILVER : Z := COPPER * 100.
Definition GOLD : Z := SILVER * 100.
Definition EMBLEM_PRICE : Z := 10 * GOLD.
Definition MAX_GUILD_BANK_TAB_TEXT_LEN : Z := 500.
Definition MAX_MONEY_AMOUNT : Z := 0x7FFFFFFF - 1.
Definition MAX_ENCHANTMENT_SLOT : Z := 12.
Definition EQUIP_ERR_TOO_MUCH_GOLD : Z := 77.
Definition CLASS_WARRIOR : Z := 1.
Definition MAX_CLASSES : Z := 12.
Definition DAY : Z := 86400.

Definition _GetGuildBankTabPrice (tabId : Z) : Z :=
  if tabId =? 0 then 100 else if tabId =? 1 then 250 else if tabId =? 2 then 500
  else if tabId =? 3 then 1000 else if tabId =? 4 then 2500
  else if tabId =? 5 then 5000 else 0.

(** ** Items

    What the guild uses of an item; an item pointer is the item's low guid. *)

Record Item := mkItem {
  GetEntry : Z; GetCount : Z; Stackable : Z; IsSoulBound : bool;
  GetItemRandomPropertyId : Z; GetItemSuffixFactor : Z; GetSpellCharges : Z;
  m_enchantments : list Z }.
#[export] Instance eta_Item : Eta Item := λ r,
  mkItem (GetEntry r) (GetCount r) (Stackable r) (IsSoulBound r) (GetItemRandomPropertyId r)
    (GetItemSuffixFactor r) (GetSpellCharges r) (m_enchantments r).

(** ** Calls out of the guild

    Packets, prepared statements by name with their arguments (an [Append] to
    a transaction that is committed is an [Execute]), script hooks, and calls
    on players, items and other managers. *)

Inductive guild_event :=
  | Send (guid : Z) (p : WorldPacket)
  | CHAR_INS_GUILD (guildId : Z) (name : string) (leader : Z) (info motd : string)
      (created : Z) (emblem : list Z) (money : Z)
  | CHAR_DEL_GUILD (guildId : Z)
  | CHAR_UPD_GUILD_NAME (name : string) (guildId : Z)
  | CHAR_INS_GUILD_MEMBER (guildId guid rank : Z) (pnote offnote : string)
  | CHAR_DEL_GUILD_MEMBER (guid : Z)
  | CHAR_DEL_GUILD_MEMBERS (guildId : Z)
  | CHAR_INS_GUILD_RANK (guildId rid : Z) (rname : string) (rights : Z)
  | CHAR_DEL_GUILD_RANKS (guildId : Z)
  | CHAR_DEL_GUILD_LOWEST_RANK (guildId rid : Z)
  | CHAR_INS_GUILD_BANK_TAB (guildId tabId : Z)
  | CHAR_DEL_GUILD_BANK_TAB (guildId tabId : Z)
  | CHAR_DEL_GUILD_BANK_TABS (guildId : Z)
  | CHAR_INS_GUILD_BANK_ITEM (guildId tabId slotId itemGuid : Z)
  | CHAR_DEL_GUILD_BANK_ITEM (guildId tabId slotId : Z)
  | CHAR_DEL_GUILD_BANK_ITEMS (guildId : Z)
  | CHAR_DEL_NONEXISTENT_GUILD_BANK_ITEM (guildId tabId slotId : Z)
  | CHAR_INS_GUILD_BANK_RIGHT (guildId tabId rid rights slots : Z)
  | CHAR_DEL_GUILD_BANK_RIGHTS (guildId : Z)
  | CHAR_DEL_GUILD_BANK_RIGHTS_FOR_RANK (guildId rid : Z)
  | CHAR_INS_GUILD_BANK_EVENTLOG (guildId logGuid tabId eventType player item count dest time : Z)
  | CHAR_DEL_GUILD_BANK_EVENTLOG (guildId logGuid tabId : Z)
  | CHAR_DEL_GUILD_BANK_EVENTLOGS (guildId : Z)
  | CHAR_INS_GUILD_EVENTLOG (guildId logGuid eventType player1 player2 newRank time : Z)
  | CHAR_DEL_GUILD_EVENTLOG (guildId logGuid : Z)
  | CHAR_DEL_GUILD_EVENTLOGS (guildId : Z)
  | CHAR_UPD_GUILD_MEMBER_PNOTE (note : string) (guid : Z)
  | CHAR_UPD_GUILD_MEMBER_OFFNOTE (note : string) (guid : Z)
  | CHAR_UPD_GUILD_MEMBER_RANK (rank guid : Z)
  | CHAR_UPD_GUILD_MOTD (motd : string) (guildId : Z)
  | CHAR_UPD_GUILD_INFO (info : string) (guildId : Z)
  | CHAR_UPD_GUILD_LEADER (guid guildId : Z)
  | CHAR_UPD_GUILD_RANK_NAME (name : string) (rid guildId : Z)
  | CHAR_UPD_GUILD_RANK_RIGHTS (rights rid guildId : Z)
  | CHAR_UPD_GUILD_RANK_BANK_MONEY (money rid guildId : Z)
  | CHAR_UPD_GUILD_EMBLEM_INFO (emblem : list Z) (guildId : Z)
  | CHAR_UPD_GUILD_BANK_TAB_INFO (name icon : string) (guildId tabId : Z)
  | CHAR_UPD_GUILD_BANK_TAB_TEXT (text : string) (guildId tabId : Z)
  | CHAR_UPD_GUILD_BANK_MONEY (money guildId : Z)
  | CHAR_INS_GUILD_MEMBER_WITHDRAW (guid : Z) (values : list Z)
  | CHAR_UDP_CHAR_MONEY (money guid : Z)
  | OnGuildCreate (leader : Z) (name : string)
  | OnGuildDisband
  | OnGuildAddMember (player : option Z) (rankId : Z)
  | OnGuildRemoveMember (player : option Z) (isDisbanding isKicked : bool)
  | OnGuildMOTDChanged (motd : string)
  | OnGuildInfoChanged (info : string)
  | OnGuildMemberDepositMoney (player amount : Z)
  | OnGuildMemberWitdrawMoney (player amount : Z) (repair : bool)
  | OnGuildEvent (eventType player1 player2 newRank : Z)
  | OnGuildBankEvent (eventType tabId player item count dest : Z)
  | OnPlayerMoneyChanged (player amount : Z)
  | StackOverRead (bytes : Z)
  | MoneyChanged (player value : Z)
  | SendEquipError (player msg : Z)
  | RemovePetitionsAndSigns (guid type : Z)
  | RemovePlayerGuildEventsAndSignups (guid guildId : Z)
  | SendCalendarCommandResult (guid err : Z)
  | RemoveGuild (guildId : Z)
  | ItemAddToWorld (item : Z)
  | ItemRemoveFromWorld (item : Z)
  | ItemDeleteFromDB (item : Z)
  | ItemSaveToDB (item : Z) (row : Item)
  | OnGuildItemMove (player item : Z) (isSrcBank : bool) (srcContainer srcSlotId : Z)
      (isDestBank : bool) (destContainer destSlotId : Z)
  | ItemSetChanged (item player : Z)
  | SaveInventoryAndGoldToDB (player : Z)
  | MoveItemFromInventory (player bag slot : Z)
  | DeleteFromInventoryDB (item : Z)
  | MoveItemToInventory (player : Z) (dest : list (Z * Z)) (item : Z).

(** ** [EmblemInfo] *)

Module Emblem.
Record t := mk { m_style : Z; m_color : Z; m_borderStyle : Z; m_borderColor : Z; m_backgroundColor : Z }.
#[global] Instance eta_t : Eta t :=
  λ r, mk (m_style r) (m_color r) (m_borderStyle r) (m_borderColor r) (m_backgroundColor r).
Definition init : t := mk 0 0 0 0 0.
Definition values (e : t) : list Z :=
  [m_style e; m_color e; m_borderStyle e; m_borderColor e; m_backgroundColor e].
Definition ReadPacket : bb t :=
  style ← rshift_unsigned 4; color ← rshift_unsigned 4; borderStyle ← rshift_unsigned 4;
  borderColor ← rshift_unsigned 4; backgroundColor ← rshift_unsigned 4;
  mret (mk style color borderStyle borderColor backgroundColor).
Definition WritePacket (e : t) : list field :=
  [U32 (m_style e); U32 (m_color e); U32 (m_borderStyle e); U32 (m_borderColor e);
   U32 (m_backgroundColor e)].
Definition SaveToDB (guildId : Z) (e : t) : guild_event := CHAR_UPD_GUILD_EMBLEM_INFO (values e) guildId.
Definition LoadFromDB (style color borderStyle borderColor backgroundColor : Z) : t :=
  mk style color borderStyle borderColor backgroundColor.
End Emblem.

(** ** [GuildBankRightsAndSlots] *)

Module RightsAndSlots.
Record t := mk { tabId : Z; rights : Z; slots : Z }.
#[global] Instance eta_t : Eta t := λ r, mk (tabId r) (rights r) (slots r).
Definition init : t := mk TAB_UNDEFINED 0 0.
Definition SetGuildMasterValues (r : t) : t :=
  r <| rights := GUILD_BANK_RIGHT_FULL |> <| slots := u32 GUILD_WITHDRAW_SLOT_UNLIMITED |>.
Definition SetTabId (_tabId : Z) (r : t) : t := r <| tabId := _tabId |>.
Definition GetTabId (r : t) : Z := i8 (tabId r).
Definition GetSlots (r : t) : Z := i32 (slots r).
Definition GetRights (r : t) : Z := i8 (rights r).
End RightsAndSlots.

(** ** Log entries and their holders

    [LogEntry] is the abstract base class: what the holder calls on an entry. *)

Class LogEntry (E : Type) := {
  entry_GetGUID : E → Z;
  entry_SaveToDB : E → list guild_event;
  entry_WritePacket : Z → E → list field }.

Module EventLogEntry.
Record t := mk {
  m_guildId : Z; m_guid : Z; m_timestamp : Z; m_eventType : Z;
  m_playerGuid1 : Z; m_playerGuid2 : Z; m_newRank : Z }.
Definition SaveToDB (e : t) : list guild_event :=
  [CHAR_DEL_GUILD_EVENTLOG (m_guildId e) (m_guid e);
   CHAR_INS_GUILD_EVENTLOG (m_guildId e) (m_guid e) (u8 (m_eventType e)) (m_playerGuid1 e)
     (m_playerGuid2 e) (m_newRank e) (m_timestamp e)].
Definition WritePacket (now : Z) (e : t) : list field :=
  [U8 (u8 (m_eventType e)); U64 (MAKE_NEW_GUID (m_playerGuid1 e) 0 HIGHGUID_PLAYER)] ++
  (if negb (m_eventType e =? GUILD_EVENT_LOG_JOIN_GUILD)
      && negb (m_eventType e =? GUILD_EVENT_LOG_LEAVE_GUILD)
   then [U64 (MAKE_NEW_GUID (m_playerGuid2 e) 0 HIGHGUID_PLAYER)] else []) ++
  (if (m_eventType e =? GUILD_EVENT_LOG_PROMOTE_PLAYER)
      || (m_eventType e =? GUILD_EVENT_LOG_DEMOTE_PLAYER)
   then [U8 (m_newRank e)] else []) ++
  [U32 (u32 (now - m_timestamp e))].
#[global] Instance entry : LogEntry t :=
  {| entry_GetGUID := m_guid; entry_SaveToDB := SaveToDB; entry_WritePacket := WritePacket |}.
End EventLogEntry.

Module BankEventLogEntry.
Record t := mk {
  m_guildId : Z; m_guid : Z; m_timestamp : Z; m_eventType : Z; m_bankTabId : Z;
  m_playerGuid : Z; m_itemOrMoney : Z; m_itemStackCount : Z; m_destTabId : Z }.
Definition IsMoneyEvent (eventType : Z) : bool :=
  (eventType =? GUILD_BANK_LOG_DEPOSIT_MONEY) || (eventType =? GUILD_BANK_LOG_WITHDRAW_MONEY)
  || (eventType =? GUILD_BANK_LOG_REPAIR_MONEY).
Definition SaveToDB (e : t) : list guild_event :=
  [CHAR_DEL_GUILD_BANK_EVENTLOG (m_guildId e) (m_guid e) (m_bankTabId e);
   CHAR_INS_GUILD_BANK_EVENTLOG (m_guildId e) (m_guid e) (m_bankTabId e) (u8 (m_eventType e))
     (m_playerGuid e) (m_itemOrMoney e) (m_itemStackCount e) (m_destTabId e) (m_timestamp e)].
Definition WritePacket (now : Z) (e : t) : list field :=
  [U8 (u8 (m_eventType e)); U64 (MAKE_NEW_GUID (m_playerGuid e) 0 HIGHGUID_PLAYER)] ++
  (if (m_eventType e =? GUILD_BANK_LOG_DEPOSIT_ITEM) || (m_eventType e =? GUILD_BANK_LOG_WITHDRAW_ITEM)
   then [U32 (m_itemOrMoney e); U32 (m_itemStackCount e)]
   else if (m_eventType e =? GUILD_BANK_LOG_MOVE_ITEM) || (m_eventType e =? GUILD_BANK_LOG_MOVE_ITEM2)
   then [U32 (m_itemOrMoney e); U32 (m_itemStackCount e); U8 (m_destTabId e)]
   else [U32 (m_itemOrMoney e)]) ++
  [U32 (u32 (now - m_timestamp e))].
#[global] Instance entry : LogEntry t :=
  {| entry_GetGUID := m_guid; entry_SaveToDB := SaveToDB; entry_WritePacket := WritePacket |}.
End BankEventLogEntry.

Module LogHolder.
Record t (E : Type) := mk { m_log : list E; m_guildId : Z; m_maxRecords : Z; m_nextGUID : Z }.
Arguments mk {E} _ _ _ _.
Arguments m_log {E} _.
Arguments m_guildId {E} _.
Arguments m_maxRecords {E} _.
Arguments m_nextGUID {E} _.
#[global] Instance eta_t E : Eta (t E) :=
  λ r, mk (m_log r) (m_guildId r) (m_maxRecords r) (m_nextGUID r).
Section Ops.
Context {E : Type} `{LogEntry E}.
Definition init (guildId maxRecords : Z) : t E := mk [] guildId maxRecords GUILD_EVENT_LOG_GUID_UNDEFINED.
Definition CanInsert (h : t E) : bool := Z.of_nat (length (m_log h)) <? m_maxRecords h.
Definition LoadEvent (entry : E) (h : t E) : t E :=
  let h := if m_nextGUID h =? GUILD_EVENT_LOG_GUID_UNDEFINED
           then h <| m_nextGUID := entry_GetGUID entry |> else h in
  h <| m_log ::= cons entry |>.
Definition AddEvent (entry : E) : act (t E) guild_event unit :=
  h ← get;
  (if m_maxRecords h <=? Z.of_nat (length (m_log h)) then
     match m_log h with
     | [] => raise OutOfBounds
     | _ :: rest => modify (λ h, h <| m_log := rest |>)
     end
   else mret tt) ;;
  modify (λ h, h <| m_log ::= λ l, l ++ [entry] |>) ;;
  forM_ (entry_SaveToDB entry) emit.
Definition WritePacket (now : Z) (h : t E) : list field :=
  U8 (u8 (Z.of_nat (length (m_log h)))) :: (m_log h ≫= entry_WritePacket now).
Definition GetNextGUID : act (t E) guild_event Z :=
  h ← get;
  (if m_nextGUID h =? GUILD_EVENT_LOG_GUID_UNDEFINED
   then modify (λ h, h <| m_nextGUID := 0 |>)
   else if m_maxRecords h =? 0 then raise DivisionByZero
   else modify (λ h, h <| m_nextGUID := u32 (m_nextGUID h + 1) mod m_maxRecords h |>)) ;;
  gets m_nextGUID.
End Ops.
End LogHolder.

(** ** [RankInfo] *)

Module RankInfo.
Record t := mk {
  m_guildId : Z; m_rankId : Z; m_name : string; m_rights : Z; m_bankMoneyPerDay : Z;
  m_bankTabRightsAndSlots : list RightsAndSlots.t }.
#[global] Instance eta_t : Eta t := λ r,
  mk (m_guildId r) (m_rankId r) (m_name r) (m_rights r) (m_bankMoneyPerDay r) (m_bankTabRightsAndSlots r).
Notation rankact := (act t guild_event).
Definition new (guildId rankId : Z) (name : string) (rights money : Z) : t :=
  mk guildId rankId name rights money (replicate 6 RightsAndSlots.init).
(** Columns 1 to 4 of the row. *)
Definition LoadFromDB (rid : Z) (rname : string) (rights money : Z) (r : t) : t :=
  let r := r <| m_rankId := rid |> <| m_name := rname |> <| m_rights := rights |>
             <| m_bankMoneyPerDay := money |> in
  if m_rankId r =? GR_GUILDMASTER then r <| m_rights ::= λ x, Z.lor x GR_RIGHT_ALL |> else r.
Definition SaveToDB (r : t) : guild_event :=
  CHAR_INS_GUILD_RANK (m_guildId r) (m_rankId r) (m_name r) (m_rights r).
Definition CreateMissingTabsIfNeeded (tabs : Z) : rankact unit :=
  forM_ (seqZ 0 tabs) (λ i,
    r ← get;
    match m_bankTabRightsAndSlots r !! Z.to_nat i with
    | None => raise OutOfBounds
    | Some rightsAndSlots =>
        if RightsAndSlots.GetTabId rightsAndSlots =? i then mret tt else
        let rs := RightsAndSlots.SetTabId i rightsAndSlots in
        let rs := if m_rankId r =? GR_GUILDMASTER then RightsAndSlots.SetGuildMasterValues rs else rs in
        modify (λ r, r <| m_bankTabRightsAndSlots ::= <[Z.to_nat i := rs]> |>) ;;
        emit (CHAR_INS_GUILD_BANK_RIGHT (m_guildId r) i (m_rankId r)
                (u8 (RightsAndSlots.GetRights rs)) (u32 (RightsAndSlots.GetSlots rs)))
    end).
Definition WritePacket (r : t) : list field :=
  [U32 (m_rights r);
   if m_bankMoneyPerDay r =? GUILD_WITHDRAW_MONEY_UNLIMITED
   then U32 GUILD_WITHDRAW_MONEY_UNLIMITED else U32 (m_bankMoneyPerDay r)] ++
  (m_bankTabRightsAndSlots r ≫= λ x,
     [U32 (u32 (RightsAndSlots.GetRights x)); U32 (u32 (RightsAndSlots.GetSlots x))]).
Definition SetName (name : string) : rankact unit :=
  r ← get;
  if String.eqb (m_name r) name then mret tt else
  modify (λ r, r <| m_name := name |>) ;;
  emit (CHAR_UPD_GUILD_RANK_NAME name (m_rankId r) (m_guildId r)).
Definition SetRights (rights : Z) : rankact unit :=
  r ← get;
  let rights := if m_rankId r =? GR_GUILDMASTER then GR_RIGHT_ALL else rights in
  if m_rights r =? rights then mret tt else
  modify (λ r, r <| m_rights := rights |>) ;;
  emit (CHAR_UPD_GUILD_RANK_RIGHTS rights (m_rankId r) (m_guildId r)).
Definition SetBankMoneyPerDay (money : Z) : rankact unit :=
  r ← get;
  let money := if m_rankId r =? GR_GUILDMASTER then u32 GUILD_WITHDRAW_MONEY_UNLIMITED else money in
  if m_bankMoneyPerDay r =? money then mret tt else
  modify (λ r, r <| m_bankMoneyPerDay := money |>) ;;
  emit (CHAR_UPD_GUILD_RANK_BANK_MONEY money (m_rankId r) (m_guildId r)).
Definition GetBankMoneyPerDay (r : t) : Z := i32 (m_bankMoneyPerDay r).
Definition GetBankTabRights (tabId : Z) (r : t) : Z :=
  if tabId <? GUILD_BANK_MAX_TABS then
    match m_bankTabRightsAndSlots r !! Z.to_nat tabId with
    | Some x => RightsAndSlots.GetRights x | None => 0 end
  else 0.
Definition GetBankTabSlotsPerDay (tabId : Z) (r : t) : Z :=
  if tabId <? GUILD_BANK_MAX_TABS then
    match m_bankTabRightsAndSlots r !! Z.to_nat tabId with
    | Some x => RightsAndSlots.GetSlots x | None => 0 end
  else 0.
(** The array is indexed by a signed byte, without a check. *)
Definition SetBankTabSlotsAndRights (rightsAndSlots : RightsAndSlots.t) (saveToDB : bool) : rankact unit :=
  r ← get;
  let rs := if m_rankId r =? GR_GUILDMASTER then RightsAndSlots.SetGuildMasterValues rightsAndSlots
            else rightsAndSlots in
  let i := RightsAndSlots.GetTabId rs in
  if (i <? 0) || (GUILD_BANK_MAX_TABS <=? i) then raise OutOfBounds else
  modify (λ r, r <| m_bankTabRightsAndSlots ::= <[Z.to_nat i := rs]> |>) ;;
  when saveToDB
    (emit (CHAR_INS_GUILD_BANK_RIGHT (m_guildId r) (u8 i) (m_rankId r)
             (u8 (RightsAndSlots.GetRights rs)) (u32 (RightsAndSlots.GetSlots rs)))).
End RankInfo.

(** ** Players

    What the guild uses of an online player, with the fields it changes. *)

Record Player := mkPlayer {
  p_name : string; p_team : Z; p_level : Z; p_class : Z; p_zone : Z; p_account : Z;
  p_locale : Z; p_chatTag : Z; p_social : PlayerSocial;
  PLAYER_GUILDID : Z; PLAYER_GUILDRANK : Z; m_GuildIdInvited : Z; PLAYER_FIELD_COINAGE : Z }.
#[export] Instance eta_Player : Eta Player := λ r,
  mkPlayer (p_name r) (p_team r) (p_level r) (p_class r) (p_zone r) (p_account r) (p_locale r)
    (p_chatTag r) (p_social r) (PLAYER_GUILDID r) (PLAYER_GUILDRANK r) (m_GuildIdInvited r)
    (PLAYER_FIELD_COINAGE r).

(** ** [Member] *)

Module Member.
Record t := mk {
  m_guildId : Z; m_guid : Z; m_name : string; m_zoneId : Z; m_level : Z; m_class : Z; m_flags : Z;
  m_logoutTime : Z; m_accountId : Z; m_rankId : Z; m_publicNote : string; m_officerNote : string;
  m_bankWithdraw : list Z }.
#[global] Instance eta_t : Eta t := λ r,
  mk (m_guildId r) (m_guid r) (m_name r) (m_zoneId r) (m_level r) (m_class r) (m_flags r)
    (m_logoutTime r) (m_accountId r) (m_rankId r) (m_publicNote r) (m_officerNote r) (m_bankWithdraw r).
Notation memberact := (act t guild_event).
(** The constructor leaves [m_flags] uninitialised: [garbage] is what is there. *)
Definition new (garbage now guildId guid rankId : Z) : t :=
  mk guildId guid "" 0 0 0 garbage now 0 rankId "" "" (replicate 7 0).
Definition SetStats_player (p : Player) (m : t) : t :=
  m <| m_name := p_name p |> <| m_level := p_level p |> <| m_class := p_class p |>
    <| m_zoneId := p_zone p |> <| m_accountId := p_account p |>.
Definition SetStats (name : string) (level _class zoneId accountId : Z) (m : t) : t :=
  m <| m_name := name |> <| m_level := level |> <| m_class := _class |>
    <| m_zoneId := zoneId |> <| m_accountId := accountId |>.
Definition CheckStats (m : t) : bool :=
  if m_level m <? 1 then false
  else if (m_class m <? CLASS_WARRIOR) || (MAX_CLASSES <=? m_class m) then false else true.
Definition SetZoneID (id : Z) (m : t) : t := m <| m_zoneId := id |>.
Definition SetLevel (var : Z) (m : t) : t := m <| m_level := var |>.
Definition AddFlag (var : Z) (m : t) : t := m <| m_flags ::= λ f, Z.lor f var |>.
Definition RemFlag (var : Z) (m : t) : t := m <| m_flags ::= λ f, Z.ldiff f var |>.
Definition ResetFlags (m : t) : t := m <| m_flags := GUILDMEMBER_STATUS_NONE |>.
Definition IsRank (rankId : Z) (m : t) : bool := m_rankId m =? rankId.
Definition IsRankNotLower (rankId : Z) (m : t) : bool := m_rankId m <=? rankId.
Definition IsSamePlayer (guid : Z) (m : t) : bool := m_guid m =? guid.
Definition SetPublicNote (publicNote : string) : memberact unit :=
  m ← get;
  if String.eqb (m_publicNote m) publicNote then mret tt else
  modify (λ m, m <| m_publicNote := publicNote |>) ;;
  emit (CHAR_UPD_GUILD_MEMBER_PNOTE publicNote (GUID_LOPART (m_guid m))).
Definition SetOfficerNote (officerNote : string) : memberact unit :=
  m ← get;
  if String.eqb (m_officerNote m) officerNote then mret tt else
  modify (λ m, m <| m_officerNote := officerNote |>) ;;
  emit (CHAR_UPD_GUILD_MEMBER_OFFNOTE officerNote (GUID_LOPART (m_guid m))).
Definition SaveToDB (m : t) : guild_event :=
  CHAR_INS_GUILD_MEMBER (m_guildId m) (GUID_LOPART (m_guid m)) (m_rankId m) (m_publicNote m)
    (m_officerNote m).
(** [float(float(secs) / DAY)] as its 32 bits. *)
Definition f32_bits (x : spec_float) : Z :=
  match x with
  | S754_zero s => if s then 2 ^ 31 else 0
  | S754_infinity s => (if s then 2 ^ 31 else 0) + 255 * 2 ^ 23
  | S754_nan => 255 * 2 ^ 23 + 2 ^ 22
  | S754_finite s m e => (if s then 2 ^ 31 else 0) + (e + 149) * 2 ^ 23 + Zpos m
  end.
Definition days_offline (secs : Z) : Z :=
  f32_bits (SFdiv 24 128 (binary_normalize 24 128 secs 0 false) (binary_normalize 24 128 DAY 0 false)).
Definition WritePacket (now : Z) (m : t) : list field :=
  [U64 (m_guid m); U8 (m_flags m); Str (m_name m); U32 (m_rankId m); U8 (m_level m); U8 (m_class m);
   U8 0; U32 (m_zoneId m)] ++
  (if m_flags m =? 0 then [F32 (days_offline (u64 (now - m_logoutTime m)))] else []) ++
  [Str (m_publicNote m); Str (m_officerNote m)].
Definition UpdateBankWithdrawValue (tabId amount : Z) : memberact unit :=
  if GUILD_BANK_MAX_TABS <? tabId then raise OutOfBounds else
  modify (λ m, m <| m_bankWithdraw ::= alter (λ w, i32 (w + amount)) (Z.to_nat tabId) |>) ;;
  m ← get;
  emit (CHAR_INS_GUILD_MEMBER_WITHDRAW (GUID_LOPART (m_guid m)) (wrapu 32 <$> m_bankWithdraw m)).
Definition ResetValues (m : t) : t := m <| m_bankWithdraw := replicate 7 0 |>.
(** The callers pass a tab that exists or [GUILD_BANK_MAX_TABS]. *)
Definition GetBankWithdrawValue (tabId : Z) (m : t) : Z :=
  if IsRank GR_GUILDMASTER m then
    i32 (if tabId =? GUILD_BANK_MAX_TABS then GUILD_WITHDRAW_MONEY_UNLIMITED
         else GUILD_WITHDRAW_SLOT_UNLIMITED)
  else nth (Z.to_nat tabId) (m_bankWithdraw m) 0.
End Member.

(** ** [BankTab] *)

Module BankTab.
Record t := mk {
  m_guildId : Z; m_tabId : Z; m_items : gmap Z Z; m_name : string; m_icon : string; m_text : string }.
#[global] Instance eta_t : Eta t := λ r,
  mk (m_guildId r) (m_tabId r) (m_items r) (m_name r) (m_icon r) (m_text r).
Notation tabact := (act t guild_event).
Definition new (guildId tabId : Z) : t := mk guildId tabId ∅ "" "" "".
Definition LoadFromDB (name icon text : string) (b : t) : t :=
  b <| m_name := name |> <| m_icon := icon |> <| m_text := text |>.
Definition GetItem (slotId : Z) (b : t) : option Z :=
  if slotId <? GUILD_BANK_MAX_SLOTS then m_items b !! slotId else None.
(** The caller deletes the tab right after: the pointers in the slots stay. *)
Definition Delete (removeItemsFromDB : bool) (b : t) : list guild_event :=
  seqZ 0 GUILD_BANK_MAX_SLOTS ≫= λ slotId,
    match m_items b !! slotId with
    | Some pItem => ItemRemoveFromWorld pItem ::
                    (if removeItemsFromDB then [ItemDeleteFromDB pItem] else [])
    | None => []
    end.
(** The enchantments present, with their slots. *)
Definition enchantments (it : Item) : list field :=
  imap (λ i e, (Z.of_nat i, e)) (m_enchantments it) ≫= λ ie,
    if ie.2 =? 0 then [] else [U8 ie.1; U32 ie.2].
Definition enchCount (it : Item) : Z :=
  Z.of_nat (length (filter (λ e, e ≠ 0) (m_enchantments it))).
(** What is written for a slot: nothing where the code returns false. *)
Definition WriteSlotPacket (items : gmap Z Item) (slotId : Z) (ignoreEmpty : bool) (b : t) : list field :=
  match GetItem slotId b ≫= λ p, items !! p with
  | Some it =>
      if GetEntry it =? 0 then if ignoreEmpty then [] else [U8 slotId; U32 0] else
      [U8 slotId; U32 (GetEntry it); U32 0] ++
      (if negb (GetItemRandomPropertyId it =? 0)
       then [U32 (u32 (GetItemRandomPropertyId it)); U32 (GetItemSuffixFactor it)] else [U32 0]) ++
      [U32 (GetCount it); U32 0; U8 (u8 (Z.abs (GetSpellCharges it))); U8 (u8 (enchCount it))] ++
      enchantments it
  | None => if ignoreEmpty then [] else [U8 slotId; U32 0]
  end.
Definition WritePacket (items : gmap Z Item) (b : t) : list field :=
  let slots := (λ s, WriteSlotPacket items s true b) <$> seqZ 0 GUILD_BANK_MAX_SLOTS in
  U8 (u8 (Z.of_nat (length (filter (λ fs : list field, fs ≠ []) slots)))) :: mjoin slots.
Definition WriteInfoPacket (b : t) : list field := [Str (m_name b); Str (m_icon b)].
Definition SetInfo (name icon : string) : tabact unit :=
  b ← get;
  if String.eqb (m_name b) name && String.eqb (m_icon b) icon then mret tt else
  modify (λ b, b <| m_name := name |> <| m_icon := icon |>) ;;
  emit (CHAR_UPD_GUILD_BANK_TAB_INFO name icon (m_guildId b) (m_tabId b)).
Definition SetText `{SocialEnv} (text : string) : tabact unit :=
  b ← get;
  if String.eqb (m_text b) text then mret tt else
  modify (λ b, b <| m_text := utf8truncate text MAX_GUILD_BANK_TAB_TEXT_LEN |>) ;;
  b ← get;
  emit (CHAR_UPD_GUILD_BANK_TAB_TEXT (m_text b) (m_guildId b) (m_tabId b)).
End BankTab.

(** ** [Guild] *)

Record Guild := mkGuild {
  m_id : Z; m_name : string; m_leaderGuid : Z; m_motd : string; m_info : string; m_createdDate : Z;
  m_emblemInfo : Emblem.t; m_accountsNumber : Z; m_bankMoney : Z;
  m_ranks : list RankInfo.t; m_members : gmap Z Member.t; m_bankTabs : list BankTab.t;
  m_eventLog : LogHolder.t EventLogEntry.t;
  m_bankEventLog : list (LogHolder.t BankEventLogEntry.t) }.
#[export] Instance eta_Guild : Eta Guild := λ r,
  mkGuild (m_id r) (m_name r) (m_leaderGuid r) (m_motd r) (m_info r) (m_createdDate r)
    (m_emblemInfo r) (m_accountsNumber r) (m_bankMoney r) (m_ranks r) (m_members r) (m_bankTabs r)
    (m_eventLog r) (m_bankEventLog r).
(** The log holders are NULL until they are created; nothing uses them before. *)
Definition new_Guild : Guild :=
  mkGuild 0 "" 0 "" "" 0 Emblem.init 0 0 [] ∅ [] (LogHolder.init 0 0) [].

(** A guild with the players in the world, by guid, and the bank's items. *)
Record GuildWorld := mkGuildWorld {
  guild : Guild; players : gmap Z Player; items : gmap Z Item }.
#[export] Instance eta_GuildWorld : Eta GuildWorld :=
  λ r, mkGuildWorld (guild r) (players r) (items r).
Notation gact := (act GuildWorld guild_event).

(** The order in which an [UNORDERED_MAP] is iterated, the clock, the contents
    of uninitialised memory, the configuration, and what the database and the
    object manager answer.  [StackWord] is what follows a local of four bytes.
    A script gets the amount of a deposit, a withdrawal or a change of money by
    reference: the three hooks give what it leaves there. *)
Class GuildEnv := {
  guild_social_env :: SocialEnv;
  hash_iter : ∀ {V}, gmap Z V → list (Z * V);
  time_now : Z;
  UninitFlags : Z;
  StackWord : Z;
  OnMemberDepositMoney : Z → Z → Z;
  OnMemberWitdrawMoney : Z → Z → bool → Z;
  OnMoneyChanged : Z → Z → Z;
  CONFIG_ALLOW_TWO_SIDE_INTERACTION_GUILD : bool;
  CONFIG_GUILD_EVENT_LOG_COUNT : Z;
  CONFIG_GUILD_BANK_EVENT_LOG_COUNT : Z;
  AllowMultipleGuildMaster : bool;
  guild_rank_name : Z → Z → string;
  GetGuildIdFromDB : Z → Z;
  CHAR_SEL_CHAR_DATA_FOR_GUILD : Z → option (string * Z * Z * Z * Z);
  GetPlayerTeamByGUID : Z → Z;
  GetLevelFromDB : Z → Z;
  GetZoneIdFromDB : Z → Z;
  IsReservedName : string → bool;
  IsValidCharterName : string → bool;
  localtime_r : Z → tm }.
Class GuildLaws `{GuildEnv} := {
  hash_iter_perm {V} (m : gmap Z V) : hash_iter m ≡ₚ map_to_list m }.

Section GuildOps.
Context `{GuildEnv}.

(** *** Access *)

Definition on_guild (f : Guild → Guild) : gact unit := modify (λ w, w <| guild ::= f |>).
Definition on_player (guid : Z) (f : Player → Player) : gact unit :=
  modify (λ w, w <| players ::= alter f guid |>).
Definition on_member (k : Z) (f : Member.t → Member.t) : gact unit :=
  on_guild (λ g, g <| m_members ::= alter f k |>).
Definition FindPlayer (guid : Z) (w : GuildWorld) : option Player := players w !! guid.
(** [session->GetPlayer()]. *)
Definition player_of (guid : Z) : gact Player := w ← get; require (players w !! guid).

Definition _GetRanksSize (g : Guild) : Z := u8 (Z.of_nat (length (m_ranks g))).
Definition _GetLowestRankId (g : Guild) : Z := u8 (Z.of_nat (length (m_ranks g)) - 1).
Definition _GetPurchasedTabsSize (g : Guild) : Z := u8 (Z.of_nat (length (m_bankTabs g))).
Definition GetRankInfo (rankId : Z) (g : Guild) : option RankInfo.t :=
  if rankId <? _GetRanksSize g then m_ranks g !! Z.to_nat rankId else None.
Definition GetBankTab (tabId : Z) (g : Guild) : option BankTab.t :=
  if tabId <? Z.of_nat (length (m_bankTabs g)) then m_bankTabs g !! Z.to_nat tabId else None.
(** A [Member*] is the key of the map, the low part of the guid. *)
Definition GetMember (guid : Z) (g : Guild) : option Member.t := m_members g !! GUID_LOPART guid.
Definition GetMember_name (name : string) (g : Guild) : option (Z * Member.t) :=
  head (filter (λ km, Member.m_name km.2 = name) (hash_iter (m_members g))).

(** A method of a rank, a member or a tab that is known to be there. *)
Definition at_rank (i : nat) (op : RankInfo.rankact unit) : gact unit := λ w,
  match m_ranks (guild w) !! i with
  | None => Fault OutOfBounds w []
  | Some r => zoom (λ _ : GuildWorld, r)
                (λ r' w, w <| guild ::= λ g, g <| m_ranks ::= <[i := r']> |> |>) op w
  end.
Definition at_member (k : Z) (op : Member.memberact unit) : gact unit := λ w,
  match m_members (guild w) !! k with
  | None => Fault NullDeref w []
  | Some m => zoom (λ _ : GuildWorld, m)
                (λ m' w, w <| guild ::= λ g, g <| m_members ::= <[k := m']> |> |>) op w
  end.
Definition at_tab (i : nat) (op : BankTab.tabact unit) : gact unit := λ w,
  match m_bankTabs (guild w) !! i with
  | None => Fault OutOfBounds w []
  | Some b => zoom (λ _ : GuildWorld, b)
                (λ b' w, w <| guild ::= λ g, g <| m_bankTabs ::= <[i := b']> |> |>) op w
  end.
Definition in_eventLog {A} (op : act (LogHolder.t EventLogEntry.t) guild_event A) : gact A :=
  zoom (λ w, m_eventLog (guild w)) (λ h w, w <| guild ::= λ g, g <| m_eventLog := h |> |>) op.
Definition in_bankEventLog {A} (i : nat) (op : act (LogHolder.t BankEventLogEntry.t) guild_event A) :
    gact A := λ w,
  match m_bankEventLog (guild w) !! i with
  | None => Fault OutOfBounds w []
  | Some h => zoom (λ _ : GuildWorld, h)
                (λ h' w, w <| guild ::= λ g, g <| m_bankEventLog ::= <[i := h']> |> |>) op w
  end.

(** *** Rights *)

Definition _GetRankRights (rankId : Z) (g : Guild) : Z :=
  match GetRankInfo rankId g with Some r => RankInfo.m_rights r | None => 0 end.
Definition _HasRankRight (guid right : Z) (g : Guild) : bool :=
  match GetMember guid g with
  | Some member =>
      negb (Z.land (_GetRankRights (Member.m_rankId member) g) right =? GR_RIGHT_EMPTY)
  | None => false
  end.
Definition _IsLeader (guid : Z) (g : Guild) : bool :=
  if guid =? m_leaderGuid g then true
  else match GetMember guid g with Some member => Member.IsRank GR_GUILDMASTER member | None => false end.
Definition _GetRankName (rankId : Z) (g : Guild) : string :=
  match GetRankInfo rankId g with Some r => RankInfo.m_name r | None => "<unknown>" end.
Definition _GetRankBankMoneyPerDay (rankId : Z) (g : Guild) : Z :=
  match GetRankInfo rankId g with Some r => RankInfo.GetBankMoneyPerDay r | None => 0 end.
Definition _GetRankBankTabSlotsPerDay (rankId tabId : Z) (g : Guild) : Z :=
  if tabId <? _GetPurchasedTabsSize g then
    match GetRankInfo rankId g with Some r => RankInfo.GetBankTabSlotsPerDay tabId r | None => 0 end
  else 0.
Definition _GetRankBankTabRights (rankId tabId : Z) (g : Guild) : Z :=
  match GetRankInfo rankId g with Some r => RankInfo.GetBankTabRights tabId r | None => 0 end.
Definition _GetMemberRemainingSlots (member : Member.t) (tabId : Z) (g : Guild) : Z :=
  let rankId := Member.m_rankId member in
  if rankId =? GR_GUILDMASTER then i32 GUILD_WITHDRAW_SLOT_UNLIMITED
  else if has_flag (_GetRankBankTabRights rankId tabId g) GUILD_BANK_RIGHT_VIEW_TAB then
    let remaining := i32 (_GetRankBankTabSlotsPerDay rankId tabId g
                          - Member.GetBankWithdrawValue tabId member) in
    if 0 <? remaining then remaining else 0
  else 0.
Definition _GetMemberRemainingMoney (member : Member.t) (g : Guild) : Z :=
  let rankId := Member.m_rankId member in
  if rankId =? GR_GUILDMASTER then i32 GUILD_WITHDRAW_MONEY_UNLIMITED
  else if has_flag (_GetRankRights rankId g) (Z.lor GR_RIGHT_WITHDRAW_REPAIR GR_RIGHT_WITHDRAW_GOLD) then
    let remaining := i32 (_GetRankBankMoneyPerDay rankId g
                          - Member.GetBankWithdrawValue GUILD_BANK_MAX_TABS member) in
    if 0 <? remaining then remaining else 0
  else 0.
(** The rights of a tab are a signed byte, widened before the [&]. *)
Definition _MemberHasTabRights (guid tabId rights : Z) (g : Guild) : bool :=
  match GetMember guid g with
  | Some member =>
      if Member.IsRank GR_GUILDMASTER member || (m_leaderGuid g =? guid) then true
      else Z.land (u32 (_GetRankBankTabRights (Member.m_rankId member) tabId g)) rights =? rights
  | None => false
  end.

(** *** Packets *)

Definition stream_all (data : WorldPacket) (fs : list field) : WorldPacket := foldl stream data fs.
Definition SendCommandResult (session type errCode : Z) (param : string) : gact unit :=
  emit (Send session (Initialize SMSG_GUILD_COMMAND_RESULT <+ U32 type <+ Str param <+ U32 errCode)).
Definition SendSaveEmblemResult (session errCode : Z) : gact unit :=
  emit (Send session (Initialize MSG_SAVE_GUILD_EMBLEM <+ U32 errCode)).
Definition BroadcastPacket (packet : WorldPacket) : gact unit :=
  w ← get;
  forM_ (hash_iter (m_members (guild w))) (λ km,
    match FindPlayer (Member.m_guid km.2) w with
    | Some _ => emit (Send (Member.m_guid km.2) packet)
    | None => mret tt
    end).
Definition BroadcastPacketToRank (packet : WorldPacket) (rankId : Z) : gact unit :=
  w ← get;
  forM_ (hash_iter (m_members (guild w))) (λ km,
    when (Member.IsRank rankId km.2)
      match FindPlayer (Member.m_guid km.2) w with
      | Some _ => emit (Send (Member.m_guid km.2) packet)
      | None => mret tt
      end).
(** The parameters that are given, at most three. *)
Definition _BroadcastEvent (guildEvent guid : Z) (params : list string) : gact unit :=
  let data := Initialize SMSG_GUILD_EVENT <+ U8 guildEvent <+ U8 (Z.of_nat (length params)) in
  let data := stream_all data (Str <$> params) in
  let data := if negb (guid =? 0) then data <+ U64 guid else data in
  BroadcastPacket data.
Definition FillMessageData (session : Z) (chatTag type language : Z) (message : string) : WorldPacket :=
  Initialize SMSG_MESSAGECHAT <+ U8 type <+ U32 language <+ U64 session <+ U32 0 <+ U64 session
    <+ U32 (u32 (Z.of_nat (String.length message) + 1)) <+ Str message <+ U8 chatTag.
(** [listens] is who of the members online is sent the message. *)
Definition listens (officerOnly : bool) (speaker : Z) (g : Guild) (guid : Z) (p : Player) : bool :=
  _HasRankRight guid (if officerOnly then GR_RIGHT_OFFCHATLISTEN else GR_RIGHT_GCHATLISTEN) g
  && negb (Social.HasIgnore (GUID_LOPART speaker) (p_social p)).
Definition BroadcastToGuild (session : Z) (officerOnly : bool) (msg : string) (language : Z) : gact unit :=
  w ← get;
  me ← player_of session;
  when (_HasRankRight session (if officerOnly then GR_RIGHT_OFFCHATSPEAK else GR_RIGHT_GCHATSPEAK) (guild w))
    (let data := FillMessageData session (p_chatTag me)
                   (if officerOnly then CHAT_MSG_OFFICER else CHAT_MSG_GUILD) language msg in
     forM_ (hash_iter (m_members (guild w))) (λ km,
       match FindPlayer (Member.m_guid km.2) w with
       | Some p => when (listens officerOnly session (guild w) (Member.m_guid km.2) p)
                     (emit (Send (Member.m_guid km.2) data))
       | None => mret tt
       end)).
Definition HandleRoster (session : option Z) : gact unit :=
  w ← get;
  let g := guild w in
  let data := Initialize SMSG_GUILD_ROSTER <+ U32 (u32 (Z.of_nat (base.size (m_members g))))
                <+ Str (m_motd g) <+ Str (m_info g) <+ U32 (_GetRanksSize g) in
  let data := stream_all data (m_ranks g ≫= RankInfo.WritePacket) in
  let data := stream_all data (hash_iter (m_members g) ≫= λ km, Member.WritePacket time_now km.2) in
  match session with
  | Some guid => emit (Send guid data)
  | None => BroadcastPacket data
  end.
Definition HandleQuery (session : Z) : gact unit :=
  w ← get;
  let g := guild w in
  let data := Initialize SMSG_GUILD_QUERY_RESPONSE <+ U32 (m_id g) <+ Str (m_name g) in
  let data := stream_all data ((λ i, if i <? _GetRanksSize g
      then match m_ranks g !! Z.to_nat i with Some r => Str (RankInfo.m_name r) | None => U8 0 end
      else U8 0) <$> seqZ 0 GUILD_RANKS_MAX_COUNT) in
  let data := stream_all data (Emblem.WritePacket (m_emblemInfo g)) in
  emit (Send session (data <+ U32 (_GetRanksSize g))).
Definition SendInfo (session : Z) : gact unit :=
  w ← get;
  let g := guild w in
  emit (Send session (Initialize SMSG_GUILD_INFO <+ Str (m_name g)
    <+ U32 (u32 (pack_time (localtime_r (m_createdDate g))))
    <+ U32 (u32 (Z.of_nat (base.size (m_members g)))) <+ U32 (m_accountsNumber g))).
Definition SendEventLog (session : Z) : gact unit :=
  w ← get;
  emit (Send session (stream_all (Initialize MSG_GUILD_EVENT_LOG_QUERY)
    (LogHolder.WritePacket time_now (m_eventLog (guild w))))).
Definition SendBankLog (session tabId : Z) : gact unit :=
  w ← get;
  when ((tabId <? _GetPurchasedTabsSize (guild w)) || (tabId =? GUILD_BANK_MAX_TABS))
    (pLog ← in_bankEventLog (Z.to_nat tabId) get;
     emit (Send session (stream_all (Initialize MSG_GUILD_BANK_LOG_QUERY <+ U8 tabId)
       (LogHolder.WritePacket time_now pLog)))).
(** The bank's contents.  Without a session it goes to every member online who
    may view the tab, each with the slots he has left today. *)
Definition bank_list (tabId : Z) (sendAllSlots : bool) (slots : option (gset Z)) (w : GuildWorld)
    (numSlots : Z) : WorldPacket :=
  let g := guild w in
  let data := Initialize SMSG_GUILD_BANK_LIST <+ U64 (m_bankMoney g) <+ U8 tabId
                <+ U32 (u32 numSlots) <+ U8 (if sendAllSlots then 1 else 0) in
  let data := if sendAllSlots && (tabId =? 0)
              then stream_all (data <+ U8 (_GetPurchasedTabsSize g)) (m_bankTabs g ≫= BankTab.WriteInfoPacket)
              else data in
  match GetBankTab tabId g, slots with
  | None, _ => data <+ U8 0
  | Some tab, _ =>
      if sendAllSlots then stream_all data (BankTab.WritePacket (items w) tab) else
      match slots with
      | Some slots =>
          if bool_decide (slots = ∅) then data <+ U8 0 else
          stream_all (data <+ U8 (u8 (Z.of_nat (base.size slots))))
            (set_iter slots ≫= λ s, BankTab.WriteSlotPacket (items w) s false tab)
      | None => data <+ U8 0
      end
  end.
Definition _SendBankList (session : option Z) (tabId : Z) (sendAllSlots : bool) (slots : option (gset Z)) :
    gact unit :=
  w ← get;
  let g := guild w in
  match session with
  | Some guid =>
      let numSlots := match GetMember guid g with
                      | Some member => _GetMemberRemainingSlots member tabId g | None => 0 end in
      emit (Send guid (bank_list tabId sendAllSlots slots w numSlots))
  | None =>
      forM_ (hash_iter (m_members g)) (λ km,
        if negb (_MemberHasTabRights (Member.m_guid km.2) tabId GUILD_BANK_RIGHT_VIEW_TAB g) then mret tt
        else match FindPlayer (Member.m_guid km.2) w with
             | None => mret tt
             | Some _ => emit (Send (Member.m_guid km.2)
                 (bank_list tabId sendAllSlots slots w (_GetMemberRemainingSlots km.2 tabId g)))
             end)
  end.
Definition SendBankTabsInfo (session : Z) (sendAllSlots : bool) : gact unit :=
  _SendBankList (Some session) 0 sendAllSlots None.
Definition _SendBankContent (session tabId : Z) : gact unit :=
  w ← get;
  if negb (_MemberHasTabRights session tabId GUILD_BANK_RIGHT_VIEW_TAB (guild w)) then mret tt
  else _SendBankList (Some session) tabId true None.
Definition SendBankTabData (session tabId : Z) : gact unit :=
  w ← get; when (tabId <? _GetPurchasedTabsSize (guild w)) (_SendBankContent session tabId).
Definition text_packet (tab : BankTab.t) : WorldPacket :=
  Initialize MSG_QUERY_GUILD_BANK_TEXT <+ U8 (BankTab.m_tabId tab) <+ Str (BankTab.m_text tab).
Definition SendText (tab : BankTab.t) (session : option Z) : gact unit :=
  match session with
  | Some guid => emit (Send guid (text_packet tab))
  | None => BroadcastPacket (text_packet tab)
  end.
Definition SendBankTabText (session tabId : Z) : gact unit :=
  w ← get;
  match GetBankTab tabId (guild w) with Some tab => SendText tab (Some session) | None => mret tt end.
Definition SendPermissions (session : Z) : gact unit :=
  w ← get;
  let g := guild w in
  match GetMember session g with
  | None => mret tt
  | Some member =>
      let rankId := Member.m_rankId member in
      let data := Initialize MSG_GUILD_PERMISSIONS <+ U32 rankId <+ U32 (_GetRankRights rankId g)
                    <+ U32 (u32 (_GetMemberRemainingMoney member g)) <+ U8 (_GetPurchasedTabsSize g) in
      emit (Send session (stream_all data (seqZ 0 GUILD_BANK_MAX_TABS ≫= λ tabId,
        [U32 (u32 (_GetRankBankTabRights rankId tabId g));
         U32 (u32 (_GetMemberRemainingSlots member tabId g))])))
  end.
Definition SendMoneyInfo (session : Z) : gact unit :=
  w ← get;
  match GetMember session (guild w) with
  | None => mret tt
  | Some member => emit (Send session (Initialize MSG_GUILD_BANK_MONEY_WITHDRAWN
                     <+ I32 (_GetMemberRemainingMoney member (guild w))))
  end.
Definition SendLoginInfo (session : Z) : gact unit :=
  w ← get;
  emit (Send session (Initialize SMSG_GUILD_EVENT <+ U8 GE_MOTD <+ U8 1 <+ Str (m_motd (guild w)))) ;;
  SendBankTabsInfo session false ;;
  player ← player_of session;
  HandleRoster (Some session) ;;
  _BroadcastEvent GE_SIGNED_ON session [p_name player] ;;
  on_member (GUID_LOPART session) (λ m, Member.AddFlag GUILDMEMBER_STATUS_ONLINE (Member.SetStats_player player m)).

(** *** Players *)

Definition SetMoney (guid value : Z) : gact unit :=
  on_player guid (λ p, p <| PLAYER_FIELD_COINAGE := value |>) ;; emit (MoneyChanged guid value).
Definition ModifyMoney (guid amount : Z) : gact bool :=
  if amount =? 0 then mret true else
  emit (OnPlayerMoneyChanged guid amount) ;;
  let amount := i32 (OnMoneyChanged guid amount) in
  p ← player_of guid;
  let money := PLAYER_FIELD_COINAGE p in
  if amount <? 0 then
    SetMoney guid (if u32 (- amount) <? money then u32 (money + amount) else 0) ;; mret true
  else if money <? u32 (MAX_MONEY_AMOUNT - amount) then SetMoney guid (u32 (money + amount)) ;; mret true
  else emit (SendEquipError guid EQUIP_ERR_TOO_MUCH_GOLD) ;; mret false.
Definition HasEnoughMoney (amount : Z) (p : Player) : bool := amount <=? PLAYER_FIELD_COINAGE p.
Definition SaveGoldToDB (guid : Z) : gact unit :=
  p ← player_of guid; emit (CHAR_UDP_CHAR_MONEY (PLAYER_FIELD_COINAGE p) (GUID_LOPART guid)).
Definition SetInGuild (guid guildId : Z) : gact unit := on_player guid (λ p, p <| PLAYER_GUILDID := guildId |>).
Definition SetRank (guid rankId : Z) : gact unit := on_player guid (λ p, p <| PLAYER_GUILDRANK := rankId |>).
Definition SetGuildIdInvited (guid guildId : Z) : gact unit :=
  on_player guid (λ p, p <| m_GuildIdInvited := guildId |>).
(** [Member::ChangeRank], for the member under key [k]. *)
Definition ChangeRank (k newRank : Z) : gact unit :=
  on_member k (λ m, m <| Member.m_rankId := newRank |>) ;;
  w ← get;
  m ← require (m_members (guild w) !! k);
  SetRank (Member.m_guid m) newRank ;;
  emit (CHAR_UPD_GUILD_MEMBER_RANK newRank (GUID_LOPART (Member.m_guid m))).

(** *** Private methods *)

Definition _CreateLogHolders : gact unit :=
  on_guild (λ g, g <| m_eventLog := LogHolder.init (m_id g) CONFIG_GUILD_EVENT_LOG_COUNT |>
    <| m_bankEventLog := replicate 7 (LogHolder.init (m_id g) CONFIG_GUILD_BANK_EVENT_LOG_COUNT) |>).
Definition _CreateNewBankTab : gact unit :=
  w ← get;
  let g := guild w in
  let tabId := _GetPurchasedTabsSize g in
  on_guild (λ g, g <| m_bankTabs ::= λ l, l ++ [BankTab.new (m_id g) tabId] |>) ;;
  emit (CHAR_DEL_GUILD_BANK_TAB (m_id g) tabId) ;;
  emit (CHAR_INS_GUILD_BANK_TAB (m_id g) tabId) ;;
  forM_ (seq 0 (length (m_ranks g))) (λ i, at_rank i (RankInfo.CreateMissingTabsIfNeeded (u8 (tabId + 1)))).
Definition _CreateRank (name : string) (rights : Z) : gact bool :=
  w ← get;
  let g := guild w in
  let newRankId := _GetRanksSize g in
  if GUILD_RANKS_MAX_COUNT <=? newRankId then mret false else
  let info := RankInfo.new (m_id g) newRankId name rights 0 in
  on_guild (λ g, g <| m_ranks ::= λ l, l ++ [info] |>) ;;
  zoom (λ _ : GuildWorld, info) (λ _ w, w) (RankInfo.CreateMissingTabsIfNeeded (_GetPurchasedTabsSize g)) ;;
  emit (RankInfo.SaveToDB info) ;;
  mret true.
Definition _CreateDefaultGuildRanks (loc : Z) : gact unit :=
  w ← get;
  let id := m_id (guild w) in
  let common := Z.lor GR_RIGHT_GCHATLISTEN GR_RIGHT_GCHATSPEAK in
  emit (CHAR_DEL_GUILD_RANKS id) ;;
  emit (CHAR_DEL_GUILD_BANK_RIGHTS id) ;;
  _CreateRank (guild_rank_name 0 loc) GR_RIGHT_ALL ;;
  _CreateRank (guild_rank_name 1 loc) GR_RIGHT_ALL ;;
  _CreateRank (guild_rank_name 2 loc) common ;;
  _CreateRank (guild_rank_name 3 loc) common ;;
  _CreateRank (guild_rank_name 4 loc) common ;;
  mret tt.
Definition _UpdateAccountsNumber : gact unit :=
  on_guild (λ g, g <| m_accountsNumber :=
    u32 (Z.of_nat (base.size (list_to_set ((λ km, Member.m_accountId km.2) <$> hash_iter (m_members g)) : gset Z))) |>).
Definition _DeleteBankItems (removeItemsFromDB : bool) : gact unit :=
  w ← get;
  forM_ (m_bankTabs (guild w)) (λ tab, forM_ (BankTab.Delete removeItemsFromDB tab) emit) ;;
  on_guild (λ g, g <| m_bankTabs := [] |>).
Definition _ModifyBankMoney (amount : Z) (add : bool) : gact bool :=
  w ← get;
  if negb add && (m_bankMoney (guild w) <? amount) then mret false else
  on_guild (λ g, g <| m_bankMoney ::= λ b, if add then u64 (b + amount) else b - amount |>) ;;
  w ← get;
  emit (CHAR_UPD_GUILD_BANK_MONEY (m_bankMoney (guild w)) (m_id (guild w))) ;;
  mret true.
Definition _SetLeaderGUID (k : Z) : gact unit :=
  w ← get;
  m ← require (m_members (guild w) !! k);
  on_guild (λ g, g <| m_leaderGuid := Member.m_guid m |>) ;;
  ChangeRank k GR_GUILDMASTER ;;
  emit (CHAR_UPD_GUILD_LEADER (GUID_LOPART (Member.m_guid m)) (m_id (guild w))).
Definition rank_index (rankId : Z) (g : Guild) (op : RankInfo.rankact unit) : gact unit :=
  match GetRankInfo rankId g with Some _ => at_rank (Z.to_nat rankId) op | None => mret tt end.
Definition _SetRankBankMoneyPerDay (rankId moneyPerDay : Z) : gact unit :=
  w ← get; rank_index rankId (guild w) (RankInfo.SetBankMoneyPerDay moneyPerDay).
Definition _SetRankBankTabRightsAndSlots (rankId : Z) (rightsAndSlots : RightsAndSlots.t) (saveToDB : bool) :
    gact unit :=
  w ← get;
  if _GetPurchasedTabsSize (guild w) <=? RightsAndSlots.GetTabId rightsAndSlots then mret tt
  else rank_index rankId (guild w) (RankInfo.SetBankTabSlotsAndRights rightsAndSlots saveToDB).
Definition _LogEvent (eventType playerGuid1 playerGuid2 newRank : Z) : gact unit :=
  w ← get;
  guid ← in_eventLog LogHolder.GetNextGUID;
  in_eventLog (LogHolder.AddEvent (EventLogEntry.mk (m_id (guild w)) guid (u64 time_now) eventType
    playerGuid1 playerGuid2 newRank)) ;;
  emit (OnGuildEvent (u8 eventType) playerGuid1 playerGuid2 newRank).
Definition _LogBankEvent (eventType tabId lowguid itemOrMoney itemStackCount destTabId : Z) : gact unit :=
  if GUILD_BANK_MAX_TABS <? tabId then mret tt else
  if (eventType =? GUILD_BANK_LOG_MOVE_ITEM) && (tabId =? destTabId) then mret tt else
  let money := BankEventLogEntry.IsMoneyEvent eventType in
  let dbTabId := if money then GUILD_BANK_MONEY_LOGS_TAB else tabId in
  let tabId := if money then GUILD_BANK_MAX_TABS else tabId in
  w ← get;
  guid ← in_bankEventLog (Z.to_nat tabId) LogHolder.GetNextGUID;
  in_bankEventLog (Z.to_nat tabId) (LogHolder.AddEvent (BankEventLogEntry.mk (m_id (guild w)) guid
    (u64 time_now) eventType dbTabId lowguid itemOrMoney itemStackCount destTabId)) ;;
  emit (OnGuildBankEvent (u8 eventType) tabId lowguid itemOrMoney itemStackCount destTabId).
Definition _UpdateMemberWithdrawSlots (guid tabId : Z) : gact unit :=
  w ← get;
  match GetMember guid (guild w) with
  | None => mret tt
  | Some member =>
      let rankId := Member.m_rankId member in
      when (negb (rankId =? GR_GUILDMASTER)
            && (Member.GetBankWithdrawValue tabId member <? _GetRankBankTabSlotsPerDay rankId tabId (guild w)))
        (at_member (GUID_LOPART guid) (Member.UpdateBankWithdrawValue tabId 1))
  end.

(** *** Members *)

Definition AddMember (guid rankId : Z) : gact bool :=
  w ← get;
  let player := FindPlayer guid w in
  if (match player with
      | Some p => negb (PLAYER_GUILDID p =? 0) | None => negb (GetGuildIdFromDB guid =? 0) end)
  then mret false else
  emit (RemovePetitionsAndSigns guid GUILD_CHARTER_TYPE) ;;
  let lowguid := GUID_LOPART guid in
  let rankId := if rankId =? GUILD_RANK_NONE then _GetLowestRankId (guild w) else rankId in
  let member := Member.new UninitFlags (u64 time_now) (m_id (guild w)) guid rankId in
  let insert (m : Member.t) : gact unit := on_guild (λ g, g <| m_members ::= <[lowguid := m]> |>) in
  name ←
    (match player with
     | Some p =>
         insert member ;;
         SetInGuild guid (m_id (guild w)) ;;
         SetGuildIdInvited guid 0 ;;
         SetRank guid rankId ;;
         on_member lowguid (Member.SetStats_player p) ;;
         SendLoginInfo guid ;;
         mret (Some (p_name p))
     | None =>
         let member := Member.ResetFlags member in
         match CHAR_SEL_CHAR_DATA_FOR_GUILD lowguid with
         | None => mret None
         | Some (name, level, class, zone, account) =>
             let member := Member.SetStats name level class zone account member in
             if Member.CheckStats member then insert member ;; mret (Some name) else mret None
         end
     end);
  match name with
  | None => mret false
  | Some name =>
      w ← get;
      m ← require (m_members (guild w) !! lowguid);
      emit (Member.SaveToDB m) ;;
      _UpdateAccountsNumber ;;
      _LogEvent GUILD_EVENT_LOG_JOIN_GUILD lowguid 0 0 ;;
      _BroadcastEvent GE_JOINED guid [name] ;;
      emit (OnGuildAddMember ((λ _, guid) <$> player) rankId) ;;
      mret true
  end.

(** [DeleteMember] from the script hook on, which is all of it when the guild
    is disbanding or the member is not the leader. *)
Definition erase_member (guid : Z) (isDisbanding isKicked : bool) : gact unit :=
  w ← get;
  let lowguid := GUID_LOPART guid in
  let player := FindPlayer guid w in
  emit (OnGuildRemoveMember ((λ _, guid) <$> player) isDisbanding isKicked) ;;
  on_guild (λ g, g <| m_members ::= delete lowguid |>) ;;
  match player with
  | Some _ => SetInGuild guid 0 ;; SetRank guid 0
  | None => mret tt
  end ;;
  emit (CHAR_DEL_GUILD_MEMBER lowguid) ;;
  when (negb isDisbanding) _UpdateAccountsNumber.
(** [while (!m_members.empty()) DeleteMember(begin()->second->GetGUID(), true)]. *)
Fixpoint Disband_loop (fuel : nat) : gact unit :=
  w ← get;
  match hash_iter (m_members (guild w)) with
  | [] => mret tt
  | (_, m) :: _ =>
      match fuel with
      | O => raise OutOfFuel
      | S fuel' => erase_member (Member.m_guid m) true false ;; Disband_loop fuel'
      end
  end.
Definition Disband : gact unit :=
  w ← get;
  let id := m_id (guild w) in
  emit OnGuildDisband ;;
  _BroadcastEvent GE_DISBANDED 0 [] ;;
  Disband_loop (base.size (m_members (guild w))) ;;
  emit (CHAR_DEL_GUILD id) ;;
  emit (CHAR_DEL_GUILD_RANKS id) ;;
  emit (CHAR_DEL_GUILD_BANK_TABS id) ;;
  _DeleteBankItems true ;;
  emit (CHAR_DEL_GUILD_BANK_ITEMS id) ;;
  emit (CHAR_DEL_GUILD_BANK_RIGHTS id) ;;
  emit (CHAR_DEL_GUILD_BANK_EVENTLOGS id) ;;
  emit (CHAR_DEL_GUILD_EVENTLOGS id) ;;
  emit (RemoveGuild id).
(** The scan for the old and the new leader: the first member of the highest
    rank, the leader himself left out. *)
Definition newLeader_of (lowguid : Z) (l : list (Z * Member.t)) : option (Z * Member.t) :=
  foldl (λ newLeader km,
    if km.1 =? lowguid then newLeader else
    match newLeader with
    | None => Some km
    | Some nl => if Member.m_rankId km.2 <? Member.m_rankId nl.2 then Some km else newLeader
    end) None l.
Definition DeleteMember (guid : Z) (isDisbanding isKicked : bool) : gact unit :=
  w ← get;
  let lowguid := GUID_LOPART guid in
  if (m_leaderGuid (guild w) =? guid) && negb isDisbanding then
    match newLeader_of lowguid (hash_iter (m_members (guild w))) with
    | None => Disband
    | Some (k, newLeader) =>
        _SetLeaderGUID k ;;
        SetRank (Member.m_guid newLeader) GR_GUILDMASTER ;;
        match m_members (guild w) !! lowguid with
        | Some oldLeader =>
            _BroadcastEvent GE_LEADER_CHANGED 0 [Member.m_name oldLeader; Member.m_name newLeader] ;;
            _BroadcastEvent GE_LEFT guid [Member.m_name oldLeader]
        | None => mret tt
        end ;;
        erase_member guid isDisbanding isKicked
    end
  else erase_member guid isDisbanding isKicked.
Definition ChangeMemberRank (guid newRank : Z) : gact bool :=
  w ← get;
  if newRank <=? _GetLowestRankId (guild w) then
    match GetMember guid (guild w) with
    | Some _ => ChangeRank (GUID_LOPART guid) newRank ;; mret true
    | None => mret false
    end
  else mret false.

(** *** Creation *)

(** [taken]: a guild of that name exists; [id]: the next guild id. *)
Definition Create (leader : Z) (name : string) (taken : bool) (id : Z) : gact bool :=
  if taken then mret false else
  player ← player_of leader;
  on_guild (λ g, g <| m_id := id |> <| m_leaderGuid := leader |> <| m_name := name |> <| m_info := "" |>
    <| m_motd := "No message set." |> <| m_bankMoney := 0 |> <| m_createdDate := time_now |>) ;;
  _CreateLogHolders ;;
  w ← get;
  let g := guild w in
  emit (CHAR_DEL_GUILD_MEMBERS id) ;;
  emit (CHAR_INS_GUILD id name (GUID_LOPART leader) (m_info g) (m_motd g) (u32 (m_createdDate g))
          (Emblem.values (m_emblemInfo g)) (m_bankMoney g)) ;;
  _CreateDefaultGuildRanks (p_locale player) ;;
  ret ← AddMember leader GR_GUILDMASTER;
  when ret (emit (OnGuildCreate leader name)) ;;
  mret ret.

(** *** Handlers

    [session] is the guid of the player whose request it is. *)

Definition find_tolower (name : string) (w : GuildWorld) : option (Z * Player) :=
  head (filter (λ gp, lower_name (p_name gp.2) = lower_name name) (hash_iter (players w))).

Definition HandleSetMOTD (session : Z) (motd : string) : gact unit :=
  w ← get;
  if String.eqb (m_motd (guild w)) motd then mret tt
  else if negb (_HasRankRight session GR_RIGHT_SETMOTD (guild w))
  then SendCommandResult session GUILD_COMMAND_EDIT_MOTD ERR_GUILD_PERMISSIONS ""
  else
    on_guild (λ g, g <| m_motd := motd |>) ;;
    emit (OnGuildMOTDChanged motd) ;;
    emit (CHAR_UPD_GUILD_MOTD motd (m_id (guild w))) ;;
    _BroadcastEvent GE_MOTD 0 [motd].
Definition HandleSetInfo (session : Z) (info : string) : gact unit :=
  w ← get;
  if String.eqb (m_info (guild w)) info then mret tt else
  when (_HasRankRight session GR_RIGHT_MODIFY_GUILD_INFO (guild w))
    (on_guild (λ g, g <| m_info := info |>) ;;
     emit (OnGuildInfoChanged info) ;;
     emit (CHAR_UPD_GUILD_INFO info (m_id (guild w)))).
Definition HandleSetEmblem (session : Z) (emblemInfo : Emblem.t) : gact unit :=
  w ← get;
  player ← player_of session;
  if negb (_IsLeader session (guild w)) then SendSaveEmblemResult session ERR_GUILDEMBLEM_NOTGUILDMASTER
  else if negb (HasEnoughMoney EMBLEM_PRICE player)
  then SendSaveEmblemResult session ERR_GUILDEMBLEM_NOTENOUGHMONEY
  else
    ModifyMoney session (- i32 EMBLEM_PRICE) ;;
    on_guild (λ g, g <| m_emblemInfo := emblemInfo |>) ;;
    emit (Emblem.SaveToDB (m_id (guild w)) emblemInfo) ;;
    SendSaveEmblemResult session ERR_GUILDEMBLEM_SUCCESS ;;
    HandleQuery session.
Definition HandleSetLeader (session : Z) (name : string) : gact unit :=
  w ← get;
  player ← player_of session;
  if negb (_IsLeader session (guild w))
  then SendCommandResult session GUILD_COMMAND_CHANGE_LEADER ERR_GUILD_PERMISSIONS ""
  else
    match GetMember session (guild w), GetMember_name name (guild w) with
    | Some _, Some (pNewLeader, _) =>
        _SetLeaderGUID pNewLeader ;;
        ChangeRank (GUID_LOPART session) GR_OFFICER ;;
        _BroadcastEvent GE_LEADER_CHANGED 0 [p_name player; name]
    | _, _ => mret tt
    end.
Definition HandleSetBankTabInfo (tabId : Z) (name icon : string) : gact unit :=
  w ← get;
  match GetBankTab tabId (guild w) with
  | None => mret tt
  | Some _ =>
      at_tab (Z.to_nat tabId) (BankTab.SetInfo name icon) ;;
      _BroadcastEvent GE_BANK_TAB_UPDATED 0 [print_u64 tabId; name; icon]
  end.
Definition HandleSetMemberNote (session : Z) (name note : string) (isPublic : bool) : gact unit :=
  w ← get;
  if negb (_HasRankRight session (if isPublic then GR_RIGHT_EPNOTE else GR_RIGHT_EOFFNOTE) (guild w))
  then SendCommandResult session GUILD_COMMAND_PUBLIC_NOTE ERR_GUILD_PERMISSIONS ""
  else match GetMember_name name (guild w) with
       | None => mret tt
       | Some (k, _) =>
           at_member k (if isPublic then Member.SetPublicNote note else Member.SetOfficerNote note) ;;
           HandleRoster (Some session)
       end.
Definition HandleSetRankInfo (session rankId : Z) (name : string) (rights moneyPerDay : Z)
    (rightsAndSlots : list RightsAndSlots.t) : gact unit :=
  w ← get;
  if negb (_IsLeader session (guild w))
  then SendCommandResult session GUILD_COMMAND_CHANGE_RANK ERR_GUILD_PERMISSIONS ""
  else match GetRankInfo rankId (guild w) with
       | None => mret tt
       | Some _ =>
           at_rank (Z.to_nat rankId) (RankInfo.SetName name) ;;
           at_rank (Z.to_nat rankId) (RankInfo.SetRights rights) ;;
           _SetRankBankMoneyPerDay rankId moneyPerDay ;;
           forM_ rightsAndSlots (λ rs, _SetRankBankTabRightsAndSlots rankId rs true) ;;
           _BroadcastEvent GE_RANK_UPDATED 0 [print_u64 rankId; name]
       end.
Definition HandleBuyBankTab (session tabId : Z) : gact unit :=
  w ← get;
  player ← player_of session;
  match GetMember session (guild w) with
  | None => mret tt
  | Some _ =>
      if GUILD_BANK_MAX_TABS <=? _GetPurchasedTabsSize (guild w) then mret tt
      else if negb (tabId =? _GetPurchasedTabsSize (guild w)) then mret tt
      else
        let tabCost := u32 (_GetGuildBankTabPrice tabId * GOLD) in
        if tabCost =? 0 then mret tt
        else if negb (HasEnoughMoney tabCost player) then mret tt
        else
          ModifyMoney session (- i32 tabCost) ;;
          _CreateNewBankTab ;;
          _BroadcastEvent GE_BANK_TAB_PURCHASED 0 [] ;;
          SendPermissions session
  end.
Definition HandleInviteMember (session : Z) (name : string) : gact unit :=
  w ← get;
  match find_tolower name w with
  | None => SendCommandResult session GUILD_COMMAND_INVITE ERR_GUILD_PLAYER_NOT_FOUND_S name
  | Some (invitee, pInvitee) =>
      player ← player_of session;
      if Social.HasIgnore (GUID_LOPART session) (p_social pInvitee) then mret tt
      else if negb CONFIG_ALLOW_TWO_SIDE_INTERACTION_GUILD && negb (p_team pInvitee =? p_team player)
      then SendCommandResult session GUILD_COMMAND_INVITE ERR_GUILD_NOT_ALLIED name
      else if negb (PLAYER_GUILDID pInvitee =? 0)
      then SendCommandResult session GUILD_COMMAND_INVITE ERR_ALREADY_IN_GUILD_S name
      else if negb (m_GuildIdInvited pInvitee =? 0)
      then SendCommandResult session GUILD_COMMAND_INVITE ERR_ALREADY_INVITED_TO_GUILD_S name
      else if negb (_HasRankRight session GR_RIGHT_INVITE (guild w))
      then SendCommandResult session GUILD_COMMAND_INVITE ERR_GUILD_PERMISSIONS ""
      else
        SendCommandResult session GUILD_COMMAND_INVITE ERR_GUILD_COMMAND_SUCCESS name ;;
        SetGuildIdInvited invitee (m_id (guild w)) ;;
        _LogEvent GUILD_EVENT_LOG_INVITE_PLAYER (GUID_LOPART session) (GUID_LOPART invitee) 0 ;;
        emit (Send invitee (Initialize SMSG_GUILD_INVITE <+ Str (p_name player) <+ Str (m_name (guild w))))
  end.
Definition HandleAcceptMember (session : Z) : gact unit :=
  w ← get;
  player ← player_of session;
  if negb CONFIG_ALLOW_TWO_SIDE_INTERACTION_GUILD
     && negb (p_team player =? GetPlayerTeamByGUID (m_leaderGuid (guild w)))
  then mret tt
  else AddMember session GUILD_RANK_NONE ;; mret tt.
Definition HandleLeaveMember (session : Z) : gact unit :=
  w ← get;
  player ← player_of session;
  (if _IsLeader session (guild w) then
     if 1 <? Z.of_nat (base.size (m_members (guild w)))
     then SendCommandResult session GUILD_COMMAND_QUIT ERR_GUILD_LEADER_LEAVE ""
     else Disband
   else
     DeleteMember session false false ;;
     _LogEvent GUILD_EVENT_LOG_LEAVE_GUILD (GUID_LOPART session) 0 0 ;;
     _BroadcastEvent GE_LEFT session [p_name player] ;;
     SendCommandResult session GUILD_COMMAND_QUIT ERR_GUILD_COMMAND_SUCCESS (m_name (guild w))) ;;
  emit (RemovePlayerGuildEventsAndSignups session (m_id (guild w))).
Definition HandleRemoveMember (session : Z) (name : string) : gact unit :=
  w ← get;
  player ← player_of session;
  if negb (_HasRankRight session GR_RIGHT_REMOVE (guild w))
  then SendCommandResult session GUILD_COMMAND_REMOVE ERR_GUILD_PERMISSIONS ""
  else
    match GetMember_name name (guild w) with
    | None => mret tt
    | Some (_, member) =>
        if Member.IsRank GR_GUILDMASTER member
        then SendCommandResult session GUILD_COMMAND_REMOVE ERR_GUILD_LEADER_LEAVE ""
        else if match GetMember session (guild w) with
                | None => true
                | Some memberMe => Member.IsRankNotLower (Member.m_rankId memberMe) member
                end
        then SendCommandResult session GUILD_COMMAND_REMOVE ERR_GUILD_RANK_TOO_HIGH_S name
        else
          let guid := Member.m_guid member in
          DeleteMember guid false true ;;
          _LogEvent GUILD_EVENT_LOG_UNINVITE_PLAYER (GUID_LOPART session) (GUID_LOPART guid) 0 ;;
          _BroadcastEvent GE_REMOVED 0 [name; p_name player]
    end.
(** [memberMe] is the member whose rights were just read. *)
Definition HandleUpdateMemberRank (session : Z) (name : string) (demote : bool) : gact unit :=
  w ← get;
  player ← player_of session;
  let type := if demote then GUILD_COMMAND_DEMOTE else GUILD_COMMAND_PROMOTE in
  if negb (_HasRankRight session (if demote then GR_RIGHT_DEMOTE else GR_RIGHT_PROMOTE) (guild w))
  then SendCommandResult session type ERR_GUILD_PERMISSIONS ""
  else
    match GetMember_name name (guild w) with
    | None => mret tt
    | Some (k, member) =>
        if Member.IsSamePlayer session member
        then SendCommandResult session type ERR_GUILD_NAME_INVALID ""
        else
          memberMe ← require (GetMember session (guild w));
          let rankId := Member.m_rankId memberMe in
          if demote && Member.IsRankNotLower rankId member
          then SendCommandResult session type ERR_GUILD_RANK_TOO_HIGH_S name
          else if demote && (_GetLowestRankId (guild w) <=? Member.m_rankId member)
          then SendCommandResult session type ERR_GUILD_RANK_TOO_LOW_S name
          else if negb demote && Member.IsRankNotLower (u8 (rankId + 1)) member
          then SendCommandResult session type ERR_GUILD_RANK_TOO_HIGH_S name
          else
            let newRankId := u8 (Member.m_rankId member + (if demote then 1 else -1)) in
            ChangeRank k newRankId ;;
            _LogEvent (if demote then GUILD_EVENT_LOG_DEMOTE_PLAYER else GUILD_EVENT_LOG_PROMOTE_PLAYER)
              (GUID_LOPART session) (GUID_LOPART (Member.m_guid member)) newRankId ;;
            _BroadcastEvent (if demote then GE_DEMOTION else GE_PROMOTION) 0
              [p_name player; name; _GetRankName newRankId (guild w)]
    end.
Definition HandleAddNewRank (session : Z) (name : string) : gact unit :=
  w ← get;
  let size := _GetRanksSize (guild w) in
  if GUILD_RANKS_MAX_COUNT <=? size then mret tt else
  if _IsLeader session (guild w) then
    created ← _CreateRank name (Z.lor GR_RIGHT_GCHATLISTEN GR_RIGHT_GCHATSPEAK);
    when created (_BroadcastEvent GE_RANK_UPDATED 0 [print_u64 size; name])
  else mret tt.
Definition HandleRemoveRank (session rankId : Z) : gact unit :=
  w ← get;
  let g := guild w in
  if (_GetRanksSize g <=? GUILD_RANKS_MIN_COUNT) || (_GetRanksSize g <=? rankId)
     || negb (_IsLeader session g) then mret tt
  else
    emit (CHAR_DEL_GUILD_BANK_RIGHTS_FOR_RANK (m_id g) rankId) ;;
    emit (CHAR_DEL_GUILD_LOWEST_RANK (m_id g) rankId) ;;
    on_guild (λ g, g <| m_ranks ::= λ l, take (length l - 1) l |>) ;;
    _BroadcastEvent GE_RANK_DELETED 0 [].
Definition HandleRemoveLowestRank (session : Z) : gact unit :=
  w ← get; HandleRemoveRank session (_GetLowestRankId (guild w)).
(** The eight bytes at the address of the four byte [amount], last to first: the
    read runs four bytes past the object, which [broadcast_amount] marks. *)
Definition hex_digit (d : Z) : Ascii.ascii := byte_ascii (if d <? 10 then 48 + d else 55 + d).
Fixpoint hex_string (digits : nat) (z : Z) : string :=
  match digits with
  | O => ""
  | S n => String (hex_digit (Z.shiftr z (4 * Z.of_nat n) mod 16)) (hex_string n z)
  end.
Definition amount_hex (amount : Z) : string := hex_string 16 (StackWord * 2 ^ 32 + amount).
Definition broadcast_amount (amount : Z) : gact unit :=
  emit (StackOverRead 4) ;;
  _BroadcastEvent GE_BANK_MONEY_CHANGED 0 [amount_hex amount].
Definition HandleMemberDepositMoney (session amount : Z) : gact unit :=
  player_of session ;;
  emit (OnGuildMemberDepositMoney session amount) ;;
  let amount := u32 (OnMemberDepositMoney session amount) in
  _ModifyBankMoney amount true ;;
  ModifyMoney session (i32 (- i32 amount)) ;;
  SaveGoldToDB session ;;
  _LogBankEvent GUILD_BANK_LOG_DEPOSIT_MONEY 0 (GUID_LOPART session) amount 0 0 ;;
  broadcast_amount amount.
Definition HandleMemberWithdrawMoney (session amount : Z) (repair : bool) : gact bool :=
  w ← get;
  if m_bankMoney (guild w) <? amount then mret false else
  player_of session ;;
  match GetMember session (guild w) with
  | None => mret false
  | Some member =>
      if u32 (_GetMemberRemainingMoney member (guild w)) <? amount then mret false else
      emit (OnGuildMemberWitdrawMoney session amount repair) ;;
      let amount := u32 (OnMemberWitdrawMoney session amount repair) in
      paid ← (if repair then mret true
              else ok ← ModifyMoney session (i32 amount);
                   if (ok : bool) then SaveGoldToDB session ;; mret true else mret false);
      if negb paid then mret false else
      at_member (GUID_LOPART session) (Member.UpdateBankWithdrawValue GUILD_BANK_MAX_TABS amount) ;;
      _ModifyBankMoney amount false ;;
      _LogBankEvent (if repair then GUILD_BANK_LOG_REPAIR_MONEY else GUILD_BANK_LOG_WITHDRAW_MONEY)
        0 (GUID_LOPART session) amount 0 0 ;;
      broadcast_amount amount ;;
      mret true
  end.
Definition HandleMemberLogout (session : Z) : gact unit :=
  player ← player_of session;
  on_member (GUID_LOPART session) (λ m,
    Member.ResetFlags ((Member.SetStats_player player m) <| Member.m_logoutTime := u64 time_now |>)) ;;
  _BroadcastEvent GE_SIGNED_OFF session [p_name player].
Definition HandleDisband (session : Z) : gact unit :=
  w ← get; when (_IsLeader session (guild w)) Disband.

(** *** Other entry points *)

Definition UpdateMemberData (guid dataid value : Z) : gact unit :=
  on_member (GUID_LOPART guid) (λ m,
    if dataid =? GUILD_MEMBER_DATA_ZONEID then Member.SetZoneID value m
    else if dataid =? GUILD_MEMBER_DATA_LEVEL then Member.SetLevel (u8 value) m else m).
Definition OnPlayerStatusChange (guid flag : Z) (state : bool) : gact unit :=
  on_member (GUID_LOPART guid) (if state then Member.AddFlag (u8 flag) else Member.RemFlag (u8 flag)).
Definition SetName (name : string) : gact bool :=
  w ← get;
  if String.eqb (m_name (guild w)) name || String.eqb name "" || (24 <? Z.of_nat (String.length name))
     || IsReservedName name || negb (IsValidCharterName name) then mret false else
  on_guild (λ g, g <| m_name := name |>) ;;
  emit (CHAR_UPD_GUILD_NAME name (m_id (guild w))) ;;
  mret true.
Definition SetBankTabText (tabId : Z) (text : string) : gact unit :=
  w ← get;
  match GetBankTab tabId (guild w) with
  | None => mret tt
  | Some _ =>
      at_tab (Z.to_nat tabId) (BankTab.SetText text) ;;
      w ← get;
      tab ← require (m_bankTabs (guild w) !! Z.to_nat tabId);
      SendText tab None
  end.
Definition ResetTimes : gact unit :=
  w ← get;
  on_guild (λ g, g <| m_members ::= fmap Member.ResetValues |>) ;;
  rank ← require (GetRankInfo 0 (guild w));
  _BroadcastEvent GE_RANK_UPDATED 0 ["0"; RankInfo.m_name rank].
(** The members that fit, in the order of the iteration; the hundred and first
    member reached gets the player an error instead of a packet. *)
Fixpoint MassInvite_loop (session minLevel maxLevel minRank count : Z) (l : list (Z * Member.t)) :
    list Z + unit :=
  match l with
  | [] => inl []
  | (_, member) :: l' =>
      if CALENDAR_MAX_INVITES <=? count then inr tt else
      let level := GetLevelFromDB (Member.m_guid member) in
      if negb (Member.m_guid member =? session) && (minLevel <=? level) && (level <=? maxLevel)
         && Member.IsRankNotLower (u8 minRank) member
      then match MassInvite_loop session minLevel maxLevel minRank (count + 1) l' with
           | inl gs => inl (Member.m_guid member :: gs) | inr u => inr u end
      else MassInvite_loop session minLevel maxLevel minRank count l'
  end.
Definition packed_guid_fields (guid : Z) : list field :=
  let bytes := filter (λ ib : Z * Z, ib.2 ≠ 0)
                 (imap (λ i b, (Z.of_nat i, b)) (le_bytes 8 guid)) in
  U8 (foldl (λ m ib, Z.lor m (Z.shiftl 1 ib.1)) 0 bytes) :: (U8 ∘ snd <$> bytes).
Definition MassInviteToEvent (session minLevel maxLevel minRank : Z) : gact unit :=
  w ← get;
  match MassInvite_loop session minLevel maxLevel minRank 0 (hash_iter (m_members (guild w))) with
  | inr _ => emit (SendCalendarCommandResult session CALENDAR_ERROR_INVITES_EXCEEDED)
  | inl gs => emit (Send session (stream_all (Initialize SMSG_CALENDAR_FILTER_GUILD <+ U32 (Z.of_nat (length gs)))
                (gs ≫= λ guid, packed_guid_fields guid ++ [U8 0])))
  end.
End GuildOps.
