(* ===== verification/GuildRules.v ===== *)
(** The rules of a guild: the invariant that every request keeps, who may do
    what to whom, succession of the leader, and disbanding. *)

From S2P Require Import Prelude ByteBuffer Util Rbac Channel Social Guild.
Open Scope string_scope.
Open Scope list_scope.
Open Scope Z_scope.

(** ** Requests

    What a player of the guild, [session], can ask for, and what the server
    calls on behalf of a player, but for the moves of bank items
    (CMSG_GUILD_BANK_SWAP_ITEMS): those have more state and are in GuildBank.v,
    with the theorem that they keep the invariant too. *)

Inductive guild_request :=
  | ReqRoster | ReqQuery | ReqInfo | ReqEventLog | ReqBankLog (tabId : Z) | ReqBankTabs (full : bool)
  | ReqBankTab (tabId : Z) | ReqBankText (tabId : Z) | ReqPermissions | ReqMoney | ReqLogin
  | ReqChat (officerOnly : bool) (msg : string) (language : Z)
  | ReqSetMOTD (motd : string) | ReqSetInfo (info : string) | ReqSetEmblem (e : Emblem.t)
  | ReqSetLeader (name : string) | ReqSetBankTabInfo (tabId : Z) (name icon : string)
  | ReqSetBankText (tabId : Z) (text : string)
  | ReqSetNote (name note : string) (isPublic : bool)
  | ReqSetRank (rankId : Z) (name : string) (rights money : Z) (tabs : list RightsAndSlots.t)
  | ReqBuyTab (tabId : Z) | ReqInvite (name : string) | ReqAccept | ReqLeave
  | ReqRemove (name : string) | ReqPromote (name : string) | ReqDemote (name : string)
  | ReqAddRank (name : string) | ReqRemoveRank | ReqDeposit (amount : Z)
  | ReqWithdraw (amount : Z) (repair : bool) | ReqLogout | ReqDisband
  | ReqZone (zone : Z) | ReqLevel (level : Z) | ReqStatus (flag : Z) (state : bool)
  | ReqMassInvite (minLevel maxLevel minRank : Z).

Definition serve_guild `{GuildEnv} (session : Z) (rq : guild_request) : gact unit :=
  match rq with
  | ReqRoster => HandleRoster (Some session)
  | ReqQuery => HandleQuery session
  | ReqInfo => SendInfo session
  | ReqEventLog => SendEventLog session
  | ReqBankLog tabId => SendBankLog session tabId
  | ReqBankTabs full => SendBankTabsInfo session full
  | ReqBankTab tabId => SendBankTabData session tabId
  | ReqBankText tabId => SendBankTabText session tabId
  | ReqPermissions => SendPermissions session
  | ReqMoney => SendMoneyInfo session
  | ReqLogin => SendLoginInfo session
  | ReqChat officerOnly msg language => BroadcastToGuild session officerOnly msg language
  | ReqSetMOTD motd => HandleSetMOTD session motd
  | ReqSetInfo info => HandleSetInfo session info
  | ReqSetEmblem e => HandleSetEmblem session e
  | ReqSetLeader name => HandleSetLeader session name
  | ReqSetBankTabInfo tabId name icon => HandleSetBankTabInfo tabId name icon
  | ReqSetBankText tabId text => SetBankTabText tabId text
  | ReqSetNote name note isPublic => HandleSetMemberNote session name note isPublic
  | ReqSetRank rankId name rights money tabs => HandleSetRankInfo session rankId name rights money tabs
  | ReqBuyTab tabId => HandleBuyBankTab session tabId
  | ReqInvite name => HandleInviteMember session name
  | ReqAccept => HandleAcceptMember session
  | ReqLeave => HandleLeaveMember session
  | ReqRemove name => HandleRemoveMember session name
  | ReqPromote name => HandleUpdateMemberRank session name false
  | ReqDemote name => HandleUpdateMemberRank session name true
  | ReqAddRank name => HandleAddNewRank session name
  | ReqRemoveRank => HandleRemoveLowestRank session
  | ReqDeposit amount => HandleMemberDepositMoney session amount
  | ReqWithdraw amount repair => HandleMemberWithdrawMoney session amount repair ;; mret tt
  | ReqLogout => HandleMemberLogout session
  | ReqDisband => HandleDisband session
  | ReqZone zone => UpdateMemberData session GUILD_MEMBER_DATA_ZONEID zone
  | ReqLevel level => UpdateMemberData session GUILD_MEMBER_DATA_LEVEL level
  | ReqStatus flag state => OnPlayerStatusChange session flag state
  | ReqMassInvite minLevel maxLevel minRank => MassInviteToEvent session minLevel maxLevel minRank
  end.
(** The rights of a rank arrive with the tab they are for, tab by tab. *)
Definition request_ok (rq : guild_request) : Prop :=
  match rq with
  | ReqSetBankTabInfo tabId _ _ | ReqSetBankText tabId _ | ReqBuyTab tabId | ReqBankLog tabId
  | ReqBankTab tabId | ReqBankText tabId => 0 <= tabId < 256
  | ReqSetRank rankId _ rights _ tabs =>
      0 <= rankId < 256 ∧ 0 <= rights < 2 ^ 32 ∧
      Forall (λ rs, 0 <= RightsAndSlots.tabId rs < GUILD_BANK_MAX_TABS) tabs
  | ReqDeposit amount | ReqWithdraw amount _ => 0 <= amount < 2 ^ 32
  | _ => True
  end.

(** ** The invariant *)

Definition guid32 (g : Z) : Prop := 0 <= g < 2 ^ 32.

Record rank_ok (i : nat) (r : RankInfo.t) : Prop := {
  rk_id : RankInfo.m_rankId r = Z.of_nat i;
  rk_tabs : length (RankInfo.m_bankTabRightsAndSlots r) = 6%nat;
  rk_master : i = 0%nat → Z.land (RankInfo.m_rights r) GR_RIGHT_ALL = GR_RIGHT_ALL }.
Definition ranks_ok (l : list RankInfo.t) : Prop :=
  (5 ≤ length l ≤ 10)%nat ∧ ∀ i r, l !! i = Some r → rank_ok i r.

Record member_ok (k : Z) (m : Member.t) : Prop := {
  mb_guid : Member.m_guid m = k;
  mb_key : guid32 k;
  mb_rank : 0 <= Member.m_rankId m <= GUILD_RANKS_MAX_COUNT;
  mb_withdraw : length (Member.m_bankWithdraw m) = 7%nat }.
Definition members_ok (M : gmap Z Member.t) : Prop := map_Forall member_ok M.

Definition tabs_ok (l : list BankTab.t) : Prop :=
  (length l ≤ 6)%nat ∧ ∀ i b, l !! i = Some b → BankTab.m_tabId b = Z.of_nat i.

Definition log_ok {E} (h : LogHolder.t E) : Prop :=
  1 <= LogHolder.m_maxRecords h < 2 ^ 32 ∧ Z.of_nat (length (LogHolder.m_log h)) <= LogHolder.m_maxRecords h.
Definition logs_ok (g : Guild) : Prop :=
  log_ok (m_eventLog g) ∧ length (m_bankEventLog g) = 7%nat ∧ Forall log_ok (m_bankEventLog g).

(** A player online carries the guild's id exactly if he is a member, and then
    his rank. *)
Definition online_ok (g : Guild) (guid : Z) (p : Player) : Prop :=
  guid32 guid ∧
  (PLAYER_GUILDID p = m_id g ↔ is_Some (m_members g !! guid)) ∧
  ∀ m, m_members g !! guid = Some m → PLAYER_GUILDRANK p = Member.m_rankId m.

Record guild_inv (w : GuildWorld) : Prop := {
  gi_id : m_id (guild w) ≠ 0;
  gi_ranks : ranks_ok (m_ranks (guild w));
  gi_members : members_ok (m_members (guild w));
  gi_leader : is_Some (m_members (guild w) !! m_leaderGuid (guild w));
  gi_tabs : tabs_ok (m_bankTabs (guild w));
  gi_logs : logs_ok (guild w);
  gi_online : map_Forall (online_ok (guild w)) (players w) }.

(** A guild that has been disbanded: nobody in it, nothing in its bank, and no
    player online carries its id. *)
Definition disbanded (w : GuildWorld) : Prop :=
  m_members (guild w) = ∅ ∧ m_bankTabs (guild w) = [] ∧
  map_Forall (λ _ p, PLAYER_GUILDID p ≠ m_id (guild w)) (players w).

(** What players of other guilds carry. *)
Definition foreign (id : Z) (p : Player) : option (Z * Z) :=
  if decide (PLAYER_GUILDID p = 0 ∨ PLAYER_GUILDID p = id) then None else Some (PLAYER_GUILDID p, PLAYER_GUILDRANK p).
Definition others (w : GuildWorld) : gmap Z (Z * Z) := omap (foreign (m_id (guild w))) (players w).

(** What most requests leave as it is. *)
Definition member_ranks (w : GuildWorld) : gmap Z Z := Member.m_rankId <$> m_members (guild w).
Record shape := mkShape { sh_ranks : nat; sh_tabs : nat; sh_players : gset Z; sh_members : gmap Z Z;
  sh_leader : Z; sh_id : Z; sh_others : gmap Z (Z * Z) }.
Definition shape_of (w : GuildWorld) : shape :=
  mkShape (length (m_ranks (guild w))) (length (m_bankTabs (guild w))) (dom (players w))
    (member_ranks w) (m_leaderGuid (guild w)) (m_id (guild w)) (others w).
Definition inv_at (sh : shape) (w : GuildWorld) : Prop := guild_inv w ∧ shape_of w = sh.

Lemma foreign_alter id f k (ps : gmap Z Player) :
  (∀ p, ps !! k = Some p → foreign id (f p) = foreign id p) → omap (foreign id) (alter f k ps) = omap (foreign id) ps.
Proof.
  intros Hf. apply map_eq. intros j. rewrite !lookup_omap. destruct (decide (k = j)) as [<-|Hne].
  - rewrite lookup_alter_eq. destruct (ps !! k) as [p|] eqn:Hp; [|done]. cbn. by apply Hf.
  - by rewrite lookup_alter_ne.
Qed.
Lemma foreign_delete id f k (ps : gmap Z Player) :
  (∀ p, foreign id (f p) = None) → omap (foreign id) (alter f k ps) = delete k (omap (foreign id) ps).
Proof.
  intros Hf. apply map_eq. intros j. destruct (decide (k = j)) as [<-|Hne].
  - rewrite lookup_omap, lookup_alter_eq, lookup_delete_eq. destruct (ps !! k); [apply Hf|done].
  - by rewrite lookup_delete_ne, !lookup_omap, lookup_alter_ne.
Qed.
Lemma foreign_none id p : PLAYER_GUILDID p = 0 ∨ PLAYER_GUILDID p = id → foreign id p = None.
Proof. intros Hp. unfold foreign. by rewrite decide_True. Qed.
(** A member is in no other guild. *)
Lemma others_member w k p : guild_inv w → is_Some (m_members (guild w) !! k) → players w !! k = Some p →
  foreign (m_id (guild w)) p = None.
Proof. intros Hw Hk Hp. apply foreign_none. right. by apply (gi_online _ Hw k p Hp). Qed.

Lemma GUID_LOPART_id g : guid32 g → GUID_LOPART g = g.
Proof. apply wrapu_id. Qed.

(** ** Generic steps *)

Section Steps.
Context {S E : Type}.

Lemma keeps_bind_get {A} (I : S → Prop) (f : S → act S E A) :
  (∀ s, I s → keeps I (f s)) → keeps I (get ≫= f).
Proof. intros Hf s Hs. apply wp_bind, wp_get. eapply wp_mono; [by apply Hf|]. done. Qed.

Lemma keeps_bind_gets {A B} (I : S → Prop) (h : S → B) (f : B → act S E A) :
  (∀ s, I s → keeps I (f (h s))) → keeps I (gets h ≫= f).
Proof. intros Hf s Hs. apply wp_bind, wp_gets. eapply wp_mono; [by apply Hf|]. done. Qed.

Lemma keeps_wp {A} (I : S → Prop) (m : act S E A) (Q : A → S → list E → Prop) s :
  keeps I m → I s → (∀ a s' t, I s' → Q a s' t) → wp m Q s.
Proof. intros Hm Hs HQ. eapply wp_mono; [by apply Hm|]. eauto. Qed.

Lemma wp_bind_keeps {A B} (I : S → Prop) (m : act S E A) (f : A → act S E B) Q s :
  keeps I m → I s → (∀ a s' t, I s' → wp (f a) (λ b s2 t2, Q b s2 (t ++ t2)) s') →
  wp (m ≫= f) Q s.
Proof. intros Hm Hs Hf. apply wp_bind. eapply keeps_wp; eauto. Qed.

Lemma wp_bind_get {B} (f : S → act S E B) Q s : wp (f s) Q s → wp (get ≫= f) Q s.
Proof. intros Hf. apply wp_bind, wp_get. exact Hf. Qed.

Lemma wp_bind_modify {B} g (f : unit → act S E B) Q s : wp (f tt) Q (g s) → wp (modify g ≫= f) Q s.
Proof. intros Hf. apply wp_bind, wp_modify. exact Hf. Qed.

Lemma wp_bind_emit {B} e (f : unit → act S E B) Q s :
  wp (f tt) (λ b s2 t2, Q b s2 (e :: t2)) s → wp (emit e ≫= f) Q s.
Proof. intros Hf. apply wp_bind, wp_emit. exact Hf. Qed.

Lemma wp_bind_require {A B} (o : option A) a (f : A → act S E B) Q s :
  o = Some a → wp (f a) Q s → wp (require o ≫= f) Q s.
Proof. intros -> Hf. apply wp_bind, wp_ret. exact Hf. Qed.

Lemma keeps_require {A} (I : S → Prop) (o : option A) :
  is_Some o → keeps I (require (S := S) (E := E) o).
Proof. intros [a ->]. apply keeps_ret. Qed.

Lemma keeps_bind_require {A B} (I : S → Prop) (o : option A) (f : A → act S E B) :
  is_Some o → (∀ a, o = Some a → keeps I (f a)) → keeps I (require o ≫= f).
Proof. intros [a Ha] Hf s Hs. eapply wp_bind_require; [done|]. by apply Hf. Qed.

Lemma keeps_zoom {S' A} (I : S → Prop) (J : S' → Prop) sel upd (m : act S' E A) :
  (∀ s, I s → J (sel s)) → (∀ s x, I s → J x → I (upd x s)) → keeps J m →
  keeps I (zoom sel upd m).
Proof.
  intros Hs Hu Hm s HI. specialize (Hm (sel s) (Hs s HI)). unfold wp, zoom in *.
  destruct (m (sel s)); [|done]. by apply Hu.
Qed.
End Steps.

(** ** State changes that keep the invariant and the shape *)

Section Rules.
Context `{GuildLaws}.

Lemma elem_of_hash_iter {V} (m : gmap Z V) k v : (k, v) ∈ hash_iter m ↔ m !! k = Some v.
Proof. rewrite hash_iter_perm. apply elem_of_map_to_list. Qed.

Lemma GetMember_name_Some name g k m :
  GetMember_name name g = Some (k, m) → m_members g !! k = Some m ∧ Member.m_name m = name.
Proof.
  unfold GetMember_name. intros Hh.
  destruct (filter _ (hash_iter (m_members g))) as [|km l] eqn:Ef; [done|].
  assert (km ∈ filter (λ km, Member.m_name km.2 = name) (hash_iter (m_members g))) as Hin
    by (rewrite Ef; left).
  apply list_elem_of_filter in Hin as [Hn Hin]. simplify_eq/=.
  split; [by apply elem_of_hash_iter|done].
Qed.

(** The part of a guild that the invariant speaks of. *)
Definition core (g : Guild) :=
  (m_id g, m_ranks g, m_members g, m_leaderGuid g, m_bankTabs g, m_eventLog g, m_bankEventLog g).

Lemma inv_core g g' ps its its' :
  core g = core g' → guild_inv (mkGuildWorld g ps its) → guild_inv (mkGuildWorld g' ps its').
Proof.
  unfold core. intros [= E1 E2 E3 E4 E5 E6 E7] [? ? ? ? ? [? ?] Hon]. cbn [guild players] in *.
  split; cbn [guild players]; rewrite <- ?E1, <- ?E2, <- ?E3, <- ?E4, <- ?E5; try done.
  - unfold logs_ok. by rewrite <- E6, <- E7.
  - intros k p Hk. destruct (Hon k p Hk) as (? & ? & ?). unfold online_ok. by rewrite <- E1, <- E3.
Qed.

Lemma inv_at_core sh f w :
  (∀ g, core g = core (f g)) → inv_at sh w → inv_at sh (w <| guild ::= f |>).
Proof.
  intros Hf [Hi Hs]. destruct w as [g ps its]. split; [exact (inv_core g (f g) ps its its (Hf g) Hi)|].
  rewrite <- Hs. specialize (Hf g). unfold core in Hf. unfold shape_of, member_ranks. cbn.
  injection Hf as -> -> -> -> -> _ _. done.
Qed.

Lemma keeps_core sh f : (∀ g, core g = core (f g)) → keeps (inv_at sh) (on_guild f).
Proof. intros Hf. apply keeps_modify. intros w. by apply inv_at_core. Qed.

(** One member's data, but not his guid, rank or the width of his counters. *)
Definition same_member (m m' : Member.t) : Prop :=
  Member.m_guid m' = Member.m_guid m ∧ Member.m_rankId m' = Member.m_rankId m ∧
  length (Member.m_bankWithdraw m') = length (Member.m_bankWithdraw m).

Lemma inv_at_members sh w M :
  (∀ k, option_Forall2 same_member (m_members (guild w) !! k) (M !! k)) →
  inv_at sh w → inv_at sh (w <| guild ::= λ g, g <| m_members := M |> |>).
Proof.
  intros HM [[Hid Hr Hm Hl Ht Hlog Hon] Hs]. split.
  - split; try done.
    + intros k m' Hk. cbn in Hk. specialize (HM k). rewrite Hk in HM. inversion HM as [m ? (Hg & Hrk & Hw) Hm0|].
      subst. destruct (Hm k m) as [? ? ? ?]; [done|]. split; congruence.
    + destruct Hl as [m Hm0]. cbn. specialize (HM (m_leaderGuid (guild w))). rewrite Hm0 in HM.
      inversion HM. by eexists.
    + intros k p Hk. destruct (Hon k p Hk) as (Hg & Hid' & Hrk). cbn. specialize (HM k).
      split; [done|]. split.
      * cbn. rewrite Hid'. destruct HM; naive_solver.
      * cbn. intros m' Hm'. rewrite Hm' in HM. inversion HM as [m ? (_ & Hr' & _) E|]. subst.
        rewrite Hr'. by apply Hrk.
  - rewrite <- Hs. unfold shape_of. f_equal. apply map_eq. intros k. unfold member_ranks. cbn.
    rewrite !lookup_fmap. specialize (HM k). destruct HM as [? ? (_ & Hr' & _)|]; [|done]. cbn. congruence.
Qed.

Lemma inv_at_member sh w k f :
  (∀ m, same_member m (f m)) →
  inv_at sh w → inv_at sh (w <| guild ::= λ g, g <| m_members ::= alter f k |> |>).
Proof.
  intros Hf Hw. apply (inv_at_members sh w (alter f k (m_members (guild w)))); [|done].
  intros k'. destruct (decide (k = k')) as [->|Hk].
  - rewrite lookup_alter_eq. destruct (_ !! k'); constructor; auto.
  - rewrite lookup_alter_ne by done. destruct (_ !! k'); constructor; by split.
Qed.

Lemma keeps_on_member sh k f :
  (∀ m, same_member m (f m)) → keeps (inv_at sh) (on_member k f).
Proof. intros Hf. apply keeps_modify. intros w. by apply inv_at_member. Qed.

Lemma keeps_at_member sh k op :
  k ∈ dom (sh_members sh) →
  (∀ m, keeps (same_member m) op) → keeps (inv_at sh) (at_member k op).
Proof.
  intros Hk Hop w [Hw Hs]. unfold wp, at_member.
  assert (is_Some (m_members (guild w) !! k)) as [m Hm].
  { rewrite <- Hs in Hk. apply elem_of_dom in Hk. cbn in Hk. unfold member_ranks in Hk.
    rewrite lookup_fmap in Hk. by destruct (m_members (guild w) !! k); [eexists|destruct Hk]. }
  rewrite Hm. unfold zoom. specialize (Hop m m ltac:(by split)). unfold wp in Hop.
  destruct (op m) as [a m' t|]; [|done].
  apply (inv_at_members sh w (<[k := m']> (m_members (guild w)))); [|done].
  intros k'. destruct (decide (k = k')) as [->|Hk'].
  - rewrite lookup_insert_eq, Hm. by constructor.
  - rewrite lookup_insert_ne by done. destruct (_ !! k'); constructor; by split.
Qed.

Lemma inv_at_ranks sh w l :
  length l = length (m_ranks (guild w)) → ranks_ok l → inv_at sh w →
  inv_at sh (w <| guild ::= λ g, g <| m_ranks := l |> |>).
Proof.
  intros Hlen Hl [[] Hs]. split; [by split|]. rewrite <- Hs. unfold shape_of. cbn. by rewrite Hlen.
Qed.

Lemma ranks_ok_insert l i r r' : l !! i = Some r → rank_ok i r' → ranks_ok l → ranks_ok (<[i := r']> l).
Proof.
  intros Hi Hr [Hlen Hl]. split; [by rewrite length_insert|]. intros j x Hj.
  apply list_lookup_insert_Some in Hj as [(<- & <- & _)|[_ Hj]]; [done|by apply Hl].
Qed.

Lemma keeps_at_rank sh i op :
  (i < sh_ranks sh)%nat → keeps (rank_ok i) op → keeps (inv_at sh) (at_rank i op).
Proof.
  intros Hi Hop w [Hw Hs]. unfold wp, at_rank.
  assert (is_Some (m_ranks (guild w) !! i)) as [r Hr]
    by (apply lookup_lt_is_Some; rewrite <- Hs in Hi; exact Hi).
  rewrite Hr. unfold zoom. specialize (Hop r (proj2 (gi_ranks _ Hw) i r Hr)). unfold wp in Hop.
  destruct (op r) as [a r' t|]; [|done].
  apply (inv_at_ranks sh w (<[i := r']> (m_ranks (guild w)))); [by rewrite length_insert| |done].
  eapply ranks_ok_insert; [done..|by apply gi_ranks].
Qed.

Lemma keeps_at_tab sh i op :
  (i < sh_tabs sh)%nat → keeps (λ b, BankTab.m_tabId b = Z.of_nat i) op → keeps (inv_at sh) (at_tab i op).
Proof.
  intros Hi Hop w [Hw Hs]. unfold wp, at_tab.
  assert (is_Some (m_bankTabs (guild w) !! i)) as [b Hb]
    by (apply lookup_lt_is_Some; rewrite <- Hs in Hi; exact Hi).
  rewrite Hb. unfold zoom. destruct (gi_tabs _ Hw) as [Hlen Ht]. specialize (Hop b (Ht i b Hb)).
  unfold wp in Hop. destruct (op b) as [a b' t|]; [|done].
  assert (tabs_ok (<[i := b']> (m_bankTabs (guild w)))) as Hok.
  { split; [by rewrite length_insert|]. intros j x Hj.
    apply list_lookup_insert_Some in Hj as [(<- & <- & _)|[_ Hj]]; [done|by apply Ht]. }
  destruct Hw. split; [by split|]. rewrite <- Hs. unfold shape_of. cbn. by rewrite length_insert.
Qed.

(** A player's data, but not his guild or rank. *)
Lemma keeps_on_player sh guid f :
  (∀ p, PLAYER_GUILDID (f p) = PLAYER_GUILDID p ∧ PLAYER_GUILDRANK (f p) = PLAYER_GUILDRANK p) →
  keeps (inv_at sh) (on_player guid f).
Proof.
  intros Hf. apply keeps_modify. intros w [[] Hs]. split.
  - split; try done. intros k p Hk. cbn in Hk. cbn.
    apply lookup_alter_Some in Hk as [(<- & p0 & Hk & ->)|[_ Hk]]; [|by apply gi_online0].
    destruct (gi_online0 _ _ Hk) as (Hg & Hi & Hr). destruct (Hf p0) as [E1 E2].
    unfold online_ok. rewrite E1, E2. done.
  - rewrite <- Hs. unfold shape_of, others. cbn. rewrite dom_alter_L. f_equal. apply foreign_alter.
    intros p _. unfold foreign. by destruct (Hf p) as [-> ->].
Qed.

End Rules.

(** ** The logs

    A log drops its oldest entry when it is full. *)

Lemma forM_emit {S E} (l : list E) (s : S) : forM_ l emit s = Done tt s l.
Proof. induction l as [|e l IH]; [done|]. cbn [forM_]. unfold mbind, act_bind, emit at 1. by rewrite IH. Qed.

Section Logs.
Context {E : Type} `{LogEntry E}.

Definition pushed (e : E) (h : LogHolder.t E) : LogHolder.t E :=
  h <| LogHolder.m_log ::= λ l,
    (if LogHolder.m_maxRecords h <=? Z.of_nat (length l) then tail l else l) ++ [e] |>.

Lemma AddEvent_run e h :
  log_ok h → LogHolder.AddEvent e h = Done tt (pushed e h) (entry_SaveToDB e).
Proof.
  destruct h as [l gid mx nx]. unfold log_ok. cbn [LogHolder.m_maxRecords LogHolder.m_log].
  intros [Hmax Hlen]. unfold LogHolder.AddEvent, pushed, mbind, act_bind, get.
  cbn [LogHolder.m_maxRecords LogHolder.m_log].
  destruct (Z.leb_spec mx (Z.of_nat (length l))) as [Hl|Hl]; cbn.
  - destruct l as [|e0 l]; cbn [length] in *; [lia|]. cbn. rewrite forM_emit.
    by rewrite (proj2 (Z.leb_le _ _)) by lia.
  - rewrite forM_emit. by rewrite (proj2 (Z.leb_gt _ _)) by lia.
Qed.

Lemma pushed_ok e h : log_ok h → log_ok (pushed e h).
Proof.
  destruct h as [l gid mx nx]. unfold pushed, log_ok. cbn. intros [Hmax Hlen]. split; [done|].
  rewrite length_app. cbn. destruct (Z.leb_spec mx (Z.of_nat (length l))); [|lia].
  destruct l; cbn in *; lia.
Qed.

Lemma keeps_AddEvent e : keeps log_ok (LogHolder.AddEvent e).
Proof. intros h Hh. unfold wp. rewrite AddEvent_run by done. by apply pushed_ok. Qed.

(** The number of the next entry: zero at first, then around the ring. *)
Definition next_guid (h : LogHolder.t E) : Z :=
  if LogHolder.m_nextGUID h =? GUILD_EVENT_LOG_GUID_UNDEFINED then 0
  else u32 (LogHolder.m_nextGUID h + 1) mod LogHolder.m_maxRecords h.

Lemma GetNextGUID_run h :
  log_ok h →
  LogHolder.GetNextGUID h = Done (next_guid h) (h <| LogHolder.m_nextGUID := next_guid h |>) [].
Proof.
  intros [Hmax _]. unfold LogHolder.GetNextGUID, next_guid, mbind, act_bind, get.
  destruct (_ =? GUILD_EVENT_LOG_GUID_UNDEFINED); cbn; [done|].
  destruct (Z.eqb_spec (LogHolder.m_maxRecords h) 0); [lia|]. done.
Qed.

Lemma keeps_GetNextGUID : keeps log_ok (LogHolder.GetNextGUID (E := E)).
Proof. intros h Hh. unfold wp. by rewrite GetNextGUID_run. Qed.
End Logs.

#[export] Hint Resolve keeps_AddEvent keeps_GetNextGUID : act.

(** ** Every action's effect on the invariant *)

Section Actions.
Context `{GuildLaws}.

Lemma keeps_player_of sh guid : guid ∈ sh_players sh → keeps (inv_at sh) (player_of guid).
Proof.
  intros Hg. unfold player_of. apply keeps_bind_get. intros w [_ Hs]. apply keeps_require.
  apply elem_of_dom. by rewrite <- Hs in Hg.
Qed.

Lemma keeps_in_eventLog {A} sh (op : act _ _ A) : keeps log_ok op → keeps (inv_at sh) (in_eventLog op).
Proof.
  intros Hop. unfold in_eventLog. eapply keeps_zoom; [| |exact Hop].
  - intros w [Hw _]. apply (gi_logs _ Hw).
  - intros w h [[] Hs] Hh. split; [|done]. split; try done. destruct gi_logs0 as (? & ? & ?). by split.
Qed.

Lemma keeps_in_bankEventLog {A} sh i (op : act _ _ A) :
  (i < 7)%nat → keeps log_ok op → keeps (inv_at sh) (in_bankEventLog i op).
Proof.
  intros Hi Hop w [Hw Hs]. unfold wp, in_bankEventLog.
  destruct (gi_logs _ Hw) as (He & Hlen & Hall).
  destruct (lookup_lt_is_Some_2 (m_bankEventLog (guild w)) i) as [h Hh]; [lia|]. rewrite Hh.
  unfold zoom. pose proof (Hop h (Forall_lookup_1 _ _ _ _ Hall Hh)) as Hr. unfold wp in Hr.
  destruct (op h) as [a h' t|]; [|done]. destruct Hw. split; [|done]. split; try done.
  split; [done|]. cbn. rewrite length_insert. split; [done|]. by apply Forall_insert.
Qed.

(** Packets leave every state as it is. *)
Section Senders.
Context (I : GuildWorld → Prop).
Lemma keeps_BroadcastPacket p : keeps I (BroadcastPacket p).
Proof. unfold BroadcastPacket. keeps_auto. Qed.
Lemma keeps_BroadcastEvent e guid l : keeps I (_BroadcastEvent e guid l).
Proof. apply keeps_BroadcastPacket. Qed.
Lemma keeps_HandleRoster s : keeps I (HandleRoster s).
Proof. unfold HandleRoster. apply keeps_bind; [apply keeps_get|]. intros w. destruct s; [apply keeps_emit|apply keeps_BroadcastPacket]. Qed.
Lemma keeps_SendBankList s tab all slots : keeps I (_SendBankList s tab all slots).
Proof. unfold _SendBankList. keeps_auto. Qed.
Lemma keeps_SendText tab s : keeps I (SendText tab s).
Proof. destruct s; [apply keeps_emit|apply keeps_BroadcastPacket]. Qed.
Lemma keeps_SendPermissions s : keeps I (SendPermissions s).
Proof. unfold SendPermissions. keeps_auto. Qed.
Lemma keeps_SendMoneyInfo s : keeps I (SendMoneyInfo s).
Proof. unfold SendMoneyInfo. keeps_auto. Qed.
Lemma keeps_HandleQuery s : keeps I (HandleQuery s).
Proof. unfold HandleQuery. keeps_auto. Qed.
End Senders.

Lemma keeps_SetMoney sh guid v : keeps (inv_at sh) (SetMoney guid v).
Proof. unfold SetMoney. apply keeps_bind; [by apply keeps_on_player|]. intros _. apply keeps_emit. Qed.

Lemma keeps_ModifyMoney sh guid amount : guid ∈ sh_players sh → keeps (inv_at sh) (ModifyMoney guid amount).
Proof.
  intros Hg. unfold ModifyMoney. destruct (_ =? 0); [apply keeps_ret|].
  apply keeps_bind; [apply keeps_emit|]. intros _. apply keeps_bind; [by apply keeps_player_of|]. intros p.
  repeat (case_match || apply keeps_bind || apply keeps_SetMoney || apply keeps_ret || apply keeps_emit || intros ?).
Qed.

Lemma keeps_SaveGoldToDB sh guid : guid ∈ sh_players sh → keeps (inv_at sh) (SaveGoldToDB guid).
Proof.
  intros Hg. unfold SaveGoldToDB. apply keeps_bind; [by apply keeps_player_of|]. intros p. apply keeps_emit.
Qed.

Lemma keeps_ModifyBankMoney sh amount add : keeps (inv_at sh) (_ModifyBankMoney amount add).
Proof.
  unfold _ModifyBankMoney. apply keeps_bind; [apply keeps_get|]. intros w. destruct (_ && _); [apply keeps_ret|].
  apply keeps_bind; [by apply keeps_core|]. intros _. keeps_auto.
Qed.

Lemma keeps_LogEvent sh e g1 g2 r : keeps (inv_at sh) (_LogEvent e g1 g2 r).
Proof.
  unfold _LogEvent. apply keeps_bind; [apply keeps_get|]. intros w.
  apply keeps_bind; [apply keeps_in_eventLog, keeps_GetNextGUID|]. intros gd.
  apply keeps_bind; [apply keeps_in_eventLog, keeps_AddEvent|]. intros _. apply keeps_emit.
Qed.

Lemma keeps_LogBankEvent sh e tab g item n dest :
  keeps (inv_at sh) (_LogBankEvent e tab g item n dest).
Proof.
  unfold _LogBankEvent. destruct (Z.ltb_spec GUILD_BANK_MAX_TABS tab) as [|Hlt]; [apply keeps_ret|].
  destruct (_ && _); [apply keeps_ret|]. cbv zeta.
  assert (Z.to_nat (if BankEventLogEntry.IsMoneyEvent e then GUILD_BANK_MAX_TABS else tab) < 7)%nat as Hi
    by (unfold GUILD_BANK_MAX_TABS in *; destruct (BankEventLogEntry.IsMoneyEvent e); lia).
  apply keeps_bind; [apply keeps_get|]. intros w.
  apply keeps_bind; [apply keeps_in_bankEventLog; [done|apply keeps_GetNextGUID]|]. intros gd.
  apply keeps_bind; [apply keeps_in_bankEventLog; [done|apply keeps_AddEvent]|]. intros _. apply keeps_emit.
Qed.

Lemma keeps_UpdateAccountsNumber sh : keeps (inv_at sh) _UpdateAccountsNumber.
Proof. by apply keeps_core. Qed.

Lemma keeps_SendLoginInfo sh guid : guid ∈ sh_players sh → keeps (inv_at sh) (SendLoginInfo guid).
Proof.
  intros Hg. unfold SendLoginInfo, SendBankTabsInfo. apply keeps_bind; [apply keeps_get|]. intros w.
  apply keeps_bind; [apply keeps_emit|]. intros _. apply keeps_bind; [apply keeps_SendBankList|]. intros _.
  apply keeps_bind; [by apply keeps_player_of|]. intros p. apply keeps_bind; [apply keeps_HandleRoster|].
  intros _. apply keeps_bind; [apply keeps_BroadcastEvent|]. intros _. by apply keeps_on_member.
Qed.

(** *** Ranks of members *)

Definition with_rank (k r : Z) (sh : shape) : shape :=
  mkShape (sh_ranks sh) (sh_tabs sh) (sh_players sh) (<[k := r]> (sh_members sh)) (sh_leader sh) (sh_id sh) (sh_others sh).
Definition with_leader (k : Z) (sh : shape) : shape :=
  mkShape (sh_ranks sh) (sh_tabs sh) (sh_players sh) (sh_members sh) k (sh_id sh) (sh_others sh).

Definition rank_changed (k r : Z) (m : Member.t) (w : GuildWorld) : GuildWorld :=
  (w <| guild ::= λ g, g <| m_members ::= alter (λ m, m <| Member.m_rankId := r |>) k |> |>)
     <| players ::= alter (λ p, p <| PLAYER_GUILDRANK := r |>) (Member.m_guid m) |>.

Lemma ChangeRank_run k r w m :
  m_members (guild w) !! k = Some m →
  ChangeRank k r w = Done tt (rank_changed k r m w) [CHAR_UPD_GUILD_MEMBER_RANK r (GUID_LOPART (Member.m_guid m))].
Proof.
  intros Hm. unfold ChangeRank, on_member, on_guild, modify, mbind, act_bind, get, require, mret, act_ret.
  destruct w as [g ps its]. cbn in *. rewrite lookup_alter_eq, Hm. done.
Qed.

Lemma inv_rank_changed sh k r w m :
  inv_at sh w → m_members (guild w) !! k = Some m → 0 <= r <= GUILD_RANKS_MAX_COUNT →
  inv_at (with_rank k r sh) (rank_changed k r m w).
Proof.
  intros [[Hid Hr Hm Hl Ht Hlog Hon] Hs] Hk Hrng.
  destruct (Hm k m Hk) as [Hgk Hkk _ Hwd]. subst sh. destruct w as [g ps its]. unfold rank_changed. cbn in *.
  rewrite Hgk. split.
  - split; cbn; try done.
    + intros k' m' Hk'. apply lookup_alter_Some in Hk' as [(<- & m0 & Hk' & ->)|[_ Hk']]; [|by apply Hm].
      simplify_eq. by split.
    + destruct (decide (k = m_leaderGuid g)) as [<-|Hne]; [by rewrite lookup_alter_eq, Hk; eexists|].
      by rewrite lookup_alter_ne.
    + intros gd p Hp. unfold online_ok. cbn. apply lookup_alter_Some in Hp as [(<- & p0 & Hp & ->)|[Hne Hp]].
      * destruct (Hon _ _ Hp) as (Hg & Hi & Hrk). cbn. rewrite lookup_alter_eq, Hk.
        split; [done|]. split.
        -- rewrite Hi. rewrite Hk. split; by eexists.
        -- cbn. intros m' [= <-]. done.
      * destruct (Hon _ _ Hp) as (Hg & Hi & Hrk). rewrite lookup_alter_ne by congruence. done.
  - unfold with_rank, shape_of, others. cbn. rewrite dom_alter_L. f_equal.
    + unfold member_ranks. cbn. apply map_eq. intros k'. rewrite lookup_fmap.
      destruct (decide (k = k')) as [<-|Hne].
      * by rewrite lookup_alter_eq, lookup_insert_eq, Hk.
      * by rewrite lookup_alter_ne, lookup_insert_ne, lookup_fmap by done.
    + apply foreign_alter. intros p Hp. destruct (Hon _ _ Hp) as (_ & Hi & _).
      rewrite !foreign_none; [done|right..]; apply Hi; by eexists.
Qed.

Lemma member_in_shape sh k w :
  inv_at sh w → k ∈ dom (sh_members sh) → is_Some (m_members (guild w) !! k).
Proof.
  intros [_ <-] Hk. apply elem_of_dom in Hk. cbn in Hk. unfold member_ranks in Hk.
  rewrite lookup_fmap in Hk. by apply fmap_is_Some in Hk.
Qed.

Lemma wp_ChangeRank sh k r w (Q : unit → GuildWorld → list guild_event → Prop) :
  inv_at sh w → k ∈ dom (sh_members sh) → 0 <= r <= GUILD_RANKS_MAX_COUNT →
  (∀ w' t, inv_at (with_rank k r sh) w' → Q tt w' t) → wp (ChangeRank k r) Q w.
Proof.
  intros Hw Hk Hr HQ. destruct (member_in_shape sh k w Hw Hk) as [m Hm].
  unfold wp. rewrite (ChangeRank_run k r w m Hm). by apply HQ, inv_rank_changed.
Qed.

Lemma wp_SetLeaderGUID sh k w (Q : unit → GuildWorld → list guild_event → Prop) :
  inv_at sh w → k ∈ dom (sh_members sh) →
  (∀ w' t, inv_at (with_leader k (with_rank k GR_GUILDMASTER sh)) w' → Q tt w' t) →
  wp (_SetLeaderGUID k) Q w.
Proof.
  intros Hw Hk HQ. destruct (member_in_shape sh k w Hw Hk) as [m Hm].
  unfold _SetLeaderGUID. apply wp_bind_get. eapply wp_bind_require; [done|].
  unfold on_guild. apply wp_bind_modify. apply wp_bind.
  assert (inv_at (with_leader k sh) (w <| guild ::= λ g, g <| m_leaderGuid := Member.m_guid m |> |>)) as Hw'.
  { destruct Hw as [[] <-]. destruct (gi_members0 k m Hm) as [Hgk _ _ _].
    destruct w as [g ps its]. cbn in *. rewrite Hgk. split; [|done]. by split. }
  eapply wp_ChangeRank; [exact Hw'|done|done|]. intros w1 t1 H1. apply wp_emit. apply HQ. done.
Qed.
End Actions.

#[export] Hint Resolve keeps_BroadcastPacket keeps_BroadcastEvent keeps_HandleRoster keeps_SendBankList
  keeps_SendText keeps_SendPermissions keeps_SendMoneyInfo keeps_HandleQuery keeps_in_eventLog
  keeps_player_of : act.

(** *** Ranks and tabs *)

Section RankOps.
Context (i : nat).

Lemma rank_ok_tabs r j rs :
  rank_ok i r → rank_ok i (r <| RankInfo.m_bankTabRightsAndSlots ::= <[j := rs]> |>).
Proof. intros []. split; cbn; [done|by rewrite length_insert|done]. Qed.

Lemma keeps_CreateMissingTabs tabs :
  tabs <= 6 → keeps (rank_ok i) (RankInfo.CreateMissingTabsIfNeeded tabs).
Proof.
  intros Ht. unfold RankInfo.CreateMissingTabsIfNeeded. apply keeps_forM. intros x Hx.
  apply elem_of_seqZ in Hx. apply keeps_bind_get. intros r Hr.
  destruct (lookup_lt_is_Some_2 (RankInfo.m_bankTabRightsAndSlots r) (Z.to_nat x)) as [y Hy].
  { destruct Hr. lia. }
  rewrite Hy. destruct (_ =? x); [apply keeps_ret|]. cbv zeta.
  apply keeps_bind; [|intros _; apply keeps_emit].
  apply keeps_modify. intros r' Hr'. by apply rank_ok_tabs.
Qed.

Lemma keeps_SetName name : keeps (rank_ok i) (RankInfo.SetName name).
Proof.
  unfold RankInfo.SetName. apply keeps_bind; [apply keeps_get|]. intros r. destruct (String.eqb _ _); [apply keeps_ret|].
  apply keeps_bind; [|intros _; apply keeps_emit]. apply keeps_modify. intros r' []. by split.
Qed.

Lemma keeps_SetRights rights : keeps (rank_ok i) (RankInfo.SetRights rights).
Proof.
  unfold RankInfo.SetRights. apply keeps_bind_get. intros r Hr. cbv zeta.
  destruct (_ =? (if RankInfo.m_rankId r =? GR_GUILDMASTER then _ else _)); [apply keeps_ret|].
  apply keeps_bind; [|intros _; apply keeps_emit]. apply keeps_modify. intros r' [? ? Hm].
  split; [done|done|]. intros Hi. cbn. rewrite (rk_id _ _ Hr), Hi. done.
Qed.

Lemma keeps_SetBankMoneyPerDay money : keeps (rank_ok i) (RankInfo.SetBankMoneyPerDay money).
Proof.
  unfold RankInfo.SetBankMoneyPerDay. apply keeps_bind; [apply keeps_get|]. intros r. cbv zeta.
  destruct (_ =? (if RankInfo.m_rankId r =? GR_GUILDMASTER then _ else _)); [apply keeps_ret|].
  apply keeps_bind; [|intros _; apply keeps_emit]. apply keeps_modify. intros r' []. by split.
Qed.

Lemma master_values_tab rs : RightsAndSlots.GetTabId (RightsAndSlots.SetGuildMasterValues rs) = RightsAndSlots.GetTabId rs.
Proof. done. Qed.

Lemma keeps_SetBankTab rs save :
  0 <= RightsAndSlots.tabId rs < GUILD_BANK_MAX_TABS →
  keeps (rank_ok i) (RankInfo.SetBankTabSlotsAndRights rs save).
Proof.
  intros Hr. unfold RankInfo.SetBankTabSlotsAndRights. apply keeps_bind; [apply keeps_get|]. intros r.
  cbv zeta.
  assert (RightsAndSlots.GetTabId (if RankInfo.m_rankId r =? GR_GUILDMASTER
            then RightsAndSlots.SetGuildMasterValues rs else rs) = RightsAndSlots.tabId rs) as E.
  { unfold GUILD_BANK_MAX_TABS in Hr.
    destruct (_ =? _); rewrite ?master_values_tab; apply wraps_id; lia. }
  rewrite E. destruct (Z.ltb_spec (RightsAndSlots.tabId rs) 0); [lia|].
  destruct (Z.leb_spec GUILD_BANK_MAX_TABS (RightsAndSlots.tabId rs)); [lia|]. cbn [orb].
  apply keeps_bind; [|intros _; apply keeps_when, keeps_emit].
  apply keeps_modify. intros r' Hr'. by apply rank_ok_tabs.
Qed.
End RankOps.

Definition with_tabs (n : nat) (sh : shape) : shape :=
  mkShape (sh_ranks sh) n (sh_players sh) (sh_members sh) (sh_leader sh) (sh_id sh) (sh_others sh).
Definition with_ranks (n : nat) (sh : shape) : shape :=
  mkShape n (sh_tabs sh) (sh_players sh) (sh_members sh) (sh_leader sh) (sh_id sh) (sh_others sh).

Section Growth.
Context `{GuildLaws}.

Lemma ranks_size w : guild_inv w → _GetRanksSize (guild w) = Z.of_nat (length (m_ranks (guild w))).
Proof. intros []. destruct gi_ranks0 as [? _]. apply wrapu_id. lia. Qed.
Lemma tabs_size w : guild_inv w → _GetPurchasedTabsSize (guild w) = Z.of_nat (length (m_bankTabs (guild w))).
Proof. intros []. destruct gi_tabs0 as [? _]. apply wrapu_id. lia. Qed.

Lemma tabs_ok_app l b : tabs_ok l → (length l < 6)%nat → BankTab.m_tabId b = Z.of_nat (length l) → tabs_ok (l ++ [b]).
Proof.
  intros [Hlen Hl] Hlt Hb. split; [rewrite length_app; cbn; lia|]. intros i x Hi.
  apply lookup_app_Some in Hi as [Hi|[Hge Hi]]; [by apply Hl|].
  apply list_lookup_singleton_Some in Hi as [Hi <-]. rewrite Hb. f_equal. lia.
Qed.

Lemma wp_CreateNewBankTab sh w (Q : unit → GuildWorld → list guild_event → Prop) :
  inv_at sh w → (sh_tabs sh < 6)%nat →
  (∀ w' t, inv_at (with_tabs (S (sh_tabs sh)) sh) w' → Q tt w' t) → wp _CreateNewBankTab Q w.
Proof.
  intros Hw Ht HQ. unfold _CreateNewBankTab. apply wp_bind_get. cbv zeta. rewrite (tabs_size w) by apply Hw.
  assert (length (m_bankTabs (guild w)) = sh_tabs sh) as Hn by (by destruct Hw as [_ <-]).
  unfold on_guild. apply wp_bind_modify, wp_bind_emit, wp_bind_emit.
  set (w1 := setf guild _ w).
  assert (inv_at (with_tabs (S (sh_tabs sh)) sh) w1) as H1.
  { subst w1. destruct Hw as [[] Hs]. subst sh. split.
    - split; try done. cbn. apply tabs_ok_app; [done|by rewrite Hn|done].
    - unfold shape_of, with_tabs. cbn. rewrite length_app. cbn. f_equal. lia. }
  eapply keeps_wp; [|exact H1|intros [] s' t Hs'; by apply HQ].
  apply keeps_forM. intros i Hi. apply elem_of_seq in Hi. apply keeps_at_rank.
  - destruct Hw as [_ <-]. cbn. lia.
  - apply keeps_CreateMissingTabs. rewrite wrapu_id; lia.
Qed.

Lemma new_rank_ok id n name rights :
  (n = 0%nat → Z.land rights GR_RIGHT_ALL = GR_RIGHT_ALL) →
  rank_ok n (RankInfo.new id (Z.of_nat n) name rights 0).
Proof. intros Hr. by split. Qed.

Lemma ranks_ok_app l r :
  ranks_ok l → (length l < 10)%nat → rank_ok (length l) r → ranks_ok (l ++ [r]).
Proof.
  intros [Hlen Hl] Hlt Hr. split; [rewrite length_app; cbn; lia|]. intros i x Hi.
  apply lookup_app_Some in Hi as [Hi|[Hge Hi]]; [by apply Hl|].
  apply list_lookup_singleton_Some in Hi as [Hi <-]. by replace i with (length l) by lia.
Qed.

(** The state after a rank is created; the tabs of the copy in the list are not
    those of the rank that is saved. *)
Definition rank_added (name : string) (rights : Z) (w : GuildWorld) : GuildWorld :=
  w <| guild ::= λ g, g <| m_ranks ::= λ l,
    l ++ [RankInfo.new (m_id g) (Z.of_nat (length l)) name rights 0] |> |>.

Lemma keeps_saved_rank I n r tabs :
  tabs <= 6 → rank_ok n r → keeps I (zoom (λ _ : GuildWorld, r) (λ _ w, w) (RankInfo.CreateMissingTabsIfNeeded tabs)).
Proof.
  intros Ht Hr. apply keeps_zoom with (J := rank_ok n); [done|done|]. by apply keeps_CreateMissingTabs.
Qed.

Lemma wp_CreateRank name rights w (Q : bool → GuildWorld → list guild_event → Prop) :
  (length (m_ranks (guild w)) < 10)%nat → (length (m_bankTabs (guild w)) ≤ 6)%nat →
  (length (m_ranks (guild w)) = 0%nat → Z.land rights GR_RIGHT_ALL = GR_RIGHT_ALL) →
  (∀ t, Q true (rank_added name rights w) t) → wp (_CreateRank name rights) Q w.
Proof.
  intros Hn Ht Hr HQ. unfold _CreateRank. apply wp_bind_get. cbv zeta.
  assert (_GetRanksSize (guild w) = Z.of_nat (length (m_ranks (guild w)))) as -> by (apply wrapu_id; lia).
  unfold GUILD_RANKS_MAX_COUNT. destruct (Z.leb_spec 10 (Z.of_nat (length (m_ranks (guild w))))); [lia|].
  unfold on_guild. apply wp_bind_modify.
  apply (wp_bind_keeps (λ w', w' = rank_added name rights w));
    [eapply keeps_saved_rank; [|by apply new_rank_ok]|by destruct w|].
  - unfold _GetPurchasedTabsSize. rewrite wrapu_id; lia.
  - intros _ w' t ->. apply wp_bind_emit, wp_ret. apply HQ.
Qed.

Lemma inv_rank_added sh name rights w :
  inv_at sh w → (sh_ranks sh < 10)%nat → inv_at (with_ranks (S (sh_ranks sh)) sh) (rank_added name rights w).
Proof.
  intros [[] <-] Hn. unfold rank_added. split.
  - split; try done. cbn. apply ranks_ok_app; [done..|]. apply new_rank_ok.
    destruct gi_ranks0 as [? _]. lia.
  - unfold shape_of, with_ranks. cbn. rewrite length_app. cbn. f_equal. lia.
Qed.
End Growth.

(** *** Members come and go *)

Definition without (k : Z) (sh : shape) : shape :=
  mkShape (sh_ranks sh) (sh_tabs sh) (sh_players sh) (delete k (sh_members sh)) (sh_leader sh) (sh_id sh)
    (delete k (sh_others sh)).
Definition erased (guid : Z) (w : GuildWorld) : GuildWorld :=
  (w <| guild ::= λ g, g <| m_members ::= delete guid |> |>)
     <| players ::= alter (λ p, (p <| PLAYER_GUILDID := 0 |>) <| PLAYER_GUILDRANK := 0 |>) guid |>.

Section Members.
Context `{GuildLaws}.

(** Up to the count of accounts, which is last. *)
Lemma wp_erase_member guid (disbanding kicked : bool) w (Q : unit → GuildWorld → list guild_event → Prop) :
  guid32 guid →
  (if disbanding then ∀ t, Q tt (erased guid w) t
   else ∀ t (n : Z), Q tt ((erased guid w) <| guild ::= λ g, g <| m_accountsNumber := n |> |>) t) →
  wp (erase_member guid disbanding kicked) Q w.
Proof.
  intros Hg HQ. unfold erase_member. apply wp_bind_get. cbv zeta. rewrite GUID_LOPART_id by done.
  apply wp_bind_emit. unfold on_guild. apply wp_bind_modify.
  apply wp_bind, (wp_mono _ (λ _ w' _, w' = erased guid w)).
  - unfold FindPlayer, SetInGuild, SetRank, on_player. destruct w as [g ps its]. unfold erased. cbn.
    destruct (ps !! guid) as [p|] eqn:Hp.
    + apply wp_bind_modify, wp_modify. cbn. f_equal.
      apply map_eq. intros k. destruct (decide (k = guid)) as [->|Hk].
      * rewrite !lookup_alter_eq. by destruct (ps !! guid).
      * by rewrite !lookup_alter_ne by done.
    + apply wp_ret. f_equal. symmetry. apply map_eq. intros k. destruct (decide (k = guid)) as [->|Hk].
      * by rewrite lookup_alter_eq, Hp.
      * by rewrite lookup_alter_ne by done.
  - intros _ w' t ->. apply wp_bind_emit. destruct disbanding; cbn [negb when].
    + apply wp_ret. apply HQ.
    + unfold _UpdateAccountsNumber, on_guild. apply wp_modify. apply HQ.
Qed.

Lemma inv_erased sh guid w :
  inv_at sh w → guid ≠ sh_leader sh → inv_at (without guid sh) (erased guid w).
Proof.
  intros [[Hid Hr Hm Hl Ht Hlog Hon] <-] Hne. destruct w as [g ps its]. unfold erased. cbn in *. split.
  - split; cbn; try done.
    + by apply map_Forall_delete.
    + by rewrite lookup_delete_ne.
    + intros k p Hk. unfold online_ok. cbn. apply lookup_alter_Some in Hk as [(<- & p0 & Hk & ->)|[Hk' Hk]].
      * destruct (Hon _ _ Hk) as (Hg & _). rewrite lookup_delete_eq. split; [done|]. split; [|done].
        cbn. split; [intros ?; congruence|by intros [? ?]].
      * destruct (Hon _ _ Hk) as (Hg & ?). by rewrite lookup_delete_ne by congruence.
  - unfold without, shape_of, member_ranks, others. cbn. rewrite dom_alter_L, fmap_delete. f_equal.
    apply foreign_delete. intros p. apply foreign_none. by left.
Qed.

Lemma wp_erase_inv sh guid kicked w (Q : unit → GuildWorld → list guild_event → Prop) :
  inv_at sh w → guid32 guid → guid ≠ sh_leader sh →
  (∀ w' t, inv_at (without guid sh) w' → Q tt w' t) → wp (erase_member guid false kicked) Q w.
Proof.
  intros Hw Hg Hne HQ. apply wp_erase_member; [done|]. intros t n. apply HQ.
  apply inv_at_core; [done|]. by apply inv_erased.
Qed.

(** *** Disbanding *)

Record closing (w : GuildWorld) : Prop := {
  cl_id : m_id (guild w) ≠ 0;
  cl_members : members_ok (m_members (guild w));
  cl_online : map_Forall (λ k p, PLAYER_GUILDID p = m_id (guild w) ↔ is_Some (m_members (guild w) !! k)) (players w) }.

Lemma guild_inv_closing w : guild_inv w → closing w.
Proof. intros []. split; [done..|]. intros k p Hk. by apply (gi_online0 k p Hk). Qed.

Lemma closing_erased k w : closing w → closing (erased k w).
Proof.
  intros [Hid Hm Hon]. destruct w as [g ps its]. unfold erased. cbn in *. split; cbn; [done|by apply map_Forall_delete|].
  intros k' p Hk. apply lookup_alter_Some in Hk as [(<- & p0 & Hk & ->)|[Hk' Hk]]; cbn.
  - rewrite lookup_delete_eq. split; [congruence|by intros [? ?]].
  - rewrite lookup_delete_ne by congruence. by apply (Hon k').
Qed.
Lemma others_erased k w : closing w → is_Some (m_members (guild w) !! k) → others (erased k w) = others w.
Proof.
  intros Hw Hk. destruct w as [g ps its]. unfold others, erased. cbn. apply foreign_alter. intros p Hp.
  rewrite !foreign_none; [done|right|by left]. by apply (cl_online _ Hw k p Hp).
Qed.

Lemma wp_Disband_loop w :
  closing w →
  wp (Disband_loop (base.size (m_members (guild w))))
    (λ _ w' _, closing w' ∧ m_members (guild w') = ∅ ∧ dom (players w') = dom (players w) ∧
       m_id (guild w') = m_id (guild w) ∧ others w' = others w) w.
Proof.
  remember (base.size (m_members (guild w))) as n eqn:Hn. revert w Hn.
  induction n as [|n IH]; intros w Hn Hw; cbn [Disband_loop]; apply wp_bind_get.
  - symmetry in Hn. apply map_size_empty_inv in Hn. destruct (hash_iter _) as [|[k m] l] eqn:El.
    + apply wp_ret. done.
    + assert ((k, m) ∈ hash_iter (m_members (guild w))) as Hin by (rewrite El; left).
      rewrite elem_of_hash_iter, Hn in Hin. done.
  - destruct (hash_iter _) as [|[k m] l] eqn:El.
    + assert (m_members (guild w) = ∅) as E.
      { apply map_eq. intros k. rewrite lookup_empty. destruct (m_members (guild w) !! k) as [m|] eqn:Hk; [|done].
        apply elem_of_hash_iter in Hk. rewrite El in Hk. by apply not_elem_of_nil in Hk. }
      rewrite E, map_size_empty in Hn. done.
    + assert (m_members (guild w) !! k = Some m) as Hk by (apply elem_of_hash_iter; rewrite El; left).
      destruct (cl_members _ Hw k m Hk) as [Hgk Hkk _ _].
      apply wp_bind, wp_erase_member; [by rewrite Hgk|]. intros t. rewrite Hgk.
      eapply wp_mono; [apply IH; [|by apply closing_erased]|].
      * cbn. rewrite map_size_delete, Hk, <- Hn. done.
      * cbn. rewrite dom_alter_L. intros _ w' _ (? & ? & ? & ? & Hot). do 4 (split; [done|]). rewrite Hot. apply others_erased; [done|by eexists].
Qed.

Lemma wp_Disband w :
  closing w →
  wp Disband (λ _ w' t, (disbanded w' ∧ others w' = others w) ∧ dom (players w') = dom (players w) ∧
    m_id (guild w') = m_id (guild w) ∧ RemoveGuild (m_id (guild w)) ∈ t) w.
Proof.
  intros Hw. unfold Disband. apply wp_bind_get. cbv zeta. apply wp_bind_emit.
  apply (wp_bind_keeps (λ w', w' = w)); [apply keeps_BroadcastEvent|done|]. intros _ w1 t1 ->.
  apply wp_bind. eapply wp_mono; [by apply wp_Disband_loop|].
  intros _ w2 t2 ([? ? Hon] & He & Hd & Hid & Hot). do 3 apply wp_bind_emit.
  unfold _DeleteBankItems. apply wp_bind. apply wp_bind_get.
  apply (wp_bind_keeps (λ w', w' = w2));
    [apply keeps_forM; intros tab _; apply keeps_forM; intros e _; apply keeps_emit|done|].
  intros _ w3 t3 ->. unfold on_guild. apply wp_modify. do 4 apply wp_bind_emit. apply wp_emit.
  split; [|split; [done|split; [done|]]].
  - split; [|exact Hot]. split; [done|]. split; [done|]. intros k p Hk Hp. destruct (proj1 (Hon k p Hk) Hp) as [m Hm].
    by rewrite He in Hm.
  - right. rewrite !elem_of_app. right. right. do 3 right. apply elem_of_app. right. do 4 right. left.
Qed.

(** *** Joining *)

Definition joined (guid : Z) (m : Member.t) (w : GuildWorld) : GuildWorld :=
  (w <| guild ::= λ g, g <| m_members ::= <[guid := m]> |> |>)
    <| players ::= alter (λ p, ((p <| PLAYER_GUILDID := m_id (guild w) |>) <| m_GuildIdInvited := 0 |>)
                               <| PLAYER_GUILDRANK := Member.m_rankId m |>) guid |>.

Lemma inv_joined sh guid m w :
  inv_at sh w → member_ok guid m → (∀ p, players w !! guid = Some p → PLAYER_GUILDID p = 0) →
  inv_at (with_rank guid (Member.m_rankId m) sh) (joined guid m w).
Proof.
  intros [[Hid Hr Hm Hl Ht Hlog Hon] <-] Hmok Hfree. destruct w as [g ps its]. unfold joined. cbn in *. split.
  - split; cbn; try done.
    + by apply map_Forall_insert_2.
    + destruct (decide (guid = m_leaderGuid g)) as [<-|Hne]; [by rewrite lookup_insert_eq; eexists|].
      by rewrite lookup_insert_ne.
    + intros k p Hk. unfold online_ok. cbn. apply lookup_alter_Some in Hk as [(<- & p0 & Hk & ->)|[Hk' Hk]].
      * destruct (Hon _ _ Hk) as (Hg & _). rewrite lookup_insert_eq. split; [done|]. split; [|by intros m' [= <-]].
        split; [by eexists|done].
      * destruct (Hon _ _ Hk) as (Hg & ?). by rewrite lookup_insert_ne by congruence.
  - unfold with_rank, shape_of, member_ranks, others. cbn. rewrite dom_alter_L, fmap_insert. f_equal.
    apply foreign_alter. intros p Hp. rewrite !foreign_none; [done|left; by apply Hfree|by right].
Qed.

(** Joined, but the player's fields are those of somebody offline. *)
Lemma joined_offline guid m w :
  players w !! guid = None → joined guid m w = w <| guild ::= λ g, g <| m_members ::= <[guid := m]> |> |>.
Proof.
  intros Hp. destruct w as [g ps its]. unfold joined. cbn in *. f_equal. apply map_eq. intros k.
  destruct (decide (k = guid)) as [->|Hk]; [by rewrite lookup_alter_eq, Hp|by rewrite lookup_alter_ne].
Qed.

Lemma lowest_rank w :
  guild_inv w → _GetLowestRankId (guild w) = Z.of_nat (length (m_ranks (guild w))) - 1.
Proof. intros []. destruct gi_ranks0 as [? _]. apply wrapu_id. lia. Qed.

Definition rank_given (rankId : Z) (w : GuildWorld) : Z :=
  if rankId =? GUILD_RANK_NONE then _GetLowestRankId (guild w) else rankId.

(** What [AddMember] does once the member is in the map. *)
Lemma wp_member_added sh guid name player rankId w (Q : bool → GuildWorld → list guild_event → Prop) :
  inv_at sh w → guid32 guid → guid ∈ dom (sh_members sh) →
  (∀ w' t, inv_at sh w' → Q true w' t) →
  wp (w ← get; m ← require (m_members (guild w) !! guid);
      emit (Member.SaveToDB m) ;; _UpdateAccountsNumber ;;
      _LogEvent GUILD_EVENT_LOG_JOIN_GUILD guid 0 0 ;; _BroadcastEvent GE_JOINED guid [name] ;;
      emit (OnGuildAddMember player rankId) ;; mret true) Q w.
Proof.
  intros Hw Hg Hin HQ. apply wp_bind_get. destruct (member_in_shape sh guid w Hw Hin) as [m Hm].
  eapply wp_bind_require; [done|]. apply wp_bind_emit.
  apply (wp_bind_keeps (inv_at sh)); [apply keeps_UpdateAccountsNumber|done|]. intros _ w1 t1 H1.
  apply (wp_bind_keeps (inv_at sh)); [apply keeps_LogEvent|done|]. intros _ w2 t2 H2.
  apply (wp_bind_keeps (inv_at sh)); [apply keeps_BroadcastEvent|done|]. intros _ w3 t3 H3.
  apply wp_bind_emit, wp_ret. by apply HQ.
Qed.

Lemma wp_AddMember_at sh guid rankId w (Q : bool → GuildWorld → list guild_event → Prop) :
  guid32 guid → 0 <= rank_given rankId w <= GUILD_RANKS_MAX_COUNT → guid ∈ dom (sh_members sh) →
  (∀ m, member_ok guid m → Member.m_rankId m = rank_given rankId w →
     (∀ p, players w !! guid = Some p → PLAYER_GUILDID p = 0) → inv_at sh (joined guid m w)) →
  (match players w !! guid with Some p => PLAYER_GUILDID p ≠ 0 | None => True end → ∀ t, Q false w t) →
  (∀ w' t, inv_at sh w' → Q true w' t) →
  wp (AddMember guid rankId) Q w.
Proof.
  intros Hg Hr Hin Hj HQf HQt. unfold AddMember. apply wp_bind_get. cbv zeta. rewrite GUID_LOPART_id by done.
  fold (rank_given rankId w). set (r := rank_given rankId w) in *. unfold FindPlayer.
  destruct (players w !! guid) as [p|] eqn:Hp; cbn [fmap option_fmap option_map].
  - destruct (Z.eqb_spec (PLAYER_GUILDID p) 0); cbn [negb]; [|by apply wp_ret, HQf]. apply wp_bind_emit.
    set (m0 := Member.new UninitFlags (u64 time_now) (m_id (guild w)) guid r).
    apply wp_bind. unfold on_guild, SetInGuild, SetGuildIdInvited, SetRank. do 4 apply wp_bind_modify.
    match goal with |- wp _ _ ?s => assert (s = joined guid m0 w) as -> end.
    { destruct w as [g ps its]. unfold joined. cbn. f_equal. apply map_eq. intros k.
      destruct (decide (k = guid)) as [->|Hk]; [|by rewrite !lookup_alter_ne].
      rewrite !lookup_alter_eq. by destruct (ps !! guid). }
    specialize (Hj m0 ltac:(by split) eq_refl ltac:(by intros ? [= <-])).
    assert (guid ∈ sh_players sh) as Hon.
    { destruct Hj as [_ <-]. cbn. unfold joined. cbn. rewrite dom_alter_L. by apply elem_of_dom_2 in Hp. }
    apply (wp_bind_keeps (inv_at sh)); [by apply keeps_on_member|exact Hj|].
    intros _ w1 t1 H1'. apply (wp_bind_keeps (inv_at sh)); [by apply keeps_SendLoginInfo|exact H1'|].
    intros _ w2 t2 H2. apply wp_ret. apply (wp_member_added sh); [done..|]. intros w' t Hw'. by apply HQt.
  - destruct (negb _); [by apply wp_ret, HQf|]. apply wp_bind_emit.
    apply wp_bind. destruct (CHAR_SEL_CHAR_DATA_FOR_GUILD guid) as [[[[[name level] class] zone] account]|];
      [|by apply wp_ret, wp_ret, HQf].
    destruct (Member.CheckStats _); [|by apply wp_ret, wp_ret, HQf].
    unfold on_guild. apply wp_bind_modify, wp_ret. rewrite <- joined_offline by done.
    apply (wp_member_added sh); [apply Hj; [by split|done|done]|done..|]. intros w' t Hw'. by apply HQt.
Qed.

Lemma rank_given_ok rankId w :
  guild_inv w → rankId = GUILD_RANK_NONE ∨ 0 <= rankId <= GUILD_RANKS_MAX_COUNT →
  0 <= rank_given rankId w <= GUILD_RANKS_MAX_COUNT.
Proof.
  intros Hw Hr. unfold rank_given. destruct (Z.eqb_spec rankId GUILD_RANK_NONE); [|by destruct Hr].
  rewrite (lowest_rank w Hw). destruct Hw as [? [Hlen _]]. unfold GUILD_RANKS_MAX_COUNT. lia.
Qed.

Lemma wp_AddMember sh guid rankId w (Q : bool → GuildWorld → list guild_event → Prop) :
  inv_at sh w → guid32 guid → rankId = GUILD_RANK_NONE ∨ 0 <= rankId <= GUILD_RANKS_MAX_COUNT →
  (∀ t, Q false w t) →
  (∀ w' t, inv_at (with_rank guid (rank_given rankId w) sh) w' → Q true w' t) →
  wp (AddMember guid rankId) Q w.
Proof.
  intros Hw Hg Hrk HQf HQt. apply (wp_AddMember_at (with_rank guid (rank_given rankId w) sh)); [done|..]; auto.
  - by apply rank_given_ok; [apply Hw|].
  - cbn. set_solver.
  - intros m Hm <- Hfree. by apply inv_joined.
Qed.

(** *** Leaving *)

Lemma newLeader_of_spec low l :
  match newLeader_of low l with
  | None => ∀ km, km ∈ l → km.1 = low
  | Some nl => nl ∈ l ∧ nl.1 ≠ low ∧
      ∀ km, km ∈ l → km.1 ≠ low → Member.m_rankId nl.2 <= Member.m_rankId km.2
  end.
Proof.
  induction l as [|km l IH] using rev_ind; [intros km Hkm; by apply not_elem_of_nil in Hkm|].
  unfold newLeader_of in *. rewrite foldl_app. cbn [foldl].
  destruct (foldl _ None l) as [nl|].
  - destruct IH as (Hin & Hne & Hle). destruct (Z.eqb_spec km.1 low) as [He|He].
    + split; [set_solver|]. split; [done|]. intros km' Hk Hn.
      apply elem_of_app in Hk as [Hk| ->%list_elem_of_singleton]; [by apply Hle|done].
    + destruct (Z.ltb_spec (Member.m_rankId km.2) (Member.m_rankId nl.2)) as [Hlt|Hge].
      * split; [set_solver|]. split; [done|]. intros km' Hk Hn.
        apply elem_of_app in Hk as [Hk| ->%list_elem_of_singleton]; [|lia].
        specialize (Hle km' Hk Hn). lia.
      * split; [set_solver|]. split; [done|]. intros km' Hk Hn.
        apply elem_of_app in Hk as [Hk| ->%list_elem_of_singleton]; [by apply Hle|done].
  - destruct (Z.eqb_spec km.1 low) as [He|He].
    + intros km' Hk. apply elem_of_app in Hk as [Hk| ->%list_elem_of_singleton]; auto.
    + split; [set_solver|]. split; [done|]. intros km' Hk Hn.
      apply elem_of_app in Hk as [Hk| ->%list_elem_of_singleton]; [by apply IH in Hk|done].
Qed.
End Members.

(** ** What a request may do

    [session] acts; a member's rank number grows downwards. *)

Record outcome `{GuildEnv} (session : Z) (w w' : GuildWorld) : Prop := {
  oc_ends : guild_inv w' ∨ disbanded w';
  oc_online : dom (players w') = dom (players w);
  oc_id : m_id (guild w') = m_id (guild w);
  oc_leader : m_leaderGuid (guild w') ≠ m_leaderGuid (guild w) → _IsLeader session (guild w) = true;
  oc_joins : ∀ k r, member_ranks w !! k = None → member_ranks w' !! k = Some r →
    k = session ∧ r = _GetLowestRankId (guild w);
  oc_authority : ∀ k r, member_ranks w !! k = Some r → k ≠ session → member_ranks w' !! k ≠ Some r →
    _IsLeader session (guild w) = true ∨
    ∃ me, member_ranks w !! session = Some me ∧ me < r ∧
      ∀ r', member_ranks w' !! k = Some r' → me < r';
  oc_others : others w' = others w ∨ others w' = delete session (others w) }.

(** The leader has the rank of the leader. *)
Definition leader_master (w : GuildWorld) : Prop :=
  member_ranks w !! m_leaderGuid (guild w) = Some GR_GUILDMASTER.

Section Requests.
Context `{GuildLaws}.
Context (session : Z).

Lemma outcome_same sh w w' : inv_at sh w → inv_at sh w' → outcome session w w'.
Proof.
  intros [_ <-] [Hw Hs]. injection Hs as Hr Ht Hp Hm Hl Hi Hot.
  split; [by left|done|done|congruence|..|by left]; rewrite Hm; intros; congruence.
Qed.

(** A request that leaves ranks, members and leader alone. *)
Lemma wp_keeps_outcome {A} sh (m : gact A) w :
  inv_at sh w → keeps (inv_at sh) m → wp m (λ _ w' _, outcome session w w') w.
Proof. intros Hw Hm. eapply keeps_wp; [done..|]. intros a w' t Hw'. by eapply outcome_same. Qed.

Lemma inv_at_self w : guild_inv w → inv_at (shape_of w) w.
Proof. by split. Qed.

Lemma session_guid w : guild_inv w → session ∈ dom (players w) → guid32 session.
Proof. intros [] [p Hp]%elem_of_dom. by destruct (gi_online0 _ _ Hp). Qed.

Lemma GetMember_rank w guid m :
  guid32 guid → GetMember guid (guild w) = Some m → member_ranks w !! guid = Some (Member.m_rankId m).
Proof. unfold GetMember, member_ranks. intros Hg. rewrite GUID_LOPART_id, lookup_fmap by done. by intros ->. Qed.

Lemma GetRankInfo_lt w r i : guild_inv w → GetRankInfo i (guild w) = Some r → 0 <= i → (Z.to_nat i < length (m_ranks (guild w)))%nat.
Proof. unfold GetRankInfo. intros Hw Hr Hi. destruct (_ <? _); [|done]. by apply lookup_lt_Some in Hr. Qed.

Lemma GetBankTab_lt i b g : GetBankTab i g = Some b → (Z.to_nat i < length (m_bankTabs g))%nat.
Proof. unfold GetBankTab. intros Hr. destruct (_ <? _); [|done]. by apply lookup_lt_Some in Hr. Qed.

Lemma wp_bind_player {B} guid p (f : Player → gact B) Q w :
  players w !! guid = Some p → wp (f p) Q w → wp (player_of guid ≫= f) Q w.
Proof.
  intros Hp Hf. unfold wp, player_of, mbind, act_bind, get in *. cbn. rewrite Hp. cbn.
  by destruct (f p w).
Qed.

(** *** Ranks of members, leadership *)

Lemma wp_HandleSetLeader name w :
  guild_inv w → session ∈ dom (players w) →
  wp (HandleSetLeader session name) (λ _ w' _, outcome session w w' ∧
    (leader_master w → leader_master w' ∨ fst <$> GetMember_name name (guild w) = Some session)) w.
Proof.
  intros Hw Hd. pose proof (session_guid w Hw Hd) as Hg. unfold HandleSetLeader. apply wp_bind_get.
  pose proof (inv_at_self w Hw) as Hi.
  destruct (proj1 (elem_of_dom _ _) Hd) as [player Hp]. eapply wp_bind_player; [exact Hp|].
  destruct (_IsLeader session (guild w)) eqn:El; cbn [negb].
  2: { apply wp_emit. split; [by eapply outcome_same|by left]. }
  destruct (GetMember session (guild w)) as [me|] eqn:Hme; [|apply wp_ret; split; [by eapply outcome_same|by left]].
  destruct (GetMember_name name (guild w)) as [[k m]|] eqn:Hn; [|apply wp_ret; split; [by eapply outcome_same|by left]].
  apply GetMember_name_Some in Hn as [Hk _]. rewrite GUID_LOPART_id by done.
  pose proof (GetMember_rank w session me Hg Hme) as Hmr.
  assert (member_ranks w !! k = Some (Member.m_rankId m)) as Hkr by (unfold member_ranks; by rewrite lookup_fmap, Hk).
  apply wp_bind. apply (wp_SetLeaderGUID (shape_of w)); [done|by apply elem_of_dom_2 in Hkr|]. intros w1 t1' H1.
  apply wp_bind. eapply wp_ChangeRank; [exact H1| |done|].
  { cbn. apply elem_of_dom_2 in Hmr. set_solver. }
  intros w2 t2 H2. eapply keeps_wp; [apply keeps_BroadcastEvent|exact H2|].
  intros _ w3 t3 [H3 Hs]. injection Hs as ? ? Hpl Hm Hld Hid Hot. cbn in Hm. split.
  - split; [by left|done|done|done|rewrite Hm|by left|by left].
    intros k' r' Hk' Hr'. exfalso. apply lookup_insert_Some in Hr' as [[<- _]|[_ Hr']]; [congruence|].
    apply lookup_insert_Some in Hr' as [[<- _]|[_ Hr']]; congruence.
  - intros _. cbn. destruct (decide (k = session)) as [->|Hne]; [by right|left].
    unfold leader_master. rewrite Hld, Hm. cbn. rewrite lookup_insert_ne by done. by rewrite lookup_insert_eq.
Qed.

(** The target's rank, before and after, against the actor's. *)
Lemma wp_HandleUpdateMemberRank name demote w :
  guild_inv w → session ∈ dom (players w) →
  wp (HandleUpdateMemberRank session name demote) (λ _ w' _, outcome session w w' ∧
    (leader_master w → leader_master w')) w.
Proof.
  intros Hw Hd. pose proof (session_guid w Hw Hd) as Hg. unfold HandleUpdateMemberRank. apply wp_bind_get.
  pose proof (inv_at_self w Hw) as Hi.
  assert (outcome session w w ∧ (leader_master w → leader_master w)) as Hsame
    by (split; [by eapply outcome_same|done]).
  destruct (proj1 (elem_of_dom _ _) Hd) as [player Hp]. eapply wp_bind_player; [exact Hp|]. cbv zeta.
  destruct (_HasRankRight session _ (guild w)) eqn:Hright; cbn [negb]; [|by apply wp_emit].
  destruct (GetMember_name name (guild w)) as [[k m]|] eqn:Hn; [|by apply wp_ret].
  apply GetMember_name_Some in Hn as [Hk _].
  destruct (Member.IsSamePlayer session m) eqn:Hsp; [by apply wp_emit|].
  unfold _HasRankRight in Hright. destruct (GetMember session (guild w)) as [me|] eqn:Hme; [|done].
  eapply wp_bind_require; [done|]. cbv zeta. unfold Member.IsRankNotLower.
  destruct (gi_members _ Hw k m Hk) as [Hgk Hkk Hrk _].
  pose proof (GetMember_rank w session me Hg Hme) as Hmr.
  assert (0 <= Member.m_rankId me <= GUILD_RANKS_MAX_COUNT) as Hme'.
  { unfold GetMember in Hme. rewrite GUID_LOPART_id in Hme by done. by destruct (gi_members _ Hw _ _ Hme). }
  assert (k ≠ session) as Hne by (unfold Member.IsSamePlayer in Hsp; rewrite Hgk in Hsp; lia).
  assert (member_ranks w !! k = Some (Member.m_rankId m)) as Hkr by (unfold member_ranks; by rewrite lookup_fmap, Hk).
  destruct (demote && (Member.m_rankId m <=? Member.m_rankId me)) eqn:Hhigh; [by apply wp_emit|].
  destruct (demote && (_GetLowestRankId (guild w) <=? Member.m_rankId m)) eqn:Hlow; [by apply wp_emit|].
  destruct (negb demote && (Member.m_rankId m <=? u8 (Member.m_rankId me + 1))) eqn:Hprom; [by apply wp_emit|].
  set (r := u8 (Member.m_rankId m + (if demote then 1 else -1))).
  assert (Member.m_rankId me < Member.m_rankId m ∧ Member.m_rankId me < r <= GUILD_RANKS_MAX_COUNT) as (H1 & H2).
  { subst r. unfold wrapu, GUILD_RANKS_MAX_COUNT in *. destruct demote; cbn [andb negb] in *.
    - rewrite (lowest_rank w Hw) in Hlow. destruct (gi_ranks _ Hw) as [Hlen _]. rewrite Z.mod_small; lia.
    - rewrite Z.mod_small in Hprom by lia. rewrite Z.mod_small; lia. }
  apply wp_bind. eapply wp_ChangeRank; [exact Hi|by apply elem_of_dom_2 in Hkr|lia|]. intros w1 t1 H1'.
  apply (wp_bind_keeps (inv_at (with_rank k r (shape_of w)))); [apply keeps_LogEvent|done|]. intros _ w2 t2 H2'.
  eapply keeps_wp; [apply keeps_BroadcastEvent|exact H2'|].
  intros _ w3 t3 [Hw3 Hs]. injection Hs as ? ? Hpl Hm Hld Hid Hot. cbn in Hm.
  split; [split; [by left|done|done|congruence|rewrite Hm..|by left]|].
  - intros k' r' Hk' Hr'. exfalso. apply lookup_insert_Some in Hr' as [[<- _]|[_ Hr']]; congruence.
  - intros k' r' Hk' Hns Hr'. right. exists (Member.m_rankId me).
    destruct (decide (k = k')) as [<-|Hnk]; [|by rewrite lookup_insert_ne in Hr'].
    rewrite lookup_insert_eq. simplify_eq. split; [done|]. split; [done|]. intros r2 [= <-]. lia.
  - unfold leader_master. rewrite Hld, Hm. intros Hlm. rewrite lookup_insert_ne; [done|].
    intros ->. rewrite Hkr in Hlm. injection Hlm as E. unfold GR_GUILDMASTER in E. lia.
Qed.

(** *** Leaving, removal, disbanding *)

Lemma disband_outcome w (Q : unit → GuildWorld → list guild_event → Prop) :
  guild_inv w → _IsLeader session (guild w) = true →
  (∀ w' t, outcome session w w' → disbanded w' → Q tt w' t) → wp Disband Q w.
Proof.
  intros Hw Hl HQ. eapply wp_mono; [apply wp_Disband; by apply guild_inv_closing|].
  intros [] w' t ((Hdis & Hot) & Hdom & Hid & _). apply HQ; [|done].
  split; [by right|done|done|done| |by left|by left].
  intros k r _ Hr. destruct Hdis as (E & _). unfold member_ranks in Hr. by rewrite E in Hr.
Qed.

(** One member is gone, everybody else as before. *)
Lemma outcome_without sh k w w' :
  inv_at sh w → inv_at (without k sh) w' →
  (∀ r, member_ranks w !! k = Some r → k ≠ session → _IsLeader session (guild w) = true ∨
     ∃ me, member_ranks w !! session = Some me ∧ me < r) →
  (k ≠ session → is_Some (member_ranks w !! k)) →
  outcome session w w'.
Proof.
  intros [Hw <-] [Hw' Hs] Hk Hin. injection Hs as ? ? Hpl Hm Hld Hid Hot. cbn in Hm.
  split; [by left|done|done|congruence|rewrite Hm..|].
  - intros k' r' Hn Hr'. apply lookup_delete_Some in Hr' as [_ Hr']. congruence.
  - intros k' r' Hr Hns Hr'. destruct (decide (k = k')) as [<-|Hne]; [|by rewrite lookup_delete_ne in Hr'].
    rewrite lookup_delete_eq. destruct (Hk r' Hr Hns) as [?|(me & ? & ?)]; [by left|right].
    exists me. by split_and!.
  - destruct (decide (k = session)) as [<-|Hne]; [by right|left]. rewrite Hot. apply delete_id.
    destruct (Hin Hne) as [r Hr]. unfold others. rewrite lookup_omap.
    destruct (players w !! k) as [p|] eqn:Hp; [|done]. cbn. eapply others_member; [done| |done].
    unfold member_ranks in Hr. rewrite lookup_fmap in Hr. by apply fmap_Some in Hr as (m & -> & _).
Qed.

Lemma wp_HandleLeaveMember w :
  guild_inv w → session ∈ dom (players w) →
  wp (HandleLeaveMember session) (λ _ w' _, outcome session w w' ∧
    (leader_master w → leader_master w' ∨ disbanded w')) w.
Proof.
  intros Hw Hd. pose proof (session_guid w Hw Hd) as Hg. unfold HandleLeaveMember. apply wp_bind_get.
  pose proof (inv_at_self w Hw) as Hi.
  destruct (proj1 (elem_of_dom _ _) Hd) as [player Hp]. eapply wp_bind_player; [exact Hp|].
  apply wp_bind. destruct (_IsLeader session (guild w)) eqn:El.
  - destruct (1 <? _).
    + apply wp_emit, wp_emit. split; [by eapply outcome_same|by left].
    + apply disband_outcome; [done..|]. intros w' t Ho Hdis. apply wp_emit. split; [done|by right].
  - assert (session ≠ m_leaderGuid (guild w)) as Hne.
    { unfold _IsLeader in El. destruct (Z.eqb_spec session (m_leaderGuid (guild w))); done. }
    unfold DeleteMember. apply wp_bind, wp_bind_get. cbv zeta.
    destruct (Z.eqb_spec (m_leaderGuid (guild w)) session) as [|_]; [done|]. cbn [andb].
    eapply wp_erase_inv; [exact Hi|done|done|]. intros w1 t1 H1.
    apply (wp_bind_keeps (inv_at (without session (shape_of w)))); [apply keeps_LogEvent|done|]. intros _ w2 t2 H2.
    apply (wp_bind_keeps (inv_at (without session (shape_of w)))); [apply keeps_BroadcastEvent|done|].
    intros _ w3 t3 H3. apply wp_emit, wp_emit. split; [by eapply outcome_without|].
    destruct H3 as [_ Hs]. injection Hs as ? ? Hpl Hm Hld Hid Hot. cbn in Hm. intros Hlm. left.
    unfold leader_master. rewrite Hld, Hm. by rewrite lookup_delete_ne.
Qed.

Lemma wp_DeleteMember_other sh guid kicked w (Q : unit → GuildWorld → list guild_event → Prop) :
  inv_at sh w → guid32 guid → guid ≠ sh_leader sh →
  (∀ w' t, inv_at (without guid sh) w' → Q tt w' t) → wp (DeleteMember guid false kicked) Q w.
Proof.
  intros Hw Hg Hne HQ. unfold DeleteMember. apply wp_bind_get. cbv zeta.
  destruct (Z.eqb_spec (m_leaderGuid (guild w)) guid) as [E|_].
  { destruct Hw as [_ <-]. by rewrite <- E in Hne. }
  by apply (wp_erase_inv sh).
Qed.

(** The member next in rank, or nobody. *)
Definition successor (guid : Z) (w : GuildWorld) (k : Z) : Prop :=
  ∃ r, member_ranks w !! k = Some r ∧ k ≠ guid ∧
       ∀ k' r', member_ranks w !! k' = Some r' → k' ≠ guid → r <= r'.

Lemma wp_DeleteMember_leader kicked w (Q : unit → GuildWorld → list guild_event → Prop) :
  guild_inv w →
  (∀ w' t, disbanded w' → dom (players w') = dom (players w) → m_id (guild w') = m_id (guild w) →
     (∀ k, is_Some (member_ranks w !! k) → k = m_leaderGuid (guild w)) → Q tt w' t) →
  (∀ k w' t, successor (m_leaderGuid (guild w)) w k →
     inv_at (without (m_leaderGuid (guild w)) (with_leader k (with_rank k GR_GUILDMASTER (shape_of w)))) w' →
     Q tt w' t) →
  wp (DeleteMember (m_leaderGuid (guild w)) false kicked) Q w.
Proof.
  intros Hw HQd HQs. pose proof (inv_at_self w Hw) as Hi. set (ld := m_leaderGuid (guild w)) in *.
  assert (guid32 ld) as Hg by (destruct (gi_leader _ Hw) as [m Hm]; by destruct (gi_members _ Hw _ _ Hm)).
  unfold DeleteMember. apply wp_bind_get. cbv zeta. fold ld. rewrite Z.eqb_refl, GUID_LOPART_id by done. cbn [negb andb].
  pose proof (newLeader_of_spec ld (hash_iter (m_members (guild w)))) as Hspec.
  destruct (newLeader_of ld (hash_iter (m_members (guild w)))) as [[k nl]|].
  - destruct Hspec as (Hin & Hne & Hle). cbn in Hne, Hle. rewrite elem_of_hash_iter in Hin.
    assert (member_ranks w !! k = Some (Member.m_rankId nl)) as Hkr by (unfold member_ranks; by rewrite lookup_fmap, Hin).
    destruct (gi_members _ Hw k nl Hin) as [Hgk Hkk _ _].
    apply wp_bind. apply (wp_SetLeaderGUID (shape_of w)); [done|by apply elem_of_dom_2 in Hkr|].
    intros w1 t1 H1. set (sh1 := with_leader k (with_rank k GR_GUILDMASTER (shape_of w))) in *.
    assert (is_Some (players w1 !! k) → ∀ p, players w1 !! k = Some p → PLAYER_GUILDRANK p = GR_GUILDMASTER) as Hrank.
    { intros _ p Hp. destruct H1 as [Hw1 Hs1]. destruct (gi_online _ Hw1 k p Hp) as (_ & _ & Hrk).
      injection Hs1 as _ _ _ Hm _ _ _. assert (member_ranks w1 !! k = Some GR_GUILDMASTER) as E
        by (rewrite Hm; cbn; by rewrite lookup_insert_eq).
      unfold member_ranks in E. rewrite lookup_fmap in E. apply fmap_Some in E as (m & Hm1 & E). rewrite E. by apply Hrk. }
    unfold SetRank at 1, on_player. rewrite Hgk. apply wp_bind_modify.
    replace (w1 <| players ::= alter (λ p, p <| PLAYER_GUILDRANK := GR_GUILDMASTER |>) k |>) with w1.
    2: { destruct w1 as [g ps its]. cbn in *. f_equal. apply map_eq. intros k'.
         destruct (decide (k = k')) as [<-|Hn]; [|by rewrite lookup_alter_ne].
         rewrite lookup_alter_eq. destruct (ps !! k) as [p|]; [|done]. cbn. f_equal.
         specialize (Hrank ltac:(by eexists) p eq_refl). destruct p. cbn in *. by subst. }
    apply (wp_bind_keeps (inv_at sh1)); [|done|].
    { destruct (m_members (guild w) !! ld) as [old|]; [|apply keeps_ret].
      apply keeps_bind; [apply keeps_BroadcastEvent|]. intros _. apply keeps_BroadcastEvent. }
    intros _ w2 t2 H2. apply (wp_erase_inv sh1); [done..|]. intros w3 t3 H3. apply (HQs k); [|done].
    exists (Member.m_rankId nl). split; [done|]. split; [done|]. intros k' r' Hk' Hn'.
    unfold member_ranks in Hk'. rewrite lookup_fmap in Hk'. apply fmap_Some in Hk' as (m' & Hm' & ->).
    apply (Hle (k', m')); [by apply elem_of_hash_iter|done].
  - eapply wp_mono; [apply wp_Disband; by apply guild_inv_closing|].
    intros [] w' t ((Hdis & _) & Hdom & Hid & _). apply HQd; [done..|]. intros k [r Hk].
    unfold member_ranks in Hk. rewrite lookup_fmap in Hk. apply fmap_Some in Hk as (m & Hm & _).
    apply (Hspec (k, m)). by apply elem_of_hash_iter.
Qed.

Lemma wp_HandleRemoveMember name w :
  guild_inv w → leader_master w → session ∈ dom (players w) →
  wp (HandleRemoveMember session name) (λ _ w' _, outcome session w w' ∧ leader_master w') w.
Proof.
  intros Hw Hlm Hd. pose proof (session_guid w Hw Hd) as Hg. unfold HandleRemoveMember. apply wp_bind_get.
  pose proof (inv_at_self w Hw) as Hi.
  assert (outcome session w w ∧ leader_master w) as Hsame by (split; [by eapply outcome_same|done]).
  destruct (proj1 (elem_of_dom _ _) Hd) as [player Hp]. eapply wp_bind_player; [exact Hp|].
  destruct (_HasRankRight session _ (guild w)) eqn:Hright; cbn [negb]; [|by apply wp_emit].
  destruct (GetMember_name name (guild w)) as [[k m]|] eqn:Hn; [|by apply wp_ret].
  apply GetMember_name_Some in Hn as [Hk _].
  destruct (Member.IsRank GR_GUILDMASTER m) eqn:Hgm; [by apply wp_emit|].
  destruct (GetMember session (guild w)) as [me|] eqn:Hme; [|by apply wp_emit].
  destruct (Member.IsRankNotLower _ m) eqn:Hlow; [by apply wp_emit|]. cbv zeta.
  destruct (gi_members _ Hw k m Hk) as [Hgk Hkk Hrk _]. rewrite Hgk.
  pose proof (GetMember_rank w session me Hg Hme) as Hmr.
  assert (member_ranks w !! k = Some (Member.m_rankId m)) as Hkr by (unfold member_ranks; by rewrite lookup_fmap, Hk).
  unfold Member.IsRank, Member.IsRankNotLower in *.
  assert (k ≠ m_leaderGuid (guild w)) as Hkl.
  { intros ->. unfold leader_master in Hlm. rewrite Hkr in Hlm. injection Hlm as E. rewrite E in Hgm. done. }
  apply wp_bind. apply (wp_DeleteMember_other (shape_of w)); [done..|]. intros w1 t1 H1.
  apply (wp_bind_keeps (inv_at (without k (shape_of w)))); [apply keeps_LogEvent|done|]. intros _ w2 t2 H2.
  eapply keeps_wp; [apply keeps_BroadcastEvent|exact H2|]. intros _ w3 t3 H3. split.
  - eapply outcome_without; [exact Hi|exact H3| |by eexists]. intros r Hr _. right. exists (Member.m_rankId me).
    split; [done|]. rewrite Hkr in Hr. injection Hr as <-. lia.
  - destruct H3 as [_ Hs]. injection Hs as ? ? Hpl Hm Hld Hid Hot. cbn in Hm.
    unfold leader_master. rewrite Hld, Hm. by rewrite lookup_delete_ne.
Qed.

(** *** Joining, ranks, tabs *)

Lemma wp_HandleAcceptMember w :
  guild_inv w → session ∈ dom (players w) →
  wp (HandleAcceptMember session) (λ _ w' _, outcome session w w' ∧ (leader_master w → leader_master w')) w.
Proof.
  intros Hw Hd. pose proof (session_guid w Hw Hd) as Hg. unfold HandleAcceptMember. apply wp_bind_get.
  pose proof (inv_at_self w Hw) as Hi.
  assert (outcome session w w ∧ (leader_master w → leader_master w)) as Hsame by (split; [by eapply outcome_same|done]).
  destruct (proj1 (elem_of_dom _ _) Hd) as [player Hp]. eapply wp_bind_player; [exact Hp|].
  destruct (_ && _); [by apply wp_ret|]. apply wp_bind.
  destruct (decide (member_ranks w !! session = None)) as [Hnew|Hold].
  - eapply wp_AddMember; [exact Hi|done|by left|intros; by apply wp_ret|].
    intros w' t [Hw' Hs]. apply wp_ret. injection Hs as ? ? Hpl Hm Hld Hid Hot. cbn in Hm.
    change (rank_given GUILD_RANK_NONE w) with (_GetLowestRankId (guild w)) in Hm. split.
    + split; [by left|done|done|congruence|rewrite Hm..|by left].
      * intros k r Hn Hr. apply lookup_insert_Some in Hr as [[<- <-]|[_ Hr]]; [done|congruence].
      * intros k r Hr Hns Hr'. by rewrite lookup_insert_ne in Hr'.
    + unfold leader_master. rewrite Hld, Hm. intros Hlm. rewrite lookup_insert_ne; [done|]. congruence.
  - unfold AddMember. apply wp_bind_get. cbv zeta. unfold FindPlayer. rewrite Hp.
    destruct (Z.eqb_spec (PLAYER_GUILDID player) 0) as [E|]; cbn [negb]; [|by apply wp_ret, wp_ret].
    exfalso. destruct (gi_online _ Hw session player Hp) as (_ & Hmem & _). apply (gi_id _ Hw).
    rewrite <- E. symmetry. apply Hmem. unfold member_ranks in Hold. rewrite lookup_fmap in Hold.
    by destruct (m_members (guild w) !! session).
Qed.

(** The shape changes only in the number of ranks or tabs. *)
Lemma outcome_resized w w' sh :
  inv_at sh w' → sh_players sh = dom (players w) → sh_members sh = member_ranks w →
  sh_leader sh = m_leaderGuid (guild w) → sh_id sh = m_id (guild w) → sh_others sh = others w →
  outcome session w w' ∧ (leader_master w → leader_master w').
Proof.
  intros [Hw' <-]. cbn. intros Hp Hm Hl Hi Hot. split.
  - split; [by left|done|done|congruence|..|by left]; rewrite Hm; intros; congruence.
  - unfold leader_master. by rewrite Hl, Hm.
Qed.

Lemma wp_HandleAddNewRank name w :
  guild_inv w → wp (HandleAddNewRank session name) (λ _ w' _, outcome session w w' ∧ (leader_master w → leader_master w')) w.
Proof.
  intros Hw. unfold HandleAddNewRank. apply wp_bind_get. pose proof (inv_at_self w Hw) as Hi. cbv zeta.
  assert (outcome session w w ∧ (leader_master w → leader_master w)) as Hsame by (split; [by eapply outcome_same|done]).
  rewrite (ranks_size w Hw). destruct (Z.leb_spec GUILD_RANKS_MAX_COUNT (Z.of_nat (length (m_ranks (guild w))))) as [|Hlt];
    [by apply wp_ret|].
  unfold GUILD_RANKS_MAX_COUNT in Hlt. destruct (_IsLeader _ _); [|by apply wp_ret]. apply wp_bind.
  destruct (gi_ranks _ Hw) as [Hlen _], (gi_tabs _ Hw) as [Htabs _].
  apply wp_CreateRank; [lia|lia|lia|]. intros t. cbn [when].
  eapply keeps_wp; [apply keeps_BroadcastEvent|apply (inv_rank_added (shape_of w)); [done|cbn; lia]|].
  intros _ w' t' Hw'. by eapply outcome_resized.
Qed.

Lemma wp_HandleRemoveLowestRank w :
  guild_inv w → wp (HandleRemoveLowestRank session) (λ _ w' _, outcome session w w' ∧ (leader_master w → leader_master w')) w.
Proof.
  intros Hw. unfold HandleRemoveLowestRank, HandleRemoveRank. do 2 apply wp_bind_get. cbv zeta.
  pose proof (inv_at_self w Hw) as Hi.
  assert (outcome session w w ∧ (leader_master w → leader_master w)) as Hsame by (split; [by eapply outcome_same|done]).
  rewrite (ranks_size w Hw). destruct (_ || _ || _) eqn:Ec; [by apply wp_ret|].
  apply orb_false_iff in Ec as [[Ec _]%orb_false_iff _]. unfold GUILD_RANKS_MIN_COUNT in Ec.
  do 2 apply wp_bind_emit. unfold on_guild. apply wp_bind_modify.
  set (w1 := setf guild _ w).
  assert (inv_at (with_ranks (length (m_ranks (guild w)) - 1) (shape_of w)) w1) as H1.
  { subst w1. destruct Hw as [? [Hlen Hr] ? ? ? ? ?]. split.
    - split; try done. cbn. split; [rewrite length_take; lia|]. intros i r Hir.
      apply lookup_take_Some in Hir as [Hir _]. by apply Hr.
    - unfold shape_of, with_ranks. cbn. f_equal. rewrite length_take. lia. }
  eapply keeps_wp; [apply keeps_BroadcastEvent|exact H1|]. intros _ w' t' Hw'. by eapply outcome_resized.
Qed.

Lemma wp_HandleBuyBankTab tabId w :
  guild_inv w → session ∈ dom (players w) →
  wp (HandleBuyBankTab session tabId) (λ _ w' _, outcome session w w' ∧ (leader_master w → leader_master w')) w.
Proof.
  intros Hw Hd. unfold HandleBuyBankTab. apply wp_bind_get. pose proof (inv_at_self w Hw) as Hi.
  assert (outcome session w w ∧ (leader_master w → leader_master w)) as Hsame by (split; [by eapply outcome_same|done]).
  destruct (proj1 (elem_of_dom _ _) Hd) as [player Hp]. eapply wp_bind_player; [exact Hp|].
  destruct (GetMember session (guild w)); [|by apply wp_ret]. rewrite (tabs_size w Hw).
  destruct (Z.leb_spec GUILD_BANK_MAX_TABS (Z.of_nat (length (m_bankTabs (guild w))))) as [|Hlt]; [by apply wp_ret|].
  destruct (negb _); [by apply wp_ret|]. cbv zeta. destruct (_ =? 0); [by apply wp_ret|].
  destruct (negb _); [by apply wp_ret|].
  apply (wp_bind_keeps (inv_at (shape_of w))); [by apply keeps_ModifyMoney|done|]. intros _ w1 t1 H1.
  apply wp_bind. unfold GUILD_BANK_MAX_TABS in Hlt.
  apply (wp_CreateNewBankTab (shape_of w)); [done|cbn; lia|]. intros w2 t2 H2.
  set (sh := with_tabs _ _) in *.
  apply (wp_bind_keeps (inv_at sh)); [apply keeps_BroadcastEvent|done|]. intros _ w3 t3 H3.
  eapply keeps_wp; [apply keeps_SendPermissions|exact H3|]. intros _ w' t' Hw'. by eapply outcome_resized.
Qed.

(** *** Everything else keeps ranks, members and leader *)

Lemma keeps_get_when (I : GuildWorld → Prop) (b : GuildWorld → bool) (m : gact unit) :
  keeps I m → keeps I (w ← get; when (b w) m).
Proof. intros Hm. apply keeps_bind; [apply keeps_get|]. intros w. by apply keeps_when. Qed.

Lemma keeps_set_rank_tabs sh rankId rs :
  0 <= rankId → 0 <= RightsAndSlots.tabId rs < GUILD_BANK_MAX_TABS →
  keeps (inv_at sh) (_SetRankBankTabRightsAndSlots rankId rs true).
Proof.
  intros Hr Ht. unfold _SetRankBankTabRightsAndSlots. apply keeps_bind_get. intros w [Hw Hs].
  destruct (_ <=? _); [apply keeps_ret|]. unfold rank_index.
  destruct (GetRankInfo rankId (guild w)) as [r|] eqn:E; [|apply keeps_ret].
  apply keeps_at_rank; [|by apply keeps_SetBankTab]. rewrite <- Hs. by eapply GetRankInfo_lt.
Qed.

Lemma keeps_HandleSetRankInfo sh rankId name rights money tabs :
  request_ok (ReqSetRank rankId name rights money tabs) →
  keeps (inv_at sh) (HandleSetRankInfo session rankId name rights money tabs).
Proof.
  intros ([Hr _] & _ & Ht). unfold HandleSetRankInfo. apply keeps_bind_get. intros w [Hw Hs].
  destruct (negb _); [apply keeps_emit|].
  destruct (GetRankInfo rankId (guild w)) as [r|] eqn:E; [|apply keeps_ret].
  assert (Z.to_nat rankId < sh_ranks sh)%nat as Hlt by (rewrite <- Hs; by eapply GetRankInfo_lt).
  apply keeps_bind; [apply keeps_at_rank; [done|apply keeps_SetName]|]. intros _.
  apply keeps_bind; [apply keeps_at_rank; [done|apply keeps_SetRights]|]. intros _.
  apply keeps_bind.
  { unfold _SetRankBankMoneyPerDay. apply keeps_bind_get. intros w1 [Hw1 Hs1]. unfold rank_index.
    destruct (GetRankInfo rankId (guild w1)); [|apply keeps_ret].
    apply keeps_at_rank; [done|apply keeps_SetBankMoneyPerDay]. }
  intros _. apply keeps_bind; [|intros _; apply keeps_BroadcastEvent].
  apply keeps_forM. intros rs Hrs. apply keeps_set_rank_tabs; [done|].
  rewrite Forall_forall in Ht. by apply Ht.
Qed.

Lemma keeps_UpdateBankWithdraw m tabId amount :
  tabId <= GUILD_BANK_MAX_TABS → keeps (same_member m) (Member.UpdateBankWithdrawValue tabId amount).
Proof.
  intros Ht. unfold Member.UpdateBankWithdrawValue. destruct (Z.ltb_spec GUILD_BANK_MAX_TABS tabId); [lia|].
  apply keeps_bind; [|intros _; apply keeps_bind; [apply keeps_get|intros m'; apply keeps_emit]].
  apply keeps_modify. intros m' (? & ? & Hl). split; [done|]. split; [done|]. cbn. by rewrite length_alter.
Qed.

Lemma keeps_set_note m note (isPublic : bool) :
  keeps (same_member m) (if isPublic then Member.SetPublicNote note else Member.SetOfficerNote note).
Proof.
  destruct isPublic; [unfold Member.SetPublicNote|unfold Member.SetOfficerNote];
    (apply keeps_bind; [apply keeps_get|]; intros m'; destruct (String.eqb _ _); [apply keeps_ret|];
     apply keeps_bind; [by apply keeps_modify|]; intros _; apply keeps_emit).
Qed.

Lemma keeps_broadcast_amount I amount : keeps I (broadcast_amount amount).
Proof. apply keeps_bind; [apply keeps_emit|]. intros _. apply keeps_BroadcastEvent. Qed.

Lemma keeps_HandleMemberWithdrawMoney sh amount repair :
  session ∈ sh_players sh → guid32 session → keeps (inv_at sh) (HandleMemberWithdrawMoney session amount repair).
Proof.
  intros Hd Hg. unfold HandleMemberWithdrawMoney. apply keeps_bind_get. intros w [Hw Hs].
  destruct (_ <? amount); [apply keeps_ret|]. apply keeps_bind; [by apply keeps_player_of|]. intros p.
  destruct (GetMember session (guild w)) as [m|] eqn:Hm; [|apply keeps_ret].
  destruct (_ <? amount); [apply keeps_ret|]. apply keeps_bind; [apply keeps_emit|]. intros _.
  apply keeps_bind.
  { destruct repair; [apply keeps_ret|]. apply keeps_bind; [by apply keeps_ModifyMoney|]. intros [].
    - apply keeps_bind; [by apply keeps_SaveGoldToDB|]. intros _. apply keeps_ret.
    - apply keeps_ret. }
  intros []; cbn [negb]; [|apply keeps_ret].
  apply keeps_bind; [apply keeps_at_member; [|intros m'; by apply keeps_UpdateBankWithdraw]|].
  { rewrite <- Hs, GUID_LOPART_id by done. cbn. apply (elem_of_dom_2 _ _ (Member.m_rankId m)). by apply GetMember_rank. }
  intros _. apply keeps_bind; [apply keeps_ModifyBankMoney|]. intros _.
  apply keeps_bind; [by apply keeps_LogBankEvent|]. intros _.
  apply keeps_bind; [apply keeps_broadcast_amount|]. intros _. apply keeps_ret.
Qed.

Lemma keeps_HandleMemberDepositMoney sh amount :
  session ∈ sh_players sh → keeps (inv_at sh) (HandleMemberDepositMoney session amount).
Proof.
  intros Hd. unfold HandleMemberDepositMoney. apply keeps_bind; [by apply keeps_player_of|]. intros p.
  apply keeps_bind; [apply keeps_emit|]. intros _. apply keeps_bind; [apply keeps_ModifyBankMoney|]. intros _.
  apply keeps_bind; [by apply keeps_ModifyMoney|]. intros _. apply keeps_bind; [by apply keeps_SaveGoldToDB|]. intros _.
  apply keeps_bind; [by apply keeps_LogBankEvent|]. intros _. apply keeps_broadcast_amount.
Qed.

Lemma keeps_HandleInviteMember sh name :
  session ∈ sh_players sh → keeps (inv_at sh) (HandleInviteMember session name).
Proof.
  intros Hd. unfold HandleInviteMember. apply keeps_bind; [apply keeps_get|]. intros w.
  destruct (find_tolower name w) as [[g p]|]; [|apply keeps_emit].
  apply keeps_bind; [by apply keeps_player_of|]. intros me.
  repeat (case_match; [apply keeps_ret || apply keeps_emit|]).
  apply keeps_bind; [apply keeps_emit|]. intros _. apply keeps_bind; [by apply keeps_on_player|]. intros _.
  apply keeps_bind; [apply keeps_LogEvent|]. intros _. apply keeps_emit.
Qed.

Lemma keeps_HandleSetEmblem sh e :
  session ∈ sh_players sh → keeps (inv_at sh) (HandleSetEmblem session e).
Proof.
  intros Hd. unfold HandleSetEmblem. apply keeps_bind; [apply keeps_get|]. intros w.
  apply keeps_bind; [by apply keeps_player_of|]. intros me.
  destruct (negb _); [apply keeps_emit|]. destruct (negb _); [apply keeps_emit|].
  apply keeps_bind; [by apply keeps_ModifyMoney|]. intros _. apply keeps_bind; [by apply keeps_core|]. intros _.
  apply keeps_bind; [apply keeps_emit|]. intros _. apply keeps_bind; [apply keeps_emit|]. intros _. apply keeps_HandleQuery.
Qed.

Lemma keeps_SetBankTabInfo sh tabId name icon :
  keeps (inv_at sh) (HandleSetBankTabInfo tabId name icon).
Proof.
  unfold HandleSetBankTabInfo. apply keeps_bind_get. intros w [Hw Hs].
  destruct (GetBankTab tabId (guild w)) as [b|] eqn:E; [|apply keeps_ret].
  apply keeps_bind; [|intros _; apply keeps_BroadcastEvent]. apply keeps_at_tab.
  - rewrite <- Hs. by eapply GetBankTab_lt.
  - unfold BankTab.SetInfo. apply keeps_bind; [apply keeps_get|]. intros b'. destruct (_ && _); [apply keeps_ret|].
    apply keeps_bind; [by apply keeps_modify|]. intros _. apply keeps_emit.
Qed.

Lemma keeps_SetBankTabText sh tabId text : keeps (inv_at sh) (SetBankTabText tabId text).
Proof.
  unfold SetBankTabText. apply keeps_bind_get. intros w [Hw Hs].
  destruct (GetBankTab tabId (guild w)) as [b|] eqn:E; [|apply keeps_ret].
  assert (Z.to_nat tabId < sh_tabs sh)%nat as Hlt by (rewrite <- Hs; by eapply GetBankTab_lt).
  apply keeps_bind.
  - apply keeps_at_tab; [done|]. unfold BankTab.SetText. apply keeps_bind; [apply keeps_get|]. intros b'.
    destruct (String.eqb _ _); [apply keeps_ret|]. apply keeps_bind; [by apply keeps_modify|]. intros _.
    apply keeps_bind; [apply keeps_get|]. intros b2. apply keeps_emit.
  - intros _. apply keeps_bind_get. intros w1 [_ Hs1]. apply keeps_bind_require; [|intros b1 _; apply keeps_SendText].
    apply lookup_lt_is_Some. by rewrite <- Hs1 in Hlt.
Qed.

Lemma keeps_HandleSetMemberNote sh name note isPublic :
  keeps (inv_at sh) (HandleSetMemberNote session name note isPublic).
Proof.
  unfold HandleSetMemberNote. apply keeps_bind_get. intros w [Hw Hs].
  destruct (negb _); [apply keeps_emit|].
  destruct (GetMember_name name (guild w)) as [[k m]|] eqn:Hn; [|apply keeps_ret].
  apply GetMember_name_Some in Hn as [Hk _].
  apply keeps_bind; [|intros _; apply keeps_HandleRoster].
  apply keeps_at_member; [|intros m'; apply keeps_set_note].
  rewrite <- Hs. cbn. unfold member_ranks. rewrite dom_fmap. by apply elem_of_dom_2 in Hk.
Qed.

Lemma keeps_SendBankLog sh tabId : 0 <= tabId → keeps (inv_at sh) (SendBankLog session tabId).
Proof.
  intros Ht. unfold SendBankLog. apply keeps_bind_get. intros w [Hw Hs].
  destruct (_ || _) eqn:E; [|apply keeps_ret].
  apply keeps_bind; [|intros h; apply keeps_emit]. apply keeps_in_bankEventLog; [|apply keeps_get].
  rewrite (tabs_size w Hw) in E. destruct (gi_tabs _ Hw) as [Hlen _]. unfold GUILD_BANK_MAX_TABS in E.
  apply orb_true_iff in E as [E|E]; lia.
Qed.

Lemma keeps_BroadcastToGuild sh officerOnly msg language :
  session ∈ sh_players sh → keeps (inv_at sh) (BroadcastToGuild session officerOnly msg language).
Proof.
  intros Hd. unfold BroadcastToGuild. apply keeps_bind; [apply keeps_get|]. intros w.
  apply keeps_bind; [by apply keeps_player_of|]. intros me. keeps_auto.
Qed.

Definition changes_members (rq : guild_request) : bool :=
  match rq with
  | ReqSetLeader _ | ReqBuyTab _ | ReqAccept | ReqLeave | ReqRemove _ | ReqPromote _ | ReqDemote _
  | ReqAddRank _ | ReqRemoveRank | ReqDisband => true
  | _ => false
  end.

Lemma keeps_serve sh rq :
  changes_members rq = false → request_ok rq → session ∈ sh_players sh → guid32 session →
  keeps (inv_at sh) (serve_guild session rq).
Proof.
  intros Hc Hok Hd Hg. destruct rq; try discriminate Hc; cbn [serve_guild request_ok] in *.
  - apply keeps_HandleRoster.
  - apply keeps_HandleQuery.
  - unfold SendInfo. keeps_auto.
  - unfold SendEventLog. keeps_auto.
  - apply keeps_SendBankLog. lia.
  - apply keeps_SendBankList.
  - unfold SendBankTabData, _SendBankContent. apply keeps_get_when. apply keeps_bind; [apply keeps_get|].
    intros w. destruct (negb _); [apply keeps_ret|apply keeps_SendBankList].
  - unfold SendBankTabText. apply keeps_bind; [apply keeps_get|]. intros w.
    destruct (GetBankTab _ _); [apply keeps_SendText|apply keeps_ret].
  - apply keeps_SendPermissions.
  - apply keeps_SendMoneyInfo.
  - by apply keeps_SendLoginInfo.
  - by apply keeps_BroadcastToGuild.
  - unfold HandleSetMOTD. apply keeps_bind; [apply keeps_get|]. intros w. destruct (String.eqb _ _); [apply keeps_ret|].
    destruct (negb _); [apply keeps_emit|]. apply keeps_bind; [by apply keeps_core|]. intros _.
    do 2 (apply keeps_bind; [apply keeps_emit|]; intros _). apply keeps_BroadcastEvent.
  - unfold HandleSetInfo. apply keeps_bind; [apply keeps_get|]. intros w. destruct (String.eqb _ _); [apply keeps_ret|].
    apply keeps_when. apply keeps_bind; [by apply keeps_core|]. intros _. apply keeps_bind; [apply keeps_emit|]. intros _. apply keeps_emit.
  - by apply keeps_HandleSetEmblem.
  - apply keeps_SetBankTabInfo.
  - apply keeps_SetBankTabText.
  - apply keeps_HandleSetMemberNote.
  - by apply keeps_HandleSetRankInfo.
  - by apply keeps_HandleInviteMember.
  - by apply keeps_HandleMemberDepositMoney.
  - apply keeps_bind; [by apply keeps_HandleMemberWithdrawMoney|]. intros b. apply keeps_ret.
  - unfold HandleMemberLogout. apply keeps_bind; [by apply keeps_player_of|]. intros p.
    apply keeps_bind; [by apply keeps_on_member|]. intros _. apply keeps_BroadcastEvent.
  - apply keeps_on_member. intros m. repeat case_match; by split.
  - apply keeps_on_member. intros m. repeat case_match; by split.
  - apply keeps_on_member. intros m. destruct state; by split.
  - unfold MassInviteToEvent. apply keeps_bind; [apply keeps_get|]. intros w. destruct (MassInvite_loop _ _ _ _ _ _); apply keeps_emit.
Qed.

Lemma wp_serve_guild rq w :
  guild_inv w → leader_master w → session ∈ dom (players w) → request_ok rq →
  wp (serve_guild session rq) (λ _ w' _, outcome session w w' ∧
    (leader_master w' ∨ disbanded w' ∨
     ∃ name, rq = ReqSetLeader name ∧ fst <$> GetMember_name name (guild w) = Some session)) w.
Proof.
  intros Hw Hlm Hd Hok. destruct (changes_members rq) eqn:Hc.
  - destruct rq; try discriminate Hc; cbn [serve_guild].
    + eapply wp_mono; [by apply wp_HandleSetLeader|]. intros _ w' _ [Ho Hl]. split; [done|].
      destruct (Hl Hlm) as [?|?]; [by left|]. right. right. by eexists.
    + eapply wp_mono; [by apply wp_HandleBuyBankTab|]. intros _ w' _ [Ho Hl]. auto.
    + eapply wp_mono; [by apply wp_HandleAcceptMember|]. intros _ w' _ [Ho Hl]. auto.
    + eapply wp_mono; [by apply wp_HandleLeaveMember|]. intros _ w' _ [Ho Hl]. destruct (Hl Hlm); auto.
    + eapply wp_mono; [by apply wp_HandleRemoveMember|]. intros _ w' _ [Ho Hl]. auto.
    + eapply wp_mono; [by apply wp_HandleUpdateMemberRank|]. intros _ w' _ [Ho Hl]. auto.
    + eapply wp_mono; [by apply wp_HandleUpdateMemberRank|]. intros _ w' _ [Ho Hl]. auto.
    + eapply wp_mono; [by apply wp_HandleAddNewRank|]. intros _ w' _ [Ho Hl]. auto.
    + eapply wp_mono; [by apply wp_HandleRemoveLowestRank|]. intros _ w' _ [Ho Hl]. auto.
    + unfold HandleDisband. apply wp_bind_get. destruct (_IsLeader session (guild w)) eqn:El; cbn [when].
      * apply disband_outcome; [done..|]. intros w' t Ho Hdis. auto.
      * apply wp_ret. split; [by eapply outcome_same; apply inv_at_self|by left].
  - eapply keeps_wp; [apply (keeps_serve (shape_of w)); [done|done|done|by eapply session_guid]|by apply inv_at_self|].
    intros _ w' _ Hw'. split; [eapply outcome_same; [by apply inv_at_self|done]|]. left.
    destruct Hw' as [_ Hs]. injection Hs as ? ? Hpl Hm Hld Hid Hot. unfold leader_master. by rewrite Hld, Hm.
Qed.
End Requests.

(** ** Founding *)

Section Founding.
Context `{GuildLaws}.

Lemma ranks_of_five id n0 n1 n2 n3 n4 r1 r2 r3 r4 :
  ranks_ok [RankInfo.new id 0 n0 GR_RIGHT_ALL 0; RankInfo.new id 1 n1 r1 0; RankInfo.new id 2 n2 r2 0;
            RankInfo.new id 3 n3 r3 0; RankInfo.new id 4 n4 r4 0].
Proof.
  split; [cbn; lia|]. intros i r Hi. do 5 (destruct i as [|i]; [injection Hi as <-; by split|]).
  by destruct i.
Qed.

Lemma wp_CreateDefaultGuildRanks loc w (Q : unit → GuildWorld → list guild_event → Prop) :
  m_ranks (guild w) = [] → (length (m_bankTabs (guild w)) ≤ 6)%nat →
  (∀ l t, ranks_ok l → length l = 5%nat → Q tt (w <| guild ::= λ g, g <| m_ranks := l |> |>) t) →
  wp (_CreateDefaultGuildRanks loc) Q w.
Proof.
  intros Hr Ht HQ. unfold _CreateDefaultGuildRanks. apply wp_bind_get. cbv zeta. do 2 apply wp_bind_emit.
  destruct w as [[id nm ld mo inf cr em ac mn rk mb tb lg bl] ps its]. cbn in Hr, Ht. subst rk.
  do 5 (apply wp_bind, wp_CreateRank; [cbn; lia|done|done|]; intros ?). apply wp_ret.
  refine (HQ [RankInfo.new id 0 _ GR_RIGHT_ALL 0; RankInfo.new id 1 _ _ 0; RankInfo.new id 2 _ _ 0;
              RankInfo.new id 3 _ _ 0; RankInfo.new id 4 _ _ 0] _ _ _); [apply ranks_of_five|done].
Qed.

Lemma wp_Create leader name id ps its (Q : bool → GuildWorld → list guild_event → Prop) p :
  id ≠ 0 → map_Forall (λ g q, guid32 g ∧ PLAYER_GUILDID q ≠ id) ps →
  ps !! leader = Some p → PLAYER_GUILDID p = 0 →
  1 <= CONFIG_GUILD_EVENT_LOG_COUNT < 2 ^ 32 → 1 <= CONFIG_GUILD_BANK_EVENT_LOG_COUNT < 2 ^ 32 →
  (∀ w' t, inv_at (mkShape 5 0 (dom ps) {[ leader := GR_GUILDMASTER ]} leader id (omap (foreign id) ps)) w' → Q true w' t) →
  wp (Create leader name false id) Q (mkGuildWorld new_Guild ps its).
Proof.
  intros Hid Hps Hp Hnone Hc1 Hc2 HQ. destruct (Hps _ _ Hp) as [Hg _]. unfold Create.
  eapply wp_bind_player; [exact Hp|]. unfold _CreateLogHolders, on_guild. do 2 apply wp_bind_modify.
  apply wp_bind_get. cbv zeta. do 2 apply wp_bind_emit. apply wp_bind.
  apply wp_CreateDefaultGuildRanks; [done|cbn; lia|]. intros l t Hl Hlen.
  match goal with |- wp _ _ ?s => set (w1 := s) end.
  apply wp_bind, (wp_AddMember_at (mkShape 5 0 (dom ps) {[ leader := GR_GUILDMASTER ]} leader id (omap (foreign id) ps))).
  - done.
  - done.
  - cbn. set_solver.
  - intros m Hm Hr. split.
    + split; cbn; try done.
      * apply map_Forall_insert_2; [done|apply map_Forall_empty].
      * rewrite lookup_insert_eq. by eexists.
      * split; [cbn; lia|]. intros i b Hi. by destruct i.
      * split; [by split; cbn; [|lia]|]. split; [done|]. repeat (constructor; [by split; cbn; [|lia]|]). constructor.
      * intros g q Hq. apply lookup_alter_Some in Hq as [(<- & q0 & Hq & ->)|[Hne Hq]].
        -- split; [done|]. split; cbn; rewrite lookup_insert_eq; [split; [by eexists|done]|by intros m' [= <-]].
        -- destruct (Hps _ _ Hq) as [Hgq Hgi]. split; [done|].
           split; cbn; rewrite lookup_insert_ne, lookup_empty by done; [split; [done|by intros [? ?]]|done].
    + unfold shape_of, member_ranks, others, joined. cbn. rewrite dom_alter_L, Hlen, fmap_insert, fmap_empty, Hr. f_equal.
      apply foreign_alter. intros q Hq. rewrite !foreign_none; [done|left; congruence|by right].
  - subst w1. cbn. rewrite Hp. done.
  - intros w2 t2 H2. cbn [when]. apply wp_bind_emit, wp_ret. by apply HQ.
Qed.
End Founding.

(** ** An example guild *)

Definition guild_player (name : string) (money : Z) : Player :=
  mkPlayer name 469 20 1 12 7 0 0 (mkPlayerSocial ∅ 0) 0 0 0 money.
#[export] Instance guild_env0 : GuildEnv := {|
  guild_social_env := social_env0;
  hash_iter := λ V m, map_to_list m;
  time_now := 1000; UninitFlags := 0x5A; StackWord := 0;
  OnMemberDepositMoney := λ _ amount, amount;
  OnMemberWitdrawMoney := λ _ amount _, amount;
  OnMoneyChanged := λ _ amount, amount;
  CONFIG_ALLOW_TWO_SIDE_INTERACTION_GUILD := false;
  CONFIG_GUILD_EVENT_LOG_COUNT := 100; CONFIG_GUILD_BANK_EVENT_LOG_COUNT := 25;
  AllowMultipleGuildMaster := false;
  guild_rank_name := λ i _, print_u64 i;
  GetGuildIdFromDB := λ _, 0;
  CHAR_SEL_CHAR_DATA_FOR_GUILD := λ _, None;
  GetPlayerTeamByGUID := λ _, 469;
  GetLevelFromDB := λ _, 20; GetZoneIdFromDB := λ _, 12;
  IsReservedName := λ _, false; IsValidCharterName := λ _, true;
  localtime_r := λ _, mktm 0 0 1 0 100 6 |}.
#[export] Instance guild_laws0 : GuildLaws.
Proof. split. done. Qed.

Definition players0 : gmap Z Player :=
  {[ 10 := guild_player "Ann" 5000000; 20 := guild_player "Bob" 300; 30 := guild_player "Cid" 0 ]}.
(** Ann founds the guild; Bob and Cid accept her invitation. *)
Definition founded : res GuildWorld guild_event bool :=
  Create 10 "Iron" false 7 (mkGuildWorld new_Guild players0 ∅).
Definition guild0 : GuildWorld :=
  rstate (HandleAcceptMember 30 (rstate (HandleAcceptMember 20 (rstate founded)))).
Definition ranks_of (w : GuildWorld) : list (Z * Z) := map_iter (member_ranks w).

Lemma guild0_ranks : ranks_of guild0 = [(10, 0); (20, 4); (30, 4)].
Proof. vm_compute. reflexivity. Qed.

Lemma wp_rstate {S E A} (m : act S E A) Q s : wp m Q s → ∃ a t, Q a (rstate (m s)) t.
Proof. unfold wp. destruct (m s); [by eauto|done]. Qed.

Lemma founded_ok : inv_at (mkShape 5 0 (dom players0) {[ 10 := 0 ]} 10 7 (omap (foreign 7) players0)) (rstate founded).
Proof.
  assert (wp (Create 10 "Iron" false 7) (λ _ w' _, inv_at (mkShape 5 0 (dom players0) {[ 10 := 0 ]} 10 7 (omap (foreign 7) players0)) w')
    (mkGuildWorld new_Guild players0 ∅)) as Hw.
  { eapply wp_Create; [done| |by vm_compute|done|by vm_compute|by vm_compute|by auto].
    apply map_Forall_insert_2; [split; [unfold guid32; lia|done]|].
    apply map_Forall_insert_2; [split; [unfold guid32; lia|done]|].
    apply map_Forall_insert_2; [split; [unfold guid32; lia|done]|]. apply map_Forall_empty. }
  apply wp_rstate in Hw as (b & t & Hw). exact Hw.
Qed.

Lemma accepted_ok g w :
  guild_inv w ∧ leader_master w → g ∈ dom (players w) →
  let w' := rstate (HandleAcceptMember g w) in
  (guild_inv w' ∧ leader_master w') ∧ dom (players w') = dom (players w) ∨ disbanded w'.
Proof.
  intros [Hw Hl] Hd w'. pose proof (wp_HandleAcceptMember g w Hw Hd) as Hr.
  apply wp_rstate in Hr as (u & t & Ho & Hm). destruct (oc_ends _ _ _ Ho) as [Hi|Hi]; [left|by right].
  split; [split; auto|]. apply (oc_online _ _ _ Ho).
Qed.

Lemma leader_master_shape sh w :
  shape_of w = sh → sh_members sh !! sh_leader sh = Some GR_GUILDMASTER → leader_master w.
Proof. by intros <-. Qed.

Lemma players0_online g : g ∈ [10; 20; 30] → g ∈ dom players0.
Proof.
  intros Hg. apply elem_of_dom. repeat (apply elem_of_cons in Hg as [->|Hg]; [by eexists|]).
  by apply not_elem_of_nil in Hg.
Qed.

Lemma guild0_good : (guild_inv guild0 ∧ leader_master guild0) ∧ dom (players guild0) = dom players0.
Proof.
  assert (guild_inv (rstate founded) ∧ leader_master (rstate founded)) as H1.
  { destruct founded_ok as [Hi Hs]. split; [exact Hi|]. eapply leader_master_shape; [exact Hs|reflexivity]. }
  pose proof (f_equal sh_players (proj2 founded_ok)) as Hd1.
  change (dom (players (rstate founded)) = dom players0) in Hd1.
  destruct (accepted_ok 20 _ H1) as [[H2 Hd2]|(E & _)]; [rewrite Hd1; apply players0_online; clear; set_solver| |].
  2: { assert (base.size (m_members (guild (rstate (HandleAcceptMember 20 (rstate founded))))) = 2%nat) as Hn
         by (vm_compute; reflexivity).
       rewrite E, map_size_empty in Hn. discriminate Hn. }
  destruct (accepted_ok 30 _ H2) as [[H3 Hd3]|(E & _)]; [rewrite Hd2, Hd1; apply players0_online; clear; set_solver| |].
  2: { assert (base.size (m_members (guild guild0)) = 3%nat) as Hn by (vm_compute; reflexivity).
       unfold guild0 in Hn. rewrite E, map_size_empty in Hn. discriminate Hn. }
  split; [exact H3|]. unfold guild0. by rewrite Hd3, Hd2.
Qed.

Lemma guild0_online g : g ∈ [10; 20; 30] → g ∈ dom (players guild0).
Proof. intros Hg. rewrite (proj2 guild0_good). by apply players0_online. Qed.

(** ** Properties *)

(** C15: The rules of a guild are kept by every request its players can send,
    but for moves of bank items (bank_conserves, bank_moves_keep_rules): there
    are 5 to 10 ranks, numbered by position, and the first has all rights;
    members are filed under their guids, with a rank id of at most 10 (a member
    of a removed rank keeps its id); the leader is a member; tabs, logs and the
    fields players carry agree with the guild. Or the guild was disbanded, and
    nobody is left in it. Players of other guilds keep what they carry, if the
    player who asks is not one of them. This is of a guild whose leader has
    rank 0: that stays so, unless he hands leadership to himself, and what
    follows then is not stated. No request runs into a NULL pointer or indexes
    outside of an array or map; the read of four bytes behind the amount, in
    the broadcast of a deposit or withdrawal, is not a fault of the model but
    the event StackOverRead, with any value. *)
Theorem guild_invariant `{GuildLaws} session rq w :
  guild_inv w → leader_master w → session ∈ dom (players w) → request_ok rq →
  wp (serve_guild session rq) (λ _ w' _,
    (guild_inv w' ∧ (leader_master w' ∨
       ∃ name, rq = ReqSetLeader name ∧ fst <$> GetMember_name name (guild w) = Some session) ∨
     disbanded w') ∧
    dom (players w') = dom (players w) ∧ m_id (guild w') = m_id (guild w) ∧
    (others w !! session = None → others w' = others w)) w.
Proof.
  intros Hw Hl Hd Hok. eapply wp_mono; [by apply wp_serve_guild|]. intros _ w' _ [[Hends Hon Hid _ _ _ Hot] Hm].
  split.
  - destruct Hends as [?|?]; [|by right]. destruct Hm as [?|[?|?]]; auto.
  - split; [done|]. split; [done|]. intros Hn. destruct Hot as [?| ->]; [done|]. by apply delete_id.
Qed.

Lemma guild_invariant_witness :
  wp (serve_guild 10 (ReqPromote "Bob")) (λ _ w' _,
    ((guild_inv w' ∧ (leader_master w' ∨
       ∃ name, ReqPromote "Bob" = ReqSetLeader name ∧ fst <$> GetMember_name name (guild guild0) = Some 10) ∨
     disbanded w') ∧
    dom (players w') = dom (players guild0) ∧ m_id (guild w') = m_id (guild guild0) ∧
    (others guild0 !! 10 = None → others w' = others guild0)) ∧
    ranks_of w' = [(10, 0); (20, 3); (30, 4)]) guild0.
Proof.
  pose proof (guild_invariant 10 (ReqPromote "Bob") guild0 (proj1 (proj1 guild0_good)) (proj2 (proj1 guild0_good))
    (guild0_online 10 ltac:(clear; set_solver)) I) as Hw.
  assert (match serve_guild 10 (ReqPromote "Bob") guild0 with
          | Done _ w' _ => ranks_of w' | Fault _ _ _ => [] end = [(10, 0); (20, 3); (30, 4)]) as Hr
    by (vm_compute; reflexivity).
  revert Hw Hr. unfold wp. destruct (serve_guild 10 (ReqPromote "Bob") guild0); [|intros []].
  intros Hw Hr. exact (conj Hw Hr).
Defined.

(** C16: Who may do what to whom.  Whatever a player asks, the leader only
    changes if the player is himself a leader; nobody but the player joins, and
    he at the lowest rank; and a member whose rank changes or who is removed is
    the player himself, or the player is a leader, or the member's rank was
    below the player's and still is. *)
Theorem guild_authority `{GuildLaws} session rq w :
  guild_inv w → leader_master w → session ∈ dom (players w) → request_ok rq →
  wp (serve_guild session rq) (λ _ w' _,
    (m_leaderGuid (guild w') ≠ m_leaderGuid (guild w) → _IsLeader session (guild w) = true) ∧
    (∀ k r, member_ranks w !! k = None → member_ranks w' !! k = Some r →
       k = session ∧ r = _GetLowestRankId (guild w)) ∧
    (∀ k r, member_ranks w !! k = Some r → member_ranks w' !! k ≠ Some r →
       k = session ∨ _IsLeader session (guild w) = true ∨
       ∃ me, member_ranks w !! session = Some me ∧ me < r ∧
         ∀ r', member_ranks w' !! k = Some r' → me < r')) w.
Proof.
  intros Hw Hl Hd Hok. eapply wp_mono; [by apply wp_serve_guild|]. intros _ w' _ [[_ _ _ H1 H2 H3] _].
  split; [done|]. split; [done|]. intros k r Hk Hr. destruct (decide (k = session)); [by left|right]. by apply H3.
Qed.

Lemma guild_authority_witness :
  wp (serve_guild 10 (ReqRemove "Cid")) (λ _ w' _,
    ((m_leaderGuid (guild w') ≠ m_leaderGuid (guild guild0) → _IsLeader 10 (guild guild0) = true) ∧
    (∀ k r, member_ranks guild0 !! k = None → member_ranks w' !! k = Some r →
       k = 10 ∧ r = _GetLowestRankId (guild guild0)) ∧
    (∀ k r, member_ranks guild0 !! k = Some r → member_ranks w' !! k ≠ Some r →
       k = 10 ∨ _IsLeader 10 (guild guild0) = true ∨
       ∃ me, member_ranks guild0 !! 10 = Some me ∧ me < r ∧
         ∀ r', member_ranks w' !! k = Some r' → me < r')) ∧
    ranks_of w' = [(10, 0); (20, 4)]) guild0.
Proof.
  pose proof (guild_authority 10 (ReqRemove "Cid") guild0 (proj1 (proj1 guild0_good)) (proj2 (proj1 guild0_good))
    (guild0_online 10 ltac:(clear; set_solver)) I) as Hw.
  assert (match serve_guild 10 (ReqRemove "Cid") guild0 with
          | Done _ w' _ => ranks_of w' | Fault _ _ _ => [] end = [(10, 0); (20, 4)]) as Hr
    by (vm_compute; reflexivity).
  revert Hw Hr. unfold wp. destruct (serve_guild 10 (ReqRemove "Cid") guild0); [|intros []].
  intros Hw Hr. exact (conj Hw Hr).
Defined.

(** C17: When the leader is taken out of a guild, the member next in rank leads
    it: the guild's leader and that member's rank change, the old leader is
    gone, and every other rank is as before.  If there was nobody else the
    guild is disbanded. *)
Theorem leader_succession `{GuildLaws} kicked w :
  guild_inv w →
  wp (DeleteMember (m_leaderGuid (guild w)) false kicked) (λ _ w' _,
    (disbanded w' ∧ ∀ k, is_Some (member_ranks w !! k) → k = m_leaderGuid (guild w)) ∨
    (∃ k, successor (m_leaderGuid (guild w)) w k ∧ guild_inv w' ∧ m_leaderGuid (guild w') = k ∧
       member_ranks w' = delete (m_leaderGuid (guild w)) (<[k := GR_GUILDMASTER]> (member_ranks w)))) w.
Proof.
  intros Hw. apply wp_DeleteMember_leader; [done|by left|]. intros k w' t Hk [Hw' Hs]. right. exists k.
  injection Hs as _ _ _ Hm Hl _ _. done.
Qed.

Lemma leader_succession_witness :
  wp (DeleteMember 10 false true) (λ _ w' _,
    ((disbanded w' ∧ ∀ k, is_Some (member_ranks guild0 !! k) → k = 10) ∨
    (∃ k, successor 10 guild0 k ∧ guild_inv w' ∧ m_leaderGuid (guild w') = k ∧
       member_ranks w' = delete 10 (<[k := GR_GUILDMASTER]> (member_ranks guild0)))) ∧
    ranks_of w' = [(20, 4); (30, 0)]) guild0.
Proof.
  pose proof (leader_succession true guild0 (proj1 (proj1 guild0_good))) as Hw.
  change (m_leaderGuid (guild guild0)) with 10 in Hw.
  assert (match DeleteMember 10 false true guild0 with
          | Done _ w' _ => ranks_of w' | Fault _ _ _ => [] end = [(20, 4); (30, 0)]) as Hr
    by (vm_compute; reflexivity).
  revert Hw Hr. unfold wp. destruct (DeleteMember 10 false true guild0); [|intros []].
  intros Hw Hr. exact (conj Hw Hr).
Defined.

(** Disbanding ends, whoever is in the guild: all members are removed, one
    by one, the bank's tabs are freed, no player online keeps the guild's id,
    and the guild is taken out of the manager's list. *)
Theorem disband_ends `{GuildLaws} w :
  guild_inv w →
  wp Disband (λ _ w' t, disbanded w' ∧ dom (players w') = dom (players w) ∧
    RemoveGuild (m_id (guild w)) ∈ t) w.
Proof.
  intros Hw. eapply wp_mono; [by apply wp_Disband, guild_inv_closing|].
  intros _ w' t ((? & ?) & ? & ? & ?). done.
Qed.

Lemma disband_ends_witness :
  wp Disband (λ _ w' t, disbanded w' ∧ dom (players w') = dom (players guild0) ∧
    RemoveGuild (m_id (guild guild0)) ∈ t) guild0.
Proof. exact (disband_ends guild0 (proj1 (proj1 guild0_good))). Defined.

(** C23: Founding a guild gives a guild that keeps the rules, with its founder
    as the only member, leader and of the leader's rank. *)
Theorem guild_founded `{GuildLaws} leader name id ps its p :
  id ≠ 0 → map_Forall (λ g q, guid32 g ∧ PLAYER_GUILDID q ≠ id) ps →
  ps !! leader = Some p → PLAYER_GUILDID p = 0 →
  1 <= CONFIG_GUILD_EVENT_LOG_COUNT < 2 ^ 32 → 1 <= CONFIG_GUILD_BANK_EVENT_LOG_COUNT < 2 ^ 32 →
  wp (Create leader name false id) (λ ret w' _, ret = true ∧ guild_inv w' ∧ leader_master w' ∧
    m_leaderGuid (guild w') = leader ∧ member_ranks w' = {[ leader := GR_GUILDMASTER ]})
    (mkGuildWorld new_Guild ps its).
Proof.
  intros. eapply wp_Create; [done..|]. intros w' t [Hw Hs]. split; [done|]. split; [done|].
  injection Hs as _ _ _ Hm Hl _ _. split; [|done]. unfold leader_master. by rewrite Hm, Hl, lookup_singleton_eq.
Qed.

Lemma guild_founded_witness :
  wp (Create 10 "Iron" false 7) (λ ret w' _, ret = true ∧ guild_inv w' ∧ leader_master w' ∧
    m_leaderGuid (guild w') = 10 ∧ member_ranks w' = {[ 10 := GR_GUILDMASTER ]})
    (mkGuildWorld new_Guild players0 ∅).
Proof.
  eapply (guild_founded 10 "Iron" 7 players0 ∅).
  - discriminate.
  - apply map_Forall_insert_2; [split; [unfold guid32; lia|done]|].
    apply map_Forall_insert_2; [split; [unfold guid32; lia|done]|].
    apply map_Forall_insert_2; [split; [unfold guid32; lia|done]|]. apply map_Forall_empty.
  - vm_compute. reflexivity.
  - reflexivity.
  - vm_compute. split; congruence.
  - vm_compute. split; congruence.
Defined.

(** Whether a member has a right.  For a member of an existing rank whose
    rights carry the bit of the empty right, as the client and the default
    ranks set it, he has the right exactly if its own bit is set; if that bit
    is missing, or there is no rank of his number, he has every right. *)
Theorem has_rank_right `{GuildEnv} guid b g :
  0 <= b < 2 ^ 32 → Z.land b GR_RIGHT_EMPTY = 0 →
  _HasRankRight guid (Z.lor GR_RIGHT_EMPTY b) g =
    match GetMember guid g with
    | None => false
    | Some m =>
        match GetRankInfo (Member.m_rankId m) g with
        | None => true
        | Some r => negb (has_flag (RankInfo.m_rights r) GR_RIGHT_EMPTY) || has_flag (RankInfo.m_rights r) b
        end
    end.
Proof.
  intros Hb He. unfold _HasRankRight, _GetRankRights. destruct (GetMember guid g) as [m|]; [|done].
  destruct (GetRankInfo _ g) as [r|]; [|by rewrite Z.land_0_l].
  set (x := RankInfo.m_rights r). unfold has_flag.
  rewrite Z.land_lor_distr_r.
  assert (Z.land (Z.land x GR_RIGHT_EMPTY) (Z.land x b) = 0) as Hd.
  { rewrite <- Z.land_assoc, (Z.land_comm x b), (Z.land_assoc GR_RIGHT_EMPTY b x), (Z.land_comm GR_RIGHT_EMPTY b), He.
    rewrite Z.land_0_l. apply Z.land_0_r. }
  assert (Z.land x GR_RIGHT_EMPTY = 0 ∨ Z.land x GR_RIGHT_EMPTY = GR_RIGHT_EMPTY) as [E|E].
  { change GR_RIGHT_EMPTY with (2 ^ 6). destruct (Z.testbit x 6) eqn:Hx; [right|left]; apply Z.bits_inj'; intros n Hn;
      rewrite Z.land_spec, ?Z.pow2_bits_eqb, ?Z.bits_0 by lia; destruct (Z.eqb_spec 6 n) as [<-|];
      rewrite ?Hx, ?andb_false_r; done. }
  - rewrite E, Z.lor_0_l. cbn [Z.eqb negb orb]. apply negb_true_iff, Z.eqb_neq. intros E2.
    assert (Z.land (Z.land x b) GR_RIGHT_EMPTY = 0) as E3 by (rewrite <- Z.land_assoc, He; apply Z.land_0_r).
    rewrite E2 in E3. done.
  - rewrite E in Hd |- *. change (GR_RIGHT_EMPTY =? 0) with false. cbn [negb orb]. f_equal. apply eq_true_iff_eq. rewrite !Z.eqb_eq. split.
    + intros E2. rewrite <- Hd, <- E2 at 1.
      by rewrite Z.land_lor_distr_l, Hd, Z.land_diag, Z.lor_0_l.
    + intros ->. apply Z.lor_0_r.
Qed.

Lemma has_rank_right_witness :
  _HasRankRight 20 (Z.lor GR_RIGHT_EMPTY 0x10) (guild guild0) =
    match GetMember 20 (guild guild0) with
    | None => false
    | Some m =>
        match GetRankInfo (Member.m_rankId m) (guild guild0) with
        | None => true
        | Some r => negb (has_flag (RankInfo.m_rights r) GR_RIGHT_EMPTY) || has_flag (RankInfo.m_rights r) 0x10
        end
    end ∧ _HasRankRight 20 GR_RIGHT_INVITE (guild guild0) = false.
Proof. split; [apply (has_rank_right 20 0x10); [lia|reflexivity]|vm_compute; reflexivity]. Defined.

(** A rank that is removed leaves its members behind with a number that no rank
    has, and with every right: Cid, just demoted, may now remove members. *)
Definition orphaned : GuildWorld :=
  rstate (HandleRemoveLowestRank 10 (rstate (HandleUpdateMemberRank 10 "Cid" true
    (rstate (HandleAddNewRank 10 "Recruit" guild0))))).
Example orphan_has_every_right :
  ranks_of orphaned = [(10, 0); (20, 4); (30, 5)] ∧ length (m_ranks (guild orphaned)) = 5%nat ∧
  _HasRankRight 30 GR_RIGHT_REMOVE (guild orphaned) = true ∧
  _HasRankRight 20 GR_RIGHT_REMOVE (guild orphaned) = false.
Proof. vm_compute. done. Qed.

(** A leader who hands leadership to himself stays leader with the rank of an
    officer, and no member has the leader's rank. *)
Example leader_hands_over_to_himself :
  let w := rstate (HandleSetLeader 10 "Ann" guild0) in
  m_leaderGuid (guild w) = 10 ∧ ranks_of w = [(10, 1); (20, 4); (30, 4)].
Proof. vm_compute. done. Qed.
