(* ===== verification/GuildMoney.v ===== *)
(** The guild's money and its logs: what each request does to the bank's money
    and to the players' purses, the daily limit, and the rings in which the logs
    are kept, in memory and in their table. *)

From S2P Require Import Prelude ByteBuffer Util Rbac Channel Social Guild GuildRules.
Open Scope string_scope.
Open Scope list_scope.
Open Scope Z_scope.

(** ** Partial preservation

    [stays I m]: if [m] ends normally it keeps [I]; that it does end normally is
    [guild_invariant]. *)

Section Stays.
Context {S E : Type}.
Definition stays {A} (I : S → Prop) (m : act S E A) : Prop := ∀ s, I s → wlp m (λ _ s' _, I s') s.

Lemma stays_ret {A} I (a : A) : stays I (mret a).
Proof. intros s. done. Qed.
Lemma stays_get I : stays I get.
Proof. intros s. done. Qed.
Lemma stays_gets {A} I (f : S → A) : stays I (gets f).
Proof. intros s. done. Qed.
Lemma stays_emit I e : stays I (emit e).
Proof. intros s. done. Qed.
Lemma stays_raise {A} I f : stays I (raise (A := A) f).
Proof. intros s. done. Qed.
Lemma stays_require {A} I (o : option A) : stays I (require o).
Proof. destruct o; intros s; done. Qed.
Lemma stays_modify (I : S → Prop) f : (∀ s, I s → I (f s)) → stays I (modify f).
Proof. intros Hf s Hs. unfold wlp, modify. auto. Qed.
Lemma stays_bind {A B} I (m : act S E A) (f : A → act S E B) :
  stays I m → (∀ a, stays I (f a)) → stays I (m ≫= f).
Proof.
  intros Hm Hf s Hs. unfold wlp, mbind, act_bind. specialize (Hm s Hs). unfold wlp in Hm.
  destruct (m s) as [a s1 t1|]; [|done]. specialize (Hf a s1 Hm). unfold wlp in Hf. by destruct (f a s1).
Qed.
Lemma stays_when I b m : stays I m → stays I (when b m).
Proof. intros Hm. destruct b; [done|]. apply stays_ret. Qed.
Lemma stays_forM {A} I (l : list A) f : (∀ x, stays I (f x)) → stays I (forM_ l f).
Proof. intros Hf. induction l as [|x l IH]; cbn [forM_]; [apply stays_ret|]. apply stays_bind; auto. Qed.
Lemma stays_zoom {S' A} (I : S → Prop) sel upd (m : act S' E A) :
  (∀ s x, I s → I (upd x s)) → stays I (zoom sel upd m).
Proof. intros Hu s Hs. unfold wlp, zoom. destruct (m (sel s)); [|done]. by apply Hu. Qed.
Lemma wp_stays {A} I (m : act S E A) (Q : A → S → list E → Prop) s :
  stays I m → I s → wp m Q s → wp m (λ a s' t, Q a s' t ∧ I s') s.
Proof. intros Hm Hs. specialize (Hm s Hs). unfold wp, wlp in *. by destruct (m s). Qed.
End Stays.

Create HintDb stays discriminated.
#[export] Hint Resolve stays_ret stays_get stays_gets stays_emit stays_raise stays_require : stays.
Ltac stays_auto :=
  repeat first
    [ solve [auto with stays]
    | apply stays_bind; [|intros ?]
    | apply stays_when
    | apply stays_forM; intros ?
    | match goal with |- stays _ (match ?x with _ => _ end) => destruct x end ].

(** ** The money *)

Definition purses (w : GuildWorld) : gmap Z Z := PLAYER_FIELD_COINAGE <$> players w.
Definition money_of (w : GuildWorld) : Z * gmap Z Z := (m_bankMoney (guild w), purses w).
Definition money_is (mo : Z * gmap Z Z) (w : GuildWorld) : Prop := money_of w = mo.

Section Money.
Context `{GuildEnv} (mo : Z * gmap Z Z).

Lemma stays_on_guild f : (∀ g, m_bankMoney (f g) = m_bankMoney g) → stays (money_is mo) (on_guild f).
Proof.
  intros Hf. apply stays_modify. intros w <-. unfold money_is, money_of. cbn. by rewrite Hf.
Qed.
Lemma stays_on_player guid f :
  (∀ p, PLAYER_FIELD_COINAGE (f p) = PLAYER_FIELD_COINAGE p) → stays (money_is mo) (on_player guid f).
Proof.
  intros Hf. apply stays_modify. intros w <-. unfold money_is, money_of, purses. cbn. f_equal.
  apply map_eq. intros k. rewrite !lookup_fmap. destruct (decide (k = guid)) as [->|Hk].
  - rewrite lookup_alter_eq. destruct (players w !! guid); [|done]. cbn. by rewrite Hf.
  - by rewrite lookup_alter_ne.
Qed.
Lemma stays_on_member k f : stays (money_is mo) (on_member k f).
Proof. by apply stays_on_guild. Qed.
Lemma stays_at_rank i op : stays (money_is mo) (at_rank i op).
Proof.
  intros w Hw. unfold wlp, at_rank. destruct (m_ranks _ !! i); [|done]. unfold zoom. by destruct (op _).
Qed.
Lemma stays_at_member k op : stays (money_is mo) (at_member k op).
Proof.
  intros w Hw. unfold wlp, at_member. destruct (m_members _ !! k); [|done]. unfold zoom. by destruct (op _).
Qed.
Lemma stays_at_tab i op : stays (money_is mo) (at_tab i op).
Proof.
  intros w Hw. unfold wlp, at_tab. destruct (m_bankTabs _ !! i); [|done]. unfold zoom. by destruct (op _).
Qed.
Lemma stays_in_eventLog {A} (op : act _ _ A) : stays (money_is mo) (in_eventLog op).
Proof. by apply stays_zoom. Qed.
Lemma stays_in_bankEventLog {A} i (op : act _ _ A) : stays (money_is mo) (in_bankEventLog i op).
Proof.
  intros w Hw. unfold wlp, in_bankEventLog. destruct (m_bankEventLog _ !! i); [|done]. unfold zoom. by destruct (op _).
Qed.
End Money.

#[export] Hint Resolve stays_on_member stays_at_rank stays_at_member stays_at_tab stays_in_eventLog
  stays_in_bankEventLog : stays.
#[export] Hint Extern 1 (stays (money_is _) (on_guild _)) => (apply stays_on_guild; intros; reflexivity) : stays.
#[export] Hint Extern 1 (stays (money_is _) (on_player _ _)) => (apply stays_on_player; intros; reflexivity) : stays.

Section Requests.
Context `{GuildEnv} (mo : Z * gmap Z Z).
Local Notation same m := (stays (money_is mo) m).

Lemma same_player_of g : same (player_of g).
Proof. unfold player_of. stays_auto. Qed.
Lemma same_BroadcastPacket p : same (BroadcastPacket p).
Proof. unfold BroadcastPacket. stays_auto. Qed.
Lemma same_BroadcastEvent e g l : same (_BroadcastEvent e g l).
Proof. apply same_BroadcastPacket. Qed.
Lemma same_HandleRoster s : same (HandleRoster s).
Proof. unfold HandleRoster. apply stays_bind; [apply stays_get|]. intros w. destruct s; [apply stays_emit|apply same_BroadcastPacket]. Qed.
Lemma same_SendBankList s t a l : same (_SendBankList s t a l).
Proof. unfold _SendBankList. stays_auto. Qed.
Lemma same_SendText b s : same (SendText b s).
Proof. destruct s; [apply stays_emit|apply same_BroadcastPacket]. Qed.
Lemma same_SendPermissions s : same (SendPermissions s).
Proof. unfold SendPermissions. stays_auto. Qed.
Lemma same_broadcast_amount a : same (broadcast_amount a).
Proof. apply stays_bind; [apply stays_emit|]. intros _. apply same_BroadcastEvent. Qed.
Lemma same_LogEvent e a b r : same (_LogEvent e a b r).
Proof. unfold _LogEvent. stays_auto. Qed.
Lemma same_LogBankEvent e t g i n d : same (_LogBankEvent e t g i n d).
Proof. unfold _LogBankEvent. cbv zeta. stays_auto. Qed.
Lemma same_UpdateAccountsNumber : same _UpdateAccountsNumber.
Proof. unfold _UpdateAccountsNumber. auto with stays. Qed.
End Requests.
#[export] Hint Resolve same_player_of same_BroadcastPacket same_BroadcastEvent same_broadcast_amount same_HandleRoster
  same_SendBankList same_SendText same_SendPermissions same_LogEvent same_LogBankEvent
  same_UpdateAccountsNumber : stays.

Section Requests2.
Context `{GuildEnv} (mo : Z * gmap Z Z).
Local Notation same m := (stays (money_is mo) m).

Lemma same_SetRank g r : same (SetRank g r).
Proof. unfold SetRank. auto with stays. Qed.
Lemma same_SetInGuild g r : same (SetInGuild g r).
Proof. unfold SetInGuild. auto with stays. Qed.
Lemma same_SetGuildIdInvited g r : same (SetGuildIdInvited g r).
Proof. unfold SetGuildIdInvited. auto with stays. Qed.
Hint Resolve same_SetRank same_SetInGuild same_SetGuildIdInvited : stays.
Lemma same_ChangeRank k r : same (ChangeRank k r).
Proof. unfold ChangeRank. stays_auto. Qed.
Hint Resolve same_ChangeRank : stays.
Lemma same_SetLeaderGUID k : same (_SetLeaderGUID k).
Proof. unfold _SetLeaderGUID. stays_auto. Qed.
Lemma same_SendLoginInfo g : same (SendLoginInfo g).
Proof. unfold SendLoginInfo, SendBankTabsInfo. stays_auto. Qed.
Hint Resolve same_SetLeaderGUID same_SendLoginInfo : stays.
Lemma same_AddMember g r : same (AddMember g r).
Proof. unfold AddMember. cbv zeta. stays_auto. Qed.
Lemma same_erase_member g b c : same (erase_member g b c).
Proof. unfold erase_member. cbv zeta. stays_auto. Qed.
Hint Resolve same_AddMember same_erase_member : stays.
Lemma same_Disband_loop n : same (Disband_loop n).
Proof. induction n; cbn [Disband_loop]; stays_auto. Qed.
Hint Resolve same_Disband_loop : stays.
Lemma same_DeleteBankItems b : same (_DeleteBankItems b).
Proof. unfold _DeleteBankItems. stays_auto. Qed.
Hint Resolve same_DeleteBankItems : stays.
Lemma same_Disband : same Disband.
Proof. unfold Disband. cbv zeta. stays_auto. Qed.
Hint Resolve same_Disband : stays.
Lemma same_DeleteMember g b c : same (DeleteMember g b c).
Proof. unfold DeleteMember. cbv zeta. stays_auto. Qed.
Hint Resolve same_DeleteMember : stays.
Lemma same_zoom_const {S' A} (r : S') (op : act S' guild_event A) :
  same (zoom (λ _ : GuildWorld, r) (λ _ w, w) op).
Proof. by apply stays_zoom. Qed.
Hint Resolve same_zoom_const : stays.
Lemma same_CreateRank n r : same (_CreateRank n r).
Proof. unfold _CreateRank. cbv zeta. stays_auto. Qed.
Lemma same_CreateNewBankTab : same _CreateNewBankTab.
Proof. unfold _CreateNewBankTab. cbv zeta. stays_auto. Qed.
Hint Resolve same_CreateRank same_CreateNewBankTab : stays.

Definition spends (rq : guild_request) : bool :=
  match rq with
  | ReqSetEmblem _ | ReqBuyTab _ | ReqDeposit _ | ReqWithdraw _ _ => true
  | _ => false
  end.
Lemma same_serve session rq : spends rq = false → same (serve_guild session rq).
Proof.
  intros Hs. destruct rq; try discriminate Hs; cbn [serve_guild];
    unfold HandleQuery, SendInfo, SendEventLog, SendBankLog, SendBankTabsInfo, SendBankTabData,
      _SendBankContent, SendBankTabText, SendMoneyInfo, BroadcastToGuild, HandleSetMOTD, HandleSetInfo,
      HandleSetLeader, HandleSetBankTabInfo, SetBankTabText, HandleSetMemberNote, HandleSetRankInfo,
      _SetRankBankMoneyPerDay, _SetRankBankTabRightsAndSlots, rank_index, HandleInviteMember,
      HandleAcceptMember, HandleLeaveMember, HandleRemoveMember, HandleUpdateMemberRank, HandleAddNewRank,
      HandleRemoveLowestRank, HandleRemoveRank, HandleMemberLogout, HandleDisband, UpdateMemberData,
      OnPlayerStatusChange, MassInviteToEvent, SendCommandResult; cbv zeta; stays_auto.
Qed.
End Requests2.

(** ** The requests that move money *)

Definition purse_set (g c : Z) (w : GuildWorld) : GuildWorld :=
  w <| players ::= alter (λ p, p <| PLAYER_FIELD_COINAGE := c |>) g |>.
Definition bank_set (b : Z) (w : GuildWorld) : GuildWorld :=
  w <| guild ::= λ g, g <| m_bankMoney := b |> |>.
Definition purse_ok (c : Z) : Prop := 0 <= c <= MAX_MONEY_AMOUNT.

(** No script changes an amount: so do the default hooks (ScriptMgr.h), which no
    script of the repository replaces. *)
Class QuietScripts `{GuildEnv} : Prop := {
  quiet_deposit g a : OnMemberDepositMoney g a = a;
  quiet_withdraw g a repair : OnMemberWitdrawMoney g a repair = a;
  quiet_money g a : OnMoneyChanged g a = a }.

(** The four byte amount of a withdrawal reaches [Player::ModifyMoney] as an
    [int32]: from 2^31 on it is negative, and the purse pays.  The room left in
    the purse is compared with an unsigned difference, which wraps for 2^31 - 1. *)
Definition purse_after (amount c : Z) : Z :=
  if amount <? 2 ^ 31 then c + amount else Z.max 0 (c - (2 ^ 32 - amount)).
Definition room (amount c : Z) : bool :=
  (amount =? 0) || (MAX_MONEY_AMOUNT <? amount) || (c <? MAX_MONEY_AMOUNT - amount).

Section Moves.
Context `{GuildLaws, !QuietScripts}.

Lemma purse_set_same g w p : players w !! g = Some p → purse_set g (PLAYER_FIELD_COINAGE p) w = w.
Proof.
  intros Hp. destruct w as [gd ps its]. cbn in *. unfold purse_set. cbn. f_equal. apply map_eq. intros k.
  destruct (decide (k = g)) as [->|Hk]; [|by rewrite lookup_alter_ne].
  rewrite lookup_alter_eq, Hp. cbn. f_equal. by destruct p.
Qed.

Lemma money_purse_set g c w p :
  players w !! g = Some p → money_of (purse_set g c w) = (m_bankMoney (guild w), <[g := c]> (purses w)).
Proof.
  intros Hp. unfold money_of, purses, purse_set. cbn. f_equal. apply map_eq. intros k. rewrite lookup_fmap.
  destruct (decide (k = g)) as [->|Hk].
  - by rewrite lookup_alter_eq, lookup_insert_eq, Hp.
  - by rewrite lookup_alter_ne, lookup_insert_ne, lookup_fmap by done.
Qed.

Lemma inv_purse_set sh g c w : inv_at sh w → inv_at sh (purse_set g c w).
Proof. intros Hw. apply (keeps_on_player sh g (λ p, p <| PLAYER_FIELD_COINAGE := c |>) ltac:(done) w Hw). Qed.

Lemma inv_bank_set sh b w : inv_at sh w → inv_at sh (bank_set b w).
Proof. by apply inv_at_core. Qed.

(** Money is taken that is there, or given if the purse stays below its limit. *)
Lemma wp_take_money g amount w p (Q : bool → GuildWorld → list guild_event → Prop) :
  players w !! g = Some p → 0 <= amount <= PLAYER_FIELD_COINAGE p → purse_ok (PLAYER_FIELD_COINAGE p) →
  (∀ t, Q true (purse_set g (PLAYER_FIELD_COINAGE p - amount) w) t) →
  wp (ModifyMoney g (i32 (- i32 amount))) Q w.
Proof.
  intros Hp Ha Hc HQ. unfold purse_ok, MAX_MONEY_AMOUNT in Hc. rewrite (wraps_id 32 amount), wraps_id by lia.
  unfold ModifyMoney. rewrite quiet_money. destruct (Z.eqb_spec (- amount) 0) as [E|E].
  - apply wp_ret. specialize (HQ []). replace (PLAYER_FIELD_COINAGE p - amount) with (PLAYER_FIELD_COINAGE p) in HQ by lia.
    by rewrite purse_set_same in HQ.
  - apply wp_bind_emit. cbv zeta. rewrite (wraps_id 32 (- amount)) by lia. eapply wp_bind_player; [exact Hp|].
    destruct (Z.ltb_spec (- amount) 0); [|lia]. rewrite Z.opp_involutive, wrapu_id by lia.
    unfold SetMoney, on_player. apply wp_bind, wp_bind_modify, wp_emit, wp_ret.
    set (c := if amount <? PLAYER_FIELD_COINAGE p then _ else 0).
    replace c with (PLAYER_FIELD_COINAGE p - amount); [apply HQ|]. subst c.
    destruct (Z.ltb_spec amount (PLAYER_FIELD_COINAGE p)); [rewrite wrapu_id|]; lia.
Qed.

Lemma i32_high z : 2 ^ 31 <= z < 2 ^ 32 → i32 z = z - 2 ^ 32.
Proof.
  intros Hz. unfold wraps. replace (z + 2 ^ (32 - 1)) with (z - 2 ^ 31 + 1 * 2 ^ 32) by lia.
  rewrite Z.mod_add, Z.mod_small by lia. lia.
Qed.

Lemma wp_give_money g amount w p (Q : bool → GuildWorld → list guild_event → Prop) :
  players w !! g = Some p → 0 <= amount < 2 ^ 32 → purse_ok (PLAYER_FIELD_COINAGE p) →
  (∀ t, room amount (PLAYER_FIELD_COINAGE p) = true →
     Q true (purse_set g (purse_after amount (PLAYER_FIELD_COINAGE p)) w) t) →
  (∀ t, room amount (PLAYER_FIELD_COINAGE p) = false → Q false w t) →
  wp (ModifyMoney g (i32 amount)) Q w.
Proof.
  intros Hp Ha Hc HQ1 HQ2. unfold purse_ok, room, purse_after, MAX_MONEY_AMOUNT in *. unfold ModifyMoney.
  rewrite quiet_money. cbv zeta. assert (i32 (i32 amount) = i32 amount) as -> by (apply wraps_id, wraps_range; lia).
  destruct (Z.ltb_spec amount (2 ^ 31)) as [Hs|Hs].
  - rewrite (wraps_id 32 amount) by lia. destruct (Z.eqb_spec amount 0) as [->|E].
    { apply wp_ret. specialize (HQ1 [] eq_refl). by rewrite Z.add_0_r, purse_set_same in HQ1. }
    apply wp_bind_emit. eapply wp_bind_player; [exact Hp|].
    destruct (Z.ltb_spec amount 0); [lia|]. cbn [orb] in *. unfold MAX_MONEY_AMOUNT.
    destruct (Z.ltb_spec (0x7FFFFFFF - 1) amount) as [Hx|Hx]; cbn [orb] in *.
    + replace amount with (2 ^ 31 - 1) in * by lia. replace (u32 _) with (2 ^ 32 - 1) by done.
      rewrite (proj2 (Z.ltb_lt _ _)) by lia. unfold SetMoney, on_player. apply wp_bind, wp_bind_modify, wp_emit, wp_ret.
      rewrite wrapu_id by lia. by apply HQ1.
    + rewrite (wrapu_id 32 (_ - amount)) by lia. destruct (Z.ltb_spec (PLAYER_FIELD_COINAGE p) (0x7FFFFFFF - 1 - amount)).
      * unfold SetMoney, on_player. apply wp_bind, wp_bind_modify, wp_emit, wp_ret.
        rewrite wrapu_id by lia. by apply HQ1.
      * apply wp_bind_emit, wp_ret. by apply HQ2.
  - rewrite (proj2 (Z.ltb_lt _ amount)), orb_true_r in * by lia. cbn [orb] in *.
    rewrite i32_high by lia.
    rewrite (proj2 (Z.eqb_neq _ _)) by lia. apply wp_bind_emit. eapply wp_bind_player; [exact Hp|].
    rewrite (proj2 (Z.ltb_lt (amount - 2 ^ 32) 0)) by lia. rewrite (wrapu_id 32 (- _)) by lia.
    unfold SetMoney, on_player. apply wp_bind, wp_bind_modify, wp_emit, wp_ret.
    specialize (λ t, HQ1 t eq_refl). unfold purse_set in HQ1.
    replace (if - (amount - 2 ^ 32) <? PLAYER_FIELD_COINAGE p then _ else 0)
      with (Z.max 0 (PLAYER_FIELD_COINAGE p - (2 ^ 32 - amount))); [apply HQ1|].
    destruct (Z.ltb_spec (- (amount - 2 ^ 32)) (PLAYER_FIELD_COINAGE p)); [rewrite wrapu_id by lia|]; lia.
Qed.

Lemma wp_bank_money amount (add : bool) w (Q : bool → GuildWorld → list guild_event → Prop) :
  (if add then 0 <= m_bankMoney (guild w) + amount < 2 ^ 64 else amount <= m_bankMoney (guild w)) →
  (let b := if add then m_bankMoney (guild w) + amount else m_bankMoney (guild w) - amount in
   Q true (bank_set b w) [CHAR_UPD_GUILD_BANK_MONEY b (m_id (guild w))]) →
  wp (_ModifyBankMoney amount add) Q w.
Proof.
  intros Ha HQ. unfold _ModifyBankMoney. apply wp_bind_get.
  assert (negb add && (m_bankMoney (guild w) <? amount) = false) as -> by (destruct add; cbn; lia).
  unfold on_guild. apply wp_bind_modify, wp_bind_get, wp_bind_emit, wp_ret. destruct w as [g ps its].
  unfold bank_set in HQ. cbn in *. destruct add; [rewrite wrapu_id by done|]; exact HQ.
Qed.

(** An action that keeps the rules and does not touch the money. *)
Lemma wp_bind_aside {A B} sh mo (m : gact A) (f : A → gact B) Q w :
  keeps (inv_at sh) m → stays (money_is mo) m → inv_at sh w → money_is mo w →
  (∀ a w' t, inv_at sh w' → money_is mo w' → wp (f a) (λ b w2 t2, Q b w2 (t ++ t2)) w') → wp (m ≫= f) Q w.
Proof.
  intros Hk Hs Hi Hm Hf. apply wp_bind. eapply wp_mono; [exact (wp_stays _ _ _ _ Hs Hm (Hk w Hi))|].
  intros a w' t [Hi' Hm']. auto.
Qed.

Lemma wp_deposit sh session p amount w (Q : unit → GuildWorld → list guild_event → Prop) :
  inv_at sh w → players w !! session = Some p → 0 <= amount <= PLAYER_FIELD_COINAGE p →
  purse_ok (PLAYER_FIELD_COINAGE p) → 0 <= m_bankMoney (guild w) → m_bankMoney (guild w) + amount < 2 ^ 64 →
  (∀ w' t, money_of w' = (m_bankMoney (guild w) + amount, <[session := PLAYER_FIELD_COINAGE p - amount]> (purses w)) →
     CHAR_UPD_GUILD_BANK_MONEY (m_bankMoney (guild w) + amount) (m_id (guild w)) ∈ t →
     CHAR_UDP_CHAR_MONEY (PLAYER_FIELD_COINAGE p - amount) session ∈ t →
     Q tt w' t) →
  wp (HandleMemberDepositMoney session amount) Q w.
Proof.
  intros Hi Hp Ha Hc Hb Hb2 HQ. unfold HandleMemberDepositMoney. eapply wp_bind_player; [exact Hp|].
  assert (guid32 session) as Hg by (destruct Hi as [Hw _]; by destruct (gi_online _ Hw _ _ Hp)).
  apply wp_bind_emit. cbv zeta. rewrite quiet_deposit.
  assert (u32 amount = amount) as -> by (unfold purse_ok, MAX_MONEY_AMOUNT in Hc; apply wrapu_id; lia).
  apply wp_bind, wp_bank_money; [lia|]. cbv zeta.
  set (w1 := bank_set _ w). apply wp_bind. eapply (wp_take_money session amount w1); [done..|]. intros t1.
  set (w2 := purse_set _ _ w1). apply wp_bind.
  assert (players w2 !! session = Some (p <| PLAYER_FIELD_COINAGE := PLAYER_FIELD_COINAGE p - amount |>)) as Hp2
    by (subst w2 w1; cbn; by rewrite lookup_alter_eq, Hp).
  unfold SaveGoldToDB at 1. eapply wp_bind_player; [exact Hp2|]. apply wp_emit. cbn [PLAYER_FIELD_COINAGE].
  set (mo := (m_bankMoney (guild w) + amount, <[session := PLAYER_FIELD_COINAGE p - amount]> (purses w))).
  assert (money_is mo w2) as Hmo by (unfold money_is; subst w2; by erewrite money_purse_set).
  apply (wp_bind_aside sh mo); [by apply keeps_LogBankEvent|auto with stays|by apply inv_purse_set, inv_bank_set|done|].
  intros _ w3 t3 Hi3 Hm3. eapply wp_mono; [apply wp_stays; [apply same_broadcast_amount|exact Hm3|]|].
  { apply (keeps_broadcast_amount (inv_at sh)). exact Hi3. }
  intros [] w4 t4 [_ Hm4]. apply HQ; [exact Hm4| |].
  - right. apply elem_of_app. left. left.
  - rewrite GUID_LOPART_id by done. right. apply elem_of_app. right. apply elem_of_app. right. left.
Qed.

(** What a member has taken out today. *)
Definition spent (m : Member.t) : Z := nth 6 (Member.m_bankWithdraw m) 0.
Definition took (amount : Z) (m : Member.t) : Member.t :=
  m <| Member.m_bankWithdraw ::= alter (λ w, i32 (w + amount)) 6%nat |>.
Definition member_set (k : Z) (m : Member.t) (w : GuildWorld) : GuildWorld :=
  w <| guild ::= λ g, g <| m_members ::= <[k := m]> |> |>.

Lemma stays_LogBankEvent (I : GuildWorld → Prop) e tab g item n dest :
  (∀ w l, I w → I (w <| guild ::= λ g, g <| m_bankEventLog := l |> |>)) →
  stays I (_LogBankEvent e tab g item n dest).
Proof.
  intros HI.
  assert (∀ A i (op : act _ _ A), stays I (in_bankEventLog i op)) as Hin.
  { intros A i op w Hw. unfold wlp, in_bankEventLog. destruct (_ !! i); [|done]. unfold zoom. destruct (op _); [|done].
    by apply (HI w). }
  unfold _LogBankEvent. cbv zeta. stays_auto; apply Hin.
Qed.

Lemma stays_BroadcastEvent (I : GuildWorld → Prop) e g l : stays I (_BroadcastEvent e g l).
Proof. unfold _BroadcastEvent, BroadcastPacket. cbv zeta. stays_auto. Qed.

Lemma stays_broadcast_amount (I : GuildWorld → Prop) a : stays I (broadcast_amount a).
Proof. apply stays_bind; [apply stays_emit|]. intros _. apply stays_BroadcastEvent. Qed.

Definition can_withdraw (session amount : Z) (repair : bool) (w : GuildWorld) : bool :=
  match GetMember session (guild w), players w !! session with
  | Some m, Some p =>
      (amount <=? m_bankMoney (guild w)) && (amount <=? u32 (_GetMemberRemainingMoney m (guild w)))
      && (repair || room amount (PLAYER_FIELD_COINAGE p))
  | _, _ => false
  end.

(** The books after a withdrawal. *)
Definition withdrawn (session amount : Z) (repair : bool) (m : Member.t) (p : Player) (w w' : GuildWorld) : Prop :=
  money_of w' = (m_bankMoney (guild w) - amount,
    if repair then purses w else <[session := purse_after amount (PLAYER_FIELD_COINAGE p)]> (purses w)) ∧
  m_members (guild w') = <[session := took amount m]> (m_members (guild w)).

Lemma wp_withdraw_tail sh session amount (repair : bool) m p w w1 (Q : bool → GuildWorld → list guild_event → Prop) :
  inv_at sh w1 → guid32 session → m_members (guild w1) !! session = Some m → guild w1 = guild w →
  purses w1 = (if repair then purses w else <[session := purse_after amount (PLAYER_FIELD_COINAGE p)]> (purses w)) →
  amount <= m_bankMoney (guild w) →
  (∀ w' t, withdrawn session amount repair m p w w' → Q true w' t) →
  wp (at_member (GUID_LOPART session) (Member.UpdateBankWithdrawValue GUILD_BANK_MAX_TABS amount) ;;
      _ModifyBankMoney amount false ;;
      _LogBankEvent (if repair then GUILD_BANK_LOG_REPAIR_MONEY else GUILD_BANK_LOG_WITHDRAW_MONEY)
        0 (GUID_LOPART session) amount 0 0 ;;
      broadcast_amount amount ;;
      mret true) Q w1.
Proof.
  intros Hi Hg Hm Hgw Hpu Hle HQ. rewrite GUID_LOPART_id by done.
  apply wp_bind. eapply (wp_mono _ (λ _ w' _, w' = member_set session (took amount m) w1)).
  { unfold wp, at_member. rewrite Hm. destruct w1. done. }
  intros _ w2 t2 ->. set (w2 := member_set _ _ w1).
  assert (inv_at sh w2) as Hi2.
  { apply (inv_at_members sh w1 (<[session := took amount m]> (m_members (guild w1)))); [|done]. intros k.
    destruct (decide (k = session)) as [->|Hk].
    - rewrite lookup_insert_eq, Hm. constructor. split; [done|]. split; [done|]. cbn. by rewrite length_alter.
    - rewrite lookup_insert_ne by done. destruct (_ !! k); constructor; by split. }
  apply wp_bind, wp_bank_money; [cbn; by rewrite Hgw|]. cbv zeta.
  set (b := m_bankMoney (guild w2) - amount). set (w3 := bank_set b w2).
  set (I := λ w', money_of w' = (b, purses w1) ∧ m_members (guild w') = <[session := took amount m]> (m_members (guild w1))).
  assert (I w3) as HI by done.
  assert (inv_at sh w3) as Hi3 by (by apply inv_bank_set).
  apply wp_bind. eapply wp_mono; [refine (wp_stays I _ _ _ _ HI (keeps_LogBankEvent sh _ 0 _ _ _ _ w3 Hi3))|].
  { apply stays_LogBankEvent. done. }
  intros _ w4 t4 [Hi4 HI4].
  apply wp_bind. eapply wp_mono; [exact (wp_stays I _ _ _ (stays_broadcast_amount I _) HI4 (keeps_broadcast_amount (inv_at sh) _ w4 Hi4))|].
  intros _ w5 t5 [_ [Hm5 Hmem]]. apply wp_ret. apply HQ. split; [|by rewrite Hmem, Hgw].
  rewrite Hm5. subst b w2. cbn. by rewrite Hgw, Hpu.
Qed.

Lemma wp_withdraw session p amount repair w (Q : bool → GuildWorld → list guild_event → Prop) :
  guild_inv w → players w !! session = Some p → 0 <= amount < 2 ^ 32 →
  purse_ok (PLAYER_FIELD_COINAGE p) →
  (∀ w' t, can_withdraw session amount repair w = false → w' = w → Q false w' t) →
  (∀ m w' t, can_withdraw session amount repair w = true → GetMember session (guild w) = Some m →
     withdrawn session amount repair m p w w' → Q true w' t) →
  wp (HandleMemberWithdrawMoney session amount repair) Q w.
Proof.
  intros Hw Hp Ha Hc HQ1 HQ2.
  assert (guid32 session) as Hg by (by destruct (gi_online _ Hw _ _ Hp)).
  unfold HandleMemberWithdrawMoney, can_withdraw in *. apply wp_bind_get.
  destruct (Z.ltb_spec (m_bankMoney (guild w)) amount) as [Hlt|Hge].
  { apply wp_ret, HQ1; [|done]. destruct (GetMember session (guild w)); [|done]. rewrite Hp.
    by rewrite (proj2 (Z.leb_gt _ _)) by lia. }
  eapply wp_bind_player; [exact Hp|]. destruct (GetMember session (guild w)) as [m|] eqn:Hm; [|by apply wp_ret, HQ1].
  rewrite Hp in *. rewrite (proj2 (Z.leb_le amount _)) in * by lia. cbn [andb] in *.
  set (rem := u32 (_GetMemberRemainingMoney m (guild w))) in *.
  destruct (Z.ltb_spec rem amount) as [Hlt|Hrem].
  { apply wp_ret, HQ1; [|done]. by rewrite (proj2 (Z.leb_gt _ _)) by lia. }
  rewrite (proj2 (Z.leb_le amount rem)) in * by lia. cbn [andb] in *.
  apply wp_bind_emit. cbv zeta. rewrite quiet_withdraw, (wrapu_id 32 amount) by lia. pose proof (inv_at_self w Hw) as Hi.
  assert (m_members (guild w) !! session = Some m) as Hm' by (unfold GetMember in Hm; by rewrite GUID_LOPART_id in Hm).
  destruct repair; cbn [orb] in *.
  - apply wp_bind, wp_ret. cbn [negb]. eapply (wp_withdraw_tail _ _ _ true m p w w); [exact Hi|done..|].
    intros w' t Hw'. by apply (HQ2 m).
  - apply wp_bind, wp_bind. eapply (wp_give_money session amount w p); [done..| |].
    + intros t Hlt. rewrite Hlt in *. set (w1 := purse_set _ _ w).
      assert (players w1 !! session = Some (p <| PLAYER_FIELD_COINAGE := purse_after amount (PLAYER_FIELD_COINAGE p) |>)) as Hp1
        by (subst w1; cbn; by rewrite lookup_alter_eq, Hp).
      apply wp_bind. unfold SaveGoldToDB. eapply wp_bind_player; [exact Hp1|]. apply wp_emit, wp_ret. cbn [negb].
      pose proof (f_equal snd (money_purse_set session (purse_after amount (PLAYER_FIELD_COINAGE p)) w p Hp)) as Hpu.
      eapply (wp_withdraw_tail _ _ _ false m p w w1); [by apply inv_purse_set, Hi|done|done|done|exact Hpu|done|].
      intros w' t' Hw'. by apply (HQ2 m).
    + intros t Hlt. rewrite Hlt in *. apply wp_ret. cbn [negb]. apply wp_ret. by apply HQ1.
Qed.
End Moves.

(** ** The event log and its table

    The rows of [guild_eventlog] for one guild: event type, the two guids, the
    new rank and the time, by LogGuid. *)

Definition event_row : Type := Z * Z * Z * Z * Z.
Definition exec_eventlog (e : guild_event) (rows : gmap Z event_row) : gmap Z event_row :=
  match e with
  | CHAR_DEL_GUILD_EVENTLOG _ guid => delete guid rows
  | CHAR_INS_GUILD_EVENTLOG _ guid type p1 p2 rank time =>
      match rows !! guid with None => <[guid := (type, p1, p2, rank, time)]> rows | Some _ => rows end
  | CHAR_DEL_GUILD_EVENTLOGS _ => ∅
  | _ => rows
  end.
Definition exec_log (t : list guild_event) (rows : gmap Z event_row) : gmap Z event_row :=
  foldl (λ r e, exec_eventlog e r) rows t.

Definition row_of (e : EventLogEntry.t) : event_row :=
  (u8 (EventLogEntry.m_eventType e), EventLogEntry.m_playerGuid1 e, EventLogEntry.m_playerGuid2 e,
   EventLogEntry.m_newRank e, EventLogEntry.m_timestamp e).

(** The numbers of the entries follow each other around the ring and end with
    the last one given out. *)
Definition ring_guid (h : LogHolder.t EventLogEntry.t) (i : nat) : Z :=
  (LogHolder.m_nextGUID h - Z.of_nat (length (LogHolder.m_log h) - 1 - i)) mod LogHolder.m_maxRecords h.
Record ring (h : LogHolder.t EventLogEntry.t) : Prop := {
  rg_ok : log_ok h;
  rg_max : LogHolder.m_maxRecords h < GUILD_EVENT_LOG_GUID_UNDEFINED;
  rg_next : LogHolder.m_nextGUID h = GUILD_EVENT_LOG_GUID_UNDEFINED ∧ LogHolder.m_log h = [] ∨
            0 <= LogHolder.m_nextGUID h < LogHolder.m_maxRecords h;
  rg_guids : ∀ i e, LogHolder.m_log h !! i = Some e → EventLogEntry.m_guid e = ring_guid h i }.

(** The table holds the entries in memory and nothing else. *)
Definition table_of (l : list EventLogEntry.t) : gmap Z event_row :=
  list_to_map ((λ e, (EventLogEntry.m_guid e, row_of e)) <$> l).

Section Ring.
Implicit Types h : LogHolder.t EventLogEntry.t.

Lemma mod_range_inj m a b : 0 < m → - m < a - b < m → a mod m = b mod m → a = b.
Proof.
  intros Hm Hd He. assert ((a - b) mod m = 0) as H0 by (by rewrite Zminus_mod, He, Z.sub_diag, Z.mod_0_l by lia).
  apply Z.mod_divide in H0 as [q Hq]; [|lia]. assert (q = 0) by nia. nia.
Qed.

Lemma ring_nodup h : ring h → NoDup (EventLogEntry.m_guid <$> LogHolder.m_log h).
Proof.
  intros [[Hm Hl] _ _ Hg]. apply NoDup_alt. intros i j g Hi Hj.
  rewrite list_lookup_fmap in Hi, Hj.
  destruct (_ !! i) as [ei|] eqn:Ei; [|done]. destruct (_ !! j) as [ej|] eqn:Ej; [|done].
  pose proof (lookup_lt_Some _ _ _ Ei). pose proof (lookup_lt_Some _ _ _ Ej).
  apply Hg in Ei, Ej. injection Hi as Hi. injection Hj as Hj. rewrite <- Hj in Hi. rewrite Ei, Ej in Hi.
  apply mod_range_inj in Hi; lia.
Qed.

Definition logged (e : EventLogEntry.t) h : LogHolder.t EventLogEntry.t :=
  pushed e (h <| LogHolder.m_nextGUID := next_guid h |>).
Definition kept h : list EventLogEntry.t :=
  if LogHolder.m_maxRecords h <=? Z.of_nat (length (LogHolder.m_log h))
  then tail (LogHolder.m_log h) else LogHolder.m_log h.

Lemma next_guid_eq h :
  ring h → LogHolder.m_log h ≠ [] → next_guid h = (LogHolder.m_nextGUID h + 1) mod LogHolder.m_maxRecords h.
Proof.
  intros [[Hm _] Hx [[_ Hn]|Hn] _] Hl; [done|]. unfold next_guid.
  rewrite (proj2 (Z.eqb_neq _ _)) by lia. unfold GUILD_EVENT_LOG_GUID_UNDEFINED in Hx. by rewrite wrapu_id by lia.
Qed.

Lemma next_guid_range h : ring h → 0 <= next_guid h < LogHolder.m_maxRecords h.
Proof.
  intros [[Hm _] _ _ _]. unfold next_guid. case_match; [lia|]. apply Z.mod_pos_bound. lia.
Qed.

Lemma kept_length h :
  (length (kept h) ≤ length (LogHolder.m_log h) ≤ S (length (kept h)))%nat.
Proof. unfold kept. case_match; [|lia]. destruct (LogHolder.m_log h); cbn; lia. Qed.

Lemma kept_lookup h i e :
  log_ok h → kept h !! i = Some e →
  LogHolder.m_log h !! (i + (S (length (LogHolder.m_log h)) - length (kept h ++ [e])))%nat = Some e.
Proof.
  intros [Hm Hl] Hi. unfold kept in *. rewrite length_app. cbn [length].
  destruct (Z.leb_spec (LogHolder.m_maxRecords h) (Z.of_nat (length (LogHolder.m_log h)))).
  - destruct (LogHolder.m_log h) as [|e0 l]; cbn [tail length] in *; [lia|].
    replace (i + _)%nat with (S i) by lia. exact Hi.
  - by replace (i + _)%nat with i by lia.
Qed.

Lemma ring_logged e h : ring h → EventLogEntry.m_guid e = next_guid h → ring (logged e h).
Proof.
  intros Hr He. pose proof (next_guid_range h Hr) as Hng. destruct Hr as [Hok Hx Hn Hg] eqn:Er.
  assert (log_ok (logged e h)) as Hok' by (by apply pushed_ok).
  split; [done|done|by right|]. intros i e' Hi. unfold ring_guid, logged, pushed in *. cbn in *.
  fold (kept h) in *. apply lookup_app_Some in Hi as [Hi|[Hlen Hi]].
  - pose proof (kept_lookup h i e' Hok Hi) as Hi'. pose proof (lookup_lt_Some _ _ _ Hi).
    pose proof (lookup_lt_Some _ _ _ Hi') as Hlt. pose proof (kept_length h). apply Hg in Hi'. rewrite Hi'. unfold ring_guid.
    assert (LogHolder.m_log h ≠ []) as Hne by (intros E; rewrite E in Hlt; cbn in Hlt; lia).
    rewrite (next_guid_eq h) by (by subst). rewrite !length_app in *. cbn [length] in *.
    rewrite Zminus_mod_idemp_l. f_equal. lia.
  - apply list_lookup_singleton_Some in Hi as [E <-]. rewrite He, length_app. cbn [length].
    replace (Z.of_nat _) with 0 by lia. rewrite Z.sub_0_r, Z.mod_small; [done|lia].
Qed.

Lemma guids_logged e h : EventLogEntry.m_guid <$> LogHolder.m_log (logged e h) =
  (EventLogEntry.m_guid <$> kept h) ++ [EventLogEntry.m_guid e].
Proof. unfold logged, pushed. cbn. fold (kept h). by rewrite fmap_app. Qed.

Lemma table_kept e h :
  ring h → EventLogEntry.m_guid e = next_guid h →
  delete (next_guid h) (table_of (LogHolder.m_log h)) = table_of (kept h).
Proof.
  intros Hr He. pose proof (ring_nodup _ (ring_logged e h Hr He)) as Hnd. rewrite guids_logged, He in Hnd.
  apply NoDup_app in Hnd as (_ & Hd & _).
  assert (next_guid h ∉ (EventLogEntry.m_guid <$> kept h)) as Hni by (intros Hk; apply (Hd _ Hk); by left).
  assert (table_of (kept h) !! next_guid h = None) as Hno.
  { apply not_elem_of_list_to_map_1. rewrite <- list_fmap_compose. exact Hni. }
  pose proof (next_guid_eq h Hr) as Hne. destruct Hr as [[Hm Hl] _ _ Hg]. unfold kept in *.
  destruct (Z.leb_spec (LogHolder.m_maxRecords h) (Z.of_nat (length (LogHolder.m_log h)))).
  - specialize (Hg 0%nat). unfold ring_guid in *. destruct (LogHolder.m_log h) as [|e0 l] eqn:El; [cbn in *; lia|].
    specialize (Hg e0 eq_refl). unfold table_of in *. cbn [fmap list_fmap list_to_map tail length] in *.
    assert (EventLogEntry.m_guid e0 = next_guid h) as ->.
    { rewrite Hg, Hne by done. rewrite <- (Z.mod_add _ 1 (LogHolder.m_maxRecords h)) by lia. f_equal. lia. }
    cbn [list_to_map foldr]. rewrite delete_insert_eq. by apply delete_id.
  - by apply delete_id.
Qed.

(** The deletion of the row that the new number still has, and the new row. *)
Lemma table_logged e h :
  ring h → EventLogEntry.m_guid e = next_guid h →
  exec_log (EventLogEntry.SaveToDB e) (table_of (LogHolder.m_log h)) = table_of (LogHolder.m_log (logged e h)).
Proof.
  intros Hr He. pose proof (table_kept e h Hr He) as Hk. unfold exec_log, EventLogEntry.SaveToDB.
  cbn [foldl exec_eventlog]. rewrite He, lookup_delete_eq, Hk.
  pose proof (ring_nodup _ (ring_logged e h Hr He)) as Hnd. rewrite guids_logged, He in Hnd.
  apply NoDup_app in Hnd as (_ & Hd & _).
  unfold logged, pushed, table_of. cbn. fold (kept h). rewrite fmap_app. cbn [fmap list_fmap].
  rewrite list_to_map_snoc; [by rewrite He|]. rewrite He, <- list_fmap_compose.
  intros Hi. apply (Hd (next_guid h)); [exact Hi|by left].
Qed.
End Ring.

(** The last [n] of a list. *)
Definition last_n {A} (n : nat) (l : list A) : list A := drop (length l - n) l.
Lemma last_n_app {A} n (l k : list A) : last_n n (last_n n l ++ k) = last_n n (l ++ k).
Proof.
  unfold last_n. rewrite !length_app, length_drop. destruct (decide (length l <= n)%nat) as [Hl|Hl].
  - replace (length l - n)%nat with 0%nat by lia. by rewrite Nat.sub_0_r, drop_0.
  - rewrite <- (drop_app_le l k (length l - n)) by lia. rewrite drop_drop. f_equal. lia.
Qed.
Lemma last_n_idem {A} n (l : list A) : last_n n (last_n n l) = last_n n l.
Proof. pose proof (last_n_app n l []) as E. by rewrite !app_nil_r in E. Qed.

Section Events.
Context `{GuildLaws}.

(** An event as it is handed to the log, and its row. *)
Notation event := (Z * Z * Z * Z)%type.
Definition log_event (ev : event) : gact unit :=
  let '(type, p1, p2, rank) := ev in _LogEvent type p1 p2 rank.
Definition new_row (ev : event) : event_row :=
  let '(type, p1, p2, rank) := ev in (u8 type, p1, p2, rank, u64 time_now).

Definition records (w : GuildWorld) : nat := Z.to_nat (LogHolder.m_maxRecords (m_eventLog (guild w))).
Definition log_rows (w : GuildWorld) : list event_row := row_of <$> LogHolder.m_log (m_eventLog (guild w)).
Definition log_set (h : LogHolder.t EventLogEntry.t) (w : GuildWorld) : GuildWorld :=
  w <| guild ::= λ g, g <| m_eventLog := h |> |>.

Lemma log_event_run ev w :
  ring (m_eventLog (guild w)) →
  ∃ e, EventLogEntry.m_guid e = next_guid (m_eventLog (guild w)) ∧ row_of e = new_row ev ∧
    ∃ x, log_event ev w = Done tt (log_set (logged e (m_eventLog (guild w))) w) (EventLogEntry.SaveToDB e ++ [x]) ∧
      ∀ rows, exec_eventlog x rows = rows.
Proof.
  intros [Hok _ _ _]. destruct ev as [[[type p1] p2] rank].
  exists (EventLogEntry.mk (m_id (guild w)) (next_guid (m_eventLog (guild w))) (u64 time_now) type p1 p2 rank).
  split; [done|]. split; [done|]. exists (OnGuildEvent (u8 type) p1 p2 rank). split; [|done].
  unfold log_event, _LogEvent, in_eventLog, mbind, act_bind, get, zoom. cbn.
  rewrite GetNextGUID_run by done. cbn. rewrite AddEvent_run by done. by destruct w as [[] ? ?].
Qed.

Lemma logged_rows e w : ring (m_eventLog (guild w)) →
  row_of <$> LogHolder.m_log (logged e (m_eventLog (guild w))) = last_n (records w) (log_rows w ++ [row_of e]).
Proof.
  intros [[Hm Hl] _ _ _]. unfold logged, pushed, records, log_rows, last_n. cbn.
  rewrite fmap_app, length_app, length_fmap. cbn [length fmap list_fmap].
  destruct (Z.leb_spec (LogHolder.m_maxRecords (m_eventLog (guild w))) (Z.of_nat (length (LogHolder.m_log (m_eventLog (guild w)))))).
  - destruct (LogHolder.m_log _) as [|e0 l]; cbn [length] in *; [lia|].
    by replace (S _ + 1 - _)%nat with 1%nat by lia.
  - by replace (_ - _)%nat with 0%nat by lia.
Qed.

Lemma wp_log_events evs w :
  ring (m_eventLog (guild w)) → log_rows w = last_n (records w) (log_rows w) →
  wp (forM_ evs log_event) (λ _ w' t,
    ring (m_eventLog (guild w')) ∧ log_rows w' = last_n (records w) (log_rows w ++ (new_row <$> evs)) ∧
    exec_log t (table_of (LogHolder.m_log (m_eventLog (guild w)))) =
      table_of (LogHolder.m_log (m_eventLog (guild w')))) w.
Proof.
  revert w. induction evs as [|ev evs IH]; intros w Hr Hl.
  { cbn. rewrite app_nil_r. by split_and!. }
  cbn [forM_]. apply wp_bind. destruct (log_event_run ev w Hr) as (e & He & Hrow & x & Hrun & Hx).
  unfold wp at 1. rewrite Hrun. set (w1 := log_set _ w).
  assert (ring (m_eventLog (guild w1))) as Hr1 by (by apply ring_logged).
  assert (records w1 = records w) as Hn by done.
  assert (log_rows w1 = last_n (records w) (log_rows w ++ [new_row ev])) as Hl1
    by (rewrite <- Hrow; by apply logged_rows).
  eapply wp_mono; [apply IH; [done|]|].
  { by rewrite Hn, Hl1, last_n_idem. }
  intros _ w2 t (Hr2 & Hl2 & Ht). split; [done|]. rewrite Hn, Hl1 in Hl2. split.
  - rewrite Hl2, last_n_app, <- app_assoc. done.
  - unfold exec_log in *. rewrite !foldl_app. cbn [foldl]. rewrite Hx, <- Ht. f_equal.
    exact (table_logged e _ Hr He).
Qed.
End Events.

Section Limits.
Context `{GuildLaws}.

Lemma ring_rows w : ring (m_eventLog (guild w)) → log_rows w = last_n (records w) (log_rows w).
Proof.
  intros [[Hm Hl] _ _ _]. unfold last_n, log_rows, records. rewrite length_fmap.
  by replace (_ - _)%nat with 0%nat by lia.
Qed.

(** What an officer's or a member's rank lets him take per day. *)
Definition daily_limit (m : Member.t) (g : Guild) : Z := _GetRankBankMoneyPerDay (Member.m_rankId m) g.
(** A right of his rank: to withdraw for repairs, or to withdraw gold. *)
Definition rank_may (right : Z) (m : Member.t) (g : Guild) : bool :=
  has_flag (_GetRankRights (Member.m_rankId m) g) right.

Lemma has_flag_either x a b : has_flag x (Z.lor a b) = has_flag x a || has_flag x b.
Proof.
  assert (∀ y z, has_flag y z = has_flag z y) as Hc by (intros y z; unfold has_flag; by rewrite Z.land_comm).
  by rewrite !(Hc x), has_flag_lor.
Qed.

Lemma can_withdraw_limit session amount (repair : bool) w m :
  can_withdraw session amount repair w = true → GetMember session (guild w) = Some m →
  Member.IsRank GR_GUILDMASTER m = false → 0 < amount →
  (rank_may GR_RIGHT_WITHDRAW_REPAIR m (guild w) = true ∨ rank_may GR_RIGHT_WITHDRAW_GOLD m (guild w) = true) ∧
  amount <= i32 (daily_limit m (guild w) - spent m).
Proof.
  unfold can_withdraw. intros Hc Hm Hr Ha. rewrite Hm in Hc. destruct (players w !! session); [|done].
  rewrite !andb_true_iff, !Z.leb_le in Hc. destruct Hc as [[_ Hc] _]. revert Hc.
  unfold _GetMemberRemainingMoney, Member.GetBankWithdrawValue, daily_limit, rank_may, spent in *.
  unfold Member.IsRank in *. rewrite Hr, <- orb_true_iff. assert (u32 0 = 0) as Hz by done.
  rewrite has_flag_either.
  destruct (has_flag _ _ || has_flag _ _); [|lia].
  change (Z.to_nat GUILD_BANK_MAX_TABS) with 6%nat. set (left := i32 _).
  pose proof (wraps_range 32 (_GetRankBankMoneyPerDay (Member.m_rankId m) (guild w) - nth 6 (Member.m_bankWithdraw m) 0) ltac:(lia)) as Hl.
  fold left in Hl. destruct (Z.ltb_spec 0 left); [|lia]. rewrite wrapu_id by lia. done.
Qed.

Lemma took_spent amount m :
  length (Member.m_bankWithdraw m) = 7%nat → spent (took amount m) = i32 (spent m + amount).
Proof.
  intros Hl. unfold spent, took.
  destruct (lookup_lt_is_Some_2 (Member.m_bankWithdraw m) 6) as [x Hx]; [lia|].
  rewrite !nth_lookup. cbn. by rewrite list_lookup_alter_eq, Hx.
Qed.
End Limits.

(** ** Properties *)

#[export] Instance quiet_scripts0 : QuietScripts.
Proof. by split. Qed.

(** A deposit moves exactly its amount from the player's purse to the
    guild's bank and nobody else's money changes; both new balances are written
    to the database. *)
Theorem deposit_moves_money `{GuildLaws, !QuietScripts} session p amount w :
  guild_inv w → players w !! session = Some p → purse_ok (PLAYER_FIELD_COINAGE p) →
  0 <= amount <= PLAYER_FIELD_COINAGE p → 0 <= m_bankMoney (guild w) →
  m_bankMoney (guild w) + amount < 2 ^ 64 →
  wp (HandleMemberDepositMoney session amount) (λ _ w' t,
    money_of w' = (m_bankMoney (guild w) + amount, <[session := PLAYER_FIELD_COINAGE p - amount]> (purses w)) ∧
    CHAR_UPD_GUILD_BANK_MONEY (m_bankMoney (guild w) + amount) (m_id (guild w)) ∈ t ∧
    CHAR_UDP_CHAR_MONEY (PLAYER_FIELD_COINAGE p - amount) session ∈ t) w.
Proof. intros Hw ?????. eapply wp_deposit; [exact (inv_at_self w Hw)|done..|]. intros. by split_and!. Qed.

Lemma guild0_player :
  ∃ p, players guild0 !! 10 = Some p ∧ PLAYER_FIELD_COINAGE p = 5000000.
Proof. eexists. split; [vm_compute; reflexivity|reflexivity]. Qed.

Lemma deposit_moves_money_witness :
  ∃ p, players guild0 !! 10 = Some p ∧ PLAYER_FIELD_COINAGE p = 5000000 ∧
  wp (HandleMemberDepositMoney 10 700) (λ _ w' t,
    money_of w' = (m_bankMoney (guild guild0) + 700, <[10 := PLAYER_FIELD_COINAGE p - 700]> (purses guild0)) ∧
    CHAR_UPD_GUILD_BANK_MONEY (m_bankMoney (guild guild0) + 700) (m_id (guild guild0)) ∈ t ∧
    CHAR_UDP_CHAR_MONEY (PLAYER_FIELD_COINAGE p - 700) 10 ∈ t) guild0.
Proof.
  destruct guild0_player as (p & Hp & Hc). exists p. split; [exact Hp|]. split; [exact Hc|].
  assert (m_bankMoney (guild guild0) = 0) as Hb by (vm_compute; reflexivity).
  apply deposit_moves_money; [exact (proj1 (proj1 guild0_good))|exact Hp|..]; rewrite ?Hc, ?Hb;
    unfold purse_ok, MAX_MONEY_AMOUNT; lia.
Defined.

(** C20: What a withdrawal does, for every amount that a packet can hold (uint32).
    It succeeds exactly if the player is a member with enough left for the day, the
    bank holds the amount and - unless it pays for repairs - the purse passes the
    check for room, which is c + amount < 2^31 - 2 for amounts from 1 to 2^31 - 2
    and which every purse passes for 0 and for the larger amounts. Then exactly the
    amount leaves the bank and is added to the member's (signed, 32 bit) count; an
    amount below 2^31 goes to the purse exactly (or is spent on the repair), but
    ModifyMoney takes an int32: from 2^31 on the purse loses 2^32 - amount, or all
    it has, instead of gaining. Otherwise nothing changes at all. This is of a guild
    that keeps its rules (C15), of a purse within its limit and of scripts that
    leave the amount as it is (the default; the repository has no other). *)
Theorem withdraw_exact `{GuildLaws, !QuietScripts} session p amount (repair : bool) w :
  guild_inv w → players w !! session = Some p → purse_ok (PLAYER_FIELD_COINAGE p) →
  0 <= amount < 2 ^ 32 →
  wp (HandleMemberWithdrawMoney session amount repair) (λ ok w' _,
    ok = can_withdraw session amount repair w ∧
    if (ok : bool) then ∃ m, GetMember session (guild w) = Some m ∧ withdrawn session amount repair m p w w'
    else w' = w) w.
Proof. intros Hw Hp Hc Ha. eapply (wp_withdraw session p); [done..| |]; intros; split; eauto. Qed.

(** The bank holds what Ann has put in. *)
Definition guild1 : GuildWorld := rstate (HandleMemberDepositMoney 10 3000000 guild0).

Lemma guild1_good : guild_inv guild1 ∧ players guild1 !! 10 = Some ((guild_player "Ann" 2000000)
  <| PLAYER_GUILDID := 7 |>).
Proof.
  split; [|vm_compute; reflexivity].
  pose proof (keeps_HandleMemberDepositMoney 10 (shape_of guild0) 3000000 (guild0_online 10 ltac:(clear; set_solver))
    guild0 (inv_at_self guild0 (proj1 (proj1 guild0_good)))) as Hw.
  apply wp_rstate in Hw as (? & ? & Hw & _). exact Hw.
Qed.

Lemma withdraw_exact_witness :
  wp (HandleMemberWithdrawMoney 10 1000 false) (λ ok w' _,
    ok = can_withdraw 10 1000 false guild1 ∧
    if (ok : bool) then ∃ m, GetMember 10 (guild guild1) = Some m ∧
      withdrawn 10 1000 false m ((guild_player "Ann" 2000000) <| PLAYER_GUILDID := 7 |>) guild1 w'
    else w' = guild1) guild1 ∧ can_withdraw 10 1000 false guild1 = true.
Proof.
  split; [|vm_compute; reflexivity]. destruct guild1_good as [Hi Hp].
  apply (withdraw_exact 10 _ 1000 false guild1 Hi Hp); [cbn; unfold purse_ok, MAX_MONEY_AMOUNT; lia|lia].
Defined.

(** A guild master takes 2^31 copper: the bank loses them, and so does she. *)
Definition rich_bank : GuildWorld := bank_set (2 ^ 32) guild1.
Definition purse_of (guid : Z) (w : GuildWorld) : option Z := PLAYER_FIELD_COINAGE <$> players w !! guid.
Theorem large_withdrawal_costs :
  match HandleMemberWithdrawMoney 10 (2 ^ 31) false rich_bank with
  | Done ok w' _ => ok = true ∧ m_bankMoney (guild w') = 2 ^ 31 ∧
      purse_of 10 rich_bank = Some 2000000 ∧ purse_of 10 w' = Some 0
  | Fault _ _ _ => False
  end.
Proof. vm_compute. repeat split. Qed.

(** C21: The daily limit. A member whose rank is not 0 (the guild master, who has no
    limit) gets money, for himself or for repairs, only if his rank has the right to
    withdraw for repairs or the right to withdraw gold - either one: the code asks
    for any of the two for both purposes and never looks at the right that locks
    withdrawals - and only up to what remains of the rank's allowance per day after
    what he took that day, computed in 32 signed bits; what he takes is added to
    that count. So with a count and an allowance that are not negative all he took
    that day, this included, stays within the allowance. This is of amounts above 0,
    as the handler demands, of a guild that keeps its rules (C15), a purse within
    its limit, and scripts that leave amounts as they are (the default). *)
Theorem withdraw_limit `{GuildLaws, !QuietScripts} session p amount (repair : bool) m w :
  guild_inv w → players w !! session = Some p → purse_ok (PLAYER_FIELD_COINAGE p) →
  0 < amount < 2 ^ 32 → GetMember session (guild w) = Some m →
  Member.IsRank GR_GUILDMASTER m = false →
  wp (HandleMemberWithdrawMoney session amount repair) (λ ok w' _, (ok : bool) = true →
    (rank_may GR_RIGHT_WITHDRAW_REPAIR m (guild w) = true ∨ rank_may GR_RIGHT_WITHDRAW_GOLD m (guild w) = true) ∧
    amount <= i32 (daily_limit m (guild w) - spent m) ∧
    ∃ m', GetMember session (guild w') = Some m' ∧ spent m' = i32 (spent m + amount) ∧
      (0 <= spent m < 2 ^ 31 → 0 <= daily_limit m (guild w) < 2 ^ 31 →
       spent m' = spent m + amount ∧ spent m' <= daily_limit m (guild w))) w.
Proof.
  intros Hw Hp Hc Ha Hm Hr. eapply wp_withdraw; [done|done|lia|done|by intros|].
  intros m0 w' t Hcan Hm0 [_ Hw'] _. rewrite Hm in Hm0. injection Hm0 as <-.
  destruct (can_withdraw_limit session amount repair w m Hcan Hm Hr ltac:(lia)) as [Hright Hle].
  split; [done|]. split; [done|]. exists (took amount m).
  assert (guid32 session) as Hg by (by destruct (gi_online _ Hw _ _ Hp)). unfold GetMember in *.
  rewrite GUID_LOPART_id in * by done. rewrite Hw', lookup_insert_eq. split; [done|].
  rewrite took_spent; [|exact (mb_withdraw _ _ (gi_members _ Hw _ _ Hm))]. split; [done|].
  intros Hs Hl. rewrite wraps_id in Hle by lia. rewrite wraps_id by lia. lia.
Qed.

(** Ann lets the rank of Bob and Cid take 500 copper a day. *)
Lemma rights_in_range :
  0 <= Z.lor GR_RIGHT_EMPTY (Z.lor GR_RIGHT_WITHDRAW_REPAIR GR_RIGHT_WITHDRAW_GOLD) < 2 ^ 32.
Proof. vm_compute. split; congruence. Qed.
Definition guild2 : GuildWorld :=
  rstate (HandleSetRankInfo 10 4 "Member" (Z.lor GR_RIGHT_EMPTY (Z.lor GR_RIGHT_WITHDRAW_REPAIR GR_RIGHT_WITHDRAW_GOLD))
    500 [] guild1).

Lemma guild2_good : guild_inv guild2 ∧ players guild2 !! 20 = players guild0 !! 20.
Proof.
  split; [|vm_compute; reflexivity].
  set (rights := Z.lor GR_RIGHT_EMPTY (Z.lor GR_RIGHT_WITHDRAW_REPAIR GR_RIGHT_WITHDRAW_GOLD)).
  assert (request_ok (ReqSetRank 4 "Member" rights 500 [])) as Hok
    by (split; [lia|]; split; [exact rights_in_range|constructor]).
  pose proof (keeps_HandleSetRankInfo 10 (shape_of guild1) 4 "Member" rights 500 [] Hok guild1
    (inv_at_self guild1 (proj1 guild1_good))) as Hw.
  apply wp_rstate in Hw as (? & ? & Hw & _). exact Hw.
Qed.

Lemma withdraw_limit_witness :
  ∃ p m, players guild2 !! 20 = Some p ∧ GetMember 20 (guild guild2) = Some m ∧
  daily_limit m (guild guild2) = 500 ∧ can_withdraw 20 300 false guild2 = true ∧
  wp (HandleMemberWithdrawMoney 20 300 false) (λ ok w' _, (ok : bool) = true →
    (rank_may GR_RIGHT_WITHDRAW_REPAIR m (guild guild2) = true ∨ rank_may GR_RIGHT_WITHDRAW_GOLD m (guild guild2) = true) ∧
    300 <= i32 (daily_limit m (guild guild2) - spent m) ∧
    ∃ m', GetMember 20 (guild w') = Some m' ∧ spent m' = i32 (spent m + 300) ∧
      (0 <= spent m < 2 ^ 31 → 0 <= daily_limit m (guild guild2) < 2 ^ 31 →
       spent m' = spent m + 300 ∧ spent m' <= daily_limit m (guild guild2))) guild2.
Proof.
  assert (∃ p, players guild0 !! 20 = Some p ∧ PLAYER_FIELD_COINAGE p = 300) as (p & Hp & Hc)
    by (eexists; split; [vm_compute; reflexivity|reflexivity]).
  assert (∃ m, GetMember 20 (guild guild2) = Some m ∧ Member.IsRank GR_GUILDMASTER m = false)
    as (m & Hm & Hr) by (eexists; split; [vm_compute; reflexivity|reflexivity]).
  assert (daily_limit m (guild guild2) = 500) as Hl.
  { assert ((λ m, daily_limit m (guild guild2)) <$> GetMember 20 (guild guild2) = Some 500) as Hl
      by (vm_compute; reflexivity). rewrite Hm in Hl. apply (inj Some) in Hl. exact Hl. }
  destruct guild2_good as [Hi Hpl]. exists p, m. rewrite Hpl. split; [exact Hp|]. split; [exact Hm|].
  split; [exact Hl|]. split; [vm_compute; reflexivity|].
  rewrite <- Hpl in Hp.
  apply (withdraw_limit 20 p 300 false m guild2 Hi Hp);
    [unfold purse_ok, MAX_MONEY_AMOUNT; lia|lia|exact Hm|exact Hr].
Defined.

(** A rank that may only withdraw for repairs, and that is locked besides, takes
    gold: the code does not tell the rights apart. *)
Definition locked_rank : GuildWorld :=
  rstate (HandleSetRankInfo 10 4 "Member"
    (Z.lor GR_RIGHT_EMPTY (Z.lor GR_RIGHT_WITHDRAW_REPAIR GR_RIGHT_WITHDRAW_GOLD_LOCK)) 500 [] guild1).
Theorem repair_right_takes_gold :
  match HandleMemberWithdrawMoney 20 300 false locked_rank with
  | Done ok w' _ => ok = true ∧ purse_of 20 locked_rank = Some 300 ∧ purse_of 20 w' = Some 600 ∧
      (λ m, rank_may GR_RIGHT_WITHDRAW_GOLD m (guild locked_rank)) <$> GetMember 20 (guild locked_rank) = Some false ∧
      (λ m, rank_may GR_RIGHT_WITHDRAW_GOLD_LOCK m (guild locked_rank)) <$> GetMember 20 (guild locked_rank) = Some true
  | Fault _ _ _ => False
  end.
Proof. vm_compute. repeat split. Qed.

(** No request but the purchase of an emblem or a tab, a deposit or a
    withdrawal moves money: the bank and every purse stay as they are. *)
Theorem guild_money_aside `{GuildLaws} session rq w :
  guild_inv w → leader_master w → session ∈ dom (players w) → request_ok rq → spends rq = false →
  wp (serve_guild session rq) (λ _ w' _, money_of w' = money_of w) w.
Proof.
  intros Hw Hl Hd Hok Hs. eapply wp_mono;
    [exact (wp_stays (money_is (money_of w)) _ _ w (same_serve _ session rq Hs) eq_refl (wp_serve_guild session rq w Hw Hl Hd Hok))|].
  intros _ w' _ [_ E]. exact E.
Qed.

Lemma guild_money_aside_witness :
  wp (serve_guild 20 ReqLeave) (λ _ w' _, money_of w' = money_of guild0) guild0.
Proof.
  exact (guild_money_aside 20 ReqLeave guild0 (proj1 (proj1 guild0_good)) (proj2 (proj1 guild0_good))
    (guild0_online 20 ltac:(clear; set_solver)) I eq_refl).
Defined.

(** C22: The event log is a ring, and its table a copy of it.  Whatever events
    are logged one after the other, the log holds the last of them, as many as
    are configured, in order and with distinct numbers; and the statements
    executed on the table of the old entries leave the rows of the new ones. *)
Theorem event_log_ring `{GuildLaws} (evs : list (Z * Z * Z * Z)) w :
  ring (m_eventLog (guild w)) →
  wp (forM_ evs log_event) (λ _ w' t,
    ring (m_eventLog (guild w')) ∧ NoDup (EventLogEntry.m_guid <$> LogHolder.m_log (m_eventLog (guild w'))) ∧
    log_rows w' = last_n (records w) (log_rows w ++ (new_row <$> evs)) ∧
    exec_log t (table_of (LogHolder.m_log (m_eventLog (guild w)))) =
      table_of (LogHolder.m_log (m_eventLog (guild w')))) w.
Proof.
  intros Hr. eapply wp_mono; [by apply wp_log_events, ring_rows|]. intros _ w' t (Hr' & Hl & Ht).
  split; [done|]. split; [by apply ring_nodup|done].
Qed.

Lemma event_log_ring_witness :
  let w := log_set (LogHolder.init 7 2) guild0 in
  wp (forM_ [(3, 10, 20, 4); (4, 10, 20, 5); (6, 30, 0, 0)] log_event) (λ _ w' t,
    (ring (m_eventLog (guild w')) ∧ NoDup (EventLogEntry.m_guid <$> LogHolder.m_log (m_eventLog (guild w'))) ∧
    log_rows w' = last_n (records w) (log_rows w ++ (new_row <$> [(3, 10, 20, 4); (4, 10, 20, 5); (6, 30, 0, 0)])) ∧
    exec_log t (table_of (LogHolder.m_log (m_eventLog (guild w)))) =
      table_of (LogHolder.m_log (m_eventLog (guild w')))) ∧
    log_rows w' = [(4, 10, 20, 5, 1000); (6, 30, 0, 0, 1000)]) w.
Proof.
  intros w. assert (ring (m_eventLog (guild w))) as Hr.
  { split; [vm_compute; split_and!; congruence|reflexivity|left; split; reflexivity|]. intros [|i] e Hi; discriminate Hi. }
  eapply wp_mono; [exact (event_log_ring [(3, 10, 20, 4); (4, 10, 20, 5); (6, 30, 0, 0)] w Hr)|].
  intros u w' t Hw. cbv beta in Hw. split; [exact Hw|]. rewrite (proj1 (proj2 (proj2 Hw))). vm_compute. reflexivity.
Defined.
