(* ===== verification/GuildBank.v ===== *)
(** The guild bank's items: [Guild::MoveItemData] with its two subclasses, and
    the moves of items within the bank and between the bank and a player's
    inventory.  Proved: a move within the bank neither makes nor loses items,
    keeps every stack within its size, and leaves the tables of the bank and of
    the items a copy of what is in memory. *)

From S2P Require Import Prelude ByteBuffer Util Rbac Channel Social Guild GuildRules GuildMoney.
Open Scope string_scope.
Open Scope list_scope.
Open Scope Z_scope.

Definition EQUIP_ERR_OK : Z := 0.
Definition EQUIP_ERR_ITEM_DOESNT_GO_INTO_BAG : Z := 15.
Definition EQUIP_ERR_ITEM_CANT_STACK : Z := 19.
Definition EQUIP_ERR_ITEMS_CANT_BE_SWAPPED : Z := 21.
Definition EQUIP_ERR_ITEM_NOT_FOUND : Z := 23.
Definition EQUIP_ERR_CANT_DROP_SOULBOUND : Z := 24.
Definition EQUIP_ERR_CAN_ONLY_DO_WITH_EMPTY_BAGS : Z := 31.
Definition EQUIP_ERR_BANK_FULL : Z := 51.
Definition NULL_BAG : Z := 0.
Definition NULL_SLOT : Z := 255.

(** [ItemTemplate::GetMaxStackSize]. *)
Definition GetMaxStackSize (stackable : Z) : Z :=
  if (stackable =? 2147483647) || (stackable <=? 0) then 0x7FFFFFFF - 1 else u32 stackable.
Definition GetMaxStackCount (it : Item) : Z := GetMaxStackSize (Stackable it).

(** ** The two ends of a move

    [MoveItemData] and its subclasses [BankMoveItemData] and
    [PlayerMoveItemData], which [IsBank] tells apart; [m_vec] is the list of
    places to store in, as position and count. *)

Record MoveItemData := mkMoveItemData {
  IsBank : bool; m_container : Z; m_slotId : Z;
  m_pItem : option Z; m_pClonedItem : option Z; m_vec : list (Z * Z) }.
#[export] Instance eta_MoveItemData : Eta MoveItemData := λ r,
  mkMoveItemData (IsBank r) (m_container r) (m_slotId r) (m_pItem r) (m_pClonedItem r) (m_vec r).
Definition new_BankMoveItemData (container slotId : Z) : MoveItemData :=
  mkMoveItemData true container slotId None None [].
Definition new_PlayerMoveItemData (container slotId : Z) : MoveItemData :=
  mkMoveItemData false container slotId None None [].

(** [pSrc] and [pDest] of one call of [_MoveItems], with the guild, the items
    and the counter of item guids; [player] is who moves. *)
Record BankWorld := mkBankWorld {
  world : GuildWorld; _hiItemGuid : Z; pSrc : MoveItemData; pDest : MoveItemData }.
#[export] Instance eta_BankWorld : Eta BankWorld := λ r,
  mkBankWorld (world r) (_hiItemGuid r) (pSrc r) (pDest r).
Notation bact := (act BankWorld guild_event).

Inductive side := SRC | DEST.
Definition other (s : side) : side := match s with SRC => DEST | DEST => SRC end.
Definition this (s : side) (b : BankWorld) : MoveItemData :=
  match s with SRC => pSrc b | DEST => pDest b end.

(** The item templates, and what the player's inventory answers. *)
Class BankEnv := {
  bank_guild_env :: GuildEnv;
  GetItemTemplate : Z → option (Z * Z);
  GetItemByPos : Z → Z → Z → option Z;
  IsNotEmptyBag : Z → bool;
  CanBeTraded : Z → bool;
  Player_CanStoreItem : Z → Z → Z → Z → bool → Z * list (Z * Z) }.

Section BankOps.
Context `{BankEnv} (player : Z).

Definition on_this (s : side) (f : MoveItemData → MoveItemData) : bact unit :=
  modify (λ b, match s with SRC => b <| pSrc ::= f |> | DEST => b <| pDest ::= f |> end).
Definition in_world {A} (op : gact A) : bact A := zoom world (λ w b, b <| world := w |>) op.
Definition item_at (g : Z) : bact Item := b ← get; require (items (world b) !! g).
Definition on_item (g : Z) (f : Item → Item) : bact unit :=
  modify (λ b, b <| world ::= λ w, w <| items ::= alter f g |> |>).
Definition SetCount (g count : Z) : bact unit := on_item g (λ it, it <| GetCount := count |>).
(** [FSetState] and [SaveToDB]: the row is written whatever the state was. *)
Definition save_item (g : Z) : bact unit := it ← item_at g; emit (ItemSaveToDB g it).

(** [ObjectMgr::GenerateLowGuid(HIGHGUID_ITEM)]. *)
Definition GenerateLowGuid : bact Z :=
  b ← get;
  if _hiItemGuid b <? 0xFFFFFFFE
  then modify (λ b, b <| _hiItemGuid := _hiItemGuid b + 1 |>) ;; mret (_hiItemGuid b)
  else raise AssertFailed.

(** [Item::CloneItem] with [Item::CreateItem], without a player: flags are
    copied, random properties and enchantments are not. *)
Definition Item_CloneItem (g count : Z) : bact (option Z) :=
  it ← item_at g;
  if count <? 1 then mret None else
  match GetItemTemplate (GetEntry it) with
  | None => raise AssertFailed
  | Some (stackable, charges) =>
      let count := if GetMaxStackSize stackable <? count then GetMaxStackSize stackable else count in
      if count =? 0 then raise AssertFailed else
      n ← GenerateLowGuid;
      modify (λ b, b <| world ::= λ w, w <| items ::=
        <[n := mkItem (GetEntry it) count stackable (IsSoulBound it) 0 0 charges (replicate 12 0)]> |> |>) ;;
      mret (Some n)
  end.

(** *** [MoveItemData] *)

Definition GetItem (isCloned : bool) (m : MoveItemData) : option Z :=
  if isCloned then m_pClonedItem m else m_pItem m.
(** The split amount after the check, or nothing if it is too much. *)
Definition CheckItem (s : side) (splitedAmount : Z) : bact (option Z) :=
  b ← get;
  match m_pItem (this s b) with
  | None => raise AssertFailed
  | Some g =>
      it ← item_at g;
      if GetCount it <? splitedAmount then mret None
      else mret (Some (if splitedAmount =? GetCount it then 0 else splitedAmount))
  end.
Definition CloneItem (s : side) (count : Z) : bact bool :=
  b ← get;
  match m_pItem (this s b) with
  | None => raise AssertFailed
  | Some g =>
      n ← Item_CloneItem g count;
      on_this s (λ m, m <| m_pClonedItem := n |>) ;;
      match n with
      | None => emit (SendEquipError player EQUIP_ERR_ITEM_NOT_FOUND) ;; mret false
      | Some _ => mret true
      end
  end.
(** The deposits that go to the log of GM commands are only logged. *)
Definition LogAction (s : side) : bact unit :=
  b ← get;
  let to := this s b in
  let pFrom := this (other s) b in
  match m_pItem pFrom with
  | None => raise AssertFailed
  | Some g => emit (OnGuildItemMove player g (IsBank pFrom) (m_container pFrom) (m_slotId pFrom)
                      (IsBank to) (m_container to) (m_slotId to))
  end.
Definition CopySlots (m : MoveItemData) : gset Z := list_to_set ((λ pc, u8 pc.1) <$> m_vec m).

(** *** The bank *)

(** A pointer in a slot, with the item it points to. *)
Definition _GetItem (tabId slotId : Z) (w : GuildWorld) : option Z :=
  GetBankTab tabId (guild w) ≫= BankTab.GetItem slotId.
Definition SetItem (tabId slotId : Z) (item : option Z) : bact bool :=
  if GUILD_BANK_MAX_SLOTS <=? slotId then mret false else
  b ← get;
  tab ← require (m_bankTabs (guild (world b)) !! Z.to_nat tabId);
  modify (λ b, b <| world ::= λ w, w <| guild ::= λ g, g <| m_bankTabs ::=
    <[Z.to_nat tabId := tab <| BankTab.m_items ::= partial_alter (λ _, item) slotId |>]> |> |> |>) ;;
  emit (CHAR_DEL_GUILD_BANK_ITEM (BankTab.m_guildId tab) (BankTab.m_tabId tab) slotId) ;;
  match item with
  | None => mret true
  | Some g =>
      emit (CHAR_INS_GUILD_BANK_ITEM (BankTab.m_guildId tab) (BankTab.m_tabId tab) slotId g) ;;
      save_item g ;; mret true
  end.
Definition _RemoveItem (tabId slotId : Z) : bact unit :=
  b ← get;
  match GetBankTab tabId (guild (world b)) with
  | Some _ => SetItem tabId slotId None ;; mret tt
  | None => mret tt
  end.

(** *** [CanStore] *)

(** The reservation so far: what is left to place, and the places. *)
Definition isContainedIn (pos : Z) (vec : list (Z * Z)) : bool := bool_decide (pos ∈ vec.*1).
Definition _ReserveSpace (slotId : Z) (pItem : Item) (pItemDest : option Item) (cv : Z * list (Z * Z)) :
    bool * (Z * list (Z * Z)) :=
  let '(count, vec) := cv in
  let place (space : Z) :=
    let requiredSpace := Z.min space count in
    if isContainedIn slotId vec then (count, vec)
    else (u32 (count - requiredSpace), vec ++ [(slotId, requiredSpace)]) in
  match pItemDest with
  | Some d =>
      if negb (GetEntry d =? GetEntry pItem) || (GetMaxStackCount pItem <=? GetCount d) then (false, cv)
      else (true, place (u32 (GetMaxStackCount pItem - GetCount d)))
  | None => (true, place (GetMaxStackCount pItem))
  end.
(** The item in a slot as a destination: not the one that is moved. *)
Definition dest_item (container slotId p : Z) (w : GuildWorld) : option Item :=
  match _GetItem container slotId w with
  | Some d => if d =? p then None else items w !! d
  | None => None
  end.
Fixpoint CanStoreItemInTab_loop (container p : Z) (pItem : Item) (skipSlotId : Z) (merge : bool)
    (w : GuildWorld) (slots : list Z) (cv : Z * list (Z * Z)) : Z * list (Z * Z) :=
  match slots with
  | [] => cv
  | slotId :: slots' =>
      if negb (0 <? cv.1) then cv
      else if slotId =? skipSlotId then CanStoreItemInTab_loop container p pItem skipSlotId merge w slots' cv
      else
        let d := dest_item container slotId p w in
        CanStoreItemInTab_loop container p pItem skipSlotId merge w slots'
          (if Bool.eqb (bool_decide (is_Some d)) merge then (_ReserveSpace slotId pItem d cv).2 else cv)
  end.
Definition CanStoreItemInTab (container p : Z) (pItem : Item) (skipSlotId : Z) (merge : bool)
    (w : GuildWorld) : Z * list (Z * Z) → Z * list (Z * Z) :=
  CanStoreItemInTab_loop container p pItem skipSlotId merge w (seqZ 0 GUILD_BANK_MAX_SLOTS).
(** What is searched after the slot that was asked for. *)
Definition CanStore_search (m : MoveItemData) (p : Z) (pItem : Item) (w : GuildWorld)
    (cv : Z * list (Z * Z)) : Z * list (Z * Z) :=
  let tab := CanStoreItemInTab (m_container m) p pItem (m_slotId m) in
  let cv1 := if 1 <? GetMaxStackCount pItem then tab true w cv else cv in
  if (1 <? GetMaxStackCount pItem) && (cv1.1 =? 0) then (EQUIP_ERR_OK, cv1.2) else
  let cv2 := tab false w cv1 in
  (if cv2.1 =? 0 then EQUIP_ERR_OK else EQUIP_ERR_BANK_FULL, cv2.2).
Definition Bank_CanStore (m : MoveItemData) (p : Z) (pItem : Item) (swap : bool) (w : GuildWorld) :
    Z * list (Z * Z) :=
  if IsSoulBound pItem then (EQUIP_ERR_CANT_DROP_SOULBOUND, [])
  else if _GetPurchasedTabsSize (guild w) <=? m_container m then (EQUIP_ERR_ITEM_DOESNT_GO_INTO_BAG, [])
  else if negb (m_slotId m =? NULL_SLOT) then
    let pItemDest := if swap then None else dest_item (m_container m) (m_slotId m) p w in
    let '(ok, cv) := _ReserveSpace (m_slotId m) pItem pItemDest (GetCount pItem, []) in
    if negb ok then (EQUIP_ERR_ITEM_CANT_STACK, [])
    else if cv.1 =? 0 then (EQUIP_ERR_OK, cv.2)
    else CanStore_search m p pItem w cv
  else CanStore_search m p pItem w (GetCount pItem, []).
Definition CanStore (s : side) (p : Z) (swap sendError : bool) : bact bool :=
  b ← get;
  pItem ← item_at p;
  let m := this s b in
  let '(msg, vec) := if IsBank m then Bank_CanStore m p pItem swap (world b)
                     else Player_CanStoreItem player (m_container m) (m_slotId m) p swap in
  on_this s (λ m, m <| m_vec := vec |>) ;;
  when (sendError && negb (msg =? EQUIP_ERR_OK)) (emit (SendEquipError player msg)) ;;
  mret (msg =? EQUIP_ERR_OK).

(** *** Rights *)

Definition HasStoreRights (s : side) (b : BankWorld) : bool :=
  let m := this s b in
  let pOther := this (other s) b in
  if negb (IsBank m) then true
  else if IsBank pOther && (m_container pOther =? m_container m) then true
  else _MemberHasTabRights player (m_container m) GUILD_BANK_RIGHT_DEPOSIT_ITEM (guild (world b)).
Definition HasWithdrawRights (s : side) (b : BankWorld) : bool :=
  let m := this s b in
  let pOther := this (other s) b in
  if negb (IsBank m) then true
  else if IsBank pOther && (m_container pOther =? m_container m) then true
  else negb (match GetMember player (guild (world b)) with
             | Some member => _GetMemberRemainingSlots member (m_container m) (guild (world b))
             | None => 0 end =? 0).

(** *** The steps of a move *)

Definition InitItem (s : side) : bact bool :=
  b ← get;
  let m := this s b in
  let set_item (o : option Z) : bact bool :=
    on_this s (λ m, m <| m_pItem := o |>) ;; mret (bool_decide (is_Some o)) in
  if IsBank m then set_item (_GetItem (m_container m) (m_slotId m) (world b))
  else
    match GetItemByPos player (m_container m) (m_slotId m) with
    | None => set_item None
    | Some g =>
        if IsNotEmptyBag g
        then emit (SendEquipError player EQUIP_ERR_CAN_ONLY_DO_WITH_EMPTY_BAGS) ;; set_item None
        else if negb (CanBeTraded g)
        then emit (SendEquipError player EQUIP_ERR_ITEMS_CANT_BE_SWAPPED) ;; set_item None
        else set_item (Some g)
    end.
Definition RemoveItem (s : side) (splitedAmount : Z) : bact unit :=
  b ← get;
  let m := this s b in
  let pOther := this (other s) b in
  match m_pItem m with
  | None => raise AssertFailed
  | Some g =>
      it ← item_at g;
      if IsBank m then
        (if negb (splitedAmount =? 0)
         then SetCount g (u32 (GetCount it - splitedAmount)) ;; save_item g
         else _RemoveItem (m_container m) (m_slotId m) ;; on_this s (λ m, m <| m_pItem := None |>)) ;;
        when (negb (IsBank pOther) || negb (m_container pOther =? m_container m))
          (in_world (_UpdateMemberWithdrawSlots player (m_container m)))
      else if negb (splitedAmount =? 0)
      then SetCount g (u32 (GetCount it - splitedAmount)) ;; emit (ItemSetChanged g player) ;;
           emit (SaveInventoryAndGoldToDB player)
      else emit (MoveItemFromInventory player (m_container m) (m_slotId m)) ;;
           emit (DeleteFromInventoryDB g) ;; on_this s (λ m, m <| m_pItem := None |>)
  end.
Definition _StoreItem (tabId p : Z) (pos : Z * Z) (clone : bool) : bact (option Z) :=
  b ← get;
  let slotId := u8 pos.1 in
  let count := pos.2 in
  match _GetItem tabId slotId (world b) with
  | Some d =>
      itd ← item_at d;
      SetCount d (u32 (GetCount itd + count)) ;; save_item d ;;
      when (negb clone)
        (emit (ItemRemoveFromWorld p) ;; emit (ItemDeleteFromDB p) ;;
         modify (λ b, b <| world ::= λ w, w <| items ::= delete p |> |>)) ;;
      mret (Some d)
  | None =>
      q ← (if clone then Item_CloneItem p count else SetCount p count ;; mret (Some p));
      match q with
      | None => mret None
      | Some q => ok ← SetItem tabId slotId (Some q); mret (if (ok : bool) then Some q else None)
      end
  end.
Fixpoint StoreItem_loop (tabId p : Z) (vec : list (Z * Z)) : bact unit :=
  match vec with
  | [] => mret tt
  | pos :: vec' =>
      _StoreItem tabId p pos (match vec' with [] => false | _ => true end) ;;
      StoreItem_loop tabId p vec'
  end.
Definition StoreItem (s : side) (p : Z) : bact unit :=
  b ← get;
  let m := this s b in
  if IsBank m then
    match GetBankTab (m_container m) (guild (world b)) with
    | None => mret tt
    | Some _ => StoreItem_loop (m_container m) p (m_vec m)
    end
  else emit (MoveItemToInventory player (m_vec m) p) ;; emit (SaveInventoryAndGoldToDB player).
Definition LogBankEvent (s : side) (count : Z) : bact unit :=
  b ← get;
  let m := this s b in
  let pFrom := this (other s) b in
  match m_pItem pFrom with
  | None => raise AssertFailed
  | Some g =>
      it ← item_at g;
      let low := GUID_LOPART player in
      in_world
        (if negb (IsBank m)
         then _LogBankEvent GUILD_BANK_LOG_WITHDRAW_ITEM (m_container pFrom) low (GetEntry it) (u16 count) 0
         else if IsBank pFrom
         then _LogBankEvent GUILD_BANK_LOG_MOVE_ITEM (m_container pFrom) low (GetEntry it) (u16 count) (m_container m)
         else _LogBankEvent GUILD_BANK_LOG_DEPOSIT_ITEM (m_container m) low (GetEntry it) (u16 count) 0)
  end.

(** *** The moves *)

Definition count_of (g : Z) : bact Z := it ← item_at g; mret (GetCount it).
Definition _DoItemsMove (sendError : bool) (splitedAmount : Z) : bact bool :=
  b ← get;
  let pDestItem := m_pItem (pDest b) in
  let swap := bool_decide (is_Some pDestItem) in
  pSrcItem ← require (GetItem (negb (splitedAmount =? 0)) (pSrc b));
  can ← CanStore DEST pSrcItem swap sendError;
  if negb can then mret false else
  can ← match pDestItem with Some d => CanStore SRC d true true | None => mret true end;
  if negb can then mret false else
  LogAction DEST ;;
  when swap (LogAction SRC) ;;
  srcCount ← count_of pSrcItem;
  LogBankEvent DEST srcCount ;;
  match pDestItem with Some d => n ← count_of d; LogBankEvent SRC n | None => mret tt end ;;
  RemoveItem SRC splitedAmount ;;
  when swap (RemoveItem DEST 0) ;;
  StoreItem DEST pSrcItem ;;
  match pDestItem with Some d => StoreItem SRC d | None => mret tt end ;;
  mret true.
Definition _SendBankContentUpdate_tab (tabId : Z) (slots : gset Z) : gact unit :=
  _SendBankList None tabId false (Some slots).
Definition _SendBankContentUpdate : bact unit :=
  b ← get;
  let src := pSrc b in
  let dest := pDest b in
  if IsBank src then
    if IsBank dest then
      if m_container dest =? m_container src
      then in_world (_SendBankContentUpdate_tab (m_container src) ({[ m_slotId src ]} ∪ CopySlots dest))
      else in_world (_SendBankContentUpdate_tab (m_container dest) (CopySlots dest)) ;;
           in_world (_SendBankContentUpdate_tab (m_container src) {[ m_slotId src ]})
    else in_world (_SendBankContentUpdate_tab (m_container src) {[ m_slotId src ]})
  else if IsBank dest then in_world (_SendBankContentUpdate_tab (m_container dest) (CopySlots dest))
  else raise AssertFailed.
Definition _MoveItems (splitedAmount : Z) : bact unit :=
  have ← InitItem SRC;
  if negb have then mret tt else
  splited ← CheckItem SRC splitedAmount;
  match splited with
  | None => mret tt
  | Some splitedAmount =>
      b ← get;
      if negb (HasStoreRights DEST b) then mret tt else
      if negb (HasWithdrawRights SRC b) then mret tt else
      if negb (splitedAmount =? 0) then
        cloned ← CloneItem SRC splitedAmount;
        if negb cloned then mret tt else
        _DoItemsMove true splitedAmount ;; _SendBankContentUpdate
      else
        moved ← _DoItemsMove false 0;
        if (moved : bool) then _SendBankContentUpdate else
        have ← InitItem DEST;
        if negb have then mret tt else
        b ← get;
        if negb (HasStoreRights SRC b) then mret tt else
        if negb (HasWithdrawRights DEST b) then mret tt else
        _DoItemsMove true 0 ;; _SendBankContentUpdate
  end.
Definition with_ends (src dest : MoveItemData) (op : bact unit) : bact unit :=
  modify (λ b, b <| pSrc := src |> <| pDest := dest |>) ;; op.
Definition SwapItems (tabId slotId destTabId destSlotId splitedAmount : Z) : bact unit :=
  b ← get;
  let tabs := _GetPurchasedTabsSize (guild (world b)) in
  if (tabs <=? tabId) || (GUILD_BANK_MAX_SLOTS <=? slotId) || (tabs <=? destTabId)
     || (GUILD_BANK_MAX_SLOTS <=? destSlotId) then mret tt
  else if (tabId =? destTabId) && (slotId =? destSlotId) then mret tt
  else with_ends (new_BankMoveItemData tabId slotId) (new_BankMoveItemData destTabId destSlotId)
         (_MoveItems splitedAmount).
Definition SwapItemsWithInventory (toChar : bool) (tabId slotId playerBag playerSlotId splitedAmount : Z) :
    bact unit :=
  b ← get;
  if ((GUILD_BANK_MAX_SLOTS <=? slotId) && negb (slotId =? NULL_SLOT))
     || (_GetPurchasedTabsSize (guild (world b)) <=? tabId) then mret tt
  else
    let bankData := new_BankMoveItemData tabId slotId in
    let charData := new_PlayerMoveItemData playerBag playerSlotId in
    if toChar then with_ends bankData charData (_MoveItems splitedAmount)
    else with_ends charData bankData (_MoveItems splitedAmount).
End BankOps.

(** ** Slots and sums

    The slots of the tabs, and sums over the items in them. *)

Notation tabs := (list BankTab.t).
Definition slot (l : tabs) (t : nat) (s : Z) : option Z := l !! t ≫= λ tab, BankTab.m_items tab !! s.
Definition put (t : nat) (s : Z) (o : option Z) (l : tabs) : tabs :=
  match l !! t with
  | Some tab => <[t := tab <| BankTab.m_items ::= partial_alter (λ _, o) s |>]> l
  | None => l
  end.
Definition of_slot (f : Z → Z) (o : option Z) : Z := match o with Some g => f g | None => 0 end.
Definition sum_map (f : Z → Z) (m : gmap Z Z) : Z := map_fold (λ _ g acc, f g + acc) 0 m.
Definition sum_tabs (f : Z → Z) (l : tabs) : Z :=
  foldr (λ tab acc, sum_map f (BankTab.m_items tab) + acc) 0 l.

Section Sums.
Implicit Types (f : Z → Z) (l : tabs).

Lemma slot_put l t s o t' s' :
  is_Some (l !! t) →
  slot (put t s o l) t' s' = if decide (t = t' ∧ s = s') then o else slot l t' s'.
Proof.
  intros [tab Ht]. unfold slot, put. rewrite Ht. destruct (decide (t = t')) as [<-|Hne].
  - rewrite list_lookup_insert_eq by (by eapply lookup_lt_Some). cbn. rewrite Ht. cbn.
    destruct (decide (s = s')) as [<-|Hs].
    + rewrite lookup_partial_alter_eq. by rewrite decide_True.
    + rewrite lookup_partial_alter_ne by done. rewrite decide_False by naive_solver. done.
  - rewrite list_lookup_insert_ne by done. by rewrite decide_False by naive_solver.
Qed.

Lemma put_tabs l t s o t' : is_Some (put t s o l !! t') ↔ is_Some (l !! t').
Proof.
  unfold put. destruct (l !! t) as [tab|] eqn:Ht; [|done]. destruct (decide (t = t')) as [<-|].
  - rewrite list_lookup_insert_eq by (by eapply lookup_lt_Some). rewrite Ht. by split; eauto.
  - by rewrite list_lookup_insert_ne.
Qed.

Lemma sum_map_insert f m k g : m !! k = None → sum_map f (<[k := g]> m) = f g + sum_map f m.
Proof. intros Hk. unfold sum_map. rewrite map_fold_insert_L; [done| |done]. intros. lia. Qed.
Lemma sum_map_delete f m k : sum_map f m = of_slot f (m !! k) + sum_map f (delete k m).
Proof.
  destruct (m !! k) as [g|] eqn:Hk; cbn [of_slot].
  - rewrite <- (sum_map_insert f (delete k m) k g) by apply lookup_delete_eq. by rewrite insert_delete_id.
  - by rewrite delete_id.
Qed.
Lemma sum_map_put f m k o : sum_map f (partial_alter (λ _, o) k m) = sum_map f m - of_slot f (m !! k) + of_slot f o.
Proof.
  rewrite (sum_map_delete f m k). destruct o as [g|]; cbn [of_slot].
  - change (partial_alter (λ _, Some g) k m) with (<[k := g]> m).
    rewrite <- (insert_delete_eq m k g), (sum_map_insert f (delete k m) k g (lookup_delete_eq _ _)). lia.
  - change (partial_alter (λ _, None) k m) with (delete k m). lia.
Qed.

Lemma sum_put f l t s o :
  is_Some (l !! t) → sum_tabs f (put t s o l) = sum_tabs f l - of_slot f (slot l t s) + of_slot f o.
Proof.
  intros [tab Ht]. unfold put, slot. rewrite Ht. cbn.
  revert t Ht. induction l as [|x l IH]; intros [|t] Ht; cbn in *; [done..| |].
  - injection Ht as ->. rewrite sum_map_put. lia.
  - etrans; [exact (f_equal (Z.add (sum_map f (BankTab.m_items x))) (IH t Ht))|]. unfold sum_tabs. cbn. lia.
Qed.

Lemma sum_map_linear f g c m : sum_map (λ x, f x + c * g x) m = sum_map f m + c * sum_map g m.
Proof.
  induction m as [|k x m Hk IH] using map_ind; [unfold sum_map; rewrite !map_fold_empty; lia|].
  rewrite !sum_map_insert by done. lia.
Qed.
Lemma sum_tabs_cons f tab l : sum_tabs f (tab :: l) = sum_map f (BankTab.m_items tab) + sum_tabs f l.
Proof. done. Qed.
Lemma sum_tabs_linear f g c l : sum_tabs (λ x, f x + c * g x) l = sum_tabs f l + c * sum_tabs g l.
Proof. induction l as [|x l IH]; [cbn; lia|]. rewrite !sum_tabs_cons, sum_map_linear, IH. lia. Qed.

Lemma sum_map_ext f g m : (∀ k x, m !! k = Some x → f x = g x) → sum_map f m = sum_map g m.
Proof.
  induction m as [|k x m Hk IH] using map_ind; intros Hf; [done|].
  rewrite !sum_map_insert by done. rewrite IH.
  - by rewrite (Hf k x (lookup_insert_eq _ _ _)).
  - intros k' x' Hx. apply (Hf k'). rewrite lookup_insert_ne; [done|]. intros ->. by rewrite Hk in Hx.
Qed.
Lemma sum_tabs_ext f g l : (∀ t s x, slot l t s = Some x → f x = g x) → sum_tabs f l = sum_tabs g l.
Proof.
  intros Hf. induction l as [|tab l IH]; [done|]. rewrite !sum_tabs_cons, (sum_map_ext f g).
  - rewrite IH; [done|]. intros t s x Hx. apply (Hf (S t) s x Hx).
  - intros k x Hx. by apply (Hf 0%nat k x).
Qed.
Lemma sum_tabs_nonneg f l : (∀ x, 0 <= f x) → 0 <= sum_tabs f l.
Proof.
  intros Hf. induction l as [|tab l IH]; [cbn; lia|]. rewrite sum_tabs_cons. assert (0 <= sum_map f (BankTab.m_items tab)); [|lia].
  generalize (BankTab.m_items tab) as m. intros m. induction m as [|k x m Hk IHm] using map_ind; [done|].
  rewrite sum_map_insert by done. specialize (Hf x). lia.
Qed.

(** How often a pointer is in the bank. *)
Definition occ (g : Z) (l : tabs) : Z := sum_tabs (λ x, if x =? g then 1 else 0) l.

Lemma occ_nonneg g l : 0 <= occ g l.
Proof. apply sum_tabs_nonneg. intros x. by destruct (x =? g). Qed.
Lemma occ_slot g l t s : slot l t s = Some g → 1 <= occ g l.
Proof.
  intros Hs. assert (is_Some (l !! t)) as Ht by (unfold slot in Hs; destruct (l !! t); [by eexists|done]).
  pose proof (sum_put (λ x, if x =? g then 1 else 0) l t s None Ht) as Hp. rewrite Hs in Hp. cbn in Hp.
  rewrite Z.eqb_refl in Hp. pose proof (occ_nonneg g (put t s None l)) as Hn. unfold occ in *. lia.
Qed.
Lemma occ_zero g l : occ g l = 0 → ∀ t s, slot l t s ≠ Some g.
Proof. intros Ho t s Hs. apply occ_slot in Hs. lia. Qed.
Lemma sum_tabs_zero l : sum_tabs (λ _, 0) l = 0.
Proof.
  induction l as [|tab l IH]; [done|]. rewrite sum_tabs_cons, IH.
  assert (sum_map (λ _, 0) (BankTab.m_items tab) = 0); [|lia].
  generalize (BankTab.m_items tab) as m. intros m. induction m as [|k x m Hk IHm] using map_ind; [done|].
  by rewrite sum_map_insert, IHm.
Qed.
Lemma occ_not_in g l : (∀ t s, slot l t s ≠ Some g) → occ g l = 0.
Proof.
  intros Hn. unfold occ. rewrite (sum_tabs_ext _ (λ _, 0)); [apply sum_tabs_zero|].
  intros t s x Hx. destruct (Z.eqb_spec x g) as [->|]; [by destruct (Hn t s)|done].
Qed.
Lemma occ_two g l t s t' s' :
  slot l t s = Some g → slot l t' s' = Some g → occ g l <= 1 → t = t' ∧ s = s'.
Proof.
  intros Hs Hs' Ho. destruct (decide (t = t' ∧ s = s')) as [|Hne]; [done|].
  assert (is_Some (l !! t)) as Ht by (unfold slot in Hs; destruct (l !! t); [by eexists|done]).
  pose proof (sum_put (λ x, if x =? g then 1 else 0) l t s None Ht) as Hp. rewrite Hs in Hp. cbn in Hp.
  rewrite Z.eqb_refl in Hp. assert (slot (put t s None l) t' s' = Some g) as Hk
    by (rewrite slot_put by done; by rewrite decide_False).
  apply occ_slot in Hk. unfold occ in *. lia.
Qed.
End Sums.

(** ** The bank's books *)

(** The rows of [guild_bank_item] for the guild, by tab and slot, and the rows
    of [item_instance]. *)
Definition bank_db : Type := gmap (Z * Z) Z * gmap Z Item.
Definition exec_bank (e : guild_event) (db : bank_db) : bank_db :=
  match e with
  | CHAR_DEL_GUILD_BANK_ITEM _ tabId slotId => (delete (tabId, slotId) db.1, db.2)
  | CHAR_INS_GUILD_BANK_ITEM _ tabId slotId g =>
      match db.1 !! (tabId, slotId) with None => (<[(tabId, slotId) := g]> db.1, db.2) | Some _ => db end
  | CHAR_DEL_GUILD_BANK_ITEMS _ => (∅, db.2)
  | ItemSaveToDB g it => (db.1, <[g := it]> db.2)
  | ItemDeleteFromDB g => (db.1, delete g db.2)
  | _ => db
  end.
Definition exec_books (t : list guild_event) (db : bank_db) : bank_db := foldl (λ d e, exec_bank e d) db t.

Definition bank_tabs (b : BankWorld) : tabs := m_bankTabs (guild (world b)).
Definition counted (its : gmap Z Item) (e g : Z) : Z :=
  match its !! g with Some it => if GetEntry it =? e then GetCount it else 0 | None => 0 end.
(** How many items of entry [e] the bank holds. *)
Definition total (e : Z) (b : BankWorld) : Z := sum_tabs (counted (items (world b)) e) (bank_tabs b).

Definition item_ok `{BankEnv} (it : Item) : Prop :=
  0 <= GetCount it <= GetMaxStackCount it ∧
  ∃ charges, GetItemTemplate (GetEntry it) = Some (Stackable it, charges).
(** Every slot that is not empty holds an item, in one slot only, whose stack is
    within its size; new item guids are not in use. *)
Record bank_inv `{BankEnv} (b : BankWorld) : Prop := {
  bk_slots : ∀ t s g, slot (bank_tabs b) t s = Some g →
    0 <= s < GUILD_BANK_MAX_SLOTS ∧ ∃ it, items (world b) !! g = Some it ∧ item_ok it;
  bk_once : ∀ g, occ g (bank_tabs b) <= 1;
  bk_fresh : ∀ g, is_Some (items (world b) !! g) → g < _hiItemGuid b }.
Record synced (db : bank_db) (b : BankWorld) : Prop := {
  sy_slots : ∀ t s, (t < length (bank_tabs b))%nat → db.1 !! (Z.of_nat t, s) = slot (bank_tabs b) t s;
  sy_items : ∀ t s g, slot (bank_tabs b) t s = Some g → db.2 !! g = items (world b) !! g }.
Record Bank `{BankEnv} (sh : shape) (db : bank_db) (T : Z → Z) (b : BankWorld) : Prop := {
  ba_guild : inv_at sh (world b);
  ba_inv : bank_inv b;
  ba_sync : synced db b;
  ba_total : ∀ e, total e b = T e }.

(** What is written for an item of the bank, in state terms. *)
Definition put_b (t : nat) (s : Z) (o : option Z) (b : BankWorld) : BankWorld :=
  b <| world ::= λ w, w <| guild ::= λ g, g <| m_bankTabs ::= put t s o |> |> |>.
Definition items_b (f : gmap Z Item → gmap Z Item) (b : BankWorld) : BankWorld :=
  b <| world ::= λ w, w <| items ::= f |> |>.
Definition quiet (t : list guild_event) : Prop := ∀ db, exec_books t db = db.

Section Books.
Context `{BankEnv}.

Lemma exec_books_app t1 t2 db : exec_books (t1 ++ t2) db = exec_books t2 (exec_books t1 db).
Proof. apply foldl_app. Qed.
Lemma quiet_app t1 t2 : quiet t1 → quiet t2 → quiet (t1 ++ t2).
Proof. intros H1 H2 db. by rewrite exec_books_app, H1, H2. Qed.
Lemma quiet_nil : quiet [].
Proof. done. Qed.

Lemma inv_put sh t s o b : inv_at sh (world b) → inv_at sh (world (put_b t s o b)).
Proof.
  intros [Hw Hs]. destruct (gi_tabs _ Hw) as [Hlen Ht].
  assert (length (put t s o (bank_tabs b)) = length (bank_tabs b)) as Hl.
  { unfold put. destruct (_ !! t); [apply length_insert|done]. }
  assert (tabs_ok (put t s o (bank_tabs b))) as Hok.
  { split; [by rewrite Hl|]. unfold put. intros j x Hj. destruct (bank_tabs b !! t) as [tab|] eqn:Et; [|by apply Ht].
    apply list_lookup_insert_Some in Hj as [(<- & <- & _)|[_ Hj]]; [|by apply Ht]. cbn. by apply Ht. }
  destruct Hw. split; [by split|]. rewrite <- Hs. unfold shape_of. cbn. f_equal. exact Hl.
Qed.

Lemma inv_items sh f b : inv_at sh (world b) → inv_at sh (world (items_b f b)).
Proof.
  intros [Hw Hs]. destruct b as [[g ps its] hi ms md]. split; [|exact Hs].
  exact (inv_core g g ps its (f its) eq_refl Hw).
Qed.

Lemma slot_tab l t s g : slot l t s = Some g → is_Some (l !! t).
Proof. unfold slot. destruct (l !! t); [by eexists|done]. Qed.

Lemma occ_put g l t s o :
  is_Some (l !! t) →
  occ g (put t s o l) = occ g l - of_slot (λ x, if x =? g then 1 else 0) (slot l t s)
                        + of_slot (λ x, if x =? g then 1 else 0) o.
Proof. apply sum_put. Qed.

Lemma held_once b t s g :
  bank_inv b → slot (bank_tabs b) t s = Some g → occ g (bank_tabs b) = 1.
Proof. intros Hb Hs. pose proof (occ_slot _ _ _ _ Hs). pose proof (bk_once _ Hb g). lia. Qed.

(** An item is taken out of its slot. *)
Lemma Bank_remove sh db T b t s g it gid :
  Bank sh db T b → slot (bank_tabs b) t s = Some g → items (world b) !! g = Some it →
  let b' := put_b t s None b in
  Bank sh (exec_books [CHAR_DEL_GUILD_BANK_ITEM gid (Z.of_nat t) s] db)
    (λ e, T e - if GetEntry it =? e then GetCount it else 0) b' ∧
  occ g (bank_tabs b') = 0.
Proof.
  intros [Hi Hb Hs HT] Hsl Hit b'. pose proof (slot_tab _ _ _ _ Hsl) as Htab.
  assert (bank_tabs b' = put t s None (bank_tabs b)) as Et by done.
  assert (∀ t' s', slot (bank_tabs b') t' s' = if decide (t = t' ∧ s = s') then None else slot (bank_tabs b) t' s')
    as Hsl' by (intros; rewrite Et; by apply slot_put).
  split.
  - split.
    + by apply inv_put.
    + destruct Hb as [H1 H2 H3]. split.
      * intros t' s' g'. rewrite Hsl'. case_decide; [done|]. apply H1.
      * intros g'. rewrite Et, occ_put by done. rewrite Hsl. cbn. specialize (H2 g'). destruct (g =? g'); lia.
      * exact H3.
    + destruct Hs as [H1 H2]. split.
      * intros t' s' Ht'. rewrite Hsl'. cbn. case_decide as Hd.
        -- destruct Hd as [<- <-]. apply lookup_delete_eq.
        -- rewrite lookup_delete_ne by (intros [= E1 E2]; apply Hd; split; [by apply Nat2Z.inj|done]).
           apply H1. unfold lt in *. rewrite Et in Ht'. by apply lookup_lt_is_Some, put_tabs, lookup_lt_is_Some in Ht'.
      * intros t' s' g'. rewrite Hsl'. case_decide; [done|]. apply H2.
    + intros e. rewrite <- HT. unfold total. rewrite Et, sum_put, Hsl by done. cbn. unfold counted at 2. rewrite Hit. lia.
  - rewrite Et, occ_put, Hsl by done. cbn. rewrite Z.eqb_refl, (held_once b t s g) by done. lia.
Qed.

(** An item in hand is put into an empty slot, and saved. *)
Lemma Bank_store sh db T b t s g it gid gid' :
  Bank sh db T b → (t < length (bank_tabs b))%nat → 0 <= s < GUILD_BANK_MAX_SLOTS →
  slot (bank_tabs b) t s = None → items (world b) !! g = Some it → item_ok it → occ g (bank_tabs b) = 0 →
  Bank sh (exec_books [CHAR_DEL_GUILD_BANK_ITEM gid (Z.of_nat t) s; CHAR_INS_GUILD_BANK_ITEM gid' (Z.of_nat t) s g;
                       ItemSaveToDB g it] db)
    (λ e, T e + if GetEntry it =? e then GetCount it else 0) (put_b t s (Some g) b).
Proof.
  intros [Hi Hb Hs HT] Ht Hsr Hsl Hit Hok Hocc. apply lookup_lt_is_Some in Ht as Htab.
  set (b' := put_b t s (Some g) b). assert (bank_tabs b' = put t s (Some g) (bank_tabs b)) as Et by done.
  assert (∀ t' s', slot (bank_tabs b') t' s' = if decide (t = t' ∧ s = s') then Some g else slot (bank_tabs b) t' s')
    as Hsl' by (intros; rewrite Et; by apply slot_put).
  split.
  - by apply inv_put.
  - destruct Hb as [H1 H2 H3]. split.
    + intros t' s' g'. rewrite Hsl'. case_decide as Hd; [|apply H1]. destruct Hd as [<- <-]. intros [= <-]. eauto.
    + intros g'. rewrite Et, occ_put, Hsl by done. cbn. destruct (Z.eqb_spec g g') as [<-|]; [lia|].
      specialize (H2 g'). lia.
    + exact H3.
  - destruct Hs as [H1 H2]. unfold exec_books. cbn [foldl exec_bank fst snd]. rewrite lookup_delete_eq. split; cbn [fst snd].
    + intros t' s' Ht'. rewrite Hsl'. case_decide as Hd.
      * destruct Hd as [<- <-]. apply lookup_insert_eq.
      * assert ((Z.of_nat t, s) ≠ (Z.of_nat t', s')) as Hne
          by (intros [= E1 E2]; apply Hd; split; [by apply Nat2Z.inj|done]).
        rewrite lookup_insert_ne, lookup_delete_ne by done.
        apply H1. rewrite Et in Ht'. by apply lookup_lt_is_Some, put_tabs, lookup_lt_is_Some in Ht'.
    + intros t' s' g'. rewrite Hsl'. change (items (world b')) with (items (world b)). case_decide.
      * intros [= <-]. by rewrite lookup_insert_eq, Hit.
      * intros Hg'. rewrite lookup_insert_ne; [by apply (H2 t' s')|]. intros ->.
        by apply (occ_zero _ _ Hocc) in Hg'.
  - intros e. rewrite <- HT. unfold total. rewrite Et, sum_put, Hsl by done. cbn. unfold counted at 2. rewrite Hit. lia.
Qed.

(** An item in a slot gets another count, and is saved. *)
Lemma Bank_recount sh db T b t s g it c :
  Bank sh db T b → slot (bank_tabs b) t s = Some g → items (world b) !! g = Some it →
  0 <= c <= GetMaxStackCount it →
  Bank sh (exec_books [ItemSaveToDB g (it <| GetCount := c |>)] db)
    (λ e, T e + if GetEntry it =? e then c - GetCount it else 0)
    (items_b (alter (λ it, it <| GetCount := c |>) g) b).
Proof.
  intros [Hi Hb Hs HT] Hsl Hit Hc. set (its := alter (λ it0 : Item, it0 <| GetCount := c |>) g (items (world b))).
  assert (its !! g = Some (it <| GetCount := c |>)) as Hg by (subst its; by rewrite lookup_alter_eq, Hit).
  assert (∀ g', g' ≠ g → its !! g' = items (world b) !! g') as Hne
    by (intros g' Hg'; subst its; by rewrite lookup_alter_ne).
  pose proof (held_once b t s g Hb Hsl) as Ho. split.
  - by apply inv_items.
  - destruct Hb as [H1 H2 H3]. split; [|exact H2|].
    + intros t' s' g' Hsl'. destruct (H1 t' s' g' Hsl') as (? & it' & Hit' & Hok). split; [done|].
      change (items (world _)) with its. destruct (decide (g' = g)) as [->|Hd].
      * rewrite Hg. eexists. split; [done|]. rewrite Hit in Hit'. injection Hit' as <-. destruct Hok as [_ Hok]. by split.
      * rewrite Hne by done. eauto.
    + intros g' Hg'. apply H3. change (items (world _)) with its in Hg'. destruct (decide (g' = g)) as [->|Hd]; [by eexists|].
      by rewrite Hne in Hg'.
  - destruct Hs as [H1 H2]. split; [exact H1|]. intros t' s' g' Hsl'. change (items (world _)) with its. cbn [fst snd exec_books foldl exec_bank].
    destruct (decide (g' = g)) as [->|Hd]; [by rewrite lookup_insert_eq, Hg|].
    rewrite lookup_insert_ne, Hne by done. by apply (H2 t' s').
  - intros e. rewrite <- HT. unfold total. change (items (world _)) with its at 1.
    change (bank_tabs (items_b _ b)) with (bank_tabs b).
    rewrite (sum_tabs_ext _ (λ x, counted (items (world b)) e x
      + (if GetEntry it =? e then c - GetCount it else 0) * (if x =? g then 1 else 0))).
    + rewrite sum_tabs_linear. fold (occ g (bank_tabs b)). rewrite Ho. lia.
    + intros t' s' x _. unfold counted. destruct (Z.eqb_spec x g) as [->|Hd].
      * rewrite Hg, Hit. cbn. destruct (GetEntry it =? e); lia.
      * rewrite Hne by done. destruct (items (world b) !! x) as [ix|]; [|lia]. destruct (GetEntry ix =? e); lia.
Qed.

(** Nothing in the slots changes. *)
Lemma Bank_aside sh db T b b' :
  Bank sh db T b → inv_at sh (world b') → bank_tabs b' = bank_tabs b →
  (∀ t s g, slot (bank_tabs b) t s = Some g → items (world b') !! g = items (world b) !! g) →
  (∀ g, is_Some (items (world b') !! g) → g < _hiItemGuid b') → Bank sh db T b'.
Proof.
  intros [Hi Hb Hs HT] Hi' Et Hits Hfr. split; [done| | |].
  - destruct Hb as [H1 H2 H3]. split; rewrite ?Et; [|exact H2|exact Hfr].
    intros t s g Hsl. destruct (H1 t s g Hsl) as (? & it & Hit & Hok). split; [done|]. rewrite (Hits t s) by done. eauto.
  - destruct Hs as [H1 H2]. split; rewrite ?Et; [exact H1|]. intros t s g Hsl. rewrite (Hits t s) by done. by apply (H2 t s).
  - intros e. rewrite <- HT. unfold total. rewrite Et. apply sum_tabs_ext. intros t s x Hsl. unfold counted.
    by rewrite (Hits t s).
Qed.

Lemma Bank_quiet sh db T t b : quiet t → Bank sh db T b → Bank sh (exec_books t db) T b.
Proof. intros Ht Hb. by rewrite Ht. Qed.
Lemma Bank_total sh db T T' b : (∀ e, T e = T' e) → Bank sh db T b → Bank sh db T' b.
Proof. intros HT [? ? ? H4]. split; [done..|]. intros e. by rewrite H4. Qed.
End Books.

(** ** The steps of a move keep the books *)

Section Run.
Context `{BankEnv}.

Lemma put_b_eq t s o b tab :
  bank_tabs b !! t = Some tab →
  b <| world ::= λ w, w <| guild ::= λ g, g <| m_bankTabs ::=
    <[t := tab <| BankTab.m_items ::= partial_alter (λ _, o) s |>]> |> |> |> = put_b t s o b.
Proof. intros Ht. unfold put_b, put, bank_tabs in *. cbn. by rewrite Ht. Qed.

Lemma SetItem_run_None b t s tab :
  bank_tabs b !! t = Some tab → s < GUILD_BANK_MAX_SLOTS →
  SetItem (Z.of_nat t) s None b =
    Done true (put_b t s None b) [CHAR_DEL_GUILD_BANK_ITEM (BankTab.m_guildId tab) (BankTab.m_tabId tab) s].
Proof.
  intros Ht Hs. unfold SetItem. rewrite (proj2 (Z.leb_gt _ _)) by done. rewrite Nat2Z.id.
  unfold mbind, act_bind, get. fold (bank_tabs b). rewrite Ht. cbn [require mret act_ret modify emit prepend app].
  by rewrite (put_b_eq t s None b tab).
Qed.
Lemma SetItem_run_Some b t s tab g it :
  bank_tabs b !! t = Some tab → s < GUILD_BANK_MAX_SLOTS → items (world b) !! g = Some it →
  SetItem (Z.of_nat t) s (Some g) b =
    Done true (put_b t s (Some g) b) [CHAR_DEL_GUILD_BANK_ITEM (BankTab.m_guildId tab) (BankTab.m_tabId tab) s;
      CHAR_INS_GUILD_BANK_ITEM (BankTab.m_guildId tab) (BankTab.m_tabId tab) s g; ItemSaveToDB g it].
Proof.
  intros Ht Hs Hit. unfold SetItem. rewrite (proj2 (Z.leb_gt _ _)) by done. rewrite Nat2Z.id.
  unfold mbind, act_bind, get. fold (bank_tabs b). rewrite Ht. cbn [require mret act_ret modify emit prepend app].
  rewrite (put_b_eq t s (Some g) b tab) by done.
  unfold save_item, item_at, mbind, act_bind, get. change (items (world (put_b _ _ _ b))) with (items (world b)).
  rewrite Hit. done.
Qed.

Lemma tab_at sh b t tab : inv_at sh (world b) → bank_tabs b !! t = Some tab → BankTab.m_tabId tab = Z.of_nat t.
Proof. intros [Hw _] Ht. destruct (gi_tabs _ Hw) as [_ Hx]. by apply Hx. Qed.

Lemma wp_SetItem_None sh db T b t s g it (Q : bool → BankWorld → list guild_event → Prop) :
  Bank sh db T b → slot (bank_tabs b) t s = Some g → items (world b) !! g = Some it →
  (∀ tr, let b' := put_b t s None b in
     Bank sh (exec_books tr db) (λ e, T e - if GetEntry it =? e then GetCount it else 0) b' →
     occ g (bank_tabs b') = 0 → Q true b' tr) →
  wp (SetItem (Z.of_nat t) s None) Q b.
Proof.
  intros Hb Hsl Hit HQ. destruct (slot_tab _ _ _ _ Hsl) as [tab Htab].
  destruct (bk_slots _ (ba_inv _ _ _ _ Hb) t s g Hsl) as [Hs _].
  unfold wp. rewrite (SetItem_run_None b t s tab) by (done || lia). rewrite (tab_at sh b t tab (ba_guild _ _ _ _ Hb) Htab).
  destruct (Bank_remove sh db T b t s g it (BankTab.m_guildId tab) Hb Hsl Hit) as [HB Hocc]. by apply HQ.
Qed.

Lemma wp_SetItem_Some sh db T b t s g it (Q : bool → BankWorld → list guild_event → Prop) :
  Bank sh db T b → (t < length (bank_tabs b))%nat → 0 <= s < GUILD_BANK_MAX_SLOTS →
  slot (bank_tabs b) t s = None → items (world b) !! g = Some it → item_ok it → occ g (bank_tabs b) = 0 →
  (∀ tr, Bank sh (exec_books tr db) (λ e, T e + if GetEntry it =? e then GetCount it else 0) (put_b t s (Some g) b) →
     Q true (put_b t s (Some g) b) tr) →
  wp (SetItem (Z.of_nat t) s (Some g)) Q b.
Proof.
  intros Hb Ht Hs Hsl Hit Hok Hocc HQ. destruct (lookup_lt_is_Some_2 _ _ Ht) as [tab Htab].
  unfold wp. rewrite (SetItem_run_Some b t s tab g it) by (done || lia).
  rewrite (tab_at sh b t tab (ba_guild _ _ _ _ Hb) Htab).
  apply HQ. by apply Bank_store.
Qed.

Lemma wp_bind_item {A} g it (k : Item → bact A) Q b :
  items (world b) !! g = Some it → wp (k it) Q b → wp (item_at g ≫= k) Q b.
Proof.
  intros Hit Hk. apply wp_bind. unfold item_at. apply wp_bind_get. rewrite Hit. by apply wp_ret.
Qed.

(** [SetCount] and the save, for an item in a slot. *)
Lemma wp_recount {A} sh db T b t s g it c (k : unit → bact A) (Q : A → BankWorld → list guild_event → Prop) :
  Bank sh db T b → slot (bank_tabs b) t s = Some g → items (world b) !! g = Some it →
  0 <= c <= GetMaxStackCount it →
  (∀ tr, let b' := items_b (alter (λ it, it <| GetCount := c |>) g) b in
     Bank sh (exec_books tr db) (λ e, T e + if GetEntry it =? e then c - GetCount it else 0) b' →
     wp (k tt) (λ a b2 t2, Q a b2 (tr ++ t2)) b') →
  wp (SetCount g c ;; save_item g ≫= k) Q b.
Proof.
  intros Hb Hsl Hit Hc HQ. unfold SetCount, on_item. apply wp_bind_modify. set (b' := b <| world ::= _ |>).
  apply wp_bind. unfold wp at 1, save_item, item_at, mbind, act_bind, get.
  assert (items (world b') !! g = Some (it <| GetCount := c |>)) as Hg by (subst b'; cbn; by rewrite lookup_alter_eq, Hit).
  rewrite Hg. cbn [require mret act_ret emit prepend app]. apply (HQ [ItemSaveToDB g (it <| GetCount := c |>)]). by apply (Bank_recount sh db T b t s).
Qed.

Lemma wp_set_and_save sh db T b t s g it c (Q : unit → BankWorld → list guild_event → Prop) :
  Bank sh db T b → slot (bank_tabs b) t s = Some g → items (world b) !! g = Some it →
  0 <= c <= GetMaxStackCount it →
  (∀ tr, let b' := items_b (alter (λ it, it <| GetCount := c |>) g) b in
     Bank sh (exec_books tr db) (λ e, T e + if GetEntry it =? e then c - GetCount it else 0) b' → Q tt b' tr) →
  wp (SetCount g c ;; save_item g) Q b.
Proof.
  intros Hb Hsl Hit Hc HQ. pose proof (wp_recount sh db T b t s g it c (λ _, mret tt) Q Hb Hsl Hit Hc) as Hr.
  assert (wp (SetCount g c ;; save_item g ≫= λ _ : (), mret ()) Q b) as Hw.
  { apply Hr. intros tr b' HB. apply wp_ret. rewrite app_nil_r. by apply HQ. }
  revert Hw. unfold wp, SetCount, on_item, mbind, act_bind, modify. destruct (save_item g _) as [[] b2 t2|]; [|done].
  cbn. by rewrite app_nil_r.
Qed.

(** A clone: a new item that no slot holds. *)
Definition cloned_item (it : Item) (count charges : Z) : Item :=
  mkItem (GetEntry it) count (Stackable it) (IsSoulBound it) 0 0 charges (replicate 12 0).
Definition clone_b (it : Item) (count charges : Z) (b : BankWorld) : BankWorld :=
  items_b <[_hiItemGuid b := cloned_item it count charges]> (b <| _hiItemGuid := _hiItemGuid b + 1 |>).

Lemma wp_Item_CloneItem sh db T b g it count (Q : option Z → BankWorld → list guild_event → Prop) :
  Bank sh db T b → items (world b) !! g = Some it → item_ok it → count <= GetMaxStackCount it →
  _hiItemGuid b < 0xFFFFFFFE →
  (count < 1 → Q None b []) →
  (∀ charges, let b' := clone_b it count charges b in let n := _hiItemGuid b in
     0 < count → Bank sh db T b' → items (world b') !! n = Some (cloned_item it count charges) →
     item_ok (cloned_item it count charges) → occ n (bank_tabs b') = 0 → Q (Some n) b' []) →
  wp (Item_CloneItem g count) Q b.
Proof.
  intros Hb Hit Hok Hc Hhi HQ0 HQ. unfold Item_CloneItem. eapply wp_bind_item; [done|].
  destruct (Z.ltb_spec count 1) as [Hlt|Hge]; [by apply wp_ret, HQ0|].
  destruct Hok as [Hcnt [charges Hp]] eqn:Eok. rewrite Hp. change (GetMaxStackSize (Stackable it)) with (GetMaxStackCount it).
  destruct (Z.ltb_spec (GetMaxStackCount it) count); [lia|]. cbv zeta. destruct (Z.eqb_spec count 0); [lia|].
  apply wp_bind. unfold GenerateLowGuid. apply wp_bind_get.
  rewrite (proj2 (Z.ltb_lt _ _)) by done. apply wp_bind_modify, wp_ret.
  apply wp_bind_modify, wp_ret. change (Q (Some (_hiItemGuid b)) (clone_b it count charges b) []).
  assert (∀ t s x, slot (bank_tabs b) t s = Some x → x ≠ _hiItemGuid b) as Hne.
  { intros t s x Hsl ->. destruct (bk_slots _ (ba_inv _ _ _ _ Hb) t s _ Hsl) as (_ & ix & Hix & _).
    pose proof (bk_fresh _ (ba_inv _ _ _ _ Hb) _ (mk_is_Some _ _ Hix)). lia. }
  apply HQ; [lia| | | |].
  - apply (Bank_aside sh db T b); [done| |done| |].
    + exact (inv_items sh _ _ (ba_guild _ _ _ _ Hb)).
    + intros t s x Hsl. cbn. rewrite lookup_insert_ne; [done|]. symmetry. by apply (Hne t s).
    + intros x. cbn. rewrite lookup_insert_is_Some'. intros [<-|Hx]; [lia|].
      pose proof (bk_fresh _ (ba_inv _ _ _ _ Hb) _ Hx). lia.
  - cbn. apply lookup_insert_eq.
  - split; [cbn; unfold GetMaxStackCount in *; cbn; lia|]. eexists. exact Hp.
  - apply occ_not_in. intros t s Hsl. by apply (Hne t s _ Hsl).
Qed.

Lemma GetMaxStackCount_range it : 0 <= GetMaxStackCount it < 2 ^ 32.
Proof.
  unfold GetMaxStackCount, GetMaxStackSize. destruct (_ || _); [lia|]. apply wrapu_range. lia.
Qed.
Lemma same_stack it it' : item_ok it → item_ok it' → GetEntry it = GetEntry it' → GetMaxStackCount it = GetMaxStackCount it'.
Proof. intros [_ [c E]] [_ [c' E']] Hen. unfold GetMaxStackCount. rewrite Hen, E' in E. by injection E as ->. Qed.

(** An item that exists but is in no slot. *)
Record in_hand (p : Z) (it : Item) (b : BankWorld) : Prop := {
  ih_item : items (world b) !! p = Some it;
  ih_ok : item_ok it;
  ih_occ : occ p (bank_tabs b) = 0 }.
(** [n] items like [it] fit where [o] is. *)
Definition fits (it : Item) (n : Z) (o : option Z) (b : BankWorld) : Prop :=
  0 <= n ∧
  match o with
  | None => n <= GetMaxStackCount it
  | Some d => ∃ itd, items (world b) !! d = Some itd ∧ GetEntry itd = GetEntry it ∧
      GetCount itd + n <= GetMaxStackCount it
  end.
(** What storing item [p] in the slots [S] of tab [t] leaves alone. *)
Record framed (p : Z) (t : nat) (S : list Z) (n : Z) (b b' : BankWorld) : Prop := {
  fr_hand : ∀ q itq, q ≠ p → in_hand q itq b → in_hand q itq b';
  fr_slot : ∀ t' s', t' ≠ t ∨ s' ∉ S → slot (bank_tabs b') t' s' = slot (bank_tabs b) t' s';
  fr_item : ∀ t' s' g, t' ≠ t ∨ s' ∉ S → slot (bank_tabs b) t' s' = Some g →
    items (world b') !! g = items (world b) !! g;
  fr_guids : _hiItemGuid b <= _hiItemGuid b' <= _hiItemGuid b + n;
  fr_tabs : length (bank_tabs b') = length (bank_tabs b);
  fr_ends : pSrc b' = pSrc b ∧ pDest b' = pDest b }.

Lemma length_put l t s o : length (put t s o l) = length l.
Proof. unfold put. destruct (l !! t); [apply length_insert|done]. Qed.
Lemma occ_put_ne q g l t s :
  q ≠ g → is_Some (l !! t) → slot l t s = None → occ q (put t s (Some g) l) = occ q l.
Proof. intros Hq Ht Hs. rewrite occ_put, Hs by done. cbn. destruct (Z.eqb_spec g q); [done|lia]. Qed.

Lemma in_hand_fresh b p it : bank_inv b → in_hand p it b → p ≠ _hiItemGuid b.
Proof. intros Hb [Hit _ _] ->. pose proof (bk_fresh _ Hb _ (mk_is_Some _ _ Hit)). lia. Qed.
Lemma held_not_hand b t s g p it : slot (bank_tabs b) t s = Some g → in_hand p it b → g ≠ p.
Proof. intros Hsl [_ _ Ho] ->. by apply (occ_zero _ _ Ho) in Hsl. Qed.

(** An item that goes into a free slot: itself, or a clone just made. *)
Lemma framed_store b b1 t s g p it S n :
  bank_inv b → S ⊆ [s] → s ∈ S → slot (bank_tabs b) t s = None → (t < length (bank_tabs b))%nat →
  bank_tabs b1 = bank_tabs b → occ g (bank_tabs b) = 0 → in_hand p it b → g = p ∨ g = _hiItemGuid b →
  (∀ q, q ≠ g → items (world b1) !! q = items (world b) !! q) →
  _hiItemGuid b <= _hiItemGuid b1 <= _hiItemGuid b + n → pSrc b1 = pSrc b → pDest b1 = pDest b →
  framed p t S n b (put_b t s (Some g) b1).
Proof.
  intros Hb HS HS2 Hsl Ht Et Hocc Hp Hg Hits Hhi E1 E2. apply lookup_lt_is_Some in Ht as Htab.
  assert (bank_tabs (put_b t s (Some g) b1) = put t s (Some g) (bank_tabs b)) as Ep by (rewrite <- Et; done).
  split.
  - intros q itq Hq Hhand. assert (q ≠ g) as Hqg.
    { destruct Hg as [-> | ->]; [done|]. by apply (in_hand_fresh b q itq). }
    destruct Hhand as [H1 H2 H3]. split; [|done|].
    + change (items (world (put_b _ _ _ _))) with (items (world b1)). by rewrite Hits.
    + rewrite Ep. by rewrite occ_put_ne.
  - intros t' s' Hne. rewrite Ep, slot_put by done. rewrite decide_False; [done|]. intros [<- <-]. naive_solver.
  - intros t' s' x Hne Hx. change (items (world (put_b _ _ _ _))) with (items (world b1)). apply Hits. intros ->.
    by apply (occ_zero _ _ Hocc) in Hx.
  - exact Hhi.
  - by rewrite Ep, length_put.
  - done.
Qed.

(** An item in a slot that gets another count; [drop]: the item in hand goes. *)
Definition recount_b (d c p : Z) (drop : bool) (b : BankWorld) : BankWorld :=
  let b1 := items_b (alter (λ it, it <| GetCount := c |>) d) b in
  if drop then items_b (delete p) b1 else b1.
Lemma framed_recount b t s d p c (drop : bool) S n :
  bank_inv b → slot (bank_tabs b) t s = Some d → s ∈ S → d ≠ p → occ p (bank_tabs b) = 0 → 0 <= n →
  framed p t S n b (recount_b d c p drop b).
Proof.
  intros Hb Hsl HS Hdp Hocc Hn. pose proof (held_once b t s d Hb Hsl) as Hd.
  set (b' := recount_b d c p drop b).
  assert (bank_tabs b' = bank_tabs b ∧ _hiItemGuid b' = _hiItemGuid b) as [Et Eh] by (by destruct drop).
  assert (∀ q, q ≠ d → q ≠ p → items (world b') !! q = items (world b) !! q) as Hits.
  { intros q Hq Hp. subst b'. destruct drop; cbn; [rewrite lookup_delete_ne by done|]; by rewrite lookup_alter_ne. }
  split; rewrite ?Et, ?Eh; [| | |..|done|by destruct drop].
  - intros q itq Hq [H1 H2 H3]. assert (q ≠ d) by (intros ->; lia). split; [by rewrite Hits|done|by rewrite Et].
  - done.
  - intros t' s' g Hne Hg. apply Hits.
    + intros ->. destruct (occ_two d _ _ _ _ _ Hsl Hg (bk_once _ Hb d)) as [<- <-]. naive_solver.
    + intros ->. by apply (occ_zero _ _ Hocc) in Hg.
  - lia.
Qed.

Lemma framed_refl p t S n b : 0 <= n → framed p t S n b b.
Proof. intros Hn. split; [done..| |done|done]. lia. Qed.

Lemma _GetItem_slot t s b :
  (t < length (bank_tabs b))%nat → s < GUILD_BANK_MAX_SLOTS → _GetItem (Z.of_nat t) s (world b) = slot (bank_tabs b) t s.
Proof.
  intros Ht Hs. unfold _GetItem, GetBankTab, slot, bank_tabs in *. rewrite (proj2 (Z.ltb_lt _ _)) by lia.
  rewrite Nat2Z.id. destruct (_ !! t) as [tab|]; [|done]. cbn. unfold BankTab.GetItem.
  by rewrite (proj2 (Z.ltb_lt _ _)).
Qed.

Definition stored (it : Item) (n : Z) (T : Z → Z) (e : Z) : Z := T e + if GetEntry it =? e then n else 0.

Lemma wp__StoreItem sh db T b p it t s cnt (clone : bool) (Q : option Z → BankWorld → list guild_event → Prop) :
  Bank sh db T b → in_hand p it b → (t < length (bank_tabs b))%nat → 0 <= s < GUILD_BANK_MAX_SLOTS →
  fits it cnt (slot (bank_tabs b) t s) b → _hiItemGuid b < 0xFFFFFFFE →
  (∀ r b' tr, Bank sh (exec_books tr db) (stored it cnt T) b' → framed p t [s] 1 b b' →
     (clone = true → in_hand p it b') → Q r b' tr) →
  wp (_StoreItem (Z.of_nat t) p (s, cnt) clone) Q b.
Proof.
  intros HB Hp Ht Hs [Hcnt Hfit] Hhi HQ. pose proof (ba_inv _ _ _ _ HB) as Hb. pose proof (GetMaxStackCount_range it) as Hmax.
  unfold GUILD_BANK_MAX_SLOTS in Hs. unfold _StoreItem. apply wp_bind_get. cbn [fst snd].
  rewrite (wrapu_id 8 s), _GetItem_slot by (done || unfold GUILD_BANK_MAX_SLOTS; lia).
  destruct (slot (bank_tabs b) t s) as [d|] eqn:Hsl.
  - destruct Hfit as (itd & Hd & Hen & Hle). destruct (bk_slots _ Hb t s d Hsl) as (_ & itd' & Hd' & Hdok).
    rewrite Hd in Hd'. injection Hd' as <-. assert (d ≠ p) as Hdp by (by apply (held_not_hand b t s _ _ it)).
    eapply wp_bind_item; [done|]. rewrite wrapu_id by (destruct Hdok; lia).
    eapply (wp_recount sh db T b t s d itd); [done..| |].
    { rewrite (same_stack itd it) by (done || apply Hp). destruct Hdok. lia. }
    intros tr b1 HB1. pose proof (framed_recount b t s d p (GetCount itd + cnt) (negb clone) [s] 1 Hb Hsl
      ltac:(by left) Hdp (ih_occ _ _ _ Hp) ltac:(lia)) as Hfr.
    assert (Bank sh (exec_books tr db) (stored it cnt T) b1) as HB2.
    { eapply Bank_total; [|exact HB1]. intros e. unfold stored. cbn beta. rewrite Hen. destruct (_ =? e); lia. }
    destruct clone; cbn [negb when].
    + apply wp_bind, wp_ret, wp_ret. apply HQ; [by rewrite !app_nil_r|done|].
      intros _. destruct Hp as [H1 H2 H3]. split; [|done|done]. subst b1. cbn. by rewrite lookup_alter_ne.
    + apply wp_bind, wp_bind_emit, wp_bind_emit, wp_modify, wp_ret. apply HQ; [|done|done].
      rewrite exec_books_app. cbn. apply (Bank_aside sh _ _ b1); [|exact (inv_items sh (delete p) b1 (ba_guild _ _ _ _ HB2))|done| |].
      * destruct HB2 as [? ? [Hs1 Hs2] ?]. split; [done..| |done]. split; [exact Hs1|]. intros t' s' g Hg. cbn.
        rewrite lookup_delete_ne; [by apply (Hs2 t' s')|]. intros <-.
        by apply (occ_zero _ _ (ih_occ _ _ _ Hp)) in Hg.
      * intros t' s' g Hg. cbn. rewrite lookup_delete_ne; [done|]. intros <-.
        by apply (occ_zero _ _ (ih_occ _ _ _ Hp)) in Hg.
      * intros g. cbn. intros [x Hx]. apply lookup_delete_Some in Hx as [_ Hx].
        by apply (bk_fresh _ (ba_inv _ _ _ _ HB2)).
  - assert (occ p (bank_tabs b) = 0) as Hocc by apply Hp. destruct clone.
    + apply wp_bind. eapply (wp_Item_CloneItem sh db T b p it cnt); [done|apply Hp|apply Hp|done|done| |].
      * intros Hlt. apply wp_ret, HQ; [|by apply framed_refl|done].
        eapply Bank_total; [|exact HB]. intros e. unfold stored. replace cnt with 0 by lia. destruct (_ =? e); lia.
      * intros charges b1 n Hpos HB1 Hn Hnok Hnocc. apply wp_bind.
        eapply (wp_SetItem_Some sh db T b1 t s n); [done..|]. intros tr HB2. apply wp_ret.
        apply HQ; [by rewrite !app_nil_r| |].
        -- apply (framed_store b b1 t s n p it); try done; [by left|by right| |cbn; lia].
           intros q Hq. cbn. by rewrite lookup_insert_ne.
        -- intros _. pose proof (in_hand_fresh b p it Hb Hp) as Hpn. destruct Hp as [H1 H2 H3]. split; [|done|].
           ++ cbn. by rewrite lookup_insert_ne.
           ++ change (occ p (put t s (Some n) (bank_tabs b)) = 0). rewrite occ_put_ne; [done|done| |done].
              by apply lookup_lt_is_Some.
    + unfold SetCount, on_item. apply wp_bind, wp_bind_modify, wp_ret.
      set (b1 := b <| world ::= _ |>). set (it1 := it <| GetCount := cnt |>).
      assert (items (world b1) !! p = Some it1) as Hp1 by (subst b1; cbn; by rewrite lookup_alter_eq, (ih_item _ _ _ Hp)).
      assert (∀ q, q ≠ p → items (world b1) !! q = items (world b) !! q) as Hne
        by (intros q Hq; subst b1; cbn; by rewrite lookup_alter_ne).
      assert (Bank sh db T b1) as HB1.
      { apply (Bank_aside sh _ _ b); [done|by apply (inv_items sh _ _ (ba_guild _ _ _ _ HB))|done| |].
        - intros t' s' g Hg. apply Hne. intros ->. by apply (occ_zero _ _ Hocc) in Hg.
        - intros g Hg. apply (bk_fresh _ Hb). destruct (decide (g = p)) as [->|]; [eexists; apply Hp|]. by rewrite Hne in Hg. }
      apply wp_bind. eapply (wp_SetItem_Some sh db T b1 t s p it1); [done..| |done|].
      { destruct (ih_ok _ _ _ Hp) as [_ Hpr]. split; [cbn; exact (conj Hcnt Hfit)|exact Hpr]. }
      intros tr HB2. apply wp_ret. apply HQ; [|..|done].
      * rewrite !app_nil_r. exact HB2.
      * apply (framed_store b b1 t s p p it); try done; [by left|by left|cbn; lia].
Qed.

Definition vec_sum (vec : list (Z * Z)) : Z := foldr (λ pc acc, pc.2 + acc) 0 vec.

Lemma framed_trans p t S1 S2 n1 n2 b b1 b2 :
  framed p t S1 n1 b b1 → framed p t S2 n2 b1 b2 → framed p t (S1 ++ S2) (n1 + n2) b b2.
Proof.
  intros [H1 H2 H3 H4 H5 [H6 H7]] [G1 G2 G3 G4 G5 [G6 G7]]. split.
  - eauto.
  - intros t' s' Hne. rewrite G2, H2; [done|..]; rewrite elem_of_app in Hne; tauto.
  - intros t' s' g Hne Hg. rewrite elem_of_app in Hne. rewrite (G3 t' s'), (H3 t' s'); try tauto.
    rewrite H2; [done|tauto].
  - lia.
  - congruence.
  - split; congruence.
Qed.

Lemma fits_framed it c p t S n b b' t' s :
  framed p t S n b b' → t' ≠ t ∨ s ∉ S →
  fits it c (slot (bank_tabs b) t' s) b → fits it c (slot (bank_tabs b') t' s) b'.
Proof.
  intros Hf Hs [Hc Hfit]. split; [done|]. rewrite (fr_slot _ _ _ _ _ _ Hf) by done.
  destruct (slot (bank_tabs b) t' s) as [d|] eqn:Hd; [|done]. destruct Hfit as (itd & Hit & Hrest).
  exists itd. split; [|done]. by rewrite (fr_item _ _ _ _ _ _ Hf t' s).
Qed.

Lemma wp_StoreItem_loop sh db T b p it t vec (Q : unit → BankWorld → list guild_event → Prop) :
  Bank sh db T b → in_hand p it b → (t < length (bank_tabs b))%nat → NoDup vec.*1 →
  (∀ s c, (s, c) ∈ vec → 0 <= s < GUILD_BANK_MAX_SLOTS ∧ fits it c (slot (bank_tabs b) t s) b) →
  _hiItemGuid b + Z.of_nat (length vec) <= 0xFFFFFFFE →
  (∀ b' tr, Bank sh (exec_books tr db) (stored it (vec_sum vec) T) b' →
     framed p t vec.*1 (Z.of_nat (length vec)) b b' → Q tt b' tr) →
  wp (StoreItem_loop (Z.of_nat t) p vec) Q b.
Proof.
  revert db T b Q. induction vec as [|[s c] vec IH]; intros db T b Q HB Hp Ht Hnd Hfit Hhi HQ.
  { apply wp_ret, HQ; [|by apply framed_refl]. eapply Bank_total; [|exact HB].
    intros e. unfold stored. cbn. destruct (_ =? e); lia. }
  cbn [StoreItem_loop length fmap list_fmap fst] in *. apply NoDup_cons in Hnd as [Hs Hnd].
  destruct (Hfit s c ltac:(by left)) as [Hsr Hf]. apply wp_bind.
  eapply (wp__StoreItem sh db T b p it t s c); [done..|lia|]. intros r b1 tr HB1 Hfr Hin.
  destruct vec as [|pc vec'] eqn:Ev.
  { apply wp_ret. apply HQ; [|exact Hfr]. rewrite app_nil_r. eapply Bank_total; [|exact HB1].
    intros e. unfold stored. cbn. destruct (_ =? e); lia. }
  rewrite <- Ev in *. pose proof (fr_guids _ _ _ _ _ _ Hfr). pose proof (fr_tabs _ _ _ _ _ _ Hfr) as Hlen.
  apply (IH _ _ b1 _ HB1); [by apply Hin|by rewrite Hlen|done| |lia|].
  - intros s' c' Hin'. destruct (Hfit s' c' ltac:(by right)) as [? Hf']. split; [done|].
    eapply fits_framed; [exact Hfr| |exact Hf']. right. intros ->%list_elem_of_singleton.
    apply Hs. apply list_elem_of_fmap. by exists (s, c').
  - intros b2 tr2 HB2 Hfr2. apply HQ.
    + rewrite exec_books_app. eapply Bank_total; [|exact HB2]. intros e. unfold stored. cbn.
      fold (vec_sum vec). destruct (_ =? e); lia.
    + pose proof (framed_trans _ _ _ _ _ _ _ _ _ Hfr Hfr2) as Hft. cbn in Hft.
      replace (Z.of_nat (S (length vec))) with (1 + Z.of_nat (length vec)) by lia. exact Hft.
Qed.
End Run.

(** ** What does not concern the bank's items

    [hush R m]: if [m] ends normally the states before and after are related by
    [R], and nothing was written to the tables of the bank. *)

Section Hush.
Context {S : Type} (R : S → S → Prop) `{!PreOrder R}.
Definition hush {A} (m : act S guild_event A) : Prop := ∀ s, wlp m (λ _ s' t, R s s' ∧ quiet t) s.

Lemma hush_ret {A} (a : A) : hush (mret a).
Proof. intros s. by split. Qed.
Lemma hush_get : hush get.
Proof. intros s. by split. Qed.
Lemma hush_gets {A} (f : S → A) : hush (gets f).
Proof. intros s. by split. Qed.
Lemma hush_emit e : quiet [e] → hush (emit e).
Proof. intros He s. by split. Qed.
Lemma hush_raise {A} f : hush (raise (A := A) f).
Proof. intros s. done. Qed.
Lemma hush_modify f : (∀ s, R s (f s)) → hush (modify f).
Proof. intros Hf s. by split. Qed.
Lemma hush_bind {A B} (m : act S guild_event A) (f : A → act S guild_event B) :
  hush m → (∀ a, hush (f a)) → hush (m ≫= f).
Proof.
  intros Hm Hf s. unfold wlp, mbind, act_bind. specialize (Hm s). unfold wlp in Hm.
  destruct (m s) as [a s1 t1|]; [|done]. destruct Hm as [H1 H2]. specialize (Hf a s1). unfold wlp in Hf.
  destruct (f a s1) as [b s2 t2|]; [|done]. destruct Hf as [H3 H4]. split; [by etrans|by apply quiet_app].
Qed.
Lemma hush_when b m : hush m → hush (when b m).
Proof. intros Hm. destruct b; [done|]. apply hush_ret. Qed.
Lemma hush_forM {A} (l : list A) f : (∀ x, hush (f x)) → hush (forM_ l f).
Proof. intros Hf. induction l as [|x l IH]; [apply hush_ret|]. cbn [forM_]. apply hush_bind; auto. Qed.
End Hush.

Definition same_bank (w w' : GuildWorld) : Prop :=
  m_bankTabs (guild w') = m_bankTabs (guild w) ∧ items w' = items w.
#[export] Instance same_bank_preorder : PreOrder same_bank.
Proof. split; [by intros w|]. intros w1 w2 w3 [E1 E2] [E3 E4]. split; congruence. Qed.
Definition any_state {S : Type} (s s' : S) : Prop := True.
#[export] Instance any_state_preorder {S} : PreOrder (@any_state S).
Proof. by split. Qed.

Create HintDb hush discriminated.
#[export] Hint Resolve hush_ret hush_get hush_gets hush_raise : hush.
#[export] Hint Extern 1 (hush _ (emit _)) => (apply hush_emit; [exact _|intros ?; reflexivity]) : hush.
#[export] Hint Extern 0 (PreOrder _) => (exact _) : hush.
Ltac hush_auto :=
  repeat first
    [ solve [auto with hush]
    | apply hush_bind; [exact _| |intros ?]
    | apply hush_when; [exact _|]
    | apply hush_forM; [exact _|intros ?]
    | match goal with |- hush _ (match ?x with _ => _ end) => destruct x end ].

Section Aside.
Context `{GuildLaws}.

Lemma hush_in_bankEventLog {A} i (op : act (LogHolder.t BankEventLogEntry.t) guild_event A) :
  hush any_state op → hush same_bank (in_bankEventLog i op).
Proof.
  intros Hop w. unfold wlp, in_bankEventLog. destruct (m_bankEventLog _ !! i) as [h|]; [|done].
  unfold zoom. specialize (Hop h). unfold wlp in Hop. destruct (op h); [|done]. by destruct Hop.
Qed.
Lemma hush_GetNextGUID : hush any_state (LogHolder.GetNextGUID (E := BankEventLogEntry.t)).
Proof. unfold LogHolder.GetNextGUID. hush_auto; by apply hush_modify. Qed.
Lemma hush_AddEvent e : hush any_state (LogHolder.AddEvent (E := BankEventLogEntry.t) e).
Proof.
  unfold LogHolder.AddEvent. apply hush_bind; [exact _|apply hush_get; exact _|]. intros h.
  apply hush_bind; [exact _|hush_auto; by apply hush_modify|]. intros _.
  apply hush_bind; [exact _|by apply hush_modify|]. intros _. cbn [entry_SaveToDB BankEventLogEntry.entry BankEventLogEntry.SaveToDB forM_].
  hush_auto.
Qed.
Lemma hush_LogBankEvent e tab g item n dest : hush same_bank (_LogBankEvent e tab g item n dest).
Proof.
  unfold _LogBankEvent. cbv zeta. hush_auto; apply hush_in_bankEventLog; [apply hush_GetNextGUID|apply hush_AddEvent].
Qed.
Lemma hush_SendBankList s tab all slots : hush same_bank (_SendBankList s tab all slots).
Proof. unfold _SendBankList. hush_auto. Qed.
Lemma hush_UpdateMemberWithdrawSlots guid tab : hush same_bank (_UpdateMemberWithdrawSlots guid tab).
Proof.
  unfold _UpdateMemberWithdrawSlots. hush_auto. intros w. unfold wlp, at_member.
  destruct (m_members _ !! _) as [x|]; [|done]. unfold zoom, Member.UpdateBankWithdrawValue.
  by destruct (_ <? _).
Qed.
Lemma keeps_UpdateMemberWithdrawSlots sh guid tab :
  tab <= GUILD_BANK_MAX_TABS → keeps (inv_at sh) (_UpdateMemberWithdrawSlots guid tab).
Proof.
  intros Ht. unfold _UpdateMemberWithdrawSlots. apply keeps_bind_get. intros w [Hw Hs].
  destruct (GetMember guid (guild w)) as [x|] eqn:Hx; [|apply keeps_ret]. cbv zeta. apply keeps_when.
  apply (keeps_at_member sh); [|intros m; by apply keeps_UpdateBankWithdraw].
  rewrite <- Hs. apply elem_of_dom. cbn. unfold member_ranks. rewrite lookup_fmap. unfold GetMember in Hx.
  rewrite Hx. by eexists.
Qed.
End Aside.

(** ** What [CanStore] reserves *)

Section Reserve.
Context `{BankEnv}.

Definition fits_view (it : Item) (n : Z) (o : option Item) : Prop :=
  0 <= n ∧
  match o with
  | None => n <= GetMaxStackCount it
  | Some d => GetEntry d = GetEntry it ∧ GetCount d + n <= GetMaxStackCount it
  end.
(** What is reserved so far of [n] items like [it], in slots that look like [view]. *)
Record reserved (view : Z → option Item) (it : Item) (n : Z) (cv : Z * list (Z * Z)) : Prop := {
  rs_left : 0 <= cv.1;
  rs_sum : cv.1 + vec_sum cv.2 = n;
  rs_nodup : NoDup cv.2.*1;
  rs_fits : ∀ s c, (s, c) ∈ cv.2 → 0 <= s < GUILD_BANK_MAX_SLOTS ∧ fits_view it c (view s) }.

Lemma vec_sum_app l k : vec_sum (l ++ k) = vec_sum l + vec_sum k.
Proof. unfold vec_sum. induction l as [|x l IH]; cbn; [lia|]. rewrite IH. lia. Qed.
Lemma vec_sum_nonneg l : (∀ s c, (s, c) ∈ l → 0 <= c) → 0 <= vec_sum l.
Proof.
  unfold vec_sum. induction l as [|[s c] l IH]; cbn; intros Hl; [lia|].
  pose proof (Hl s c ltac:(by left)). assert (∀ s c, (s, c) ∈ l → 0 <= c) as Hl' by (intros; eapply Hl; by right).
  specialize (IH Hl'). lia.
Qed.

Lemma place_reserved view it n cv s r :
  reserved view it n cv → 0 <= s < GUILD_BANK_MAX_SLOTS → n < 2 ^ 32 → 0 <= r <= cv.1 →
  fits_view it r (view s) → isContainedIn s cv.2 = false →
  reserved view it n (u32 (cv.1 - r), cv.2 ++ [(s, r)]).
Proof.
  intros [H1 H2 H3 H4] Hs Hn Hr Hf Hc. pose proof (vec_sum_nonneg cv.2) as Hnn.
  assert (0 <= vec_sum cv.2) by (apply Hnn; intros s' c' Hin; by destruct (H4 s' c' Hin) as [_ [? _]]).
  rewrite wrapu_id by lia. unfold isContainedIn in Hc. apply bool_decide_eq_false in Hc.
  split; cbn [fst snd].
  - lia.
  - rewrite vec_sum_app. cbn. lia.
  - rewrite fmap_app. apply NoDup_app. split; [done|]. split; [|apply NoDup_singleton].
    intros x Hx Hx'. apply list_elem_of_singleton in Hx' as ->. done.
  - intros s' c' [Hin|Hin]%elem_of_app; [by apply H4|]. apply list_elem_of_singleton in Hin as [= -> ->]. done.
Qed.

Lemma ReserveSpace_reserved view it n cv s o :
  reserved view it n cv → 0 <= s < GUILD_BANK_MAX_SLOTS → n < 2 ^ 32 → view s = o →
  (∀ d, o = Some d → 0 <= GetCount d) →
  reserved view it n (_ReserveSpace s it o cv).2.
Proof.
  intros Hr Hs Hn <- Hd. pose proof (GetMaxStackCount_range it). pose proof (rs_left _ _ _ _ Hr).
  destruct cv as [count vec]. unfold _ReserveSpace. cbn [fst] in *. destruct (view s) as [d|] eqn:Ev.
  - specialize (Hd d eq_refl). destruct (Z.eqb_spec (GetEntry d) (GetEntry it)) as [He|]; [|done]. cbn [negb orb].
    destruct (Z.leb_spec (GetMaxStackCount it) (GetCount d)); [done|]. rewrite (wrapu_id 32 (GetMaxStackCount it - GetCount d)) by lia. cbn [snd].
    destruct (isContainedIn s vec) eqn:Ec; [done|]. apply (place_reserved view it n (count, vec)); try done; [cbn; lia|].
    rewrite Ev. split; [lia|]. split; [done|]. lia.
  - cbn [snd]. destruct (isContainedIn s vec) eqn:Ec; [done|]. apply (place_reserved view it n (count, vec)); try done; [cbn; lia|].
    rewrite Ev. split; lia.
Qed.

Lemma CanStoreItemInTab_reserved container p it skip merge w n cv :
  n < 2 ^ 32 → (∀ s d, dest_item container s p w = Some d → 0 <= GetCount d) →
  reserved (λ s, dest_item container s p w) it n cv →
  reserved (λ s, dest_item container s p w) it n (CanStoreItemInTab container p it skip merge w cv).
Proof.
  intros Hn Hd. unfold CanStoreItemInTab.
  assert (∀ s, s ∈ seqZ 0 GUILD_BANK_MAX_SLOTS → 0 <= s < GUILD_BANK_MAX_SLOTS) as Hall
    by (intros s Hs; apply elem_of_seqZ in Hs; unfold GUILD_BANK_MAX_SLOTS in *; lia).
  revert Hall cv. generalize (seqZ 0 GUILD_BANK_MAX_SLOTS) as l.
  induction l as [|s l IH]; intros Hall cv Hr; cbn [CanStoreItemInTab_loop]; [done|].
  assert (∀ s, s ∈ l → 0 <= s < GUILD_BANK_MAX_SLOTS) as Hall' by (intros; apply Hall; by right).
  destruct (negb _); [done|]. destruct (_ =? skip); [by apply IH|]. cbv zeta. apply IH; [done|].
  destruct (Bool.eqb _ _); [|done]. apply ReserveSpace_reserved; try done; [by apply Hall; left|]. by apply Hd.
Qed.

Lemma search_reserved m p it w n cv :
  n < 2 ^ 32 → (∀ s d, dest_item (m_container m) s p w = Some d → 0 <= GetCount d) →
  reserved (λ s, dest_item (m_container m) s p w) it n cv →
  let '(msg, vec) := CanStore_search m p it w cv in
  msg = EQUIP_ERR_OK → reserved (λ s, dest_item (m_container m) s p w) it n (0, vec).
Proof.
  intros Hn Hd Hr. unfold CanStore_search. cbv zeta.
  set (cv1 := if 1 <? GetMaxStackCount it then CanStoreItemInTab (m_container m) p it (m_slotId m) true w cv else cv).
  assert (reserved (λ s, dest_item (m_container m) s p w) it n cv1) as Hr1
    by (subst cv1; destruct (_ <? _); [by apply CanStoreItemInTab_reserved|done]).
  assert (∀ cv : Z * list (Z * Z), reserved (λ s, dest_item (m_container m) s p w) it n cv → (cv.1 =? 0) = true →
    reserved (λ s, dest_item (m_container m) s p w) it n (0, cv.2)) as Hend
    by (intros [c v] Hx E%Z.eqb_eq; cbn in E; by subst).
  destruct (_ && _) eqn:E1.
  - apply andb_true_iff in E1 as [_ E1]. intros _. by apply Hend.
  - set (cv2 := CanStoreItemInTab _ _ _ _ false _ _). intros Hmsg. destruct (cv2.1 =? 0) eqn:E2; [|done].
    apply Hend; [|done]. by apply CanStoreItemInTab_reserved.
Qed.

(** What a destination slot looks like: empty, if its item is about to leave. *)
Definition view_of (m : MoveItemData) (p : Z) (swap : bool) (w : GuildWorld) (s : Z) : option Item :=
  if swap && (s =? m_slotId m) then None else dest_item (m_container m) s p w.

Lemma Bank_CanStore_reserved m p it (swap : bool) w :
  item_ok it → 0 <= m_slotId m < GUILD_BANK_MAX_SLOTS →
  (∀ s d, dest_item (m_container m) s p w = Some d → 0 <= GetCount d) →
  let '(msg, vec) := Bank_CanStore m p it swap w in
  msg = EQUIP_ERR_OK →
  reserved (view_of m p swap w) it (GetCount it) (0, vec) ∧ (swap = true → vec = [(m_slotId m, GetCount it)]) ∧
  m_container m < _GetPurchasedTabsSize (guild w).
Proof.
  intros [Hc _] Hs Hd. unfold Bank_CanStore. destruct (IsSoulBound it); [done|].
  destruct (Z.leb_spec (_GetPurchasedTabsSize (guild w)) (m_container m)); [done|].
  unfold GUILD_BANK_MAX_SLOTS, NULL_SLOT in *. destruct (Z.eqb_spec (m_slotId m) 255); [lia|]. cbn [negb].
  pose proof (GetMaxStackCount_range it) as Hmax.
  assert (reserved (λ s, dest_item (m_container m) s p w) it (GetCount it) (GetCount it, [])) as Hr0
    by (split; cbn; [lia|lia|constructor|by intros ?? ?%not_elem_of_nil]).
  destruct swap; cbn [andb].
  - unfold _ReserveSpace. unfold isContainedIn. rewrite bool_decide_eq_false_2 by apply not_elem_of_nil.
    rewrite Z.min_r, Z.sub_diag by lia. cbn. intros _. split; [|done].
    split; cbn; [lia|lia|apply NoDup_singleton|]. intros s c [= -> ->]%list_elem_of_singleton.
    unfold view_of. rewrite Z.eqb_refl. cbn. unfold GUILD_BANK_MAX_SLOTS. repeat split; lia.
  - pose proof (ReserveSpace_reserved (λ s, dest_item (m_container m) s p w) it (GetCount it) (GetCount it, []) (m_slotId m)
      _ Hr0 Hs ltac:(lia) eq_refl (Hd _)) as Hr.
    destruct (_ReserveSpace _ _ _ _) as [ok cv] eqn:Er. cbn [snd] in Hr.
    destruct ok; cbn [negb]; [|done]. destruct (Z.eqb_spec cv.1 0) as [E|E].
    + intros _. split; [|done]. destruct cv as [c v]. cbn in E. subst c. exact Hr.
    + pose proof (search_reserved m p it w (GetCount it) cv ltac:(lia) Hd Hr) as Hs2.
      destruct (CanStore_search m p it w cv) as [msg vec]. intros Hmsg. split; [by apply Hs2|done].
Qed.
End Reserve.

(** ** The moves

    [run m b db Φ]: [m] ends normally from [b], and [Φ] holds of its result, of
    the state and of the tables [db] after its statements. *)

Definition run {A} (m : bact A) (b : BankWorld) (db : bank_db) (Φ : A → BankWorld → bank_db → Prop) : Prop :=
  wp m (λ a b' t, Φ a b' (exec_books t db)) b.

Section RunRules.
Lemma run_bind {A B} (m : bact A) (k : A → bact B) b db Φ :
  run m b db (λ a b' db', run (k a) b' db' Φ) → run (m ≫= k) b db Φ.
Proof.
  intros Hm. apply wp_bind. eapply wp_mono; [exact Hm|]. intros a b' t Hk. eapply wp_mono; [exact Hk|].
  intros x b2 t2 Hx. by rewrite exec_books_app.
Qed.
Lemma run_mono {A} (m : bact A) b db (Φ Ψ : A → BankWorld → bank_db → Prop) :
  run m b db Φ → (∀ a b' db', Φ a b' db' → Ψ a b' db') → run m b db Ψ.
Proof. intros Hm HΦ. eapply wp_mono; [exact Hm|]. intros a b' t. apply HΦ. Qed.
Lemma run_ret {A} (a : A) b db (Φ : A → BankWorld → bank_db → Prop) : Φ a b db → run (mret a) b db Φ.
Proof. done. Qed.
Lemma run_get {B} (k : BankWorld → bact B) b db Φ : run (k b) b db Φ → run (get ≫= k) b db Φ.
Proof. intros Hk. by apply wp_bind_get. Qed.
Lemma run_emit {B} e (k : unit → bact B) b db Φ :
  run (k tt) b (exec_bank e db) Φ → run (emit e ≫= k) b db Φ.
Proof. intros Hk. apply run_bind. exact Hk. Qed.
Lemma run_modify {B} f (k : unit → bact B) b db Φ : run (k tt) (f b) db Φ → run (modify f ≫= k) b db Φ.
Proof. intros Hk. by apply run_bind. Qed.
Lemma run_item {B} g it (k : Item → bact B) b db Φ :
  items (world b) !! g = Some it → run (k it) b db Φ → run (item_at g ≫= k) b db Φ.
Proof. intros Hit Hk. by eapply wp_bind_item. Qed.
Lemma run_require {A B} (o : option A) a (k : A → bact B) b db Φ :
  o = Some a → run (k a) b db Φ → run (require o ≫= k) b db Φ.
Proof. intros -> Hk. apply run_bind. by apply run_ret. Qed.
End RunRules.

(** The state but for what the ends of the move remember. *)
Definition same_world (b b' : BankWorld) : Prop := world b' = world b ∧ _hiItemGuid b' = _hiItemGuid b.
(** The same items in the same slots, whatever else a request changed. *)
Definition beside (b b' : BankWorld) : Prop :=
  bank_tabs b' = bank_tabs b ∧ items (world b') = items (world b) ∧ _hiItemGuid b' = _hiItemGuid b ∧
  pSrc b' = pSrc b ∧ pDest b' = pDest b.
Definition bank_end (m : MoveItemData) (t : nat) (s : Z) : Prop :=
  IsBank m = true ∧ m_container m = Z.of_nat t ∧ m_slotId m = s.

Section Steps.
Context `{BankEnv, !GuildLaws} (player : Z) (sh : shape) (tS tD : nat) (sS sD : Z).
Implicit Types b : BankWorld.

(** Where the items come from and go to. *)
Definition end_tab (s : side) : nat := match s with SRC => tS | DEST => tD end.
Definition end_slot (s : side) : Z := match s with SRC => sS | DEST => sD end.
Definition ends (b : BankWorld) : Prop := ∀ s, bank_end (this s b) (end_tab s) (end_slot s).

Lemma Bank_same_world db T b b' : same_world b b' → Bank sh db T b → Bank sh db T b'.
Proof.
  intros [Ew Eh] [H1 [H2 H3 H4] [H5 H6] H7].
  split; [by rewrite Ew|..]; [split|split|]; unfold total, bank_tabs in *; rewrite ?Ew, ?Eh; done.
Qed.

Lemma run_calm {A} (op : gact A) b db T :
  keeps (inv_at sh) op → hush same_bank op → Bank sh db T b →
  run (in_world op) b db (λ _ b' db', db' = db ∧ Bank sh db T b' ∧ beside b b').
Proof.
  intros Hk Hh HB. unfold run, wp, in_world, zoom. specialize (Hk (world b) (ba_guild _ _ _ _ HB)).
  specialize (Hh (world b)). unfold wp, wlp in *. destruct (op (world b)) as [a w t|]; [|done].
  destruct Hh as [[Et Ei] Hq]. split; [apply Hq|]. assert (beside b (b <| world := w |>)) as Hb by done.
  split; [|done]. apply (Bank_aside sh db T b); [done|exact Hk|exact Et| |].
  - intros t0 s0 g Hg. cbn. by rewrite Ei.
  - intros g. cbn. rewrite Ei. apply (bk_fresh _ (ba_inv _ _ _ _ HB)).
Qed.

Lemma beside_hand b b' p it : beside b b' → in_hand p it b → in_hand p it b'.
Proof. intros (Et & Ei & _) [H1 H2 H3]. split; [by rewrite Ei|done|by rewrite Et]. Qed.
Lemma beside_ends b b' : beside b b' → ends b → ends b'.
Proof. intros (_ & _ & _ & E1 & E2) He s. specialize (He s). by destruct s; cbn in *; rewrite ?E1, ?E2. Qed.
Lemma beside_this b b' s : beside b b' → this s b' = this s b.
Proof. intros (_ & _ & _ & E1 & E2). by destruct s. Qed.

Lemma run_LogBankEvent s count g it b db T :
  ends b → Bank sh db T b → m_pItem (this (other s) b) = Some g → items (world b) !! g = Some it →
  run (LogBankEvent player s count) b db (λ _ b' db', db' = db ∧ Bank sh db T b' ∧ beside b b').
Proof.
  intros He HB Hg Hit. unfold LogBankEvent. apply run_get. cbv zeta. rewrite Hg.
  eapply run_item; [done|]. destruct (He s) as (-> & Hc & _). destruct (He (other s)) as (-> & Hc' & _). cbn [negb].
  rewrite Hc, Hc'. apply run_calm; [apply keeps_LogBankEvent|apply hush_LogBankEvent|done].
Qed.

Lemma run_LogAction {B} s g b db (k : unit → bact B) Φ :
  m_pItem (this (other s) b) = Some g → run (k tt) b db Φ → run (LogAction player s ≫= k) b db Φ.
Proof.
  intros Hg Hk. apply run_bind. unfold LogAction. apply run_get. cbv zeta. rewrite Hg. exact Hk.
Qed.

(** [CanStore] at an end in the bank. *)
Definition vec_b (s : side) (vec : list (Z * Z)) (b : BankWorld) : BankWorld :=
  match s with
  | SRC => b <| pSrc ::= λ m, m <| m_vec := vec |> |>
  | DEST => b <| pDest ::= λ m, m <| m_vec := vec |> |>
  end.
Lemma run_CanStore {B} s p it (swap sendError : bool) b db (k : bool → bact B) Φ :
  ends b → items (world b) !! p = Some it →
  (∀ msg vec, Bank_CanStore (this s b) p it swap (world b) = (msg, vec) →
     run (k (msg =? EQUIP_ERR_OK)) (vec_b s vec b) db Φ) →
  run (CanStore player s p swap sendError ≫= k) b db Φ.
Proof.
  intros He Hit Hk. apply run_bind. unfold CanStore. apply run_get. eapply run_item; [done|]. cbv zeta.
  destruct (He s) as (-> & _). destruct (Bank_CanStore _ _ _ _ _) as [msg vec] eqn:E. specialize (Hk msg vec eq_refl).
  unfold on_this. apply run_modify. change (run (when (sendError && negb (msg =? EQUIP_ERR_OK))
    (emit (SendEquipError player msg)) ;; mret (msg =? EQUIP_ERR_OK))
    (match s with SRC => b <| pSrc ::= λ m, m <| m_vec := vec |> |> | DEST => b <| pDest ::= λ m, m <| m_vec := vec |> |> end)
    db (λ a b' db', run (k a) b' db' Φ)).
  fold (vec_b s vec b). apply run_bind. unfold when. by destruct (_ && _).
Qed.

(** What both ends remember beside their item. *)
Definition same_ends (b b' : BankWorld) : Prop :=
  ∀ s, IsBank (this s b') = IsBank (this s b) ∧ m_container (this s b') = m_container (this s b) ∧
    m_slotId (this s b') = m_slotId (this s b) ∧ m_vec (this s b') = m_vec (this s b).
Lemma same_ends_ends b b' : same_ends b b' → ends b → ends b'.
Proof. intros Hs He s. destruct (Hs s) as (E1 & E2 & E3 & _). unfold bank_end. rewrite E1, E2, E3. apply He. Qed.

(** After an item has been taken out of its slot, or [n] of its stack. *)
Record removed (s : side) (g : Z) (it : Item) (b b' : BankWorld) : Prop := {
  rm_hand : in_hand g it b';
  rm_items : items (world b') = items (world b);
  rm_tabs : bank_tabs b' = put (end_tab s) (end_slot s) None (bank_tabs b);
  rm_guids : _hiItemGuid b' = _hiItemGuid b;
  rm_ends : same_ends b b';
  rm_other : m_pItem (this (other s) b') = m_pItem (this (other s) b) }.

Lemma run_RemoveItem s g it b db T :
  ends b → Bank sh db T b → m_pItem (this s b) = Some g → items (world b) !! g = Some it →
  slot (bank_tabs b) (end_tab s) (end_slot s) = Some g → (end_tab s < 6)%nat →
  run (RemoveItem player s 0) b db (λ _ b' db',
    Bank sh db' (λ e, T e - if GetEntry it =? e then GetCount it else 0) b' ∧ removed s g it b b').
Proof.
  intros He HB Hg Hit Hsl H6. destruct (He s) as (Eb & Ec & Es). unfold RemoveItem. apply run_get. cbv zeta.
  rewrite Hg. eapply run_item; [done|]. rewrite Eb, Ec, Es. cbn [negb Z.eqb].
  destruct (bk_slots _ (ba_inv _ _ _ _ HB) _ _ _ Hsl) as (_ & it' & Hit' & Hok). rewrite Hit in Hit'. injection Hit' as <-.
  apply run_bind, run_bind. unfold _RemoveItem. apply run_get.
  destruct (slot_tab _ _ _ _ Hsl) as [tab Htab]. pose proof (lookup_lt_Some _ _ _ Htab) as Hlt.
  assert (GetBankTab (Z.of_nat (end_tab s)) (guild (world b)) = Some tab) as ->.
  { unfold GetBankTab. fold (bank_tabs b). rewrite (proj2 (Z.ltb_lt _ _)) by lia. by rewrite Nat2Z.id. }
  apply run_bind. eapply wp_SetItem_None; [done..|]. intros tr b1 HB1 Hocc. apply run_ret.
  set (b2 := match s with SRC => b1 <| pSrc ::= λ m, m <| m_pItem := None |> |>
                        | DEST => b1 <| pDest ::= λ m, m <| m_pItem := None |> |> end).
  change (run (when (negb (IsBank (this (other s) b)) || negb (m_container (this (other s) b) =? Z.of_nat (end_tab s)))
    (in_world (_UpdateMemberWithdrawSlots player (Z.of_nat (end_tab s))))) b2 (exec_books tr db)
    (λ _ b' db', Bank sh db' (λ e, T e - if GetEntry it =? e then GetCount it else 0) b' ∧ removed s g it b b')).
  assert (Bank sh (exec_books tr db) (λ e, T e - if GetEntry it =? e then GetCount it else 0) b2) as HB2
    by (apply (Bank_same_world _ _ b1); [by destruct s|done]).
  assert (removed s g it b b2) as Hrm.
  { split; [split|..].
    - by destruct s.
    - done.
    - by destruct s.
    - by destruct s.
    - by destruct s.
    - by destruct s.
    - intros s'. by destruct s, s'.
    - by destruct s. }
  unfold when. destruct (_ || _); [|apply run_ret; by split].
  eapply run_mono; [eapply (run_calm _ b2); [apply keeps_UpdateMemberWithdrawSlots; unfold GUILD_BANK_MAX_TABS; lia
    |apply hush_UpdateMemberWithdrawSlots|exact HB2]|].
  intros u b3 db3 (-> & HB3 & Hbs). split; [exact HB3|]. destruct Hrm as [H1 H2 H3 H4 H5 H7 ].
  pose proof (beside_hand b2 b3 g it Hbs H1) as Hh. pose proof (beside_this b2 b3) as Ht. destruct Hbs as (E1 & E2 & E3 & E4 & E5) eqn:Ebs.
  split; [exact Hh|congruence..| |].
  - intros s'. rewrite Ht by done. apply H5.
  - by rewrite Ht.
Qed.

Record lessened (g : Z) (c : Z) (b b' : BankWorld) : Prop := {
  ls_items : items (world b') = alter (λ it, it <| GetCount := c |>) g (items (world b));
  ls_tabs : bank_tabs b' = bank_tabs b;
  ls_guids : _hiItemGuid b' = _hiItemGuid b;
  ls_ends : same_ends b b' }.

Lemma run_RemoveItem_split s n g it b db T :
  ends b → Bank sh db T b → m_pItem (this s b) = Some g → items (world b) !! g = Some it →
  slot (bank_tabs b) (end_tab s) (end_slot s) = Some g → (end_tab s < 6)%nat → 0 < n <= GetCount it →
  run (RemoveItem player s n) b db (λ _ b' db',
    Bank sh db' (λ e, T e - if GetEntry it =? e then n else 0) b' ∧ lessened g (GetCount it - n) b b').
Proof.
  intros He HB Hg Hit Hsl H6 Hn. destruct (He s) as (Eb & Ec & Es). unfold RemoveItem. apply run_get. cbv zeta.
  rewrite Hg. eapply run_item; [done|]. rewrite Eb, Ec. destruct (Z.eqb_spec n 0); [lia|]. cbn [negb].
  destruct (bk_slots _ (ba_inv _ _ _ _ HB) _ _ _ Hsl) as (_ & it' & Hit' & Hok). rewrite Hit in Hit'. injection Hit' as <-.
  destruct Hok as [Hcnt _]. pose proof (GetMaxStackCount_range it). rewrite wrapu_id by lia.
  apply run_bind. unfold run at 1.
  eapply (wp_set_and_save sh db T b _ _ g it); [done..|lia|]. intros tr b1 HB1.
  set (T1 := λ e, T e - if GetEntry it =? e then n else 0).
  assert (Bank sh (exec_books tr db) T1 b1) as HB2
    by (eapply Bank_total; [|exact HB1]; intros e; unfold T1; destruct (_ =? e); lia).
  assert (lessened g (GetCount it - n) b b1) as Hls by (split; try done; by intros []).
  fold (run (when (negb (IsBank (this (other s) b)) || negb (m_container (this (other s) b) =? Z.of_nat (end_tab s)))
    (in_world (_UpdateMemberWithdrawSlots player (Z.of_nat (end_tab s))))) b1 (exec_books tr db)
    (λ _ b' db', Bank sh db' T1 b' ∧ lessened g (GetCount it - n) b b')).
  unfold when. destruct (_ || _); [|apply run_ret; by split].
  eapply run_mono; [eapply (run_calm _ b1); [apply keeps_UpdateMemberWithdrawSlots; unfold GUILD_BANK_MAX_TABS; lia
    |apply hush_UpdateMemberWithdrawSlots|exact HB2]|].
  intros u b3 db3 (-> & HB3 & Hbs). split; [exact HB3|]. destruct Hls as [L1 L2 L3 L4].
  pose proof (beside_this b1 b3) as Ht. destruct Hbs as (E1 & E2 & E3 & E4 & E5) eqn:Ebs.
  split; [congruence..|]. intros s'. rewrite Ht by done. apply L4.
Qed.

Lemma run_StoreItem s p it vec b db T :
  ends b → Bank sh db T b → in_hand p it b → m_vec (this s b) = vec → NoDup vec.*1 →
  (end_tab s < length (bank_tabs b))%nat →
  (∀ s' c, (s', c) ∈ vec → 0 <= s' < GUILD_BANK_MAX_SLOTS ∧ fits it c (slot (bank_tabs b) (end_tab s) s') b) →
  _hiItemGuid b + Z.of_nat (length vec) <= 0xFFFFFFFE →
  run (StoreItem player s p) b db (λ _ b' db',
    Bank sh db' (stored it (vec_sum vec) T) b' ∧ framed p (end_tab s) vec.*1 (Z.of_nat (length vec)) b b').
Proof.
  intros He HB Hp Hv Hnd Hlt Hfit Hhi. destruct (He s) as (Eb & Ec & _). unfold StoreItem. apply run_get. cbv zeta.
  rewrite Eb, Ec, Hv. destruct (lookup_lt_is_Some_2 _ _ Hlt) as [tab Htab].
  assert (GetBankTab (Z.of_nat (end_tab s)) (guild (world b)) = Some tab) as ->.
  { unfold GetBankTab. fold (bank_tabs b). rewrite (proj2 (Z.ltb_lt _ _)) by lia. by rewrite Nat2Z.id. }
  eapply (wp_StoreItem_loop sh db T b p it); [done..|]. intros b' tr HB' Hfr. done.
Qed.

(** *** Where the reserved places are *)

Lemma dest_item_slot s p s' b :
  (end_tab s < length (bank_tabs b))%nat → 0 <= s' < GUILD_BANK_MAX_SLOTS →
  dest_item (Z.of_nat (end_tab s)) s' p (world b) =
    match slot (bank_tabs b) (end_tab s) s' with
    | Some d => if d =? p then None else items (world b) !! d
    | None => None
    end.
Proof. intros Ht Hs. unfold dest_item. by rewrite _GetItem_slot by (done || lia). Qed.

Lemma dest_item_count t p s' d b : bank_inv b → dest_item (Z.of_nat t) s' p (world b) = Some d → 0 <= GetCount d.
Proof.
  intros Hb. unfold dest_item, _GetItem, GetBankTab. destruct (_ <? _); [|done]. rewrite Nat2Z.id. cbn.
  destruct (m_bankTabs (guild (world b)) !! t) as [tab|] eqn:Ht; [|done]. cbn. unfold BankTab.GetItem.
  destruct (_ <? GUILD_BANK_MAX_SLOTS); [|done]. destruct (BankTab.m_items tab !! s') as [g|] eqn:Hg; [|done].
  destruct (g =? p); [done|]. intros Hd. destruct (bk_slots _ Hb t s' g) as (_ & it & Hit & Hok & _).
  { unfold slot, bank_tabs. by rewrite Ht. }
  rewrite Hd in Hit. injection Hit as <-. lia.
Qed.

Lemma vec_length (vec : list (Z * Z)) :
  NoDup vec.*1 → (∀ s c, (s, c) ∈ vec → 0 <= s < GUILD_BANK_MAX_SLOTS) → Z.of_nat (length vec) <= 98.
Proof.
  intros Hnd Hr. assert (vec.*1 ⊆+ seqZ 0 GUILD_BANK_MAX_SLOTS) as Hsub.
  { apply NoDup_submseteq; [done|]. intros s Hs. apply list_elem_of_fmap in Hs as ([s' c] & -> & Hin).
    apply elem_of_seqZ. specialize (Hr s' c Hin). cbn. unfold GUILD_BANK_MAX_SLOTS in *. lia. }
  apply submseteq_length in Hsub. rewrite length_fmap, length_seqZ in Hsub. unfold GUILD_BANK_MAX_SLOTS in Hsub. lia.
Qed.

(** The places are still good when the item has left its slot. *)
Lemma view_removed b b1 g it s c s' :
  bank_inv b → slot (bank_tabs b) tS sS = Some g → bank_tabs b1 = put tS sS None (bank_tabs b) →
  items (world b1) = items (world b) → (end_tab s < length (bank_tabs b))%nat → 0 <= s' < GUILD_BANK_MAX_SLOTS →
  fits_view it c (dest_item (Z.of_nat (end_tab s)) s' g (world b)) →
  fits it c (slot (bank_tabs b1) (end_tab s) s') b1.
Proof.
  intros Hb Hg Et Ei Hlt Hs' [Hc Hf]. split; [done|]. rewrite dest_item_slot in Hf by done.
  rewrite Et, slot_put by (by eapply slot_tab). case_decide as Hd.
  - destruct Hd as [Ed <-]. rewrite <- Ed, Hg, Z.eqb_refl in Hf. exact Hf.
  - destruct (slot (bank_tabs b) (end_tab s) s') as [d|] eqn:Esl; [|done].
    destruct (Z.eqb_spec d g) as [->|Hne].
    { by destruct Hd; apply (occ_two g _ _ _ _ _ Hg Esl), bk_once. }
    destruct (bk_slots _ Hb _ _ _ Esl) as (_ & itd & Hit & _). rewrite Hit in Hf. exists itd. by rewrite Ei.
Qed.

(** Or when its stack got smaller. *)
Lemma view_lessened b b1 g itg p it s c s' n :
  bank_inv b → items (world b) !! g = Some itg → bank_tabs b1 = bank_tabs b →
  items (world b1) = alter (λ it, it <| GetCount := GetCount itg - n |>) g (items (world b)) → 0 <= n →
  occ p (bank_tabs b) = 0 → (end_tab s < length (bank_tabs b))%nat → 0 <= s' < GUILD_BANK_MAX_SLOTS →
  fits_view it c (dest_item (Z.of_nat (end_tab s)) s' p (world b)) →
  fits it c (slot (bank_tabs b1) (end_tab s) s') b1.
Proof.
  intros Hb Hg L2 L1 Hn Ho Hlt Hs' [Hc Hf]. split; [done|]. rewrite dest_item_slot in Hf by done. rewrite L2.
  destruct (slot (bank_tabs b) (end_tab s) s') as [d|] eqn:Esl; [|done].
  destruct (Z.eqb_spec d p) as [->|Hne]; [by apply (occ_zero _ _ Ho) in Esl|].
  destruct (bk_slots _ Hb _ _ _ Esl) as (_ & itd & Hit & _). rewrite Hit in Hf. rewrite L1.
  destruct (decide (d = g)) as [->|Hdg].
  - rewrite lookup_alter_eq, Hit. eexists. split; [done|]. rewrite Hg in Hit. injection Hit as <-. cbn. split; [apply Hf|lia].
  - rewrite lookup_alter_ne by done. by exists itd.
Qed.

Lemma ends_vec s vec b : ends b → ends (vec_b s vec b).
Proof. intros He s'. specialize (He s'). by destruct s, s'. Qed.
Lemma same_world_vec s vec b : same_world b (vec_b s vec b).
Proof. by destruct s. Qed.

(** *** A move to a place that is free or has a stack to fill *)

Definition moved_ok (T : Z → Z) (b : BankWorld) (db : bank_db) (r : bool) (b' : BankWorld) (db' : bank_db) : Prop :=
  Bank sh db' T b' ∧ ends b' ∧
  (r = false → same_world b b' ∧ db' = db ∧ m_pItem (pSrc b') = m_pItem (pSrc b) ∧ m_pItem (pDest b') = m_pItem (pDest b)).

Lemma stored_back it T e : stored it (GetCount it) (λ e, T e - if GetEntry it =? e then GetCount it else 0) e = T e.
Proof. unfold stored. lia. Qed.

(** What is left of the move when the place is found: take, and put. *)
Lemma run_move_free (sendErr : bool) n p it g b db T Φ :
  ends b → Bank sh db T b → m_pItem (pSrc b) = Some g → is_Some (items (world b) !! g) → m_pItem (pDest b) = None →
  GetItem (negb (n =? 0)) (pSrc b) = Some p → items (world b) !! p = Some it → item_ok it →
  0 <= sD < GUILD_BANK_MAX_SLOTS →
  (∀ vec, Φ false (vec_b DEST vec b) db) →
  (∀ vec b2, NoDup vec.*1 → vec_sum vec = GetCount it →
     (∀ s c, (s, c) ∈ vec → 0 <= s < GUILD_BANK_MAX_SLOTS ∧
        fits_view it c (dest_item (Z.of_nat tD) s p (world b))) →
     Bank sh db T b2 → beside (vec_b DEST vec b) b2 →
     run (RemoveItem player SRC n) b2 db (λ _ b3 db3, run (StoreItem player DEST p) b3 db3 (λ _, Φ true))) →
  run (_DoItemsMove player sendErr n) b db Φ.
Proof.
  intros He HB Hg [itg Hitg] Hd Hp Hit Hok HsD Hno Hyes. pose proof (ba_inv _ _ _ _ HB) as Hb.
  unfold _DoItemsMove. apply run_get. cbv zeta. rewrite Hd. rewrite (bool_decide_eq_false_2 (is_Some None)) by (by intros []).
  eapply run_require; [exact Hp|]. apply (run_CanStore DEST p it false sendErr); [done..|]. intros msg vec HCS.
  destruct (He DEST) as (_ & Ec & Es). change (this DEST b) with (pDest b) in *. cbn [end_tab end_slot] in Ec, Es.
  pose proof (Bank_CanStore_reserved (pDest b) p it false (world b) Hok) as Hres. rewrite HCS, Ec, Es in Hres.
  specialize (Hres HsD (λ s d, dest_item_count tD p s d b Hb)).
  set (b1 := vec_b DEST vec b). pose proof (ends_vec DEST vec b He) as He1. fold b1 in He1.
  pose proof (Bank_same_world db T b b1 (same_world_vec _ _ _) HB) as HB1.
  destruct (Z.eqb_spec msg EQUIP_ERR_OK) as [Hmsg|]; cbn [negb]; [|by apply run_ret, Hno].
  destruct (Hres Hmsg) as ([_ Hsum Hnd Hfit] & _ & _). cbn [fst snd] in *. clear Hres HCS.
  apply run_bind, run_ret. cbn [negb]. apply (run_LogAction DEST g); [done|].
  apply run_bind, run_ret. apply run_bind. unfold count_of. eapply run_item; [done|]. apply run_ret.
  apply run_bind. eapply run_mono; [by apply (run_LogBankEvent DEST (GetCount it) g itg b1 db T)|].
  intros _ b2 db2 (-> & HB2 & Hbs). apply run_bind, run_ret.
  apply run_bind. eapply run_mono; [apply (Hyes vec b2 Hnd); [lia| |done..]|].
  - intros s c Hin. destruct (Hfit s c Hin) as [Hr Hf]. split; [done|]. unfold view_of in Hf. by rewrite Ec in Hf.
  - intros u3 b3 db3 Hrun. apply run_bind, run_ret. apply run_bind. eapply run_mono; [exact Hrun|].
    intros u4 b4 db4 HΦ. apply run_bind, run_ret, run_ret. exact HΦ.
Qed.

(** The ends after the item has been put. *)
Lemma ends_after b1 b2 b3 b4 p t S n :
  ends b1 → beside b1 b2 → same_ends b2 b3 → framed p t S n b3 b4 → ends b4.
Proof.
  intros He Hbs Hse Hfr. pose proof (same_ends_ends b2 b3 Hse (beside_ends b1 b2 Hbs He)) as He3.
  destruct (fr_ends _ _ _ _ _ _ Hfr) as [E1 E2]. intros []; cbn; rewrite ?E1, ?E2; [apply (He3 SRC)|apply (He3 DEST)].
Qed.

Lemma run_DoItemsMove_merge (sendErr : bool) g it b db T :
  ends b → Bank sh db T b → m_pItem (pSrc b) = Some g → m_pItem (pDest b) = None →
  items (world b) !! g = Some it → slot (bank_tabs b) tS sS = Some g → (tS < 6)%nat →
  (tD < length (bank_tabs b))%nat → 0 <= sD < GUILD_BANK_MAX_SLOTS → _hiItemGuid b + 98 <= 0xFFFFFFFE →
  run (_DoItemsMove player sendErr 0) b db (moved_ok T b db).
Proof.
  intros He HB Hg Hd Hit Hsl H6 HtD HsD Hhi. pose proof (ba_inv _ _ _ _ HB) as Hb.
  destruct (bk_slots _ Hb _ _ _ Hsl) as (_ & it' & Hit' & Hok). rewrite Hit in Hit'. injection Hit' as <-.
  eapply (run_move_free sendErr 0 g it g b db T); try done.
  { intros vec. split; [by apply (Bank_same_world db T b)|]. by split; [apply ends_vec|]. }
  intros vec b2 Hnd Hsum Hfit HB2 Hbs. pose proof (ends_vec DEST vec b He) as He1.
  pose proof (beside_ends _ b2 Hbs He1) as He2.
  pose proof (beside_this (vec_b DEST vec b) b2) as Hthis. pose proof Hbs as (Et2 & Ei2 & Eh2 & Es2 & Ed2).
  eapply run_mono; [apply (run_RemoveItem SRC g it b2 db T); try done|].
  { by rewrite (Hthis SRC Hbs). } { by rewrite Ei2. } { by rewrite Et2. }
  intros _ b3 db3 [HB3 [Hh Ri Rt Rh Rends _]].
  assert (m_vec (this DEST b3) = vec) as Hv3.
  { destruct (Rends DEST) as (_ & _ & _ & ->). by rewrite (Hthis DEST Hbs). }
  assert (length (bank_tabs b3) = length (bank_tabs b)) as Hl3 by (rewrite Rt, length_put, Et2; done).
  eapply run_mono; [apply (run_StoreItem DEST g it vec b3 db3 _ (same_ends_ends b2 b3 Rends He2) HB3 Hh Hv3 Hnd)|].
  - by rewrite Hl3.
  - intros s' c Hin. destruct (Hfit s' c Hin) as [Hr Hf]. split; [done|].
    apply (view_removed b b3 g it DEST); try done; [by rewrite Rt, Et2|by rewrite Ri, Ei2].
  - pose proof (vec_length vec Hnd (λ s c Hin, proj1 (Hfit s c Hin))). rewrite Rh, Eh2. cbn. lia.
  - intros _ b4 db4 [HB4 Hfr]. split; [|split; [|done]].
    + eapply Bank_total; [|exact HB4]. intros e. rewrite Hsum. apply stored_back.
    + exact (ends_after _ _ _ _ _ _ _ _ He1 Hbs Rends Hfr).
Qed.

(** *** A move of a part of a stack *)

Lemma run_DoItemsMove_split (sendErr : bool) n g itg p it b db T :
  ends b → Bank sh db T b → m_pItem (pSrc b) = Some g → m_pClonedItem (pSrc b) = Some p → m_pItem (pDest b) = None →
  items (world b) !! g = Some itg → slot (bank_tabs b) tS sS = Some g → (tS < 6)%nat →
  in_hand p it b → GetEntry it = GetEntry itg → GetCount it = n → 0 < n <= GetCount itg →
  (tD < length (bank_tabs b))%nat → 0 <= sD < GUILD_BANK_MAX_SLOTS → _hiItemGuid b + 98 <= 0xFFFFFFFE →
  run (_DoItemsMove player sendErr n) b db (moved_ok T b db).
Proof.
  intros He HB Hg Hcl Hd Hitg Hsl H6 Hp Hen Hcn Hn HtD HsD Hhi. pose proof (ba_inv _ _ _ _ HB) as Hb.
  pose proof (held_not_hand _ _ _ _ _ _ Hsl Hp) as Hgp.
  eapply (run_move_free sendErr n p it g b db T); try done.
  { destruct (Z.eqb_spec n 0); [lia|]. exact Hcl. } { apply Hp. } { apply Hp. }
  { intros vec. split; [by apply (Bank_same_world db T b)|]. by split; [apply ends_vec|]. }
  intros vec b2 Hnd Hsum Hfit HB2 Hbs. pose proof (ends_vec DEST vec b He) as He1.
  pose proof (beside_ends _ b2 Hbs He1) as He2.
  pose proof (beside_this (vec_b DEST vec b) b2) as Hthis. pose proof Hbs as (Et2 & Ei2 & Eh2 & Es2 & Ed2).
  eapply run_mono; [apply (run_RemoveItem_split SRC n g itg b2 db T); try done|].
  { by rewrite (Hthis SRC Hbs). } { by rewrite Ei2. } { by rewrite Et2. }
  intros _ b3 db3 [HB3 [Li Lt Lh Lends]].
  assert (m_vec (this DEST b3) = vec) as Hv3.
  { destruct (Lends DEST) as (_ & _ & _ & ->). by rewrite (Hthis DEST Hbs). }
  assert (length (bank_tabs b3) = length (bank_tabs b)) as Hl3 by (rewrite Lt, Et2; done).
  assert (in_hand p it b3) as Hp3.
  { destruct Hp as [P1 P2 P3]. split; [|done|by rewrite Lt, Et2]. by rewrite Li, lookup_alter_ne, Ei2. }
  eapply run_mono; [apply (run_StoreItem DEST p it vec b3 db3 _ (same_ends_ends b2 b3 Lends He2) HB3 Hp3 Hv3 Hnd)|].
  - by rewrite Hl3.
  - intros s' c Hin. destruct (Hfit s' c Hin) as [Hr Hf]. split; [done|].
    apply (view_lessened b b3 g itg p it DEST _ _ n); try done; [by rewrite Lt, Et2|by rewrite Li, Ei2|lia|apply Hp].
  - pose proof (vec_length vec Hnd (λ s c Hin, proj1 (Hfit s c Hin))). rewrite Lh, Eh2. cbn. lia.
  - intros _ b4 db4 [HB4 Hfr]. split; [|split; [|done]].
    + eapply Bank_total; [|exact HB4]. intros e. rewrite Hsum, Hcn. unfold stored. rewrite Hen. lia.
    + exact (ends_after _ _ _ _ _ _ _ _ He1 Hbs Lends Hfr).
Qed.

(** *** A swap *)

Lemma beside_trans b b1 b2 : beside b b1 → beside b1 b2 → beside b b2.
Proof. intros (A1 & A2 & A3 & A4 & A5) (B1 & B2 & B3 & B4 & B5). unfold beside. repeat split; congruence. Qed.
Lemma beside_vec s vec b : bank_tabs (vec_b s vec b) = bank_tabs b ∧ world (vec_b s vec b) = world b.
Proof. by destruct s. Qed.

(** The one place that a swap reserves. *)
Lemma CanStore_swap s p it b msg vec :
  ends b → item_ok it → bank_inv b → 0 <= end_slot s < GUILD_BANK_MAX_SLOTS →
  Bank_CanStore (this s b) p it true (world b) = (msg, vec) → msg = EQUIP_ERR_OK → vec = [(end_slot s, GetCount it)].
Proof.
  intros He Hok Hb Hs HCS Hmsg. destruct (He s) as (_ & Ec & Es).
  pose proof (Bank_CanStore_reserved (this s b) p it true (world b) Hok) as Hres.
  rewrite HCS, Ec, Es in Hres.
  by destruct (Hres Hs (λ s' d, dest_item_count (end_tab s) p s' d b Hb) Hmsg) as (_ & -> & _).
Qed.

Lemma run_move_swap (sendErr : bool) g itg d itd b db T Φ :
  ends b → Bank sh db T b → m_pItem (pSrc b) = Some g → m_pItem (pDest b) = Some d →
  items (world b) !! g = Some itg → items (world b) !! d = Some itd → item_ok itg → item_ok itd →
  0 <= sS < GUILD_BANK_MAX_SLOTS → 0 <= sD < GUILD_BANK_MAX_SLOTS →
  (∀ b', same_world b b' → ends b' → Φ false b' db) →
  (∀ b1 b2, same_world b b1 → beside b1 b2 → ends b2 → Bank sh db T b2 →
     m_pItem (pSrc b2) = Some g → m_pItem (pDest b2) = Some d →
     m_vec (pDest b2) = [(sD, GetCount itg)] → m_vec (pSrc b2) = [(sS, GetCount itd)] →
     run (RemoveItem player SRC 0) b2 db (λ _ b3 db3, run (RemoveItem player DEST 0) b3 db3 (λ _ b4 db4,
       run (StoreItem player DEST g) b4 db4 (λ _ b5 db5, run (StoreItem player SRC d) b5 db5 (λ _, Φ true))))) →
  run (_DoItemsMove player sendErr 0) b db Φ.
Proof.
  intros He HB Hg Hd Hitg Hitd Hokg Hokd HsS HsD Hno Hyes. pose proof (ba_inv _ _ _ _ HB) as Hb.
  unfold _DoItemsMove. apply run_get. cbv zeta. rewrite Hd. rewrite (bool_decide_eq_true_2 (is_Some (Some d))) by done.
  eapply run_require; [exact Hg|]. apply (run_CanStore DEST g itg true sendErr); [done..|]. intros msg vec HCS.
  set (b1 := vec_b DEST vec b). pose proof (same_world_vec DEST vec b) as Hsw1.
  pose proof (ends_vec DEST vec b He) as He1. fold b1 in He1, Hsw1.
  pose proof (Bank_same_world db T b b1 Hsw1 HB) as HB1.
  destruct (Z.eqb_spec msg EQUIP_ERR_OK) as [Hmsg|]; cbn [negb]; [|by apply run_ret, Hno].
  pose proof (CanStore_swap DEST g itg b msg vec He Hokg Hb HsD HCS Hmsg) as Hvec.
  apply (run_CanStore SRC d itd true true); [done..|]. intros msg' vec' HCS'.
  set (b2 := vec_b SRC vec' b1). pose proof (same_world_vec SRC vec' b1) as Hsw2.
  pose proof (ends_vec SRC vec' b1 He1) as He2. fold b2 in He2, Hsw2.
  pose proof (Bank_same_world db T b1 b2 Hsw2 HB1) as HB2.
  assert (same_world b b2) as Hsw by (destruct Hsw1, Hsw2; split; congruence).
  destruct (Z.eqb_spec msg' EQUIP_ERR_OK) as [Hmsg'|]; cbn [negb]; [|by apply run_ret, Hno].
  pose proof (CanStore_swap SRC d itd b1 msg' vec' He1 Hokd (ba_inv _ _ _ _ HB1) HsS HCS' Hmsg') as Hvec'.
  clear HCS HCS'. apply (run_LogAction DEST g); [done|]. cbn [when]. apply (run_LogAction SRC d); [done|].
  assert (items (world b2) = items (world b)) as Ei by (by destruct Hsw as [-> _]).
  apply run_bind. unfold count_of. eapply run_item; [by rewrite Ei|]. apply run_ret.
  apply run_bind. eapply run_mono; [apply (run_LogBankEvent DEST (GetCount itg) g itg b2 db T); try done; by rewrite Ei|].
  intros _ b3 db3 (-> & HB3 & Hbs3). pose proof (beside_ends b2 b3 Hbs3 He2) as He3.
  pose proof (beside_this b2 b3) as Hth3. assert (items (world b3) = items (world b)) as Ei3
    by (destruct Hbs3 as (_ & -> & _); done).
  apply run_bind, run_bind. unfold count_of. eapply run_item; [by rewrite Ei3|]. apply run_ret.
  eapply run_mono; [apply (run_LogBankEvent SRC (GetCount itd) d itd b3 db T); try done;
    [by rewrite Hth3|by rewrite Ei3]|].
  intros _ b4 db4 (-> & HB4 & Hbs4). pose proof (beside_trans _ _ _ Hbs3 Hbs4) as Hbs.
  destruct (proj2 (proj2 (proj2 Hbs))) as [ES ED].
  apply run_bind. eapply run_mono; [apply (Hyes b2 b4 Hsw Hbs (beside_ends b3 b4 Hbs4 He3) HB4)|].
  - by rewrite ES.
  - by rewrite ED.
  - by rewrite ED.
  - by rewrite ES.
  - intros u5 b5 db5 H5. apply run_bind. cbn [when]. eapply run_mono; [exact H5|]. intros u6 b6 db6 H6.
    apply run_bind. eapply run_mono; [exact H6|]. intros u7 b7 db7 H7.
    apply run_bind. eapply run_mono; [exact H7|]. intros u8 b8 db8 H8. by apply run_ret.
Qed.

(** An item in hand stays there while another leaves its slot. *)
Lemma removed_hand s d itd q itq b b' :
  removed s d itd b b' → is_Some (bank_tabs b !! end_tab s) → in_hand q itq b → in_hand q itq b'.
Proof.
  intros [_ Ri Rt _ _ _] Ht [Q1 Q2 Q3]. split; [by rewrite Ri|done|]. rewrite Rt, occ_put, Q3 by done.
  destruct (slot (bank_tabs b) (end_tab s) (end_slot s)) as [x|] eqn:Hx; cbn; [|done].
  destruct (Z.eqb_spec x q) as [->|]; [|done]. by apply (occ_zero _ _ Q3) in Hx.
Qed.

Lemma run_StoreItem_free s p it b db T :
  ends b → Bank sh db T b → in_hand p it b → m_vec (this s b) = [(end_slot s, GetCount it)] →
  (end_tab s < length (bank_tabs b))%nat → 0 <= end_slot s < GUILD_BANK_MAX_SLOTS →
  slot (bank_tabs b) (end_tab s) (end_slot s) = None → _hiItemGuid b + 1 <= 0xFFFFFFFE →
  run (StoreItem player s p) b db (λ _ b' db',
    Bank sh db' (stored it (GetCount it) T) b' ∧ framed p (end_tab s) [end_slot s] 1 b b').
Proof.
  intros He HB Hp Hv Ht Hs Hsl Hhi. destruct (ih_ok _ _ _ Hp) as [Hcnt _].
  eapply run_mono; [apply (run_StoreItem s p it _ b db T He HB Hp Hv); [apply NoDup_singleton|done| |done]|].
  - intros s' c [= -> ->]%list_elem_of_singleton. split; [done|]. rewrite Hsl. split; lia.
  - intros _ b' db' [HB' Hfr]. split; [|exact Hfr]. eapply Bank_total; [|exact HB'].
    intros e. unfold stored. cbn. destruct (_ =? e); lia.
Qed.

Lemma run_DoItemsMove_swap (sendErr : bool) g d b db T :
  ends b → Bank sh db T b → m_pItem (pSrc b) = Some g → m_pItem (pDest b) = Some d →
  slot (bank_tabs b) tS sS = Some g → slot (bank_tabs b) tD sD = Some d → (tS, sS) ≠ (tD, sD) →
  (tS < 6)%nat → (tD < 6)%nat → _hiItemGuid b + 2 <= 0xFFFFFFFE →
  run (_DoItemsMove player sendErr 0) b db (λ _ b' db', Bank sh db' T b' ∧ ends b').
Proof.
  intros He HB Hg Hd HsG HsDs Hne H6 H6' Hhi. pose proof (ba_inv _ _ _ _ HB) as Hb.
  destruct (bk_slots _ Hb _ _ _ HsG) as (HsS & itg & Hitg & Hokg). destruct (bk_slots _ Hb _ _ _ HsDs) as (HsD & itd & Hitd & Hokd).
  eapply (run_move_swap sendErr g itg d itd b db T); try done.
  { intros b' Hsw He'. split; [by apply (Bank_same_world db T b)|done]. }
  intros b1 b2 [Ew1 Eh1] (Et2 & Ei2 & Eh2 & ES2 & ED2) He2 HB2 Hg2 Hd2 HvD HvS.
  assert (bank_tabs b2 = bank_tabs b) as Et by (rewrite Et2; unfold bank_tabs; by rewrite Ew1).
  assert (items (world b2) = items (world b)) as Ei by (by rewrite Ei2, Ew1).
  pose proof (slot_tab _ _ _ _ HsG) as HtS. pose proof (slot_tab _ _ _ _ HsDs) as HtD.
  eapply run_mono; [apply (run_RemoveItem SRC g itg b2 db T); try done; [by rewrite Ei|by rewrite Et]|].
  intros _ b3 db3 [HB3 R3]. pose proof R3 as [Hh3 Ri3 Rt3 Rh3 Re3 Ro3]. cbn [end_tab end_slot] in Rt3.
  pose proof (same_ends_ends b2 b3 Re3 He2) as He3.
  eapply run_mono; [apply (run_RemoveItem DEST d itd b3 db3 _ He3 HB3); try done|].
  { etrans; [exact Ro3|exact Hd2]. } { by rewrite Ri3, Ei. }
  { rewrite Rt3, Et, slot_put by done. rewrite decide_False; [done|]. intros [E1 E2]. apply Hne. by rewrite E1, E2. }
  intros _ b4 db4 [HB4 R4]. pose proof R4 as [Hh4 Ri4 Rt4 Rh4 Re4 Ro4]. cbn [end_tab end_slot] in Rt4.
  pose proof (same_ends_ends b3 b4 Re4 He3) as He4.
  assert (is_Some (bank_tabs b3 !! tS)) as HtS3 by (by rewrite Rt3, put_tabs, Et).
  assert (is_Some (bank_tabs b3 !! tD)) as HtD3 by (by rewrite Rt3, put_tabs, Et).
  assert (is_Some (bank_tabs b4 !! tS)) as HtS4 by (by rewrite Rt4, put_tabs).
  assert (is_Some (bank_tabs b4 !! tD)) as HtD4 by (by rewrite Rt4, put_tabs).
  assert (in_hand g itg b4) as Hg4 by (eapply removed_hand; [exact R4|done|done]).
  eapply run_mono; [apply (run_StoreItem_free DEST g itg b4 db4 _ He4 HB4 Hg4); try done|].
  { destruct (Re4 DEST) as (_ & _ & _ & ->). destruct (Re3 DEST) as (_ & _ & _ & ->). exact HvD. }
  { by apply lookup_lt_is_Some. }
  { cbn [end_tab end_slot]. rewrite Rt4, slot_put by done. by rewrite decide_True. }
  { rewrite Rh4, Rh3, Eh2, Eh1. lia. }
  intros _ b5 db5 [HB5 F5]. destruct (fr_ends _ _ _ _ _ _ F5) as [ES5 ED5]. cbn [end_tab end_slot] in F5.
  assert (ends b5) as He5 by (intros []; cbn; rewrite ?ES5, ?ED5; [apply (He4 SRC)|apply (He4 DEST)]).
  assert (d ≠ g) as Hdg by (intros ->; destruct (occ_two g _ _ _ _ _ HsG HsDs (bk_once _ Hb g)) as [E1 E2]; apply Hne; by rewrite E1, E2).
  pose proof (fr_hand _ _ _ _ _ _ F5 d itd Hdg Hh4) as Hd5.
  eapply run_mono; [apply (run_StoreItem_free SRC d itd b5 db5 _ He5 HB5 Hd5); try done|].
  { cbn [this]. rewrite ES5. destruct (Re4 SRC) as (_ & _ & _ & E4). destruct (Re3 SRC) as (_ & _ & _ & E3).
    cbn [this] in E3, E4. rewrite E4, E3. exact HvS. }
  { rewrite (fr_tabs _ _ _ _ _ _ F5). by apply lookup_lt_is_Some. }
  { cbn [end_tab end_slot]. rewrite (fr_slot _ _ _ _ _ _ F5), Rt4, slot_put by (done || (clear - Hne;
      destruct (decide (tS = tD)) as [E|]; [right; intros E'%list_elem_of_singleton; apply Hne; by rewrite E, E'|by left])).
    rewrite decide_False by (intros [E1 E2]; apply Hne; by rewrite E1, E2). rewrite Rt3, Et, slot_put by done. by rewrite decide_True. }
  { pose proof (fr_guids _ _ _ _ _ _ F5). rewrite Rh4, Rh3, Eh2, Eh1 in *. lia. }
  intros _ b6 db6 [HB6 F6]. destruct (fr_ends _ _ _ _ _ _ F6) as [ES6 ED6]. split.
  - eapply Bank_total; [|exact HB6]. intros e. unfold stored. lia.
  - intros []; cbn; rewrite ?ES6, ?ED6; [apply (He5 SRC)|apply (He5 DEST)].
Qed.

(** *** The whole move *)

Definition item_b (s : side) (o : option Z) (b : BankWorld) : BankWorld :=
  match s with
  | SRC => b <| pSrc ::= λ m, m <| m_pItem := o |> |>
  | DEST => b <| pDest ::= λ m, m <| m_pItem := o |> |>
  end.
Lemma same_world_item s o b : same_world b (item_b s o b).
Proof. by destruct s. Qed.
Lemma ends_item s o b : ends b → ends (item_b s o b).
Proof. intros He s'. specialize (He s'). by destruct s, s'. Qed.

Lemma run_InitItem {B} s b db (k : bool → bact B) Φ :
  ends b → (end_tab s < length (bank_tabs b))%nat → 0 <= end_slot s < GUILD_BANK_MAX_SLOTS →
  (let o := slot (bank_tabs b) (end_tab s) (end_slot s) in
   run (k (bool_decide (is_Some o))) (item_b s o b) db Φ) →
  run (InitItem player s ≫= k) b db Φ.
Proof.
  intros He Ht Hs Hk. destruct (He s) as (Eb & Ec & Es). apply run_bind. unfold InitItem. apply run_get. cbv zeta.
  rewrite Eb, Ec, Es, _GetItem_slot by (done || lia). unfold on_this. apply run_modify, run_ret. exact Hk.
Qed.

Lemma run_SendBankContentUpdate b db T :
  ends b → Bank sh db T b → run _SendBankContentUpdate b db (λ _ b' db', db' = db ∧ Bank sh db T b').
Proof.
  intros He HB. unfold _SendBankContentUpdate. apply run_get. cbv zeta.
  destruct (He SRC) as (E1 & _). destruct (He DEST) as (E2 & _). cbn [this] in E1, E2. rewrite E1, E2.
  assert (∀ b tab slots, Bank sh db T b → run (in_world (_SendBankContentUpdate_tab tab slots)) b db
    (λ _ b' db', db' = db ∧ Bank sh db T b')) as Hsend.
  { intros b0 tab slots HB0. eapply run_mono; [apply (run_calm _ b0 db T); [|apply hush_SendBankList|done]|].
    - apply keeps_SendBankList.
    - intros u b' db' (-> & HB' & _). done. }
  destruct (_ =? _) eqn:Ec; [by apply Hsend|]. apply run_bind. eapply run_mono; [by apply Hsend|].
  intros u b' db' [-> HB']. by apply Hsend.
Qed.

(** The split part: what it may be, and its item. *)
Lemma run_CheckItem {B} s g it n b db (k : option Z → bact B) Φ :
  m_pItem (this s b) = Some g → items (world b) !! g = Some it → 0 <= n →
  run (k None) b db Φ → (∀ n', 0 <= n' → n' <> 0 → n' < GetCount it → run (k (Some n')) b db Φ) →
  run (k (Some 0)) b db Φ → run (CheckItem s n ≫= k) b db Φ.
Proof.
  intros Hg Hit Hn HkN HkS Hk0. apply run_bind. unfold CheckItem. apply run_get. rewrite Hg. eapply run_item; [done|].
  destruct (Z.ltb_spec (GetCount it) n); apply run_ret; [done|].
  destruct (Z.eqb_spec n (GetCount it)); [done|]. destruct (Z.eq_dec n 0) as [->|]; [done|]. apply HkS; lia.
Qed.

Lemma run_CloneItem {B} g it n b db T (k : bool → bact B) Φ :
  ends b → Bank sh db T b → m_pItem (pSrc b) = Some g → items (world b) !! g = Some it → item_ok it →
  0 < n < GetCount it → _hiItemGuid b < 0xFFFFFFFE →
  (∀ b' p itp, ends b' → Bank sh db T b' → in_hand p itp b' → GetEntry itp = GetEntry it → GetCount itp = n →
     m_pItem (pSrc b') = Some g → m_pClonedItem (pSrc b') = Some p → m_pItem (pDest b') = m_pItem (pDest b) →
     bank_tabs b' = bank_tabs b → items (world b') !! g = Some it → _hiItemGuid b' = _hiItemGuid b + 1 →
     run (k true) b' db Φ) →
  run (CloneItem player SRC n ≫= k) b db Φ.
Proof.
  intros He HB Hg Hit Hok Hn Hhi Hk. apply run_bind. unfold CloneItem. apply run_get. cbn [this]. rewrite Hg.
  apply run_bind. eapply (wp_Item_CloneItem sh db T b g it n); [done..|destruct Hok; lia|done|lia|].
  intros charges b1 p _ HB1 Hp Hpok Hocc. cbn [exec_books foldl]. unfold on_this. apply run_modify, run_ret.
  set (b2 := b1 <| pSrc ::= λ m, m <| m_pClonedItem := Some p |> |>).
  assert (same_world b1 b2) as Hsw by done.
  apply (Hk b2 p (cloned_item it n charges)); try done.
  - intros s. specialize (He s). by destruct s.
  - by apply (Bank_same_world db T b1 b2).
  - change (items (world b1) !! g = Some it). subst b1. cbn. rewrite lookup_insert_ne; [done|].
    intros <-. pose proof (bk_fresh _ (ba_inv _ _ _ _ HB) _ (mk_is_Some _ _ Hit)). lia.
Qed.

Lemma run_MoveItems n b db T :
  ends b → Bank sh db T b → m_pItem (pDest b) = None → (tS, sS) ≠ (tD, sD) →
  (tS < length (bank_tabs b))%nat → (tD < length (bank_tabs b))%nat →
  0 <= sS < GUILD_BANK_MAX_SLOTS → 0 <= sD < GUILD_BANK_MAX_SLOTS → 0 <= n →
  _hiItemGuid b + 99 <= 0xFFFFFFFE →
  run (_MoveItems player n) b db (λ _ b' db', Bank sh db' T b').
Proof.
  intros He HB HdN Hne HtS HtD HsS HsD Hn Hhi. pose proof (ba_inv _ _ _ _ HB) as Hb.
  destruct (gi_tabs _ (proj1 (ba_guild _ _ _ _ HB))) as [Hlen _]. fold (bank_tabs b) in Hlen.
  unfold _MoveItems. apply (run_InitItem SRC); [done..|]. cbn [end_tab end_slot]. cbv zeta.
  destruct (slot (bank_tabs b) tS sS) as [g|] eqn:Hsl.
  2: { rewrite bool_decide_eq_false_2 by (by intros []). apply run_ret. by apply (Bank_same_world db T b). }
  rewrite bool_decide_eq_true_2 by done. cbn [negb].
  destruct (bk_slots _ Hb _ _ _ Hsl) as (_ & it & Hit & Hok).
  set (b1 := item_b SRC (Some g) b). pose proof (ends_item SRC (Some g) b He) as He1. fold b1 in He1.
  pose proof (Bank_same_world db T b b1 (same_world_item _ _ _) HB) as HB1.
  apply (run_CheckItem SRC g it n); [done..| | |].
  - by apply run_ret.
  - intros n' Hn0 Hn1 Hn2. apply run_get. destruct (negb (HasStoreRights _ _ _)); [by apply run_ret|].
    destruct (negb (HasWithdrawRights _ _ _)); [by apply run_ret|]. rewrite (proj2 (Z.eqb_neq n' 0)) by done. cbn [negb].
    apply (run_CloneItem g it n' b1 db T); try done; [lia|cbn; lia|].
    intros b2 p itp He2 HB2 Hp Hen Hcn Hg2 Hp2 Hd2 Et2 Hit2 Eh2. cbn [negb].
    apply run_bind. eapply run_mono; [apply (run_DoItemsMove_split true n' g it p itp b2 db T)|]; try done.
    + by rewrite Hd2.
    + by rewrite Et2.
    + lia.
    + lia.
    + by rewrite Et2.
    + rewrite Eh2. cbn. lia.
    + intros r b3 db3 (HB3 & He3 & _). eapply run_mono; [by apply (run_SendBankContentUpdate b3 db3 T)|].
      by intros u b' db' [-> HB'].
  - apply run_get. destruct (negb (HasStoreRights _ _ _)); [by apply run_ret|].
    destruct (negb (HasWithdrawRights _ _ _)); [by apply run_ret|]. cbn [negb Z.eqb].
    apply run_bind. eapply run_mono; [apply (run_DoItemsMove_merge false g it b1 db T)|]; try done; [lia|cbn; lia|].
    intros r b2 db2 (HB2 & He2 & Hfail). destruct r.
    { eapply run_mono; [by apply (run_SendBankContentUpdate b2 db2 T)|]. by intros u b' db' [-> HB']. }
    destruct (Hfail eq_refl) as ([Ew2 Eh2] & -> & Hg2 & Hd2).
    assert (bank_tabs b2 = bank_tabs b) as Et2 by (unfold bank_tabs; by rewrite Ew2).
    apply (run_InitItem DEST); [done|by rewrite Et2|done|]. cbn [end_tab end_slot]. cbv zeta. rewrite Et2.
    destruct (slot (bank_tabs b) tD sD) as [d|] eqn:Hsl'.
    2: { rewrite bool_decide_eq_false_2 by (by intros []). apply run_ret. by apply (Bank_same_world db T b2). }
    rewrite bool_decide_eq_true_2 by done. cbn [negb].
    set (b3 := item_b DEST (Some d) b2). pose proof (ends_item DEST (Some d) b2 He2) as He3. fold b3 in He3.
    pose proof (Bank_same_world db T b2 b3 (same_world_item _ _ _) HB2) as HB3.
    apply run_get. destruct (negb (HasStoreRights _ _ _)); [by apply run_ret|].
    destruct (negb (HasWithdrawRights _ _ _)); [by apply run_ret|].
    apply run_bind. eapply run_mono; [apply (run_DoItemsMove_swap true g d b3 db T)|]; try done.
    + change (bank_tabs b3) with (bank_tabs b2). by rewrite Et2.
    + change (bank_tabs b3) with (bank_tabs b2). by rewrite Et2.
    + lia.
    + lia.
    + change (_hiItemGuid b3) with (_hiItemGuid b2). rewrite Eh2. cbn. lia.
    + intros r b4 db4 [HB4 He4]. eapply run_mono; [by apply (run_SendBankContentUpdate b4 db4 T)|].
      by intros u b' db' [-> HB'].
Qed.
End Steps.

Lemma Bank_self `{BankEnv} db b :
  guild_inv (world b) → bank_inv b → synced db b → Bank (shape_of (world b)) db (λ e, total e b) b.
Proof. by split. Qed.

Lemma tab_purchased g i : tabs_ok (m_bankTabs g) → 0 <= i → _GetPurchasedTabsSize g <=? i = false → (Z.to_nat i < length (m_bankTabs g))%nat.
Proof. intros [Hl _] Hi E%Z.leb_gt. unfold _GetPurchasedTabsSize in E. rewrite wrapu_id in E by lia. lia. Qed.

(** What moving an item to another tab takes. *)
Definition may_move (player tabId destTabId : Z) (g : Guild) : bool :=
  _MemberHasTabRights player destTabId GUILD_BANK_RIGHT_DEPOSIT_ITEM g &&
  match GetMember player g with
  | Some member => negb (_GetMemberRemainingSlots member tabId g =? 0)
  | None => false
  end.

Lemma _GetItem_held `{BankEnv} b tabId slotId g :
  bank_inv b → _GetItem tabId slotId (world b) = Some g → ∃ it, items (world b) !! g = Some it.
Proof.
  intros Hb. unfold _GetItem, GetBankTab. destruct (_ <? _); [|done].
  destruct (m_bankTabs (guild (world b)) !! Z.to_nat tabId) as [tab|] eqn:Ht; [|done]. cbn. unfold BankTab.GetItem.
  destruct (_ <? _); [|done]. intros Hg. destruct (bk_slots _ Hb (Z.to_nat tabId) slotId g) as (_ & it & Hit & _); [|by eexists].
  unfold slot, bank_tabs. by rewrite Ht.
Qed.

(** ** A bank

    Ann has bought two tabs; in the first there are two stacks of linen, in the
    second a sword. *)

Definition tabs_bought (w : GuildWorld) : GuildWorld :=
  rstate (HandleBuyBankTab 10 1 (rstate (HandleBuyBankTab 10 0 w))).
(** Tabs can be bought by the guild master. *)
Lemma tab_bought tabId w :
  guild_inv w → 10 ∈ dom (players w) → m_bankTabs (guild (rstate (HandleBuyBankTab 10 tabId w))) ≠ [] →
  guild_inv (rstate (HandleBuyBankTab 10 tabId w)) ∧ 10 ∈ dom (players (rstate (HandleBuyBankTab 10 tabId w))).
Proof.
  intros Hw Hd Hne. pose proof (wp_HandleBuyBankTab 10 tabId w Hw Hd) as Hb. apply wp_rstate in Hb as (_ & _ & Ho & _).
  rewrite (oc_online _ _ _ Ho). split; [|done]. by destruct (oc_ends _ _ _ Ho) as [Hi|(_ & E & _)].
Qed.

#[export] Instance bank_env0 : BankEnv := {|
  bank_guild_env := guild_env0;
  GetItemTemplate := λ entry, if entry =? 2589 then Some (20, 0) else if entry =? 25 then Some (1, 0) else None;
  GetItemByPos := λ _ _ _, None;
  IsNotEmptyBag := λ _, false;
  CanBeTraded := λ _, true;
  Player_CanStoreItem := λ _ _ _ _ _, (EQUIP_ERR_BANK_FULL, []) |}.

Definition stack_of (entry count stackable : Z) : Item := mkItem entry count stackable false 0 0 0 (replicate 12 0).
Definition items0 : gmap Z Item :=
  {[ 100 := stack_of 2589 15 20; 101 := stack_of 2589 12 20; 102 := stack_of 25 1 1 ]}.
Definition bank_empty : BankWorld :=
  mkBankWorld ((tabs_bought guild0) <| items := items0 |>) 200 (new_BankMoveItemData 0 0) (new_BankMoveItemData 0 0).
Definition bank0 : BankWorld := put_b 1 3 (Some 102) (put_b 0 5 (Some 101) (put_b 0 0 (Some 100) bank_empty)).
Definition stored_at (tab slotId g : Z) (it : Item) : list guild_event :=
  [CHAR_DEL_GUILD_BANK_ITEM 7 tab slotId; CHAR_INS_GUILD_BANK_ITEM 7 tab slotId g; ItemSaveToDB g it].
Definition bank_db0 : bank_db :=
  exec_books (stored_at 1 3 102 (stack_of 25 1 1))
    (exec_books (stored_at 0 5 101 (stack_of 2589 12 20))
      (exec_books (stored_at 0 0 100 (stack_of 2589 15 20)) (∅, ∅))).
Definition slots_of (b : BankWorld) : list (list (Z * option (Z * Z))) :=
  (λ tab, (λ sg, (sg.1, (λ it, (GetEntry it, GetCount it)) <$> items (world b) !! sg.2)) <$> map_to_list (BankTab.m_items tab))
    <$> bank_tabs b.

Example bank0_slots : slots_of bank0 = [[(5, Some (2589, 12)); (0, Some (2589, 15))]; [(3, Some (25, 1))]].
Proof. vm_compute. reflexivity. Qed.
(** Onto the other stack: eight of fifteen fit there, the rest goes back. *)
Example merged : slots_of (rstate (SwapItems 10 0 0 0 5 0 bank0)) = [[(5, Some (2589, 20)); (0, Some (2589, 7))]; [(3, Some (25, 1))]].
Proof. vm_compute. reflexivity. Qed.
Example swapped : slots_of (rstate (SwapItems 10 0 0 1 3 0 bank0)) = [[(5, Some (2589, 12)); (0, Some (25, 1))]; [(3, Some (2589, 15))]].
Proof. vm_compute. reflexivity. Qed.
Example split_off : slots_of (rstate (SwapItems 10 0 0 1 9 4 bank0)) =
  [[(5, Some (2589, 12)); (0, Some (2589, 11))]; [(9, Some (2589, 4)); (3, Some (25, 1))]].
Proof. vm_compute. reflexivity. Qed.

Lemma inv_with_items w its : guild_inv w → guild_inv (w <| items := its |>).
Proof. destruct w as [g ps its0]. exact (inv_core g g ps its0 its eq_refl). Qed.

Lemma bank_empty_ok : Bank (shape_of (world bank_empty)) (∅, ∅) (λ _, 0) bank_empty.
Proof.
  destruct (tab_bought 0 guild0 (proj1 (proj1 guild0_good)) (guild0_online 10 ltac:(clear; set_solver)))
    as [H1 D1]; [by vm_compute|].
  destruct (tab_bought 1 _ H1 D1) as [H2 _]; [by vm_compute|].
  fold (tabs_bought guild0) in H2. apply (inv_with_items _ items0) in H2.
  assert (BankTab.m_items <$> bank_tabs bank_empty = [∅; ∅]) as Et by (vm_compute; reflexivity).
  assert (∀ t s, slot (bank_tabs bank_empty) t s = None) as Hsl.
  { intros t s. unfold slot. pose proof (f_equal (.!! t) Et) as El. cbv beta in El. rewrite list_lookup_fmap in El.
    destruct (bank_tabs bank_empty !! t) as [tab|]; [|done]. cbn in *. destruct t as [|[|t]]; cbn in El; [..|done];
      apply (inj Some) in El; rewrite El; apply lookup_empty. }
  split.
  - split; [|reflexivity]. exact H2.
  - split.
    + intros t s g. by rewrite Hsl.
    + intros g. rewrite occ_not_in; [done|]. intros t s. by rewrite Hsl.
    + intros g [it Hg]. change (items0 !! g = Some it) in Hg. change (_hiItemGuid bank_empty) with 200.
      unfold items0 in Hg. repeat (apply lookup_insert_Some in Hg as [[<- _]|[_ Hg]]; [lia|]).
      apply lookup_singleton_Some in Hg as [<- _]. lia.
  - split; [|intros t s g; by rewrite Hsl]. intros t s _. rewrite Hsl. apply lookup_empty.
  - intros e. unfold total. rewrite (sum_tabs_ext _ (λ _, 0)); [apply sum_tabs_zero|]. intros t s g. by rewrite Hsl.
Qed.

Lemma bank0_ok : guild_inv (world bank0) ∧ bank_inv bank0 ∧ synced bank_db0 bank0 ∧ total 2589 bank0 = 27.
Proof.
  assert (∀ entry c m, 0 < c <= m → (entry = 2589 ∧ m = 20) ∨ (entry = 25 ∧ m = 1) → item_ok (stack_of entry c m)) as Hok.
  { intros entry c m Hc [[-> ->]|[-> ->]]; (split; [|by eexists]).
    - change (0 <= c <= 20). lia.
    - change (0 <= c <= 1). lia. }
  pose proof (Bank_store _ _ _ bank_empty 0 0 100 (stack_of 2589 15 20) 7 7 bank_empty_ok) as S1.
  specialize (S1 ltac:(vm_compute; lia) ltac:(unfold GUILD_BANK_MAX_SLOTS; lia) ltac:(vm_compute; reflexivity)
    ltac:(vm_compute; reflexivity) (Hok 2589 15 20 ltac:(lia) ltac:(lia)) ltac:(vm_compute; reflexivity)).
  pose proof (Bank_store _ _ _ _ 0 5 101 (stack_of 2589 12 20) 7 7 S1) as S2.
  specialize (S2 ltac:(vm_compute; lia) ltac:(unfold GUILD_BANK_MAX_SLOTS; lia) ltac:(vm_compute; reflexivity)
    ltac:(vm_compute; reflexivity) (Hok 2589 12 20 ltac:(lia) ltac:(lia)) ltac:(vm_compute; reflexivity)).
  pose proof (Bank_store _ _ _ _ 1 3 102 (stack_of 25 1 1) 7 7 S2) as S3.
  specialize (S3 ltac:(vm_compute; lia) ltac:(unfold GUILD_BANK_MAX_SLOTS; lia) ltac:(vm_compute; reflexivity)
    ltac:(vm_compute; reflexivity) (Hok 25 1 1 ltac:(lia) ltac:(lia)) ltac:(vm_compute; reflexivity)).
  destruct S3 as [[Hi _] Hb Hs HT]. split; [exact Hi|]. split; [exact Hb|]. split; [exact Hs|].
  etrans; [exact (HT 2589)|reflexivity].
Qed.

(** ** The rules of the guild through every move

    Also through those between the bank and an inventory, whatever the inventory
    answers.  What a move may run into there is not excluded: [stays]. *)

Section Rules.
Context `{BankEnv, !GuildLaws} (player : Z) (sh : shape).
Definition ruled (b : BankWorld) : Prop := inv_at sh (world b).

Lemma stays_keeps {S E A} (I : S → Prop) (m : act S E A) : keeps I m → stays I m.
Proof. intros Hm s Hs. specialize (Hm s Hs). unfold wp, wlp in *. by destruct (m s). Qed.
Lemma stays_in_world {A} (op : gact A) : stays (inv_at sh) op → stays ruled (in_world op).
Proof.
  intros Hop b Hb. specialize (Hop (world b) Hb). unfold wlp, in_world, zoom in *. by destruct (op (world b)).
Qed.
Lemma ruled_on_this s f : stays ruled (on_this s f).
Proof. apply stays_modify. by destruct s. Qed.
Lemma ruled_items f b : ruled b → ruled (items_b f b).
Proof. apply inv_items. Qed.
Lemma ruled_SetCount g n : stays ruled (SetCount g n).
Proof. apply stays_modify. intros b. apply (ruled_items (alter _ g)). Qed.
Lemma ruled_hiGuid b n : ruled b → ruled (b <| _hiItemGuid := n |>).
Proof. done. Qed.
Lemma ruled_item_at g : stays ruled (item_at g).
Proof. unfold item_at. stays_auto. Qed.
Hint Resolve ruled_on_this ruled_SetCount ruled_item_at : stays.
Lemma ruled_save_item g : stays ruled (save_item g).
Proof. unfold save_item. stays_auto. Qed.
Lemma ruled_count_of g : stays ruled (count_of g).
Proof. unfold count_of. stays_auto. Qed.
Lemma ruled_Item_CloneItem g n : stays ruled (Item_CloneItem g n).
Proof.
  unfold Item_CloneItem, GenerateLowGuid. cbv zeta.
  stays_auto; apply stays_modify; intros b Hb; [by apply ruled_hiGuid|by apply (ruled_items (insert _ _))].
Qed.
Hint Resolve ruled_save_item ruled_count_of ruled_Item_CloneItem : stays.
Section Partial.
Context {S E : Type}.
Lemma wlp_bind {A B} (m : act S E A) (f : A → act S E B) Q s :
  wlp m (λ a s1 t1, wlp (f a) (λ b s2 t2, Q b s2 (t1 ++ t2)) s1) s → wlp (m ≫= f) Q s.
Proof. unfold wlp, mbind, act_bind. destruct (m s) as [a s1 t1|]; [|done]. by destruct (f a s1). Qed.
Lemma wlp_require {A} (o : option A) (Q : A → S → list E → Prop) s :
  (∀ a, o = Some a → Q a s []) → wlp (require o) Q s.
Proof. destruct o; [intros HQ; by apply HQ|done]. Qed.
Lemma wlp_stays {A} (I : S → Prop) (m : act S E A) s : stays I m → I s → wlp m (λ _ s' _, I s') s.
Proof. auto. Qed.
End Partial.
Lemma ruled_SetItem t s o : stays ruled (SetItem t s o).
Proof.
  unfold SetItem. destruct (_ <=? s); [apply stays_ret|]. intros b Hb.
  apply wlp_bind. cbv beta iota delta [wlp get].
  apply (wlp_bind (require _)), wlp_require. intros tab Ht. apply wlp_bind. cbv beta iota delta [wlp modify].
  pose proof (put_b_eq (Z.to_nat t) s o b tab Ht) as E.
  match goal with |- context [?k (_ <| world ::= _ |>)] =>
    apply (wlp_stays ruled k); [stays_auto|] end.
  unfold ruled. rewrite E. by apply inv_put.
Qed.
Hint Resolve ruled_SetItem : stays.
Lemma ruled_RemoveItem_at t s : stays ruled (_RemoveItem t s).
Proof. unfold _RemoveItem. stays_auto. Qed.
Lemma ruled_withdraw_slots g t : stays ruled (in_world (_UpdateMemberWithdrawSlots g t)).
Proof.
  apply stays_in_world. destruct (Z.le_gt_cases t GUILD_BANK_MAX_TABS) as [Ht|Ht];
    [by apply stays_keeps, keeps_UpdateMemberWithdrawSlots|].
  unfold _UpdateMemberWithdrawSlots. stays_auto. intros w Hw. unfold wlp, at_member.
  destruct (m_members _ !! _); [|done]. unfold zoom, Member.UpdateBankWithdrawValue.
  by rewrite (proj2 (Z.ltb_lt _ _)) by done.
Qed.
Lemma ruled_log e t g i n d : stays ruled (in_world (_LogBankEvent e t g i n d)).
Proof. apply stays_in_world, stays_keeps, keeps_LogBankEvent. Qed.
Lemma ruled_send_list t slots : stays ruled (in_world (_SendBankContentUpdate_tab t slots)).
Proof. apply stays_in_world, stays_keeps, keeps_SendBankList. Qed.
Hint Resolve ruled_RemoveItem_at ruled_withdraw_slots ruled_log ruled_send_list : stays.
Lemma ruled_InitItem s : stays ruled (InitItem player s).
Proof. unfold InitItem. cbv zeta. stays_auto. Qed.
Lemma ruled_CheckItem s n : stays ruled (CheckItem s n).
Proof. unfold CheckItem. stays_auto. Qed.
Lemma ruled_CloneItem s n : stays ruled (CloneItem player s n).
Proof. unfold CloneItem. stays_auto. Qed.
Lemma ruled_CanStore s p swap err : stays ruled (CanStore player s p swap err).
Proof. unfold CanStore. cbv zeta. stays_auto. Qed.
Lemma ruled_LogAction s : stays ruled (LogAction player s).
Proof. unfold LogAction. cbv zeta. stays_auto. Qed.
Lemma ruled_MoveLog s n : stays ruled (LogBankEvent player s n).
Proof.
  unfold LogBankEvent. cbv zeta. stays_auto.
  apply stays_in_world, stays_keeps. repeat (case_match; try apply keeps_LogBankEvent).
Qed.
Lemma ruled_RemoveItem s n : stays ruled (RemoveItem player s n).
Proof. unfold RemoveItem. cbv zeta. stays_auto. Qed.
Lemma ruled_StoreItem_at t p pos clone : stays ruled (_StoreItem t p pos clone).
Proof. unfold _StoreItem. cbv zeta. stays_auto. apply stays_modify. intros b. apply (ruled_items (delete p)). Qed.
Hint Resolve ruled_InitItem ruled_CheckItem ruled_CloneItem ruled_CanStore ruled_LogAction ruled_MoveLog
  ruled_RemoveItem ruled_StoreItem_at : stays.
Lemma ruled_StoreItem_loop t p vec : stays ruled (StoreItem_loop t p vec).
Proof. induction vec as [|pos vec IH]; cbn [StoreItem_loop]; stays_auto. Qed.
Hint Resolve ruled_StoreItem_loop : stays.
Lemma ruled_StoreItem s p : stays ruled (StoreItem player s p).
Proof. unfold StoreItem. cbv zeta. stays_auto. Qed.
Hint Resolve ruled_StoreItem : stays.
Lemma ruled_DoItemsMove err n : stays ruled (_DoItemsMove player err n).
Proof. unfold _DoItemsMove. cbv zeta. stays_auto. Qed.
Lemma ruled_content_update : stays ruled _SendBankContentUpdate.
Proof. unfold _SendBankContentUpdate. cbv zeta. stays_auto. Qed.
Hint Resolve ruled_DoItemsMove ruled_content_update : stays.
Lemma ruled_MoveItems n : stays ruled (_MoveItems player n).
Proof. unfold _MoveItems. cbv zeta. stays_auto. Qed.
Lemma ruled_with_ends src dest op : stays ruled op → stays ruled (with_ends src dest op).
Proof. intros Hop. apply stays_bind; [by apply stays_modify|done]. Qed.
End Rules.

(** ** The theorems *)

(** C18: Items move, they are not made.  Whatever a player asks to move within
    the bank - a whole stack to a free slot, onto a stack of the same kind, over
    several stacks, a part of a stack, two stacks swapped, with or without the
    rights - the bank holds as many items of every kind afterwards as before,
    every stack is within its size and in one slot only, and the statements
    executed on the tables of the slots and of the items leave in them just what
    is in memory. *)
Theorem bank_conserves `{BankEnv, !GuildLaws} player tabId slotId destTabId destSlotId n db b :
  guild_inv (world b) → bank_inv b → synced db b → _hiItemGuid b + 99 <= 0xFFFFFFFE →
  0 <= tabId → 0 <= slotId → 0 <= destTabId → 0 <= destSlotId → 0 <= n →
  wp (SwapItems player tabId slotId destTabId destSlotId n) (λ _ b' t,
    guild_inv (world b') ∧ bank_inv b' ∧ synced (exec_books t db) b' ∧ ∀ e, total e b' = total e b) b.
Proof.
  intros Hw Hb Hs Hhi H1 H2 H3 H4 H5. pose proof (Bank_self db b Hw Hb Hs) as HB.
  change (run (SwapItems player tabId slotId destTabId destSlotId n) b db (λ _ b' db',
    guild_inv (world b') ∧ bank_inv b' ∧ synced db' b' ∧ ∀ e, total e b' = total e b)).
  unfold SwapItems. apply run_get. cbv zeta. pose proof (gi_tabs _ Hw) as Htabs.
  destruct (_GetPurchasedTabsSize _ <=? tabId) eqn:E1; [by apply run_ret|].
  destruct (Z.leb_spec GUILD_BANK_MAX_SLOTS slotId); [by apply run_ret|].
  destruct (_GetPurchasedTabsSize _ <=? destTabId) eqn:E2; [by apply run_ret|].
  destruct (Z.leb_spec GUILD_BANK_MAX_SLOTS destSlotId); [by apply run_ret|]. cbn [orb].
  destruct ((tabId =? destTabId) && _) eqn:Ee; [by apply run_ret|].
  pose proof (tab_purchased _ _ Htabs H1 E1) as Ht. pose proof (tab_purchased _ _ Htabs H3 E2) as Ht'.
  unfold with_ends. apply run_modify. eapply run_mono.
  - apply (run_MoveItems player (shape_of (world b)) (Z.to_nat tabId) (Z.to_nat destTabId) slotId destSlotId n);
      [|by apply (Bank_same_world (shape_of (world b)) db (λ e, total e b) b)|done| |exact Ht|exact Ht'|done..].
    + intros []; (split; [done|]; cbn; by rewrite Z2Nat.id).
    + intros [= E]. rewrite !andb_false_iff, !Z.eqb_neq in Ee. lia.
  - intros _ b' db' [[Hw' _] Hb' Hs' Ht2]. done.
Qed.

Lemma bank_conserves_witness :
  wp (SwapItems 10 0 0 0 5 0) (λ _ b' t,
    guild_inv (world b') ∧ bank_inv b' ∧ synced (exec_books t bank_db0) b' ∧ ∀ e, total e b' = total e bank0) bank0.
Proof.
  destruct bank0_ok as (Hi & Hb & Hs & _).
  apply bank_conserves; [exact Hi|exact Hb|exact Hs|vm_compute; discriminate|lia..].
Defined.

(** C19: Without the right nothing moves.  A request to move an item to another
    tab by someone who may not deposit there, or has no withdrawals left for the
    day in the tab it is in, leaves the guild, every item and the tables as they
    are - also when it would have been a swap. *)
Theorem bank_rights `{BankEnv, !GuildLaws} player tabId slotId destTabId destSlotId n b :
  bank_inv b → tabId ≠ destTabId → may_move player tabId destTabId (guild (world b)) = false →
  wp (SwapItems player tabId slotId destTabId destSlotId n) (λ _ b' t,
    world b' = world b ∧ _hiItemGuid b' = _hiItemGuid b ∧ t = []) b.
Proof.
  intros Hb Hne Hno. unfold SwapItems. apply wp_bind_get. cbv zeta. destruct (_ || _); [by apply wp_ret|].
  rewrite (proj2 (Z.eqb_neq tabId destTabId)) by done. cbn [andb]. unfold with_ends. apply wp_bind_modify.
  unfold _MoveItems. apply wp_bind. unfold InitItem. apply wp_bind_get. cbn [this pSrc IsBank new_BankMoveItemData].
  set (b1 := b <| pSrc := new_BankMoveItemData tabId slotId |> <| pDest := new_BankMoveItemData destTabId destSlotId |>).
  change (_GetItem (m_container (pSrc b1)) (m_slotId (pSrc b1)) (world b1)) with (_GetItem tabId slotId (world b)).
  unfold on_this. apply wp_bind_modify, wp_ret.
  destruct (_GetItem tabId slotId (world b)) as [g|] eqn:Hg.
  2: { rewrite bool_decide_eq_false_2 by (by intros []). by apply wp_ret. }
  rewrite bool_decide_eq_true_2 by done. cbn [negb]. destruct (_GetItem_held b tabId slotId g Hb Hg) as [it Hit].
  apply wp_bind. unfold CheckItem. apply wp_bind_get. cbn [this pSrc m_pItem]. eapply wp_bind_item; [exact Hit|].
  assert (∀ k : bact unit, wp (b0 ← get; if negb (HasStoreRights player DEST b0) then mret tt else
    if negb (HasWithdrawRights player SRC b0) then mret tt else k) (λ _ b' t,
      world b' = world b ∧ _hiItemGuid b' = _hiItemGuid b ∧ t = [])
    (b1 <| pSrc ::= λ m, m <| m_pItem := Some g |> |>)) as Hstop.
  { intros k. apply wp_bind_get. set (b2 := b1 <| pSrc ::= _ |>).
    assert (HasStoreRights player DEST b2 = _MemberHasTabRights player destTabId GUILD_BANK_RIGHT_DEPOSIT_ITEM (guild (world b))) as ->
      by (cbv beta iota zeta delta [HasStoreRights this other]; cbn; by rewrite (proj2 (Z.eqb_neq tabId destTabId))).
    unfold may_move in Hno. destruct (_MemberHasTabRights _ _ _ _); cbn [negb andb] in *; [|by apply wp_ret].
    assert (HasWithdrawRights player SRC b2 = false) as ->; [|by apply wp_ret].
    cbv beta iota zeta delta [HasWithdrawRights this other]. cbn. rewrite (proj2 (Z.eqb_neq destTabId tabId)) by congruence.
    by destruct (GetMember player (guild (world b))). }
  destruct (_ <? n); apply wp_ret; [by apply wp_ret|]. destruct (n =? _); apply Hstop.
Qed.

Lemma bank_rights_witness :
  wp (SwapItems 20 0 0 1 3 0) (λ _ b' t,
    world b' = world bank0 ∧ _hiItemGuid b' = _hiItemGuid bank0 ∧ t = []) bank0.
Proof.
  apply bank_rights; [exact (proj1 (proj2 bank0_ok))|discriminate|vm_compute; reflexivity].
Defined.

(** What a player can ask for: CMSG_GUILD_BANK_SWAP_ITEMS. *)
Inductive bank_request :=
  | ReqSwap (tabId slotId destTabId destSlotId splitedAmount : Z)
  | ReqSwapInventory (toChar : bool) (tabId slotId playerBag playerSlotId splitedAmount : Z).
Definition serve_bank `{BankEnv} (player : Z) (rq : bank_request) : bact unit :=
  match rq with
  | ReqSwap tabId slotId destTabId destSlotId n => SwapItems player tabId slotId destTabId destSlotId n
  | ReqSwapInventory toChar tabId slotId bag bagSlot n =>
      SwapItemsWithInventory player toChar tabId slotId bag bagSlot n
  end.

(** The rules of a guild are kept by every move of bank items that ends, within
    the bank or from and to an inventory, whatever the inventory and the item
    templates answer: the invariant of [guild_invariant] holds, and the ranks,
    the tabs, the members with their ranks, the leader and what the players of
    this and other guilds carry are as before. *)
Theorem bank_moves_keep_rules `{BankEnv, !GuildLaws} player rq b :
  guild_inv (world b) →
  wlp (serve_bank player rq) (λ _ b' _,
    guild_inv (world b') ∧ shape_of (world b') = shape_of (world b)) b.
Proof.
  intros Hw. apply (wlp_stays (ruled (shape_of (world b)))); [|by apply inv_at_self].
  destruct rq; cbn [serve_bank]; unfold SwapItems, SwapItemsWithInventory; cbv zeta;
    (apply stays_bind; [apply stays_get|]; intros b0; repeat case_match;
     first [apply stays_ret|apply ruled_with_ends, ruled_MoveItems]).
Qed.

(** Ann carries five pieces of linen and puts them into the bank. *)
Definition bank_env1 : BankEnv := {|
  bank_guild_env := guild_env0;
  GetItemTemplate := @GetItemTemplate bank_env0;
  GetItemByPos := λ player bag slotId, if slotId =? 23 then Some 103 else None;
  IsNotEmptyBag := λ _, false;
  CanBeTraded := λ _, true;
  Player_CanStoreItem := λ _ _ _ _ _, (EQUIP_ERR_BANK_FULL, []) |}.
Definition carrying : BankWorld := items_b (insert 103 (stack_of 2589 5 20)) bank0.
Lemma bank_moves_keep_rules_witness :
  wlp (@serve_bank bank_env1 10 (ReqSwapInventory false 1 7 255 23 0)) (λ _ b' _,
    (guild_inv (world b') ∧ shape_of (world b') = shape_of (world carrying)) ∧
    slots_of b' = [[(5, Some (2589, 12)); (0, Some (2589, 15))]; [(7, Some (2589, 5)); (3, Some (25, 1))]]) carrying.
Proof.
  pose proof (@bank_moves_keep_rules bank_env1 guild_laws0 10 (ReqSwapInventory false 1 7 255 23 0) carrying
    (inv_with_items (world bank0) _ (proj1 bank0_ok))) as Hw.
  assert (match @serve_bank bank_env1 10 (ReqSwapInventory false 1 7 255 23 0) carrying with
          | Done _ b' _ => slots_of b' | Fault _ _ _ => [] end
    = [[(5, Some (2589, 12)); (0, Some (2589, 15))]; [(7, Some (2589, 5)); (3, Some (25, 1))]]) as Hr
    by (vm_compute; reflexivity).
  revert Hw Hr. unfold wlp. destruct (serve_bank 10 _ carrying); [|intros _ Hr; exact I].
  intros Hw Hr. exact (conj Hw Hr).
Defined.
