(* ===== verification/GuildLoad.v ===== *)
(** Loading guilds when the server starts: the rows of the guild tables, the
    Load methods of a guild and its parts, and the repair of what was loaded.
    Whatever the rows say, what is kept obeys the rules of GuildRules.v. *)

From S2P Require Import Prelude ByteBuffer Util Rbac Channel Social Guild GuildRules.
Open Scope string_scope.
Open Scope list_scope.
Open Scope Z_scope.

Definition DEFAULT_LOCALE : Z := 0.

(** ** Rows

    The columns of the queries of [GuildMgr::LoadGuilds], by name; where an
    outer join found nothing, the zero or empty value that [Field] gives. *)

Record guild_row := mkGuildRow {
  g_guildid : Z; g_name : string; g_leaderguid : Z; g_EmblemStyle : Z; g_EmblemColor : Z; g_BorderStyle : Z;
  g_BorderColor : Z; g_BackgroundColor : Z; g_info : string; g_motd : string; g_createdate : Z;
  g_BankMoney : Z; g_tab_count : Z }.
Record rank_row := mkRankRow {
  r_guildid : Z; r_rid : Z; r_rname : string; r_rights : Z; r_BankMoneyPerDay : Z }.
Record member_row := mkMemberRow {
  m_row_guildid : Z; m_row_guid : Z; m_row_rank : Z; m_row_pnote : string; m_row_offnote : string;
  m_row_withdraw : list Z; m_row_name : string; m_row_level : Z; m_row_class : Z; m_row_zone : Z;
  m_row_account : Z; m_row_logout_time : Z }.
Record bank_right_row := mkBankRightRow {
  br_guildid : Z; br_TabId : Z; br_rid : Z; br_gbright : Z; br_SlotPerDay : Z }.
Record eventlog_row := mkEventLogRow {
  el_guildid : Z; el_LogGuid : Z; el_EventType : Z; el_PlayerGuid1 : Z; el_PlayerGuid2 : Z; el_NewRank : Z;
  el_TimeStamp : Z }.
Record bank_eventlog_row := mkBankEventLogRow {
  bl_guildid : Z; bl_TabId : Z; bl_LogGuid : Z; bl_EventType : Z; bl_PlayerGuid : Z; bl_ItemOrMoney : Z;
  bl_ItemStackCount : Z; bl_DestTabId : Z; bl_TimeStamp : Z }.
Record bank_tab_row := mkBankTabRow {
  bt_guildid : Z; bt_TabId : Z; bt_TabName : string; bt_TabIcon : string; bt_TabText : string }.
(** The first eleven columns are the item's own. *)
Record bank_item_row := mkBankItemRow {
  bi_columns : list string; bi_guildid : Z; bi_TabId : Z; bi_SlotId : Z; bi_item_guid : Z; bi_itemEntry : Z }.

(** The item templates, and [Item::LoadFromDB]. *)
Class GuildLoadEnv := {
  GetItemTemplate : Z → bool;
  Item_LoadFromDB : Z → list string → Z → option Item }.

Section Loading.
Context `{GuildEnv, GuildLoadEnv}.

(** ** The Load methods *)

Definition LoadFromDB (fields : guild_row) : gact bool :=
  on_guild (λ g, g <| m_id := g_guildid fields |> <| m_name := g_name fields |>
    <| m_leaderGuid := MAKE_NEW_GUID (g_leaderguid fields) 0 HIGHGUID_PLAYER |>
    <| m_emblemInfo := Emblem.LoadFromDB (g_EmblemStyle fields) (g_EmblemColor fields) (g_BorderStyle fields)
                         (g_BorderColor fields) (g_BackgroundColor fields) |>
    <| m_info := g_info fields |> <| m_motd := g_motd fields |> <| m_createdDate := g_createdate fields |>
    <| m_bankMoney := g_BankMoney fields |>) ;;
  let purchasedTabs := u8 (g_tab_count fields) in
  let purchasedTabs := if GUILD_BANK_MAX_TABS <? purchasedTabs then GUILD_BANK_MAX_TABS else purchasedTabs in
  on_guild (λ g, g <| m_bankTabs := BankTab.new (m_id g) <$> seqZ 0 purchasedTabs |>) ;;
  _CreateLogHolders ;;
  mret true.
Definition LoadRankFromDB (fields : rank_row) : gact unit :=
  on_guild (λ g, g <| m_ranks ::= λ l, l ++
    [RankInfo.LoadFromDB (r_rid fields) (r_rname fields) (r_rights fields) (r_BankMoneyPerDay fields)
       (RankInfo.new (m_id g) GUILD_RANK_NONE "" GR_RIGHT_EMPTY 0)] |>).
(** False if the character is gone or broken. *)
Definition Member_LoadFromDB (fields : member_row) (m : Member.t) : bool * Member.t :=
  let m := m <| Member.m_publicNote := m_row_pnote fields |> <| Member.m_officerNote := m_row_offnote fields |>
             <| Member.m_bankWithdraw := (λ i, i32 (nth i (m_row_withdraw fields) 0)) <$> seq 0 7 |> in
  let m := Member.SetStats (m_row_name fields) (m_row_level fields) (m_row_class fields) (m_row_zone fields)
             (m_row_account fields) m in
  let m := m <| Member.m_logoutTime := m_row_logout_time fields |> in
  if negb (Member.CheckStats m) then (false, m) else
  let m := if Member.m_zoneId m =? 0 then m <| Member.m_zoneId := GetZoneIdFromDB (Member.m_guid m) |> else m in
  (true, Member.ResetFlags m).
Definition LoadMemberFromDB (fields : member_row) : gact bool :=
  w ← get;
  let lowguid := m_row_guid fields in
  let member := Member.new UninitFlags (u64 time_now) (m_id (guild w)) (MAKE_NEW_GUID lowguid 0 HIGHGUID_PLAYER)
                  (m_row_rank fields) in
  let '(ok, member) := Member_LoadFromDB fields member in
  if ok then on_guild (λ g, g <| m_members ::= <[lowguid := member]> |>) ;; mret true
  else emit (CHAR_DEL_GUILD_MEMBER lowguid) ;; mret false.
Definition LoadBankRightFromDB (fields : bank_right_row) : gact unit :=
  _SetRankBankTabRightsAndSlots (br_rid fields)
    (RightsAndSlots.mk (br_TabId fields) (br_gbright fields) (br_SlotPerDay fields)) false.
Definition LoadEventLogFromDB (fields : eventlog_row) : gact bool :=
  w ← get;
  if LogHolder.CanInsert (m_eventLog (guild w)) then
    on_guild (λ g, g <| m_eventLog ::= LogHolder.LoadEvent
      (EventLogEntry.mk (m_id g) (el_LogGuid fields) (el_TimeStamp fields) (el_EventType fields)
         (el_PlayerGuid1 fields) (el_PlayerGuid2 fields) (el_NewRank fields)) |>) ;;
    mret true
  else mret false.
Definition LoadBankEventLogFromDB (fields : bank_eventlog_row) : gact bool :=
  w ← get;
  let dbTabId := bl_TabId fields in
  let isMoneyTab := dbTabId =? GUILD_BANK_MONEY_LOGS_TAB in
  if (dbTabId <? _GetPurchasedTabsSize (guild w)) || isMoneyTab then
    let tabId := if isMoneyTab then GUILD_BANK_MAX_TABS else dbTabId in
    pLog ← in_bankEventLog (Z.to_nat tabId) get;
    if LogHolder.CanInsert pLog then
      if (if BankEventLogEntry.IsMoneyEvent (bl_EventType fields) then negb isMoneyTab else isMoneyTab)
      then mret false else
      in_bankEventLog (Z.to_nat tabId) (modify (LogHolder.LoadEvent
        (BankEventLogEntry.mk (m_id (guild w)) (bl_LogGuid fields) (bl_TimeStamp fields) (bl_EventType fields) dbTabId
           (bl_PlayerGuid fields) (bl_ItemOrMoney fields) (bl_ItemStackCount fields) (bl_DestTabId fields)))) ;;
      mret true
    else mret true
  else mret true.
Definition LoadBankTabFromDB (fields : bank_tab_row) : gact unit :=
  w ← get;
  if _GetPurchasedTabsSize (guild w) <=? bt_TabId fields then mret tt else
  at_tab (Z.to_nat (bt_TabId fields))
    (modify (BankTab.LoadFromDB (bt_TabName fields) (bt_TabIcon fields) (bt_TabText fields))).
Definition LoadItemFromDB (i : nat) (fields : bank_item_row) : gact bool :=
  w ← get;
  tab ← require (m_bankTabs (guild w) !! i);
  if GUILD_BANK_MAX_SLOTS <=? bi_SlotId fields then mret false
  else if negb (GetItemTemplate (bi_itemEntry fields)) then mret false
  else match Item_LoadFromDB (bi_item_guid fields) (bi_columns fields) (bi_itemEntry fields) with
       | None => emit (CHAR_DEL_NONEXISTENT_GUILD_BANK_ITEM (BankTab.m_guildId tab) (BankTab.m_tabId tab)
                         (bi_SlotId fields)) ;; mret false
       | Some pItem =>
           modify (λ w, w <| items ::= <[bi_item_guid fields := pItem]> |>) ;;
           emit (ItemAddToWorld (bi_item_guid fields)) ;;
           at_tab i (modify (λ b, b <| BankTab.m_items ::= <[bi_SlotId fields := bi_item_guid fields]> |>)) ;;
           mret true
       end.
Definition LoadBankItemFromDB (fields : bank_item_row) : gact bool :=
  w ← get;
  if _GetPurchasedTabsSize (guild w) <=? bi_TabId fields then mret false
  else LoadItemFromDB (Z.to_nat (bi_TabId fields)) fields.

(** ** [Validate] *)

(** The ranks from [l] on; true when one of them is not at its place. *)
Fixpoint Validate_ranks (l : list Z) (broken_ranks : bool) : gact bool :=
  match l with
  | [] => mret broken_ranks
  | rankId :: l' =>
      w ← get;
      rankInfo ← require (GetRankInfo rankId (guild w));
      if negb (RankInfo.m_rankId rankInfo =? rankId) then Validate_ranks l' true
      else at_rank (Z.to_nat rankId) (RankInfo.CreateMissingTabsIfNeeded (_GetPurchasedTabsSize (guild w))) ;;
           Validate_ranks l' broken_ranks
  end.
Definition repair_ranks : gact unit :=
  w ← get;
  let ranks := _GetRanksSize (guild w) in
  broken_ranks ← (if (ranks <? GUILD_RANKS_MIN_COUNT) || (GUILD_RANKS_MAX_COUNT <? ranks) then mret true
                  else Validate_ranks (seqZ 0 ranks) false);
  when broken_ranks (on_guild (λ g, g <| m_ranks := [] |>) ;; _CreateDefaultGuildRanks DEFAULT_LOCALE).
Definition repair_members : gact unit :=
  w ← get;
  forM_ (hash_iter (m_members (guild w))) (λ km,
    when (_GetRanksSize (guild w) <? Member.m_rankId km.2) (ChangeRank km.1 (_GetLowestRankId (guild w)))).
(** False when nobody is left. *)
Definition repair_leader : gact bool :=
  w ← get;
  let leader := m_leaderGuid (guild w) in
  match GetMember leader (guild w) with
  | None =>
      DeleteMember leader false false ;;
      w ← get;
      if bool_decide (m_members (guild w) = ∅) then Disband ;; mret false else mret true
  | Some pLeader =>
      when (negb (Member.IsRank GR_GUILDMASTER pLeader)) (_SetLeaderGUID (GUID_LOPART leader)) ;; mret true
  end.
Definition repair_masters : gact unit :=
  w ← get;
  when (negb AllowMultipleGuildMaster)
    (forM_ (hash_iter (m_members (guild w))) (λ km,
       when ((Member.m_rankId km.2 =? GR_GUILDMASTER)
             && negb (Member.IsSamePlayer (m_leaderGuid (guild w)) km.2)) (ChangeRank km.1 GR_OFFICER))).
Definition Validate : gact bool :=
  repair_ranks ;;
  repair_members ;;
  ok ← repair_leader;
  if negb ok then mret false else
  repair_masters ;;
  _UpdateAccountsNumber ;;
  mret true.

(** The rows of one guild, in the order in which the tables are read. *)
Record guild_rows := mkGuildRows {
  t_guild : guild_row; t_ranks : list rank_row; t_members : list member_row; t_rights : list bank_right_row;
  t_eventlog : list eventlog_row; t_bank_eventlog : list bank_eventlog_row; t_tabs : list bank_tab_row;
  t_items : list bank_item_row }.
(** What [GuildMgr::LoadGuilds] does for one guild. *)
Definition LoadGuild (t : guild_rows) : gact bool :=
  LoadFromDB (t_guild t) ;;
  forM_ (t_ranks t) LoadRankFromDB ;;
  forM_ (t_members t) (λ r, _ ← LoadMemberFromDB r; mret tt) ;;
  forM_ (t_rights t) LoadBankRightFromDB ;;
  forM_ (t_eventlog t) (λ r, _ ← LoadEventLogFromDB r; mret tt) ;;
  forM_ (t_bank_eventlog t) (λ r, _ ← LoadBankEventLogFromDB r; mret tt) ;;
  forM_ (t_tabs t) LoadBankTabFromDB ;;
  forM_ (t_items t) (λ r, _ ← LoadBankItemFromDB r; mret tt) ;;
  Validate.
End Loading.

(** ** What has been loaded, before it is repaired *)

Section LoadRules.
Context `{GuildLaws, GuildLoadEnv}.

Lemma MAKE_NEW_GUID_player l : guid32 l → MAKE_NEW_GUID l 0 HIGHGUID_PLAYER = l.
Proof. intros [? ?]. unfold MAKE_NEW_GUID, HIGHGUID_PLAYER. rewrite !Z.shiftl_0_l, !Z.lor_0_r. apply wrapu_id. lia. Qed.

(** A member as a row gives him: his rank is any byte. *)
Definition loaded_member (k : Z) (m : Member.t) : Prop :=
  Member.m_guid m = k ∧ guid32 k ∧ 0 <= Member.m_rankId m < 256 ∧ length (Member.m_bankWithdraw m) = 7%nat.
(** A rank in order, but perhaps not at its place. *)
Definition loaded_rank (r : RankInfo.t) : Prop := ∃ i, rank_ok i r.

Record loaded (w : GuildWorld) : Prop := {
  ld_id : m_id (guild w) ≠ 0;
  ld_leader : guid32 (m_leaderGuid (guild w));
  ld_size : (length (m_ranks (guild w)) ≤ 256)%nat;
  ld_ranks : Forall loaded_rank (m_ranks (guild w));
  ld_members : map_Forall loaded_member (m_members (guild w));
  ld_tabs : tabs_ok (m_bankTabs (guild w));
  ld_logs : logs_ok (guild w);
  ld_players : players w = ∅ }.

Record rows_ok (t : guild_rows) : Prop := {
  ok_id : g_guildid (t_guild t) ≠ 0;
  ok_leader : guid32 (g_leaderguid (t_guild t));
  ok_size : (length (t_ranks t) ≤ 256)%nat;
  ok_ranks : Forall (λ r, 0 <= r_rid r) (t_ranks t);
  ok_members : Forall (λ r, guid32 (m_row_guid r) ∧ 0 <= m_row_rank r < 256) (t_members t);
  ok_rights : Forall (λ r, 0 <= br_rid r ∧ 0 <= br_TabId r < 128) (t_rights t);
  ok_bank_logs : Forall (λ r, 0 <= bl_TabId r) (t_bank_eventlog t);
  ok_tabs : Forall (λ r, 0 <= bt_TabId r) (t_tabs t);
  ok_items : Forall (λ r, 0 <= bi_TabId r) (t_items t) }.

Lemma loaded_tabs_size w : loaded w → _GetPurchasedTabsSize (guild w) = Z.of_nat (length (m_bankTabs (guild w))).
Proof. intros []. destruct ld_tabs0 as [? _]. apply wrapu_id. lia. Qed.

Lemma log_ok_load {E} `{LogEntry E} (e : E) h : log_ok h → LogHolder.CanInsert h = true → log_ok (LogHolder.LoadEvent e h).
Proof.
  intros [Hm Hl] Hc%Z.ltb_lt. destruct h as [l gid mx nx]. unfold LogHolder.LoadEvent, log_ok in *. cbn in *.
  destruct (nx =? _); cbn; split; lia.
Qed.

Lemma wp_load_guild_row fields its :
  g_guildid fields ≠ 0 → guid32 (g_leaderguid fields) →
  1 <= CONFIG_GUILD_EVENT_LOG_COUNT < 2 ^ 32 → 1 <= CONFIG_GUILD_BANK_EVENT_LOG_COUNT < 2 ^ 32 →
  wp (LoadFromDB fields) (λ _ w' _, loaded w' ∧ m_ranks (guild w') = []) (mkGuildWorld new_Guild ∅ its).
Proof.
  intros Hid Hl Hc1 Hc2. unfold LoadFromDB, _CreateLogHolders, on_guild. do 3 apply wp_bind_modify. apply wp_ret.
  split; [|done]. split; cbn; try done.
  - by rewrite MAKE_NEW_GUID_player.
  - lia.
  - set (n := if _ <? _ then _ else _). assert (0 <= n <= 6) as Hn.
    { subst n. unfold GUILD_BANK_MAX_TABS. pose proof (wrapu_range 8 (g_tab_count fields)).
      destruct (Z.ltb_spec 6 (u8 (g_tab_count fields))); lia. }
    split; [rewrite length_fmap, length_seqZ; lia|]. intros i b Hb. rewrite list_lookup_fmap in Hb.
    apply fmap_Some in Hb as (x & Hx & ->). apply lookup_seqZ in Hx as [-> _]. cbn. lia.
  - split; [split; [done|cbn; lia]|]. split; [done|]. cbn. repeat (constructor; [split; [done|cbn; lia]|]). constructor.
Qed.

Lemma keeps_loaded f : (∀ w, loaded w → loaded (f w)) → keeps loaded (modify (E := guild_event) f).
Proof. apply keeps_modify. Qed.

Lemma wp_load_ranks rows : ∀ w, Forall (λ r, 0 <= r_rid r) rows → loaded w →
  (length (m_ranks (guild w)) + length rows ≤ 256)%nat →
  wp (forM_ rows LoadRankFromDB) (λ _ w' _, loaded w') w.
Proof.
  induction rows as [|r rows IH]; intros w Hr Hw Hn; cbn [forM_]; [by apply wp_ret|].
  apply Forall_cons in Hr as [Hr Hrows]. unfold LoadRankFromDB at 1, on_guild. apply wp_bind_modify.
  apply IH; [done| |cbn in *; rewrite length_app; cbn; lia].
  destruct Hw. split; cbn in *; try done; [rewrite length_app; cbn; lia|].
  apply Forall_app. split; [done|]. apply Forall_singleton. exists (Z.to_nat (r_rid r)).
  unfold RankInfo.LoadFromDB. cbn. unfold GR_GUILDMASTER. destruct (Z.eqb_spec (r_rid r) 0) as [E|E]; cbn.
  - split; cbn; [lia|done|]. intros _. rewrite Z.land_lor_distr_l, Z.land_diag. apply Z.bits_inj'. intros i Hi.
    rewrite Z.lor_spec, Z.land_spec. by destruct (Z.testbit _ i), (Z.testbit GR_RIGHT_ALL i).
  - split; cbn; [lia|done|]. lia.
Qed.

Lemma keeps_loaded_at_rank i op : (∀ j, keeps (rank_ok j) op) → ∀ w, loaded w → (i < length (m_ranks (guild w)))%nat →
  wp (at_rank i op) (λ _ w' _, loaded w') w.
Proof.
  intros Hop w Hw Hi. unfold wp, at_rank. destruct (lookup_lt_is_Some_2 _ _ Hi) as [r Hr]. rewrite Hr. unfold zoom.
  destruct (Forall_lookup_1 _ _ _ _ (ld_ranks _ Hw) Hr) as [j Hj]. specialize (Hop j r Hj). unfold wp in Hop.
  destruct (op r) as [a r' t|]; [|done]. destruct Hw. split; cbn; try done; [by rewrite length_insert|].
  apply Forall_insert; [done|by exists j].
Qed.

Lemma keeps_LoadMember fields : guid32 (m_row_guid fields) → 0 <= m_row_rank fields < 256 →
  keeps loaded (LoadMemberFromDB fields).
Proof.
  intros Hg Hr w Hw. unfold LoadMemberFromDB. apply wp_bind_get. cbv zeta. rewrite MAKE_NEW_GUID_player by done.
  set (m0 := Member.new _ _ _ _ _). 
  assert (loaded_member (m_row_guid fields) (Member_LoadFromDB fields m0).2) as Hm.
  { unfold Member_LoadFromDB, loaded_member. destruct (negb _); [|destruct (Member.m_zoneId _ =? 0)]; cbn; split_and!; done || lia. }
  destruct (Member_LoadFromDB fields m0) as [[] m]; cbn [snd] in Hm.
  - unfold on_guild. apply wp_bind_modify, wp_ret. destruct Hw. split; cbn; try done. by apply map_Forall_insert_2.
  - apply wp_bind_emit. by apply wp_ret.
Qed.

Lemma keeps_LoadBankRight fields : 0 <= br_rid fields → 0 <= br_TabId fields < 128 → keeps loaded (LoadBankRightFromDB fields).
Proof.
  intros Hr Ht w Hw. unfold LoadBankRightFromDB, _SetRankBankTabRightsAndSlots. apply wp_bind_get.
  unfold RightsAndSlots.GetTabId at 1. cbn. rewrite (wraps_id 8) by lia. rewrite loaded_tabs_size by done.
  destruct (Z.leb_spec (Z.of_nat (length (m_bankTabs (guild w)))) (br_TabId fields)); [by apply wp_ret|].
  unfold rank_index. destruct (GetRankInfo (br_rid fields) (guild w)) eqn:Hi; [|by apply wp_ret].
  destruct (ld_tabs _ Hw) as [Hlen _].
  apply keeps_loaded_at_rank; [|done|].
  - intros j. apply keeps_SetBankTab. cbn. unfold GUILD_BANK_MAX_TABS. lia.
  - unfold GetRankInfo in Hi. destruct (_ <? _); [|done]. by apply lookup_lt_Some in Hi.
Qed.

Lemma keeps_LoadEventLog fields : keeps loaded (LoadEventLogFromDB fields).
Proof.
  intros w Hw. unfold LoadEventLogFromDB. apply wp_bind_get. destruct (LogHolder.CanInsert _) eqn:Hc; [|by apply wp_ret].
  unfold on_guild. apply wp_bind_modify, wp_ret. destruct Hw as [? ? ? ? ? ? (Hl & ? & ?) ?].
  split; cbn; try done. split; [exact (log_ok_load _ _ Hl Hc)|done].
Qed.

Lemma bank_log_at w i : loaded w → (i < 7)%nat → ∃ h, m_bankEventLog (guild w) !! i = Some h ∧ log_ok h.
Proof.
  intros Hw Hi. destruct (ld_logs _ Hw) as (_ & Hlen & Hall). destruct (lookup_lt_is_Some_2 (m_bankEventLog (guild w)) i) as [h Hh]; [lia|].
  exists h. split; [done|]. by eapply Forall_lookup_1.
Qed.
Lemma bank_log_set w i h : loaded w → log_ok h → loaded (w <| guild ::= λ g, g <| m_bankEventLog ::= <[i := h]> |> |>).
Proof.
  intros [? ? ? ? ? ? (Hl & Hlen & Hall) ?] Hh. split; cbn; try done. split; [done|]. cbn. rewrite length_insert.
  split; [done|]. by apply Forall_insert.
Qed.
Lemma wp_bank_log {A} i h (op : act _ _ A) Q w : m_bankEventLog (guild w) !! i = Some h →
  wp op (λ a h' t, Q a (w <| guild ::= λ g, g <| m_bankEventLog ::= <[i := h']> |> |>) t) h → wp (in_bankEventLog i op) Q w.
Proof. intros Hh Hop. unfold wp, in_bankEventLog in *. rewrite Hh. unfold zoom. by destruct (op h). Qed.

Lemma keeps_LoadBankEventLog fields : 0 <= bl_TabId fields → keeps loaded (LoadBankEventLogFromDB fields).
Proof.
  intros Ht w Hw. unfold LoadBankEventLogFromDB. apply wp_bind_get. cbv zeta. rewrite loaded_tabs_size by done.
  destruct (_ || _) eqn:Hc; [|by apply wp_ret]. set (i := Z.to_nat _). destruct (ld_tabs _ Hw) as [Htabs _].
  assert (i < 7)%nat as Hi.
  { subst i. unfold GUILD_BANK_MAX_TABS. destruct (Z.eqb_spec (bl_TabId fields) GUILD_BANK_MONEY_LOGS_TAB); [lia|].
    rewrite orb_false_r in Hc. lia. }
  destruct (bank_log_at w i Hw Hi) as (h & Hh & Hok). apply wp_bind. eapply wp_bank_log; [exact Hh|]. apply wp_get.
  pose proof (bank_log_set w i h Hw Hok) as Hw1. set (w1 := setf guild _ w) in *.
  destruct (LogHolder.CanInsert h) eqn:Hins; [|by apply wp_ret].
  destruct (if BankEventLogEntry.IsMoneyEvent _ then _ else _); [by apply wp_ret|].
  destruct (bank_log_at w1 i Hw1 Hi) as (h1 & Hh1 & Hok1).
  assert (h1 = h) as -> by (subst w1; cbn in Hh1; rewrite list_lookup_insert_eq in Hh1 by (by apply lookup_lt_Some in Hh); congruence).
  apply wp_bind. eapply wp_bank_log; [exact Hh1|]. apply wp_modify, wp_ret. apply bank_log_set; [done|]. by apply log_ok_load.
Qed.

Lemma keeps_loaded_at_tab i op w : (∀ b, keeps (λ b', BankTab.m_tabId b' = BankTab.m_tabId b) op) → loaded w →
  (i < length (m_bankTabs (guild w)))%nat → wp (at_tab i op) (λ _ w' _, loaded w') w.
Proof.
  intros Hop Hw Hi. unfold wp, at_tab. destruct (lookup_lt_is_Some_2 _ _ Hi) as [b Hb]. rewrite Hb. unfold zoom.
  specialize (Hop b b eq_refl). unfold wp in Hop. destruct (op b) as [a b' t|]; [|done].
  destruct Hw. split; cbn; try done. destruct ld_tabs0 as [Hlen Ht]. split; [by rewrite length_insert|]. intros j x Hj.
  apply list_lookup_insert_Some in Hj as [(<- & <- & _)|[_ Hj]]; [rewrite Hop|]; by apply Ht.
Qed.
Lemma keeps_LoadBankTab fields : 0 <= bt_TabId fields → keeps loaded (LoadBankTabFromDB fields).
Proof.
  intros Ht w Hw. unfold LoadBankTabFromDB. apply wp_bind_get. rewrite loaded_tabs_size by done.
  destruct (Z.leb_spec (Z.of_nat (length (m_bankTabs (guild w)))) (bt_TabId fields)); [by apply wp_ret|].
  apply keeps_loaded_at_tab; [|done|lia]. intros b. by apply keeps_modify.
Qed.
Lemma keeps_LoadBankItem fields : 0 <= bi_TabId fields → keeps loaded (LoadBankItemFromDB fields).
Proof.
  intros Ht w Hw. unfold LoadBankItemFromDB, LoadItemFromDB. apply wp_bind_get. rewrite loaded_tabs_size by done.
  destruct (Z.leb_spec (Z.of_nat (length (m_bankTabs (guild w)))) (bi_TabId fields)); [by apply wp_ret|]. apply wp_bind_get.
  set (i := Z.to_nat (bi_TabId fields)). assert (i < length (m_bankTabs (guild w)))%nat as Hi by lia.
  destruct (lookup_lt_is_Some_2 _ _ Hi) as [tab Htab]. eapply wp_bind_require; [done|].
  destruct (_ <=? _); [by apply wp_ret|]. destruct (negb _); [by apply wp_ret|].
  destruct (Item_LoadFromDB _ _ _) as [it|]; [|apply wp_bind_emit; by apply wp_ret].
  apply wp_bind_modify, wp_bind_emit, wp_bind.
  eapply wp_mono; [apply keeps_loaded_at_tab; [|by destruct Hw; split|done]|].
  - intros b. by apply keeps_modify.
  - intros [] w' t Hw'. by apply wp_ret.
Qed.

(** ** The repair *)

Definition rank_ids (w : GuildWorld) : list Z := RankInfo.m_rankId <$> m_ranks (guild w).

Lemma wp_at_rank_id i op w : (∀ j, keeps (rank_ok j) op) → loaded w → (i < length (m_ranks (guild w)))%nat →
  wp (at_rank i op) (λ _ w' _, loaded w' ∧ rank_ids w' = rank_ids w ∧ m_bankTabs (guild w') = m_bankTabs (guild w)) w.
Proof.
  intros Hop Hw Hi. pose proof (keeps_loaded_at_rank i op Hop w Hw Hi) as Hk. unfold wp, at_rank in *.
  destruct (lookup_lt_is_Some_2 _ _ Hi) as [r Hr]. rewrite Hr in *. unfold zoom in *.
  destruct (Forall_lookup_1 _ _ _ _ (ld_ranks _ Hw) Hr) as [j Hj]. specialize (Hop j r Hj). unfold wp in Hop.
  destruct (op r) as [a r' t|]; [|done]. split; [exact Hk|]. split; [|done]. unfold rank_ids. cbn.
  rewrite list_fmap_insert. apply list_insert_id. rewrite list_lookup_fmap, Hr. cbn. f_equal.
  by rewrite (rk_id _ _ Hj), (rk_id _ _ Hop).
Qed.

Lemma wp_Validate_ranks l : ∀ b w, loaded w → (length (m_ranks (guild w)) ≤ 10)%nat →
  (∀ k, k ∈ l → 0 <= k < Z.of_nat (length (m_ranks (guild w)))) →
  wp (Validate_ranks l b) (λ broken w' _, loaded w' ∧ rank_ids w' = rank_ids w ∧
    (broken = false → b = false ∧ ∀ k, k ∈ l → rank_ids w !! Z.to_nat k = Some k)) w.
Proof.
  induction l as [|k l IH]; intros b w Hw Hn Hl; cbn [Validate_ranks].
  { apply wp_ret. split; [done|]. split; [done|]. intros ->. split; [done|]. intros k Hk. by apply not_elem_of_nil in Hk. }
  apply wp_bind_get. destruct (Hl k) as [Hk1 Hk2]; [by left|].
  assert (Z.to_nat k < length (m_ranks (guild w)))%nat as Hki by lia.
  destruct (lookup_lt_is_Some_2 _ _ Hki) as [r Hr].
  assert (GetRankInfo k (guild w) = Some r) as Hg.
  { unfold GetRankInfo, _GetRanksSize. rewrite wrapu_id by lia. by rewrite (proj2 (Z.ltb_lt _ _)) by lia. }
  eapply wp_bind_require; [exact Hg|]. destruct (Z.eqb_spec (RankInfo.m_rankId r) k) as [E|E]; cbn [negb].
  - destruct (ld_tabs _ Hw) as [Htabs _]. apply wp_bind. eapply wp_mono; [apply wp_at_rank_id; [|done|done]|].
    { intros j. apply keeps_CreateMissingTabs. rewrite loaded_tabs_size by done. lia. }
    intros [] w1 t1 (Hw1 & Hids & _). pose proof (f_equal length Hids) as Hlen. unfold rank_ids in Hlen. rewrite !length_fmap in Hlen.
    eapply wp_mono; [apply IH; [done|lia|]|].
    + intros k' Hk'. rewrite Hlen. apply Hl. by right.
    + intros br w2 t2 (Hw2 & Hids2 & Hb). split; [done|]. split; [congruence|]. intros Hbr. destruct (Hb Hbr) as [-> Hall].
      split; [done|]. rewrite Hids in Hall. intros k' [->|Hk']%elem_of_cons; [|by apply Hall].
      unfold rank_ids. rewrite list_lookup_fmap, Hr. cbn. by rewrite E.
  - eapply wp_mono; [apply IH; [done|done|]|].
    + intros k' Hk'. apply Hl. by right.
    + intros br w2 t2 (Hw2 & Hids2 & Hb). split; [done|]. split; [done|]. intros Hbr. by destruct (Hb Hbr).
Qed.

Lemma loaded_ranks_ok w : loaded w → (5 ≤ length (m_ranks (guild w)) ≤ 10)%nat →
  (∀ k, k ∈ seqZ 0 (Z.of_nat (length (m_ranks (guild w)))) → rank_ids w !! Z.to_nat k = Some k) → ranks_ok (m_ranks (guild w)).
Proof.
  intros Hw Hlen Hids. split; [done|]. intros i r Hi. destruct (Forall_lookup_1 _ _ _ _ (ld_ranks _ Hw) Hi) as [j Hj].
  pose proof (lookup_lt_Some _ _ _ Hi). specialize (Hids (Z.of_nat i) ltac:(apply elem_of_seqZ; lia)).
  rewrite Nat2Z.id in Hids. unfold rank_ids in Hids. rewrite list_lookup_fmap, Hi in Hids. injection Hids as E.
  rewrite (rk_id _ _ Hj) in E. apply Nat2Z.inj in E. by subst.
Qed.

Lemma wp_repair_ranks w : loaded w → wp repair_ranks (λ _ w' _, loaded w' ∧ ranks_ok (m_ranks (guild w'))) w.
Proof.
  intros Hw. unfold repair_ranks. apply wp_bind_get. cbv zeta. pose proof (ld_size _ Hw) as Hsz.
  set (n := length (m_ranks (guild w))) in *. apply wp_bind.
  eapply (wp_mono _ (λ b w' _, loaded w' ∧ (b = false → ranks_ok (m_ranks (guild w'))))).
  - destruct (_ || _) eqn:Ec; [by apply wp_ret|]. apply orb_false_iff in Ec as [E1 E2].
    unfold GUILD_RANKS_MIN_COUNT, GUILD_RANKS_MAX_COUNT, _GetRanksSize in E1, E2. fold n in E1, E2.
    assert (n ≠ 256%nat) as Hne by (intros E; rewrite E in E1; vm_compute in E1; done).
    rewrite wrapu_id in E1, E2 by lia. unfold _GetRanksSize. fold n. rewrite wrapu_id by lia.
    eapply wp_mono; [apply wp_Validate_ranks; [done|fold n; lia|]|].
    + intros k Hk%elem_of_seqZ. fold n. lia.
    + intros br w1 t1 (Hw1 & Hids & Hb). split; [done|]. intros Hbr. destruct (Hb Hbr) as [_ Hall].
      pose proof (f_equal length Hids) as Hlen. unfold rank_ids in Hlen. rewrite !length_fmap in Hlen.
      apply loaded_ranks_ok; [done|fold n in Hlen; lia|]. rewrite Hids, Hlen. fold n. exact Hall.
  - intros b w1 t1 [Hw1 Hb]. destruct b; cbn [when]; [|apply wp_ret; auto].
    unfold on_guild. apply wp_bind_modify. destruct (ld_tabs _ Hw1) as [Htabs _].
    apply wp_CreateDefaultGuildRanks; [done|cbn; lia|]. intros l t Hl Hlen. cbn. split; [|done].
    destruct Hw1. split; cbn; try done; [lia|]. apply Forall_lookup_2. intros i r Hi. exists i. by apply Hl.
Qed.

(** In order but for the leader. *)
Definition headless (w : GuildWorld) : Prop :=
  loaded w ∧ ranks_ok (m_ranks (guild w)) ∧ map_Forall (λ _ m, Member.m_rankId m <= GUILD_RANKS_MAX_COUNT) (m_members (guild w)).
Lemma headless_inv w k : headless w → is_Some (m_members (guild w) !! k) →
  guild_inv (w <| guild ::= λ g, g <| m_leaderGuid := k |> |>).
Proof.
  intros ([] & Hr & Hm) Hk. split; cbn; try done.
  - intros j m Hj. destruct (ld_members0 j m Hj) as (? & ? & ? & ?). specialize (Hm j m Hj). cbn in Hm. split; try done. lia.
  - rewrite ld_players0. apply map_Forall_empty.
Qed.
Lemma headless_closing w : headless w → closing w.
Proof.
  intros ([] & Hr & Hm). split; [done| |rewrite ld_players0; apply map_Forall_empty].
  intros j m Hj. destruct (ld_members0 j m Hj) as (? & ? & ? & ?). specialize (Hm j m Hj). cbn in Hm. split; try done. lia.
Qed.

Lemma wp_rank_loop (b : Z * Member.t → bool) r l : 0 <= r <= GUILD_RANKS_MAX_COUNT → ∀ w,
  loaded w → ranks_ok (m_ranks (guild w)) → (∀ km, km ∈ l → is_Some (m_members (guild w) !! km.1)) →
  wp (forM_ l (λ km, when (b km) (ChangeRank km.1 r))) (λ _ w' _, loaded w' ∧ ranks_ok (m_ranks (guild w')) ∧
    ∀ k x, member_ranks w' !! k = Some x → x = r ∨ (member_ranks w !! k = Some x ∧ ∀ m, (k, m) ∈ l → b (k, m) = false)) w.
Proof.
  intros Hr. induction l as [|[k m] l IH]; intros w Hw Hrk Hin; cbn [forM_].
  { apply wp_ret. split; [done|]. split; [done|]. intros k x Hx. right. split; [done|]. intros m Hm. by apply not_elem_of_nil in Hm. }
  apply wp_bind. destruct (Hin (k, m)) as [m0 Hm0]; [by left|]. cbn [fst] in *.
  assert (∀ w1, loaded w1 → ranks_ok (m_ranks (guild w1)) → dom (m_members (guild w1)) = dom (m_members (guild w)) →
    (∀ j x, member_ranks w1 !! j = Some x → x = r ∨ (member_ranks w !! j = Some x ∧ (j = k → b (k, m) = false))) →
    wp (forM_ l (λ km, when (b km) (ChangeRank km.1 r))) (λ _ w' t, loaded w' ∧ ranks_ok (m_ranks (guild w')) ∧
      ∀ j x, member_ranks w' !! j = Some x → x = r ∨ (member_ranks w !! j = Some x ∧ ∀ m', (j, m') ∈ (k, m) :: l → b (j, m') = false)) w1) as Hgo.
  { intros w1 A1 A2 Hd Hj. eapply wp_mono; [apply IH; [done|done|]|].
    - intros km Hkm. apply elem_of_dom. rewrite Hd. apply elem_of_dom, Hin. by right.
    - intros [] w2 t2 (A3 & A4 & Hx). split; [done|]. split; [done|]. intros j x Hjx.
      destruct (Hx j x Hjx) as [->|[Hj1 Hb1]]; [by left|]. destruct (Hj j x Hj1) as [->|[Hj2 Hb2]]; [by left|right].
      split; [done|]. intros m' [[= -> ->]|Hl]%elem_of_cons; [by apply Hb2|by apply Hb1]. }
  destruct (b (k, m)) eqn:Eb; cbn [when].
  - unfold wp at 1. rewrite (ChangeRank_run k r w m0 Hm0). apply Hgo.
    + destruct Hw. split; cbn; try done.
      * intros j m' Hj. apply lookup_alter_Some in Hj as [(<- & m1 & Hj & ->)|[_ Hj]]; [|by apply ld_members0].
        destruct (ld_members0 _ _ Hj) as (? & ? & ? & ?). unfold GUILD_RANKS_MAX_COUNT in Hr. split_and!; done || (cbn; lia).
      * rewrite ld_players0. apply map_eq. intros j. destruct (decide (Member.m_guid m0 = j)) as [<-|Hne];
          [by rewrite lookup_alter_eq, lookup_empty|by rewrite lookup_alter_ne].
    + exact Hrk.
    + cbn. by rewrite dom_alter_L.
    + intros j x. unfold member_ranks. cbn. rewrite !lookup_fmap. destruct (decide (k = j)) as [<-|Hne].
      * rewrite lookup_alter_eq, Hm0. intros [= <-]. by left.
      * rewrite lookup_alter_ne by done. intros Hx. by right.
  - apply wp_ret. apply Hgo; [done|done|done|]. intros j x Hx. by right.
Qed.

Lemma member_rank_at w k m : m_members (guild w) !! k = Some m → member_ranks w !! k = Some (Member.m_rankId m).
Proof. intros Hm. unfold member_ranks. by rewrite lookup_fmap, Hm. Qed.
Lemma member_rank_inv w k r : member_ranks w !! k = Some r → ∃ m, m_members (guild w) !! k = Some m ∧ Member.m_rankId m = r.
Proof. unfold member_ranks. rewrite lookup_fmap. intros (m & Hm & ->)%fmap_Some. by exists m. Qed.

Lemma wp_repair_members w : loaded w → ranks_ok (m_ranks (guild w)) → wp repair_members (λ _ w' _, headless w') w.
Proof.
  intros Hw Hr. unfold repair_members. apply wp_bind_get. destruct Hr as [Hlen Hr'].
  assert (_GetLowestRankId (guild w) = Z.of_nat (length (m_ranks (guild w))) - 1) as Hlow by (apply wrapu_id; lia).
  assert (_GetRanksSize (guild w) = Z.of_nat (length (m_ranks (guild w)))) as Hsz by (apply wrapu_id; lia).
  eapply wp_mono; [apply (wp_rank_loop (λ km, _GetRanksSize (guild w) <? Member.m_rankId km.2) (_GetLowestRankId (guild w)))|].
  - rewrite Hlow. unfold GUILD_RANKS_MAX_COUNT. lia.
  - done.
  - by split.
  - intros [k m] Hkm. apply elem_of_hash_iter in Hkm. by eexists.
  - intros [] w' t (Hw' & Hrk & Hx). split; [done|]. split; [done|]. intros k m Hm.
    unfold GUILD_RANKS_MAX_COUNT. destruct (Hx k _ (member_rank_at _ _ _ Hm)) as [->|[Hk Hb]]; [rewrite Hlow; lia|].
    destruct (member_rank_inv _ _ _ Hk) as (m0 & Hm0 & E). specialize (Hb m0 (proj2 (elem_of_hash_iter _ _ _) Hm0)).
    cbn in Hb. rewrite Hsz in Hb. lia.
Qed.

(** The leader may be no member: he is replaced before he is removed. *)
Lemma SetLeader_any k k' w : is_Some (m_members (guild w) !! k) →
  _SetLeaderGUID k (w <| guild ::= λ g, g <| m_leaderGuid := k' |> |>) = _SetLeaderGUID k w.
Proof.
  intros [m Hm]. destruct w as [[] ps its]. unfold _SetLeaderGUID, mbind, act_bind, get, require, on_guild, modify. cbn in *.
  by rewrite Hm.
Qed.
Lemma SetRank_nobody guid r w : players w = ∅ → SetRank guid r w = Done tt w [].
Proof.
  intros Hp. destruct w as [g ps its]. cbn in Hp. by subst.
Qed.
Lemma wp_SetRank_nobody guid r w (Q : unit → GuildWorld → list guild_event → Prop) : players w = ∅ → Q tt w [] → wp (SetRank guid r) Q w.
Proof. intros Hp HQ. unfold wp. by rewrite SetRank_nobody. Qed.
Lemma wp_same_run {A} (m : gact A) Q w w0 : m w0 = m w → wp m Q w0 → wp m Q w.
Proof. unfold wp. by intros ->. Qed.
Lemma nobody sh w : inv_at sh w → sh_players sh = ∅ → players w = ∅.
Proof. intros [_ <-] Hp. by apply dom_empty_inv_L. Qed.

Definition led (w : GuildWorld) : Prop := guild_inv w ∧ leader_master w ∧ players w = ∅.

Lemma wp_repair_leader w : headless w →
  wp repair_leader (λ ok w' _, if ok then led w' else disbanded w') w.
Proof.
  intros Hw. pose proof Hw as ([] & Hrk & Hm). unfold repair_leader. apply wp_bind_get. cbv zeta.
  unfold GetMember. rewrite GUID_LOPART_id by done. set (ld := m_leaderGuid (guild w)) in *.
  destruct (m_members (guild w) !! ld) as [pl|] eqn:Hl.
  - assert (guild_inv w) as Hi.
    { pose proof (headless_inv w ld Hw ltac:(by eexists)) as Hi. by destruct w as [[] ps its]. }
    assert (∀ sh w1, inv_at sh w1 → sh_players sh = ∅ → sh_members sh !! sh_leader sh = Some GR_GUILDMASTER → led w1) as Hled.
    { intros sh w1 Hw1 Hp Hg. split; [apply Hw1|]. split; [by eapply leader_master_shape; [apply Hw1|]|by eapply nobody]. }
    assert (sh_players (shape_of w) = ∅) as Hno by (cbn; by rewrite ld_players0, dom_empty_L).
    destruct (Member.IsRank GR_GUILDMASTER pl) eqn:Er; cbn [negb when].
    + apply wp_bind, wp_ret, wp_ret. eapply (Hled (shape_of w)); [by apply inv_at_self|done|].
      change (member_ranks w !! ld = Some GR_GUILDMASTER). rewrite (member_rank_at _ _ _ Hl). apply Z.eqb_eq in Er. by rewrite Er.
    + apply wp_bind. apply (wp_SetLeaderGUID (shape_of w)); [by apply inv_at_self| |].
      * change (ld ∈ dom (member_ranks w)). apply elem_of_dom. rewrite (member_rank_at _ _ _ Hl). by eexists.
      * intros w1 t1 Hw1. apply wp_ret. eapply Hled; [exact Hw1|done|]. cbn. by rewrite lookup_insert_eq.
  - apply wp_bind. unfold DeleteMember. apply wp_bind_get. cbv zeta. fold ld. rewrite Z.eqb_refl, GUID_LOPART_id by done. cbn [negb andb].
    pose proof (newLeader_of_spec ld (hash_iter (m_members (guild w)))) as Hspec.
    destruct (newLeader_of ld (hash_iter (m_members (guild w)))) as [[k nl]|].
    + destruct Hspec as (Hin & Hne & _). cbn in Hne. apply elem_of_hash_iter in Hin.
      pose proof (headless_inv w k Hw ltac:(by eexists)) as Hi. set (w0 := w <| guild ::= λ g, g <| m_leaderGuid := k |> |>) in *.
      apply wp_bind. eapply (wp_same_run _ _ w w0); [apply SetLeader_any; by eexists|].
      apply (wp_SetLeaderGUID (shape_of w0)); [by apply inv_at_self| |].
      { change (k ∈ dom (member_ranks w)). apply elem_of_dom. rewrite (member_rank_at w k nl) by done. by eexists. }
      intros w1 t1 Hw1. set (sh := with_leader k (with_rank k GR_GUILDMASTER (shape_of w0))) in *.
      assert (sh_players sh = ∅) as Hno by (cbn; by rewrite ld_players0, dom_empty_L).
      apply wp_bind, wp_SetRank_nobody; [by eapply nobody|].
      rewrite Hl. apply wp_bind, wp_ret.
      apply (wp_erase_inv sh); [done|done|done|]. intros w2 t2 Hw2. apply wp_bind_get.
      assert (member_ranks w2 !! k = Some GR_GUILDMASTER) as Hk.
      { destruct Hw2 as [_ Hs]. apply (f_equal sh_members) in Hs. change (sh_members (shape_of w2)) with (member_ranks w2) in Hs.
        rewrite Hs. cbn. rewrite lookup_delete_ne, lookup_insert_eq by done. done. }
      rewrite bool_decide_eq_false_2; [apply wp_ret|].
      * split; [apply Hw2|]. split; [|by eapply nobody]. eapply leader_master_shape; [apply Hw2|].
        cbn. rewrite lookup_delete_ne, lookup_insert_eq by done. done.
      * intros E. destruct (member_rank_inv _ _ _ Hk) as (m & Hm' & _). by rewrite E, lookup_empty in Hm'.
    + eapply wp_mono; [apply wp_Disband; by apply headless_closing|].
      intros [] w1 t1 ((Hd & _) & Hdom & Hid & _). apply wp_bind_get. destruct Hd as (E1 & E2 & E3).
      rewrite bool_decide_eq_true_2 by done. apply wp_bind.
      assert (players w1 = ∅) as Hp1 by (apply dom_empty_inv_L; by rewrite Hdom, ld_players0, dom_empty_L).
      eapply wp_mono; [apply wp_Disband|].
      * split; [by rewrite Hid|rewrite E1; apply map_Forall_empty|rewrite Hp1; apply map_Forall_empty].
      * intros [] w2 t2 ((Hd & _) & _). by apply wp_ret.
Qed.

Definition is_master (ld : Z) (km : Z * Member.t) : bool :=
  (Member.m_rankId km.2 =? GR_GUILDMASTER) && negb (Member.IsSamePlayer ld km.2).
Lemma wp_masters_loop ld l : ∀ w, led w → m_leaderGuid (guild w) = ld →
  (∀ km, km ∈ l → is_Some (m_members (guild w) !! km.1) ∧ Member.m_guid km.2 = km.1) →
  wp (forM_ l (λ km, when (is_master ld km) (ChangeRank km.1 GR_OFFICER))) (λ _ w' _, led w' ∧ m_leaderGuid (guild w') = ld ∧
    ∀ k x, member_ranks w' !! k = Some x → x = GR_OFFICER ∨
      (member_ranks w !! k = Some x ∧ ∀ m, (k, m) ∈ l → is_master ld (k, m) = false)) w.
Proof.
  induction l as [|[k m] l IH]; intros w Hw Hl Hin; cbn [forM_].
  { apply wp_ret. split; [done|]. split; [done|]. intros k x Hx. right. split; [done|]. intros m Hm. by apply not_elem_of_nil in Hm. }
  apply wp_bind. destruct (Hin (k, m)) as [Hk Hg]; [by left|]. cbn [fst snd] in *. destruct (is_master ld (k, m)) eqn:Eb; cbn [when].
  - assert (k ≠ ld) as Hne.
    { intros ->. apply andb_true_iff in Eb as [_ Eb]. unfold Member.IsSamePlayer in Eb. cbn in Eb. rewrite Hg, Z.eqb_refl in Eb. done. }
    destruct Hw as (Hi & Hlm & Hp). apply (wp_ChangeRank (shape_of w)); [by apply inv_at_self| |unfold GUILD_RANKS_MAX_COUNT, GR_OFFICER; lia|].
    { change (k ∈ dom (member_ranks w)). apply elem_of_dom. destruct Hk as [m0 Hm0]. rewrite (member_rank_at _ _ _ Hm0). by eexists. }
    intros w1 t1 [Hw1 Hs]. injection Hs as ? ? Hpl Hm Hld Hid Hot. cbn in Hm.
    assert (∀ j, j ≠ k → member_ranks w1 !! j = member_ranks w !! j) as Hj by (intros j Hj; by rewrite Hm, lookup_insert_ne).
    eapply wp_mono; [apply IH|].
    + split; [done|]. split; [|apply dom_empty_inv_L; by rewrite Hpl, Hp, dom_empty_L].
      unfold leader_master. rewrite Hld, Hl, Hj by done. unfold leader_master in Hlm. by rewrite Hl in Hlm.
    + congruence.
    + intros [k' m'] Hkm. destruct (Hin (k', m')) as [[m0 Hm0] Hg']; [by right|]. split; [|done]. cbn in *.
      destruct (decide (k' = k)) as [->|Hne'].
      * destruct (member_rank_inv w1 k GR_OFFICER) as (m1 & Hm1 & _); [by rewrite Hm, lookup_insert_eq|by eexists].
      * destruct (member_rank_inv w1 k' (Member.m_rankId m0)) as (m1 & Hm1 & _); [by rewrite Hj, (member_rank_at _ _ _ Hm0)|by eexists].
    + intros [] w2 t2 (A1 & A2 & A3). split; [done|]. split; [done|]. intros j x Hjx. destruct (A3 j x Hjx) as [->|[A4 A5]]; [by left|].
      destruct (decide (j = k)) as [->|Hne']; [left; rewrite Hm, lookup_insert_eq in A4; congruence|right].
      rewrite <- Hj by done. split; [done|]. intros m' [[= -> _]|Hl']%elem_of_cons; [done|by apply A5].
  - apply wp_ret. eapply wp_mono; [apply IH; [done|done|]|].
    + intros km Hkm. apply Hin. by right.
    + intros [] w2 t2 (A1 & A2 & A3). split; [done|]. split; [done|]. intros j x Hjx. destruct (A3 j x Hjx) as [->|[A4 A5]]; [by left|right].
      split; [done|]. intros m' [[= -> ->]|Hl']%elem_of_cons; [done|by apply A5].
Qed.

(** Only the leader has the leader's rank, unless the configuration allows more. *)
Definition one_master (w : GuildWorld) : Prop :=
  AllowMultipleGuildMaster = false → ∀ k, member_ranks w !! k = Some GR_GUILDMASTER → k = m_leaderGuid (guild w).
Lemma wp_repair_masters w : led w → wp repair_masters (λ _ w' _, led w' ∧ one_master w') w.
Proof.
  intros Hw. unfold repair_masters. apply wp_bind_get. unfold one_master. destruct AllowMultipleGuildMaster; cbn [negb when]; [by apply wp_ret|].
  eapply wp_mono; [apply (wp_masters_loop (m_leaderGuid (guild w))); [done|done|]|].
  - intros [k m] Hkm. apply elem_of_hash_iter in Hkm. split; [by eexists|]. cbn. apply (gi_members _ (proj1 Hw) k m Hkm).
  - intros [] w' t (Hw' & Hl & Hx). split; [done|]. intros _ k Hk. rewrite Hl. destruct (Hx k _ Hk) as [E|[Hk' Hb]]; [done|].
    destruct (member_rank_inv _ _ _ Hk') as (m & Hm & Hr). specialize (Hb m (proj2 (elem_of_hash_iter _ _ _) Hm)).
    unfold is_master in Hb. cbn in Hb. rewrite Hr in Hb. cbn in Hb. apply negb_false_iff, Z.eqb_eq in Hb.
    rewrite <- Hb. symmetry. apply (gi_members _ (proj1 Hw) k m Hm).
Qed.

Definition validated (ok : bool) (w : GuildWorld) : Prop :=
  if ok then guild_inv w ∧ leader_master w ∧ one_master w else disbanded w.
Lemma wp_Validate w : loaded w → wp Validate (λ ok w' _, validated ok w') w.
Proof.
  intros Hw. unfold Validate. apply wp_bind. eapply wp_mono; [by apply wp_repair_ranks|]. intros [] w1 t1 [Hw1 Hr1].
  apply wp_bind. eapply wp_mono; [by apply wp_repair_members|]. intros [] w2 t2 Hw2.
  apply wp_bind. eapply wp_mono; [by apply wp_repair_leader|]. intros [] w3 t3 Hw3; cbn [negb]; [|by apply wp_ret].
  apply wp_bind. eapply wp_mono; [by apply wp_repair_masters|]. intros [] w4 t4 [(Hi & Hlm & _) H1m].
  unfold _UpdateAccountsNumber, on_guild. apply wp_bind_modify, wp_ret.
  split; [|by split]. by apply (inv_at_core (shape_of w4)); [|apply inv_at_self].
Qed.

Lemma keeps_rows {R} (I : GuildWorld → Prop) (P : R → Prop) (f : R → gact unit) l :
  Forall P l → (∀ r, P r → keeps I (f r)) → keeps I (forM_ l f).
Proof. intros Hl Hf. apply keeps_forM. intros r Hr. rewrite Forall_forall in Hl. by apply Hf, Hl. Qed.
Lemma keeps_drop {A} (I : GuildWorld → Prop) (m : gact A) : keeps I m → keeps I (_ ← m; mret tt).
Proof. intros Hm. apply keeps_bind; [done|]. intros a. apply keeps_ret. Qed.

Lemma wp_LoadGuild t its : rows_ok t →
  1 <= CONFIG_GUILD_EVENT_LOG_COUNT < 2 ^ 32 → 1 <= CONFIG_GUILD_BANK_EVENT_LOG_COUNT < 2 ^ 32 →
  wp (LoadGuild t) (λ ok w' _, validated ok w') (mkGuildWorld new_Guild ∅ its).
Proof.
  intros [] Hc1 Hc2. unfold LoadGuild. apply wp_bind. eapply wp_mono; [by apply wp_load_guild_row|]. intros _ w1 t1 [Hw1 Hr1].
  apply wp_bind. eapply wp_mono; [apply wp_load_ranks; [done|done|rewrite Hr1; cbn; lia]|]. intros [] w2 t2 Hw2.
  apply (wp_bind_keeps loaded); [eapply keeps_rows; [exact ok_members0|]|done|].
  { intros r [Hg Hr]. by apply keeps_drop, keeps_LoadMember. }
  intros _ w3 t3 Hw3. apply (wp_bind_keeps loaded); [eapply keeps_rows; [exact ok_rights0|]|done|].
  { intros r [Hg Hr]. by apply keeps_LoadBankRight. }
  intros _ w4 t4 Hw4. apply (wp_bind_keeps loaded); [apply keeps_forM; intros r _; apply keeps_drop, keeps_LoadEventLog|done|].
  intros _ w5 t5 Hw5. apply (wp_bind_keeps loaded); [eapply keeps_rows; [exact ok_bank_logs0|]|done|].
  { intros r Hr. by apply keeps_drop, keeps_LoadBankEventLog. }
  intros _ w6 t6 Hw6. apply (wp_bind_keeps loaded); [eapply keeps_rows; [exact ok_tabs0|]|done|].
  { intros r Hr. by apply keeps_LoadBankTab. }
  intros _ w7 t7 Hw7. apply (wp_bind_keeps loaded); [eapply keeps_rows; [exact ok_items0|]|done|].
  { intros r Hr. by apply keeps_drop, keeps_LoadBankItem. }
  intros _ w8 t8 Hw8. by apply wp_Validate.
Qed.
End LoadRules.

(** ** What loading guarantees *)

#[export] Instance guild_load_env0 : GuildLoadEnv := {|
  GetItemTemplate := λ entry, bool_decide (entry ∈ [2589; 4306]);
  Item_LoadFromDB := λ _ _ _, None |}.

(** The leader's row is gone, there are two ranks of five, and one member has no character. *)
Definition rows0 : guild_rows :=
  mkGuildRows (mkGuildRow 7 "Iron" 99 0 0 0 0 0 "" "" 500 0 1)
    [mkRankRow 7 0 "Lead" GR_RIGHT_ALL 0; mkRankRow 7 1 "Rest" 0 0]
    [mkMemberRow 7 20 4 "" "" [] "Bob" 20 1 12 3 900; mkMemberRow 7 30 2 "" "" [] "Cid" 20 1 0 4 900;
     mkMemberRow 7 40 1 "" "" [] "" 0 0 0 0 0; mkMemberRow 7 50 200 "" "" [] "Dee" 20 1 12 4 900;
     mkMemberRow 7 60 0 "" "" [] "Eve" 20 1 12 5 900]
    [mkBankRightRow 7 0 1 3 10] [mkEventLogRow 7 3 GUILD_EVENT_LOG_JOIN_GUILD 20 0 0 800]
    [mkBankEventLogRow 7 0 1 GUILD_BANK_LOG_DEPOSIT_ITEM 20 2589 5 0 800]
    [mkBankTabRow 7 0 "Cloth" "" ""; mkBankTabRow 7 3 "Lost" "" ""] [mkBankItemRow [] 7 0 4 900 2589].

(** A row of rights whose TabId is 200, for a rank that exists: the signed tab id
    is negative, less than the number of tabs, and the write is before the array. *)
Definition rows_outside : guild_rows :=
  mkGuildRows (t_guild rows0) (t_ranks rows0) (t_members rows0) [mkBankRightRow 7 200 1 3 10]
    (t_eventlog rows0) (t_bank_eventlog rows0) (t_tabs rows0) (t_items rows0).
Theorem rights_row_leaves_array :
  match LoadGuild rows_outside (mkGuildWorld new_Guild ∅ ∅) with
  | Fault f _ _ => f = OutOfBounds
  | Done _ _ _ => False
  end.
Proof. vm_compute. reflexivity. Qed.

(** C24: A guild read from the tables.  Whatever rows the database holds - no
    ranks, too many or out of order, members of unknown rank or without a
    character, a leader who is no member or holds another rank, bank tabs and
    logs that do not fit - loading runs to its end without going outside an
    array, and a guild that is kept obeys the rules of ranks, members, tabs and
    logs, its leader is a member of the highest rank, and nobody else is, unless
    the configuration allows it; a guild that is not kept has been disbanded.
    Of the rows it is asked that the guild's id is not 0, that there are at most
    256 ranks, that numbers are as wide as their columns, and that a row of tab
    rights is for a tab below 128: from 128 on the signed tab id is negative and
    the row of an existing rank is written outside the array
    (rights_row_leaves_array).  The configuration is asked to keep at least one
    record in each log. *)
Theorem guild_loads_sound `{GuildLaws, GuildLoadEnv} t its :
  rows_ok t →
  1 <= CONFIG_GUILD_EVENT_LOG_COUNT < 2 ^ 32 → 1 <= CONFIG_GUILD_BANK_EVENT_LOG_COUNT < 2 ^ 32 →
  wp (LoadGuild t) (λ ok w' _,
    if ok then guild_inv w' ∧ leader_master w' ∧
      (AllowMultipleGuildMaster = false →
       ∀ k, member_ranks w' !! k = Some GR_GUILDMASTER → k = m_leaderGuid (guild w'))
    else disbanded w') (mkGuildWorld new_Guild ∅ its).
Proof. intros Ht Hc1 Hc2. exact (wp_LoadGuild t its Ht Hc1 Hc2). Qed.
Lemma guild_loads_sound_witness :
  wp (LoadGuild rows0) (λ ok w' _,
    (if ok then guild_inv w' ∧ leader_master w' ∧
       (AllowMultipleGuildMaster = false →
        ∀ k, member_ranks w' !! k = Some GR_GUILDMASTER → k = m_leaderGuid (guild w'))
     else disbanded w') ∧
    (ok, m_leaderGuid (guild w'), length (m_ranks (guild w')), ranks_of w') = (true, 60, 5%nat, [(20, 4); (30, 2); (50, 4); (60, 0)]))
    (mkGuildWorld new_Guild ∅ ∅).
Proof.
  pose proof (guild_loads_sound rows0 ∅ ltac:(split; cbn; repeat constructor; done || lia)
    ltac:(done) ltac:(done)) as Hw.
  assert (match LoadGuild rows0 (mkGuildWorld new_Guild ∅ ∅) with
          | Done ok w' _ => (ok, m_leaderGuid (guild w'), length (m_ranks (guild w')), ranks_of w')
          | Fault _ _ _ => (false, 0, 0%nat, []) end = (true, 60, 5%nat, [(20, 4); (30, 2); (50, 4); (60, 0)])) as Hr
    by (vm_compute; reflexivity).
  revert Hw Hr. unfold wp. destruct (LoadGuild rows0 _); [|intros []].
  intros Hw Hr. exact (conj Hw Hr).
Defined.
