(* ===== verification/Group.v ===== *)
(** Groups: src/server/game/Groups/Group.h and Group.cpp with the manager of
    GroupMgr.cpp, and the methods of [Player] that link players to groups.  The
    groups are objects of a heap, since players, the manager and other groups
    hold pointers to them.  The packet handlers are in GroupHandler.v. *)

From S2P Require Import Prelude ByteBuffer Util Rbac Channel Social.
Open Scope string_scope.
Open Scope list_scope.
Open Scope Z_scope.

(** ** Constants *)

Definition MAXGROUPSIZE : Z := 5.
Definition MAXRAIDSIZE : Z := 40.
Definition MAX_RAID_SUBGROUPS : Z := MAXRAIDSIZE / MAXGROUPSIZE.
Definition TARGETICONCOUNT : Z := 8.

Definition MEMBER_STATUS_OFFLINE : Z := 0x0000.
Definition MEMBER_STATUS_ONLINE : Z := 0x0001.
Definition MEMBER_STATUS_PVP : Z := 0x0002.

Definition MEMBER_FLAG_ASSISTANT : Z := 0x01.
Definition MEMBER_FLAG_MAINTANK : Z := 0x02.
Definition MEMBER_FLAG_MAINASSIST : Z := 0x04.

Definition GROUPTYPE_NORMAL : Z := 0x00.
Definition GROUPTYPE_BG : Z := 0x01.
Definition GROUPTYPE_RAID : Z := 0x02.
Definition GROUPTYPE_BGRAID : Z := Z.lor GROUPTYPE_BG GROUPTYPE_RAID.
Definition GROUPTYPE_UNK1 : Z := 0x04.
Definition GROUPTYPE_LFG : Z := 0x08.

Definition GROUP_UPDATE_FULL : Z := 0x0007FFFF.

Definition FREE_FOR_ALL : Z := 0.
Definition ROUND_ROBIN : Z := 1.
Definition MASTER_LOOT : Z := 2.
Definition GROUP_LOOT : Z := 3.
Definition NEED_BEFORE_GREED : Z := 4.

Definition ITEM_QUALITY_UNCOMMON : Z := 2.

Definition DUNGEON_DIFFICULTY_NORMAL : Z := 0.
Definition DUNGEON_DIFFICULTY_HEROIC : Z := 1.
Definition RAID_DIFFICULTY_10MAN_NORMAL : Z := 0.
Definition RAID_DIFFICULTY_25MAN_NORMAL : Z := 1.
Definition MAX_DUNGEON_DIFFICULTY : Z := 3.
Definition MAX_RAID_DIFFICULTY : Z := 4.
Definition MAX_DIFFICULTY : Z := 4.

Definition GROUP_REMOVEMETHOD_DEFAULT : Z := 0.
Definition GROUP_REMOVEMETHOD_KICK : Z := 1.
Definition GROUP_REMOVEMETHOD_LEAVE : Z := 2.
Definition GROUP_REMOVEMETHOD_KICK_LFG : Z := 3.

Definition INSTANCE_RESET_ALL : Z := 0.
Definition INSTANCE_RESET_CHANGE_DIFFICULTY : Z := 1.
Definition INSTANCE_RESET_GROUP_DISBAND : Z := 3.
Definition INSTANCE_RESET_GROUP_JOIN : Z := 4.

Definition LFG_STATE_BOOT : Z := 4.
Definition LFG_STATE_FINISHED_DUNGEON : Z := 6.
Definition LFG_GROUP_KICK_VOTES_NEEDED : Z := 3.
Definition LEVELREQUIREMENT_HEROIC : Z := 70.
Definition HIGHGUID_GROUP : Z := 0x1F50.
Definition HIGHGUID_ITEM : Z := 0x4000.

Definition ROLL_PASS : Z := 0.
Definition ROLL_NEED : Z := 1.
Definition ROLL_GREED : Z := 2.
Definition ROLL_DISENCHANT : Z := 3.
Definition MAX_ROLL_TYPE : Z := 4.
Definition ROLL_FLAG_TYPE_NEED : Z := 0x02.
Definition ROLL_FLAG_TYPE_DISENCHANT : Z := 0x08.
Definition ROLL_ALL_TYPE_NO_DISENCHANT : Z := 0x07.
Definition ITEM_FLAGS_EXTRA_NEED_ROLL_DISABLED : Z := 0x100.
Definition ACHIEVEMENT_CRITERIA_TYPE_CAST_SPELL : Z := 29.
Definition ACHIEVEMENT_CRITERIA_TYPE_ROLL_NEED_ON_LOOT : Z := 50.
Definition ACHIEVEMENT_CRITERIA_TYPE_ROLL_GREED_ON_LOOT : Z := 51.
Definition EQUIP_ERR_OK : Z := 0.

Definition ERR_PARTY_RESULT_OK : Z := 0.
Definition ERR_BAD_PLAYER_NAME_S : Z := 1.
Definition ERR_TARGET_NOT_IN_GROUP_S : Z := 2.
Definition ERR_TARGET_NOT_IN_INSTANCE_S : Z := 3.
Definition ERR_GROUP_FULL : Z := 4.
Definition ERR_ALREADY_IN_GROUP_S : Z := 5.
Definition ERR_NOT_IN_GROUP : Z := 6.
Definition ERR_NOT_LEADER : Z := 7.
Definition ERR_PLAYER_WRONG_FACTION : Z := 8.
Definition ERR_IGNORING_YOU_S : Z := 9.
Definition ERR_INVITE_RESTRICTED : Z := 13.
Definition ERR_PARTY_LFG_BOOT_LIMIT : Z := 20.
Definition ERR_PARTY_LFG_BOOT_IN_PROGRESS : Z := 22.
Definition ERR_PARTY_LFG_BOOT_TOO_FEW_PLAYERS : Z := 23.
Definition ERR_PARTY_LFG_BOOT_IN_COMBAT : Z := 26.
Definition ERR_PARTY_LFG_BOOT_DUNGEON_COMPLETE : Z := 28.
Definition ERR_PARTY_LFG_BOOT_LOOT_ROLLS : Z := 29.

Definition SMSG_GROUP_UNINVITE : Z := 0x077.
Definition SMSG_GROUP_SET_LEADER : Z := 0x079.
Definition SMSG_GROUP_DESTROYED : Z := 0x07C.
Definition SMSG_GROUP_LIST : Z := 0x07D.
Definition SMSG_LOOT_ALL_PASSED : Z := 0x29E.
Definition SMSG_LOOT_ROLL_WON : Z := 0x29F.
Definition SMSG_LOOT_START_ROLL : Z := 0x2A1.
Definition SMSG_LOOT_ROLL : Z := 0x2A2.
Definition SMSG_LOOT_MASTER_LIST : Z := 0x2A4.
Definition MSG_RAID_TARGET_UPDATE : Z := 0x321.
Definition MSG_RAID_READY_CHECK_CONFIRM : Z := 0x3AE.
Definition SMSG_LOOT_LIST : Z := 0x3F9.

(** ** Data *)

Inductive RollVote := PASS | NEED | GREED | DISENCHANT | NOT_EMITED_YET | NOT_VALID.
#[export] Instance RollVote_eq_dec : EqDecision RollVote.
Proof. solve_decision. Defined.
(** The numbers of the enumeration, for packets. *)
Definition vote_number (v : RollVote) : Z :=
  match v with PASS => 0 | NEED => 1 | GREED => 2 | DISENCHANT => 3 | NOT_EMITED_YET => 4 | NOT_VALID => 5 end.

(** [r_loot] is the reference to the loot, empty when the loot is gone. *)
Record Roll := mkRoll {
  itemGUID : Z; itemid : Z; itemRandomPropId : Z; itemRandomSuffix : Z; itemCount : Z;
  playerVote : gmap Z RollVote; totalPlayersRolling : Z; totalNeed : Z; totalGreed : Z; totalPass : Z;
  itemSlot : Z; rollVoteMask : Z; r_loot : option Z }.
#[export] Instance eta_Roll : Eta Roll := λ r,
  mkRoll (itemGUID r) (itemid r) (itemRandomPropId r) (itemRandomSuffix r) (itemCount r) (playerVote r)
    (totalPlayersRolling r) (totalNeed r) (totalGreed r) (totalPass r) (itemSlot r) (rollVoteMask r) (r_loot r).

Record LootItem := mkLootItem {
  li_itemid : Z; randomSuffix : Z; randomPropertyId : Z; count : Z;
  is_looted : bool; is_blocked : bool; freeforall : bool; is_underthreshold : bool;
  follow_loot_rules : bool; allowedGUIDs : gset Z }.
#[export] Instance eta_LootItem : Eta LootItem := λ r,
  mkLootItem (li_itemid r) (randomSuffix r) (randomPropertyId r) (count r) (is_looted r) (is_blocked r)
    (freeforall r) (is_underthreshold r) (follow_loot_rules r) (allowedGUIDs r).
Record Loot := mkLoot {
  items : list LootItem; quest_items : list LootItem; unlootedCount : Z; PlayersLooting : gset Z }.
#[export] Instance eta_Loot : Eta Loot := λ r,
  mkLoot (items r) (quest_items r) (unlootedCount r) (PlayersLooting r).

Module MemberSlot.
Record t := mk { guid : Z; name : string; group : Z; flags : Z; roles : Z }.
#[global] Instance eta_t : Eta t := λ r, mk (guid r) (name r) (group r) (flags r) (roles r).
End MemberSlot.

(** What is bound to an instance: a save by number, if any, and whether for good. *)
Record InstanceGroupBind := mkBind { save : option Z; perm : bool }.

(** A [GroupReference] is part of its player: [m_group] or [m_originalGroup].
    [iRefTo] is the group it points to; a group's list holds such references. *)
Record GroupReference := mkRef { iRefTo : option Z; iSubGroup : Z }.
#[export] Instance eta_GroupReference : Eta GroupReference := λ r, mkRef (iRefTo r) (iSubGroup r).
Inductive which := RGroup | ROriginal.
#[export] Instance which_eq_dec : EqDecision which.
Proof. solve_decision. Defined.

Record Group := mkGroup {
  m_memberSlots : list MemberSlot.t; m_memberMgr : list (which * Z); m_invitees : gset Z;
  m_leaderGuid : Z; m_leaderName : string; m_groupType : Z;
  m_dungeonDifficulty : Z; m_raidDifficulty : Z; m_bgGroup : option Z; m_bfGroup : option Z;
  m_targetIcons : list Z; m_lootMethod : Z; m_lootThreshold : Z; m_looterGuid : Z;
  RollId : list Roll; m_boundInstances : list (gmap Z InstanceGroupBind);
  m_subGroupsCounts : option (list Z); m_guid : Z; m_counter : Z; m_maxEnchantingLevel : Z; m_dbStoreId : Z }.
#[export] Instance eta_Group : Eta Group := λ r,
  mkGroup (m_memberSlots r) (m_memberMgr r) (m_invitees r) (m_leaderGuid r) (m_leaderName r) (m_groupType r)
    (m_dungeonDifficulty r) (m_raidDifficulty r) (m_bgGroup r) (m_bfGroup r) (m_targetIcons r) (m_lootMethod r)
    (m_lootThreshold r) (m_looterGuid r) (RollId r) (m_boundInstances r) (m_subGroupsCounts r) (m_guid r)
    (m_counter r) (m_maxEnchantingLevel r) (m_dbStoreId r).

(** What groups use of a player; the session is always there. *)
Record Player := mkPlayer {
  GetName : string; IsInWorld : bool; m_group : GroupReference; m_originalGroup : GroupReference;
  m_groupInvite : option Z; InBattleground : bool; getLevel : Z; GetDungeonDifficulty : Z;
  GetRaidDifficulty : Z; enchanting_skill : Z; GetTeam : Z; isGameMaster : bool; isInCombat : bool;
  GetInstanceId : Z; GetMapId : Z; map_Instanceable : bool; isAlive : bool; p_social : PlayerSocial;
  GetPassOnGroupLoot : bool; p_boundInstances : list (gmap Z InstanceGroupBind) }.
#[export] Instance eta_Player : Eta Player := λ r,
  mkPlayer (GetName r) (IsInWorld r) (m_group r) (m_originalGroup r) (m_groupInvite r) (InBattleground r)
    (getLevel r) (GetDungeonDifficulty r) (GetRaidDifficulty r) (enchanting_skill r) (GetTeam r) (isGameMaster r)
    (isInCombat r) (GetInstanceId r) (GetMapId r) (map_Instanceable r) (isAlive r) (p_social r)
    (GetPassOnGroupLoot r) (p_boundInstances r).

(** The groups by address, the players by guid, the manager, the loots of the
    world by address, the counter of item guids and how many random numbers were
    drawn. *)
Record GroupWorld := mkGroupWorld {
  groups : gmap Z Group; next_group : Z; players : gmap Z Player;
  GroupStore : gmap Z Z; GroupDbStore : list (option Z); NextGroupDbStoreId : Z; NextGroupId : Z;
  loots : gmap Z Loot; _hiItemGuid : Z; drawn : nat }.
#[export] Instance eta_GroupWorld : Eta GroupWorld := λ r,
  mkGroupWorld (groups r) (next_group r) (players r) (GroupStore r) (GroupDbStore r) (NextGroupDbStoreId r)
    (NextGroupId r) (loots r) (_hiItemGuid r) (drawn r).

(** Calls out: packets, statements, script hooks, and calls on players, maps and
    instance saves. *)
Inductive group_event :=
  | Send (guid : Z) (p : WorldPacket)
  | CHAR_INS_GROUP (id leader lootMethod looter lootThreshold : Z) (icons : list Z) (groupType difficulty raid : Z)
  | CHAR_INS_GROUP_MEMBER (id member flags subgroup roles : Z)
  | CHAR_DEL_GROUP_MEMBER (member : Z)
  | CHAR_DEL_GROUP (id : Z)
  | CHAR_DEL_GROUP_MEMBER_ALL (id : Z)
  | CHAR_UPD_GROUP_TYPE (groupType id : Z)
  | CHAR_UPD_GROUP_LEADER (leader id : Z)
  | CHAR_UPD_GROUP_MEMBER_SUBGROUP (subgroup member : Z)
  | CHAR_UPD_GROUP_MEMBER_FLAG (flags member : Z)
  | CHAR_UPD_GROUP_DIFFICULTY (difficulty id : Z)
  | CHAR_UPD_GROUP_RAID_DIFFICULTY (difficulty id : Z)
  | CHAR_DEL_GROUP_INSTANCE_PERM_BINDING (id leader : Z)
  | CHAR_REP_GROUP_INSTANCE (id instance : Z) (perm : bool)
  | CHAR_DEL_GROUP_INSTANCE_BY_INSTANCE (instance : Z)
  | CHAR_DEL_GROUP_INSTANCE_BY_GUID (id instance : Z)
  | CHAR_DEL_CHAR_INSTANCE_BY_INSTANCE_GUID (guid instance : Z)
  | CHAR_DEL_LFG_DATA (id : Z)
  | OnGroupInviteMember (g guid : Z)
  | OnGroupAddMember (g guid : Z)
  | OnGroupRemoveMember (g guid method kicker : Z) (reason : string)
  | OnGroupChangeLeader (g newLeader oldLeader : Z)
  | OnGroupDisband (g : Z)
  | UpdateForQuestWorldObjects (guid : Z)
  | UpdateObjectVisibility (guid : Z)
  | SetInstanceValid (guid : Z) (valid : bool)
  | Player_ResetInstances (guid method : Z) (isRaid : bool)
  | SendDungeonDifficulty (guid : Z)
  | SendRaidDifficulty (guid : Z)
  | SetGroupUpdateFlag (guid flag : Z)
  | SendPartyMemberStats (toGuid aboutGuid : Z)
  | SendValuesUpdate (toGuid aboutGuid : Z)
  | ForceValuesUpdate (guid : Z)
  | RepopAtGraveyard (guid : Z)
  | SendCalendarRaidLockout (guid save : Z)
  | SaveAddGroup (save g : Z)
  | SaveRemoveGroup (save g : Z)
  | SaveRemovePlayer (save guid : Z)
  | SaveDeleteFromDB (save : Z)
  | MapReset (map method : Z)
  | SendResetInstance (guid map : Z) (success : bool)
  | SetBgRaidNull (bg g : Z)
  | LFG_LoadFromDB (g : Z)
  | LFG_SetupGroupMember (guid g : Z)
  | StopNow
  | UpdateAchievementCriteria (guid type misc1 misc2 : Z)
  | StoreNewItem (guid itemid propId : Z) (dest : list (Z * Z)) (allowed : gset Z)
  | AutoStoreLoot (guid disenchantId : Z)
  | SendEquipErrorItem (guid msg itemid : Z)
  | SendNotifyLootItemRemoved (guid lootIndex : Z)
  | GroupLootTimer (object lowGuid : Z).
Notation gact := (act GroupWorld group_event).

Record ItemTemplate := mkItemTemplate {
  Quality : Z; DisenchantID : Z; RequiredDisenchantSkill : Z; Flags2 : Z }.
(** An object that is looted; the timer of group loot is set on the first two. *)
Inductive object_kind := KCreature | KGameObject | KOther.
Record LootedObject := mkLootedObject { obj_id : Z; obj_kind : object_kind; obj_map : Z }.

(** The rows of the tables of groups, of their members and of their binds; the
    icons are eight columns. *)
Record group_row := mkGroupRow {
  row_leaderGuid : Z; row_lootMethod : Z; row_looterGuid : Z; row_lootThreshold : Z; row_icons : list Z;
  row_groupType : Z; row_difficulty : Z; row_raiddifficulty : Z; row_guid : Z }.
Record member_row := mkMemberRow { row_group : Z; row_memberGuid : Z; row_memberFlags : Z; row_subgroup : Z; row_roles : Z }.
Record bind_row := mkBindRow { row_bind_group : Z; row_map : Z; row_instance : Z; row_permanent : bool; row_bind_difficulty : Z }.

(** What is read of the rest of the server: names of characters, the order of
    hash maps, map entries (dungeon, raid), instance saves, the dungeon finder's
    data, distances, item templates, the inventory, and the random numbers. *)
Class GroupEnv := {
  GetPlayerNameByGUID : Z → option string;
  hash_iter : ∀ {V}, gmap Z V → list (Z * V);
  sMapStore : Z → option (bool * bool);
  GetMapDifficultyData : Z → Z → bool;
  save_map : Z → Z; save_instance : Z → Z; save_difficulty : Z → Z; CanReset : Z → bool;
  FindDungeonMap : Z → Z → option Z; InstanceMap_Reset : Z → Z → bool; HavePlayers : Z → bool;
  map_is_raid_type : Z → bool;
  LFG_GetState : Z → Z; LFG_GetDungeon : Z → Z; LFG_GetDungeonMapId : Z → Z; LFG_GetKicksLeft : Z → Z;
  GetBgRaid : Z → Z → bool;
  HaveAtClient : Z → Z → bool; IsWithinDist : Z → Z → bool; IsWithinDistInMap : Z → LootedObject → bool;
  GetItemTemplate : Z → option ItemTemplate;
  AllowedForPlayer : LootItem → Z → bool;
  CanRollForItemInLFG : Z → Z → LootedObject → bool;
  CanStoreNewItem : Z → Z → Z → Z * list (Z * Z);
  random : nat → Z → Z → Z }.

Section GroupOps.
Context `{GroupEnv}.

Definition deref (g : Z) : gact Group := w ← get; require (groups w !! g).
Definition on_group (g : Z) (f : Group → Group) : gact unit :=
  gr ← deref g; modify (λ w, w <| groups ::= <[g := f gr]> |>).
Definition player_of (p : Z) : gact Player := w ← get; require (players w !! p).
Definition on_player (p : Z) (f : Player → Player) : gact unit :=
  pl ← player_of p; modify (λ w, w <| players ::= <[p := f pl]> |>).
Definition send (p : Z) (data : WorldPacket) : gact unit := emit (Send p data).
(** [ObjectAccessor::FindPlayer]: players in the world only. *)
Definition FindPlayer (guid : Z) (w : GroupWorld) : option Player :=
  pl ← players w !! guid; if IsInWorld pl then Some pl else None.
Definition is_online (guid : Z) (w : GroupWorld) : bool := bool_decide (is_Some (FindPlayer guid w)).
(** [urand]. *)
Definition urand (min max : Z) : gact Z :=
  if max <? min then raise AssertFailed else
  w ← get; modify (λ w, w <| drawn ::= S |>) ;; mret (random (drawn w) min max).

(** *** Properties *)

Definition isLFGGroup (gr : Group) : bool := has_flag (m_groupType gr) GROUPTYPE_LFG.
Definition isRaidGroup (gr : Group) : bool := has_flag (m_groupType gr) GROUPTYPE_RAID.
Definition isBGGroup (gr : Group) : bool := bool_decide (is_Some (m_bgGroup gr)).
Definition isBFGroup (gr : Group) : bool := bool_decide (is_Some (m_bfGroup gr)).
(** Neither: such groups are kept in the database. *)
Definition stored_group (gr : Group) : bool := negb (isBGGroup gr) && negb (isBFGroup gr).
Definition GetMembersCount (gr : Group) : Z := u32 (Z.of_nat (length (m_memberSlots gr))).
Definition IsFull (gr : Group) : bool :=
  let n := Z.of_nat (length (m_memberSlots gr)) in
  if isRaidGroup gr then MAXRAIDSIZE <=? n else MAXGROUPSIZE <=? n.
Definition IsCreated (gr : Group) : bool := 0 <? GetMembersCount gr.
Definition GetLowGUID (gr : Group) : Z := GUID_LOPART (m_guid gr).
Definition IsLeader (guid : Z) (gr : Group) : bool := m_leaderGuid gr =? guid.
Definition isRollLootActive (gr : Group) : bool := bool_decide (RollId gr ≠ []).
Definition GetDifficulty (isRaid : bool) (gr : Group) : Z :=
  if isRaid then m_raidDifficulty gr else m_dungeonDifficulty gr.
Definition _getMemberSlot (guid : Z) (gr : Group) : option MemberSlot.t :=
  head (filter (λ s, MemberSlot.guid s = guid) (m_memberSlots gr)).
Definition IsMember (guid : Z) (gr : Group) : bool := bool_decide (is_Some (_getMemberSlot guid gr)).
Definition IsAssistant (guid : Z) (gr : Group) : bool :=
  match _getMemberSlot guid gr with
  | Some s => has_flag (MemberSlot.flags s) MEMBER_FLAG_ASSISTANT | None => false end.
Definition GetMemberGUID (name : string) (gr : Group) : Z :=
  match head (filter (λ s, MemberSlot.name s = name) (m_memberSlots gr)) with
  | Some s => MemberSlot.guid s | None => 0 end.
Definition GetMemberGroup (guid : Z) (gr : Group) : Z :=
  match _getMemberSlot guid gr with Some s => MemberSlot.group s | None => MAX_RAID_SUBGROUPS + 1 end.
Definition SameSubGroup (guid1 guid2 : Z) (gr : Group) : bool :=
  match _getMemberSlot guid1 gr, _getMemberSlot guid2 gr with
  | Some s1, Some s2 => MemberSlot.group s1 =? MemberSlot.group s2 | _, _ => false end.
(** Past the end of the array of counters. *)
Definition HasFreeSlotSubGroup (subgroup : Z) (gr : Group) : gact bool :=
  match m_subGroupsCounts gr with
  | None => mret false
  | Some c => match c !! Z.to_nat subgroup with
              | Some n => mret (n <? MAXGROUPSIZE) | None => raise OutOfBounds end
  end.
(** The invited are pointers to players; the search looks at each of them. *)
Fixpoint find_invited (f : Z → Player → bool) (l : list Z) : gact (option Z) :=
  match l with
  | [] => mret None
  | p :: l' => pl ← player_of p; if f p pl then mret (Some p) else find_invited f l'
  end.
Definition GetInvited (guid : Z) (gr : Group) : gact (option Z) :=
  find_invited (λ p _, p =? guid) (set_iter (m_invitees gr)).
Definition GetInvited_name (name : string) (gr : Group) : gact (option Z) :=
  find_invited (λ _ pl, String.eqb (GetName pl) name) (set_iter (m_invitees gr)).

(** *** References *)

Definition ref_of (k : which) (pl : Player) : GroupReference :=
  match k with RGroup => m_group pl | ROriginal => m_originalGroup pl end.
Definition set_ref (k : which) (f : GroupReference → GroupReference) (pl : Player) : Player :=
  match k with RGroup => pl <| m_group ::= f |> | ROriginal => pl <| m_originalGroup ::= f |> end.
Definition GetGroup (pl : Player) : option Z := iRefTo (m_group pl).
Definition GetSubGroup (pl : Player) : Z := iSubGroup (m_group pl).
Definition GetOriginalGroup (pl : Player) : option Z := iRefTo (m_originalGroup pl).
Definition GetOriginalSubGroup (pl : Player) : Z := iSubGroup (m_originalGroup pl).
(** [Reference::unlink], with [LinkedListElement::delink]. *)
Definition unlink (k : which) (p : Z) : gact unit :=
  pl ← player_of p;
  match iRefTo (ref_of k pl) with
  | Some g => on_group g (λ gr, gr <| m_memberMgr ::= filter (λ r, r ≠ (k, p)) |>)
  | None => mret tt
  end ;;
  on_player p (set_ref k (λ r, r <| iRefTo := None |>)).
(** [Reference::link] to a group, with [Group::LinkMember]. *)
Definition link (k : which) (g p : Z) : gact unit :=
  pl ← player_of p;
  when (bool_decide (is_Some (iRefTo (ref_of k pl)))) (unlink k p) ;;
  on_player p (set_ref k (λ r, r <| iRefTo := Some g |>)) ;;
  gr ← deref g;
  on_group g (λ gr, gr <| m_memberMgr ::= cons (k, p) |>).
Definition setSubGroup (k : which) (p subgroup : Z) : gact unit :=
  on_player p (set_ref k (λ r, r <| iSubGroup := subgroup |>)).
Definition SetGroup (p : Z) (group : option Z) (subgroup : Z) : gact unit :=
  match group with
  | None => unlink RGroup p
  | Some g =>
      if i8 subgroup <? 0 then raise AssertFailed else
      link RGroup g p ;; setSubGroup RGroup p (u8 (i8 subgroup))
  end ;;
  emit (UpdateObjectVisibility p).
Definition SetOriginalGroup (p : Z) (group : option Z) (subgroup : Z) : gact unit :=
  match group with
  | None => unlink ROriginal p
  | Some g =>
      if i8 subgroup <? 0 then raise AssertFailed else
      link ROriginal g p ;; setSubGroup ROriginal p (u8 (i8 subgroup))
  end.
Definition SetBattlegroundOrBattlefieldRaid (p g subgroup : Z) : gact unit :=
  pl ← player_of p;
  SetOriginalGroup p (GetGroup pl) (GetSubGroup pl) ;;
  unlink RGroup p ;; link RGroup g p ;; setSubGroup RGroup p (u8 (i8 subgroup)).
Definition RemoveFromBattlegroundOrBattlefieldRaid (p : Z) : gact unit :=
  unlink RGroup p ;;
  pl ← player_of p;
  match GetOriginalGroup pl with
  | Some g => link RGroup g p ;; setSubGroup RGroup p (GetOriginalSubGroup pl)
  | None => mret tt
  end ;;
  SetOriginalGroup p None (-1).
Definition DelinkMember (g guid : Z) : gact unit :=
  gr ← deref g;
  match head (filter (λ r, r.2 = guid) (m_memberMgr gr)) with
  | Some (k, p) => unlink k p
  | None => mret tt
  end.
Definition SetGroupInvite (p : Z) (group : option Z) : gact unit :=
  on_player p (λ pl, pl <| m_groupInvite := group |>).

(** *** The counters of sub-groups *)

Definition SubGroupCounter (f : Z → Z) (g subgroup : Z) : gact unit :=
  gr ← deref g;
  match m_subGroupsCounts gr with
  | None => mret tt
  | Some c =>
      if bool_decide (is_Some (c !! Z.to_nat subgroup))
      then on_group g (λ gr, gr <| m_subGroupsCounts := Some (alter (λ n, u8 (f n)) (Z.to_nat subgroup) c) |>)
      else raise OutOfBounds
  end.
Definition SubGroupCounterIncrease : Z → Z → gact unit := SubGroupCounter (λ n, n + 1).
Definition SubGroupCounterDecrease : Z → Z → gact unit := SubGroupCounter (λ n, n - 1).
Definition _initRaidSubGroupsCounter (g : Z) : gact unit :=
  on_group g (λ gr, gr <| m_subGroupsCounts := Some (replicate (Z.to_nat MAX_RAID_SUBGROUPS) 0) |>) ;;
  gr ← deref g;
  forM_ (m_memberSlots gr) (λ s, SubGroupCounterIncrease g (MemberSlot.group s)).

(** *** Packets *)

Definition BroadcastPacket (packet : WorldPacket) (ignorePlayersInBGRaid : bool) (group ignore g : Z) : gact unit :=
  w ← get; gr ← deref g;
  forM_ (m_memberMgr gr) (λ r,
    match players w !! r.2 with
    | None => mret tt
    | Some pl =>
        if (negb (ignore =? 0) && (r.2 =? ignore))
           || (ignorePlayersInBGRaid && negb (bool_decide (GetGroup pl = Some g))) then mret tt
        else when ((group =? -1) || (iSubGroup (ref_of r.1 pl) =? group)) (send r.2 packet)
    end).
Definition BroadcastReadyCheck (packet : WorldPacket) (g : Z) : gact unit :=
  gr ← deref g;
  forM_ (m_memberMgr gr) (λ r, when (IsLeader r.2 gr || IsAssistant r.2 gr) (send r.2 packet)).
Definition OfflineReadyCheck (g : Z) : gact unit :=
  w ← get; gr ← deref g;
  forM_ (m_memberSlots gr) (λ s,
    when (negb (is_online (MemberSlot.guid s) w))
      (BroadcastReadyCheck (Initialize MSG_RAID_READY_CHECK_CONFIRM <+ U64 (MemberSlot.guid s) <+ U8 0) g)).
Definition stream_all (data : WorldPacket) (fs : list field) : WorldPacket := foldl stream data fs.
Definition group_list (w : GroupWorld) (gr : Group) (slot : MemberSlot.t) : WorldPacket :=
  let n := u32 (GetMembersCount gr - 1) in
  stream_all (Initialize SMSG_GROUP_LIST)
    ([U8 (m_groupType gr); U8 (MemberSlot.group slot); U8 (MemberSlot.flags slot); U8 (MemberSlot.roles slot)] ++
     (if isLFGGroup gr
      then [U8 (if LFG_GetState (m_guid gr) =? LFG_STATE_FINISHED_DUNGEON then 2 else 0); U32 (LFG_GetDungeon (m_guid gr))]
      else []) ++
     [U64 (m_guid gr); U32 (m_counter gr); U32 n] ++
     (filter (λ s, MemberSlot.guid s ≠ MemberSlot.guid slot) (m_memberSlots gr) ≫= λ s,
        let onlineState := if is_online (MemberSlot.guid s) w then MEMBER_STATUS_ONLINE else MEMBER_STATUS_OFFLINE in
        let onlineState := Z.lor onlineState (if stored_group gr then 0 else MEMBER_STATUS_PVP) in
        [Str (MemberSlot.name s); U64 (MemberSlot.guid s); U8 onlineState; U8 (MemberSlot.group s);
         U8 (MemberSlot.flags s); U8 (MemberSlot.roles s)]) ++
     [U64 (m_leaderGuid gr)] ++
     (if n =? 0 then [] else
      [U8 (m_lootMethod gr); U64 (m_looterGuid gr); U8 (m_lootThreshold gr); U8 (m_dungeonDifficulty gr);
       U8 (m_raidDifficulty gr); U8 0])).
Definition SendUpdateToPlayer (g playerGUID : Z) (slot : option MemberSlot.t) : gact unit :=
  w ← get;
  match FindPlayer playerGUID w with
  | None => mret tt
  | Some pl =>
      if negb (bool_decide (GetGroup pl = Some g)) then mret tt else
      gr ← deref g;
      match (match slot with Some s => Some s | None => _getMemberSlot playerGUID gr end) with
      | None => mret tt
      | Some s =>
          send playerGUID (group_list w gr s) ;;
          on_group g (λ gr, gr <| m_counter ::= λ c, u32 (c + 1) |>)
      end
  end.
Definition SendUpdate (g : Z) : gact unit :=
  gr ← deref g; forM_ (m_memberSlots gr) (λ s, SendUpdateToPlayer g (MemberSlot.guid s) (Some s)).
Definition UpdatePlayerOutOfRange (g p : Z) : gact unit :=
  w ← get;
  when (is_online p w)
    (gr ← deref g;
     forM_ (m_memberMgr gr) (λ r, when (negb (IsWithinDist r.2 p)) (emit (SendPartyMemberStats r.2 p)))).
Definition BroadcastGroupUpdate (g : Z) : gact unit :=
  w ← get; gr ← deref g;
  forM_ (m_memberSlots gr) (λ s, when (is_online (MemberSlot.guid s) w) (emit (ForceValuesUpdate (MemberSlot.guid s)))).
(** The list of a player who is in no group any more. *)
Definition empty_group_list (gr : Group) : WorldPacket :=
  Initialize SMSG_GROUP_LIST <+ U8 0x10 <+ U8 0 <+ U8 0 <+ U8 0 <+ U64 (m_guid gr) <+ U32 (m_counter gr) <+ U32 0 <+ U64 0.

(** *** Instances *)

Definition GetDownscaledMapDifficultyData (mapId difficulty : Z) : Z :=
  if GetMapDifficultyData mapId difficulty then difficulty else
  let tmpDiff := u32 (if RAID_DIFFICULTY_25MAN_NORMAL <? difficulty then difficulty - 2 else difficulty - 1) in
  if GetMapDifficultyData mapId tmpDiff then tmpDiff else u32 (tmpDiff - 1).
Definition GetBoundInstance (difficulty mapId : Z) (gr : Group) : gact (option InstanceGroupBind) :=
  match m_boundInstances gr !! Z.to_nat (GetDownscaledMapDifficultyData mapId difficulty) with
  | Some binds => mret (binds !! mapId)
  | None => raise OutOfBounds
  end.
Definition GetBoundInstance_player (p g : Z) : gact (option InstanceGroupBind) :=
  pl ← player_of p; gr ← deref g;
  match sMapStore (GetMapId pl) with
  | Some (true, isRaid) => GetBoundInstance (GetDifficulty isRaid gr) (GetMapId pl) gr
  | _ => mret None
  end.
Definition BindToInstance (g s : Z) (permanent load : bool) : gact unit :=
  gr ← deref g;
  if negb (stored_group gr) then mret tt else
  match m_boundInstances gr !! Z.to_nat (save_difficulty s) with
  | None => raise OutOfBounds
  | Some binds =>
      let bind := default (mkBind None false) (binds !! save_map s) in
      when (negb load && (negb (bool_decide (save bind = Some s)) || negb (Bool.eqb permanent (perm bind))))
        (emit (CHAR_REP_GROUP_INSTANCE (m_dbStoreId gr) (save_instance s) permanent)) ;;
      when (negb (bool_decide (save bind = Some s)))
        (match save bind with Some old => emit (SaveRemoveGroup old g) | None => mret tt end ;;
         emit (SaveAddGroup s g)) ;;
      on_group g (λ gr, gr <| m_boundInstances ::=
        alter (λ binds, <[save_map s := mkBind (Some s) permanent]> binds) (Z.to_nat (save_difficulty s)) |>)
  end.
Definition UnbindInstance (g mapid difficulty : Z) (unload : bool) : gact unit :=
  gr ← deref g;
  match m_boundInstances gr !! Z.to_nat difficulty with
  | None => raise OutOfBounds
  | Some binds =>
      match binds !! mapid with
      | None => mret tt
      | Some bind =>
          s ← require (save bind);
          when (negb unload) (emit (CHAR_DEL_GROUP_INSTANCE_BY_GUID (m_dbStoreId gr) (save_instance s))) ;;
          emit (SaveRemoveGroup s g) ;;
          on_group g (λ gr, gr <| m_boundInstances ::= alter (delete mapid) (Z.to_nat difficulty) |>)
      end
  end.
(** [Player::UnbindInstance] and [Player::ConvertInstancesToGroup]. *)
Definition Player_UnbindInstance (p difficulty mapid : Z) (bind : InstanceGroupBind) : gact unit :=
  s ← require (save bind);
  emit (CHAR_DEL_CHAR_INSTANCE_BY_INSTANCE_GUID (GUID_LOPART p) (save_instance s)) ;;
  when (perm bind) (emit (SendCalendarRaidLockout p s)) ;;
  emit (SaveRemovePlayer s p) ;;
  on_player p (λ pl, pl <| p_boundInstances ::= alter (delete mapid) (Z.to_nat difficulty) |>).
Definition ConvertInstancesToGroup (p g : Z) (switchLeader : bool) : gact unit :=
  pl ← player_of p;
  forM_ (seqZ 0 MAX_DIFFICULTY) (λ i,
    forM_ (hash_iter (default ∅ (p_boundInstances pl !! Z.to_nat i))) (λ mb,
      s ← require (save mb.2);
      BindToInstance g s (perm mb.2) false ;;
      when (switchLeader && negb (perm mb.2)) (Player_UnbindInstance p i mb.1 mb.2))).
(** One bind of [ResetInstances]; the result tells whether it was erased. *)
Definition ResetInstance (g method : Z) (isRaid : bool) (SendMsgTo : option Z) (diff mapid : Z)
    (bind : InstanceGroupBind) : gact bool :=
  match sMapStore mapid with
  | None => mret false
  | Some (_, entryRaid) =>
      if negb (Bool.eqb entryRaid isRaid) then mret false else
      s ← require (save bind);
      if negb (CanReset s) && negb (method =? INSTANCE_RESET_GROUP_DISBAND) then mret false
      else if (method =? INSTANCE_RESET_ALL) && (map_is_raid_type mapid || (diff =? DUNGEON_DIFFICULTY_HEROIC))
      then mret false
      else
        isEmpty ← match FindDungeonMap (save_map s) (save_instance s) with
                  | None => mret true
                  | Some map =>
                      if (method =? INSTANCE_RESET_GROUP_DISBAND) && negb (CanReset s) then mret true
                      else if CanReset s then emit (MapReset map method) ;; mret (InstanceMap_Reset map method)
                      else mret (negb (HavePlayers map))
                  end;
        match SendMsgTo with
        | Some p => emit (SendResetInstance p (save_map s) isEmpty)
        | None => mret tt
        end ;;
        if isEmpty || (method =? INSTANCE_RESET_GROUP_DISBAND) || (method =? INSTANCE_RESET_CHANGE_DIFFICULTY) then
          emit (if CanReset s then SaveDeleteFromDB s else CHAR_DEL_GROUP_INSTANCE_BY_INSTANCE (save_instance s)) ;;
          on_group g (λ gr, gr <| m_boundInstances ::= alter (delete mapid) (Z.to_nat diff) |>) ;;
          emit (SaveRemoveGroup s g) ;; mret true
        else mret false
  end.
(** After an erased bind the loop starts over. *)
Fixpoint ResetInstances_loop (fuel : nat) (g method : Z) (isRaid : bool) (SendMsgTo : option Z) (diff : Z)
    (binds : list (Z * InstanceGroupBind)) : gact unit :=
  match fuel with
  | O => raise OutOfFuel
  | S fuel =>
      match binds with
      | [] => mret tt
      | mb :: binds' =>
          erased ← ResetInstance g method isRaid SendMsgTo diff mb.1 mb.2;
          if (erased : bool) then
            gr ← deref g;
            ResetInstances_loop fuel g method isRaid SendMsgTo diff
              (hash_iter (default ∅ (m_boundInstances gr !! Z.to_nat diff)))
          else ResetInstances_loop fuel g method isRaid SendMsgTo diff binds'
      end
  end.
Definition ResetInstances (g method : Z) (isRaid : bool) (SendMsgTo : option Z) : gact unit :=
  gr ← deref g;
  if negb (stored_group gr) then mret tt else
  let diff := GetDifficulty isRaid gr in
  match m_boundInstances gr !! Z.to_nat diff with
  | None => raise OutOfBounds
  | Some binds =>
      let n := base.size binds in
      ResetInstances_loop (S n * S n) g method isRaid SendMsgTo diff (hash_iter binds)
  end.
Definition _homebindIfInstance (p : Z) : gact unit :=
  pl ← player_of p;
  if isGameMaster pl then mret tt else
  entry ← require (sMapStore (GetMapId pl));
  when entry.1 (emit (SetInstanceValid p false)).

(** *** Loot rolls *)

Definition on_roll (g : Z) (i : nat) (f : Roll → Roll) : gact unit :=
  on_group g (λ gr, gr <| RollId ::= alter f i |>).
Definition on_loot (l : Z) (f : Loot → Loot) : gact unit :=
  w ← get; lo ← require (loots w !! l); modify (λ w, w <| loots ::= <[l := f lo]> |>).
Definition new_Roll (guid : Z) (li : LootItem) : Roll :=
  mkRoll guid (li_itemid li) (randomPropertyId li) (randomSuffix li) (count li) ∅ 0 0 0 0 0
    ROLL_ALL_TYPE_NO_DISENCHANT None.
(** To every voter who is online, if [p] holds of his vote. *)
Definition send_voters (p : RollVote → bool) (data : WorldPacket) (r : Roll) : gact unit :=
  w ← get;
  forM_ (map_iter (playerVote r)) (λ gv, when (is_online gv.1 w && p gv.2) (send gv.1 data)).
Definition valid_vote (v : RollVote) : bool := negb (bool_decide (v = NOT_VALID)).
Definition loot_start_roll (countDown mapid voteMask : Z) (r : Roll) : WorldPacket :=
  Initialize SMSG_LOOT_START_ROLL <+ U64 (itemGUID r) <+ U32 mapid <+ U32 (itemSlot r) <+ U32 (itemid r)
    <+ U32 (itemRandomSuffix r) <+ U32 (u32 (itemRandomPropId r)) <+ U32 (itemCount r) <+ U32 countDown <+ U8 voteMask.
Definition SendLootStartRoll (countDown mapid : Z) (r : Roll) : gact unit :=
  send_voters (λ v, bool_decide (v = NOT_EMITED_YET)) (loot_start_roll countDown mapid (rollVoteMask r) r) r.
Definition SendLootStartRollToPlayer (countDown mapid p : Z) (canNeed : bool) (r : Roll) : gact unit :=
  send p (loot_start_roll countDown mapid
    (if canNeed then rollVoteMask r else Z.ldiff (rollVoteMask r) ROLL_FLAG_TYPE_NEED) r).
Definition SendLootRoll (sourceGuid targetGuid rollNumber rollType : Z) (r : Roll) : gact unit :=
  send_voters valid_vote
    (Initialize SMSG_LOOT_ROLL <+ U64 sourceGuid <+ U32 (itemSlot r) <+ U64 targetGuid <+ U32 (itemid r)
      <+ U32 (itemRandomSuffix r) <+ U32 (u32 (itemRandomPropId r)) <+ U8 rollNumber <+ U8 rollType <+ U8 0) r.
Definition SendLootRollWon (sourceGuid targetGuid rollNumber rollType : Z) (r : Roll) : gact unit :=
  send_voters valid_vote
    (Initialize SMSG_LOOT_ROLL_WON <+ U64 sourceGuid <+ U32 (itemSlot r) <+ U32 (itemid r)
      <+ U32 (itemRandomSuffix r) <+ U32 (u32 (itemRandomPropId r)) <+ U64 targetGuid <+ U8 rollNumber <+ U8 rollType) r.
Definition SendLootAllPassed (r : Roll) : gact unit :=
  send_voters valid_vote
    (Initialize SMSG_LOOT_ALL_PASSED <+ U64 (itemGUID r) <+ U32 (itemSlot r) <+ U32 (itemid r)
      <+ U32 (u32 (itemRandomPropId r)) <+ U32 (itemRandomSuffix r)) r.
(** The position of a roll for an item whose loot still exists. *)
Definition GetRoll (guid : Z) (gr : Group) : option (nat * Roll) :=
  list_find (λ r, itemGUID r = guid ∧ is_Some (r_loot r)) (RollId gr).

(** The item a roll is for, among the items or behind them the quest items. *)
Definition roll_item (r : Roll) (l : Loot) : option LootItem :=
  let n := length (items l) in
  if Z.of_nat n <=? itemSlot r then quest_items l !! (Z.to_nat (itemSlot r) - n)%nat
  else items l !! Z.to_nat (itemSlot r).
Definition on_roll_item (r : Roll) (f : LootItem → LootItem) (l : Loot) : Loot :=
  let n := length (items l) in
  if Z.of_nat n <=? itemSlot r then l <| quest_items ::= alter f (Z.to_nat (itemSlot r) - n)%nat |>
  else l <| items ::= alter f (Z.to_nat (itemSlot r)) |>.
(** [Loot::NotifyItemRemoved]. *)
Definition NotifyItemRemoved (l lootIndex : Z) : gact unit :=
  w ← get;
  lo ← require (loots w !! l);
  forM_ (set_iter (PlayersLooting lo)) (λ p,
    if is_online p w then emit (SendNotifyLootItemRemoved p lootIndex)
    else on_loot l (λ lo, lo <| PlayersLooting ::= λ s, s ∖ {[ p ]} |>)).
(** The item leaves the loot. *)
Definition take_item (l : Z) (r : Roll) : gact unit :=
  on_loot l (on_roll_item r (λ it, it <| is_looted := true |>)) ;;
  NotifyItemRemoved l (itemSlot r) ;;
  on_loot l (λ lo, lo <| unlootedCount ::= λ n, u8 (n - 1) |>).
Definition unblock_item (l : Z) (r : Roll) : gact unit :=
  on_loot l (on_roll_item r (λ it, it <| is_blocked := false |>)).
Definition item_of_roll (l : Z) (r : Roll) : gact LootItem :=
  w ← get;
  lo ← require (loots w !! l);
  match roll_item r lo with Some it => mret it | None => raise OutOfBounds end.
(** What the winner does with the item. *)
Definition win_item (p l : Z) (r : Roll) : gact unit :=
  item ← item_of_roll l r;
  let '(msg, dest) := CanStoreNewItem p (itemid r) (count item) in
  if msg =? EQUIP_ERR_OK then
    take_item l r ;;
    emit (StoreNewItem p (itemid r) (randomPropertyId item) dest (allowedGUIDs item))
  else unblock_item l r ;; emit (SendEquipErrorItem p msg (itemid r)).
(** The throws of those whose vote is one of [votes]: the first of the highest
    wins; [best] is the highest throw so far, who threw it and his vote. *)
Fixpoint throw_loop (votes : RollVote → bool) (type : RollVote → Z) (r : Roll) (l : list (Z * RollVote))
    (best : Z * Z * RollVote) : gact (Z * Z * RollVote) :=
  match l with
  | [] => mret best
  | (guid, v) :: l' =>
      if negb (votes v) then throw_loop votes type r l' best else
      n ← urand 1 100;
      let randomN := u8 n in
      SendLootRoll 0 guid randomN (type v) r ;;
      throw_loop votes type r l' (if best.1.1 <? randomN then (randomN, guid, v) else best)
  end.
(** The end of a roll that someone needs. *)
Definition need_outcome (l : Z) (r : Roll) : gact unit :=
  match map_begin (playerVote r) with
  | None => mret tt
  | Some (first, _) =>
      best ← throw_loop (λ v, bool_decide (v = NEED)) (λ _, ROLL_NEED) r (map_iter (playerVote r)) (0, first, NOT_VALID);
      let '(maxresul, maxguid, _) := best in
      SendLootRollWon 0 maxguid maxresul ROLL_NEED r ;;
      w ← get;
      when (is_online maxguid w)
        (emit (UpdateAchievementCriteria maxguid ACHIEVEMENT_CRITERIA_TYPE_ROLL_NEED_ON_LOOT (itemid r) maxresul) ;;
         win_item maxguid l r)
  end.
(** The end of a roll that no one needs and someone wants or disenchants. *)
Definition greed_outcome (l : Z) (r : Roll) : gact unit :=
  match map_begin (playerVote r) with
  | None => mret tt
  | Some (first, _) =>
      best ← throw_loop (λ v, bool_decide (v = GREED) || bool_decide (v = DISENCHANT)) vote_number r
               (map_iter (playerVote r)) (0, first, NOT_VALID);
      let '(maxresul, maxguid, rollvote) := best in
      SendLootRollWon 0 maxguid maxresul (vote_number rollvote) r ;;
      w ← get;
      when (is_online maxguid w)
        (emit (UpdateAchievementCriteria maxguid ACHIEVEMENT_CRITERIA_TYPE_ROLL_GREED_ON_LOOT (itemid r) maxresul) ;;
         item ← item_of_roll l r;
         match rollvote with
         | GREED => win_item maxguid l r
         | DISENCHANT =>
             take_item l r ;;
             pProto ← require (GetItemTemplate (itemid r));
             emit (AutoStoreLoot maxguid (DisenchantID pProto)) ;;
             emit (UpdateAchievementCriteria maxguid ACHIEVEMENT_CRITERIA_TYPE_CAST_SPELL 13262 0)
         | _ => mret tt
         end)
  end.
Definition CountTheRoll (g : Z) (i : nat) : gact unit :=
  gr ← deref g;
  r ← require (RollId gr !! i);
  match r_loot r with
  | None => mret tt
  | Some l =>
      if 0 <? totalNeed r then need_outcome l r
      else if 0 <? totalGreed r then greed_outcome l r
      else SendLootAllPassed r ;; item ← item_of_roll l r; unblock_item l r
  end ;;
  on_group g (λ gr, gr <| RollId ::= delete i |>).
Definition CountRollVote (g playerGUID guid Choice : Z) : gact unit :=
  w ← get; gr ← deref g;
  match GetRoll guid gr with
  | None => mret tt
  | Some (i, r) =>
      match playerVote r !! playerGUID with
      | None => mret tt
      | Some _ =>
          l ← require (r_loot r);
          lo ← require (loots w !! l);
          if bool_decide (items lo = []) then mret tt else
          let vote (v : RollVote) : Roll → Roll := λ r, r <| playerVote ::= <[playerGUID := v]> |> in
          (if Choice =? ROLL_PASS then
             SendLootRoll 0 playerGUID 128 ROLL_PASS r ;;
             on_roll g i (λ r, vote PASS (r <| totalPass ::= λ n, u8 (n + 1) |>))
           else if Choice =? ROLL_NEED then
             SendLootRoll 0 playerGUID 0 0 r ;;
             on_roll g i (λ r, vote NEED (r <| totalNeed ::= λ n, u8 (n + 1) |>))
           else if Choice =? ROLL_GREED then
             SendLootRoll 0 playerGUID 128 ROLL_GREED r ;;
             on_roll g i (λ r, vote GREED (r <| totalGreed ::= λ n, u8 (n + 1) |>))
           else if Choice =? ROLL_DISENCHANT then
             SendLootRoll 0 playerGUID 128 ROLL_DISENCHANT r ;;
             on_roll g i (λ r, vote DISENCHANT (r <| totalGreed ::= λ n, u8 (n + 1) |>))
           else mret tt) ;;
          gr ← deref g;
          r ← require (RollId gr !! i);
          when (totalPlayersRolling r <=? totalPass r + totalNeed r + totalGreed r) (CountTheRoll g i)
      end
  end.
(** After each roll that is counted the loop starts over. *)
Fixpoint EndRoll_loop (fuel : nat) (g l : Z) : gact unit :=
  match fuel with
  | O => raise OutOfFuel
  | S fuel =>
      gr ← deref g;
      match list_find (λ r, r_loot r = Some l) (RollId gr) with
      | None => mret tt
      | Some (i, _) => CountTheRoll g i ;; EndRoll_loop fuel g l
      end
  end.
Definition EndRoll (g l : Z) : gact unit :=
  gr ← deref g; EndRoll_loop (S (length (RollId gr))) g l.

(** *** Starting the rolls *)

Definition GenerateItemGuid : gact Z :=
  w ← get;
  if _hiItemGuid w <? 0xFFFFFFFE
  then modify (λ w, w <| _hiItemGuid ::= λ n, n + 1 |>) ;; mret (MAKE_NEW_GUID (_hiItemGuid w) 0 HIGHGUID_ITEM)
  else raise AssertFailed.
(** The members near enough who may have the item. *)
Definition roll_voters (w : GroupWorld) (gr : Group) (item : LootItem) (object : LootedObject) : list (Z * Player) :=
  m_memberMgr gr ≫= λ r,
    match players w !! r.2 with
    | Some pl => if AllowedForPlayer item r.2 && IsWithinDistInMap r.2 object then [(r.2, pl)] else []
    | None => []
    end.
(** A voter; one who passes on group loot has passed, unless it is for a quest. *)
Definition add_voter (quest : bool) (r : Roll) (pp : Z * Player) : Roll :=
  let r := r <| totalPlayersRolling ::= λ n, u8 (n + 1) |> in
  if negb quest && GetPassOnGroupLoot pp.2
  then r <| playerVote ::= <[pp.1 := PASS]> |> <| totalPass ::= λ n, u8 (n + 1) |>
  else r <| playerVote ::= <[pp.1 := NOT_EMITED_YET]> |>.
Definition block_item (l slot : Z) : gact unit :=
  on_loot l (λ lo, let n := length (items lo) in
    if Z.of_nat n <=? slot then lo <| quest_items ::= alter (λ it, it <| is_blocked := true |>) (Z.to_nat slot - n)%nat |>
    else lo <| items ::= alter (λ it, it <| is_blocked := true |>) (Z.to_nat slot) |>).
Definition group_loot_timer (object : LootedObject) (g : Z) : gact unit :=
  gr ← deref g;
  match obj_kind object with
  | KOther => mret tt
  | _ => emit (GroupLootTimer (obj_id object) (GetLowGUID gr))
  end.
Definition push_roll (g : Z) (r : Roll) : gact unit := on_group g (λ gr, gr <| RollId ::= λ l, l ++ [r] |>).
(** The roll for one item: [mask] is what its template adds to the votes
    allowed, [announce] tells the voters. *)
Definition start_roll (g l slot : Z) (quest : bool) (item : LootItem) (mask : Group → Z → Z)
    (announce : Roll → gact unit) (object : LootedObject) : gact unit :=
  newitemGUID ← GenerateItemGuid;
  w ← get; gr ← deref g;
  let r := foldl (add_voter quest) (new_Roll newitemGUID item) (roll_voters w gr item object) in
  when (0 <? totalPlayersRolling r)
    (let r := r <| r_loot := Some l |> <| itemSlot := slot |> <| rollVoteMask ::= mask gr |> in
     block_item l slot ;; announce r ;; push_roll g r ;; group_loot_timer object g).
Definition disenchant_mask (item : ItemTemplate) (gr : Group) (mask : Z) : Z :=
  if negb (DisenchantID item =? 0) && (RequiredDisenchantSkill item <=? m_maxEnchantingLevel gr)
  then Z.lor mask ROLL_FLAG_TYPE_DISENCHANT else mask.
Definition under_threshold (l : Z) (slot : Z) : gact unit :=
  on_loot l (λ lo, lo <| items ::= alter (λ it, it <| is_underthreshold := true |>) (Z.to_nat slot) |>).
Definition send_passes (r : Roll) : gact unit :=
  w ← get;
  forM_ (map_iter (playerVote r)) (λ gv,
    when (is_online gv.1 w && bool_decide (gv.2 = PASS)) (SendLootRoll (itemGUID r) gv.1 128 ROLL_PASS r)).
Definition announce_group_loot (object : LootedObject) (r : Roll) : gact unit :=
  when (negb (totalPass r =? 0)) (send_passes r) ;; SendLootStartRoll 60000 (obj_map object) r.
Definition announce_need_before_greed (object : LootedObject) (r : Roll) : gact unit :=
  w ← get;
  forM_ (map_iter (playerVote r)) (λ gv,
    when (is_online gv.1 w)
      (if bool_decide (gv.2 = PASS) then SendLootRoll (itemGUID r) gv.1 128 ROLL_PASS r
       else SendLootStartRollToPlayer 60000 (obj_map object) gv.1 (CanRollForItemInLFG gv.1 (itemid r) object) r)).
Definition GroupLoot_item (g l : Z) (object : LootedObject) (si : nat * LootItem) : gact unit :=
  let '(slot, item) := si in
  if freeforall item then mret tt else
  match GetItemTemplate (li_itemid item) with
  | None => mret tt
  | Some proto =>
      gr ← deref g;
      if u32 (m_lootThreshold gr) <=? Quality proto
      then start_roll g l (u8 (Z.of_nat slot)) false item (disenchant_mask proto) (announce_group_loot object) object
      else under_threshold l (Z.of_nat slot)
  end.
Definition GroupLoot_quest (g l : Z) (object : LootedObject) (n : nat) (si : nat * LootItem) : gact unit :=
  let '(slot, item) := si in
  if negb (follow_loot_rules item) then mret tt else
  match GetItemTemplate (li_itemid item) with
  | None => mret tt
  | Some _ => start_roll g l (u8 (Z.of_nat (n + slot))) true item (λ _ m, m)
                (λ r, SendLootStartRoll 60000 (obj_map object) r) object
  end.
Definition NeedBeforeGreed_item (g l : Z) (object : LootedObject) (si : nat * LootItem) : gact unit :=
  let '(slot, item) := si in
  if freeforall item then mret tt else
  proto ← require (GetItemTemplate (li_itemid item));
  gr ← deref g;
  if u32 (m_lootThreshold gr) <=? Quality proto
  then start_roll g l (u8 (Z.of_nat slot)) false item
         (λ gr m, let m := disenchant_mask proto gr m in
            if has_flag (Flags2 proto) ITEM_FLAGS_EXTRA_NEED_ROLL_DISABLED then Z.ldiff m ROLL_FLAG_TYPE_NEED else m)
         (announce_need_before_greed object) object
  else under_threshold l (Z.of_nat slot).
Definition NeedBeforeGreed_quest (g l : Z) (object : LootedObject) (n : nat) (si : nat * LootItem) : gact unit :=
  let '(slot, item) := si in
  if negb (follow_loot_rules item) then mret tt else
  start_roll g l (u8 (Z.of_nat (n + slot))) true item (λ _ m, m) (announce_need_before_greed object) object.
Definition over_loot (l : Z) (item : nat * LootItem → gact unit) (quest : nat → nat * LootItem → gact unit) : gact unit :=
  w ← get;
  lo ← require (loots w !! l);
  forM_ (imap pair (items lo)) item ;;
  forM_ (imap pair (quest_items lo)) (quest (length (items lo))).
Definition GroupLoot (g l : Z) (object : LootedObject) : gact unit :=
  over_loot l (GroupLoot_item g l object) (GroupLoot_quest g l object).
Definition NeedBeforeGreed (g l : Z) (object : LootedObject) : gact unit :=
  over_loot l (NeedBeforeGreed_item g l object) (NeedBeforeGreed_quest g l object).
Definition MasterLoot (g : Z) (object : LootedObject) : gact unit :=
  w ← get; gr ← deref g;
  let near := filter (λ r : which * Z, IsWithinDistInMap r.2 object) (m_memberMgr gr) in
  let looters := filter (λ r : which * Z, bool_decide (IsInWorld <$> players w !! r.2 = Some true)) near in
  let data := stream_all (Initialize SMSG_LOOT_MASTER_LIST <+ U8 (u8 (Z.of_nat (length looters))))
                ((λ r, U64 r.2) <$> looters) in
  forM_ near (λ r, send r.2 data).
Definition packed_guid (guid : Z) : list field :=
  let '(mark, bytes) := appendPackGUID_loop 8 0 guid 0 [] in U8 <$> (mark :: bytes).
Definition SendLooter (creature : Z) (groupLooter : option Z) (g : Z) : gact unit :=
  BroadcastPacket
    (stream_all (Initialize SMSG_LOOT_LIST <+ U64 creature <+ U8 0)
      (match groupLooter with Some p => packed_guid p | None => [U8 0] end)) false (-1) 0 g.

(** *** Target icons and the looter *)

Definition place_icon (g id whoGuid targetGuid : Z) : gact unit :=
  on_group g (λ gr, gr <| m_targetIcons ::= <[Z.to_nat id := targetGuid]> |>) ;;
  BroadcastPacket (Initialize MSG_RAID_TARGET_UPDATE <+ U8 0 <+ U64 whoGuid <+ U8 id <+ U64 targetGuid) true (-1) 0 g.
Definition SetTargetIcon (g id whoGuid targetGuid : Z) : gact unit :=
  if TARGETICONCOUNT <=? id then mret tt else
  when (negb (targetGuid =? 0))
    (forM_ (seqZ 0 TARGETICONCOUNT) (λ i,
       gr ← deref g;
       when (bool_decide (m_targetIcons gr !! Z.to_nat i = Some targetGuid)) (place_icon g i 0 0))) ;;
  place_icon g id whoGuid targetGuid.
Definition SendTargetIconList (g p : Z) : gact unit :=
  gr ← deref g;
  send p (stream_all (Initialize MSG_RAID_TARGET_UPDATE <+ U8 1)
    (imap pair (m_targetIcons gr) ≫= λ ii, if ii.2 =? 0 then [] else [U8 (Z.of_nat ii.1); U64 ii.2])).
Definition SetLootMethod (g method : Z) : gact unit := on_group g (λ gr, gr <| m_lootMethod := method |>).
Definition SetLooterGuid (g guid : Z) : gact unit := on_group g (λ gr, gr <| m_looterGuid := guid |>).
Definition SetLootThreshold (g threshold : Z) : gact unit := on_group g (λ gr, gr <| m_lootThreshold := threshold |>).
Definition SetBattlegroundGroup (g : Z) (bg : option Z) : gact unit := on_group g (λ gr, gr <| m_bgGroup := bg |>).
Definition SetBattlefieldGroup (g : Z) (bg : option Z) : gact unit := on_group g (λ gr, gr <| m_bfGroup := bg |>).
(** The members from the one after [guid] on, and those before. *)
Fixpoint after_member (guid : Z) (l : list MemberSlot.t) : list MemberSlot.t :=
  match l with
  | [] => []
  | s :: l' => if MemberSlot.guid s =? guid then l' else after_member guid l'
  end.
Fixpoint upto_member (guid : Z) (l : list MemberSlot.t) : list MemberSlot.t :=
  match l with
  | [] => []
  | s :: l' => s :: if MemberSlot.guid s =? guid then [] else upto_member guid l'
  end.
Definition near_object (object : LootedObject) (w : GroupWorld) (s : MemberSlot.t) : bool :=
  is_online (MemberSlot.guid s) w && IsWithinDistInMap (MemberSlot.guid s) object.
Definition UpdateLooterGuid (g : Z) (object : LootedObject) (ifneed : bool) : gact unit :=
  w ← get; gr ← deref g;
  if (m_lootMethod gr =? MASTER_LOOT) || (m_lootMethod gr =? FREE_FOR_ALL) then mret tt else
  let old := m_looterGuid gr in
  let slots := m_memberSlots gr in
  if ifneed && IsMember old gr && (is_online old w && IsWithinDistInMap old object) then mret tt else
  let found := List.find (near_object object w) in
  let new := match found (after_member old slots) with
             | Some s => Some s
             | None => found (upto_member old slots)
             end in
  match new with
  | Some s => when (negb (old =? MemberSlot.guid s)) (SetLooterGuid g (MemberSlot.guid s) ;; SendUpdate g)
  | None => SetLooterGuid g 0 ;; SendUpdate g
  end.

(** *** The manager *)

(** The next number after [i] that no group uses. *)
Fixpoint next_free_loop (fuel : nat) (i : Z) (store : list (option Z)) : Z :=
  match fuel with
  | O => i
  | S fuel =>
      if (i <? Z.of_nat (length store)) && negb (bool_decide (store !! Z.to_nat i = Some None))
      then next_free_loop fuel (i + 1) store else i
  end.
Definition GenerateNewGroupDbStoreId : gact Z :=
  w ← get;
  let newStorageId := NextGroupDbStoreId w in
  let i := u32 (newStorageId + 1) in
  let next := next_free_loop (S (length (GroupDbStore w))) i (GroupDbStore w) in
  let next := if next <? 0xFFFFFFFF then next else i in
  modify (λ w, w <| NextGroupDbStoreId := next |>) ;;
  when (newStorageId =? next) (emit StopNow) ;;
  mret newStorageId.
Definition RegisterGroupDbStoreId (storageId g : Z) : gact unit :=
  modify (λ w, w <| GroupDbStore ::= λ l,
    <[Z.to_nat storageId := Some g]> (l ++ replicate (Z.to_nat storageId + 1 - length l) None) |>).
Definition FreeGroupDbStoreId (g : Z) : gact unit :=
  gr ← deref g;
  let storageId := m_dbStoreId gr in
  modify (λ w, if storageId <? NextGroupDbStoreId w then w <| NextGroupDbStoreId := storageId |> else w) ;;
  w ← get;
  if bool_decide (is_Some (GroupDbStore w !! Z.to_nat storageId))
  then modify (λ w, w <| GroupDbStore ::= <[Z.to_nat storageId := None]> |>)
  else raise OutOfBounds.
Definition GetGroupByDbStoreId (storageId : Z) (w : GroupWorld) : option Z := mjoin (GroupDbStore w !! Z.to_nat storageId).
Definition GenerateGroupId : gact Z :=
  w ← get;
  when (0xFFFFFFFE <=? NextGroupId w) (emit StopNow) ;;
  modify (λ w, w <| NextGroupId ::= λ n, u32 (n + 1) |>) ;;
  mret (NextGroupId w).
Definition AddGroup (g : Z) : gact unit :=
  gr ← deref g; modify (λ w, w <| GroupStore ::= <[GetLowGUID gr := g]> |>).
Definition RemoveGroup (g : Z) : gact unit :=
  gr ← deref g; modify (λ w, w <| GroupStore ::= delete (GetLowGUID gr) |>).

(** *** Creation and destruction *)

Definition new_Group : Group :=
  mkGroup [] [] ∅ 0 "" GROUPTYPE_NORMAL DUNGEON_DIFFICULTY_NORMAL RAID_DIFFICULTY_10MAN_NORMAL None None
    (replicate 8 0) FREE_FOR_ALL ITEM_QUALITY_UNCOMMON 0 [] (replicate 4 ∅) None 0 0 0 0.
(** [new Group]. *)
Definition alloc_group : gact Z :=
  w ← get;
  modify (λ w, w <| groups ::= <[next_group w := new_Group]> |> <| next_group ::= λ n, n + 1 |>) ;;
  mret (next_group w).
(** [Group::~Group] with the destructors of its members: references to the group
    are cut, invitations to it are not. *)
Definition invalidate (k : which) (p : Z) : gact unit := on_player p (set_ref k (λ r, r <| iRefTo := None |>)).
Definition delete_group (g : Z) : gact unit :=
  gr ← deref g;
  match m_bgGroup gr with
  | Some bg => when (GetBgRaid bg g) (emit (SetBgRaidNull bg g))
  | None => mret tt
  end ;;
  forM_ (m_boundInstances gr ≫= λ binds, (hash_iter binds).*2) (λ bind,
    s ← require (save bind); emit (SaveRemoveGroup s g)) ;;
  forM_ (m_memberMgr gr) (λ r, invalidate r.1 r.2) ;;
  modify (λ w, w <| groups ::= delete g |>).

(** *** Invitations *)

Definition RemoveInvite (g p : Z) : gact unit :=
  on_group g (λ gr, gr <| m_invitees ::= λ s, s ∖ {[ p ]} |>) ;; SetGroupInvite p None.
Definition RemoveAllInvites (g : Z) : gact unit :=
  gr ← deref g;
  forM_ (set_iter (m_invitees gr)) (λ p, SetGroupInvite p None) ;;
  on_group g (λ gr, gr <| m_invitees := ∅ |>).
Definition AddInvite (g p : Z) : gact bool :=
  w ← get; pl ← player_of p;
  if bool_decide (is_Some (m_groupInvite pl)) then mret false else
  let group := GetGroup pl in
  group ← match group with
          | Some g' => gr' ← deref g'; mret (if stored_group gr' then Some g' else GetOriginalGroup pl)
          | None => mret None
          end;
  match group with
  | Some _ => mret false
  | None =>
      RemoveInvite g p ;;
      on_group g (λ gr, gr <| m_invitees ::= λ s, {[ p ]} ∪ s |>) ;;
      SetGroupInvite p (Some g) ;;
      emit (OnGroupInviteMember g p) ;;
      mret true
  end.
Definition AddLeaderInvite (g p : Z) : gact bool :=
  ok ← AddInvite g p;
  if negb ok then mret false else
  pl ← player_of p;
  on_group g (λ gr, gr <| m_leaderGuid := p |> <| m_leaderName := GetName pl |>) ;;
  mret true.

(** *** Members *)

(** The first sub-group of a raid with room; the first of all if it has no
    sub-groups. *)
Definition free_subgroup (gr : Group) : option Z :=
  match m_subGroupsCounts gr with
  | None => Some 0
  | Some c => Z.of_nat ∘ fst <$> list_find (λ n, n < MAXGROUPSIZE) c
  end.
Definition SendMemberFields (g p : Z) : gact unit :=
  gr ← deref g;
  forM_ (m_memberMgr gr) (λ r,
    if r.2 =? p then mret tt else
    when (HaveAtClient p r.2) (emit (SendValuesUpdate p r.2)) ;;
    when (HaveAtClient r.2 p) (emit (SendValuesUpdate r.2 p))).
Definition AddMember (g p : Z) : gact bool :=
  gr ← deref g; pl ← player_of p;
  match free_subgroup gr with
  | None => mret false
  | Some subGroup =>
      on_group g (λ gr, gr <| m_memberSlots ::= λ l, l ++ [MemberSlot.mk p (GetName pl) subGroup 0 0] |>) ;;
      SubGroupCounterIncrease g subGroup ;;
      SetGroupInvite p None ;;
      (if bool_decide (is_Some (GetGroup pl)) then
         if stored_group gr then SetOriginalGroup p (Some g) subGroup
         else SetBattlegroundOrBattlefieldRaid p g subGroup
       else SetGroup p (Some g) subGroup) ;;
      bind ← GetBoundInstance_player p g;
      match bind with
      | Some b => s ← require (save b);
                  when (save_instance s =? GetInstanceId pl) (emit (SetInstanceValid p true))
      | None => mret tt
      end ;;
      when (negb (isRaidGroup gr)) (on_group g (λ gr, gr <| m_targetIcons := replicate (Z.to_nat TARGETICONCOUNT) 0 |>)) ;;
      when (stored_group gr) (emit (CHAR_INS_GROUP_MEMBER (m_dbStoreId gr) (GUID_LOPART p) 0 subGroup 0)) ;;
      SendUpdate g ;;
      emit (OnGroupAddMember g p) ;;
      when (negb (IsLeader p gr) && stored_group gr)
        (emit (Player_ResetInstances p INSTANCE_RESET_GROUP_JOIN false) ;;
         emit (Player_ResetInstances p INSTANCE_RESET_GROUP_JOIN true) ;;
         when (LEVELREQUIREMENT_HEROIC <=? getLevel pl)
           (when (negb (GetDungeonDifficulty pl =? m_dungeonDifficulty gr))
              (on_player p (λ pl, pl <| GetDungeonDifficulty := m_dungeonDifficulty gr |>) ;; emit (SendDungeonDifficulty p)) ;;
            when (negb (GetRaidDifficulty pl =? m_raidDifficulty gr))
              (on_player p (λ pl, pl <| GetRaidDifficulty := m_raidDifficulty gr |>) ;; emit (SendRaidDifficulty p)))) ;;
      emit (SetGroupUpdateFlag p GROUP_UPDATE_FULL) ;;
      UpdatePlayerOutOfRange g p ;;
      when (isRaidGroup gr) (emit (UpdateForQuestWorldObjects p)) ;;
      SendMemberFields g p ;;
      on_group g (λ gr, gr <| m_maxEnchantingLevel ::= λ n, if n <? enchanting_skill pl then enchanting_skill pl else n |>) ;;
      mret true
  end.
(** The flag words of the member with the guid. *)
Definition on_slot (g guid : Z) (f : MemberSlot.t → MemberSlot.t) : gact unit :=
  gr ← deref g;
  match list_find (λ s, MemberSlot.guid s = guid) (m_memberSlots gr) with
  | Some (i, _) => on_group g (λ gr, gr <| m_memberSlots ::= alter f i |>)
  | None => mret tt
  end.
Definition ToggleGroupMemberFlag (g guid flag : Z) (apply : bool) : gact unit :=
  on_slot g guid (λ s, s <| MemberSlot.flags ::= λ fl, if apply then Z.lor fl flag else Z.ldiff fl flag |>).
Definition RemoveUniqueGroupMemberFlag (g flag : Z) : gact unit :=
  on_group g (λ gr, gr <| m_memberSlots ::= fmap (λ s,
    if has_flag (MemberSlot.flags s) flag then s <| MemberSlot.flags ::= λ fl, Z.ldiff fl flag |> else s) |>).
Definition ResetMaxEnchantingLevel (g : Z) : gact unit :=
  w ← get; gr ← deref g;
  on_group g (λ gr, gr <| m_maxEnchantingLevel :=
    foldl (λ n s, match FindPlayer (MemberSlot.guid s) w with
                  | Some pl => if n <? enchanting_skill pl then enchanting_skill pl else n | None => n end)
          0 (m_memberSlots gr) |>).
Definition Create (g leader : Z) : gact bool :=
  pl ← player_of leader;
  lowguid ← GenerateGroupId;
  on_group g (λ gr, gr <| m_guid := MAKE_NEW_GUID lowguid 0 HIGHGUID_GROUP |> <| m_leaderGuid := leader |>
                       <| m_leaderName := GetName pl |>) ;;
  gr ← deref g;
  when (negb (stored_group gr)) (on_group g (λ gr, gr <| m_groupType := GROUPTYPE_BGRAID |>)) ;;
  gr ← deref g;
  when (isRaidGroup gr) (_initRaidSubGroupsCounter g) ;;
  when (negb (isLFGGroup gr)) (SetLootMethod g GROUP_LOOT) ;;
  on_group g (λ gr, gr <| m_lootThreshold := ITEM_QUALITY_UNCOMMON |> <| m_looterGuid := leader |>
                       <| m_dungeonDifficulty := DUNGEON_DIFFICULTY_NORMAL |>
                       <| m_raidDifficulty := RAID_DIFFICULTY_10MAN_NORMAL |>) ;;
  if stored_group gr then
    on_group g (λ gr, gr <| m_dungeonDifficulty := GetDungeonDifficulty pl |> <| m_raidDifficulty := GetRaidDifficulty pl |>) ;;
    id ← GenerateNewGroupDbStoreId;
    on_group g (λ gr, gr <| m_dbStoreId := id |>) ;;
    RegisterGroupDbStoreId id g ;;
    gr ← deref g;
    emit (CHAR_INS_GROUP id (GUID_LOPART leader) (u8 (m_lootMethod gr)) (GUID_LOPART (m_looterGuid gr))
      (u8 (m_lootThreshold gr)) (u32 <$> m_targetIcons gr) (u8 (m_groupType gr)) (u8 (m_dungeonDifficulty gr))
      (u8 (m_raidDifficulty gr))) ;;
    ok ← AddMember g leader;
    if negb ok then raise AssertFailed else
    ConvertInstancesToGroup leader g false ;; mret true
  else AddMember g leader.
Definition ConvertToLFG (g : Z) : gact unit :=
  on_group g (λ gr, gr <| m_groupType ::= λ t, Z.lor t (Z.lor GROUPTYPE_LFG GROUPTYPE_UNK1) |>
                       <| m_lootMethod := NEED_BEFORE_GREED |>) ;;
  gr ← deref g;
  when (stored_group gr) (emit (CHAR_UPD_GROUP_TYPE (u8 (m_groupType gr)) (m_dbStoreId gr))) ;;
  SendUpdate g.
Definition ConvertToRaid (g : Z) : gact unit :=
  on_group g (λ gr, gr <| m_groupType ::= λ t, Z.lor t GROUPTYPE_RAID |>) ;;
  _initRaidSubGroupsCounter g ;;
  gr ← deref g;
  when (stored_group gr) (emit (CHAR_UPD_GROUP_TYPE (u8 (m_groupType gr)) (m_dbStoreId gr))) ;;
  SendUpdate g ;;
  w ← get;
  forM_ (m_memberSlots gr) (λ s,
    when (is_online (MemberSlot.guid s) w) (emit (UpdateForQuestWorldObjects (MemberSlot.guid s)))).
Definition ChangeLeader (g guid : Z) : gact unit :=
  w ← get; gr ← deref g;
  match _getMemberSlot guid gr with
  | None => mret tt
  | Some slot =>
      match FindPlayer guid w with
      | None => mret tt
      | Some pl =>
          emit (OnGroupChangeLeader g guid (m_leaderGuid gr)) ;;
          when (stored_group gr)
            (forM_ (m_memberSlots gr) (λ s,
               match FindPlayer (MemberSlot.guid s) w with
               | None => mret tt
               | Some other =>
                   when (map_Instanceable other
                         && (negb (map_Instanceable pl) || negb (GetInstanceId other =? GetInstanceId pl)))
                     (emit (RepopAtGraveyard (MemberSlot.guid s)))
               end) ;;
             forM_ (m_boundInstances gr ≫= λ binds, hash_iter binds) (λ mb,
               when (perm mb.2) (s ← require (save mb.2); emit (SaveRemoveGroup s g))) ;;
             on_group g (λ gr, gr <| m_boundInstances ::= fmap (filter (λ mb, perm mb.2 = false)) |>) ;;
             emit (CHAR_DEL_GROUP_INSTANCE_PERM_BINDING (m_dbStoreId gr) (GUID_LOPART guid)) ;;
             ConvertInstancesToGroup guid g true ;;
             emit (CHAR_UPD_GROUP_LEADER (GUID_LOPART guid) (m_dbStoreId gr))) ;;
          on_group g (λ gr, gr <| m_leaderGuid := guid |> <| m_leaderName := GetName pl |>) ;;
          ToggleGroupMemberFlag g guid MEMBER_FLAG_ASSISTANT false ;;
          BroadcastPacket (Initialize SMSG_GROUP_SET_LEADER <+ Str (MemberSlot.name slot)) true (-1) 0 g
      end
  end.
(** One member of a group that is disbanded. *)
Definition disband_member (g : Z) (gr : Group) (hideDestroy : bool) (p : Z) : gact unit :=
  w ← get;
  match FindPlayer p w with
  | None => mret tt
  | Some pl =>
      (if negb (stored_group gr) then RemoveFromBattlegroundOrBattlefieldRaid p
       else if bool_decide (GetOriginalGroup pl = Some g) then SetOriginalGroup p None (-1)
       else SetGroup p None (-1)) ;;
      when (isRaidGroup gr) (emit (UpdateForQuestWorldObjects p)) ;;
      when (negb hideDestroy) (send p (Initialize SMSG_GROUP_DESTROYED)) ;;
      pl ← player_of p;
      match GetGroup pl with
      | Some g' => SendUpdate g'
      | None => gr ← deref g; send p (empty_group_list gr)
      end ;;
      _homebindIfInstance p
  end.
Definition Disband (g : Z) (hideDestroy : bool) : gact unit :=
  emit (OnGroupDisband g) ;;
  gr ← deref g;
  forM_ (m_memberSlots gr) (λ s, disband_member g gr hideDestroy (MemberSlot.guid s)) ;;
  on_group g (λ gr, gr <| RollId := [] |> <| m_memberSlots := [] |>) ;;
  RemoveAllInvites g ;;
  when (stored_group gr)
    (emit (CHAR_DEL_GROUP (m_dbStoreId gr)) ;;
     emit (CHAR_DEL_GROUP_MEMBER_ALL (m_dbStoreId gr)) ;;
     ResetInstances g INSTANCE_RESET_GROUP_DISBAND false None ;;
     ResetInstances g INSTANCE_RESET_GROUP_DISBAND true None ;;
     emit (CHAR_DEL_LFG_DATA (m_dbStoreId gr)) ;;
     FreeGroupDbStoreId g) ;;
  RemoveGroup g ;;
  delete_group g.

(** *** Leaving *)

Definition is_kick (m : Z) : bool := (m =? GROUP_REMOVEMETHOD_KICK) || (m =? GROUP_REMOVEMETHOD_KICK_LFG).
(** What happens to a member in the world who is removed. *)
Definition remove_online (g guid method : Z) (pl : Player) : gact unit :=
  gr ← deref g;
  (if negb (stored_group gr) then RemoveFromBattlegroundOrBattlefieldRaid guid
   else
     (if bool_decide (GetOriginalGroup pl = Some g) then SetOriginalGroup guid None (-1) else SetGroup guid None (-1)) ;;
     emit (UpdateForQuestWorldObjects guid)) ;;
  when (is_kick method) (send guid (Initialize SMSG_GROUP_UNINVITE)) ;;
  gr ← deref g;
  send guid (empty_group_list gr) ;;
  _homebindIfInstance guid.
(** The vote of a member who leaves is taken out of a roll. *)
Definition drop_vote (guid : Z) (v : RollVote) (r : Roll) : Roll :=
  let dec (n : Z) := u8 (n - 1) in
  let r := match v with
           | GREED | DISENCHANT => r <| totalGreed ::= dec |>
           | NEED => r <| totalNeed ::= dec |>
           | PASS => r <| totalPass ::= dec |>
           | _ => r
           end in
  let r := if bool_decide (v = NOT_VALID) then r else r <| totalPlayersRolling ::= dec |> in
  r <| playerVote ::= delete guid |>.
Definition remove_from_roll (g guid : Z) (i : nat) : gact unit :=
  gr ← deref g;
  match RollId gr !! i with
  | None => mret tt
  | Some r =>
      match playerVote r !! guid with
      | None => mret tt
      | Some v => on_roll g i (drop_vote guid v) ;; CountRollVote g guid (itemGUID r) MAX_ROLL_TYPE
      end
  end.
Definition remove_slot (g guid : Z) : gact unit :=
  gr ← deref g;
  match list_find (λ s, MemberSlot.guid s = guid) (m_memberSlots gr) with
  | None => mret tt
  | Some (i, s) =>
      SubGroupCounterDecrease g (MemberSlot.group s) ;;
      on_group g (λ gr, gr <| m_memberSlots ::= delete i |>)
  end.
(** The first member in the world becomes leader. *)
Definition succeed_leader (g guid : Z) : gact unit :=
  w ← get; gr ← deref g;
  when (IsLeader guid gr)
    (match List.find (λ s, is_online (MemberSlot.guid s) w) (m_memberSlots gr) with
     | Some s => ChangeLeader g (MemberSlot.guid s)
     | None => mret tt
     end).
(** A group of the dungeon finder with one member is kept only while the leader
    is in the dungeon or dead. *)
Definition lfg_keeps (w : GroupWorld) (gr : Group) : bool :=
  let mapId := LFG_GetDungeonMapId (m_guid gr) in
  negb (mapId =? 0) &&
  match FindPlayer (m_leaderGuid gr) w with
  | None => false
  | Some leader => negb (isAlive leader && negb (GetMapId leader =? mapId))
  end.
Definition RemoveMember (g guid method kicker : Z) (reason : string) : gact bool :=
  BroadcastGroupUpdate g ;;
  emit (OnGroupRemoveMember g guid method kicker reason) ;;
  gr ← deref g;
  if isLFGGroup gr && (method =? GROUP_REMOVEMETHOD_KICK) then mret (bool_decide (m_memberSlots gr ≠ []))
  else if (if negb (stored_group gr) || isLFGGroup gr then 1 else 2) <? GetMembersCount gr then
    w ← get;
    let player := FindPlayer guid w in
    match player with Some pl => remove_online g guid method pl | None => mret tt end ;;
    when (stored_group gr) (emit (CHAR_DEL_GROUP_MEMBER (GUID_LOPART guid)) ;; DelinkMember g guid) ;;
    when (match player with Some pl => negb (enchanting_skill pl =? 0) | None => true end) (ResetMaxEnchantingLevel g) ;;
    gr ← deref g;
    forM_ (seq 0 (length (RollId gr))) (remove_from_roll g guid) ;;
    remove_slot g guid ;;
    succeed_leader g guid ;;
    SendUpdate g ;;
    w ← get; gr ← deref g;
    if isLFGGroup gr && (GetMembersCount gr =? 1) && negb (lfg_keeps w gr) then Disband g false ;; mret false
    else
      when (Z.of_nat (length (m_memberMgr gr)) <? (if isLFGGroup gr || isBGGroup gr then 1 else 2)) (Disband g false) ;;
      mret true
  else Disband g false ;; mret false.

(** *** Sub-groups, roles and difficulties *)

(** A private method that no code calls. *)
Definition _setMembersGroup (g guid group : Z) : gact bool :=
  gr ← deref g;
  match _getMemberSlot guid gr with
  | None => mret false
  | Some _ =>
      on_slot g guid (λ s, s <| MemberSlot.group := group |>) ;;
      SubGroupCounterIncrease g group ;;
      when (stored_group gr) (emit (CHAR_UPD_GROUP_MEMBER_SUBGROUP group (GUID_LOPART guid))) ;;
      mret true
  end.
Definition ChangeMembersGroup (g guid group : Z) : gact unit :=
  gr ← deref g;
  if negb (isRaidGroup gr) then mret tt else
  match _getMemberSlot guid gr with
  | None => mret tt
  | Some s =>
      let prevSubGroup := MemberSlot.group s in
      if prevSubGroup =? group then mret tt else
      on_slot g guid (λ s, s <| MemberSlot.group := group |>) ;;
      SubGroupCounterIncrease g group ;;
      SubGroupCounterDecrease g prevSubGroup ;;
      when (stored_group gr) (emit (CHAR_UPD_GROUP_MEMBER_SUBGROUP group (GUID_LOPART guid))) ;;
      w ← get;
      match FindPlayer guid w with
      | Some pl => setSubGroup (if bool_decide (GetGroup pl = Some g) then RGroup else ROriginal) guid group
      | None => mret tt
      end ;;
      SendUpdate g
  end.
Definition SetGroupMemberFlag (g guid : Z) (apply : bool) (flag : Z) : gact unit :=
  gr ← deref g;
  if negb (isRaidGroup gr) then mret tt else
  match _getMemberSlot guid gr with
  | None => mret tt
  | Some _ =>
      if negb ((flag =? MEMBER_FLAG_MAINASSIST) || (flag =? MEMBER_FLAG_MAINTANK) || (flag =? MEMBER_FLAG_ASSISTANT))
      then mret tt else
      when (negb (flag =? MEMBER_FLAG_ASSISTANT)) (RemoveUniqueGroupMemberFlag g flag) ;;
      ToggleGroupMemberFlag g guid flag apply ;;
      gr ← deref g;
      s ← require (_getMemberSlot guid gr);
      emit (CHAR_UPD_GROUP_MEMBER_FLAG (MemberSlot.flags s) (GUID_LOPART guid)) ;;
      SendUpdate g
  end.
Definition SetLfgRoles (g guid roles : Z) : gact unit :=
  gr ← deref g;
  match _getMemberSlot guid gr with
  | None => mret tt
  | Some _ => on_slot g guid (λ s, s <| MemberSlot.roles := roles |>) ;; SendUpdate g
  end.
Definition SetDungeonDifficulty (g difficulty : Z) : gact unit :=
  on_group g (λ gr, gr <| m_dungeonDifficulty := difficulty |>) ;;
  gr ← deref g;
  when (stored_group gr) (emit (CHAR_UPD_GROUP_DIFFICULTY (u8 difficulty) (m_dbStoreId gr))) ;;
  forM_ (m_memberMgr gr) (λ r,
    on_player r.2 (λ pl, pl <| GetDungeonDifficulty := difficulty |>) ;; emit (SendDungeonDifficulty r.2)).
Definition SetRaidDifficulty (g difficulty : Z) : gact unit :=
  on_group g (λ gr, gr <| m_raidDifficulty := difficulty |>) ;;
  gr ← deref g;
  when (stored_group gr) (emit (CHAR_UPD_GROUP_RAID_DIFFICULTY (u8 difficulty) (m_dbStoreId gr))) ;;
  forM_ (m_memberMgr gr) (λ r,
    on_player r.2 (λ pl, pl <| GetRaidDifficulty := difficulty |>) ;; emit (SendRaidDifficulty r.2)).

(** *** Loading *)

Definition LoadGroupFromDB (g : Z) (fields : group_row) : gact unit :=
  on_group g (λ gr, gr <| m_dbStoreId := row_guid fields |>) ;;
  id ← GenerateGroupId;
  on_group g (λ gr, gr <| m_guid := MAKE_NEW_GUID id 0 HIGHGUID_GROUP |>
                       <| m_leaderGuid := MAKE_NEW_GUID (row_leaderGuid fields) 0 HIGHGUID_PLAYER |>) ;;
  match GetPlayerNameByGUID (row_leaderGuid fields) with
  | None => mret tt
  | Some name =>
      on_group g (λ gr, gr <| m_leaderName := name |> <| m_lootMethod := row_lootMethod fields |>
                           <| m_looterGuid := MAKE_NEW_GUID (row_looterGuid fields) 0 HIGHGUID_PLAYER |>
                           <| m_lootThreshold := row_lootThreshold fields |> <| m_targetIcons := row_icons fields |>
                           <| m_groupType := row_groupType fields |>) ;;
      when (has_flag (row_groupType fields) GROUPTYPE_RAID) (_initRaidSubGroupsCounter g) ;;
      on_group g (λ gr, gr
        <| m_dungeonDifficulty := if MAX_DUNGEON_DIFFICULTY <=? row_difficulty fields
                                  then DUNGEON_DIFFICULTY_NORMAL else row_difficulty fields |>
        <| m_raidDifficulty := if MAX_RAID_DIFFICULTY <=? row_raiddifficulty fields
                               then RAID_DIFFICULTY_10MAN_NORMAL else row_raiddifficulty fields |>) ;;
      when (has_flag (row_groupType fields) GROUPTYPE_LFG) (emit (LFG_LoadFromDB g))
  end.
Definition LoadMemberFromDB (g : Z) (fields : member_row) : gact unit :=
  let guid := MAKE_NEW_GUID (row_memberGuid fields) 0 HIGHGUID_PLAYER in
  match GetPlayerNameByGUID guid with
  | None => emit (CHAR_DEL_GROUP_MEMBER (row_memberGuid fields))
  | Some name =>
      on_group g (λ gr, gr <| m_memberSlots ::= λ l,
        l ++ [MemberSlot.mk guid name (row_subgroup fields) (row_memberFlags fields) (row_roles fields)] |>) ;;
      SubGroupCounterIncrease g (row_subgroup fields) ;;
      emit (LFG_SetupGroupMember guid g)
  end.
Definition LoadGroups_group (fields : group_row) : gact unit :=
  g ← alloc_group;
  LoadGroupFromDB g fields ;;
  AddGroup g ;;
  gr ← deref g;
  let storageId := m_dbStoreId gr in
  RegisterGroupDbStoreId storageId g ;;
  modify (λ w, if storageId =? NextGroupDbStoreId w then w <| NextGroupDbStoreId ::= λ n, u32 (n + 1) |> else w).
Definition LoadGroups_member (fields : member_row) : gact unit :=
  w ← get;
  match GetGroupByDbStoreId (row_group fields) w with
  | Some g => LoadMemberFromDB g fields
  | None => mret tt
  end.
(** [AddInstanceSave] gives the save of the instance. *)
Definition LoadGroups_bind (AddInstanceSave : Z → Z → Z → Z) (fields : bind_row) : gact unit :=
  w ← get;
  match sMapStore (row_map fields) with
  | Some (true, isRaid) =>
      let diff := row_bind_difficulty fields in
      let diff := if (if isRaid then MAX_RAID_DIFFICULTY else MAX_DUNGEON_DIFFICULTY) <=? diff then 0 else diff in
      g ← require (GetGroupByDbStoreId (row_bind_group fields) w);
      BindToInstance g (AddInstanceSave (row_map fields) (row_instance fields) diff) (row_permanent fields) true
  | _ => mret tt
  end.
(** Without groups or members the rest is not loaded. *)
Definition LoadGroups (AddInstanceSave : Z → Z → Z → Z) (rows : list group_row) (members : list member_row)
    (binds : list bind_row) : gact unit :=
  if bool_decide (rows = []) then mret tt else
  forM_ rows LoadGroups_group ;;
  if bool_decide (members = []) then mret tt else
  forM_ members LoadGroups_member ;;
  forM_ binds (LoadGroups_bind AddInstanceSave).

(** *** What players do *)

Definition UninviteFromGroup (p : Z) : gact unit :=
  pl ← player_of p;
  match m_groupInvite pl with
  | None => mret tt
  | Some g =>
      gr ← deref g;
      RemoveInvite g p ;;
      when (GetMembersCount gr <=? 1)
        (if IsCreated gr then Disband g true else RemoveAllInvites g ;; delete_group g)
  end.
Definition RemoveFromGroup (group : option Z) (guid method kicker : Z) (reason : string) : gact unit :=
  match group with
  | None => mret tt
  | Some g => _ ← RemoveMember g guid method kicker reason; mret tt
  end.
Definition CanUninviteFromGroup (p : Z) : gact Z :=
  w ← get; pl ← player_of p;
  match GetGroup pl with
  | None => mret ERR_NOT_IN_GROUP
  | Some g =>
      gr ← deref g;
      if isLFGGroup gr then
        let gguid := m_guid gr in
        let state := LFG_GetState gguid in
        let fighting := existsb (λ r, match players w !! r.2 with Some pl => isInCombat pl | None => false end) (m_memberMgr gr) in
        mret (if LFG_GetKicksLeft gguid =? 0 then ERR_PARTY_LFG_BOOT_LIMIT
              else if state =? LFG_STATE_BOOT then ERR_PARTY_LFG_BOOT_IN_PROGRESS
              else if GetMembersCount gr <=? LFG_GROUP_KICK_VOTES_NEEDED then ERR_PARTY_LFG_BOOT_TOO_FEW_PLAYERS
              else if state =? LFG_STATE_FINISHED_DUNGEON then ERR_PARTY_LFG_BOOT_DUNGEON_COMPLETE
              else if isRollLootActive gr then ERR_PARTY_LFG_BOOT_LOOT_ROLLS
              else if fighting then ERR_PARTY_LFG_BOOT_IN_COMBAT
              else ERR_PARTY_RESULT_OK)
      else
        mret (if negb (IsLeader p gr) && negb (IsAssistant p gr) then ERR_NOT_LEADER
              else if InBattleground pl then ERR_INVITE_RESTRICTED
              else ERR_PARTY_RESULT_OK)
  end.
(** [_LoadGroup] of a player who enters the world, by the id of his group. *)
Definition _LoadGroup (p : Z) (result : option Z) : gact unit :=
  match result with
  | None => mret tt
  | Some storageId =>
      w ← get;
      match GetGroupByDbStoreId storageId w with
      | None => mret tt
      | Some g =>
          gr ← deref g;
          SetGroup p (Some g) (GetMemberGroup p gr) ;;
          pl ← player_of p; gr ← deref g;
          when (LEVELREQUIREMENT_HEROIC <=? getLevel pl)
            (on_player p (λ pl, pl <| GetDungeonDifficulty := m_dungeonDifficulty gr |>
                                   <| GetRaidDifficulty := m_raidDifficulty gr |>))
      end
  end.
(** What the logout of a player does to groups; [socket] tells whether he logs out
    himself. *)
Definition LogoutPlayer (p : Z) (socket : bool) : gact unit :=
  UninviteFromGroup p ;;
  pl ← player_of p;
  match GetGroup pl with
  | None => mret tt
  | Some g =>
      gr ← deref g;
      when (negb (isRaidGroup gr) && socket) (RemoveFromGroup (Some g) p GROUP_REMOVEMETHOD_DEFAULT 0 "")
  end ;;
  pl ← player_of p;
  match GetGroup pl with
  | None => mret tt
  | Some g => SendUpdate g ;; ResetMaxEnchantingLevel g
  end.
(** The end of the object of a player: its references are cut. *)
Definition delete_player (p : Z) : gact unit :=
  unlink RGroup p ;; unlink ROriginal p ;; modify (λ w, w <| players ::= delete p |>).
End GroupOps.
