(* ===== verification/GroupHandler.v ===== *)
(** The packet handlers of groups: src/server/game/Handlers/GroupHandler.cpp, over
    the groups of Group.v.  A handler takes the guid of the player of the session
    and the packet, and reads it where the code does. *)

From S2P Require Import Prelude ByteBuffer Util Rbac Channel Social Group.
Open Scope string_scope.
Open Scope list_scope.
Open Scope Z_scope.

Definition PARTY_OP_INVITE : Z := 0.
Definition PARTY_OP_UNINVITE : Z := 1.
Definition PARTY_OP_LEAVE : Z := 2.
Definition GROUP_ASSIGN_MAINTANK : Z := 0.
Definition GROUP_ASSIGN_MAINASSIST : Z := 1.
Definition ACHIEVEMENT_CRITERIA_TYPE_ROLL_NEED : Z := 93.
Definition ACHIEVEMENT_CRITERIA_TYPE_ROLL_GREED : Z := 94.
Definition SMSG_GROUP_INVITE : Z := 0x06F.
Definition SMSG_GROUP_DECLINE : Z := 0x074.
Definition SMSG_PARTY_COMMAND_RESULT : Z := 0x07F.
Definition MSG_MINIMAP_PING : Z := 0x1D5.
Definition MSG_RANDOM_ROLL : Z := 0x1FB.
Definition MSG_RAID_READY_CHECK : Z := 0x322.
Definition SMSG_RAID_INSTANCE_INFO : Z := 0x2CC.
Definition SMSG_PARTY_MEMBER_STATS_FULL : Z := 0x2F2.
Definition MEMBER_STATUS_DEAD : Z := 0x0004.
Definition MEMBER_STATUS_GHOST : Z := 0x0008.
Definition MEMBER_STATUS_PVP_FFA : Z := 0x0010.
Definition MEMBER_STATUS_AFK : Z := 0x0040.
Definition MEMBER_STATUS_DND : Z := 0x0080.
Definition GROUP_UPDATE_FLAG_STATUS : Z := 0x00000001.
Definition GROUP_UPDATE_FLAG_CUR_HP : Z := 0x00000002.
Definition GROUP_UPDATE_FLAG_MAX_HP : Z := 0x00000004.
Definition GROUP_UPDATE_FLAG_POWER_TYPE : Z := 0x00000008.
Definition GROUP_UPDATE_FLAG_CUR_POWER : Z := 0x00000010.
Definition GROUP_UPDATE_FLAG_MAX_POWER : Z := 0x00000020.
Definition GROUP_UPDATE_FLAG_LEVEL : Z := 0x00000040.
Definition GROUP_UPDATE_FLAG_ZONE : Z := 0x00000080.
Definition GROUP_UPDATE_FLAG_POSITION : Z := 0x00000100.
Definition GROUP_UPDATE_FLAG_AURAS : Z := 0x00000200.
Definition GROUP_UPDATE_FLAG_PET_GUID : Z := 0x00000400.
Definition GROUP_UPDATE_FLAG_PET_NAME : Z := 0x00000800.
Definition GROUP_UPDATE_FLAG_PET_MODEL_ID : Z := 0x00001000.
Definition GROUP_UPDATE_FLAG_PET_CUR_HP : Z := 0x00002000.
Definition GROUP_UPDATE_FLAG_PET_MAX_HP : Z := 0x00004000.
Definition GROUP_UPDATE_FLAG_PET_POWER_TYPE : Z := 0x00008000.
Definition GROUP_UPDATE_FLAG_PET_CUR_POWER : Z := 0x00010000.
Definition GROUP_UPDATE_FLAG_PET_MAX_POWER : Z := 0x00020000.
Definition GROUP_UPDATE_FLAG_PET_AURAS : Z := 0x00040000.
Definition GROUP_UPDATE_FLAG_VEHICLE_SEAT : Z := 0x00080000.
Definition POWER_MANA : Z := 0.
Definition MAX_AURAS : Z := 64.

(** What the packet of a member's state asks of a unit, of a pet and of a player,
    besides the fields of [Player]; the position is already an integer. *)
Record UnitStats := mkUnitStats {
  getPowerType : Z; GetHealth : Z; GetMaxHealth : Z; GetPower : Z; GetMaxPower : Z;
  GetVisibleAura : Z → option (Z * Z) }.
Record PetStats := mkPetStats { pet_GUID : Z; pet_name : string; GetDisplayId : Z; pet_unit : UnitStats }.
Record MemberStats := mkMemberStats {
  stats_unit : UnitStats; stats_pet : option PetStats; IsPvP : bool; is_ghost : bool; is_FFA : bool; isAFK : bool;
  isDND : bool; stats_zone : Z; position_x : Z; position_y : Z; vehicle_seat : option Z }.

(** The settings of the world, the UTF-8 library behind names, the names of
    characters in the database, the state of players as units, and the seconds
    until a save is reset. *)
Class GroupHandlerEnv := {
  CONFIG_ALLOW_GM_GROUP : bool;
  CONFIG_ALLOW_TWO_SIDE_INTERACTION_GROUP : bool;
  normalizePlayerName : string → option string;
  GetPlayerGUIDByName : string → Z;
  member_stats : Z → MemberStats;
  reset_in : Z → Z }.

Section Handlers.
Context `{GroupEnv, GroupHandlerEnv}.

(** Reads from the packet of the client and goes on with what is left of it; an
    exception of the reader ends the handler. *)
Definition reading {A B} (recvData : ByteBuffer) (reader : bb A) (k : A → ByteBuffer → gact B) : gact B :=
  match reader recvData with
  | Done a rest _ => k a rest
  | Fault f _ _ => raise f
  end.
(** [ObjectAccessor::FindPlayerByName]; [::tolower] changes ASCII letters. *)
Definition FindPlayerByName (name : string) (w : GroupWorld) : option (Z * Player) :=
  head (filter (λ gp, IsInWorld gp.2 = true ∧ lower_name (GetName gp.2) = lower_name name) (hash_iter (players w))).
Definition SendPartyResult (me operation : Z) (member : string) (result val : Z) : gact unit :=
  send me (Initialize SMSG_PARTY_COMMAND_RESULT <+ U32 operation <+ Str member <+ U32 result <+ U32 val).
Definition group_invite_packet (flag : Z) (name : string) : WorldPacket :=
  Initialize SMSG_GROUP_INVITE <+ U8 flag <+ Str name <+ U32 0 <+ U8 0 <+ U32 0.
(** The group an invitation is about: not that of a battleground. *)
Definition normal_group (pl : Player) : gact (option Z) :=
  match GetGroup pl with
  | None => mret None
  | Some g => gr ← deref g; mret (if isBGGroup gr then GetOriginalGroup pl else Some g)
  end.
(** Why [me] cannot invite [player], before groups are looked at. *)
Definition invite_refused (me : Z) (pl player : Player) : option Z :=
  if negb CONFIG_ALLOW_GM_GROUP && negb (isGameMaster pl) && isGameMaster player then Some ERR_BAD_PLAYER_NAME_S
  else if negb (isGameMaster pl) && negb CONFIG_ALLOW_TWO_SIDE_INTERACTION_GROUP && negb (GetTeam pl =? GetTeam player)
  then Some ERR_PLAYER_WRONG_FACTION
  else if negb (GetInstanceId pl =? 0) && negb (GetInstanceId player =? 0)
          && negb (GetInstanceId pl =? GetInstanceId player) && (GetMapId pl =? GetMapId player)
  then Some ERR_TARGET_NOT_IN_INSTANCE_S
  else if negb (GetInstanceId player =? 0) && negb (GetDungeonDifficulty player =? GetDungeonDifficulty pl)
  then Some ERR_IGNORING_YOU_S
  else if HasIgnore (GUID_LOPART me) (p_social player) then Some ERR_IGNORING_YOU_S
  else None.
(** The invitation itself: a new group, or one of the inviter's. *)
Definition invite_to (me target : Z) (group : option Z) : gact bool :=
  match group with
  | Some g => AddInvite g target
  | None =>
      g ← alloc_group;
      ok ← AddLeaderInvite g me;
      if negb ok then delete_group g ;; mret false else
      ok ← AddInvite g target;
      if negb ok then delete_group g ;; mret false else mret true
  end.
Definition HandleGroupInviteOpcode (me : Z) (recvData : ByteBuffer) : gact unit :=
  reading recvData (name ← rshift_string; read_skip 4 ;; mret name) (λ membername _,
  match normalizePlayerName membername with
  | None => SendPartyResult me PARTY_OP_INVITE membername ERR_BAD_PLAYER_NAME_S 0
  | Some membername =>
      w ← get; pl ← player_of me;
      match FindPlayerByName membername w with
      | None => SendPartyResult me PARTY_OP_INVITE membername ERR_BAD_PLAYER_NAME_S 0
      | Some (target, player) =>
          match invite_refused me pl player with
          | Some err => SendPartyResult me PARTY_OP_INVITE membername err 0
          | None =>
              group ← normal_group pl;
              group2 ← normal_group player;
              if bool_decide (is_Some group2) || bool_decide (is_Some (m_groupInvite player)) then
                SendPartyResult me PARTY_OP_INVITE membername ERR_ALREADY_IN_GROUP_S 0 ;;
                when (bool_decide (is_Some group2)) (send target (group_invite_packet 0 (GetName pl)))
              else
                refusal ← match group with
                          | None => mret None
                          | Some g =>
                              gr ← deref g;
                              mret (if negb (IsLeader me gr) && negb (IsAssistant me gr) then Some ERR_NOT_LEADER
                                    else if IsFull gr then Some ERR_GROUP_FULL else None)
                          end;
                match refusal with
                | Some err => SendPartyResult me PARTY_OP_INVITE "" err 0
                | None =>
                    ok ← invite_to me target group;
                    when ok
                      (send target (group_invite_packet 1 (GetName pl)) ;;
                       SendPartyResult me PARTY_OP_INVITE membername ERR_PARTY_RESULT_OK 0)
                end
          end
      end
  end).
Definition HandleGroupAcceptOpcode (me : Z) (recvData : ByteBuffer) : gact unit :=
  reading recvData (read_skip 4) (λ _ _,
  pl ← player_of me;
  match m_groupInvite pl with
  | None => mret tt
  | Some g =>
      gr ← deref g;
      RemoveInvite g me ;;
      if IsLeader me gr then mret tt else
      if IsFull gr then SendPartyResult me PARTY_OP_INVITE "" ERR_GROUP_FULL 0 else
      w ← get;
      let leader := m_leaderGuid gr in
      if negb (IsCreated gr) && negb (is_online leader w) then RemoveAllInvites g else
      when (negb (IsCreated gr)) (RemoveInvite g leader ;; _ ← Create g leader; AddGroup g) ;;
      ok ← AddMember g me;
      when ok (BroadcastGroupUpdate g)
  end).
Definition HandleGroupDeclineOpcode (me : Z) : gact unit :=
  w ← get; pl ← player_of me;
  match m_groupInvite pl with
  | None => mret tt
  | Some g =>
      gr ← deref g;
      let leader := m_leaderGuid gr in
      UninviteFromGroup me ;;
      when (is_online leader w) (send leader (Initialize SMSG_GROUP_DECLINE <+ Str (GetName pl)))
  end.
Definition HandleGroupUninviteGuidOpcode (me : Z) (recvData : ByteBuffer) : gact unit :=
  reading recvData (guid ← rshift_unsigned 8; reason ← rshift_string; mret (guid, reason)) (λ '(guid, reason) _,
  if guid =? me then mret tt else
  result ← CanUninviteFromGroup me;
  if negb (result =? ERR_PARTY_RESULT_OK) then SendPartyResult me PARTY_OP_UNINVITE "" result 0 else
  pl ← player_of me;
  match GetGroup pl with
  | None => mret tt
  | Some g =>
      gr ← deref g;
      if IsLeader guid gr then SendPartyResult me PARTY_OP_UNINVITE "" ERR_NOT_LEADER 0
      else if IsMember guid gr then RemoveFromGroup (Some g) guid GROUP_REMOVEMETHOD_KICK me reason
      else
        invited ← GetInvited guid gr;
        match invited with
        | Some p => UninviteFromGroup p
        | None => SendPartyResult me PARTY_OP_UNINVITE "" ERR_TARGET_NOT_IN_GROUP_S 0
        end
  end).
Definition HandleGroupUninviteOpcode (me : Z) (recvData : ByteBuffer) : gact unit :=
  reading recvData rshift_string (λ membername _,
  match normalizePlayerName membername with
  | None => mret tt
  | Some membername =>
      pl ← player_of me;
      if String.eqb (GetName pl) membername then mret tt else
      result ← CanUninviteFromGroup me;
      if negb (result =? ERR_PARTY_RESULT_OK) then SendPartyResult me PARTY_OP_UNINVITE "" result 0 else
      match GetGroup pl with
      | None => mret tt
      | Some g =>
          gr ← deref g;
          let guid := GetMemberGUID membername gr in
          if negb (guid =? 0) then RemoveFromGroup (Some g) guid GROUP_REMOVEMETHOD_KICK me ""
          else
            invited ← GetInvited_name membername gr;
            match invited with
            | Some p => UninviteFromGroup p
            | None => SendPartyResult me PARTY_OP_UNINVITE membername ERR_TARGET_NOT_IN_GROUP_S 0
            end
      end
  end).
Definition HandleGroupSetLeaderOpcode (me : Z) (recvData : ByteBuffer) : gact unit :=
  reading recvData (rshift_unsigned 8) (λ guid _,
  w ← get; pl ← player_of me;
  match GetGroup pl, FindPlayer guid w with
  | Some g, Some player =>
      gr ← deref g;
      when (IsLeader me gr && bool_decide (GetGroup player = Some g)) (ChangeLeader g guid ;; SendUpdate g)
  | _, _ => mret tt
  end).
Definition HandleGroupDisbandOpcode (me : Z) : gact unit :=
  pl ← player_of me;
  match GetGroup pl with
  | None => mret tt
  | Some g =>
      if InBattleground pl then SendPartyResult me PARTY_OP_INVITE "" ERR_INVITE_RESTRICTED 0 else
      SendPartyResult me PARTY_OP_LEAVE (GetName pl) ERR_PARTY_RESULT_OK 0 ;;
      RemoveFromGroup (Some g) me GROUP_REMOVEMETHOD_LEAVE 0 ""
  end.
Definition HandleLootMethodOpcode (me : Z) (recvData : ByteBuffer) : gact unit :=
  reading recvData (m ← rshift_unsigned 4; l ← rshift_unsigned 8; t ← rshift_unsigned 4; mret (m, l, t))
    (λ '(lootMethod, lootMaster, lootThreshold) _,
  pl ← player_of me;
  match GetGroup pl with
  | None => mret tt
  | Some g =>
      gr ← deref g;
      when (IsLeader me gr)
        (SetLootMethod g lootMethod ;; SetLooterGuid g lootMaster ;; SetLootThreshold g lootThreshold ;; SendUpdate g)
  end).
Definition HandleLootRoll (me : Z) (recvData : ByteBuffer) : gact unit :=
  reading recvData (g ← rshift_unsigned 8; s ← rshift_unsigned 4; t ← rshift_unsigned 1; mret (g, s, t))
    (λ '(guid, itemSlot, rollType) _,
  pl ← player_of me;
  match GetGroup pl with
  | None => mret tt
  | Some g =>
      CountRollVote g me guid rollType ;;
      if rollType =? ROLL_NEED then emit (UpdateAchievementCriteria me ACHIEVEMENT_CRITERIA_TYPE_ROLL_NEED 1 0)
      else when (rollType =? ROLL_GREED) (emit (UpdateAchievementCriteria me ACHIEVEMENT_CRITERIA_TYPE_ROLL_GREED 1 0))
  end).
Definition HandleMinimapPingOpcode (me : Z) (recvData : ByteBuffer) : gact unit :=
  pl ← player_of me;
  match GetGroup pl with
  | None => mret tt
  | Some g =>
      reading recvData (x ← rshift_floating 4; y ← rshift_floating 4; mret (x, y)) (λ '(x, y) _,
      BroadcastPacket (Initialize MSG_MINIMAP_PING <+ U64 me <+ F32 x <+ F32 y) true (-1) me g)
  end.
Definition HandleRandomRollOpcode (me : Z) (recvData : ByteBuffer) : gact unit :=
  reading recvData (a ← rshift_unsigned 4; b ← rshift_unsigned 4; mret (a, b)) (λ '(minimum, maximum) _,
  if (maximum <? minimum) || (10000 <? maximum) then mret tt else
  roll ← urand minimum maximum;
  let data := Initialize MSG_RANDOM_ROLL <+ U32 minimum <+ U32 maximum <+ U32 roll <+ U64 me in
  pl ← player_of me;
  match GetGroup pl with
  | Some g => BroadcastPacket data false (-1) 0 g
  | None => send me data
  end).
Definition HandleRaidTargetUpdateOpcode (me : Z) (recvData : ByteBuffer) : gact unit :=
  pl ← player_of me;
  match GetGroup pl with
  | None => mret tt
  | Some g =>
      reading recvData (rshift_unsigned 1) (λ x rest,
      if x =? 0xFF then SendTargetIconList g me else
      gr ← deref g;
      if negb (IsLeader me gr) && negb (IsAssistant me gr) then mret tt else
      reading rest (rshift_unsigned 8) (λ guid _, SetTargetIcon g x me guid))
  end.
Definition HandleGroupRaidConvertOpcode (me : Z) : gact unit :=
  pl ← player_of me;
  match GetGroup pl with
  | None => mret tt
  | Some g =>
      if InBattleground pl then mret tt else
      gr ← deref g;
      if negb (IsLeader me gr) || (GetMembersCount gr <? 2) then mret tt else
      SendPartyResult me PARTY_OP_INVITE "" ERR_PARTY_RESULT_OK 0 ;; ConvertToRaid g
  end.
Definition HandleGroupChangeSubGroupOpcode (me : Z) (recvData : ByteBuffer) : gact unit :=
  pl ← player_of me;
  match GetGroup pl with
  | None => mret tt
  | Some g =>
      reading recvData (n ← rshift_string; s ← rshift_unsigned 1; mret (n, s)) (λ '(name, groupNr) _,
      if MAX_RAID_SUBGROUPS <=? groupNr then mret tt else
      gr ← deref g;
      if negb (IsLeader me gr) && negb (IsAssistant me gr) then mret tt else
      free ← HasFreeSlotSubGroup groupNr gr;
      if negb free then mret tt else
      w ← get;
      let guid := match FindPlayerByName name w with Some (guid, _) => guid | None => GetPlayerGUIDByName name end in
      ChangeMembersGroup g guid groupNr)
  end.
Definition HandleGroupAssistantLeaderOpcode (me : Z) (recvData : ByteBuffer) : gact unit :=
  pl ← player_of me;
  match GetGroup pl with
  | None => mret tt
  | Some g =>
      gr ← deref g;
      if negb (IsLeader me gr) then mret tt else
      reading recvData (guid ← rshift_unsigned 8; apply ← rshift_bool; mret (guid, apply)) (λ '(guid, apply) _,
      SetGroupMemberFlag g guid apply MEMBER_FLAG_ASSISTANT ;; SendUpdate g)
  end.
Definition HandlePartyAssignmentOpcode (me : Z) (recvData : ByteBuffer) : gact unit :=
  pl ← player_of me;
  match GetGroup pl with
  | None => mret tt
  | Some g =>
      gr ← deref g;
      if negb (IsLeader me gr) && negb (IsAssistant me gr) then mret tt else
      reading recvData (a ← rshift_unsigned 1; apply ← rshift_bool; guid ← rshift_unsigned 8; mret (a, apply, guid))
        (λ '(assignment, apply, guid) _,
      (if assignment =? GROUP_ASSIGN_MAINASSIST then
         RemoveUniqueGroupMemberFlag g MEMBER_FLAG_MAINASSIST ;; SetGroupMemberFlag g guid apply MEMBER_FLAG_MAINASSIST
       else when (assignment =? GROUP_ASSIGN_MAINTANK)
         (RemoveUniqueGroupMemberFlag g MEMBER_FLAG_MAINTANK ;; SetGroupMemberFlag g guid apply MEMBER_FLAG_MAINTANK)) ;;
      SendUpdate g)
  end.
Definition HandleRaidReadyCheckOpcode (me : Z) (recvData : ByteBuffer) : gact unit :=
  pl ← player_of me;
  match GetGroup pl with
  | None => mret tt
  | Some g =>
      gr ← deref g;
      if bool_decide (_storage recvData = []) then
        if negb (IsLeader me gr) && negb (IsAssistant me gr) then mret tt else
        BroadcastPacket (Initialize MSG_RAID_READY_CHECK <+ U64 me) false (-1) 0 g ;; OfflineReadyCheck g
      else reading recvData (rshift_unsigned 1) (λ state _,
        BroadcastReadyCheck (Initialize MSG_RAID_READY_CHECK_CONFIRM <+ U64 me <+ U8 state) g)
  end.
Definition HandleOptOutOfLootOpcode (me : Z) (recvData : ByteBuffer) : gact unit :=
  reading recvData (rshift_unsigned 4) (λ passOnLoot _,
  on_player me (λ pl, pl <| GetPassOnGroupLoot := negb (passOnLoot =? 0) |>)).

(** *** The state of a member

    The mask of the auras is written at its place after the loop. *)
Definition aura_fields (u : UnitStats) : list field :=
  let visible := omap (λ i, (λ a, (i, a)) <$> GetVisibleAura u i) (seqZ 0 MAX_AURAS) in
  U64 (foldl (λ mask ia, Z.lor mask (Z.shiftl 1 ia.1)) 0 visible)
    :: (visible ≫= λ ia, [U32 (u32 ia.2.1); U8 (u8 ia.2.2)]).
Definition stats_flags (st : MemberStats) : Z :=
  foldl Z.lor 0
    [GROUP_UPDATE_FLAG_STATUS; GROUP_UPDATE_FLAG_CUR_HP; GROUP_UPDATE_FLAG_MAX_HP; GROUP_UPDATE_FLAG_CUR_POWER;
     GROUP_UPDATE_FLAG_MAX_POWER; GROUP_UPDATE_FLAG_LEVEL; GROUP_UPDATE_FLAG_ZONE; GROUP_UPDATE_FLAG_POSITION;
     GROUP_UPDATE_FLAG_AURAS; GROUP_UPDATE_FLAG_PET_NAME; GROUP_UPDATE_FLAG_PET_MODEL_ID; GROUP_UPDATE_FLAG_PET_AURAS;
     if negb (getPowerType (stats_unit st) =? POWER_MANA) then GROUP_UPDATE_FLAG_POWER_TYPE else 0;
     match stats_pet st with
     | Some _ => foldl Z.lor 0 [GROUP_UPDATE_FLAG_PET_GUID; GROUP_UPDATE_FLAG_PET_CUR_HP; GROUP_UPDATE_FLAG_PET_MAX_HP;
         GROUP_UPDATE_FLAG_PET_POWER_TYPE; GROUP_UPDATE_FLAG_PET_CUR_POWER; GROUP_UPDATE_FLAG_PET_MAX_POWER]
     | None => 0
     end;
     if bool_decide (is_Some (vehicle_seat st)) then GROUP_UPDATE_FLAG_VEHICLE_SEAT else 0].
Definition stats_status (player : Player) (st : MemberStats) : Z :=
  foldl Z.lor MEMBER_STATUS_ONLINE
    [if IsPvP st then MEMBER_STATUS_PVP else 0;
     if isAlive player then 0 else if is_ghost st then MEMBER_STATUS_GHOST else MEMBER_STATUS_DEAD;
     if is_FFA st then MEMBER_STATUS_PVP_FFA else 0;
     if isAFK st then MEMBER_STATUS_AFK else 0;
     if isDND st then MEMBER_STATUS_DND else 0].
Definition pet_fields (pet : option PetStats) : list field :=
  match pet with
  | Some p =>
      let u := pet_unit p in
      [U64 (pet_GUID p); Str (pet_name p); U16 (u16 (GetDisplayId p)); U32 (GetHealth u); U32 (GetMaxHealth u);
       U8 (u8 (getPowerType u)); U16 (u16 (GetPower u)); U16 (u16 (GetMaxPower u))] ++ aura_fields u
  | None => [Str ""; U16 0; U64 0]
  end.
(** [appendPackGUID]: the mask and the bytes. *)
Definition packed_guid (guid : Z) : list field :=
  U8 <$> _storage (rstate (appendPackGUID guid bb_empty)).
Definition HandleRequestPartyMemberStatsOpcode (me : Z) (recvData : ByteBuffer) : gact unit :=
  reading recvData (rshift_unsigned 8) (λ Guid _,
  w ← get;
  match players w !! Guid with
  | None =>
      send me (mkWorldPacket SMSG_PARTY_MEMBER_STATS_FULL
        (U8 0 :: packed_guid Guid ++ [U32 GROUP_UPDATE_FLAG_STATUS; U16 MEMBER_STATUS_OFFLINE]))
  | Some player =>
      let st := member_stats Guid in
      let u := stats_unit st in
      send me (mkWorldPacket SMSG_PARTY_MEMBER_STATS_FULL
        (U8 0 :: packed_guid Guid ++
         [U32 (stats_flags st); U16 (stats_status player st); U32 (GetHealth u); U32 (GetMaxHealth u)] ++
         (if negb (getPowerType u =? POWER_MANA) then [U8 (u8 (getPowerType u))] else []) ++
         [U16 (u16 (GetPower u)); U16 (u16 (GetMaxPower u)); U16 (u16 (getLevel player)); U16 (u16 (stats_zone st));
          U16 (u16 (position_x st)); U16 (u16 (position_y st))] ++
         aura_fields u ++ pet_fields (stats_pet st) ++
         match vehicle_seat st with Some seat => [U32 seat] | None => [] end))
  end).

(** *** Saved instances *)

(** One permanent bind of [Player::SendRaidInfo]. *)
Definition raid_info_bind (mb : Z * InstanceGroupBind) : gact (list field) :=
  s ← require (save mb.2);
  mret [U32 (save_map s); U32 (save_difficulty s); U64 (save_instance s); U8 1; U8 0; U32 (u32 (reset_in s))].
Definition SendRaidInfo (me : Z) : gact unit :=
  pl ← player_of me;
  let binds := seqZ 0 MAX_DIFFICULTY ≫= λ i, hash_iter (default ∅ (p_boundInstances pl !! Z.to_nat i)) in
  rows ← mapM raid_info_bind (filter (λ mb, perm mb.2 = true) binds);
  send me (mkWorldPacket SMSG_RAID_INSTANCE_INFO (U32 (u32 (Z.of_nat (length rows))) :: concat rows)).
Definition HandleRequestRaidInfoOpcode (me : Z) : gact unit := SendRaidInfo me.
End Handlers.
