(* ===== verification/GroupRules.v ===== *)
(** The rules of groups: what the links between groups and players promise, and
    that every request of Group.v and GroupHandler.v keeps it. *)

From S2P Require Import Prelude ByteBuffer Util Rbac Channel Social Group GroupHandler.
Open Scope string_scope.
Open Scope list_scope.
Open Scope Z_scope.

(** ** The shape of a world

    The part that the links are about: every other field is blurred. *)

Definition blur_slot (s : MemberSlot.t) : MemberSlot.t := MemberSlot.mk (MemberSlot.guid s) "" (MemberSlot.group s) 0 0.
Definition blur (gr : Group) : Group :=
  mkGroup (blur_slot <$> m_memberSlots gr) (m_memberMgr gr) (m_invitees gr) (m_leaderGuid gr) "" (m_groupType gr)
    0 0 (m_bgGroup gr) (m_bfGroup gr) [] 0 0 0 [] [] (m_subGroupsCounts gr) 0 0 0 (m_dbStoreId gr).
(** [mkPlayer] with what groups hold on to. *)
Record links_of := mkLinks { l_group : option Z; l_original : option Z; l_invite : option Z; l_world : bool }.
#[export] Instance eta_links_of : Eta links_of := λ r, mkLinks (l_group r) (l_original r) (l_invite r) (l_world r).
Definition blur_player (pl : Player) : links_of :=
  mkLinks (iRefTo (m_group pl)) (iRefTo (m_originalGroup pl)) (m_groupInvite pl) (IsInWorld pl).
Definition l_ref (k : which) (l : links_of) : option Z := match k with RGroup => l_group l | ROriginal => l_original l end.
Definition set_l_ref (k : which) (v : option Z) (l : links_of) : links_of :=
  match k with RGroup => l <| l_group := v |> | ROriginal => l <| l_original := v |> end.
Record shape := mkShape {
  sh_groups : gmap Z Group; sh_players : gmap Z links_of; sh_store : list (option Z); sh_next : Z; sh_fresh : Z;
  sh_loots : gmap Z (nat * nat) }.
#[export] Instance eta_shape : Eta shape := λ r,
  mkShape (sh_groups r) (sh_players r) (sh_store r) (sh_next r) (sh_fresh r) (sh_loots r).
Definition loot_size (lo : Loot) : nat * nat := (length (items lo), length (quest_items lo)).
Definition shape_of (w : GroupWorld) : shape :=
  mkShape (blur <$> groups w) (blur_player <$> players w) (GroupDbStore w) (NextGroupDbStoreId w) (next_group w)
    (loot_size <$> loots w).

(** What is known of the rest of the server: a hash map is walked in some order,
    a save has one of the four difficulties, and a dungeon has a normal mode. *)
Class GroupLaws `{GroupEnv} : Prop := {
  hash_iter_perm : ∀ V (m : gmap Z V), hash_iter m ≡ₚ map_to_list m;
  save_difficulty_range : ∀ s, 0 <= save_difficulty s < MAX_DIFFICULTY;
  dungeon_normal : ∀ m isRaid, sMapStore m = Some (true, isRaid) → GetMapDifficultyData m 0 = true }.

Section Details.
Context `{GroupLaws}.

(** What the other fields promise: binds have saves, difficulties are in range,
    players are on maps and in sub-groups, and the items of rolls exist. *)
Definition binds_ok (b : gmap Z InstanceGroupBind) : Prop := ∀ m x, b !! m = Some x → is_Some (save x).
Record group_det (gr : Group) : Prop := {
  gd_len : length (m_boundInstances gr) = 4%nat;
  gd_binds : Forall binds_ok (m_boundInstances gr);
  gd_dungeon : 0 <= m_dungeonDifficulty gr < 4;
  gd_raid : 0 <= m_raidDifficulty gr < 4 }.
Record player_det (pl : Player) : Prop := {
  pd_map : is_Some (sMapStore (GetMapId pl));
  pd_binds : Forall binds_ok (p_boundInstances pl);
  pd_dungeon : 0 <= GetDungeonDifficulty pl < 4;
  pd_raid : 0 <= GetRaidDifficulty pl < 4;
  pd_sub : 0 <= iSubGroup (m_group pl) < 128;
  pd_osub : 0 <= iSubGroup (m_originalGroup pl) < 128 }.
Definition roll_ok (ls : gmap Z (nat * nat)) (r : Roll) : Prop :=
  is_Some (GetItemTemplate (itemid r)) ∧
  ∀ l, r_loot r = Some l → ∃ nm, ls !! l = Some nm ∧ 0 <= itemSlot r < Z.of_nat (nm.1 + nm.2).
Record details (w : GroupWorld) : Prop := {
  d_group : ∀ g gr, groups w !! g = Some gr → group_det gr;
  d_player : ∀ p pl, players w !! p = Some pl → player_det pl;
  d_roll : ∀ g gr r, groups w !! g = Some gr → r ∈ RollId gr → roll_ok (loot_size <$> loots w) r }.

Definition at_shape (sh : shape) (w : GroupWorld) : Prop := shape_of w = sh ∧ details w.
Definition g_in (g : Z) (sh : shape) : Prop := is_Some (sh_groups sh !! g).
Definition p_in (p : Z) (sh : shape) : Prop := is_Some (sh_players sh !! p).

Lemma wp_keeps {A B} (I : GroupWorld → Prop) (m : gact A) (f : A → gact B) w :
  wp m (λ _ w' _, I w') w → (∀ a, keeps I (f a)) → wp (m ≫= f) (λ _ w' _, I w') w.
Proof.
  intros Hm Hf. apply wp_bind. eapply wp_mono; [exact Hm|]. intros a w' t Hw'. eapply wp_mono; [by apply Hf|done].
Qed.

(** *** Reading *)

Lemma at_group sh w g : at_shape sh w → g_in g sh → is_Some (groups w !! g).
Proof. intros [<- _] [b Hb]. unfold shape_of in Hb. cbn in Hb. rewrite lookup_fmap in Hb. by destruct (groups w !! g); [eexists|]. Qed.
Lemma at_player sh w p : at_shape sh w → p_in p sh → is_Some (players w !! p).
Proof. intros [<- _] [b Hb]. unfold shape_of in Hb. cbn in Hb. rewrite lookup_fmap in Hb. by destruct (players w !! p); [eexists|]. Qed.
Lemma at_group_blur sh w g gr : at_shape sh w → groups w !! g = Some gr → sh_groups sh !! g = Some (blur gr).
Proof. intros [<- _] Hg. cbn. by rewrite lookup_fmap, Hg. Qed.
Lemma at_player_blur sh w p pl : at_shape sh w → players w !! p = Some pl → sh_players sh !! p = Some (blur_player pl).
Proof. intros [<- _] Hg. cbn. by rewrite lookup_fmap, Hg. Qed.
Lemma at_fresh sh w : at_shape sh w → next_group w = sh_fresh sh.
Proof. by intros [<- _]. Qed.

Lemma wp_deref sh w g (Q : Group → GroupWorld → list group_event → Prop) :
  at_shape sh w → g_in g sh →
  (∀ gr, groups w !! g = Some gr → sh_groups sh !! g = Some (blur gr) → group_det gr → Q gr w []) → wp (deref g) Q w.
Proof.
  intros Hw Hg HQ. destruct (at_group sh w g Hw Hg) as [gr Hgr]. unfold deref, wp, mbind, act_bind, get, require.
  cbn. rewrite Hgr. apply HQ; [done|by eapply at_group_blur|by eapply d_group; [apply Hw|]].
Qed.
Lemma wp_player_of sh w p (Q : Player → GroupWorld → list group_event → Prop) :
  at_shape sh w → p_in p sh →
  (∀ pl, players w !! p = Some pl → sh_players sh !! p = Some (blur_player pl) → player_det pl → Q pl w []) →
  wp (player_of p) Q w.
Proof.
  intros Hw Hg HQ. destruct (at_player sh w p Hw Hg) as [gr Hgr]. unfold player_of, wp, mbind, act_bind, get, require.
  cbn. rewrite Hgr. apply HQ; [done|by eapply at_player_blur|by eapply d_player; [apply Hw|]].
Qed.
(** Inside an action that keeps the shape. *)
Lemma keeps_deref {A} sh g (f : Group → gact A) :
  g_in g sh →
  (∀ gr, sh_groups sh !! g = Some (blur gr) → group_det gr → keeps (at_shape sh) (f gr)) →
  keeps (at_shape sh) (deref g ≫= f).
Proof.
  intros Hg Hf w Hw. apply wp_bind. eapply wp_deref; [done..|]. intros gr _ Hb Hd.
  eapply wp_mono; [by apply Hf|done].
Qed.
Lemma keeps_player {A} sh p (f : Player → gact A) :
  p_in p sh →
  (∀ pl, sh_players sh !! p = Some (blur_player pl) → player_det pl → keeps (at_shape sh) (f pl)) →
  keeps (at_shape sh) (player_of p ≫= f).
Proof.
  intros Hg Hf w Hw. apply wp_bind. eapply wp_player_of; [done..|]. intros gr _ Hb Hd.
  eapply wp_mono; [by apply Hf|done].
Qed.
(** The world read by [get] is one of the shape. *)
Lemma keeps_world {A} sh (f : GroupWorld → gact A) :
  (∀ w, at_shape sh w → keeps (at_shape sh) (f w)) → keeps (at_shape sh) (get ≫= f).
Proof. intros Hf w Hw. apply wp_bind, wp_get. eapply wp_mono; [by apply Hf|done]. Qed.
Lemma FindPlayer_in sh w p pl : at_shape sh w → FindPlayer p w = Some pl →
  players w !! p = Some pl ∧ IsInWorld pl = true ∧ p_in p sh.
Proof.
  intros Hw Hf. unfold FindPlayer in Hf. destruct (players w !! p) as [pl'|] eqn:Ep; [|done]. cbn in Hf.
  destruct (IsInWorld pl') eqn:Ei; [|done]. simplify_eq. split; [done|]. split; [done|].
  unfold p_in. erewrite at_player_blur by done. by eexists.
Qed.

(** *** Writing *)

Definition on_sh_group (g : Z) (f : Group → Group) (sh : shape) : shape := sh <| sh_groups ::= alter f g |>.
Definition on_sh_player (p : Z) (f : links_of → links_of) (sh : shape) : shape := sh <| sh_players ::= alter f p |>.

Lemma shape_eq sh sh' :
  sh_groups sh = sh_groups sh' → sh_players sh = sh_players sh' → sh_store sh = sh_store sh' →
  sh_next sh = sh_next sh' → sh_fresh sh = sh_fresh sh' → sh_loots sh = sh_loots sh' → sh = sh'.
Proof. destruct sh, sh'. cbn. by intros -> -> -> -> -> ->. Qed.

(** [f] on a group is [f'] on its blur. *)
Lemma wp_on_group sh w g f f' (Q : unit → GroupWorld → list group_event → Prop) :
  at_shape sh w → g_in g sh →
  (∀ gr, groups w !! g = Some gr → blur (f gr) = f' (blur gr)) →
  (∀ gr, groups w !! g = Some gr → group_det gr → group_det (f gr)) →
  (∀ gr r, groups w !! g = Some gr → r ∈ RollId (f gr) → r ∈ RollId gr ∨ roll_ok (sh_loots sh) r) →
  (∀ w', at_shape (on_sh_group g f' sh) w' → (∃ gr, groups w !! g = Some gr ∧ w' = w <| groups ::= <[g := f gr]> |>) → Q tt w' []) →
  wp (on_group g f) Q w.
Proof.
  intros Hw Hg Hb Hd Hr HQ. unfold on_group. apply wp_bind. eapply wp_deref; [done..|]. intros gr Hgr Hbl Hdet.
  apply wp_modify. apply HQ; [|by exists gr]. destruct Hw as [Hs [D1 D2 D3]]. split.
  - subst sh. apply shape_eq; cbn; try done.
    apply map_eq. intros g'. rewrite lookup_fmap. destruct (decide (g = g')) as [<-|Hne].
    + rewrite lookup_insert_eq, lookup_alter_eq, lookup_fmap, Hgr. cbn [fmap option_fmap option_map]. by rewrite (Hb _ Hgr).
    + by rewrite lookup_insert_ne, lookup_alter_ne, lookup_fmap.
  - split; cbn; [|done|].
    + intros g' gr' Hg'. apply lookup_insert_Some in Hg' as [[<- <-]|[_ Hg']]; [by apply Hd|by eapply D1].
    + intros g' gr' r Hg' Hin. apply lookup_insert_Some in Hg' as [[<- <-]|[_ Hg']]; [|by eapply D3].
      destruct (Hr gr r Hgr Hin) as [Hi|Hi]; [by eapply D3|by subst sh].
Qed.
Lemma wp_on_player sh w p f f' (Q : unit → GroupWorld → list group_event → Prop) :
  at_shape sh w → p_in p sh →
  (∀ pl, players w !! p = Some pl → blur_player (f pl) = f' (blur_player pl)) →
  (∀ pl, players w !! p = Some pl → player_det pl → player_det (f pl)) →
  (∀ w', at_shape (on_sh_player p f' sh) w' → Q tt w' []) →
  wp (on_player p f) Q w.
Proof.
  intros Hw Hg Hb Hd HQ. unfold on_player. apply wp_bind. eapply wp_player_of; [done..|]. intros pl Hpl Hbl Hdet.
  apply wp_modify. apply HQ. destruct Hw as [Hs [D1 D2 D3]]. split.
  - subst sh. apply shape_eq; cbn; try done.
    apply map_eq. intros g'. rewrite lookup_fmap. destruct (decide (p = g')) as [<-|Hne].
    + rewrite lookup_insert_eq, lookup_alter_eq, lookup_fmap, Hpl. cbn [fmap option_fmap option_map]. by rewrite (Hb _ Hpl).
    + by rewrite lookup_insert_ne, lookup_alter_ne, lookup_fmap.
  - split; cbn; [done| |done].
    intros g' gr' Hg'. apply lookup_insert_Some in Hg' as [[<- <-]|[_ Hg']]; [by apply Hd|by eapply D2].
Qed.
Lemma on_sh_group_id g sh : on_sh_group g (λ x, x) sh = sh.
Proof.
  apply shape_eq; try done. cbn. apply map_eq. intros i. destruct (decide (g = i)) as [<-|].
  - rewrite lookup_alter_eq. by destruct (sh_groups sh !! g).
  - by rewrite lookup_alter_ne.
Qed.
Lemma on_sh_player_id g sh : on_sh_player g (λ x, x) sh = sh.
Proof.
  apply shape_eq; try done. cbn. apply map_eq. intros i. destruct (decide (g = i)) as [<-|].
  - rewrite lookup_alter_eq. by destruct (sh_players sh !! g).
  - by rewrite lookup_alter_ne.
Qed.
Lemma keeps_on_group sh g f :
  g_in g sh → (∀ gr, blur (f gr) = blur gr) → (∀ gr, group_det gr → group_det (f gr)) →
  (∀ gr r, r ∈ RollId (f gr) → r ∈ RollId gr) → keeps (at_shape sh) (on_group g f).
Proof.
  intros Hg Hb Hd Hr w Hw. eapply wp_on_group with (f' := λ x, x); try done; [by eauto..|].
  rewrite on_sh_group_id. done.
Qed.
Lemma keeps_group_player sh p f :
  p_in p sh → (∀ pl, blur_player (f pl) = blur_player pl) → (∀ pl, player_det pl → player_det (f pl)) →
  keeps (at_shape sh) (on_player p f).
Proof.
  intros Hg Hb Hd w Hw. eapply wp_on_player with (f' := λ x, x); try done; [by eauto..|].
  rewrite on_sh_player_id. done.
Qed.

(** ** Actions that keep the shape *)

Lemma keeps_group_require {A B} sh (o : option A) (f : A → gact B) :
  is_Some o → (∀ a, o = Some a → keeps (at_shape sh) (f a)) → keeps (at_shape sh) (require o ≫= f).
Proof.
  intros [a ->] Hf w Hw. apply wp_bind, wp_ret. eapply wp_mono; [by apply Hf|done].
Qed.
Lemma keeps_send sh p data : keeps (at_shape sh) (send p data).
Proof. apply keeps_emit. Qed.
#[local] Hint Resolve keeps_send : act.
#[local] Ltac quiet :=
  repeat lazymatch goal with
  | |- keeps _ (deref _ ≫= _) => apply keeps_deref; [done|intros ? ? ?]
  | |- keeps _ (player_of _ ≫= _) => apply keeps_player; [done|intros ? ? ?]
  | |- keeps _ (get ≫= _) => apply keeps_world; intros ? ?
  | |- keeps _ (_ ≫= _) => apply keeps_bind; [|intros ?]
  | |- keeps _ (when _ _) => apply keeps_when
  | |- keeps _ (forM_ _ _) => apply keeps_forM; intros ? ?
  | |- keeps _ (mret _) => apply keeps_ret
  | |- keeps _ (emit _) => apply keeps_emit
  | |- keeps _ (send _ _) => apply keeps_emit
  | |- keeps _ (match ?x with _ => _ end) => destruct x eqn:?
  end.

Section Quiet.
Context (sh : shape) (g : Z) (Hg : g_in g sh).

Lemma keeps_group_BroadcastPacket data b group ignore : keeps (at_shape sh) (BroadcastPacket data b group ignore g).
Proof. unfold BroadcastPacket. quiet. Qed.
Lemma keeps_BroadcastReadyCheck data : keeps (at_shape sh) (BroadcastReadyCheck data g).
Proof. unfold BroadcastReadyCheck. quiet. Qed.
Lemma keeps_OfflineReadyCheck : keeps (at_shape sh) (OfflineReadyCheck g).
Proof. unfold OfflineReadyCheck. quiet. all: apply keeps_BroadcastReadyCheck. Qed.
Lemma keeps_SendUpdateToPlayer p slot : keeps (at_shape sh) (SendUpdateToPlayer g p slot).
Proof. unfold SendUpdateToPlayer. quiet. all: apply keeps_on_group; try done. intros ? []. by split. Qed.
Lemma keeps_SendUpdate : keeps (at_shape sh) (SendUpdate g).
Proof. unfold SendUpdate. quiet. all: apply keeps_SendUpdateToPlayer. Qed.
Lemma keeps_UpdatePlayerOutOfRange p : keeps (at_shape sh) (UpdatePlayerOutOfRange g p).
Proof. unfold UpdatePlayerOutOfRange. quiet. Qed.
Lemma keeps_BroadcastGroupUpdate : keeps (at_shape sh) (BroadcastGroupUpdate g).
Proof. unfold BroadcastGroupUpdate. quiet. Qed.
Lemma keeps_SendMemberFields p : keeps (at_shape sh) (SendMemberFields g p).
Proof. unfold SendMemberFields. quiet. Qed.
Lemma keeps_homebind p : p_in p sh → keeps (at_shape sh) (_homebindIfInstance p).
Proof.
  intros Hp. unfold _homebindIfInstance. apply keeps_player; [done|]. intros pl _ [Hm _ _ _ _ _].
  destruct (isGameMaster pl); [auto with act|]. apply keeps_group_require; [done|]. intros. quiet.
Qed.
Lemma keeps_ResetMaxEnchantingLevel : keeps (at_shape sh) (ResetMaxEnchantingLevel g).
Proof. unfold ResetMaxEnchantingLevel. quiet. all: apply keeps_on_group; try done. intros ? []. by split. Qed.
Lemma keeps_SetLootMethod m : keeps (at_shape sh) (SetLootMethod g m).
Proof. apply keeps_on_group; try done. intros ? []. by split. Qed.
Lemma keeps_SetLooterGuid m : keeps (at_shape sh) (SetLooterGuid g m).
Proof. apply keeps_on_group; try done. intros ? []. by split. Qed.
Lemma keeps_SetLootThreshold m : keeps (at_shape sh) (SetLootThreshold g m).
Proof. apply keeps_on_group; try done. intros ? []. by split. Qed.
Lemma keeps_place_icon id a b : keeps (at_shape sh) (place_icon g id a b).
Proof.
  unfold place_icon. apply keeps_bind; [|intros; apply keeps_group_BroadcastPacket].
  apply keeps_on_group; try done. intros ? []. by split.
Qed.
Lemma keeps_SetTargetIcon id a b : keeps (at_shape sh) (SetTargetIcon g id a b).
Proof. unfold SetTargetIcon. quiet. all: apply keeps_place_icon. Qed.
Lemma keeps_SendTargetIconList p : keeps (at_shape sh) (SendTargetIconList g p).
Proof. unfold SendTargetIconList. quiet. Qed.
Lemma keeps_setSubGroup k p n : p_in p sh → 0 <= n < 128 → keeps (at_shape sh) (setSubGroup k p n).
Proof. intros Hp Hn. apply keeps_group_player; try done; destruct k; try done; intros ? []; by split. Qed.

(** Members' flags and roles. *)
Lemma keeps_on_slot guid f :
  (∀ s, blur_slot (f s) = blur_slot s) → keeps (at_shape sh) (on_slot g guid f).
Proof.
  intros Hf. unfold on_slot. quiet. all: apply keeps_on_group; try done; [|by intros ? []].
  intros gr'. unfold blur. cbn. f_equal. apply list_eq. intros i. rewrite !list_lookup_fmap.
  destruct (decide (n = i)) as [->|Hne].
  - rewrite list_lookup_alter_eq. destruct (m_memberSlots gr' !! i); [|done]. cbn. by rewrite Hf.
  - by rewrite list_lookup_alter_ne.
Qed.
Lemma keeps_ToggleGroupMemberFlag guid fl b : keeps (at_shape sh) (ToggleGroupMemberFlag g guid fl b).
Proof. by apply keeps_on_slot. Qed.
Lemma keeps_RemoveUniqueGroupMemberFlag fl : keeps (at_shape sh) (RemoveUniqueGroupMemberFlag g fl).
Proof.
  apply keeps_on_group; try done; [|by intros ? []]. intros gr. unfold blur. cbn. f_equal.
  rewrite <- list_fmap_compose. apply list_fmap_ext. intros i s _. cbn. by destruct (has_flag _ _).
Qed.
Lemma keeps_SetLfgRoles guid r : keeps (at_shape sh) (SetLfgRoles g guid r).
Proof. unfold SetLfgRoles. quiet; [by apply keeps_on_slot|apply keeps_SendUpdate]. Qed.
End Quiet.

(** *** Instances *)

Lemma hash_iter_elem {V} (m : gmap Z V) k v : (k, v) ∈ hash_iter m ↔ m !! k = Some v.
Proof. rewrite hash_iter_perm. apply elem_of_map_to_list. Qed.
Lemma hash_iter_length {V} (m : gmap Z V) : length (hash_iter m) = base.size m.
Proof. rewrite hash_iter_perm. apply length_map_to_list. Qed.
Lemma diff_nat d : 0 <= d < MAX_DIFFICULTY → (Z.to_nat d < 4)%nat.
Proof. unfold MAX_DIFFICULTY. lia. Qed.
(** Scaling a difficulty down keeps it in range for a dungeon. *)
Lemma downscale_range m isRaid d :
  sMapStore m = Some (true, isRaid) → 0 <= d < 4 → 0 <= GetDownscaledMapDifficultyData m d < 4.
Proof.
  intros Hm Hd. pose proof (dungeon_normal m isRaid Hm) as H0'.
  assert (d = 0 ∨ d = 1 ∨ d = 2 ∨ d = 3) as [-> | [-> | [-> | ->]]] by lia; unfold GetDownscaledMapDifficultyData.
  - by rewrite H0'.
  - destruct (GetMapDifficultyData m 1); [lia|]. change (u32 (if _ <? 1 then _ else _)) with 0. cbv zeta. rewrite H0'. lia.
  - destruct (GetMapDifficultyData m 2); [lia|]. change (u32 (if _ <? 2 then _ else _)) with 0. cbv zeta. rewrite H0'. lia.
  - destruct (GetMapDifficultyData m 3); [lia|]. change (u32 (if _ <? 3 then _ else _)) with 1. cbv zeta.
    destruct (GetMapDifficultyData m 1); [lia|]. change (u32 _) with 0. lia.
Qed.
Lemma binds_lookup (l : list (gmap Z InstanceGroupBind)) d :
  length l = 4%nat → 0 <= d < 4 → is_Some (l !! Z.to_nat d).
Proof. intros Hl Hd. apply lookup_lt_is_Some. lia. Qed.
Lemma binds_at l d b : Forall binds_ok l → l !! d = Some b → binds_ok b.
Proof. rewrite Forall_lookup. eauto. Qed.
Lemma binds_alter f l d : Forall binds_ok l → (∀ b, binds_ok b → binds_ok (f b)) → Forall binds_ok (alter f d l).
Proof.
  intros Hl Hf. apply Forall_lookup. intros i b Hb. destruct (decide (d = i)) as [->|Hne].
  - rewrite list_lookup_alter_eq in Hb. destruct (l !! i) as [b0|] eqn:E; [|done]. cbn in Hb. simplify_eq.
    apply Hf. by eapply binds_at.
  - rewrite list_lookup_alter_ne in Hb by done. by eapply binds_at.
Qed.
Lemma binds_ok_delete m b : binds_ok b → binds_ok (delete m b).
Proof. intros Hb m' x Hx. apply lookup_delete_Some in Hx as [_ Hx]. by eapply Hb. Qed.
Lemma group_det_binds f d gr :
  group_det gr → (∀ b, binds_ok b → binds_ok (f b)) → group_det (gr <| m_boundInstances ::= alter f d |>).
Proof. intros [] Hf. split; cbn; [by rewrite length_alter|by apply binds_alter|done..]. Qed.

Lemma wp_GetBoundInstance_player sh w g p : at_shape sh w → g_in g sh → p_in p sh →
  wp (GetBoundInstance_player p g) (λ b w' _, w' = w ∧ ∀ x, b = Some x → is_Some (save x)) w.
Proof.
  intros Hw Hg Hp. unfold GetBoundInstance_player.
  apply wp_bind. eapply wp_player_of; [done..|]. intros pl _ _ _.
  apply wp_bind. eapply wp_deref; [done..|]. intros gr _ _ [Hl Hb Hd1 Hd2].
  destruct (sMapStore (GetMapId pl)) as [[[] r]|] eqn:Em; [|by apply wp_ret..].
  unfold GetBoundInstance.
  destruct (binds_lookup (m_boundInstances gr) (GetDownscaledMapDifficultyData (GetMapId pl) (GetDifficulty r gr))) as [b Eb];
    [done| |].
  { eapply downscale_range; [done|]. unfold GetDifficulty. by destruct r. }
  rewrite Eb. apply wp_ret. split; [done|]. intros y Hy. eapply binds_at in Eb; [|done]. by eapply Eb.
Qed.
Lemma keeps_BindToInstance sh g s permanent load : g_in g sh → keeps (at_shape sh) (BindToInstance g s permanent load).
Proof.
  intros Hg. unfold BindToInstance. apply keeps_deref; [done|]. intros gr _ [Hl Hb _ _].
  destruct (negb (stored_group gr)); [auto with act|].
  destruct (binds_lookup (m_boundInstances gr) (save_difficulty s)) as [b ->]; [done|apply save_difficulty_range|].
  cbv zeta. quiet. apply keeps_on_group; try done. intros gr' Hd. apply group_det_binds; [done|].
  intros b' Hb' m x Hx. apply lookup_insert_Some in Hx as [[_ <-]|[_ Hx]]; [by eexists|by eapply Hb'].
Qed.
Lemma keeps_Player_UnbindInstance sh p d m b :
  p_in p sh → is_Some (save b) → keeps (at_shape sh) (Player_UnbindInstance p d m b).
Proof.
  intros Hp Hs. unfold Player_UnbindInstance. apply keeps_group_require; [done|]. intros s _. quiet.
  apply keeps_group_player; try done. intros pl []. split; cbn; try done. apply binds_alter; [done|].
  intros. by apply binds_ok_delete.
Qed.
Lemma keeps_ConvertInstancesToGroup sh p g b : g_in g sh → p_in p sh → keeps (at_shape sh) (ConvertInstancesToGroup p g b).
Proof.
  intros Hg Hp. unfold ConvertInstancesToGroup. apply keeps_player; [done|]. intros pl _ [_ Hb _ _ _ _].
  apply keeps_forM. intros i Hi. apply keeps_forM. intros [m x] Hx. apply hash_iter_elem in Hx.
  assert (is_Some (save x)) as Hs.
  { destruct (p_boundInstances pl !! Z.to_nat i) as [bs|] eqn:E; [|cbn in Hx; by rewrite lookup_empty in Hx].
    cbn in Hx. by eapply (binds_at _ _ _ Hb E). }
  apply keeps_group_require; [done|]. intros s _. quiet; [by apply keeps_BindToInstance|by apply keeps_Player_UnbindInstance].
Qed.

(** *** Resetting instances

    Which binds a reset erases depends on the bind alone. *)
Definition reset_empty (method s : Z) : bool :=
  match FindDungeonMap (save_map s) (save_instance s) with
  | None => true
  | Some map => if (method =? INSTANCE_RESET_GROUP_DISBAND) && negb (CanReset s) then true
                else if CanReset s then InstanceMap_Reset map method else negb (HavePlayers map)
  end.
Definition reset_erases (method : Z) (isRaid : bool) (diff mapid : Z) (bind : InstanceGroupBind) : bool :=
  match sMapStore mapid, save bind with
  | Some (_, entryRaid), Some s =>
      Bool.eqb entryRaid isRaid && (CanReset s || (method =? INSTANCE_RESET_GROUP_DISBAND))
      && negb ((method =? INSTANCE_RESET_ALL) && (map_is_raid_type mapid || (diff =? DUNGEON_DIFFICULTY_HEROIC)))
      && (reset_empty method s || (method =? INSTANCE_RESET_GROUP_DISBAND) || (method =? INSTANCE_RESET_CHANGE_DIFFICULTY))
  | _, _ => false
  end.
Definition without_bind (diff mapid : Z) (gr : Group) : Group :=
  gr <| m_boundInstances ::= alter (delete mapid) (Z.to_nat diff) |>.

Section Reset.
Context (sh : shape) (g : Z) (Hg : g_in g sh).

Lemma wp_ResetInstance w gr method isRaid to diff mapid bind :
  at_shape sh w → groups w !! g = Some gr → is_Some (save bind) →
  wp (ResetInstance g method isRaid to diff mapid bind) (λ b w' _, at_shape sh w' ∧
    b = reset_erases method isRaid diff mapid bind ∧
    groups w' !! g = Some (if b then without_bind diff mapid gr else gr)) w.
Proof.
  intros Hw Hgr [s Hs]. unfold ResetInstance, reset_erases. rewrite Hs.
  destruct (sMapStore mapid) as [[d er]|]; [|by apply wp_ret].
  destruct (Bool.eqb er isRaid); [|by apply wp_ret]. cbn [negb andb]. apply wp_bind, wp_ret.
  rewrite <- (negb_involutive (CanReset s || _)), negb_orb.
  destruct (negb (CanReset s) && negb (method =? INSTANCE_RESET_GROUP_DISBAND)); [by apply wp_ret|]. cbn [negb andb].
  destruct ((method =? INSTANCE_RESET_ALL) && _); [by apply wp_ret|]. cbn [negb andb].
  apply wp_bind.
  assert (wp (match FindDungeonMap (save_map s) (save_instance s) with
              | None => mret true
              | Some map =>
                  if (method =? INSTANCE_RESET_GROUP_DISBAND) && negb (CanReset s) then mret true
                  else if CanReset s then emit (MapReset map method) ;; mret (InstanceMap_Reset map method)
                  else mret (negb (HavePlayers map))
              end) (λ b w' (_ : list group_event), b = reset_empty method s ∧ w' = w) w) as He.
  { unfold reset_empty. destruct (FindDungeonMap _ _) as [map|]; [|done]. destruct (_ && _); [done|].
    destruct (CanReset s); done. }
  eapply wp_mono; [exact He|]. intros b w1 t1 [-> ->]. apply wp_bind.
  apply wp_mono with (P := λ _ w' _, w' = w); [by destruct to|]. intros [] w1 t2 ->.
  destruct (reset_empty method s || _ || _); [|by apply wp_ret].
  apply wp_bind, wp_emit, wp_bind.
  eapply wp_on_group with (f' := λ x, x); [done|done|done| |by eauto|].
  { intros. apply group_det_binds; [done|]. intros. by apply binds_ok_delete. }
  intros w1 Hw1 (gr' & Hgr' & ->). simplify_eq. rewrite on_sh_group_id in Hw1.
  apply wp_bind, wp_emit, wp_ret. cbn. by rewrite lookup_insert_eq.
Qed.

Lemma alter_list_ext {A} (f f' : A → A) (i : nat) (l : list A) x : l !! i = Some x → f x = f' x → alter f i l = alter f' i l.
Proof.
  intros Hx Hf. apply list_eq. intros j. destruct (decide (i = j)) as [<-|Hne].
  - rewrite !list_lookup_alter_eq, Hx. cbn. by rewrite Hf.
  - by rewrite !list_lookup_alter_ne.
Qed.
Lemma alter_list_compose {A} (f f' : A → A) (i : nat) (l : list A) : alter f i (alter f' i l) = alter (f ∘ f') i l.
Proof.
  apply list_eq. intros j. destruct (decide (i = j)) as [<-|Hne].
  - rewrite !list_lookup_alter_eq. by destruct (l !! i).
  - by rewrite !list_lookup_alter_ne.
Qed.
Definition kept_binds (method : Z) (isRaid : bool) (diff : Z) (cur : gmap Z InstanceGroupBind) : gmap Z InstanceGroupBind :=
  filter (λ mb, reset_erases method isRaid diff mb.1 mb.2 = false) cur.
Definition with_kept (method : Z) (isRaid : bool) (diff : Z) (gr : Group) : Group :=
  gr <| m_boundInstances ::= alter (kept_binds method isRaid diff) (Z.to_nat diff) |>.

(** A turn that erases a bind makes the map smaller, a turn that does not makes
    the rest of the walk shorter. *)
Lemma wp_ResetInstances_loop method isRaid to diff fuel : ∀ w gr cur l,
  at_shape sh w → groups w !! g = Some gr → m_boundInstances gr !! Z.to_nat diff = Some cur →
  (∀ m x, (m, x) ∈ l → cur !! m = Some x) →
  (∀ m x, cur !! m = Some x → (m, x) ∉ l → reset_erases method isRaid diff m x = false) →
  (length l + 1 + base.size cur * base.size cur <= fuel)%nat →
  wp (ResetInstances_loop fuel g method isRaid to diff l)
    (λ _ w' _, at_shape sh w' ∧ groups w' !! g = Some (with_kept method isRaid diff gr)) w.
Proof.
  induction fuel as [|fuel IH]; intros w gr cur l Hw Hgr Hcur Hl Hd Hf; [lia|].
  assert (binds_ok cur) as Hok by (eapply binds_at; [apply gd_binds; eapply d_group; [apply Hw|done]|done]).
  destruct l as [|[m x] l]; cbn [ResetInstances_loop].
  - apply wp_ret. split; [done|]. rewrite Hgr. f_equal. unfold with_kept. destruct gr as [x1 x2 x3 x4 x5 x6 x7 x8 x9 xa xb xc xd xe xf bs xg xh xi xj xk].
    cbn in *. unfold setf. cbn. f_equal. rewrite (alter_list_ext _ id _ _ _ Hcur); [by rewrite list_alter_id|].
    apply map_eq. intros m. unfold kept_binds. rewrite map_lookup_filter.
    destruct (cur !! m) as [x|] eqn:Ex; cbn; [|by rewrite Ex]. rewrite Ex. cbn.
    rewrite option_guard_True; [done|]. apply Hd; [done|set_solver].
  - apply wp_bind. pose proof (Hl m x ltac:(set_solver)) as Hmx.
    eapply wp_mono; [eapply wp_ResetInstance; [done..|by eapply Hok]|].
    intros b w1 t1 (Hw1 & Hb & Hg1). cbn [fst snd] in *. destruct b.
    + apply wp_bind. eapply wp_deref; [done..|]. intros gr1 Hgr1 _ _. rewrite Hg1 in Hgr1. simplify_eq.
      assert (m_boundInstances (without_bind diff m gr) !! Z.to_nat diff = Some (delete m cur)) as Hcur1
        by (cbn; by rewrite list_lookup_alter_eq, Hcur).
      rewrite Hcur1. cbn [default from_option id].
      assert (base.size cur = S (base.size (delete m cur))) as Hsz
        by (rewrite map_size_delete_Some by (by eexists); pose proof (map_size_ne_0_lookup_2 cur m ltac:(by eexists)); lia).
      eapply wp_mono; [eapply (IH w1 _ (delete m cur)); [done..| | |]|].
      * intros m' x'. apply hash_iter_elem.
      * intros m' x' Hx' []. by apply hash_iter_elem.
      * rewrite hash_iter_length. cbn in Hf. nia.
      * intros [] w2 t2 (Hw2 & Hg2). split; [done|]. rewrite Hg2. f_equal. unfold with_kept, without_bind. destruct gr as [x1 x2 x3 x4 x5 x6 x7 x8 x9 xa xb xc xd xe xf bs xg xh xi xj xk].
        cbn in *. unfold setf. cbn. f_equal. rewrite alter_list_compose. eapply alter_list_ext; [done|]. cbn.
        apply map_filter_delete_not. intros y Hy. assert (x = y) as <- by congruence. cbn. by rewrite <- Hb.
    + eapply wp_mono; [eapply (IH w1 gr cur l); [done..| | |]|].
      * intros. apply Hl. set_solver.
      * intros m' x' Hx' Hni. destruct (decide (m' = m)) as [->|Hne].
        -- assert (x = x') as <- by congruence. done.
        -- apply Hd; [done|]. set_solver.
      * cbn in Hf. lia.
      * done.
Qed.

Lemma wp_ResetInstances w gr method isRaid to :
  at_shape sh w → groups w !! g = Some gr → stored_group gr = true →
  wp (ResetInstances g method isRaid to)
    (λ _ w' _, at_shape sh w' ∧ groups w' !! g = Some (with_kept method isRaid (GetDifficulty isRaid gr) gr)) w.
Proof.
  intros Hw Hgr Hst. unfold ResetInstances. apply wp_bind. eapply wp_deref; [done..|].
  intros gr' Hgr' _ [Hl Hb Hd1 Hd2]. simplify_eq. rewrite Hst. cbv zeta. cbn [negb].
  destruct (binds_lookup (m_boundInstances gr) (GetDifficulty isRaid gr)) as [cur Hcur];
    [done|unfold GetDifficulty; by destruct isRaid|]. rewrite Hcur.
  eapply wp_mono; [eapply (wp_ResetInstances_loop _ _ _ _ _ w gr cur); [done..| | |]|done].
  - intros m x. apply hash_iter_elem.
  - intros m x Hx []. by apply hash_iter_elem.
  - rewrite hash_iter_length. nia.
Qed.
Lemma keeps_ResetInstances method isRaid to : keeps (at_shape sh) (ResetInstances g method isRaid to).
Proof.
  intros w Hw. destruct (at_group sh w g Hw Hg) as [gr Hgr]. destruct (stored_group gr) eqn:Hst.
  - eapply wp_mono; [by eapply wp_ResetInstances|]. by intros [] w' t [].
  - unfold ResetInstances. apply wp_bind. eapply wp_deref; [done..|]. intros gr' Hgr' _ _. simplify_eq.
    rewrite Hst. by apply wp_ret.
Qed.
End Reset.

(** *** Rolls *)

Lemma keeps_urand sh a b : a <= b → keeps (at_shape sh) (urand a b).
Proof.
  intros Hab. unfold urand. replace (b <? a) with false by (symmetry; apply Z.ltb_ge; lia). apply keeps_world.
  intros w _. apply keeps_bind; [|intros; apply keeps_ret]. apply keeps_modify. intros w' [Hs [D1 D2 D3]].
  split; [subst sh; by apply shape_eq|]. by split.
Qed.

Section Rolls.
Context (sh : shape) (g : Z) (Hg : g_in g sh).

Lemma at_loot w l nm : at_shape sh w → sh_loots sh !! l = Some nm → ∃ lo, loots w !! l = Some lo ∧ loot_size lo = nm.
Proof.
  intros [<- _] Hl. cbn in Hl. rewrite lookup_fmap in Hl. destruct (loots w !! l) as [lo|]; [|done].
  exists lo. by simplify_eq/=.
Qed.
Lemma keeps_on_loot l f :
  is_Some (sh_loots sh !! l) → (∀ lo, loot_size (f lo) = loot_size lo) → keeps (at_shape sh) (on_loot l f).
Proof.
  intros [nm Hl] Hf w Hw. unfold on_loot. apply wp_bind, wp_get, wp_bind.
  destruct (at_loot w l nm Hw Hl) as (lo & Hlo & Hsz). rewrite Hlo. apply wp_ret, wp_modify.
  assert (loot_size <$> <[l := f lo]> (loots w) = loot_size <$> loots w) as Heq.
  { apply map_eq. intros i. rewrite !lookup_fmap. destruct (decide (l = i)) as [<-|Hne].
    - rewrite lookup_insert_eq, Hlo. cbn. by rewrite Hf.
    - by rewrite lookup_insert_ne. }
  destruct Hw as [Hs [D1 D2 D3]]. split; [subst sh; by apply shape_eq|].
  split; cbn; [done..|]. intros. rewrite Heq. by eapply D3.
Qed.
(** A valid item of a loot stays one. *)
Definition in_loot (l : Z) (r : Roll) : Prop := ∃ nm, sh_loots sh !! l = Some nm ∧ 0 <= itemSlot r < Z.of_nat (nm.1 + nm.2).
Lemma in_loot_some l r : in_loot l r → is_Some (sh_loots sh !! l).
Proof. intros (nm & -> & _). by eexists. Qed.
Lemma on_roll_item_size r f lo : loot_size (on_roll_item r f lo) = loot_size lo.
Proof. unfold on_roll_item, loot_size. destruct (_ <=? _); cbn; by rewrite length_alter. Qed.
Lemma keeps_item_of_roll {A} l r (f : LootItem → gact A) :
  in_loot l r → (∀ it, keeps (at_shape sh) (f it)) → keeps (at_shape sh) (item_of_roll l r ≫= f).
Proof.
  intros (nm & Hl & Hr) Hf w Hw. apply wp_bind. unfold item_of_roll. apply wp_bind, wp_get, wp_bind.
  destruct (at_loot w l nm Hw Hl) as (lo & Hlo & <-). rewrite Hlo. apply wp_ret.
  assert (is_Some (roll_item r lo)) as [it ->].
  { unfold roll_item. cbn in Hr. destruct (Z.leb_spec (Z.of_nat (length (items lo))) (itemSlot r)); apply lookup_lt_is_Some; lia. }
  apply wp_ret. eapply wp_mono; [by apply Hf|done].
Qed.
Lemma keeps_NotifyItemRemoved l i : is_Some (sh_loots sh !! l) → keeps (at_shape sh) (NotifyItemRemoved l i).
Proof.
  intros Hl w Hw. unfold NotifyItemRemoved. apply wp_bind, wp_get, wp_bind. destruct Hl as [nm Hl].
  destruct (at_loot w l nm Hw Hl) as (lo & Hlo & Hsz). rewrite Hlo. apply wp_ret.
  eapply wp_mono; [apply (keeps_forM (at_shape sh)); [|done]|done]. intros p _.
  destruct (is_online p w); [auto with act|]. by apply keeps_on_loot.
Qed.
Lemma keeps_take_item l r : is_Some (sh_loots sh !! l) → keeps (at_shape sh) (take_item l r).
Proof.
  intros Hl. unfold take_item. apply keeps_bind; [apply keeps_on_loot; [done|apply on_roll_item_size]|]. intros _.
  apply keeps_bind; [by apply keeps_NotifyItemRemoved|]. intros _. by apply keeps_on_loot.
Qed.
Lemma keeps_unblock_item l r : is_Some (sh_loots sh !! l) → keeps (at_shape sh) (unblock_item l r).
Proof. intros Hl. apply keeps_on_loot; [done|apply on_roll_item_size]. Qed.
Lemma keeps_win_item p l r : in_loot l r → keeps (at_shape sh) (win_item p l r).
Proof.
  intros Hl. unfold win_item. apply keeps_item_of_roll; [done|]. intros it.
  destruct (CanStoreNewItem _ _ _) as [msg dest]. destruct (msg =? EQUIP_ERR_OK); (apply keeps_bind; [|intros; apply keeps_emit]).
  - by apply keeps_take_item, (in_loot_some l r).
  - by apply keeps_unblock_item, (in_loot_some l r).
Qed.
Lemma keeps_send_voters p data r : keeps (at_shape sh) (send_voters p data r).
Proof. unfold send_voters. quiet. Qed.
Lemma keeps_throw_loop votes type r l best : keeps (at_shape sh) (throw_loop votes type r l best).
Proof.
  revert best. induction l as [|[guid v] l IH]; intros best; cbn [throw_loop]; [apply keeps_ret|].
  destruct (negb (votes v)); [apply IH|]. apply keeps_bind; [by apply keeps_urand|]. intros n. cbv zeta.
  apply keeps_bind; [apply keeps_send_voters|]. intros _. apply IH.
Qed.
Lemma roll_in w gr i r : at_shape sh w → groups w !! g = Some gr → RollId gr !! i = Some r → roll_ok (sh_loots sh) r.
Proof. intros [<- D] Hgr Hr. eapply d_roll; [done..|]. by eapply list_elem_of_lookup_2. Qed.
Lemma keeps_on_roll i f :
  (∀ r, roll_ok (sh_loots sh) r → roll_ok (sh_loots sh) (f r)) → keeps (at_shape sh) (on_roll g i f).
Proof.
  intros Hf w Hw. unfold on_roll. eapply wp_on_group with (f' := λ x, x); [done..| | | |].
  - done.
  - by intros ? _ [].
  - intros gr r Hgr Hr. cbn in Hr. apply list_elem_of_lookup in Hr as [j Hj]. destruct (decide (i = j)) as [<-|Hne].
    + rewrite list_lookup_alter_eq in Hj. destruct (RollId gr !! i) as [r0|] eqn:E; [|done]. cbn in Hj. simplify_eq.
      right. apply Hf. by eapply roll_in.
    + rewrite list_lookup_alter_ne in Hj by done. left. by eapply list_elem_of_lookup_2.
  - intros w' Hw' _. by rewrite on_sh_group_id in Hw'.
Qed.
Lemma keeps_erase_roll i : keeps (at_shape sh) (on_group g (λ gr, gr <| RollId ::= delete i |>)).
Proof.
  apply keeps_on_group; [done|done|by intros ? []|]. intros gr r Hr. cbn in Hr.
  apply list_elem_of_lookup in Hr as [j Hj]. rewrite list_lookup_delete in Hj. case_decide; by eapply list_elem_of_lookup_2.
Qed.

Lemma keeps_need_outcome l r : in_loot l r → keeps (at_shape sh) (need_outcome l r).
Proof.
  intros Hl. unfold need_outcome. destruct (map_begin _) as [[first v]|]; [|apply keeps_ret].
  apply keeps_bind; [apply keeps_throw_loop|]. intros [[mr mg] rv].
  apply keeps_bind; [apply keeps_send_voters|]. intros _. quiet. by apply keeps_win_item.
Qed.
Lemma keeps_greed_outcome l r :
  in_loot l r → is_Some (GetItemTemplate (itemid r)) → keeps (at_shape sh) (greed_outcome l r).
Proof.
  intros Hl Ht. unfold greed_outcome. destruct (map_begin _) as [[first v]|]; [|apply keeps_ret].
  apply keeps_bind; [apply keeps_throw_loop|]. intros [[mr mg] rv].
  apply keeps_bind; [apply keeps_send_voters|]. intros _.
  apply keeps_world. intros w _. apply keeps_when, keeps_bind; [apply keeps_emit|]. intros _.
  apply keeps_item_of_roll; [done|]. intros it. destruct rv; try apply keeps_ret; [by apply keeps_win_item|].
  apply keeps_bind; [by apply keeps_take_item, (in_loot_some l r)|]. intros _. apply keeps_group_require; [done|]. intros. quiet.
Qed.
(** Counting a roll leaves the groups alone, but for the roll that is erased. *)
Lemma groups_on_loot l f : frames (same groups) (on_loot l f).
Proof. unfold on_loot. frames_auto. Qed.
Lemma groups_take_item l r : frames (same groups) (take_item l r).
Proof.
  unfold take_item, NotifyItemRemoved. frames_auto; try apply groups_on_loot.
Qed.
Lemma groups_win_item p l r : frames (same groups) (win_item p l r).
Proof.
  unfold win_item, item_of_roll, unblock_item. frames_auto; [apply groups_take_item|apply groups_on_loot].
Qed.
Lemma groups_send_voters p data r : frames (same groups) (send_voters p data r).
Proof. unfold send_voters, send. frames_auto. Qed.
Lemma groups_throw_loop votes type r l best : frames (same groups) (throw_loop votes type r l best).
Proof.
  revert best. induction l as [|[guid v] l IH]; intros best; cbn [throw_loop]; frames_auto; [apply IH| |apply groups_send_voters|apply IH].
  unfold urand. frames_auto.
Qed.
Lemma groups_outcome l r :
  frames (same groups) (need_outcome l r) ∧ frames (same groups) (greed_outcome l r) ∧
  frames (same groups) (SendLootAllPassed r ;; item ← item_of_roll l r; unblock_item l r).
Proof.
  unfold need_outcome, greed_outcome, SendLootRollWon, SendLootAllPassed, item_of_roll, unblock_item.
  repeat split; frames_auto; first [apply groups_throw_loop|apply groups_send_voters|apply groups_win_item
    |apply groups_take_item|apply groups_on_loot].
Qed.
(** Counting a roll ends, and takes the roll off the list. *)
Definition erase_roll (i : nat) (gr : Group) : Group := gr <| RollId ::= delete i |>.
Lemma wp_CountTheRoll w gr i : at_shape sh w → groups w !! g = Some gr → is_Some (RollId gr !! i) →
  wp (CountTheRoll g i) (λ _ w' _, at_shape sh w' ∧ groups w' = <[g := erase_roll i gr]> (groups w)) w.
Proof.
  intros Hw Hgr [r Hr]. unfold CountTheRoll. apply wp_bind. eapply wp_deref; [done..|]. intros gr' Hgr' _ _.
  simplify_eq. rewrite Hr. apply wp_bind, wp_ret, wp_bind.
  pose proof (roll_in w gr i r Hw Hgr Hr) as [Ht Hin]. destruct (groups_outcome (default 0 (r_loot r)) r) as (F1 & F2 & F3).
  apply wp_mono with (P := λ _ w' _, at_shape sh w' ∧ same groups w w').
  - destruct (r_loot r) as [l|] eqn:El; [|by apply wp_ret]. pose proof (Hin l eq_refl) as Hl. cbn in F1, F2, F3.
    destruct (0 <? totalNeed r); [|destruct (0 <? totalGreed r)]; (apply (wp_frames (same groups)); [|done]).
    + by apply keeps_need_outcome.
    + by apply keeps_greed_outcome.
    + eapply (keeps_bind (at_shape sh)); [apply keeps_send_voters| |done]. intros _. apply keeps_item_of_roll; [done|].
      intros _. by apply keeps_unblock_item, (in_loot_some l r).
  - intros [] w1 t1 [Hw1 Hs]. unfold same in Hs. eapply wp_on_group with (f' := λ x, x); [done..| | | |].
    + done.
    + by intros ? _ [].
    + intros gr1 r1 _ Hr1. cbn in Hr1. apply list_elem_of_lookup in Hr1 as [j Hj]. rewrite list_lookup_delete in Hj.
      left. case_decide; by eapply list_elem_of_lookup_2.
    + intros w' Hw' (gr1 & Hg1 & ->). rewrite on_sh_group_id in Hw'. split; [done|]. rewrite Hs in Hg1. simplify_eq.
      cbn. by rewrite Hs.
Qed.
(** [EndRoll] ends, and no roll for the loot is left. *)
Definition end_rolls (l : Z) (gr : Group) : Group := gr <| RollId ::= filter (λ r, r_loot r ≠ Some l) |>.
Lemma filter_delete_not {A} (P : A → Prop) `{!∀ x, Decision (P x)} (l : list A) i x :
  l !! i = Some x → ¬ P x → filter P (delete i l) = filter P l.
Proof.
  revert i. induction l as [|y l IH]; intros [|i] Hi Hp; cbn in Hi; simplify_eq/=; [by rewrite filter_cons_False|].
  change (delete (S i) (y :: l)) with (y :: delete i l). rewrite !filter_cons. by rewrite (IH i).
Qed.
(** The rolls [rs] are counted, one after the other, and nothing else happens. *)
Inductive counted : list Roll → GroupWorld → GroupWorld → list group_event → Prop :=
  | counted_nil w : counted [] w w []
  | counted_cons r rs i gr w w1 w2 t1 t2 :
      groups w !! g = Some gr → RollId gr !! i = Some r → CountTheRoll g i w = Done tt w1 t1 →
      counted rs w1 w2 t2 → counted (r :: rs) w w2 (t1 ++ t2).
Lemma counted_one r w w' t : counted [r] w w' t →
  ∃ gr i, groups w !! g = Some gr ∧ RollId gr !! i = Some r ∧ CountTheRoll g i w = Done tt w' t.
Proof.
  intros Hc. inversion Hc as [|r0 rs i gr w0 w1 w2 t1 t2 Hgr Hi Hrun Hrest]; subst. inversion Hrest; subst.
  exists gr, i. by rewrite app_nil_r.
Qed.
Lemma wp_run {A} (m : gact A) Q w : wp m Q w → wp m (λ a w' t, Q a w' t ∧ m w = Done a w' t) w.
Proof. unfold wp. by destruct (m w). Qed.
Lemma list_find_filter {A} (P : A → Prop) `{!∀ x, Decision (P x)} (l : list A) i x :
  list_find P l = Some (i, x) → filter P l = x :: filter P (delete i l).
Proof.
  revert i. induction l as [|y l IH]; intros i Hf; [done|]. cbn [list_find] in Hf.
  destruct (decide (P y)) as [Hy|Hy]; [injection Hf as <- <-; by rewrite filter_cons_True|].
  destruct (list_find P l) as [[k z]|] eqn:E; [|done]. cbn in Hf. injection Hf as <- <-.
  change (delete (S k) (y :: l)) with (y :: delete k l). rewrite !filter_cons_False by done. by apply IH.
Qed.
Lemma wp_EndRoll_loop l fuel : ∀ w gr, at_shape sh w → groups w !! g = Some gr → (length (RollId gr) < fuel)%nat →
  wp (EndRoll_loop fuel g l) (λ _ w' t, at_shape sh w' ∧ groups w' = <[g := end_rolls l gr]> (groups w) ∧
    counted (filter (λ r, r_loot r = Some l) (RollId gr)) w w' t) w.
Proof.
  induction fuel as [|fuel IH]; intros w gr Hw Hgr Hf; [lia|]. cbn [EndRoll_loop].
  apply wp_bind. eapply wp_deref; [done..|]. intros gr' Hgr' _ _. simplify_eq.
  destruct (list_find _ (RollId gr)) as [[i r]|] eqn:Ef.
  - pose proof (list_find_filter _ _ _ _ Ef) as Ec. apply list_find_Some in Ef as (Hr & Hl & _). apply wp_bind.
    eapply wp_mono; [eapply wp_run, wp_CountTheRoll; [done..|by eexists]|]. intros [] w1 t1 [[Hw1 Hg1] Erun].
    eapply wp_mono; [apply (IH w1 (erase_roll i gr))|].
    + done.
    + by rewrite Hg1, lookup_insert_eq.
    + cbn. pose proof (length_delete (RollId gr) i ltac:(by eexists)). apply lookup_lt_Some in Hr. lia.
    + intros [] w2 t2 (Hw2 & Hg2 & Hc). split; [done|]. split.
      * rewrite Hg2, Hg1, insert_insert_eq. f_equal. unfold end_rolls, erase_roll, setf.
        cbn. unfold setf. cbn. f_equal. eapply filter_delete_not; [done|]. intros Hn. by apply Hn.
      * rewrite Ec. rewrite app_nil_l. eapply counted_cons; [exact Hgr|exact Hr|exact Erun|exact Hc].
  - apply list_find_None in Ef. rewrite Forall_forall in Ef. apply wp_ret. split; [done|]. split.
    + symmetry. apply insert_id. rewrite Hgr. f_equal.
      unfold end_rolls. destruct gr. cbn. unfold setf. cbn. f_equal. symmetry. by apply filter_all.
    + assert (filter (λ r, r_loot r = Some l) (RollId gr) = []) as ->; [|constructor].
      destruct (filter _ (RollId gr)) as [|x xs] eqn:E; [done|].
      assert (x ∈ filter (λ r, r_loot r = Some l) (RollId gr)) as Hx by (rewrite E; by left).
      apply list_elem_of_filter in Hx as [Hx Hin]. by destruct (Ef x Hin).
Qed.
Lemma wp_EndRoll w gr l : at_shape sh w → groups w !! g = Some gr →
  wp (EndRoll g l) (λ _ w' t, at_shape sh w' ∧ groups w' = <[g := end_rolls l gr]> (groups w) ∧
    counted (filter (λ r, r_loot r = Some l) (RollId gr)) w w' t) w.
Proof.
  intros Hw Hgr. unfold EndRoll. apply wp_bind. eapply wp_deref; [done..|]. intros gr' Hgr' _ _. simplify_eq.
  apply wp_EndRoll_loop; [done..|]. lia.
Qed.
Lemma keeps_CountRollVote p guid choice : keeps (at_shape sh) (CountRollVote g p guid choice).
Proof.
  unfold CountRollVote. apply keeps_world. intros w0 Hw0 w Hw. apply wp_bind. eapply wp_deref; [done..|].
  intros gr Hgr _ _. destruct (GetRoll guid gr) as [[i r]|] eqn:Er; [|by apply wp_ret].
  apply list_find_Some in Er as (Hr & [_ [l Hl]] & _).
  destruct (playerVote r !! p); [|by apply wp_ret]. rewrite Hl. apply wp_bind, wp_ret, wp_bind.
  destruct (roll_in w gr i r Hw Hgr Hr) as [Ht Hin]. destruct (Hin l Hl) as (nm & Hnm & Hslot).
  destruct (at_loot w0 l nm Hw0 Hnm) as (lo & -> & _). apply wp_ret.
  destruct (bool_decide (items lo = [])); [by apply wp_ret|]. cbv zeta.
  set (upd := (if choice =? ROLL_PASS then _ else _)).
  assert (wp upd (λ _ w' _, at_shape sh w' ∧ ∃ gr', groups w' !! g = Some gr' ∧ is_Some (RollId gr' !! i)) w) as Hupd.
  2:{ apply wp_bind. eapply wp_mono; [exact Hupd|]. intros [] w1 t1 (Hw1 & gr1 & Hg1 & [r1 Hr1]).
      apply wp_bind. eapply wp_deref; [done..|]. intros gr2 Hg2 _ _. simplify_eq. rewrite Hr1. apply wp_bind, wp_ret.
      apply wp_when; [|done]. intros _.
      eapply wp_mono; [eapply wp_CountTheRoll; [done..|by eexists]|]. by intros [] ? ? []. }
  assert (∀ data f, (∀ r, roll_ok (sh_loots sh) r → roll_ok (sh_loots sh) (f r)) →
    wp (send_voters valid_vote data r ;; on_roll g i f)
      (λ _ w' _, at_shape sh w' ∧ ∃ gr', groups w' !! g = Some gr' ∧ is_Some (RollId gr' !! i)) w) as Hstep.
  { intros data f Hf. apply wp_bind. apply wp_mono with (P := λ _ w' _, w' = w).
    { unfold send_voters. apply wp_bind, wp_get. eapply wp_mono; [apply (wp_forM _ _ (λ w', w' = w) (λ _, True)); [done|]|].
      - intros x s Hx ->. apply wp_when; [|done]. intros _. apply wp_emit. split; [done|by constructor].
      - by intros [] w' t' [-> _]. }
    intros [] w' t' ->. pose proof (keeps_on_roll i f Hf w Hw) as Hk. unfold on_roll in *.
    unfold on_group in Hk |- *. unfold deref, mbind, act_bind, get, require, wp, modify, mret, act_ret in Hk |- *.
    rewrite Hgr in Hk |- *. cbn in Hk |- *. split; [exact Hk|]. eexists. split; [apply lookup_insert_eq|].
    cbn. rewrite list_lookup_alter_eq, Hr. by eexists. }
  subst upd. repeat case_match; try (apply Hstep; by intros ? []). apply wp_ret. split; [done|]. exists gr. split; [done|]. by eexists.
Qed.
Lemma keeps_remove_from_roll guid i : keeps (at_shape sh) (remove_from_roll g guid i).
Proof.
  unfold remove_from_roll. apply keeps_deref; [done|]. intros gr _ _. quiet; [|apply keeps_CountRollVote].
  apply keeps_on_roll. intros r' [Ht Hr]. unfold roll_ok, drop_vote. cbv zeta. cbn.
  by repeat case_match; cbn.
Qed.

End Rolls.

(** ** The links between groups and players

    [x] is a group that is being built or torn down, for which the promises about
    created groups are waived. *)

(** The members of a sub-group, counted, and the room there is. *)
Definition in_subgroup (i : Z) (l : list MemberSlot.t) : Z := Z.of_nat (length (filter (λ s, MemberSlot.group s = i) l)).
Definition sub_counts (l : list MemberSlot.t) : list Z := (λ i, in_subgroup i l) <$> seqZ 0 MAX_RAID_SUBGROUPS.
Definition sizes_ok (raid : bool) (c : option (list Z)) (l : list MemberSlot.t) : Prop :=
  if raid then
    c = Some (sub_counts l) ∧ Forall (λ s, 0 <= MemberSlot.group s < MAX_RAID_SUBGROUPS) l ∧
    Forall (λ n, n <= MAXGROUPSIZE) (sub_counts l)
  else c = None ∧ Forall (λ s, MemberSlot.group s = 0) l ∧ Z.of_nat (length l) <= MAXGROUPSIZE.
Definition size_ok (b : Group) : Prop := sizes_ok (isRaidGroup b) (m_subGroupsCounts b) (m_memberSlots b).

Record refs (x : option Z) (sh : shape) : Prop := {
  k_ref : ∀ p l k g, sh_players sh !! p = Some l → l_ref k l = Some g →
    ∃ b, sh_groups sh !! g = Some b ∧ (k, p) ∈ m_memberMgr b;
  k_mgr : ∀ g b k p, sh_groups sh !! g = Some b → (k, p) ∈ m_memberMgr b →
    ∃ l, sh_players sh !! p = Some l ∧ l_ref k l = Some g;
  k_members : ∀ g b, sh_groups sh !! g = Some b → x ≠ Some g → m_memberSlots b = [] → m_memberMgr b = [] }.
Record invs (x : option Z) (sh : shape) : Prop := {
  k_invite : ∀ p l g, sh_players sh !! p = Some l → l_invite l = Some g →
    ∃ b, sh_groups sh !! g = Some b ∧ p ∈ m_invitees b;
  k_invitee : ∀ g b p, sh_groups sh !! g = Some b → p ∈ m_invitees b →
    ∃ l, sh_players sh !! p = Some l ∧ l_invite l = Some g;
  k_leader : ∀ g b, sh_groups sh !! g = Some b → x ≠ Some g → m_memberSlots b = [] → m_invitees b ≠ ∅ →
    m_leaderGuid b ∈ m_invitees b }.
Record regs (x : option Z) (sh : shape) : Prop := {
  k_size : ∀ g b, sh_groups sh !! g = Some b → x ≠ Some g → size_ok b;
  k_uncreated : ∀ g b, sh_groups sh !! g = Some b → x ≠ Some g → m_memberSlots b = [] →
    stored_group b = true ∧ isRaidGroup b = false;
  k_created : ∀ g b, sh_groups sh !! g = Some b → x ≠ Some g → m_memberSlots b ≠ [] → stored_group b = true →
    sh_store sh !! Z.to_nat (m_dbStoreId b) = Some (Some g);
  k_store : ∀ i g, sh_store sh !! i = Some (Some g) → ∃ b, sh_groups sh !! g = Some b ∧
    m_dbStoreId b = Z.of_nat i ∧ (0 < i)%nat ∧ stored_group b = true ∧ (x ≠ Some g → m_memberSlots b ≠ []);
  k_used : ∀ i, 1 <= i < sh_next sh → ∃ g, sh_store sh !! Z.to_nat i = Some (Some g);
  k_next : 1 <= sh_next sh ∧ ∀ g, sh_store sh !! Z.to_nat (sh_next sh) ≠ Some (Some g);
  k_fresh : ∀ g, g_in g sh → g < sh_fresh sh }.
Record links (x : option Z) (sh : shape) : Prop := { k_refs : refs x sh; k_invs : invs x sh; k_regs : regs x sh }.

(** *** What each part depends on *)

Definition ref_view (sh : shape) :=
  ((λ b, (m_memberMgr b, bool_decide (m_memberSlots b = []))) <$> sh_groups sh,
   (λ l, (l_group l, l_original l)) <$> sh_players sh).
Definition inv_view (sh : shape) :=
  ((λ b, (m_invitees b, m_leaderGuid b, bool_decide (m_memberSlots b = []))) <$> sh_groups sh,
   l_invite <$> sh_players sh).
Definition reg_view (sh : shape) :=
  ((λ b, (m_memberSlots b, m_groupType b, m_bgGroup b, m_bfGroup b, m_subGroupsCounts b, m_dbStoreId b)) <$> sh_groups sh,
   sh_store sh, sh_next sh, sh_fresh sh).

Lemma fmap_eq_lookup {V V' B} (f : V → B) (f' : V' → B) (m : gmap Z V) (m' : gmap Z V') k x :
  f <$> m = f' <$> m' → m !! k = Some x → ∃ y, m' !! k = Some y ∧ f x = f' y.
Proof.
  intros Heq Hk. assert ((f <$> m) !! k = (f' <$> m') !! k) as E by by rewrite Heq.
  rewrite !lookup_fmap, Hk in E. destruct (m' !! k) as [y|]; [|done]. exists y. by simplify_eq/=.
Qed.
Lemma fmap_alter_same {V B} (h : V → B) (f : V → V) (m : gmap Z V) k :
  (∀ x, m !! k = Some x → h (f x) = h x) → h <$> alter f k m = h <$> m.
Proof.
  intros Hf. apply map_eq. intros i. rewrite !lookup_fmap. destruct (decide (k = i)) as [<-|Hne].
  - rewrite lookup_alter_eq. destruct (m !! k) eqn:E; [|done]. cbn. by rewrite Hf.
  - by rewrite lookup_alter_ne.
Qed.

Lemma bool_decide_nil {A} (l l' : list A) : bool_decide (l = []) = bool_decide (l' = []) → l = [] → l' = [].
Proof. intros Hb ->. rewrite bool_decide_true in Hb by done. symmetry in Hb. by apply bool_decide_eq_true in Hb. Qed.

Lemma refs_view x sh sh' : ref_view sh = ref_view sh' → refs x sh → refs x sh'.
Proof.
  intros [= Hgs Hps] [A B C]. split.
  - intros p l k g Hp Hk. destruct (fmap_eq_lookup _ _ _ _ _ _ (eq_sym Hps) Hp) as (l0 & Hl0 & El).
    destruct (A p l0 k g Hl0) as (b & Hb & Hin); [destruct k; cbn in *; congruence|].
    destruct (fmap_eq_lookup _ _ _ _ _ _ Hgs Hb) as (b' & Hb' & Eb). exists b'. split; [done|]. cbn in Eb; simplify_eq; congruence.
  - intros g b k p Hg Hin. destruct (fmap_eq_lookup _ _ _ _ _ _ (eq_sym Hgs) Hg) as (b0 & Hb0 & Eb).
    destruct (B g b0 k p Hb0) as (l & Hl & Hr); [cbn in Eb; simplify_eq; congruence|].
    destruct (fmap_eq_lookup _ _ _ _ _ _ Hps Hl) as (l' & Hl' & El). exists l'. split; [done|].
    destruct k; cbn in *; congruence.
  - intros g b Hg Hx He. destruct (fmap_eq_lookup _ _ _ _ _ _ (eq_sym Hgs) Hg) as (b0 & Hb0 & Eb). cbn in Eb.
    injection Eb as -> Eb. apply (C g b0); [done..|]. by eapply bool_decide_nil.
Qed.
Lemma invs_view x sh sh' : inv_view sh = inv_view sh' → invs x sh → invs x sh'.
Proof.
  intros [= Hgs Hps] [A B C]. split.
  - intros p l g Hp Hk. destruct (fmap_eq_lookup _ _ _ _ _ _ (eq_sym Hps) Hp) as (l0 & Hl0 & El).
    destruct (A p l0 g Hl0) as (b & Hb & Hin); [congruence|].
    destruct (fmap_eq_lookup _ _ _ _ _ _ Hgs Hb) as (b' & Hb' & Eb). exists b'. split; [done|]. cbn in Eb; simplify_eq; congruence.
  - intros g b p Hg Hin. destruct (fmap_eq_lookup _ _ _ _ _ _ (eq_sym Hgs) Hg) as (b0 & Hb0 & Eb).
    destruct (B g b0 p Hb0) as (l & Hl & Hr); [cbn in Eb; simplify_eq; congruence|].
    destruct (fmap_eq_lookup _ _ _ _ _ _ Hps Hl) as (l' & Hl' & El). exists l'. split; [done|]. congruence.
  - intros g b Hg Hx He. destruct (fmap_eq_lookup _ _ _ _ _ _ (eq_sym Hgs) Hg) as (b0 & Hb0 & Eb). cbn in Eb.
    injection Eb as -> -> Eb. apply (C g b0); [done..|]. by eapply bool_decide_nil.
Qed.
Lemma regs_view x sh sh' : reg_view sh = reg_view sh' → regs x sh → regs x sh'.
Proof.
  intros [= Hgs Hst Hn Hf] [A B C D E F G].
  assert (∀ b b' : Group, (m_memberSlots b, m_groupType b, m_bgGroup b, m_bfGroup b, m_subGroupsCounts b, m_dbStoreId b)
    = (m_memberSlots b', m_groupType b', m_bgGroup b', m_bfGroup b', m_subGroupsCounts b', m_dbStoreId b') →
    (size_ok b ↔ size_ok b') ∧ stored_group b = stored_group b' ∧ isRaidGroup b = isRaidGroup b') as Hsame.
  { intros b b' [= E1 E2 E3 E4 E5 E6]. unfold size_ok, isRaidGroup, stored_group, isBGGroup, isBFGroup.
    by rewrite E1, E2, E3, E4, E5. }
  split; rewrite <- ?Hst, <- ?Hn, <- ?Hf; try done.
  - intros g b Hg Hx. destruct (fmap_eq_lookup _ _ _ _ _ _ (eq_sym Hgs) Hg) as (b0 & Hb0 & Eb). apply Hsame in Eb.
    apply Eb. by apply (A g).
  - intros g b Hg Hx He. destruct (fmap_eq_lookup _ _ _ _ _ _ (eq_sym Hgs) Hg) as (b0 & Hb0 & Eb).
    pose proof (Hsame _ _ Eb) as (_ & -> & ->). apply (B g b0); [done..|]. congruence.
  - intros g b Hg Hx He Hs. destruct (fmap_eq_lookup _ _ _ _ _ _ (eq_sym Hgs) Hg) as (b0 & Hb0 & Eb).
    pose proof (Hsame _ _ Eb) as (_ & Hs' & _). rewrite Hs' in Hs. injection Eb as E1 E2 E3 E4 E5 ->. apply (C g b0); try done. congruence.
  - intros i g Hi. destruct (D i g Hi) as (b & Hb & Hid & H0i & Hs & Hx).
    destruct (fmap_eq_lookup _ _ _ _ _ _ Hgs Hb) as (b' & Hb' & Eb). exists b'. split; [done|].
    pose proof (Hsame _ _ Eb) as (_ & <- & _). injection Eb as E1 E2 E3 E4 E5 E6. rewrite <- E6, <- E1. done.
  - intros g [b Hb]. apply G. destruct (fmap_eq_lookup _ _ _ _ _ _ (eq_sym Hgs) Hb) as (b0 & Hb0 & _). by exists b0.
Qed.

(** *** References *)

Definition rm_ref (k : which) (p : Z) (b : Group) : Group := b <| m_memberMgr ::= filter (λ r, r ≠ (k, p)) |>.
Definition add_ref (k : which) (p : Z) (b : Group) : Group := b <| m_memberMgr ::= cons (k, p) |>.
Definition sh_unlink (k : which) (p : Z) (sh : shape) : shape :=
  match sh_players sh !! p ≫= l_ref k with
  | Some g => on_sh_player p (set_l_ref k None) (on_sh_group g (rm_ref k p) sh)
  | None => sh
  end.
Definition sh_link (k : which) (g p : Z) (sh : shape) : shape :=
  on_sh_group g (add_ref k p) (on_sh_player p (set_l_ref k (Some g)) (sh_unlink k p sh)).

Lemma l_ref_set k k' v l : l_ref k' (set_l_ref k v l) = if decide (k = k') then v else l_ref k' l.
Proof. by destruct k, k'. Qed.
Lemma set_l_ref_id k l : set_l_ref k (l_ref k l) l = l.
Proof. by destruct k, l. Qed.
Lemma set_l_ref_pair k v l : l_invite (set_l_ref k v l) = l_invite l.
Proof. by destruct k, l. Qed.
Lemma alter_some {V} (f : V → V) (m : gmap Z V) i j x :
  alter f i m !! j = Some x → ∃ y, m !! j = Some y ∧ x = if decide (i = j) then f y else y.
Proof.
  intros Hx. destruct (decide (i = j)) as [<-|Hne].
  - rewrite lookup_alter_eq in Hx. destruct (m !! i) as [y|]; [|done]. exists y. by simplify_eq/=.
  - rewrite lookup_alter_ne in Hx by done. by exists x.
Qed.
Lemma alter_at {V} (f : V → V) (m : gmap Z V) i j y :
  m !! j = Some y → alter f i m !! j = Some (if decide (i = j) then f y else y).
Proof.
  intros Hy. destruct (decide (i = j)) as [<-|Hne]; [by rewrite lookup_alter_eq, Hy|by rewrite lookup_alter_ne].
Qed.

(** Views that an update of a group or a player does not touch. *)
Lemma reg_view_player p f sh : reg_view (on_sh_player p f sh) = reg_view sh.
Proof. done. Qed.
Lemma inv_view_player p f sh : (∀ l, l_invite (f l) = l_invite l) → inv_view (on_sh_player p f sh) = inv_view sh.
Proof. intros Hf. unfold inv_view. f_equal. by apply fmap_alter_same. Qed.
Lemma ref_view_player p f sh :
  (∀ l, l_group (f l) = l_group l ∧ l_original (f l) = l_original l) → ref_view (on_sh_player p f sh) = ref_view sh.
Proof. intros Hf. unfold ref_view. f_equal. apply fmap_alter_same. intros l _. destruct (Hf l) as [-> ->]. done. Qed.
Lemma reg_view_group g f sh :
  (∀ b, sh_groups sh !! g = Some b → m_memberSlots (f b) = m_memberSlots b ∧ m_groupType (f b) = m_groupType b ∧
    m_bgGroup (f b) = m_bgGroup b ∧ m_bfGroup (f b) = m_bfGroup b ∧ m_subGroupsCounts (f b) = m_subGroupsCounts b ∧
    m_dbStoreId (f b) = m_dbStoreId b) →
  reg_view (on_sh_group g f sh) = reg_view sh.
Proof.
  intros Hf. unfold reg_view. do 3 f_equal. apply fmap_alter_same. intros b Hb.
  by destruct (Hf b Hb) as (-> & -> & -> & -> & -> & ->).
Qed.
Lemma inv_view_group g f sh :
  (∀ b, sh_groups sh !! g = Some b → m_invitees (f b) = m_invitees b ∧ m_leaderGuid (f b) = m_leaderGuid b ∧
    (m_memberSlots (f b) = [] ↔ m_memberSlots b = [])) →
  inv_view (on_sh_group g f sh) = inv_view sh.
Proof.
  intros Hf. unfold inv_view. f_equal. apply fmap_alter_same. intros b Hb.
  destruct (Hf b Hb) as (-> & -> & Hs). f_equal. by apply bool_decide_ext.
Qed.
Lemma ref_view_group g f sh :
  (∀ b, sh_groups sh !! g = Some b → m_memberMgr (f b) = m_memberMgr b ∧ (m_memberSlots (f b) = [] ↔ m_memberSlots b = [])) →
  ref_view (on_sh_group g f sh) = ref_view sh.
Proof.
  intros Hf. unfold ref_view. f_equal. apply fmap_alter_same. intros b Hb.
  destruct (Hf b Hb) as (-> & Hs). f_equal. by apply bool_decide_ext.
Qed.

Lemma reg_view_unlink k p sh : reg_view (sh_unlink k p sh) = reg_view sh.
Proof.
  unfold sh_unlink. destruct (_ ≫= _); [|done]. rewrite reg_view_player. by apply reg_view_group.
Qed.
Lemma inv_view_unlink k p sh : inv_view (sh_unlink k p sh) = inv_view sh.
Proof.
  unfold sh_unlink. destruct (_ ≫= _); [|done]. rewrite inv_view_player by apply set_l_ref_pair. by apply inv_view_group.
Qed.
Lemma refs_unlink x k p sh : refs x sh → refs x (sh_unlink k p sh).
Proof.
  intros [A B C]. unfold sh_unlink. destruct (sh_players sh !! p) as [l0|] eqn:Hp; [|done]. cbn.
  destruct (l_ref k l0) as [g0|] eqn:Hk; [|done].
  assert (∀ g b, alter (rm_ref k p) g0 (sh_groups sh) !! g = Some b → ∃ b0, sh_groups sh !! g = Some b0 ∧
    m_memberSlots b = m_memberSlots b0 ∧ (∀ r, r ∈ m_memberMgr b → r ∈ m_memberMgr b0 ∧ r ≠ (k, p)) ∧
    (m_memberMgr b0 = [] → m_memberMgr b = [])) as Hg.
  { intros g b (b0 & Hb0 & ->)%alter_some. exists b0. split; [done|]. destruct (decide (g0 = g)) as [<-|Hne].
    - split; [done|]. split; [by intros r [Hr Hr']%list_elem_of_filter|]. cbn. by intros ->.
    - split; [done|]. split; [|done]. intros r Hr. split; [done|]. intros ->.
      destruct (B g b0 k p Hb0 Hr) as (l & Hl & Hlk). congruence. }
  split; cbn.
  - intros p' l k' g (l1 & Hl1 & ->)%alter_some Hr.
    assert (l_ref k' l1 = Some g ∧ (k', p') ≠ (k, p)) as [Hr' Hne].
    { destruct (decide (p = p')) as [<-|Hne]; [|by split; [|congruence]]. rewrite l_ref_set in Hr.
      destruct (decide (k = k')); [done|]. split; [done|congruence]. }
    destruct (A p' l1 k' g Hl1 Hr') as (b & Hb & Hin). eexists. split; [by apply alter_at|].
    destruct (decide (g0 = g)); [|done]. cbn. apply list_elem_of_filter. by split.
  - intros g b k' p' Hb Hin. destruct (Hg g b Hb) as (b0 & Hb0 & _ & Hr & _). destruct (Hr _ Hin) as [Hin0 Hne].
    destruct (B g b0 k' p' Hb0 Hin0) as (l & Hl & Hlr). eexists. split; [by apply alter_at|].
    destruct (decide (p = p')) as [<-|]; [|done]. rewrite l_ref_set. destruct (decide (k = k')) as [<-|]; [congruence|done].
  - intros g b Hb Hx He. destruct (Hg g b Hb) as (b0 & Hb0 & Es & _ & Hm). apply Hm, (C g b0); [done..|]. congruence.
Qed.
Lemma links_views x sh sh' :
  refs x sh' → reg_view sh' = reg_view sh → inv_view sh' = inv_view sh → links x sh → links x sh'.
Proof.
  intros Hr Hv1 Hv2 [_ I G]. split; [done|by eapply invs_view|by eapply regs_view].
Qed.
Lemma links_unlink x k p sh : links x sh → links x (sh_unlink k p sh).
Proof.
  intros L. eapply links_views; [by apply refs_unlink, L|apply reg_view_unlink|apply inv_view_unlink|done].
Qed.
Lemma unlinked k p sh l : sh_players (sh_unlink k p sh) !! p = Some l → l_ref k l = None.
Proof.
  unfold sh_unlink. destruct (sh_players sh !! p) as [l0|] eqn:Hp; cbn; [|congruence].
  destruct (l_ref k l0) as [g0|] eqn:Hk; cbn; [|congruence].
  rewrite lookup_alter_eq, Hp. intros [= <-]. rewrite l_ref_set. by rewrite decide_True.
Qed.
Lemma reg_view_link k g p sh : reg_view (sh_link k g p sh) = reg_view sh.
Proof. unfold sh_link. rewrite reg_view_group by done. by rewrite reg_view_player, reg_view_unlink. Qed.
Lemma inv_view_link k g p sh : inv_view (sh_link k g p sh) = inv_view sh.
Proof.
  unfold sh_link. rewrite inv_view_group by done. by rewrite inv_view_player, inv_view_unlink by apply set_l_ref_pair.
Qed.
Lemma refs_link x k g p sh b :
  refs x sh → sh_groups sh !! g = Some b → p_in p sh → (x = Some g ∨ m_memberSlots b ≠ []) → refs x (sh_link k g p sh).
Proof.
  intros R Hgb Hp Hc. pose proof (refs_unlink x k p sh R) as [A B C]. pose proof (unlinked k p sh) as Hun.
  pose proof (reg_view_unlink k p sh) as Hrv. unfold sh_link. set (sh1 := sh_unlink k p sh) in *.
  assert (∃ b1, sh_groups sh1 !! g = Some b1 ∧ m_memberSlots b1 = m_memberSlots b) as (b1 & Hb1 & Es).
  { injection Hrv as Hgs _ _ _. destruct (fmap_eq_lookup _ _ _ _ _ _ (eq_sym Hgs) Hgb) as (b1 & Hb1 & E). exists b1. split; [done|]. congruence. }
  split; cbn.
  - intros p' l k' g' (l1 & Hl1 & ->)%alter_some Hr. destruct (decide (p = p')) as [<-|Hne].
    + rewrite l_ref_set in Hr. destruct (decide (k = k')) as [<-|Hk].
      * simplify_eq. eexists. split; [by apply alter_at|]. rewrite decide_True by done. cbn. set_solver.
      * destruct (A p l1 k' g' Hl1 Hr) as (b' & Hb' & Hin). eexists. split; [by apply alter_at|].
        destruct (decide (g = g')); [|done]. cbn. set_solver.
    + destruct (A p' l1 k' g' Hl1 Hr) as (b' & Hb' & Hin). eexists. split; [by apply alter_at|].
      destruct (decide (g = g')); [|done]. cbn. set_solver.
  - intros g' b' k' p' (b2 & Hb2 & ->)%alter_some Hin.
    assert (((k', p') = (k, p) ∧ g' = g) ∨ (k', p') ∈ m_memberMgr b2) as [[[= -> ->] ->]|Hin2].
    { destruct (decide (g = g')) as [<-|]; [|by right]. cbn in Hin. apply elem_of_cons in Hin as [?|?]; [by left|by right]. }
    + destruct Hp as [lp Hlp]. assert (is_Some (sh_players sh1 !! p)) as [l1 Hl1].
      { subst sh1. unfold sh_unlink. rewrite Hlp. cbn. destruct (l_ref k lp); cbn; [|by eexists]. rewrite lookup_alter_eq, Hlp. by eexists. }
      eexists. split; [by apply alter_at|]. rewrite decide_True by done. by rewrite l_ref_set, decide_True.
    + destruct (B g' b2 k' p' Hb2 Hin2) as (l & Hl & Hlr). eexists. split; [by apply alter_at|].
      destruct (decide (p = p')) as [<-|]; [|done]. rewrite l_ref_set. destruct (decide (k = k')) as [<-|]; [|done].
      specialize (Hun l Hl). congruence.
  - intros g' b' (b2 & Hb2 & ->)%alter_some Hx He. destruct (decide (g = g')) as [<-|].
    + cbn in He. rewrite Hb1 in Hb2. simplify_eq. destruct Hc as [->|Hc]; congruence.
    + by apply (C g' b2).
Qed.
Lemma links_link x k g p sh b :
  links x sh → sh_groups sh !! g = Some b → p_in p sh → (x = Some g ∨ m_memberSlots b ≠ []) → links x (sh_link k g p sh).
Proof.
  intros L Hg Hp Hc. eapply links_views; [by eapply refs_link; [apply L|..]|apply reg_view_link|apply inv_view_link|done].
Qed.

Lemma wp_unlink x sh w k p (Q : unit → GroupWorld → list group_event → Prop) :
  at_shape sh w → refs x sh → p_in p sh → (∀ w', at_shape (sh_unlink k p sh) w' → Q tt w' []) → wp (unlink k p) Q w.
Proof.
  intros Hw R Hp HQ. unfold unlink. apply wp_bind. eapply wp_player_of; [done..|]. intros pl Hpl Hb _.
  assert (iRefTo (ref_of k pl) = l_ref k (blur_player pl)) as Er by by destruct k.
  assert (∀ pl f, blur_player (set_ref k f pl) = set_l_ref k (iRefTo (f (ref_of k pl))) (blur_player pl)) as Ebl
    by (intros pl' f; by destruct k).
  assert (∀ pl v, player_det pl → player_det (set_ref k (λ r, r <| iRefTo := v |>) pl)) as Edet
    by (intros pl' v []; destruct k; by split).
  unfold sh_unlink in HQ. rewrite Hb in HQ. cbn in HQ. rewrite Er. destruct (l_ref k (blur_player pl)) as [g|] eqn:El.
  - destruct (k_ref _ _ R p _ k g Hb El) as (b & Hgb & _). apply wp_bind.
    eapply wp_on_group with (f' := rm_ref k p); [done|by eexists|done|by intros ? _ []|by intros; left|].
    intros w1 Hw1 _. eapply wp_on_player with (f' := set_l_ref k None); [done| | | |].
    + by exists (blur_player pl).
    + intros pl1 _. by rewrite Ebl.
    + intros. by apply Edet.
    + done.
  - apply wp_bind, wp_ret. eapply wp_on_player with (f' := λ l, l); [done|done| | |].
    + intros pl1 Hpl1. simplify_eq. rewrite Ebl. cbn. rewrite <- El. apply set_l_ref_id.
    + intros. by apply Edet.
    + intros w' Hw'. rewrite on_sh_player_id in Hw'. by apply HQ.
Qed.
Lemma wp_link x sh w k g p b (Q : unit → GroupWorld → list group_event → Prop) :
  at_shape sh w → refs x sh → p_in p sh → sh_groups sh !! g = Some b →
  (∀ w', at_shape (sh_link k g p sh) w' → Q tt w' []) → wp (link k g p) Q w.
Proof.
  intros Hw R Hp Hgb HQ. unfold link. apply wp_bind. eapply wp_player_of; [done..|]. intros pl Hpl Hb _. apply wp_bind.
  assert (p_in p (sh_unlink k p sh) ∧ g_in g (sh_unlink k p sh)) as [Hp1 Hg1].
  { split; unfold p_in, g_in, sh_unlink; rewrite Hb; cbn; destruct (l_ref k _); cbn;
      rewrite ?lookup_alter_eq, ?Hb, ?Hgb; try by eexists.
    erewrite alter_at by done. by eexists. }
  apply wp_mono with (P := λ _ w' t, at_shape (sh_unlink k p sh) w' ∧ t = []).
  { apply wp_when; intros Hd.
    - eapply wp_unlink; [done..|]. by intros.
    - split; [|done]. apply bool_decide_eq_false in Hd. unfold sh_unlink. rewrite Hb. cbn.
      replace (l_ref k (blur_player pl)) with (iRefTo (ref_of k pl)) by by destruct k.
      destruct (iRefTo (ref_of k pl)); [by destruct Hd; eexists|done]. }
  intros [] w1 t1 [Hw1 ->]. apply wp_bind.
  eapply wp_on_player with (f' := set_l_ref k (Some g)); [done|done|by destruct k|intros ? _ []; destruct k; by split|].
  intros w2 Hw2. apply wp_bind. eapply wp_deref; [done| |]; [exact Hg1|]. intros gr2 _ _ _.
  eapply wp_on_group with (f' := add_ref k p); [done|exact Hg1|done|by intros ? _ []|by intros; left|].
  intros w' Hw' _. by apply HQ.
Qed.

(** Worlds with the same groups and invitations as [sh0], and other references. *)
Definition relinked (x : option Z) (sh0 : shape) (w : GroupWorld) : Prop :=
  ∃ sh, at_shape sh w ∧ links x sh ∧ reg_view sh = reg_view sh0 ∧ inv_view sh = inv_view sh0.
Lemma g_in_view g sh sh0 : reg_view sh = reg_view sh0 → g_in g sh0 → g_in g sh.
Proof.
  intros [= Hg _ _ _] [b Hb]. destruct (fmap_eq_lookup _ _ _ _ _ _ (eq_sym Hg) Hb) as (b' & Hb' & _). by exists b'.
Qed.
Lemma p_in_view p sh sh0 : inv_view sh = inv_view sh0 → p_in p sh0 → p_in p sh.
Proof.
  intros [= _ Hg] [b Hb]. destruct (fmap_eq_lookup _ _ _ _ _ _ (eq_sym Hg) Hb) as (b' & Hb' & _). by exists b'.
Qed.
Lemma relinked_here x sh w : at_shape sh w → links x sh → relinked x sh w.
Proof. by exists sh. Qed.

Section Relinked.
Context (x : option Z) (sh0 : shape).

Lemma keeps_relinked {A} (m : gact A) :
  (∀ sh, links x sh → reg_view sh = reg_view sh0 → inv_view sh = inv_view sh0 → keeps (at_shape sh) m) →
  keeps (relinked x sh0) m.
Proof.
  intros Hm w (sh & Hw & L & V1 & V2). eapply wp_mono; [by eapply Hm|]. intros a w' t Hw'. by exists sh.
Qed.
Lemma keeps_unlink k p : p_in p sh0 → keeps (relinked x sh0) (unlink k p).
Proof.
  intros Hp w (sh & Hw & L & V1 & V2). eapply wp_unlink; [done|apply L|by eapply p_in_view|].
  intros w' Hw'. exists (sh_unlink k p sh). split; [done|]. split; [by apply links_unlink|].
  by rewrite reg_view_unlink, inv_view_unlink.
Qed.
Lemma keeps_SetGroup_None p s : p_in p sh0 → keeps (relinked x sh0) (SetGroup p None s).
Proof. intros Hp. unfold SetGroup. apply keeps_bind; [by apply keeps_unlink|]. intros _. apply keeps_emit. Qed.
Lemma keeps_SetOriginalGroup_None p s : p_in p sh0 → keeps (relinked x sh0) (SetOriginalGroup p None s).
Proof. intros Hp. by apply keeps_unlink. Qed.
Lemma has_members g b k p sh : refs x sh → sh_groups sh !! g = Some b → (k, p) ∈ m_memberMgr b →
  x = Some g ∨ m_memberSlots b ≠ [].
Proof.
  intros R Hg Hin. destruct (decide (x = Some g)) as [|Hx]; [by left|]. right. intros He.
  rewrite (k_members _ _ R g b Hg Hx He) in Hin. set_solver.
Qed.
Lemma keeps_RemoveFromBattleground p : p_in p sh0 → keeps (relinked x sh0) (RemoveFromBattlegroundOrBattlefieldRaid p).
Proof.
  intros Hp. unfold RemoveFromBattlegroundOrBattlefieldRaid. apply keeps_bind; [by apply keeps_unlink|]. intros _.
  intros w (sh & Hw & L & V1 & V2). assert (p_in p sh) as Hp1 by by eapply p_in_view.
  apply wp_bind. eapply wp_player_of; [done..|]. intros pl Hpl Hb Hdet.
  apply wp_keeps; [|intros _; by apply keeps_SetOriginalGroup_None].
  destruct (GetOriginalGroup pl) as [g|] eqn:Eo; [|by apply wp_ret; exists sh]. apply wp_bind.
  destruct (k_ref _ _ (k_refs _ _ L) p _ ROriginal g Hb Eo) as (b & Hgb & Hin).
  eapply wp_link; [done|apply L|done..|]. intros w1 Hw1.
  assert (links x (sh_link RGroup g p sh)) as L1 by (eapply links_link; [done..|by eapply has_members; [apply L|..]]).
  eapply wp_mono; [eapply keeps_setSubGroup; [| |exact Hw1]|].
  - eapply p_in_view; [apply inv_view_link|done].
  - apply Hdet.
  - intros [] w2 t2 Hw2. exists (sh_link RGroup g p sh). by rewrite reg_view_link, inv_view_link.
Qed.

Lemma keeps_relinked_deref {A} g (f : Group → gact A) :
  g_in g sh0 → (∀ gr, keeps (relinked x sh0) (f gr)) → keeps (relinked x sh0) (deref g ≫= f).
Proof.
  intros Hg Hf w (sh & Hw & L & V1 & V2). apply wp_bind. eapply wp_deref; [done|by eapply g_in_view|].
  intros gr _ _ _. eapply wp_mono; [apply Hf; by exists sh|done].
Qed.
Lemma keeps_relinked_player {A} p (f : Player → gact A) :
  p_in p sh0 →
  (∀ pl sh, links x sh → reg_view sh = reg_view sh0 → inv_view sh = inv_view sh0 →
    sh_players sh !! p = Some (blur_player pl) → keeps (relinked x sh0) (f pl)) →
  keeps (relinked x sh0) (player_of p ≫= f).
Proof.
  intros Hg Hf w (sh & Hw & L & V1 & V2). apply wp_bind. eapply wp_player_of; [done|by eapply p_in_view|].
  intros pl _ Hb _. eapply wp_mono; [eapply Hf; [done..|by exists sh]|done].
Qed.
(** The group of a reference of [p] still exists. *)
Lemma ref_g_in sh p pl g :
  links x sh → reg_view sh = reg_view sh0 → sh_players sh !! p = Some (blur_player pl) → GetGroup pl = Some g → g_in g sh0.
Proof.
  intros L V1 Hb Hg. destruct (k_ref _ _ (k_refs _ _ L) p _ RGroup g Hb Hg) as (b & Hgb & _).
  eapply g_in_view; [by symmetry|by exists b].
Qed.
Lemma keeps_relinked_SendUpdate g : g_in g sh0 → keeps (relinked x sh0) (SendUpdate g).
Proof. intros Hg. apply keeps_relinked. intros. by apply keeps_SendUpdate; eapply g_in_view. Qed.
Lemma keeps_relinked_homebind p : p_in p sh0 → keeps (relinked x sh0) (_homebindIfInstance p).
Proof. intros Hg. apply keeps_relinked. intros. by apply keeps_homebind; eapply p_in_view. Qed.

(** One member of a group that is disbanded. *)
Lemma keeps_disband_member g gr hide p : g_in g sh0 → keeps (relinked x sh0) (disband_member g gr hide p).
Proof.
  intros Hg. unfold disband_member. intros w Hw. apply wp_bind, wp_get.
  destruct (FindPlayer p w) as [pl|] eqn:Ef; [|by apply wp_ret].
  assert (p_in p sh0) as Hp.
  { destruct Hw as (sh & Hw & L & V1 & V2). destruct (FindPlayer_in _ _ _ _ Hw Ef) as (_ & _ & Hp).
    by eapply p_in_view; [symmetry|]. }
  clear Ef. revert w Hw.
  refine (keeps_bind (relinked x sh0) _ _ _ _); [destruct (negb _); [by apply keeps_RemoveFromBattleground|destruct (bool_decide _);
    [by apply keeps_SetOriginalGroup_None|by apply keeps_SetGroup_None]]|]. intros _.
  apply keeps_bind; [apply keeps_when, keeps_emit|]. intros _.
  apply keeps_bind; [apply keeps_when, keeps_emit|]. intros _.
  apply keeps_relinked_player; [done|]. intros pl' sh L V1 V2 Hb.
  apply keeps_bind; [|intros _; by apply keeps_relinked_homebind].
  destruct (GetGroup pl') as [g'|] eqn:Eg; [by apply keeps_relinked_SendUpdate; eapply ref_g_in|].
  apply keeps_relinked_deref; [done|]. intros. apply keeps_emit.
Qed.
(** A member in the world who leaves. *)
Lemma keeps_remove_online g p method pl :
  g_in g sh0 → p_in p sh0 → keeps (relinked x sh0) (remove_online g p method pl).
Proof.
  intros Hg Hp. unfold remove_online. apply keeps_relinked_deref; [done|]. intros gr.
  apply keeps_bind; [destruct (negb _); [by apply keeps_RemoveFromBattleground|apply keeps_bind;
    [destruct (bool_decide _); [by apply keeps_SetOriginalGroup_None|by apply keeps_SetGroup_None]|intros; apply keeps_emit]]|].
  intros _. apply keeps_bind; [apply keeps_when, keeps_emit|]. intros _. apply keeps_relinked_deref; [done|]. intros gr'.
  apply keeps_bind; [apply keeps_emit|]. intros _. by apply keeps_relinked_homebind.
Qed.
Lemma keeps_DelinkMember g p : g_in g sh0 → keeps (relinked x sh0) (DelinkMember g p).
Proof.
  intros Hg w (sh & Hw & L & V1 & V2). unfold DelinkMember. apply wp_bind.
  eapply wp_deref; [done|by eapply g_in_view|]. intros gr _ Hb _.
  destruct (head _) as [[k p']|] eqn:Eh; [|apply wp_ret; by exists sh].
  apply head_Some_elem_of, list_elem_of_filter in Eh as [_ Hin].
  destruct (k_mgr _ _ (k_refs _ _ L) g _ k p' Hb Hin) as (l & Hl & _).
  eapply wp_mono; [apply keeps_unlink; [|by exists sh]|done]. eapply p_in_view; [by symmetry|by exists l].
Qed.
End Relinked.
End Details.

(** The operations that keep the shape of a world, as hints. *)
Create HintDb shape.
#[export] Hint Resolve keeps_group_BroadcastPacket keeps_BroadcastReadyCheck keeps_OfflineReadyCheck keeps_SendUpdate
  keeps_UpdatePlayerOutOfRange keeps_BroadcastGroupUpdate keeps_SendMemberFields keeps_homebind
  keeps_ResetMaxEnchantingLevel keeps_SetLootMethod keeps_SetLooterGuid keeps_SetLootThreshold keeps_SetTargetIcon
  keeps_SendTargetIconList keeps_ToggleGroupMemberFlag keeps_RemoveUniqueGroupMemberFlag keeps_SetLfgRoles
  keeps_BindToInstance keeps_ConvertInstancesToGroup keeps_ResetInstances keeps_CountRollVote
  keeps_remove_from_roll keeps_send keeps_ret keeps_emit : shape.
(** Walks through an action that keeps the shape. *)
Ltac keep_shape :=
  repeat lazymatch goal with
  | |- keeps _ (deref _ ≫= _) => apply keeps_deref; [try assumption|intros ? ? ?]
  | |- keeps _ (player_of _ ≫= _) => apply keeps_player; [try assumption|intros ? ? ?]
  | |- keeps _ (get ≫= _) => apply keeps_world; intros ? ?
  | |- keeps _ (_ ≫= _) => apply keeps_bind; [|intros ?]
  | |- keeps _ (when _ _) => apply keeps_when
  | |- keeps _ (forM_ _ _) => apply keeps_forM; intros ? ?
  | |- keeps _ (match ?x with _ => _ end) => destruct x eqn:?
  | |- keeps _ _ => solve [eauto with shape]
  end.
