(* ===== verification/GroupWorlds.v ===== *)
(** Invitations, membership, the registry and the end of groups: what each
    operation does to the shape of a world, and that the links survive it. *)

From S2P Require Import Prelude ByteBuffer Util Rbac Channel Social Group GroupHandler GroupRules.
Open Scope string_scope.
Open Scope list_scope.
Open Scope Z_scope.

Section Worlds.
Context `{GroupLaws}.

(** The players that stay, and that those without an invitation get none. *)
Definition mono (sh sh' : shape) : Prop := ∀ p l, sh_players sh !! p = Some l →
  ∃ l', sh_players sh' !! p = Some l' ∧ (l_invite l = None → l_invite l' = None).
#[export] Instance mono_PreOrder : PreOrder mono.
Proof.
  split; [by intros sh p l Hp; exists l|]. intros s1 s2 s3 H1 H2 p l Hp.
  destruct (H1 p l Hp) as (l2 & Hl2 & E2). destruct (H2 p l2 Hl2) as (l3 & Hl3 & E3). exists l3. split; [done|auto].
Qed.
Lemma mono_view sh sh' : inv_view sh' = inv_view sh → mono sh sh'.
Proof.
  intros [= _ Hp] p l Hl. destruct (fmap_eq_lookup _ _ _ _ _ _ (eq_sym Hp) Hl) as (l' & Hl' & E). exists l'. split; [done|congruence].
Qed.
Lemma mono_p_in sh sh' p : mono sh sh' → p_in p sh → p_in p sh'.
Proof. intros M [l Hl]. destruct (M p l Hl) as (l' & Hl' & _). by exists l'. Qed.

(** ** Invitations *)

Definition no_inv (l : links_of) : links_of := l <| l_invite := None |>.
Definition rm_inv (p : Z) (b : Group) : Group := b <| m_invitees ::= λ s, s ∖ {[ p ]} |>.
Definition add_inv (p : Z) (b : Group) : Group := b <| m_invitees ::= λ s, {[ p ]} ∪ s |>.
Definition clear_inv (b : Group) : Group := b <| m_invitees := ∅ |>.
Definition sh_uninvite (g p : Z) (sh : shape) : shape := on_sh_player p no_inv (on_sh_group g (rm_inv p) sh).
Definition sh_invite (g p : Z) (sh : shape) : shape :=
  on_sh_player p (λ l, l <| l_invite := Some g |>) (on_sh_group g (add_inv p) sh).
Definition sh_uninvite_all (g : Z) (inv : gset Z) (sh : shape) : shape :=
  on_sh_group g clear_inv (foldl (λ sh p, on_sh_player p no_inv sh) sh (set_iter inv)).

Lemma on_sh_group_in g g' f sh : g_in g' sh → g_in g' (on_sh_group g f sh).
Proof. intros [b Hb]. unfold g_in. cbn. erewrite alter_at by done. by eexists. Qed.
Lemma on_sh_player_in p p' f sh : p_in p' sh → p_in p' (on_sh_player p f sh).
Proof. intros [b Hb]. unfold p_in. cbn. erewrite alter_at by done. by eexists. Qed.

Lemma wp_SetGroupInvite sh w p v (Q : unit → GroupWorld → list group_event → Prop) :
  at_shape sh w → p_in p sh →
  (∀ w', at_shape (on_sh_player p (λ l, l <| l_invite := v |>) sh) w' → Q tt w' []) → wp (SetGroupInvite p v) Q w.
Proof.
  intros Hw Hp HQ. eapply wp_on_player with (f' := λ l, l <| l_invite := v |>); [done..|intros ? _ []; by split|done].
Qed.
Lemma wp_RemoveInvite sh w g p (Q : unit → GroupWorld → list group_event → Prop) :
  at_shape sh w → g_in g sh → p_in p sh → (∀ w', at_shape (sh_uninvite g p sh) w' → Q tt w' []) → wp (RemoveInvite g p) Q w.
Proof.
  intros Hw Hg Hp HQ. unfold RemoveInvite. apply wp_bind.
  eapply wp_on_group with (f' := rm_inv p); [done..|by intros ? _ []|by intros; left|]. intros w1 Hw1 _.
  eapply wp_SetGroupInvite; [done|exact Hp|]. intros w2 Hw2. by apply HQ.
Qed.
Lemma wp_uninvite_loop l : ∀ sh w,
  at_shape sh w → Forall (λ p, p_in p sh) l →
  wp (forM_ l (λ p, SetGroupInvite p None)) (λ _ w' t, at_shape (foldl (λ sh p, on_sh_player p no_inv sh) sh l) w' ∧ t = []) w.
Proof.
  induction l as [|p l IH]; intros sh w Hw Hl; cbn [forM_ foldl]; [by apply wp_ret|]. apply Forall_cons in Hl as [Hp Hl]. apply wp_bind.
  eapply wp_SetGroupInvite; [done..|]. intros w1 Hw1. eapply wp_mono; [apply IH; [exact Hw1|]|].
  - eapply Forall_impl; [exact Hl|]. intros q. apply on_sh_player_in.
  - intros [] w2 t2 [Hw2 ->]. done.
Qed.
Lemma uninvite_fold l : ∀ sh,
  let sh' := foldl (λ sh p, on_sh_player p no_inv sh) sh l in
  sh_groups sh' = sh_groups sh ∧ sh_store sh' = sh_store sh ∧ sh_next sh' = sh_next sh ∧ sh_fresh sh' = sh_fresh sh ∧
  ∀ q, sh_players sh' !! q = (if decide (q ∈ l) then no_inv else id) <$> sh_players sh !! q.
Proof.
  induction l as [|p l IH]; intros sh; cbn.
  { repeat split; try done. intros q. rewrite decide_False by set_solver. by destruct (sh_players sh !! q). }
  destruct (IH (on_sh_player p no_inv sh)) as (E1 & E2 & E3 & E4 & E5). cbn in *. repeat split; try done.
  intros q. rewrite E5. destruct (decide (p = q)) as [<-|Hne].
  - rewrite lookup_alter_eq, (decide_True (P := p ∈ p :: l)) by set_solver.
    destruct (sh_players sh !! p), (decide (p ∈ l)); cbn; done.
  - rewrite lookup_alter_ne by done. destruct (decide (q ∈ l)).
    + by rewrite decide_True by set_solver.
    + by rewrite decide_False by set_solver.
Qed.
Lemma set_iter_elem p X : p ∈ set_iter X ↔ p ∈ X.
Proof. unfold set_iter. rewrite merge_sort_Permutation. apply elem_of_elements. Qed.
Lemma uninvite_all_groups g X sh : sh_groups (sh_uninvite_all g X sh) = alter clear_inv g (sh_groups sh).
Proof.
  unfold sh_uninvite_all. destruct (uninvite_fold (set_iter X) sh) as (E1 & _). set (sh' := foldl _ sh _) in *. cbn. by rewrite E1.
Qed.
Lemma uninvite_all_store g X sh : sh_store (sh_uninvite_all g X sh) = sh_store sh.
Proof. unfold sh_uninvite_all. by destruct (uninvite_fold (set_iter X) sh) as (_ & E2 & _). Qed.
Lemma wp_RemoveAllInvites sh w g b (Q : unit → GroupWorld → list group_event → Prop) :
  at_shape sh w → sh_groups sh !! g = Some b → (∀ p, p ∈ m_invitees b → p_in p sh) →
  (∀ w', at_shape (sh_uninvite_all g (m_invitees b) sh) w' → Q tt w' []) → wp (RemoveAllInvites g) Q w.
Proof.
  intros Hw Hg Hp HQ. unfold RemoveAllInvites. apply wp_bind. eapply wp_deref; [done|by eexists|].
  intros gr _ Hb _. assert (m_invitees gr = m_invitees b) as E by (rewrite Hg in Hb; by simplify_eq). rewrite E. apply wp_bind.
  eapply wp_mono; [apply wp_uninvite_loop; [done|]|].
  - apply Forall_forall. intros p. rewrite set_iter_elem. apply Hp.
  - intros [] w1 t1 [Hw1 ->]. eapply wp_on_group with (f' := clear_inv); [done| |done|by intros ? _ []|by intros; left|].
    + destruct (uninvite_fold (set_iter (m_invitees b)) sh) as (E1 & _). unfold g_in. rewrite E1, Hg. by eexists.
    + intros w2 Hw2 _. by apply HQ.
Qed.

(** What the loss of an invitation does to the links. *)
Lemma ref_view_uninvite g p sh : ref_view (sh_uninvite g p sh) = ref_view sh.
Proof. unfold sh_uninvite. rewrite ref_view_player by done. by apply ref_view_group. Qed.
Lemma reg_view_uninvite g p sh : reg_view (sh_uninvite g p sh) = reg_view sh.
Proof. unfold sh_uninvite. rewrite reg_view_player. by apply reg_view_group. Qed.
Lemma ref_view_invite g p sh : ref_view (sh_invite g p sh) = ref_view sh.
Proof. unfold sh_invite. rewrite ref_view_player by done. by apply ref_view_group. Qed.
Lemma reg_view_invite g p sh : reg_view (sh_invite g p sh) = reg_view sh.
Proof. unfold sh_invite. rewrite reg_view_player. by apply reg_view_group. Qed.

Lemma invs_uninvite x g p l b sh :
  invs x sh → sh_players sh !! p = Some l → l_invite l = Some g → sh_groups sh !! g = Some b →
  (x = Some g ∨ m_memberSlots b ≠ [] ∨ m_leaderGuid b ≠ p) → invs x (sh_uninvite g p sh).
Proof.
  intros [A B C] Hp Hi Hg Hc. split; cbn.
  - intros q l' g' (l1 & Hl1 & ->)%alter_some Hl. destruct (decide (p = q)) as [<-|Hne]; [done|].
    destruct (A q l1 g' Hl1 Hl) as (b' & Hb' & Hin). eexists. split; [by apply alter_at|].
    destruct (decide (g = g')); [|done]. cbn. set_solver.
  - intros g' b' q (b1 & Hb1 & ->)%alter_some Hin.
    assert (q ∈ m_invitees b1 ∧ (g = g' → q ≠ p)) as [Hin' Hne].
    { destruct (decide (g = g')) as [<-|]; [|done]. cbn in Hin. apply elem_of_difference in Hin as [Hin Hq].
      split; [done|]. intros _ ->. set_solver. }
    destruct (B g' b1 q Hb1 Hin') as (l' & Hl' & Hi'). eexists. split; [by apply alter_at|].
    destruct (decide (p = q)) as [<-|]; [|done]. exfalso. apply Hne; [congruence|done].
  - intros g' b' (b1 & Hb1 & ->)%alter_some Hx He Hne. destruct (decide (g = g')) as [<-|]; [|by apply (C g' b1)].
    cbn in *. assert (b1 = b) as -> by congruence. destruct Hc as [?|[?|Hc]]; [done..|].
    assert (m_leaderGuid b ∈ m_invitees b); [|set_solver]. apply (C g b); [done..|]. set_solver.
Qed.
Lemma invs_invite x g p l b sh :
  invs x sh → sh_players sh !! p = Some l → l_invite l = None → sh_groups sh !! g = Some b →
  (x = Some g ∨ m_memberSlots b ≠ [] ∨ m_leaderGuid b ∈ m_invitees b) → invs x (sh_invite g p sh).
Proof.
  intros [A B C] Hp Hi Hg Hc. split; cbn.
  - intros q l' g' (l1 & Hl1 & ->)%alter_some Hl. destruct (decide (p = q)) as [<-|Hne].
    + cbn in Hl. simplify_eq. eexists. split; [by apply alter_at|]. rewrite decide_True by done. cbn. set_solver.
    + destruct (A q l1 g' Hl1 Hl) as (b' & Hb' & Hin). eexists. split; [by apply alter_at|].
      destruct (decide (g = g')); [|done]. cbn. set_solver.
  - intros g' b' q (b1 & Hb1 & ->)%alter_some Hin. destruct (decide (p = q ∧ g = g')) as [[<- <-]|Hn].
    + eexists. split; [by apply alter_at|]. by rewrite decide_True.
    + assert (q ∈ m_invitees b1) as Hin'.
      { destruct (decide (g = g')) as [<-|]; [|done]. cbn in Hin. apply elem_of_union in Hin as [Hq|]; [|done].
        apply elem_of_singleton in Hq. naive_solver. }
      destruct (B g' b1 q Hb1 Hin') as (l' & Hl' & Hi'). eexists. split; [by apply alter_at|].
      destruct (decide (p = q)) as [<-|]; [|done]. congruence.
  - intros g' b' (b1 & Hb1 & ->)%alter_some Hx He Hne. destruct (decide (g = g')) as [<-|]; [|by apply (C g' b1)].
    cbn in *. assert (b1 = b) as -> by congruence. destruct Hc as [?|[?|Hc]]; [done..|]. set_solver.
Qed.
Lemma invs_uninvite_all x g b sh :
  invs x sh → sh_groups sh !! g = Some b → invs x (sh_uninvite_all g (m_invitees b) sh).
Proof.
  intros [A B C] Hg. destruct (uninvite_fold (set_iter (m_invitees b)) sh) as (E1 & _ & _ & _ & E5). cbv zeta in *.
  unfold sh_uninvite_all. split; cbn; setoid_rewrite E1; try setoid_rewrite E5.
  - intros q l' g' Hq Hl. destruct (sh_players sh !! q) as [l1|] eqn:Hq1; [|done]. cbn in Hq.
    destruct (decide (q ∈ set_iter (m_invitees b))) as [|Hn]; simplify_eq/=. rewrite set_iter_elem in Hn.
    destruct (A q _ g' Hq1 Hl) as (b' & Hb' & Hin). eexists. split; [by apply alter_at|].
    destruct (decide (g = g')) as [<-|]; [|done]. congruence.
  - intros g' b' q (b1 & Hb1 & ->)%alter_some Hin. destruct (decide (g = g')) as [<-|Hne]; [cbn in Hin; set_solver|].
    destruct (B g' b1 q Hb1 Hin) as (l & Hl & Hi). exists l. split; [|done]. rewrite Hl. rewrite decide_False; [done|].
    rewrite set_iter_elem. intros Hq. destruct (B g b q Hg Hq) as (l' & Hl' & Hi'). congruence.
  - intros g' b' (b1 & Hb1 & ->)%alter_some Hx He Hne. destruct (decide (g = g')) as [<-|]; [cbn in *; done|by apply (C g' b1)].
Qed.
Lemma ref_view_uninvite_all g X sh : ref_view (sh_uninvite_all g X sh) = ref_view sh.
Proof.
  unfold sh_uninvite_all. rewrite ref_view_group by done. destruct (uninvite_fold (set_iter X) sh) as (E1 & _ & _ & _ & E5).
  unfold ref_view. rewrite E1. f_equal. apply map_eq. intros q. rewrite !lookup_fmap, E5.
  destruct (sh_players sh !! q); [|done]. cbn. by destruct (decide _).
Qed.
Lemma reg_view_uninvite_all g X sh : reg_view (sh_uninvite_all g X sh) = reg_view sh.
Proof.
  unfold sh_uninvite_all. rewrite reg_view_group by done. destruct (uninvite_fold (set_iter X) sh) as (E1 & E2 & E3 & E4 & _).
  unfold reg_view. by rewrite E1, E2, E3, E4.
Qed.
Lemma mono_uninvite g p sh : mono sh (sh_uninvite g p sh).
Proof. intros q l Hq. cbn. eexists. split; [by apply alter_at|]. by destruct (decide _). Qed.
Lemma mono_uninvite_all g X sh : mono sh (sh_uninvite_all g X sh).
Proof.
  intros q l Hq. unfold sh_uninvite_all. destruct (uninvite_fold (set_iter X) sh) as (_ & _ & _ & _ & E5). cbn.
  rewrite E5, Hq. cbn. eexists. split; [done|]. by destruct (decide _).
Qed.

(** ** The end of a group *)

Definition clear_slots (b : Group) : Group := b <| m_memberSlots := [] |>.
Definition sh_free (id : Z) (sh : shape) : shape :=
  sh <| sh_next := (if id <? sh_next sh then id else sh_next sh) |> <| sh_store ::= <[Z.to_nat id := None]> |>.
Definition sh_delete (g : Z) (mgr : list (which * Z)) (sh : shape) : shape :=
  (foldl (λ sh r, on_sh_player r.2 (set_l_ref r.1 None) sh) sh mgr) <| sh_groups ::= delete g |>.

Lemma delete_fold l : ∀ sh,
  let sh' := foldl (λ sh (r : which * Z), on_sh_player r.2 (set_l_ref r.1 None) sh) sh l in
  sh_groups sh' = sh_groups sh ∧ sh_store sh' = sh_store sh ∧ sh_next sh' = sh_next sh ∧ sh_fresh sh' = sh_fresh sh ∧
  ∀ q, match sh_players sh !! q, sh_players sh' !! q with
       | Some l0, Some l1 => l_invite l1 = l_invite l0 ∧ (∀ k, l_ref k l1 = if decide ((k, q) ∈ l) then None else l_ref k l0)
       | None, None => True
       | _, _ => False
       end.
Proof.
  induction l as [|[k0 p] l IH]; intros sh; cbn.
  { repeat split; try done. intros q. destruct (sh_players sh !! q); [|done]. split; [done|]. intros k.
    rewrite decide_False; [done|]. by intros ?%elem_of_nil. }
  destruct (IH (on_sh_player p (set_l_ref k0 None) sh)) as (E1 & E2 & E3 & E4 & E5). cbn in *. repeat split; try done.
  intros q. specialize (E5 q). destruct (decide (p = q)) as [<-|Hne].
  - rewrite lookup_alter_eq in E5. destruct (sh_players sh !! p) as [l0|]; cbn in *; [|done].
    destruct (sh_players _ !! p) as [l1|]; [|done]. destruct E5 as [Ei Er]. split; [by rewrite Ei, set_l_ref_pair|].
    intros k. rewrite Er, l_ref_set. destruct (decide ((k, p) ∈ l)) as [Hin|Hn].
    + rewrite decide_True; [done|]. by right.
    + destruct (decide (k0 = k)) as [<-|Hk]; [by rewrite decide_True by left|].
      rewrite decide_False; [done|]. intros [[= ->]|?]%elem_of_cons; done.
  - rewrite lookup_alter_ne in E5 by done. destruct (sh_players sh !! q) as [l0|]; [|done].
    destruct (sh_players _ !! q) as [l1|]; [|done]. destruct E5 as [Ei Er]. split; [done|]. intros k. rewrite Er.
    destruct (decide ((k, q) ∈ l)); [by rewrite decide_True by by right|].
    rewrite decide_False; [done|]. intros [[= -> ->]|?]%elem_of_cons; done.
Qed.
Lemma mono_delete g l sh : mono sh (sh_delete g l sh).
Proof.
  intros q lk Hq. destruct (delete_fold l sh) as (_ & _ & _ & _ & E). specialize (E q). unfold sh_delete.
  set (sh' := foldl _ sh l) in *. cbn. rewrite Hq in E. destruct (sh_players sh' !! q) as [l1|]; [|done]. exists l1. split; [done|]. destruct E as [-> _]. done.
Qed.

(** A group is deleted when nothing but its members' references points to it. *)
Lemma links_delete g b sh :
  links (Some g) sh → sh_groups sh !! g = Some b → m_invitees b = ∅ → (∀ i, sh_store sh !! i ≠ Some (Some g)) →
  links None (sh_delete g (m_memberMgr b) sh).
Proof.
  intros [[R1 R2 R3] [I1 I2 I3] [G1 G2 G3 G4 G5 G6 G7]] Hg Hinv Hst.
  destruct (delete_fold (m_memberMgr b) sh) as (E1 & E2 & E3 & E4 & E5). cbv zeta in *.
  unfold sh_delete. set (sh' := foldl _ sh _) in *.
  assert (∀ g' b', delete g (sh_groups sh') !! g' = Some b' → g' ≠ g ∧ sh_groups sh !! g' = Some b') as Hd.
  { rewrite E1. intros g' b' [? ?]%lookup_delete_Some. by split. }
  assert (∀ q l, sh_players sh' !! q = Some l → ∃ l0, sh_players sh !! q = Some l0 ∧ l_invite l = l_invite l0 ∧
    ∀ k, l_ref k l = if decide ((k, q) ∈ m_memberMgr b) then None else l_ref k l0) as Hp.
  { intros q l Hl. specialize (E5 q). rewrite Hl in E5. destruct (sh_players sh !! q) as [l0|]; [|done]. by exists l0. }
  assert (∀ q l0, sh_players sh !! q = Some l0 → ∃ l, sh_players sh' !! q = Some l ∧ l_invite l = l_invite l0 ∧
    ∀ k, l_ref k l = if decide ((k, q) ∈ m_memberMgr b) then None else l_ref k l0) as Hp'.
  { intros q l0 Hl. specialize (E5 q). rewrite Hl in E5. destruct (sh_players sh' !! q) as [l|]; [|done]. by exists l. }
  assert (∀ g' b', g' ≠ g → sh_groups sh !! g' = Some b' → delete g (sh_groups sh') !! g' = Some b') as Hd'.
  { rewrite E1. intros g' b' Hne Hg'. by rewrite lookup_delete_ne. }
  split; split; cbn.
  - intros q l k g' (l0 & Hl0 & _ & Er)%Hp Hr. rewrite Er in Hr. destruct (decide _) as [|Hn]; [done|].
    destruct (R1 q l0 k g' Hl0 Hr) as (b' & Hb' & Hin). exists b'. split; [|done]. apply Hd'; [|done]. congruence.
  - intros g' b' k q [Hne Hb']%Hd Hin. destruct (R2 g' b' k q Hb' Hin) as (l0 & Hl0 & Hr).
    destruct (Hp' q l0 Hl0) as (l & Hl & _ & Er). exists l. split; [done|]. rewrite Er. rewrite decide_False; [done|].
    intros Hin'. destruct (R2 g b k q Hg Hin') as (l1 & Hl1 & Hr1). congruence.
  - intros g' b' [Hne Hb']%Hd _ He. apply (R3 g' b'); [done|congruence|done].
  - intros q l g' (l0 & Hl0 & Ei & _)%Hp Hi. destruct (I1 q l0 g' Hl0) as (b' & Hb' & Hin); [congruence|].
    exists b'. split; [|done]. apply Hd'; [|done]. intros ->. set_solver.
  - intros g' b' q [Hne Hb']%Hd Hin. destruct (I2 g' b' q Hb' Hin) as (l0 & Hl0 & Hi).
    destruct (Hp' q l0 Hl0) as (l & Hl & Ei & _). exists l. split; [done|congruence].
  - intros g' b' [Hne Hb']%Hd _ He. apply (I3 g' b'); [done|congruence|done].
  - intros g' b' [Hne Hb']%Hd _. apply (G1 g' b'); [done|congruence].
  - intros g' b' [Hne Hb']%Hd _ He. apply (G2 g' b'); [done|congruence|done].
  - intros g' b' [Hne Hb']%Hd _ He. rewrite E2. apply (G3 g' b'); [done|congruence|done].
  - intros i g' Hi. rewrite E2 in Hi. destruct (G4 i g' Hi) as (b' & Hb' & H1 & H2 & H3 & H4). exists b'.
    split; [apply Hd'; [|done]; intros ->; by eapply Hst|]. repeat split; try done. intros _. apply H4.
    intros [= ->]. by eapply Hst.
  - rewrite E2, E3. done.
  - rewrite E2, E3. done.
  - intros g' [b' Hb']. rewrite E4. cbn in Hb'. apply Hd in Hb' as [_ Hb']. apply G7. by exists b'.
Qed.
Lemma regs_free g b sh :
  regs (Some g) sh → sh_groups sh !! g = Some b → sh_store sh !! Z.to_nat (m_dbStoreId b) = Some (Some g) →
  regs (Some g) (sh_free (m_dbStoreId b) sh) ∧ ∀ i, sh_store (sh_free (m_dbStoreId b) sh) !! i ≠ Some (Some g).
Proof.
  intros [G1 G2 G3 G4 G5 G6 G7] Hg Hst. unfold sh_free.
  destruct (G4 _ _ Hst) as (b0 & Hb0 & Hid & Hpos & Hstored & _). assert (b0 = b) as -> by congruence.
  assert (0 < m_dbStoreId b) as Hid0 by lia.
  assert (∀ i g', <[Z.to_nat (m_dbStoreId b) := None]> (sh_store sh) !! i = Some (Some g') →
    i ≠ Z.to_nat (m_dbStoreId b) ∧ sh_store sh !! i = Some (Some g')) as Hins.
  { intros i g' Hi. destruct (decide (i = Z.to_nat (m_dbStoreId b))) as [->|Hne].
    - rewrite list_lookup_insert_eq in Hi by (by eapply lookup_lt_Some). done.
    - by rewrite list_lookup_insert_ne in Hi. }
  destruct G6 as [Hn1 Hn2]. split; [split; cbn|].
  - done.
  - done.
  - intros g' b' Hb' Hx He Hs. rewrite list_lookup_insert_ne; [by apply (G3 g')|].
    pose proof (G3 g' b' Hb' Hx He Hs) as Hg'. intros Heq. rewrite <- Heq in Hg'. congruence.
  - intros i g' [Hne Hi]%Hins. by apply G4.
  - intros i Hi. destruct (G5 i) as [g' Hg']; [destruct (Z.ltb_spec (m_dbStoreId b) (sh_next sh)); lia|]. exists g'.
    rewrite list_lookup_insert_ne; [done|]. destruct (Z.ltb_spec (m_dbStoreId b) (sh_next sh)); lia.
  - destruct (Z.ltb_spec (m_dbStoreId b) (sh_next sh)); (split; [lia|]); intros g' [Hne Hi]%Hins; [done|]. by eapply Hn2.
  - done.
  - intros i [Hne Hi]%Hins. destruct (G4 _ _ Hi) as (b1 & Hb1 & Hid1 & _). assert (b1 = b) as -> by congruence. lia.
Qed.
(** Clearing the members makes [g] a group that is torn down. *)
Lemma links_weaken x sh : links None sh → links x sh.
Proof.
  intros [[R1 R2 R3] [I1 I2 I3] [G1 G2 G3 G4 G5 G6 G7]]. split; split; try done.
  - intros. by eapply R3.
  - intros. by eapply I3.
  - intros. by eapply G1.
  - intros. by eapply G2.
  - intros. by eapply G3.
  - intros i g' Hi. destruct (G4 i g' Hi) as (b & ? & ? & ? & ? & Hx). exists b. repeat split; try done. intros _. by apply Hx.
Qed.
Lemma links_on_group g f sh :
  links (Some g) sh →
  (∀ b, sh_groups sh !! g = Some b → m_memberMgr (f b) = m_memberMgr b ∧ m_invitees (f b) = m_invitees b ∧
    m_dbStoreId (f b) = m_dbStoreId b ∧ stored_group (f b) = stored_group b) →
  links (Some g) (on_sh_group g f sh).
Proof.
  intros [[R1 R2 R3] [I1 I2 I3] [G1 G2 G3 G4 G5 G6 G7]] Hf.
  assert (∀ g' b, alter f g (sh_groups sh) !! g' = Some b → ∃ b0, sh_groups sh !! g' = Some b0 ∧
    m_memberMgr b = m_memberMgr b0 ∧ m_invitees b = m_invitees b0 ∧ (Some g ≠ Some g' → b = b0)) as Ha.
  { intros g' b (b0 & Hb0 & ->)%alter_some. exists b0. split; [done|]. destruct (decide (g = g')) as [<-|Hne]; [|done].
    destruct (Hf b0 Hb0) as (-> & -> & _). done. }
  split; split; cbn.
  - intros p l k g' Hp Hr. destruct (R1 p l k g' Hp Hr) as (b & Hb & Hin). eexists. split; [by apply alter_at|].
    destruct (decide (g = g')) as [<-|]; [|done]. by destruct (Hf b Hb) as (-> & _).
  - intros g' b k p (b0 & Hb0 & E1 & E2 & _)%Ha Hin. rewrite E1 in Hin. by eapply R2.
  - intros g' b (b0 & Hb0 & E1 & E2 & E3)%Ha Hx. rewrite E3 by done. by apply (R3 g').
  - intros p l g' Hp Hr. destruct (I1 p l g' Hp Hr) as (b & Hb & Hin). eexists. split; [by apply alter_at|].
    destruct (decide (g = g')) as [<-|]; [|done]. by destruct (Hf b Hb) as (_ & -> & _).
  - intros g' b p (b0 & Hb0 & E1 & E2 & _)%Ha Hin. rewrite E2 in Hin. by eapply I2.
  - intros g' b (b0 & Hb0 & E1 & E2 & E3)%Ha Hx. rewrite E3 by done. by apply (I3 g').
  - intros g' b (b0 & Hb0 & E1 & E2 & E3)%Ha Hx. rewrite E3 by done. by apply (G1 g').
  - intros g' b (b0 & Hb0 & E1 & E2 & E3)%Ha Hx. rewrite E3 by done. by apply (G2 g').
  - intros g' b (b0 & Hb0 & E1 & E2 & E3)%Ha Hx. rewrite E3 by done. by apply (G3 g').
  - intros i g' Hi. destruct (G4 i g' Hi) as (b & Hb & ? & ? & ? & ?). eexists. split; [by apply alter_at|].
    destruct (decide (g = g')) as [<-|]; [|done]. destruct (Hf b Hb) as (_ & _ & -> & ->). done.
  - done.
  - done.
  - intros g' Hg'. apply G7. destruct Hg' as [b Hb]. apply Ha in Hb as (b0 & Hb0 & _). by exists b0.
Qed.

(** Updates of the manager's fields. *)
Lemma at_modify sh w f sh' :
  at_shape sh w → groups (f w) = groups w → players (f w) = players w → loots (f w) = loots w →
  sh' = sh <| sh_store := GroupDbStore (f w) |> <| sh_next := NextGroupDbStoreId (f w) |> <| sh_fresh := next_group (f w) |> →
  at_shape sh' (f w).
Proof.
  intros [<- [D1 D2 D3]] Eg Ep El ->. split.
  - apply shape_eq; cbn; congruence.
  - split; rewrite ?Eg, ?Ep, ?El; done.
Qed.
Lemma wp_FreeGroupDbStoreId sh w g b x (Q : unit → GroupWorld → list group_event → Prop) :
  at_shape sh w → sh_groups sh !! g = Some b → sh_store sh !! Z.to_nat (m_dbStoreId b) = Some x →
  (∀ w', at_shape (sh_free (m_dbStoreId b) sh) w' → Q tt w' []) → wp (FreeGroupDbStoreId g) Q w.
Proof.
  intros Hw Hg Hst HQ. unfold FreeGroupDbStoreId. apply wp_bind. eapply wp_deref; [done|by eexists|].
  intros gr _ Hb _. assert (m_dbStoreId gr = m_dbStoreId b) as E by (rewrite Hg in Hb; by simplify_eq). rewrite E. cbv zeta.
  apply wp_bind, wp_modify, wp_bind, wp_get.
  assert (sh_store sh = GroupDbStore w ∧ sh_next sh = NextGroupDbStoreId w ∧ sh_fresh sh = next_group w) as (Es & En & Ef)
    by by destruct Hw as [<- _].
  rewrite bool_decide_true.
  2:{ rewrite Es in Hst. destruct (m_dbStoreId b <? NextGroupDbStoreId w); cbn; rewrite Hst; by eexists. }
  apply wp_modify, HQ. rewrite <- En.
  eapply (at_modify sh w (λ w, (if m_dbStoreId b <? sh_next sh then w <| NextGroupDbStoreId := m_dbStoreId b |> else w)
     <| GroupDbStore ::= <[Z.to_nat (m_dbStoreId b) := None]> |>)); [done|by destruct (_ <? _)..|].
  unfold sh_free. apply shape_eq; cbn; try done; destruct (_ <? _); cbn; congruence.
Qed.
Lemma wp_invalidate sh w r (Q : unit → GroupWorld → list group_event → Prop) :
  at_shape sh w → p_in r.2 sh →
  (∀ w', at_shape (on_sh_player r.2 (set_l_ref r.1 None) sh) w' → Q tt w' []) → wp (invalidate r.1 r.2) Q w.
Proof.
  intros Hw Hp HQ. unfold invalidate. destruct r as [[] p]; cbn in *.
  - eapply wp_on_player with (f' := set_l_ref RGroup None); [done..|intros ? _ []; by split|done].
  - eapply wp_on_player with (f' := set_l_ref ROriginal None); [done..|intros ? _ []; by split|done].
Qed.
Lemma wp_invalidate_all l : ∀ sh w, at_shape sh w → Forall (λ r : which * Z, p_in r.2 sh) l →
  wp (forM_ l (λ r, invalidate r.1 r.2))
    (λ _ w' t, at_shape (foldl (λ sh r, on_sh_player r.2 (set_l_ref r.1 None) sh) sh l) w' ∧ t = []) w.
Proof.
  induction l as [|r l IH]; intros sh w Hw Hl; cbn [forM_ foldl]; [by apply wp_ret|]. apply Forall_cons in Hl as [Hp Hl].
  apply wp_bind. eapply wp_invalidate; [done..|]. intros w1 Hw1. eapply wp_mono; [apply IH; [exact Hw1|]|].
  - eapply Forall_impl; [exact Hl|]. intros q. apply on_sh_player_in.
  - intros [] w2 t2 [Hw2 ->]. done.
Qed.
Lemma wp_delete_group sh w g b :
  at_shape sh w → sh_groups sh !! g = Some b → Forall (λ r : which * Z, p_in r.2 sh) (m_memberMgr b) →
  wp (delete_group g) (λ _ w' _, at_shape (sh_delete g (m_memberMgr b) sh) w') w.
Proof.
  intros Hw Hg Hm. unfold delete_group. apply wp_bind. eapply wp_deref; [done|by eexists|]. intros gr Hgr Hb Hdet.
  assert (m_memberMgr gr = m_memberMgr b) as E by (rewrite Hg in Hb; by simplify_eq). rewrite E.
  assert (keeps (at_shape sh) (match m_bgGroup gr with
    | Some bg => when (GetBgRaid bg g) (emit (SetBgRaidNull bg g)) | None => mret tt end)) as K1.
  { destruct (m_bgGroup gr); [apply keeps_when, keeps_emit|apply keeps_ret]. }
  assert (keeps (at_shape sh) (forM_ (m_boundInstances gr ≫= λ binds, (hash_iter binds).*2) (λ bind,
    s ← require (save bind); emit (SaveRemoveGroup s g)))) as K2.
  { apply keeps_forM. intros bd Hbd. apply list_elem_of_bind in Hbd as (binds & Hbd & Hin).
    apply list_elem_of_fmap in Hbd as ([m x] & -> & Hx). apply hash_iter_elem in Hx. cbn.
    apply keeps_group_require; [|intros; apply keeps_emit].
    pose proof (gd_binds _ Hdet) as Hall. rewrite Forall_forall in Hall. by eapply (Hall binds). }
  apply wp_bind. eapply wp_mono; [by apply K1|]. intros [] w1 t1 Hw1. apply wp_bind.
  eapply wp_mono; [by apply K2|]. intros [] w2 t2 Hw2. apply wp_bind.
  eapply wp_mono; [by apply wp_invalidate_all|]. intros [] w3 t3 [[Hs [D1 D2 D3]] _]. apply wp_modify. split.
  - unfold sh_delete. rewrite <- Hs. apply shape_eq; cbn; try done. by rewrite fmap_delete.
  - split; cbn; try done.
    + intros g' gr' [_ Hg']%lookup_delete_Some. by eapply D1.
    + intros g' gr' r [_ Hg']%lookup_delete_Some. by eapply D3.
Qed.
Lemma mgr_in x sh g b : refs x sh → sh_groups sh !! g = Some b → Forall (λ r : which * Z, p_in r.2 sh) (m_memberMgr b).
Proof.
  intros R Hg. apply Forall_forall. intros [k p] Hin. destruct (k_mgr _ _ R g b k p Hg Hin) as (l & Hl & _). by exists l.
Qed.

(** A world where the group is gone and the rest is linked. *)
Definition gone (g : Z) (sh0 : shape) (w : GroupWorld) : Prop :=
  ∃ sh, at_shape sh w ∧ links None sh ∧ mono sh0 sh ∧ sh_groups sh !! g = None.
Lemma wp_delete_linked sh0 sh w g b :
  at_shape sh w → links (Some g) sh → sh_groups sh !! g = Some b → m_invitees b = ∅ →
  (∀ i, sh_store sh !! i ≠ Some (Some g)) → mono sh0 sh → wp (delete_group g) (λ _ w' _, gone g sh0 w') w.
Proof.
  intros Hw L Hg Hi Hs M. eapply wp_mono; [eapply wp_delete_group; [done..|eapply mgr_in; [apply L|done]]|].
  intros [] w' t Hw'. eexists. split; [done|]. split; [by apply links_delete|]. split; [etrans; [done|apply mono_delete]|].
  cbn. apply lookup_delete_eq.
Qed.
Lemma wp_group_Disband sh w g b hide :
  at_shape sh w → links None sh → sh_groups sh !! g = Some b → m_memberSlots b ≠ [] →
  wp (Disband g hide) (λ _ w' _, gone g sh w') w.
Proof.
  intros Hw L Hg Hne. unfold Disband. apply wp_bind, wp_emit, wp_bind. eapply wp_deref; [done|by eexists|].
  intros gr _ Hb _. assert (stored_group gr = stored_group b) as Est by (rewrite Hg in Hb; by simplify_eq).
  apply wp_bind.
  assert (keeps (relinked None sh) (forM_ (m_memberSlots gr) (λ s, disband_member g gr hide (MemberSlot.guid s)))) as K.
  { apply keeps_forM. intros s _. apply keeps_disband_member. by exists b. }
  eapply wp_mono; [apply K; by apply relinked_here|]. intros [] w1 t1 (sh1 & Hw1 & L1 & V1 & V2). clear K t1.
  assert (∃ b1, sh_groups sh1 !! g = Some b1 ∧ m_memberSlots b1 ≠ [] ∧ stored_group b1 = stored_group b) as (b1 & Hg1 & Hne1 & Hst1).
  { injection V1 as Hgs _ _ _. destruct (fmap_eq_lookup _ _ _ _ _ _ (eq_sym Hgs) Hg) as (b1 & Hb1 & E). exists b1.
    split; [done|]. injection E as E1 E2 E3 E4 E5 E6. rewrite <- E1. split; [done|].
    unfold stored_group, isBGGroup, isBFGroup. by rewrite E3, E4. }
  assert (mono sh sh1) as M1 by by apply mono_view.
  apply wp_bind. eapply wp_on_group with (f' := clear_slots); [done|by exists b1|done|by intros ? _ []| |].
  { intros gr' r _ Hr. by apply elem_of_nil in Hr. }
  intros w2 Hw2 _. pose proof (links_weaken (Some g) sh1 L1) as L1'.
  pose proof (links_on_group g clear_slots sh1 L1' ltac:(done)) as L2. set (sh2 := on_sh_group g clear_slots sh1) in *.
  assert (sh_groups sh2 !! g = Some (clear_slots b1)) as Hg2 by (cbn; by rewrite lookup_alter_eq, Hg1).
  assert (mono sh sh2) as M2 by exact M1.
  apply wp_bind. eapply wp_RemoveAllInvites; [done|exact Hg2| |].
  { intros p Hp. destruct (k_invitee _ _ (k_invs _ _ L2) g _ p Hg2 Hp) as (l & Hl & _). by exists l. }
  intros w3 Hw3. set (sh3 := sh_uninvite_all g (m_invitees (clear_slots b1)) sh2) in *.
  assert (links (Some g) sh3) as L3.
  { destruct L2 as [LR LI LG]. split.
    - eapply refs_view; [symmetry; apply ref_view_uninvite_all|done].
    - by apply invs_uninvite_all.
    - eapply regs_view; [symmetry; apply reg_view_uninvite_all|done]. }
  assert (sh_groups sh3 !! g = Some (clear_inv (clear_slots b1)) ∧ sh_store sh3 = sh_store sh1) as [Hg3 Es3].
  { split; [|exact (uninvite_all_store _ _ sh2)]. unfold sh3. by rewrite uninvite_all_groups, lookup_alter_eq, Hg2. }
  assert (mono sh sh3) as M3 by (etrans; [exact M2|apply mono_uninvite_all]).
  apply wp_bind. rewrite Est, <- Hst1.
  assert (wp (when (stored_group b1)
    (emit (CHAR_DEL_GROUP (m_dbStoreId gr)) ;; emit (CHAR_DEL_GROUP_MEMBER_ALL (m_dbStoreId gr)) ;;
     ResetInstances g INSTANCE_RESET_GROUP_DISBAND false None ;; ResetInstances g INSTANCE_RESET_GROUP_DISBAND true None ;;
     emit (CHAR_DEL_LFG_DATA (m_dbStoreId gr)) ;; FreeGroupDbStoreId g))
    (λ _ w' _, ∃ sh', at_shape sh' w' ∧ links (Some g) sh' ∧ sh_groups sh' = sh_groups sh3 ∧ mono sh sh' ∧
       ∀ i, sh_store sh' !! i ≠ Some (Some g)) w3) as Hmid.
  { assert (g_in g sh3) as Hin3 by by eexists. apply wp_when; intros Hst.
    - apply wp_bind, wp_emit, wp_bind, wp_emit, wp_bind.
      eapply wp_mono; [by apply keeps_ResetInstances|]. intros [] w4 t4 Hw4. apply wp_bind.
      eapply wp_mono; [by apply keeps_ResetInstances|]. intros [] w5 t5 Hw5. apply wp_bind, wp_emit.
      assert (sh_store sh3 !! Z.to_nat (m_dbStoreId (clear_inv (clear_slots b1))) = Some (Some g)) as Hid
        by (rewrite Es3; by apply (k_created _ _ (k_regs _ _ L1) g b1)).
      eapply wp_FreeGroupDbStoreId; [done|exact Hg3|exact Hid|]. intros w6 Hw6.
      destruct (regs_free g _ sh3 (k_regs _ _ L3) Hg3 Hid) as [LG Hno]. eexists. split; [exact Hw6|].
      split; [|by split; [|split]]. destruct L3 as [LR LI _]. split; [by eapply (refs_view _ sh3)|by eapply (invs_view _ sh3)|done].
    - exists sh3. do 4 (split; [done|]). intros i Hi.
      destruct (k_store _ _ (k_regs _ _ L3) i g Hi) as (b' & Hb' & _ & _ & Hs & _). rewrite Hg3 in Hb'. simplify_eq.
      change (stored_group (clear_inv (clear_slots b1))) with (stored_group b1) in Hs. congruence. }
  eapply wp_mono; [exact Hmid|]. intros [] w4 t4 (sh4 & Hw4 & L4 & Eg4 & M4 & Hno). clear Hmid.
  assert (keeps (at_shape sh4) (RemoveGroup g)) as K.
  { unfold RemoveGroup. apply keeps_deref; [unfold g_in; rewrite Eg4; by eexists|]. intros gr' _ _.
    apply keeps_modify. intros w' Hw'. by eapply (at_modify sh4 w' _ sh4 Hw'); try done; destruct Hw' as [<- _]. }
  apply wp_bind. eapply wp_mono; [by apply K|]. intros [] w5 t5 Hw5.
  eapply wp_mono; [eapply wp_delete_linked; [done..|by rewrite Eg4|done|done|exact M4]|]. by intros [] w6 t6.
Qed.

(** ** Sub-groups *)

Lemma sub_counts_lookup l j : (j < 8)%nat → sub_counts l !! j = Some (in_subgroup (Z.of_nat j) l).
Proof.
  intros Hj. unfold sub_counts. change MAX_RAID_SUBGROUPS with 8. rewrite list_lookup_fmap, lookup_seqZ_lt by lia.
  done.
Qed.
Lemma sub_counts_length l : length (sub_counts l) = 8%nat.
Proof. unfold sub_counts. by rewrite length_fmap, length_seqZ. Qed.
Lemma in_subgroup_perm i l l' : l ≡ₚ l' → in_subgroup i l = in_subgroup i l'.
Proof. intros Hp. unfold in_subgroup. by rewrite Hp. Qed.
Lemma sub_counts_perm l l' : l ≡ₚ l' → sub_counts l = sub_counts l'.
Proof. intros Hp. unfold sub_counts. apply list_fmap_ext. intros ? i _. by apply in_subgroup_perm. Qed.
Lemma in_subgroup_cons i s l : in_subgroup i (s :: l) = in_subgroup i l + (if decide (MemberSlot.group s = i) then 1 else 0).
Proof. unfold in_subgroup. rewrite filter_cons. destruct (decide _); cbn [length]; lia. Qed.
Lemma sub_counts_cons s l : 0 <= MemberSlot.group s < MAX_RAID_SUBGROUPS →
  sub_counts (s :: l) = alter (λ n, n + 1) (Z.to_nat (MemberSlot.group s)) (sub_counts l).
Proof.
  intros Hs. change MAX_RAID_SUBGROUPS with 8 in Hs. apply list_eq_same_length with (n := 8%nat);
    [by rewrite length_alter, sub_counts_length|apply sub_counts_length|].
  intros j x y Hj. rewrite sub_counts_lookup by done. intros [= <-].
  destruct (decide (Z.to_nat (MemberSlot.group s) = j)) as [<-|Hne].
  - rewrite list_lookup_alter_eq, sub_counts_lookup by lia. intros [= <-]. rewrite in_subgroup_cons, Z2Nat.id by lia.
    by rewrite decide_True.
  - rewrite list_lookup_alter_ne, sub_counts_lookup by done. intros [= <-]. rewrite in_subgroup_cons, decide_False by lia. lia.
Qed.
Lemma in_subgroup_nonneg i l : 0 <= in_subgroup i l.
Proof. unfold in_subgroup. lia. Qed.
(** The sub-groups hold every member. *)
Lemma sub_counts_total l : Forall (λ s, 0 <= MemberSlot.group s < MAX_RAID_SUBGROUPS) l →
  Z.of_nat (length l) = foldr Z.add 0 (sub_counts l).
Proof.
  change MAX_RAID_SUBGROUPS with 8. unfold sub_counts. change (seqZ 0 MAX_RAID_SUBGROUPS) with [0;1;2;3;4;5;6;7]. cbn [fmap list_fmap foldr].
  induction l as [|s l IH]; intros Hl; [done|]. apply Forall_cons in Hl as [Hs Hl]. specialize (IH Hl).
  rewrite !in_subgroup_cons. cbn [length].
  assert (MemberSlot.group s = 0 ∨ MemberSlot.group s = 1 ∨ MemberSlot.group s = 2 ∨ MemberSlot.group s = 3 ∨
    MemberSlot.group s = 4 ∨ MemberSlot.group s = 5 ∨ MemberSlot.group s = 6 ∨ MemberSlot.group s = 7) as Hc by lia.
  destruct Hc as [-> | [-> | [-> | [-> | [-> | [-> | [-> | ->]]]]]]]; cbn [decide decide_rel]; repeat case_decide; lia.
Qed.
Lemma size_bound b : size_ok b → Z.of_nat (length (m_memberSlots b)) <= MAXRAIDSIZE.
Proof.
  unfold size_ok, sizes_ok. change MAXRAIDSIZE with 40. change MAXGROUPSIZE with 5. destruct (isRaidGroup b); [|intros (_ & _ & Hl); lia].
  intros (_ & Hg & Hc). rewrite sub_counts_total by done. unfold sub_counts in *.
  change (seqZ 0 MAX_RAID_SUBGROUPS) with [0;1;2;3;4;5;6;7] in *. cbn [fmap list_fmap foldr] in *.
  repeat (apply Forall_cons in Hc as [? Hc]). lia.
Qed.
Lemma members_count b : size_ok b → GetMembersCount b = Z.of_nat (length (m_memberSlots b)).
Proof. intros Hs%size_bound. change MAXRAIDSIZE with 40 in Hs. unfold GetMembersCount, u32, wrapu. rewrite Z.mod_small; lia. Qed.
Lemma blur_count gr : GetMembersCount (blur gr) = GetMembersCount gr.
Proof. unfold GetMembersCount. cbn. by rewrite length_fmap. Qed.

(** Counting in a group. *)
Definition count_sub (f : Z → Z) (s : Z) (b : Group) : Group :=
  b <| m_subGroupsCounts ::= fmap (alter (λ n, u8 (f n)) (Z.to_nat s)) |>.
Lemma wp_SubGroupCounter sh w g b f s (Q : unit → GroupWorld → list group_event → Prop) :
  at_shape sh w → sh_groups sh !! g = Some b → (∀ c, m_subGroupsCounts b = Some c → is_Some (c !! Z.to_nat s)) →
  (∀ w', at_shape (on_sh_group g (count_sub f s) sh) w' → Q tt w' []) → wp (SubGroupCounter f g s) Q w.
Proof.
  intros Hw Hg Hc HQ. unfold SubGroupCounter. apply wp_bind. eapply wp_deref; [done|by eexists|]. intros gr Hgr Hb _.
  assert (m_subGroupsCounts gr = m_subGroupsCounts b) as E by (rewrite Hg in Hb; by simplify_eq). rewrite E.
  destruct (m_subGroupsCounts b) as [c|] eqn:Ec.
  - rewrite bool_decide_true by by apply Hc.
    eapply wp_on_group with (f' := count_sub f s); [done|by eexists| |by intros ? _ []|by intros; left|].
    + intros gr' Hgr'. assert (gr' = gr) as -> by congruence. unfold blur, count_sub, setf. cbn. by rewrite E.
    + intros w' Hw' _. by apply HQ.
  - apply wp_ret, HQ. replace (on_sh_group g (count_sub f s) sh) with sh; [done|]. apply shape_eq; try done. cbn.
    apply map_eq. intros i. destruct (decide (g = i)) as [<-|]; [|by rewrite lookup_alter_ne].
    rewrite lookup_alter_eq, Hg. cbn. f_equal. unfold count_sub, setf. destruct b. cbn in *. by rewrite Ec.
Qed.
Lemma on_sh_group_comp g f f' sh : on_sh_group g f (on_sh_group g f' sh) = on_sh_group g (f ∘ f') sh.
Proof.
  apply shape_eq; try done. cbn. apply map_eq. intros i. destruct (decide (g = i)) as [<-|].
  - rewrite !lookup_alter_eq. by destruct (sh_groups sh !! g).
  - by rewrite !lookup_alter_ne.
Qed.

(** *** A member leaves *)

Definition drop_slot (guid : Z) (b : Group) : Group :=
  match list_find (λ s, MemberSlot.guid s = guid) (m_memberSlots b) with
  | Some (i, s) => count_sub (λ n, n - 1) (MemberSlot.group s) b <| m_memberSlots ::= delete i |>
  | None => b
  end.
Lemma find_blur guid l :
  list_find (λ s, MemberSlot.guid s = guid) (blur_slot <$> l) =
  (prod_map id blur_slot) <$> list_find (λ s, MemberSlot.guid s = guid) l.
Proof.
  induction l as [|s l IH]; [done|]. cbn. destruct (decide (MemberSlot.guid s = guid)); [done|].
  rewrite IH. by destruct (list_find _ l) as [[i s']|].
Qed.
Lemma wp_remove_slot sh w g b guid (Q : unit → GroupWorld → list group_event → Prop) :
  at_shape sh w → sh_groups sh !! g = Some b → size_ok b →
  (∀ w', at_shape (on_sh_group g (drop_slot guid) sh) w' → Q tt w' []) → wp (remove_slot g guid) Q w.
Proof.
  intros Hw Hg Hsz HQ. unfold remove_slot. apply wp_bind. eapply wp_deref; [done|by eexists|]. intros gr Hgr Hb _.
  assert (b = blur gr) as -> by congruence.
  assert (list_find (λ s, MemberSlot.guid s = guid) (m_memberSlots (blur gr)) =
    (prod_map id blur_slot) <$> list_find (λ s, MemberSlot.guid s = guid) (m_memberSlots gr)) as Ef by apply find_blur.
  destruct (list_find _ (m_memberSlots gr)) as [[i s]|] eqn:El; cbn [fmap option_fmap option_map prod_map fst snd id] in Ef.
  - apply wp_bind. apply list_find_Some in El as (Hi & _ & _).
    assert (m_memberSlots (blur gr) !! i = Some (blur_slot s)) as Hbi by (cbn; by rewrite list_lookup_fmap, Hi).
    eapply wp_SubGroupCounter; [done..| |].
    { intros c Hc. unfold size_ok, sizes_ok in Hsz. destruct (isRaidGroup (blur gr)); [|destruct Hsz; congruence].
      destruct Hsz as (Hc' & Hall & _). rewrite Hc in Hc'. simplify_eq. apply lookup_lt_is_Some. rewrite sub_counts_length.
      rewrite Forall_lookup in Hall. specialize (Hall _ _ Hbi). change MAX_RAID_SUBGROUPS with 8 in Hall. cbn in Hall. lia. }
    intros w1 Hw1. eapply wp_on_group with (f' := λ b, b <| m_memberSlots ::= delete i |>); [done| | |by intros ? _ []|by intros; left|].
    + apply on_sh_group_in. by eexists.
    + intros gr' _. unfold blur, setf. cbn. f_equal. apply list_fmap_delete.
    + intros w2 Hw2 _. apply HQ. rewrite on_sh_group_comp in Hw2.
      replace (on_sh_group g (drop_slot guid) sh) with (on_sh_group g ((λ b, b <| m_memberSlots ::= delete i |>) ∘
        count_sub (λ n, n - 1) (MemberSlot.group s)) sh); [done|].
      apply shape_eq; try done. cbn. apply map_eq. intros g'. destruct (decide (g = g')) as [<-|]; [|by rewrite !lookup_alter_ne].
      rewrite !lookup_alter_eq, Hg. cbn. f_equal. unfold drop_slot. by rewrite Ef.
  - apply wp_ret, HQ. replace (on_sh_group g (drop_slot guid) sh) with sh; [done|]. apply shape_eq; try done. cbn.
    apply map_eq. intros g'. destruct (decide (g = g')) as [<-|]; [|by rewrite lookup_alter_ne].
    rewrite lookup_alter_eq, Hg. cbn. f_equal. unfold drop_slot. by rewrite Ef.
Qed.
Lemma sizes_delete raid c l i s : l !! i = Some s → sizes_ok raid c l →
  sizes_ok raid (alter (λ n, u8 (n - 1)) (Z.to_nat (MemberSlot.group s)) <$> c) (delete i l).
Proof.
  intros Hi. pose proof (delete_Permutation _ _ _ Hi) as Hp. destruct raid; unfold sizes_ok.
  - intros (Hc & Hg & Hn). rewrite Hp in Hg. apply Forall_cons in Hg as [Hs Hg].
    pose proof (sub_counts_perm _ _ Hp) as Esc. rewrite sub_counts_cons in Esc by done.
    set (l' := delete i l) in *. rewrite Hc. cbn. rewrite Esc in Hn |- *. rewrite alter_list_compose.
    change MAX_RAID_SUBGROUPS with 8 in Hs. set (j := Z.to_nat (MemberSlot.group s)) in *.
    assert (j < 8)%nat as Hj by (subst j; lia). pose proof (sub_counts_lookup l' j Hj) as Hlj.
    pose proof (in_subgroup_nonneg (Z.of_nat j) l').
    assert (in_subgroup (Z.of_nat j) l' + 1 <= MAXGROUPSIZE) as Hle.
    { rewrite Forall_lookup in Hn. apply (Hn j). by rewrite list_lookup_alter_eq, Hlj. }
    split; [|split; [done|]].
    + f_equal. erewrite alter_list_ext; [apply list_alter_id; done|exact Hlj|]. cbn. unfold u8, wrapu.
      change MAXGROUPSIZE with 5 in Hle. rewrite Z.mod_small; lia.
    + rewrite Forall_lookup in Hn |- *. intros k x Hk. destruct (decide (j = k)) as [<-|Hne].
      * rewrite Hlj in Hk. simplify_eq. lia.
      * apply (Hn k). by rewrite list_lookup_alter_ne.
  - intros (Hc & Hg & Hl). rewrite Hc. split; [done|]. split; [by apply Forall_delete|].
    rewrite length_delete by (by eexists). lia.
Qed.
Lemma size_drop guid b : size_ok b → size_ok (drop_slot guid b).
Proof.
  unfold drop_slot. destruct (list_find _ _) as [[i s]|] eqn:Ef; [|done].
  apply list_find_Some in Ef as (Hi & _ & _). apply (sizes_delete (isRaidGroup b)). done.
Qed.
Lemma drop_slot_length guid b : (length (m_memberSlots b) <= S (length (m_memberSlots (drop_slot guid b))))%nat.
Proof.
  unfold drop_slot. destruct (list_find _ _) as [[i s]|] eqn:Ef; [|lia]. apply list_find_Some in Ef as (Hi & _ & _).
  pose proof (length_delete (m_memberSlots b) i ltac:(by eexists)) as Hl. cbn in *. lia.
Qed.
Lemma drop_slot_rest guid b :
  m_memberMgr (drop_slot guid b) = m_memberMgr b ∧ m_invitees (drop_slot guid b) = m_invitees b ∧
  m_leaderGuid (drop_slot guid b) = m_leaderGuid b ∧ m_groupType (drop_slot guid b) = m_groupType b ∧
  m_bgGroup (drop_slot guid b) = m_bgGroup b ∧ m_bfGroup (drop_slot guid b) = m_bfGroup b ∧
  m_dbStoreId (drop_slot guid b) = m_dbStoreId b.
Proof. unfold drop_slot. by destruct (list_find _ _) as [[i s]|]. Qed.
End Worlds.
