(* ===== verification/GroupMembers.v ===== *)
(** Members of groups: joining, leaving, sub-groups, raids and leaders, and that
    the links of a world survive each of them. *)

From S2P Require Import Prelude ByteBuffer Util Rbac Channel Social Group GroupHandler GroupRules GroupWorlds.
Open Scope string_scope.
Open Scope list_scope.
Open Scope Z_scope.

Section Members.
Context `{GroupLaws}.

(** An action inside, then the rest. *)
Lemma wp_then {A B} (I : GroupWorld → Prop) (m : gact A) (f : A → gact B) (Q : B → GroupWorld → Prop) w :
  I w → keeps I m → (∀ a w', I w' → wp (f a) (λ b w'' _, Q b w'') w') → wp (m ≫= f) (λ b w'' _, Q b w'') w.
Proof.
  intros Hw Hm Hf. apply wp_bind. eapply wp_mono; [by apply Hm|]. intros a w' t Hw'.
  eapply wp_mono; [by apply Hf|done].
Qed.

(** ** Joining *)

(** There is room in sub-group [s]. *)
Definition room (b : Group) (s : Z) : Prop :=
  if isRaidGroup b then 0 <= s < MAX_RAID_SUBGROUPS ∧ in_subgroup s (m_memberSlots b) < MAXGROUPSIZE
  else s = 0 ∧ Z.of_nat (length (m_memberSlots b)) < MAXGROUPSIZE.
Definition new_slot (p s : Z) : MemberSlot.t := MemberSlot.mk p "" s 0 0.
Definition append_slot (p s : Z) (b : Group) : Group := b <| m_memberSlots ::= λ l, l ++ [new_slot p s] |>.
Definition push (p s : Z) (b : Group) : Group := count_sub (λ n, n + 1) s (append_slot p s b).

Lemma room_range b s : room b s → 0 <= s < 8.
Proof. unfold room. change MAX_RAID_SUBGROUPS with 8. destruct (isRaidGroup b); intros [? ?]; lia. Qed.
Lemma free_subgroup_room b : size_ok b → IsFull b = false → ∃ s, free_subgroup b = Some s ∧ room b s.
Proof.
  intros Hs Hf. unfold IsFull in Hf. unfold size_ok, sizes_ok in Hs. unfold free_subgroup, room.
  destruct (isRaidGroup b).
  - destruct Hs as (-> & Hg & Hn). apply Z.leb_gt in Hf. rewrite sub_counts_total in Hf by done.
    destruct (list_find (λ n, n < MAXGROUPSIZE) (sub_counts (m_memberSlots b))) as [[i n]|] eqn:Ef.
    + apply list_find_Some in Ef as (Hi & Hlt & _). cbn. eexists. split; [done|].
      pose proof (lookup_lt_Some _ _ _ Hi) as Hl. rewrite sub_counts_length in Hl. change MAX_RAID_SUBGROUPS with 8.
      split; [lia|]. rewrite sub_counts_lookup in Hi by done. by simplify_eq.
    + exfalso. apply list_find_None in Ef. change MAXGROUPSIZE with 5 in *. change MAXRAIDSIZE with 40 in Hf.
      unfold sub_counts in *. change (seqZ 0 MAX_RAID_SUBGROUPS) with [0;1;2;3;4;5;6;7] in *. cbn [fmap list_fmap foldr] in *.
      repeat (apply Forall_cons in Ef as [? Ef]). lia.
  - destruct Hs as (-> & Hg & Hn). exists 0. split; [done|]. split; [done|]. by apply Z.leb_gt in Hf.
Qed.
Lemma sizes_push b p s : size_ok b → room b s → size_ok (push p s b).
Proof.
  intros Hs Hr. change (size_ok (push p s b)) with
    (sizes_ok (isRaidGroup b) (alter (λ n, u8 (n + 1)) (Z.to_nat s) <$> m_subGroupsCounts b) (m_memberSlots b ++ [new_slot p s])).
  unfold size_ok, sizes_ok, room in *. destruct (isRaidGroup b).
  - destruct Hs as (-> & Hg & Hn), Hr as [Hs Hr].
    assert (sub_counts (m_memberSlots b ++ [new_slot p s]) = alter (λ n, n + 1) (Z.to_nat s) (sub_counts (m_memberSlots b))) as E.
    { rewrite (sub_counts_perm _ (new_slot p s :: m_memberSlots b)) by by rewrite Permutation_app_comm. by apply sub_counts_cons. }
    rewrite E. change MAX_RAID_SUBGROUPS with 8 in Hs. change MAXGROUPSIZE with 5 in *.
    assert (sub_counts (m_memberSlots b) !! Z.to_nat s = Some (in_subgroup s (m_memberSlots b))) as Hi
      by (rewrite sub_counts_lookup, Z2Nat.id by lia; done).
    pose proof (in_subgroup_nonneg s (m_memberSlots b)).
    split; [cbn; f_equal; eapply alter_list_ext; [exact Hi|]; unfold u8, wrapu; rewrite Z.mod_small; lia|].
    split; [apply Forall_app; split; [done|]; by apply Forall_singleton|].
    apply Forall_lookup. intros j x Hj. rewrite Forall_lookup in Hn. destruct (decide (Z.to_nat s = j)) as [<-|Hne].
    + rewrite list_lookup_alter_eq, Hi in Hj. simplify_eq/=. lia.
    + rewrite list_lookup_alter_ne in Hj by done. by eapply Hn.
  - destruct Hs as (-> & Hg & Hn), Hr as [-> Hr]. split; [done|]. split; [apply Forall_app; split; [done|]; by apply Forall_singleton|].
    rewrite length_app. cbn. lia.
Qed.
Lemma room_counts b s c : size_ok b → room b s → m_subGroupsCounts b = Some c → is_Some (c !! Z.to_nat s).
Proof.
  intros Hs Hr%room_range Hc. unfold size_ok, sizes_ok in Hs. destruct (isRaidGroup b), Hs as [Hs _]; [|congruence].
  rewrite Hs in Hc. simplify_eq. apply lookup_lt_is_Some. rewrite sub_counts_length. lia.
Qed.
(** A group that is complete is linked like any other. *)
Lemma links_built g b sh :
  links (Some g) sh → sh_groups sh !! g = Some b → m_memberSlots b ≠ [] → size_ok b →
  (stored_group b = true → sh_store sh !! Z.to_nat (m_dbStoreId b) = Some (Some g)) → links None sh.
Proof.
  intros [[R1 R2 R3] [I1 I2 I3] [G1 G2 G3 G4 G5 G6 G7]] Hg Hne Hsz Hst.
  assert (∀ g' b', sh_groups sh !! g' = Some b' → (g' = g ∧ b' = b) ∨ Some g ≠ Some g') as Hc.
  { intros g' b' Hb'. destruct (decide (g' = g)) as [->|]; [left; split; [done|congruence]|right; congruence]. }
  split; split; try done.
  - intros g' b' Hb' _ He. destruct (Hc g' b' Hb') as [[-> ->]|]; [done|by eapply R3].
  - intros g' b' Hb' _ He. destruct (Hc g' b' Hb') as [[-> ->]|]; [done|by eapply I3].
  - intros g' b' Hb' _. destruct (Hc g' b' Hb') as [[-> ->]|]; [done|by eapply G1].
  - intros g' b' Hb' _ He. destruct (Hc g' b' Hb') as [[-> ->]|]; [done|by eapply G2].
  - intros g' b' Hb' _ He Hs. destruct (Hc g' b' Hb') as [[-> ->]|]; [by apply Hst|by eapply G3].
  - intros i g' Hi. destruct (G4 i g' Hi) as (b' & Hb' & ? & ? & ? & ?). exists b'. repeat split; try done. intros _.
    destruct (Hc g' b' Hb') as [[-> ->]|]; auto.
Qed.
(** *** References to a group *)

Section Linking.
Context (x : option Z) (sh0 : shape).

(** References to [g] may be made. *)
Definition linkable (g : Z) : Prop := x = Some g ∨ ∃ b, sh_groups sh0 !! g = Some b ∧ m_memberSlots b ≠ [].
Lemma linkable_in sh g : reg_view sh = reg_view sh0 → g_in g sh → linkable g →
  ∃ b, sh_groups sh !! g = Some b ∧ (x = Some g ∨ m_memberSlots b ≠ []).
Proof.
  intros [= V _ _ _] [b Hb] Hl. exists b. split; [done|]. destruct Hl as [->|(b0 & Hb0 & Hne)]; [by left|]. right.
  destruct (fmap_eq_lookup _ _ _ _ _ _ V Hb) as (b1 & Hb1 & E). congruence.
Qed.
(** A world like [sh0], but for references; [p] points to [g]. *)
Definition joined (g p : Z) (w : GroupWorld) : Prop :=
  ∃ sh l k, at_shape sh w ∧ links x sh ∧ reg_view sh = reg_view sh0 ∧ inv_view sh = inv_view sh0 ∧
    sh_players sh !! p = Some l ∧ l_ref k l = Some g.
Lemma joined_relinked g p w : joined g p w → relinked x sh0 w.
Proof. intros (sh & l & k & Hw & L & V1 & V2 & _). by exists sh. Qed.
Lemma keeps_joined {A} g p (m : gact A) :
  (∀ sh, links x sh → (∀ g, g_in g sh0 → g_in g sh) → (∀ p, p_in p sh0 → p_in p sh) → keeps (at_shape sh) m) →
  keeps (joined g p) m.
Proof.
  intros Hm w (sh & l & k & Hw & L & V1 & V2 & Hl). eapply wp_mono; [eapply Hm; [done| | |done]|].
  - intros g'. by apply g_in_view.
  - intros p'. by apply p_in_view.
  - intros a w' t Hw'. by exists sh, l, k.
Qed.
Lemma sh_link_ref k g p sh l : sh_players sh !! p = Some l →
  ∃ l', sh_players (sh_link k g p sh) !! p = Some l' ∧ l_ref k l' = Some g.
Proof.
  intros Hp. assert (is_Some (sh_players (sh_unlink k p sh) !! p)) as [l1 Hl1].
  { unfold sh_unlink. rewrite Hp. cbn. destruct (l_ref k l); cbn; [|by eexists]. rewrite lookup_alter_eq, Hp. by eexists. }
  exists (set_l_ref k (Some g) l1). split; [|by rewrite l_ref_set, decide_True].
  cbn. rewrite (alter_at _ _ _ _ _ Hl1). by rewrite decide_True.
Qed.
(** [m] makes [p] point to [g]. *)
Definition joins (g p : Z) (m : gact unit) : Prop := ∀ w, relinked x sh0 w → wp m (λ _ w' _, joined g p w') w.
Lemma joins_link k g p : g_in g sh0 → p_in p sh0 → linkable g → joins g p (link k g p).
Proof.
  intros Hg Hp Hl w (sh & Hw & L & V1 & V2).
  destruct (linkable_in sh g V1) as (b & Hb & Hc); [by eapply g_in_view|done|].
  assert (p_in p sh) as Hp1 by by eapply p_in_view.
  eapply wp_link; [done|apply L|done..|]. intros w1 Hw1. destruct Hp1 as [l Hpl]. destruct (sh_link_ref k g p sh l Hpl) as (l' & Hl' & Hk).
  exists (sh_link k g p sh), l', k. split; [done|]. rewrite reg_view_link, inv_view_link. split; [|done]. by eapply links_link; [..|eexists|].
Qed.
Lemma joins_keeps g p m : joins g p m → keeps (relinked x sh0) m.
Proof. intros Hj w Hw. eapply wp_mono; [by apply Hj|]. intros [] w' t. apply joined_relinked. Qed.
Lemma joins_before g p (m m' : gact unit) : keeps (relinked x sh0) m → joins g p m' → joins g p (m ;; m').
Proof.
  intros Hm Hj w Hw. apply wp_bind. eapply wp_mono; [by apply Hm|]. intros [] w1 t1 Hw1. eapply wp_mono; [by apply Hj|done].
Qed.
Lemma joins_then g p (m m' : gact unit) : joins g p m → keeps (joined g p) m' → joins g p (m ;; m').
Proof.
  intros Hj Hm w Hw. apply wp_bind. eapply wp_mono; [by apply Hj|]. intros [] w1 t1 Hw1. eapply wp_mono; [by apply Hm|done].
Qed.
Lemma i8_small s : 0 <= s < 128 → (i8 s <? 0) = false ∧ u8 (i8 s) = s.
Proof.
  intros Hs. assert (i8 s = s) as E by (apply wraps_id; [done|]; lia). rewrite E. split; [apply Z.ltb_ge; lia|].
  apply wrapu_id. lia.
Qed.
Lemma joins_link_sub k g p s : g_in g sh0 → p_in p sh0 → linkable g → 0 <= s < 128 →
  joins g p (link k g p ;; setSubGroup k p s).
Proof.
  intros. apply joins_then; [by apply joins_link|]. apply keeps_joined. intros sh _ _ Hp. apply keeps_setSubGroup; auto.
Qed.
Lemma joins_SetGroup g p s : g_in g sh0 → p_in p sh0 → linkable g → 0 <= s < 128 → joins g p (SetGroup p (Some g) s).
Proof.
  intros Hg Hp Hl Hs. unfold SetGroup. destruct (i8_small s Hs) as [-> ->].
  apply joins_then; [by apply joins_link_sub|]. apply keeps_emit.
Qed.
Lemma joins_SetOriginalGroup g p s : g_in g sh0 → p_in p sh0 → linkable g → 0 <= s < 128 →
  joins g p (SetOriginalGroup p (Some g) s).
Proof. intros Hg Hp Hl Hs. unfold SetOriginalGroup. destruct (i8_small s Hs) as [-> ->]. by apply joins_link_sub. Qed.
Lemma joins_SetBattleground g p s : g_in g sh0 → p_in p sh0 → linkable g → 0 <= s < 128 →
  joins g p (SetBattlegroundOrBattlefieldRaid p g s).
Proof.
  intros Hg Hp Hl Hs w (sh & Hw & L & V1 & V2). unfold SetBattlegroundOrBattlefieldRaid. apply wp_bind.
  eapply wp_player_of; [done|by eapply p_in_view|]. intros pl Hpl Hb Hdet.
  assert (keeps (relinked x sh0) (SetOriginalGroup p (GetGroup pl) (GetSubGroup pl))) as K.
  { destruct (GetGroup pl) as [g'|] eqn:Eg; [|by apply keeps_SetOriginalGroup_None].
    eapply joins_keeps, joins_SetOriginalGroup; [by eapply ref_g_in|done| |apply Hdet].
    destruct (k_ref _ _ (k_refs _ _ L) p _ RGroup g' Hb Eg) as (b' & Hb' & Hin).
    destruct (has_members x g' b' RGroup p sh) as [?|Hne]; [apply L|done..|by left|]. right.
    injection V1 as V _ _ _. destruct (fmap_eq_lookup _ _ _ _ _ _ V Hb') as (b1 & Hb1 & E). exists b1. split; [done|congruence]. }
  assert (joins g p (SetOriginalGroup p (GetGroup pl) (GetSubGroup pl) ;; unlink RGroup p ;;
    link RGroup g p ;; setSubGroup RGroup p (u8 (i8 s)))) as K'.
  { apply joins_before; [done|]. apply joins_before; [by apply keeps_unlink|].
    destruct (i8_small s Hs) as [_ ->]. by apply joins_link_sub. }
  eapply wp_mono; [apply K'; by exists sh|done].
Qed.
End Linking.
(** *** A member joins *)

Lemma wp_inside {A B} x sh0 g p (m : gact A) (f : A → gact B) (Q : B → GroupWorld → Prop) w :
  joined x sh0 g p w →
  (∀ sh, links x sh → (∀ g, g_in g sh0 → g_in g sh) → (∀ p, p_in p sh0 → p_in p sh) → keeps (at_shape sh) m) →
  (∀ a w', joined x sh0 g p w' → wp (f a) (λ b w'' _, Q b w'') w') → wp (m ≫= f) (λ b w'' _, Q b w'') w.
Proof. intros Hw Hm Hf. refine (wp_then _ _ _ _ _ Hw _ Hf). by apply keeps_joined. Qed.
Lemma no_inv_same p l sh : sh_players sh !! p = Some l → l_invite l = None → on_sh_player p no_inv sh = sh.
Proof.
  intros Hp Hi. apply shape_eq; try done. cbn. apply map_eq. intros q. destruct (decide (p = q)) as [<-|Hne].
  - rewrite lookup_alter_eq, Hp. cbn. f_equal. destruct l. cbn in *. by subst.
  - by rewrite lookup_alter_ne.
Qed.
Lemma joined_built g p b sh w :
  joined (Some g) sh g p w → sh_groups sh !! g = Some b → m_memberSlots b ≠ [] → size_ok b →
  (stored_group b = true → sh_store sh !! Z.to_nat (m_dbStoreId b) = Some (Some g)) → joined None sh g p w.
Proof.
  intros (sh' & l & k & Hw & L & V1 & V2 & Hp & Hk) Hg Hne Hsz Hst. exists sh', l, k. split; [done|]. split; [|done].
  pose proof V1 as [= V Vs _ _]. destruct (fmap_eq_lookup _ _ _ _ _ _ (eq_sym V) Hg) as (b' & Hb' & E).
  injection E as E1 E2 E3 E4 E5 E6. apply (links_built g b'); [done..|congruence| |].
  - unfold size_ok, isRaidGroup in *. by rewrite <- E1, <- E2, <- E5.
  - rewrite Vs, <- E6. intros Hs. apply Hst. unfold stored_group, isBGGroup, isBFGroup in *. by rewrite E3, E4.
Qed.
Lemma append_slot_links g p s sh : links (Some g) sh → links (Some g) (on_sh_group g (push p s) sh).
Proof. intros L. by apply links_on_group. Qed.

Lemma keeps_hello sh g p : g_in g sh → p_in p sh → ∀ (gr : Group) (pl : Player), group_det gr →
  keeps (at_shape sh) (when (LEVELREQUIREMENT_HEROIC <=? getLevel pl)
    (when (negb (GetDungeonDifficulty pl =? m_dungeonDifficulty gr))
       (on_player p (λ pl, pl <| GetDungeonDifficulty := m_dungeonDifficulty gr |>) ;; emit (SendDungeonDifficulty p)) ;;
     when (negb (GetRaidDifficulty pl =? m_raidDifficulty gr))
       (on_player p (λ pl, pl <| GetRaidDifficulty := m_raidDifficulty gr |>) ;; emit (SendRaidDifficulty p)))).
Proof.
  intros Hg Hp gr pl [_ _ Hd Hr]. apply keeps_when. apply keeps_bind; [|intros _]; apply keeps_when;
    (apply keeps_bind; [|intros; apply keeps_emit]); apply keeps_group_player; try done; intros ? []; by split.
Qed.
Lemma wp_group_AddMember sh w g b p l :
  at_shape sh w → links (Some g) sh → sh_groups sh !! g = Some b → size_ok b → IsFull b = false →
  (stored_group b = true → sh_store sh !! Z.to_nat (m_dbStoreId b) = Some (Some g)) →
  sh_players sh !! p = Some l → l_invite l = None →
  wp (AddMember g p) (λ ok w' _, ok = true ∧ ∃ s, free_subgroup b = Some s ∧ room b s ∧ joined None (on_sh_group g (push p s) sh) g p w') w.
Proof.
  intros Hw L Hg Hsz Hf Hst Hp Hi. destruct (free_subgroup_room b Hsz Hf) as (s & Hs & Hr). pose proof (room_range b s Hr) as Hs8. pose proof Hs as Hs0.
  unfold AddMember. apply wp_bind. eapply wp_deref; [done|by eexists|]. intros gr Hgr Hb Hdet.
  apply wp_bind. eapply wp_player_of; [done|by eexists|]. intros pl Hpl Hbp Hdetp.
  assert (b = blur gr) as -> by congruence. change (free_subgroup (blur gr)) with (free_subgroup gr) in Hs. rewrite Hs.
  apply wp_bind. eapply wp_on_group with (f' := append_slot p s); [done|by eexists| |by intros ? _ []|by intros; left|].
  { intros gr' _. unfold blur, append_slot, setf. cbn. by rewrite fmap_app. }
  intros w1 Hw1 _. apply wp_bind. unfold SubGroupCounterIncrease.
  eapply wp_SubGroupCounter; [done|by apply alter_at|rewrite decide_True by done; intros c; by apply (room_counts (blur gr))|].
  intros w2 Hw2. rewrite on_sh_group_comp in Hw2. change (_ ∘ _) with (push p s) in Hw2.
  set (sh2 := on_sh_group g (push p s) sh) in *.
  assert (links (Some g) sh2) as L2 by by apply append_slot_links.
  assert (sh_groups sh2 !! g = Some (push p s (blur gr))) as Hg2.
  { cbn. rewrite (alter_at _ _ _ _ _ Hg). by rewrite decide_True. }
  assert (p_in p sh2 ∧ g_in g sh2) as [Hp2 Hgi2] by by split; eexists.
  apply wp_bind. eapply wp_SetGroupInvite; [done..|]. intros w3 Hw3. fold no_inv in Hw3.
  change (on_sh_player p _ sh2) with (on_sh_player p no_inv sh2) in Hw3. rewrite (no_inv_same p l) in Hw3 by done.
  apply wp_mono with (P := λ ok w' _, ok = true ∧ joined (Some g) sh2 g p w').
  2:{ intros ok w' t [-> Hw']. split; [done|]. exists s. split; [done|]. split; [done|]. eapply joined_built; [done..| | |done].
      - cbn. by destruct (blur_slot <$> m_memberSlots gr).
      - by apply sizes_push. }
  assert (linkable (Some g) sh2 g) as Hl by by left. assert (0 <= s < 128) as Hs128 by lia.
  assert (relinked (Some g) sh2 w3) as Hr3 by by apply relinked_here.
  apply wp_bind. apply wp_mono with (P := λ _ w' _, joined (Some g) sh2 g p w').
  { destruct (bool_decide _); [destruct (stored_group gr)|];
      [by apply joins_SetOriginalGroup|by apply joins_SetBattleground|by apply joins_SetGroup]. }
  intros [] w4 t4 Hj4. apply wp_bind. pose proof Hj4 as (sh4 & l4 & k4 & Hw4 & L4 & V1 & V2 & _).
  eapply wp_mono; [eapply wp_GetBoundInstance_player; [done|by eapply g_in_view|by eapply p_in_view]|].
  intros bd w5 t5 [-> Hbd]. clear sh4 l4 k4 Hw4 L4 V1 V2.
  apply wp_inside with (x := Some g) (sh0 := sh2) (g := g) (p := p); [done| |].
  { intros sh' _ _ _. destruct bd as [bd|]; [|apply keeps_ret]. apply keeps_group_require; [by apply Hbd|]. intros. keep_shape. }
  intros [] w6 Hw6. apply wp_inside with (x := Some g) (sh0 := sh2) (g := g) (p := p); [done| |].
  { intros sh' _ Hg' _. apply keeps_when, keeps_on_group; [by apply Hg'|done|by intros ? []|done]. }
  intros [] w7 Hw7. do 3 (apply wp_inside with (x := Some g) (sh0 := sh2) (g := g) (p := p); [done|intros; keep_shape; eauto with shape|]; clear dependent w7; intros [] w7 Hw7).
  apply wp_inside with (x := Some g) (sh0 := sh2) (g := g) (p := p); [done| |].
  { intros sh' _ Hg' Hp'. apply keeps_when. do 2 (apply keeps_bind; [apply keeps_emit|intros _]). apply (keeps_hello _ g); [by apply Hg'|by apply Hp'|done]. }
  intros [] w8 Hw8. do 4 (apply wp_inside with (x := Some g) (sh0 := sh2) (g := g) (p := p); [done|intros; keep_shape; eauto with shape|]; clear dependent w8; intros [] w8 Hw8).
  apply wp_inside with (x := Some g) (sh0 := sh2) (g := g) (p := p); [done| |by intros [] w9 Hw9; apply wp_ret].
  intros sh' _ Hg' _. apply keeps_on_group; [by apply Hg'|done|by intros ? []|done].
Qed.
(** ** Leaders *)

(** Worlds with the same groups and invitations as [sh0], but for who leads. *)
Definition steady (sh0 : shape) (w : GroupWorld) : Prop :=
  ∃ sh, at_shape sh w ∧ links None sh ∧ reg_view sh = reg_view sh0 ∧ l_invite <$> sh_players sh = l_invite <$> sh_players sh0.
Lemma relinked_steady sh w : relinked None sh w → steady sh w.
Proof. intros (sh' & Hw & L & V1 & [= _ V2]). by exists sh'. Qed.
Lemma steady_here sh w : at_shape sh w → links None sh → steady sh w.
Proof. by exists sh. Qed.
Lemma players_in p sh sh0 : l_invite <$> sh_players sh = l_invite <$> sh_players sh0 → p_in p sh0 → p_in p sh.
Proof. intros V [l Hl]. destruct (fmap_eq_lookup _ _ _ _ _ _ (eq_sym V) Hl) as (l' & Hl' & _). by exists l'. Qed.
Lemma keeps_steady {A} sh0 (m : gact A) :
  (∀ sh, links None sh → reg_view sh = reg_view sh0 → (∀ g, g_in g sh0 → g_in g sh) → (∀ p, p_in p sh0 → p_in p sh) →
    keeps (at_shape sh) m) → keeps (steady sh0) m.
Proof.
  intros Hm w (sh & Hw & L & V1 & V2). eapply wp_mono; [eapply Hm; [done..| | |done]|].
  - intros g. by apply g_in_view.
  - intros p. by apply players_in.
  - intros a w' t Hw'. by exists sh.
Qed.

Lemma on_sh_group_at g f b sh : sh_groups sh !! g = Some b → sh_groups (on_sh_group g f sh) !! g = Some (f b).
Proof. intros Hg. cbn. rewrite (alter_at _ _ _ _ _ Hg). by rewrite decide_True. Qed.
Definition lead (p : Z) (b : Group) : Group := b <| m_leaderGuid := p |>.
Lemma links_lead g p b sh : links None sh → sh_groups sh !! g = Some b → m_memberSlots b ≠ [] → links None (on_sh_group g (lead p) sh).
Proof.
  intros L Hg Hne. apply (links_built g (lead p b)).
  - apply links_on_group; [by apply links_weaken|]. intros b' Hb'. done.
  - by apply on_sh_group_at.
  - done.
  - apply (k_size _ _ (k_regs _ _ L) g b Hg). done.
  - apply (k_created _ _ (k_regs _ _ L) g b Hg); done.
Qed.
Lemma wp_lead sh w g b p (Q : unit → GroupWorld → list group_event → Prop) n :
  at_shape sh w → sh_groups sh !! g = Some b →
  (∀ w', at_shape (on_sh_group g (lead p) sh) w' → Q tt w' []) →
  wp (on_group g (λ gr, gr <| m_leaderGuid := p |> <| m_leaderName := n |>)) Q w.
Proof.
  intros Hw Hg HQ. eapply wp_on_group with (f' := lead p); [done|by eexists|done|by intros ? _ []|by intros; left|].
  intros w' Hw' _. by apply HQ.
Qed.
Lemma wp_SaveRemoveGroups sh g (l : list (gmap Z InstanceGroupBind)) : Forall binds_ok l →
  keeps (at_shape sh) (forM_ (l ≫= λ binds, hash_iter binds) (λ mb,
    when (perm mb.2) (s ← require (save mb.2); emit (SaveRemoveGroup s g)))).
Proof.
  intros Hl. apply keeps_forM. intros [m x] Hx. apply list_elem_of_bind in Hx as (b & Hx & Hb). apply hash_iter_elem in Hx.
  apply keeps_when. rewrite Forall_forall in Hl. apply keeps_group_require; [by eapply (Hl b)|]. intros. apply keeps_emit.
Qed.
Definition leads (guid : Z) (gr : Group) (w : GroupWorld) : bool :=
  bool_decide (is_Some (_getMemberSlot guid gr)) && is_online guid w.
Lemma wp_ChangeLeader sh w g gr guid : at_shape sh w → groups w !! g = Some gr →
  wp (ChangeLeader g guid) (λ _ w' _, at_shape (if leads guid gr w then on_sh_group g (lead guid) sh else sh) w') w.
Proof.
  intros Hw Hgr0. pose proof (at_group_blur _ _ _ _ Hw Hgr0) as Hg0. assert (g_in g sh) as Hg by by eexists.
  unfold ChangeLeader, leads, is_online. apply wp_bind, wp_get, wp_bind. eapply wp_deref; [done..|]. intros gr' Hgr Hb Hdet.
  assert (gr' = gr) as -> by congruence. clear Hgr.
  destruct (_getMemberSlot guid gr) as [slot|] eqn:Es; [|by apply wp_ret].
  destruct (FindPlayer guid w) as [pl|] eqn:Ef; [|by apply wp_ret].
  rewrite !bool_decide_true by by eexists. cbn [andb].
  destruct (FindPlayer_in _ _ _ _ Hw Ef) as (_ & _ & Hp).
  apply wp_bind, wp_emit. apply (wp_then (at_shape sh)); [done| |].
  { apply keeps_when. apply keeps_bind; [keep_shape|intros _]. apply keeps_bind; [apply wp_SaveRemoveGroups, Hdet|intros _].
    apply keeps_bind; [|intros _; keep_shape]. apply keeps_on_group; [done|done| |done].
    intros gr' []. split; cbn; [by rewrite length_fmap| |done..]. apply Forall_fmap. eapply Forall_impl; [exact gd_binds|].
    intros b Hok m x [Hx _]%map_lookup_filter_Some. by eapply Hok. }
  intros [] w1 Hw1. apply wp_bind. eapply wp_lead; [done..|]. intros w2 Hw2.
  assert (g_in g (on_sh_group g (lead guid) sh)) as Hg2 by by apply on_sh_group_in.
  apply (wp_then (at_shape (on_sh_group g (lead guid) sh))); [done|by apply keeps_ToggleGroupMemberFlag|].
  intros [] w3 Hw3. by eapply keeps_group_BroadcastPacket.
Qed.
Lemma leads_members guid gr w : leads guid gr w = true → m_memberSlots (blur gr) ≠ [].
Proof.
  unfold leads. intros [Hs _]%andb_true_iff. apply bool_decide_eq_true in Hs as [s Hs]. cbn.
  unfold _getMemberSlot in Hs. apply head_Some_elem_of, list_elem_of_filter in Hs as [_ Hin].
  by destruct (m_memberSlots gr); [apply elem_of_nil in Hin|].
Qed.
Lemma keeps_ChangeLeader sh0 g guid : g_in g sh0 → keeps (steady sh0) (ChangeLeader g guid).
Proof.
  intros Hg0 w (sh & Hw & L & V1 & V2). assert (g_in g sh) as Hg by by eapply g_in_view.
  destruct (at_group _ _ _ Hw Hg) as [gr Hgr]. eapply wp_mono; [by eapply wp_ChangeLeader|]. intros [] w' t Hw'.
  destruct (leads guid gr w) eqn:E; [|by exists sh]. eexists. split; [exact Hw'|].
  split; [eapply links_lead; [done|by eapply at_group_blur|by eapply leads_members]|]. split; [|done]. by rewrite reg_view_group.
Qed.
Lemma keeps_succeed_leader sh0 g guid : g_in g sh0 → keeps (steady sh0) (succeed_leader g guid).
Proof.
  intros Hg w Hw. unfold succeed_leader. apply wp_bind, wp_get. destruct Hw as (sh & Hw & L & V1 & V2). apply wp_bind.
  eapply wp_deref; [done|by eapply g_in_view|]. intros gr _ _ _. apply wp_when; [intros _|intros _; by exists sh].
  destruct (List.find _ _) as [s|]; [|by apply wp_ret; exists sh].
  eapply wp_mono; [by apply keeps_ChangeLeader; [|exists sh]|]. by intros [] w' t Hw'.
Qed.
(** ** Leaving *)

(** A linked world, later than [sh0]. *)
Definition linked (sh0 : shape) (w : GroupWorld) : Prop := ∃ sh, at_shape sh w ∧ links None sh ∧ mono sh0 sh.
Lemma linked_here sh w : at_shape sh w → links None sh → linked sh w.
Proof. by exists sh. Qed.
Lemma linked_mono sh0 sh w : mono sh0 sh → linked sh w → linked sh0 w.
Proof. intros M (sh' & Hw & L & M'). exists sh'. split; [done|]. split; [done|]. by etrans. Qed.
Lemma mono_invites sh sh' : l_invite <$> sh_players sh' = l_invite <$> sh_players sh → mono sh sh'.
Proof.
  intros V p l Hl. destruct (fmap_eq_lookup _ _ _ _ _ _ (eq_sym V) Hl) as (l' & Hl' & E). exists l'. split; [done|congruence].
Qed.
Lemma mono_group g f sh : mono sh (on_sh_group g f sh).
Proof. by apply mono_invites. Qed.
Lemma steady_linked sh w : steady sh w → linked sh w.
Proof. intros (sh' & Hw & L & V1 & V2). exists sh'. split; [done|]. split; [done|]. by apply mono_invites. Qed.
Lemma gone_linked g sh w : gone g sh w → linked sh w.
Proof. intros (sh' & Hw & L & M & _). by exists sh'. Qed.
(** The slots of a group in a later world with the same members. *)
Lemma view_slots sh sh' g b : reg_view sh' = reg_view sh → sh_groups sh !! g = Some b →
  ∃ b', sh_groups sh' !! g = Some b' ∧ m_memberSlots b' = m_memberSlots b ∧ m_groupType b' = m_groupType b.
Proof.
  intros [= V _ _ _] Hg. destruct (fmap_eq_lookup _ _ _ _ _ _ (eq_sym V) Hg) as (b' & Hb' & E). exists b'. split; [done|].
  by injection E.
Qed.

Lemma links_drop g guid b sh : links None sh → sh_groups sh !! g = Some b → m_memberSlots (drop_slot guid b) ≠ [] →
  links None (on_sh_group g (drop_slot guid) sh).
Proof.
  intros L Hg Hne. assert (m_memberSlots b ≠ []) as Hb.
  { intros He. apply Hne. unfold drop_slot. by rewrite He. }
  destruct (drop_slot_rest guid b) as (E1 & E2 & E3 & E4 & E5 & E6 & E7).
  apply (links_built g (drop_slot guid b)); [|by apply on_sh_group_at|done|..].
  - apply links_on_group; [by apply links_weaken|]. intros b' _. destruct (drop_slot_rest guid b') as (-> & -> & _ & _ & F5 & F6 & ->).
    split; [done|]. split; [done|]. split; [done|]. unfold stored_group, isBGGroup, isBFGroup. by rewrite F5, F6.
  - apply size_drop, (k_size _ _ (k_regs _ _ L) g b Hg). done.
  - cbn [sh_store on_sh_group setf]. unfold stored_group, isBGGroup, isBFGroup. rewrite E5, E6, E7. intros Hs.
    by apply (k_created _ _ (k_regs _ _ L) g b Hg).
Qed.
Lemma wp_Disband_steady sh w g b hide : steady sh w → sh_groups sh !! g = Some b → m_memberSlots b ≠ [] →
  wp (Disband g hide) (λ _ w' _, linked sh w') w.
Proof.
  intros (sh' & Hw & L & V1 & V2) Hg Hne. destruct (view_slots sh sh' g b V1 Hg) as (b' & Hb' & E & _).
  eapply wp_mono; [eapply wp_group_Disband; [done..|congruence]|]. intros [] w' t Hw'.
  eapply linked_mono; [by apply mono_invites|]. by eapply gone_linked.
Qed.
Lemma wp_RemoveMember sh w g b guid method kicker reason :
  at_shape sh w → links None sh → sh_groups sh !! g = Some b → m_memberSlots b ≠ [] →
  wp (RemoveMember g guid method kicker reason) (λ _ w' _, linked sh w') w.
Proof.
  intros Hw L Hg Hne. assert (g_in g sh) as Hgi by by eexists. unfold RemoveMember.
  apply (wp_then (at_shape sh)); [done|by apply keeps_BroadcastGroupUpdate|]. intros [] w0 Hw0. apply wp_bind, wp_emit, wp_bind.
  eapply wp_deref; [done..|]. intros gr Hgr Hb _. assert (b = blur gr) as -> by congruence.
  assert (size_ok (blur gr)) as Hsz by (by apply (k_size _ _ (k_regs _ _ L) g)).
  destruct (isLFGGroup gr && _); [by apply wp_ret, linked_here|].
  set (needed := if negb (stored_group gr) || isLFGGroup gr then 1 else 2). destruct (Z.ltb_spec needed (GetMembersCount gr)) as [Hc|_].
  2:{ apply wp_bind. eapply wp_mono; [by eapply wp_Disband_steady; [apply steady_here|..]|]. intros [] w1 t1 Hw1. by apply wp_ret. }
  rewrite <- blur_count, members_count in Hc by done.
  assert (1 < Z.of_nat (length (m_memberSlots (blur gr)))) as Hlen by (unfold needed in Hc; destruct (_ || _); lia). clear needed Hc.
  apply wp_bind, wp_get. apply (wp_then (relinked None sh)); [by apply relinked_here| |].
  { destruct (FindPlayer guid w0) as [pl|] eqn:Ef; [|apply keeps_ret].
    destruct (FindPlayer_in _ _ _ _ Hw0 Ef) as (_ & _ & Hp). by apply keeps_remove_online. }
  intros [] w1 Hw1. apply (wp_then (relinked None sh)); [done| |].
  { apply keeps_when, keeps_bind; [apply keeps_emit|]. intros _. by apply keeps_DelinkMember. }
  clear dependent w1. intros [] w1 Hw1. apply (wp_then (relinked None sh)); [done| |].
  { apply keeps_when, keeps_relinked. intros sh' _ V _. by apply keeps_ResetMaxEnchantingLevel; eapply g_in_view. }
  clear dependent w1. intros [] w1 (sh1 & Hw1 & L1 & V1 & V2). assert (g_in g sh1) as Hg1 by by eapply g_in_view.
  apply wp_bind. eapply wp_deref; [done..|]. intros gr1 _ Hb1 _.
  apply (wp_then (at_shape sh1)); [done|apply keeps_forM; intros; by apply keeps_remove_from_roll|]. intros [] w2 Hw2.
  destruct (view_slots sh sh1 g _ V1 Hg) as (b1 & Hb1' & Es & _). assert (b1 = blur gr1) as -> by congruence.
  assert (m_memberSlots (drop_slot guid (blur gr1)) ≠ []) as Hne1.
  { pose proof (drop_slot_length guid (blur gr1)) as Hd. rewrite Es in Hd. intros He. rewrite He in Hd. cbn [length] in Hd. lia. }
  apply wp_bind. eapply wp_remove_slot; [done..|by apply (k_size _ _ (k_regs _ _ L1) g)|]. intros w3 Hw3.
  set (sh2 := on_sh_group g (drop_slot guid) sh1) in *.
  assert (links None sh2) as L2 by by eapply links_drop.
  assert (mono sh sh2) as M2 by (etrans; [by eapply mono_view|apply mono_group]).
  assert (g_in g sh2) as Hg2 by by apply on_sh_group_in.
  assert (sh_groups sh2 !! g = Some (drop_slot guid (blur gr1))) as Hs2 by by apply on_sh_group_at.
  apply wp_mono with (P := λ _ w' _, linked sh2 w'); [|intros ? ? ?; by apply linked_mono].
  apply (wp_then (steady sh2)); [by apply steady_here|by apply keeps_succeed_leader|]. intros [] w4 Hw4.
  apply (wp_then (steady sh2)); [done|apply keeps_steady; intros; apply keeps_SendUpdate; auto|].
  clear dependent w4. intros [] w4 Hw4. apply wp_bind, wp_get, wp_bind. destruct Hw4 as (sh4 & Hw4 & L4 & V4 & V5).
  eapply wp_deref; [done|by eapply g_in_view|]. intros gr4 _ _ _.
  assert (steady sh2 w4) as St by by exists sh4.
  destruct (_ && _ && _).
  - apply wp_bind. eapply wp_mono; [by eapply wp_Disband_steady|]. intros [] w5 t5 Hw5. by apply wp_ret.
  - apply wp_bind. apply wp_mono with (P := λ _ w' _, linked sh2 w').
    + apply wp_when; intros _; [by eapply wp_Disband_steady|by apply steady_linked].
    + intros [] w5 t5 Hw5. by apply wp_ret.
Qed.
Lemma wp_RemoveFromGroup sh w g b guid method kicker reason :
  at_shape sh w → links None sh → sh_groups sh !! g = Some b → m_memberSlots b ≠ [] →
  wp (RemoveFromGroup (Some g) guid method kicker reason) (λ _ w' _, linked sh w') w.
Proof.
  intros Hw L Hg Hne. unfold RemoveFromGroup. apply wp_bind. eapply wp_mono; [by eapply wp_RemoveMember|].
  intros ok w' t Hw'. by apply wp_ret.
Qed.
(** ** Sub-groups and raids *)

Definition move_slot (i : nat) (s : Z) (b : Group) : Group :=
  b <| m_memberSlots ::= alter (λ sl, sl <| MemberSlot.group := s |>) i |>.
Definition move (i : nat) (from to : Z) (b : Group) : Group :=
  count_sub (λ n, n - 1) from (count_sub (λ n, n + 1) to (move_slot i to b)).

Lemma delete_alter {A} (f : A → A) (i : nat) (l : list A) : delete i (alter f i l) = delete i l.
Proof.
  apply list_eq. intros j. rewrite !list_lookup_delete. case_decide; rewrite list_lookup_alter_ne; try done; lia.
Qed.
Lemma sizes_move l i s to : l !! i = Some s → MemberSlot.group s ≠ to → 0 <= to < MAX_RAID_SUBGROUPS →
  in_subgroup to l < MAXGROUPSIZE → sizes_ok true (Some (sub_counts l)) l →
  let l' := alter (λ sl, sl <| MemberSlot.group := to |>) i l in
  sizes_ok true (Some (alter (λ n, u8 (n - 1)) (Z.to_nat (MemberSlot.group s))
    (alter (λ n, u8 (n + 1)) (Z.to_nat to) (sub_counts l)))) l'.
Proof.
  intros Hi Hne Hto Hroom (_ & Hg & Hn) l'. pose proof (delete_Permutation _ _ _ Hi) as Hp.
  assert (l' !! i = Some (s <| MemberSlot.group := to |>)) as Hi' by (unfold l'; by rewrite list_lookup_alter_eq, Hi).
  pose proof (delete_Permutation _ _ _ Hi') as Hp'. unfold l' in Hp' at 2. rewrite delete_alter in Hp'.
  set (l0 := delete i l) in *. pose proof (sub_counts_perm _ _ Hp) as E. pose proof (sub_counts_perm _ _ Hp') as E'.
  rewrite Hp in Hg. apply Forall_cons in Hg as [Hs Hg0].
  rewrite sub_counts_cons in E by done. rewrite sub_counts_cons in E' by done. cbn [MemberSlot.group setf] in E'.
  rewrite (in_subgroup_perm _ _ _ Hp), in_subgroup_cons, decide_False in Hroom by done.
  rewrite E in Hn. unfold sizes_ok. rewrite E, E'. change (MemberSlot.group (s <| MemberSlot.group := to |>)) with to.
  change MAX_RAID_SUBGROUPS with 8 in *. change MAXGROUPSIZE with 5 in *. set (from := MemberSlot.group s) in *.
  assert (∀ k, 0 <= k < 8 → sub_counts l0 !! Z.to_nat k = Some (in_subgroup k l0)) as Hk.
  { intros k Hk. rewrite sub_counts_lookup by lia. by rewrite Z2Nat.id by lia. }
  pose proof (Hk from Hs) as Hf. pose proof (Hk to Hto) as Ht. pose proof (in_subgroup_nonneg from l0). pose proof (in_subgroup_nonneg to l0).
  assert (Z.to_nat from ≠ Z.to_nat to) as Hft by lia.
  assert (in_subgroup from l0 + 1 <= 5) as Hf5.
  { rewrite Forall_lookup in Hn. apply (Hn (Z.to_nat from)). by rewrite list_lookup_alter_eq, Hf. }
  split; [|split].
  - f_equal. apply list_eq. intros j. destruct (decide (Z.to_nat from = j)) as [<-|Hj].
    + rewrite list_lookup_alter_eq, !(list_lookup_alter_ne _ _ (Z.to_nat to)), list_lookup_alter_eq, Hf by done. cbn. f_equal.
      unfold u8, wrapu. rewrite Z.mod_small; lia.
    + rewrite list_lookup_alter_ne by done. destruct (decide (Z.to_nat to = j)) as [<-|Hj'].
      * rewrite !list_lookup_alter_eq, list_lookup_alter_ne, Ht by done. cbn. f_equal. unfold u8, wrapu. rewrite Z.mod_small; lia.
      * by rewrite !list_lookup_alter_ne.
  - rewrite Hp'. by apply Forall_cons.
  - apply Forall_lookup. intros j x Hx. destruct (decide (Z.to_nat to = j)) as [<-|Hj'].
    + rewrite list_lookup_alter_eq, Ht in Hx. simplify_eq/=. lia.
    + rewrite list_lookup_alter_ne in Hx by done. destruct (decide (Z.to_nat from = j)) as [<-|Hj].
      * rewrite Hf in Hx. simplify_eq. lia.
      * rewrite Forall_lookup in Hn. apply (Hn j). by rewrite list_lookup_alter_ne.
Qed.
Lemma head_filter {A} (P : A → Prop) `{∀ x, Decision (P x)} (l : list A) : head (filter P l) = snd <$> list_find P l.
Proof.
  induction l as [|x l IH]; [done|]. rewrite filter_cons. cbn [list_find]. destruct (decide (P x)); [done|].
  rewrite IH. by destruct (list_find P l) as [[]|].
Qed.
(** A group whose members changed, but not whether there are any. *)
Lemma links_resized g f b sh :
  links None sh → sh_groups sh !! g = Some b → m_memberSlots b ≠ [] → m_memberSlots (f b) ≠ [] → size_ok (f b) →
  (∀ b, m_memberMgr (f b) = m_memberMgr b ∧ m_invitees (f b) = m_invitees b ∧
    m_dbStoreId (f b) = m_dbStoreId b ∧ stored_group (f b) = stored_group b) → links None (on_sh_group g f sh).
Proof.
  intros L Hg Hne Hne' Hsz Hf. apply (links_built g (f b)); [|by apply on_sh_group_at|done..|].
  - apply links_on_group; [by apply links_weaken|]. intros b' _. apply Hf.
  - destruct (Hf b) as (_ & _ & -> & ->). intros Hs. by apply (k_created _ _ (k_regs _ _ L) g b Hg).
Qed.
Lemma wp_ChangeMembersGroup sh w g b guid to :
  at_shape sh w → links None sh → sh_groups sh !! g = Some b → m_memberSlots b ≠ [] → 0 <= to < MAX_RAID_SUBGROUPS →
  in_subgroup to (m_memberSlots b) < MAXGROUPSIZE →
  wp (ChangeMembersGroup g guid to) (λ _ w' _, linked sh w') w.
Proof.
  intros Hw L Hg Hne Hto Hroom. assert (size_ok b) as Hsz by (by apply (k_size _ _ (k_regs _ _ L) g)).
  unfold ChangeMembersGroup. apply wp_bind. eapply wp_deref; [done|by eexists|]. intros gr Hgr Hb _. assert (b = blur gr) as -> by congruence.
  destruct (isRaidGroup gr) eqn:Er; cbn [negb]; [|by apply wp_ret, linked_here].
  unfold _getMemberSlot. rewrite head_filter.
  destruct (list_find _ (m_memberSlots gr)) as [[i s]|] eqn:Ef; cbn [fmap option_fmap option_map snd]; [|by apply wp_ret, linked_here].
  pose proof Ef as (Hi & _ & _)%list_find_Some.
  destruct (Z.eqb_spec (MemberSlot.group s) to) as [|Hst]; [by apply wp_ret, linked_here|].
  assert (m_memberSlots (blur gr) !! i = Some (blur_slot s)) as Hbi by (cbn; by rewrite list_lookup_fmap, Hi).
  unfold size_ok in Hsz. change (isRaidGroup (blur gr)) with (isRaidGroup gr) in Hsz. rewrite Er in Hsz.
  pose proof Hsz as (Hc & Hall & _). change MAX_RAID_SUBGROUPS with 8 in *.
  assert (0 <= MemberSlot.group s < 8) as Hs8.
  { rewrite Forall_lookup in Hall. apply (Hall _ _ Hbi). }
  apply wp_bind. unfold on_slot. apply wp_bind. eapply wp_deref; [done|by eexists|]. intros gr' Hgr' _ _.
  assert (gr' = gr) as -> by congruence. rewrite Ef.
  eapply wp_on_group with (f' := move_slot i to); [done|by eexists| |by intros ? _ []|by intros; left|].
  { intros gr' _. unfold blur, move_slot, setf. cbn. f_equal. apply list_eq. intros j. rewrite list_lookup_fmap.
    destruct (decide (i = j)) as [<-|Hj].
    - rewrite !list_lookup_alter_eq, list_lookup_fmap. by destruct (m_memberSlots gr' !! i).
    - by rewrite !list_lookup_alter_ne, list_lookup_fmap. }
  intros w1 Hw1 _. apply wp_bind. unfold SubGroupCounterIncrease, SubGroupCounterDecrease.
  eapply wp_SubGroupCounter; [done|by apply on_sh_group_at| |].
  { intros c Hc'. change (m_subGroupsCounts (blur gr) = Some c) in Hc'. rewrite Hc in Hc'. injection Hc' as <-.
    apply lookup_lt_is_Some. rewrite sub_counts_length. lia. }
  intros w2 Hw2. apply wp_bind. eapply wp_SubGroupCounter; [done|by do 2 apply on_sh_group_at| |].
  { intros c Hc'. change (alter (λ n, u8 (n + 1)) (Z.to_nat to) <$> m_subGroupsCounts (blur gr) = Some c) in Hc'.
    rewrite Hc in Hc'. injection Hc' as <-. apply lookup_lt_is_Some. rewrite length_alter, sub_counts_length. lia. }
  intros w3 Hw3. rewrite !on_sh_group_comp in Hw3. change (_ ∘ _) with (move i (MemberSlot.group s) to) in Hw3.
  set (f := move i (MemberSlot.group s) to) in *.
  assert (links None (on_sh_group g f sh)) as L'.
  { eapply links_resized; [done|exact Hg|done| | |done].
    - change (alter (λ sl, sl <| MemberSlot.group := to |>) i (m_memberSlots (blur gr)) ≠ []). intros He.
      apply (f_equal length) in He. rewrite length_alter in He. by destruct (m_memberSlots (blur gr)).
    - pose proof (sizes_move _ i _ to Hbi Hst Hto Hroom) as Hm. cbv zeta in Hm. rewrite Hc in Hsz. specialize (Hm Hsz).
      change (sizes_ok (isRaidGroup gr) (alter (λ n, u8 (n - 1)) (Z.to_nat (MemberSlot.group s)) <$>
        (alter (λ n, u8 (n + 1)) (Z.to_nat to) <$> m_subGroupsCounts (blur gr)))
        (alter (λ sl, sl <| MemberSlot.group := to |>) i (m_memberSlots (blur gr)))). rewrite Er, Hc. exact Hm. }
  apply wp_mono with (P := λ _ w' _, at_shape (on_sh_group g f sh) w').
  2:{ intros [] w4 t4 Hw4. exists (on_sh_group g f sh). split; [done|]. split; [done|]. apply mono_group. }
  assert (g_in g (on_sh_group g f sh)) as Hg3 by (apply on_sh_group_in; by eexists).
  apply (wp_then (at_shape (on_sh_group g f sh))); [done|keep_shape|]. intros [] w4 Hw4. apply wp_bind, wp_get.
  apply (wp_then (at_shape (on_sh_group g f sh))); [done| |by intros [] w5 Hw5; apply keeps_SendUpdate].
  destruct (FindPlayer guid w4) as [pl|] eqn:Efp; [|apply keeps_ret].
  destruct (FindPlayer_in _ _ _ _ Hw4 Efp) as (_ & _ & Hp). apply keeps_setSubGroup; [done|lia].
Qed.
Definition be_raid (b : Group) : Group := b <| m_groupType ::= λ t, Z.lor t GROUPTYPE_RAID |>.
Definition set_counts (c : list Z) (b : Group) : Group := b <| m_subGroupsCounts := Some c |>.
Lemma in_subgroup_le i l : in_subgroup i l <= Z.of_nat (length l).
Proof. unfold in_subgroup. pose proof (length_filter (λ s, MemberSlot.group s = i) l). lia. Qed.
(** Counting the members of a raid from nothing. *)
Lemma wp_count_members g l : ∀ sh w b l0,
  at_shape sh w → sh_groups sh !! g = Some b → m_subGroupsCounts b = Some (sub_counts l0) →
  Forall (λ s, 0 <= MemberSlot.group s < MAX_RAID_SUBGROUPS) l → (length l0 + length l <= 40)%nat →
  wp (forM_ l (λ s, SubGroupCounterIncrease g (MemberSlot.group s)))
    (λ _ w' _, at_shape (on_sh_group g (set_counts (sub_counts (l ++ l0))) sh) w') w.
Proof.
  induction l as [|s l IH]; intros sh w b l0 Hw Hg Hc Hl Hlen; cbn [forM_].
  - apply wp_ret. replace (on_sh_group g _ sh) with sh; [done|]. apply shape_eq; try done. cbn.
    apply map_eq. intros i. destruct (decide (g = i)) as [<-|]; [|by rewrite lookup_alter_ne].
    rewrite lookup_alter_eq, Hg. cbn. f_equal. unfold set_counts, setf. destruct b. cbn in *. by rewrite Hc.
  - apply Forall_cons in Hl as [Hs Hl]. change MAX_RAID_SUBGROUPS with 8 in Hs. apply wp_bind. unfold SubGroupCounterIncrease.
    eapply wp_SubGroupCounter; [done..| |].
    { intros c Hc'. rewrite Hc in Hc'. simplify_eq. apply lookup_lt_is_Some. rewrite sub_counts_length. lia. }
    intros w1 Hw1. eapply wp_mono; [eapply (IH _ w1 _ (s :: l0)); [done|by apply on_sh_group_at| |done|cbn [length] in *; lia]|].
    + unfold count_sub. cbn [m_subGroupsCounts setf eta_Group]. rewrite Hc. cbn. f_equal. rewrite sub_counts_cons by done.
      eapply alter_list_ext; [rewrite sub_counts_lookup by lia; done|]. rewrite Z2Nat.id by lia.
      pose proof (in_subgroup_le (MemberSlot.group s) l0). pose proof (in_subgroup_nonneg (MemberSlot.group s) l0). cbn [length] in *.
      unfold u8, wrapu. rewrite Z.mod_small; lia.
    + intros [] w2 t2 Hw2. rewrite on_sh_group_comp in Hw2. change (_ ∘ _) with (set_counts (sub_counts (l ++ s :: l0))) in Hw2.
      change ((s :: l) ++ l0) with (s :: (l ++ l0)). by rewrite (sub_counts_perm _ _ (Permutation_middle l l0 s)).
Qed.
Lemma replicate_counts : replicate (Z.to_nat MAX_RAID_SUBGROUPS) 0 = sub_counts [].
Proof. done. Qed.
Lemma sub_counts_blur l : sub_counts (blur_slot <$> l) = sub_counts l.
Proof.
  unfold sub_counts. apply list_fmap_ext. intros ? i _. unfold in_subgroup. f_equal.
  induction l as [|s l IH]; [done|]. cbn [fmap list_fmap]. rewrite !filter_cons. cbn [MemberSlot.group blur_slot].
  destruct (decide _); cbn [length]; by rewrite IH.
Qed.
Lemma wp_initRaidSubGroupsCounter sh w g b :
  at_shape sh w → sh_groups sh !! g = Some b →
  Forall (λ s, 0 <= MemberSlot.group s < MAX_RAID_SUBGROUPS) (m_memberSlots b) → (length (m_memberSlots b) <= 40)%nat →
  wp (_initRaidSubGroupsCounter g) (λ _ w' _, at_shape (on_sh_group g (set_counts (sub_counts (m_memberSlots b))) sh) w') w.
Proof.
  intros Hw Hg Hl Hlen. unfold _initRaidSubGroupsCounter. rewrite replicate_counts. apply wp_bind.
  eapply wp_on_group with (f' := set_counts (sub_counts [])); [done|by eexists|done|by intros ? _ []|by intros; left|].
  intros w1 Hw1 _. apply wp_bind. eapply wp_deref; [done|by apply on_sh_group_in; eexists|]. intros gr Hgr Hb _.
  pose proof (on_sh_group_at g (set_counts (sub_counts [])) b sh Hg) as Hg1.
  assert (blur_slot <$> m_memberSlots gr = m_memberSlots b) as E by (rewrite Hg1 in Hb; by injection Hb).
  rewrite <- E in Hl, Hlen. rewrite length_fmap in Hlen. rewrite Forall_fmap in Hl.
  eapply wp_mono; [eapply wp_count_members; [done|exact Hg1|done|exact Hl|cbn; lia]|].
  intros [] w2 t2 Hw2. rewrite on_sh_group_comp, app_nil_r in Hw2.
  change (_ ∘ _) with (set_counts (sub_counts (m_memberSlots gr))) in Hw2. by rewrite <- E, sub_counts_blur.
Qed.
Lemma wp_ConvertToRaid sh w g b :
  at_shape sh w → links None sh → sh_groups sh !! g = Some b → m_memberSlots b ≠ [] →
  wp (ConvertToRaid g) (λ _ w' _, linked sh w') w.
Proof.
  intros Hw L Hg Hne. assert (size_ok b) as Hsz by (by apply (k_size _ _ (k_regs _ _ L) g)).
  pose proof (size_bound b Hsz) as Hb. change MAXRAIDSIZE with 40 in Hb.
  assert (Forall (λ s, 0 <= MemberSlot.group s < MAX_RAID_SUBGROUPS) (m_memberSlots b)) as Hall.
  { unfold size_ok, sizes_ok in Hsz. destruct (isRaidGroup b); [apply Hsz|]. destruct Hsz as (_ & Hz & _).
    eapply Forall_impl; [exact Hz|]. intros s ->. done. }
  unfold ConvertToRaid. apply wp_bind.
  eapply wp_on_group with (f' := be_raid); [done|by eexists|done|by intros ? _ []|by intros; left|]. intros w1 Hw1 _.
  apply wp_bind. eapply wp_mono; [eapply wp_initRaidSubGroupsCounter; [done|by apply on_sh_group_at|done|cbn; lia]|].
  intros [] w2 t2 Hw2. rewrite on_sh_group_comp in Hw2. set (c := set_counts _) in *. set (sh2 := on_sh_group g (c ∘ be_raid) sh) in *.
  assert (links None sh2) as L2.
  { eapply links_resized; [done|exact Hg|done|done| |done].
    change (size_ok ((c ∘ be_raid) b)) with (sizes_ok (isRaidGroup (be_raid b)) (Some (sub_counts (m_memberSlots b))) (m_memberSlots b)).
    assert (isRaidGroup (be_raid b) = true) as ->.
    { change (has_flag (Z.lor (m_groupType b) GROUPTYPE_RAID) GROUPTYPE_RAID = true). rewrite has_flag_lor. by rewrite orb_true_r. }
    split; [done|]. split; [done|]. unfold size_ok, sizes_ok in Hsz. destruct (isRaidGroup b); [apply Hsz|].
    destruct Hsz as (_ & _ & Hz). apply Forall_fmap, Forall_forall. intros i _. pose proof (in_subgroup_le i (m_memberSlots b)). cbn. lia. }
  assert (g_in g sh2) as Hg2 by (apply on_sh_group_in; by eexists).
  apply wp_mono with (P := λ _ w' _, at_shape sh2 w').
  2:{ intros [] w3 t3 Hw3. exists sh2. split; [done|]. split; [done|]. apply mono_group. }
  revert w2 t2 Hw2. cut (keeps (at_shape sh2) (gr ← deref g;
    when (stored_group gr) (emit (CHAR_UPD_GROUP_TYPE (u8 (m_groupType gr)) (m_dbStoreId gr))) ;; SendUpdate g ;; w ← get;
    forM_ (m_memberSlots gr) (λ s, when (is_online (MemberSlot.guid s) w) (emit (UpdateForQuestWorldObjects (MemberSlot.guid s))))));
    [intros K w2 _ Hw2; by apply K|]. keep_shape.
Qed.
End Members.
