(* ===== verification/GroupRegistry.v ===== *)
(** The registry of group ids, the making of groups and invitations to them, and
    that the links of a world survive each of them. *)

From S2P Require Import Prelude ByteBuffer Util Rbac Channel Social Group GroupHandler GroupRules GroupWorlds GroupMembers.
Open Scope string_scope.
Open Scope list_scope.
Open Scope Z_scope.

Section Registry.
Context `{GroupLaws}.

(** ** Ids *)

(** More groups than this and the ids run out. *)
Definition ids_left (sh : shape) : Prop := Z.of_nat (base.size (sh_groups sh)) < 0xFFFFFFF0.

(** Every id in use is that of another group. *)
Lemma ids_bound x sh (l : list Z) : regs x sh → NoDup l → Forall (λ i, 1 <= i) l →
  (∀ i, i ∈ l → ∃ g, sh_store sh !! Z.to_nat i = Some (Some g)) → (length l <= base.size (sh_groups sh))%nat.
Proof.
  intros R Hnd Hpos Hl. rewrite <- length_map_to_list, <- (length_fmap (λ gb, m_dbStoreId gb.2)).
  apply submseteq_length, NoDup_submseteq; [done|]. intros i Hi. destruct (Hl i Hi) as [g Hg].
  destruct (k_store _ _ R _ _ Hg) as (b & Hb & Hid & _). apply list_elem_of_fmap. exists (g, b). cbn.
  rewrite Forall_forall in Hpos. specialize (Hpos i Hi). split; [lia|]. by apply elem_of_map_to_list.
Qed.
Lemma next_free_spec store : ∀ fuel i, 0 <= i → (length store < Z.to_nat i + fuel)%nat →
  let n := next_free_loop fuel i store in
  i <= n ∧ (∀ j, i <= j < n → ∃ g, store !! Z.to_nat j = Some (Some g)) ∧ (∀ g, store !! Z.to_nat n ≠ Some (Some g)).
Proof.
  induction fuel as [|fuel IH]; intros i Hi Hf; cbn [next_free_loop].
  { cbv zeta. split; [lia|]. split; [intros j Hj; lia|]. intros g Hg%lookup_lt_Some. lia. }
  destruct (Z.ltb_spec i (Z.of_nat (length store))) as [Hlt|Hge]; cbn [andb].
  - destruct (bool_decide (store !! Z.to_nat i = Some None)) eqn:Hd; cbn [negb].
    + apply bool_decide_eq_true in Hd. cbv zeta. split; [lia|]. split; [intros j Hj; lia|]. intros g Hg. congruence.
    + apply bool_decide_eq_false in Hd. destruct (IH (i + 1)) as (H1 & H2 & H3); [lia..|]. cbv zeta in *.
      split; [lia|]. split; [|done]. intros j Hj. destruct (decide (j = i)) as [->|]; [|apply H2; lia].
      destruct (lookup_lt_is_Some_2 store (Z.to_nat i)) as [[g|] Hg]; [lia|by exists g|done].
  - cbv zeta. split; [lia|]. split; [intros j Hj; lia|]. intros g Hg%lookup_lt_Some. lia.
Qed.
(** A free id is given out, and the next one is free too. *)
Lemma wp_GenerateNewGroupDbStoreId x sh w :
  at_shape sh w → regs x sh → ids_left sh →
  wp GenerateNewGroupDbStoreId (λ id w' _, id = sh_next sh ∧ ∃ n, at_shape (sh <| sh_next := n |>) w' ∧ id < n < 0xFFFFFFFF ∧
    (∀ j, id < j < n → ∃ g, sh_store sh !! Z.to_nat j = Some (Some g)) ∧ (∀ g, sh_store sh !! Z.to_nat n ≠ Some (Some g))) w.
Proof.
  intros Hw R Hids. pose proof Hw as [Es _].
  assert (NextGroupDbStoreId w = sh_next sh ∧ GroupDbStore w = sh_store sh) as [En Eg] by by subst sh.
  destruct (k_next _ _ R) as [Hn1 Hn2]. unfold ids_left in Hids.
  pose proof (k_used _ _ R) as Hu.
  assert (∀ n, sh_next sh < n → (∀ j, sh_next sh < j < n → ∃ g, sh_store sh !! Z.to_nat j = Some (Some g)) →
    n - 2 <= Z.of_nat (base.size (sh_groups sh))) as Hbound.
  { intros n Hn Hj. pose proof (ids_bound x sh (seqZ 1 (sh_next sh - 1) ++ seqZ (sh_next sh + 1) (n - sh_next sh - 1)) R) as Hb.
    rewrite length_app, !length_seqZ in Hb.
    assert ((Z.to_nat (sh_next sh - 1) + Z.to_nat (n - sh_next sh - 1) <= base.size (sh_groups sh))%nat); [|lia]. apply Hb.
    - apply NoDup_app. split; [apply NoDup_seqZ|]. split; [|apply NoDup_seqZ]. intros i. rewrite !elem_of_seqZ. lia.
    - apply Forall_forall. intros i. rewrite elem_of_app, !elem_of_seqZ. lia.
    - intros i. rewrite elem_of_app, !elem_of_seqZ. intros [Hi|Hi]; [apply Hu; lia|apply Hj; lia]. }
  assert (u32 (sh_next sh + 1) = sh_next sh + 1) as Ei.
  { apply wrapu_id. pose proof (Hbound (sh_next sh + 1)) as Hb. split; [lia|].
    assert (sh_next sh + 1 - 2 <= Z.of_nat (base.size (sh_groups sh))); [|compute_pow2; lia]. apply Hb; [lia|]. intros j Hj. lia. }
  unfold GenerateNewGroupDbStoreId. apply wp_bind, wp_get. cbv zeta. rewrite En, Eg, Ei.
  pose proof (next_free_spec (sh_store sh) (S (length (sh_store sh))) (sh_next sh + 1)) as Hspec. cbv zeta in Hspec.
  set (n := next_free_loop _ _ _) in *. destruct Hspec as (H1 & H2 & H3); [lia..|].
  assert (n - 2 <= Z.of_nat (base.size (sh_groups sh))) as Hnb by (apply Hbound; [lia|]; intros j Hj; apply H2; lia).
  destruct (Z.ltb_spec n 0xFFFFFFFF) as [_|]; [|lia]. apply wp_bind, wp_modify, wp_bind.
  destruct (Z.eqb_spec (sh_next sh) n); [lia|]. apply wp_when; [done|]. intros _. apply wp_ret. split; [done|].
  exists n. split; [|split; [lia|split; [|done]]].
  - eapply (at_modify sh w (λ w, w <| NextGroupDbStoreId := n |>)); [done..|]. by subst sh.
  - intros j Hj. apply H2. lia.
Qed.

Definition set_id (id : Z) (b : Group) : Group := b <| m_dbStoreId := id |>.
Definition sh_register (id g : Z) (sh : shape) : shape :=
  sh <| sh_store ::= λ l, <[Z.to_nat id := Some g]> (l ++ replicate (Z.to_nat id + 1 - length l) None) |>.
Lemma wp_RegisterGroupDbStoreId sh w id g (Q : unit → GroupWorld → list group_event → Prop) :
  at_shape sh w → (∀ w', at_shape (sh_register id g sh) w' → Q tt w' []) → wp (RegisterGroupDbStoreId id g) Q w.
Proof.
  intros Hw HQ. apply wp_modify, HQ. eapply (at_modify sh w (λ w, w <| GroupDbStore ::= _ |>)); [done..|].
  destruct Hw as [<- _]. done.
Qed.
Lemma register_lookup id g sh i : 0 <= id → sh_store (sh_register id g sh) !! i =
  if decide (i = Z.to_nat id) then Some (Some g)
  else if decide (i < Z.to_nat id ∧ length (sh_store sh) <= i)%nat then Some None else sh_store sh !! i.
Proof.
  intros Hid. cbn. set (l := sh_store sh). destruct (decide (i = Z.to_nat id)) as [->|Hne].
  - rewrite list_lookup_insert_eq; [done|]. rewrite length_app, length_replicate. lia.
  - rewrite list_lookup_insert_ne by done. destruct (decide (i < length l)%nat) as [Hlt|Hge].
    + rewrite lookup_app_l by done. rewrite decide_False by lia. done.
    + rewrite lookup_app_r by lia. destruct (decide _) as [[H1 H2]|Hn].
      * rewrite lookup_replicate_2 by lia. done.
      * rewrite (lookup_ge_None_2 l) by lia. apply lookup_replicate_None. lia.
Qed.
(** A group that is being built gets its id. *)
Lemma links_register g b n sh :
  links (Some g) sh → sh_groups sh !! g = Some b → stored_group b = true → (∀ i, sh_store sh !! i ≠ Some (Some g)) →
  sh_next sh < n → (∀ j, sh_next sh < j < n → ∃ g, sh_store sh !! Z.to_nat j = Some (Some g)) →
  (∀ g, sh_store sh !! Z.to_nat n ≠ Some (Some g)) →
  links (Some g) (sh_register (sh_next sh) g (on_sh_group g (set_id (sh_next sh)) (sh <| sh_next := n |>))).
Proof.
  intros [[R1 R2 R3] [I1 I2 I3] [G1 G2 G3 G4 G5 [G6 G6'] G7]] Hg Hst Hno Hlt Hused Hfree.
  set (sh1 := on_sh_group g _ _). set (sh2 := sh_register _ _ _).
  assert (∀ g' b', sh_groups sh2 !! g' = Some b' → ∃ b0, sh_groups sh !! g' = Some b0 ∧ b' = if decide (g = g') then set_id (sh_next sh) b0 else b0) as Ha.
  { intros g' b' Hb'. by apply alter_some in Hb'. }
  assert (∀ g' b0, sh_groups sh !! g' = Some b0 → sh_groups sh2 !! g' = Some (if decide (g = g') then set_id (sh_next sh) b0 else b0)) as Ha'.
  { intros g' b0 Hb0. by apply alter_at. }
  assert (∀ i, sh_store sh2 !! i = if decide (i = Z.to_nat (sh_next sh)) then Some (Some g)
    else if decide (i < Z.to_nat (sh_next sh) ∧ length (sh_store sh) <= i)%nat then Some None else sh_store sh !! i) as Hs.
  { intros i. apply (register_lookup (sh_next sh) g sh1). lia. }
  assert (∀ i g', i ≠ Z.to_nat (sh_next sh) → sh_store sh2 !! i = Some (Some g') ↔ sh_store sh !! i = Some (Some g')) as Hs'.
  { intros i g' Hne. rewrite Hs, decide_False by done. destruct (decide (i < _ ∧ _)%nat) as [[Hi1 Hi2]|]; [|done].
    split; [done|]. intros ?%lookup_lt_Some. lia. }
  split; split.
  - intros p l k g' Hp Hr. destruct (R1 p l k g' Hp Hr) as (b' & Hb' & Hin). eexists. split; [by apply Ha'|]. by destruct (decide _).
  - intros g' b' k p (b0 & Hb0 & ->)%Ha Hin. apply (R2 g' b0); [done|]. by destruct (decide _).
  - intros g' b' (b0 & Hb0 & ->)%Ha Hx He. rewrite decide_False in * by congruence. by apply (R3 g').
  - intros p l g' Hp Hr. destruct (I1 p l g' Hp Hr) as (b' & Hb' & Hin). eexists. split; [by apply Ha'|]. by destruct (decide _).
  - intros g' b' p (b0 & Hb0 & ->)%Ha Hin. apply (I2 g' b0); [done|]. by destruct (decide _).
  - intros g' b' (b0 & Hb0 & ->)%Ha Hx He. rewrite decide_False in * by congruence. by apply (I3 g').
  - intros g' b' (b0 & Hb0 & ->)%Ha Hx. rewrite decide_False by congruence. by apply (G1 g').
  - intros g' b' (b0 & Hb0 & ->)%Ha Hx. rewrite decide_False by congruence. by apply (G2 g').
  - intros g' b' (b0 & Hb0 & ->)%Ha Hx. rewrite decide_False by congruence. intros He Hsto.
    pose proof (G3 g' b0 Hb0 Hx He Hsto) as Hi. apply Hs'; [|done]. intros Heq. rewrite Heq in Hi. by eapply G6'.
  - intros i g' Hi. destruct (decide (i = Z.to_nat (sh_next sh))) as [->|Hne].
    + rewrite Hs, decide_True in Hi by done. simplify_eq. eexists. split; [by apply Ha'|]. rewrite decide_True by done.
      cbn. repeat split; [lia..|done|done].
    + apply Hs' in Hi; [|done]. destruct (G4 i g' Hi) as (b' & Hb' & ? & ? & ? & ?). assert (g ≠ g') by (intros ->; by eapply Hno).
      eexists. split; [by apply Ha'|]. by rewrite decide_False.
  - intros i Hi. change (sh_next sh2) with n in Hi. destruct (decide (i = sh_next sh)) as [->|Hne].
    + exists g. by rewrite Hs, decide_True.
    + destruct (decide (i < sh_next sh)) as [Hi'|].
      * destruct (G5 i) as [g' Hg']; [lia|]. exists g'. apply Hs'; [lia|done].
      * destruct (Hused i) as [g' Hg']; [lia|]. exists g'. apply Hs'; [lia|done].
  - change (sh_next sh2) with n. split; [lia|]. intros g' Hi. apply Hs' in Hi; [|lia]. by eapply Hfree.
  - intros g' [b' Hb']. apply Ha in Hb' as (b0 & Hb0 & _). apply G7. by exists b0.
Qed.
(** ** Invitations *)

Definition sh_alloc (sh : shape) : shape :=
  sh <| sh_groups ::= <[sh_fresh sh := blur new_Group]> |> <| sh_fresh ::= λ n, n + 1 |>.
Lemma wp_alloc_group sh w (Q : Z → GroupWorld → list group_event → Prop) :
  at_shape sh w → (∀ w', at_shape (sh_alloc sh) w' → Q (sh_fresh sh) w' []) → wp alloc_group Q w.
Proof.
  intros Hw HQ. unfold alloc_group. apply wp_bind, wp_get, wp_bind, wp_modify, wp_ret. rewrite (at_fresh sh w Hw). apply HQ.
  destruct Hw as [<- [D1 D2 D3]]. split.
  - apply shape_eq; try done. cbn. by rewrite fmap_insert.
  - split; cbn; [|done|].
    + intros g gr [[<- <-]|[_ Hg]]%lookup_insert_Some; [|by eapply D1].
      split; cbn; [done| |unfold DUNGEON_DIFFICULTY_NORMAL, RAID_DIFFICULTY_10MAN_NORMAL; lia..]. by repeat constructor.
    + intros g gr r [[<- <-]|[_ Hg]]%lookup_insert_Some Hr; [by apply elem_of_nil in Hr|by eapply D3].
Qed.
Lemma links_alloc sh : links None sh → links (Some (sh_fresh sh)) (sh_alloc sh) ∧
  (∀ i, sh_store (sh_alloc sh) !! i ≠ Some (Some (sh_fresh sh))).
Proof.
  intros [[R1 R2 R3] [I1 I2 I3] [G1 G2 G3 G4 G5 G6 G7]]. set (g := sh_fresh sh) in *.
  assert (∀ g' b', sh_groups sh !! g' = Some b' → g' ≠ g) as Hne.
  { intros g' b' Hb' ->. specialize (G7 g). assert (g < g); [|lia]. apply G7. by eexists. }
  assert (∀ g' b', sh_groups sh !! g' = Some b' → <[g := blur new_Group]> (sh_groups sh) !! g' = Some b') as Hin.
  { intros g' b' Hb'. rewrite lookup_insert_ne; [done|]. intros <-. by eapply Hne. }
  assert (∀ g' b', <[g := blur new_Group]> (sh_groups sh) !! g' = Some b' →
    (g' = g ∧ b' = blur new_Group) ∨ (g ≠ g' ∧ sh_groups sh !! g' = Some b')) as Hout.
  { intros g' b' [[<- <-]|[? ?]]%lookup_insert_Some; [by left|by right]. }
  split; [split; split; cbn|].
  - intros p l k g' Hp Hr. destruct (R1 p l k g' Hp Hr) as (b & Hb & Hi). exists b. split; [by apply Hin|done].
  - intros g' b k p [[-> ->]|[_ Hb]]%Hout Hi; [by apply elem_of_nil in Hi|by eapply R2].
  - intros g' b [[-> ->]|[_ Hb]]%Hout Hx; [done|by apply (R3 g')].
  - intros p l g' Hp Hr. destruct (I1 p l g' Hp Hr) as (b & Hb & Hi). exists b. split; [by apply Hin|done].
  - intros g' b p [[-> ->]|[_ Hb]]%Hout Hi; [set_solver|by eapply I2].
  - intros g' b [[-> ->]|[_ Hb]]%Hout Hx; [done|by apply (I3 g')].
  - intros g' b [[-> ->]|[_ Hb]]%Hout Hx; [done|by apply (G1 g')].
  - intros g' b [[-> ->]|[_ Hb]]%Hout Hx; [done|by apply (G2 g')].
  - intros g' b [[-> ->]|[_ Hb]]%Hout Hx; [done|by apply (G3 g')].
  - intros i g' Hi. destruct (G4 i g' Hi) as (b & Hb & ? & ? & ? & ?). exists b. split; [by apply Hin|]. repeat split; auto.
  - done.
  - done.
  - intros g' [b Hb]. cbn in Hb. apply Hout in Hb as [[-> _]|[_ Hb]]; [lia|]. assert (g' < g); [|lia]. apply G7. by eexists.
  - intros i Hi. destruct (G4 i g Hi) as (b & Hb & _). by eapply Hne.
Qed.

(** Who has no invitation and is in no group can be invited. *)
Definition invitable (sh : shape) (l : links_of) : Prop :=
  l_invite l = None ∧ match l_group l with
                      | None => True
                      | Some g => l_original l = None ∧ ∃ b, sh_groups sh !! g = Some b ∧ stored_group b = false
                      end.
Lemma uninvite_same x g p l sh : invs x sh → sh_players sh !! p = Some l → l_invite l = None → sh_uninvite g p sh = sh.
Proof.
  intros I Hp Hi. unfold sh_uninvite. rewrite (no_inv_same p l) by done. apply shape_eq; try done. cbn. apply map_eq. intros g'.
  destruct (decide (g = g')) as [<-|]; [|by rewrite lookup_alter_ne]. rewrite lookup_alter_eq.
  destruct (sh_groups sh !! g) as [b|] eqn:Hb; [|done]. cbn. f_equal.
  assert (p ∉ m_invitees b) as Hn.
  { intros Hin. destruct (k_invitee _ _ I g b p Hb Hin) as (l' & Hl' & Hi'). congruence. }
  unfold rm_inv, setf. destruct b. cbn in *. f_equal. set_solver.
Qed.
Lemma wp_AddInvite x sh w g p l :
  at_shape sh w → links x sh → g_in g sh → sh_players sh !! p = Some l →
  wp (AddInvite g p) (λ ok w' _, if (ok : bool) then invitable sh l ∧ at_shape (sh_invite g p sh) w'
                                 else ¬ invitable sh l ∧ at_shape sh w') w.
Proof.
  intros Hw L Hg Hp. assert (p_in p sh) as Hpi by by eexists. unfold AddInvite. apply wp_bind, wp_get, wp_bind.
  eapply wp_player_of; [done..|]. intros pl Hpl Hb _. assert (l = blur_player pl) as -> by congruence.
  destruct (bool_decide (is_Some (m_groupInvite pl))) eqn:Hd.
  { apply bool_decide_eq_true in Hd as [g0 Hg0]. apply wp_ret. split; [|done]. intros [Hi _]. cbn in Hi. congruence. }
  assert (m_groupInvite pl = None) as Hi.
  { apply bool_decide_eq_false in Hd. destruct (m_groupInvite pl); [by destruct Hd|done]. }
  assert (invitable sh (blur_player pl) →
    wp (RemoveInvite g p ;; on_group g (λ gr, gr <| m_invitees ::= λ s, {[ p ]} ∪ s |>) ;; SetGroupInvite p (Some g) ;;
        emit (OnGroupInviteMember g p) ;; mret true)
      (λ ok w' _, if (ok : bool) then invitable sh (blur_player pl) ∧ at_shape (sh_invite g p sh) w'
                  else ¬ invitable sh (blur_player pl) ∧ at_shape sh w') w) as Hyes.
  { intros Hinv. apply wp_bind. eapply wp_RemoveInvite; [done..|]. intros w1 Hw1.
    rewrite (uninvite_same x g p (blur_player pl)) in Hw1 by (try done; apply L). apply wp_bind.
    eapply wp_on_group with (f' := add_inv p); [done..|by intros ? _ []|by intros; left|]. intros w2 Hw2 _. apply wp_bind.
    eapply wp_SetGroupInvite; [done|done|]. intros w3 Hw3. apply wp_bind, wp_emit, wp_ret. done. }
  apply wp_bind. destruct (GetGroup pl) as [g'|] eqn:Eg.
  - destruct (k_ref _ _ (k_refs _ _ L) p _ RGroup g' Hb Eg) as (b' & Hb' & _). apply wp_bind.
    eapply wp_deref; [done|by eexists|]. intros gr' _ Hbr _. assert (b' = blur gr') as -> by congruence. apply wp_ret.
    destruct (stored_group gr') eqn:Es.
    { apply wp_ret. split; [|done]. unfold invitable. change (l_group (blur_player pl)) with (GetGroup pl).
      rewrite Eg. intros (_ & _ & b & Hb1 & Hs). rewrite Hbr in Hb1. simplify_eq. by change (stored_group gr' = false) in Hs; congruence. }
    destruct (GetOriginalGroup pl) as [g1|] eqn:Eo.
    { apply wp_ret. split; [|done]. unfold invitable. change (l_group (blur_player pl)) with (GetGroup pl).
      rewrite Eg. intros (_ & Ho & _). change (GetOriginalGroup pl = None) in Ho. congruence. }
    eapply wp_mono; [apply Hyes|done]. split; [done|]. change (l_group (blur_player pl)) with (GetGroup pl). rewrite Eg.
    split; [done|]. by eexists.
  - apply wp_ret. eapply wp_mono; [apply Hyes|done]. split; [done|]. change (l_group (blur_player pl)) with (GetGroup pl). by rewrite Eg.
Qed.
(** The group an invitation is about has members. *)
Lemma wp_normal_group sh w p pl : at_shape sh w → links None sh → sh_players sh !! p = Some (blur_player pl) →
  wp (normal_group pl) (λ r w' _, w' = w ∧ match r with
    | Some g => ∃ b, sh_groups sh !! g = Some b ∧ m_memberSlots b ≠ []
    | None => l_invite (blur_player pl) = None → invitable sh (blur_player pl)
    end) w.
Proof.
  intros Hw L Hb. unfold normal_group.
  assert (∀ k g, l_ref k (blur_player pl) = Some g → ∃ b, sh_groups sh !! g = Some b ∧ m_memberSlots b ≠ []) as Href.
  { intros k g Hk. destruct (k_ref _ _ (k_refs _ _ L) p _ k g Hb Hk) as (b & Hgb & Hin). exists b. split; [done|].
    destruct (has_members None g b k p sh) as [?|?]; [apply L|done..]. }
  destruct (GetGroup pl) as [g|] eqn:Eg.
  - destruct (Href RGroup g Eg) as (b & Hgb & Hne). apply wp_bind. eapply wp_deref; [done|by eexists|]. intros gr _ Hbr _. apply wp_ret.
    split; [done|]. destruct (isBGGroup gr) eqn:Ebg; [|by exists b].
    destruct (GetOriginalGroup pl) as [g1|] eqn:Eo; [by apply (Href ROriginal)|]. intros Hi. split; [done|].
    change (l_group (blur_player pl)) with (GetGroup pl). rewrite Eg. split; [done|]. exists (blur gr). split; [done|].
    change (stored_group gr = false). unfold stored_group. by rewrite Ebg.
  - apply wp_ret. split; [done|]. intros Hi. split; [done|]. change (l_group (blur_player pl)) with (GetGroup pl). by rewrite Eg.
Qed.
Lemma links_invite x g p l b sh :
  links x sh → sh_players sh !! p = Some l → l_invite l = None → sh_groups sh !! g = Some b →
  (x = Some g ∨ m_memberSlots b ≠ [] ∨ m_leaderGuid b ∈ m_invitees b) → links x (sh_invite g p sh).
Proof.
  intros [R I G] Hp Hi Hg Hc. split; [|by eapply invs_invite|].
  - eapply refs_view; [symmetry; apply ref_view_invite|done].
  - eapply regs_view; [symmetry; apply reg_view_invite|done].
Qed.
Lemma links_uninvite x g p l b sh :
  links x sh → sh_players sh !! p = Some l → l_invite l = Some g → sh_groups sh !! g = Some b →
  (x = Some g ∨ m_memberSlots b ≠ [] ∨ m_leaderGuid b ≠ p) → links x (sh_uninvite g p sh).
Proof.
  intros [R I G] Hp Hi Hg Hc. split; [|by eapply invs_uninvite|].
  - eapply refs_view; [symmetry; apply ref_view_uninvite|done].
  - eapply regs_view; [symmetry; apply reg_view_uninvite|done].
Qed.
Lemma links_uninvite_all x g b sh :
  links x sh → sh_groups sh !! g = Some b → links x (sh_uninvite_all g (m_invitees b) sh).
Proof.
  intros [R I G] Hg. split; [|by apply invs_uninvite_all|].
  - eapply refs_view; [symmetry; apply ref_view_uninvite_all|done].
  - eapply regs_view; [symmetry; apply reg_view_uninvite_all|done].
Qed.
(** A group that waits for its first member. *)
Lemma links_waiting g b sh :
  links (Some g) sh → sh_groups sh !! g = Some b → m_memberSlots b = [] → m_memberMgr b = [] →
  (m_invitees b ≠ ∅ → m_leaderGuid b ∈ m_invitees b) → size_ok b → stored_group b = true → isRaidGroup b = false →
  (∀ i, sh_store sh !! i ≠ Some (Some g)) → links None sh.
Proof.
  intros [[R1 R2 R3] [I1 I2 I3] [G1 G2 G3 G4 G5 G6 G7]] Hg He Hm Hl Hsz Hst Hr Hno.
  assert (∀ g' b', sh_groups sh !! g' = Some b' → (g' = g ∧ b' = b) ∨ Some g ≠ Some g') as Hc.
  { intros g' b' Hb'. destruct (decide (g' = g)) as [->|]; [left; split; [done|congruence]|right; congruence]. }
  split; split; try done.
  - intros g' b' Hb' _ He'. destruct (Hc g' b' Hb') as [[-> ->]|]; [done|by eapply R3].
  - intros g' b' Hb' _ He' Hi. destruct (Hc g' b' Hb') as [[-> ->]|]; [by apply Hl|by eapply I3].
  - intros g' b' Hb' _. destruct (Hc g' b' Hb') as [[-> ->]|]; [done|by eapply G1].
  - intros g' b' Hb' _ He'. destruct (Hc g' b' Hb') as [[-> ->]|]; [done|by eapply G2].
  - intros g' b' Hb' _ He' Hs. destruct (Hc g' b' Hb') as [[-> ->]|]; [done|by eapply G3].
  - intros i g' Hi. destruct (G4 i g' Hi) as (b' & Hb' & ? & ? & ? & ?). exists b'. repeat split; try done. intros _.
    destruct (Hc g' b' Hb') as [[-> ->]|]; [by destruct (Hno i)|auto].
Qed.

(** What every request keeps. *)
Definition sound (w : GroupWorld) : Prop := links None (shape_of w) ∧ details w.
Lemma sound_at sh w : at_shape sh w → links None sh → sound w.
Proof. by intros [<- D] L. Qed.
Lemma at_sound w : sound w → at_shape (shape_of w) w ∧ links None (shape_of w).
Proof. by intros [L D]. Qed.
Lemma linked_sound sh w : linked sh w → sound w.
Proof. intros (sh' & Hw & L & _). by eapply sound_at. Qed.

Lemma wp_invite_to sh w me target l group :
  at_shape sh w → links None sh → p_in me sh → sh_players sh !! target = Some l → invitable sh l → me ≠ target →
  (∀ g, group = Some g → ∃ b, sh_groups sh !! g = Some b ∧ m_memberSlots b ≠ []) →
  wp (invite_to me target group) (λ _ w' _, sound w') w.
Proof.
  intros Hw L [lm Hme] Ht Hinv Hne Hg. unfold invite_to. destruct group as [g|].
  { destruct (Hg g eq_refl) as (b & Hgb & Hs). eapply wp_mono; [eapply wp_AddInvite; [done|done|by eexists|done]|].
    intros [] w' t [Hi Hw']; [|by eapply sound_at]. eapply sound_at; [done|]. eapply links_invite; [done..|apply Hi|done|by right; left]. }
  apply wp_bind. eapply wp_alloc_group; [done|]. intros w1 Hw1. set (g := sh_fresh sh) in *. set (sh1 := sh_alloc sh) in *.
  destruct (links_alloc sh L) as [L1 Hno]. fold sh1 g in L1, Hno.
  assert (sh_groups sh1 !! g = Some (blur new_Group)) as Hg1 by (cbn; by rewrite lookup_insert_eq).
  apply wp_bind. unfold AddLeaderInvite. apply wp_bind.
  eapply wp_mono; [eapply (wp_AddInvite (Some g) sh1 w1 g me lm); [done|done|by eexists|done]|]. intros ok w2 t2 Hok. destruct ok; cbn [negb].
  2:{ destruct Hok as [_ Hw2]. apply wp_ret. cbn [negb]. apply wp_bind.
      eapply wp_mono; [eapply (wp_delete_linked sh1); [exact Hw2|done|done|done|done|done]|].
      intros [] w3 t3 (sh3 & Hw3 & L3 & _). apply wp_ret. by eapply sound_at. }
  destruct Hok as [[Hmi _] Hw2]. apply wp_bind.
  eapply wp_player_of; [exact Hw2|by apply on_sh_player_in; eexists|]. intros pl _ _ _.
  apply wp_bind. eapply wp_lead; [exact Hw2|by apply (on_sh_group_at g (add_inv me) _ _ Hg1)|]. intros w3 Hw3.
  apply wp_ret. cbn [negb]. apply wp_bind.
  set (sh3 := on_sh_group g (lead me) (sh_invite g me sh1)) in *.
  set (b3 := lead me (add_inv me (blur new_Group))).
  assert (sh_groups sh3 !! g = Some b3) as Hg3 by (by apply on_sh_group_at, (on_sh_group_at g (add_inv me) _ sh1 Hg1)).
  assert (links (Some g) sh3) as L3.
  { apply links_on_group; [|done]. eapply links_invite; [done|exact Hme|done|exact Hg1|by left]. }
  assert (sh_players sh3 !! target = Some l) as Ht3 by (cbn; by rewrite lookup_alter_ne).
  assert (invitable sh3 l) as Hinv3.
  { destruct Hinv as [Hi Hc]. split; [done|]. destruct (l_group l) as [g'|] eqn:Eg; [|done]. destruct Hc as [Ho (b & Hb & Hs)].
    split; [done|]. exists b. split; [|done]. assert (g' < g) by (apply (k_fresh _ _ (k_regs _ _ L)); by eexists).
    cbn. by rewrite !lookup_alter_ne, lookup_insert_ne by lia. }
  eapply wp_mono; [eapply (wp_AddInvite (Some g) sh3 w3 g target l); [done|done|by eexists|done]|].
  intros ok w4 t4 Hok. destruct ok; [|by destruct Hok]. destruct Hok as [_ Hw4]. apply wp_ret.
  eapply sound_at; [done|]. set (sh4 := sh_invite g target sh3) in *.
  assert (sh_groups sh4 !! g = Some (add_inv target b3)) as Hg4 by by apply on_sh_group_at.
  apply (links_waiting g (add_inv target b3)); try done.
  - eapply links_invite; [done..|apply Hinv3|done|by left].
  - intros _. cbn. set_solver.
Qed.

(** ** Making a group *)

Lemma wp_group_Create sh w g b leader l :
  at_shape sh w → links (Some g) sh → sh_groups sh !! g = Some b → m_memberSlots b = [] → size_ok b →
  stored_group b = true → isRaidGroup b = false → (∀ i, sh_store sh !! i ≠ Some (Some g)) → ids_left sh →
  sh_players sh !! leader = Some l → l_invite l = None →
  wp (Create g leader) (λ ok w' _, ok = true ∧ ∃ sh' b', at_shape sh' w' ∧ links None sh' ∧
    l_invite <$> sh_players sh' = l_invite <$> sh_players sh ∧ sh_groups sh' !! g = Some b' ∧
    length (m_memberSlots b') = 1%nat ∧ isRaidGroup b' = false) w.
Proof.
  intros Hw L Hg He Hsz Hst Hr Hno Hids Hp Hi. assert (g_in g sh) as Hgi by by eexists. unfold Create. apply wp_bind.
  eapply wp_player_of; [done|by eexists|]. intros pl _ _ Hdp.
  apply (wp_then (at_shape sh)); [done| |].
  { unfold GenerateGroupId. apply keeps_world. intros w0 _. apply keeps_bind; [apply keeps_when, keeps_emit|]. intros _.
    apply keeps_bind; [|intros _; apply keeps_ret]. apply keeps_modify. intros w' Hw'.
    eapply (at_modify sh w' (λ w, w <| NextGroupId ::= _ |>)); [done..|]. by destruct Hw' as [<- _]. }
  intros lowguid w1 Hw1. apply wp_bind.
  eapply wp_on_group with (f' := lead leader); [done..|by intros ? _ []|by intros; left|]. intros w2 Hw2 _.
  set (sh2 := on_sh_group g (lead leader) sh) in *.
  assert (sh_groups sh2 !! g = Some (lead leader b)) as Hg2 by by apply on_sh_group_at.
  assert (g_in g sh2) as Hgi2 by by eexists.
  assert (∀ gr, sh_groups sh2 !! g = Some (blur gr) → stored_group gr = true ∧ isRaidGroup gr = false) as Hsame.
  { intros gr Hgr. assert (lead leader b = blur gr) as E by congruence.
    change (stored_group (blur gr) = true ∧ isRaidGroup (blur gr) = false). by rewrite <- E. }
  apply wp_bind. eapply wp_deref; [done..|]. intros gr2 _ Hb2 _. destruct (Hsame gr2 Hb2) as [-> _]. cbn [negb].
  apply wp_bind, wp_ret, wp_bind. eapply wp_deref; [done..|]. intros gr3 _ Hb3 _. destruct (Hsame gr3 Hb3) as [-> ->].
  cbn [when]. apply wp_bind, wp_ret. apply (wp_then (at_shape sh2)); [done|by apply keeps_when, keeps_SetLootMethod|].
  intros [] w3 Hw3. apply (wp_then (at_shape sh2)); [done| |].
  { apply keeps_on_group; try done. intros ? []. split; try done; unfold DUNGEON_DIFFICULTY_NORMAL, RAID_DIFFICULTY_10MAN_NORMAL; cbn; lia. }
  intros [] w4 Hw4. apply (wp_then (at_shape sh2)); [done| |].
  { destruct Hdp. apply keeps_on_group; try done. intros ? []. by split. }
  intros [] w5 Hw5. apply wp_bind.
  assert (links (Some g) sh2) as L2 by by apply links_on_group.
  eapply wp_mono; [eapply (wp_GenerateNewGroupDbStoreId (Some g)); [done|apply L2|]|].
  { unfold ids_left in *. assert (base.size (sh_groups sh2) = base.size (sh_groups sh)) as ->; [|done].
    rewrite <- (map_size_fmap m_memberSlots (sh_groups sh2)), <- (map_size_fmap m_memberSlots (sh_groups sh)).
    f_equal. cbn. by apply fmap_alter_same. }
  intros id w6 t6 (-> & n & Hw6 & Hn & Hused & Hfree). apply wp_bind.
  eapply wp_on_group with (f' := set_id (sh_next sh2)); [exact Hw6|done|done|by intros ? _ []|by intros; left|]. intros w7 Hw7 _.
  apply wp_bind. eapply wp_RegisterGroupDbStoreId; [exact Hw7|]. intros w8 Hw8.
  set (sh8 := sh_register _ _ _) in *.
  assert (links (Some g) sh8) as L8 
    by (apply (links_register g (lead leader b)); [exact L2|exact Hg2|exact Hst|exact Hno|lia|exact Hused|exact Hfree]).
  set (b8 := set_id (sh_next sh2) (lead leader b)).
  assert (sh_groups sh8 !! g = Some b8) as Hg8 by by apply (on_sh_group_at g (set_id (sh_next sh2)) _ sh2).
  apply wp_bind. eapply wp_deref; [exact Hw8|by eexists|]. intros gr8 _ _ _. apply wp_bind, wp_emit, wp_bind.
  pose proof (k_next _ _ (k_regs _ _ L)) as [Hn1 _].
  eapply wp_mono; [eapply (wp_group_AddMember sh8 w8 g b8 leader l); try done|].
  - unfold IsFull. change (isRaidGroup b8) with (isRaidGroup b). rewrite Hr. change (m_memberSlots b8) with (m_memberSlots b). by rewrite He.
  - intros _. unfold sh8. rewrite register_lookup by (change (sh_next sh2) with (sh_next sh); lia). by rewrite decide_True.
  - intros ok w9 t9 [-> (s & _ & Hroom & sh9 & l9 & k9 & Hw9 & L9 & V1 & [= _ V2] & _)]. cbn [negb].
    assert (sh_groups (on_sh_group g (push leader s) sh8) !! g = Some (push leader s b8)) as Hgp by by apply on_sh_group_at.
    destruct (view_slots _ sh9 g _ V1 Hgp) as (b9 & Hb9 & Es & Et).
    assert (p_in leader sh9) as Hp9.
    { eapply players_in; [exact V2|]. by exists l. }
    apply (wp_then (at_shape sh9)); [done|apply keeps_ConvertInstancesToGroup; [by eexists|done]|]. intros [] wa Hwa. apply wp_ret. split; [done|].
    exists sh9, b9. split; [done|]. split; [done|]. split; [done|]. split; [done|]. split.
    + rewrite Es. change (length (m_memberSlots b ++ [new_slot leader s]) = 1%nat). by rewrite He.
    + unfold isRaidGroup. by rewrite Et.
Qed.
End Registry.
