(* ===== verification/GroupRequests.v ===== *)
(** What clients ask of groups: every packet of GroupHandler.v, and players who
    enter and leave.  The links between groups and players survive every honest
    request. *)

From S2P Require Import Prelude ByteBuffer Util Rbac Channel Social Group GroupHandler GroupRules GroupWorlds GroupMembers GroupRegistry.
Open Scope string_scope.
Open Scope list_scope.
Open Scope Z_scope.

Section Requests.
Context `{GroupLaws, GroupHandlerEnv}.

(** ** Answers

    A request is answered when it ends in a sound world, normally or with the
    exception of a packet that is too short. *)
Definition packet_fault (f : fault) : Prop := ∃ pos n size, f = BBPosition false pos n size.
Definition answered (m : gact unit) (w : GroupWorld) : Prop :=
  match m w with
  | Done _ w' _ => sound w'
  | Fault f w' _ => sound w' ∧ packet_fault f
  end.

Lemma answered_wp m w : wp m (λ _ w' _, sound w') w → answered m w.
Proof. unfold wp, answered. by destruct (m w). Qed.
Lemma answered_bind {A} (m : gact A) f w : wp m (λ a w' _, answered (f a) w') w → answered (m ≫= f) w.
Proof.
  unfold wp, answered, mbind, act_bind. destruct (m w) as [a w' t|]; [|done]. by destruct (f a w').
Qed.
Lemma answered_keeps sh m w : at_shape sh w → links None sh → keeps (at_shape sh) m → answered m w.
Proof. intros Hw L K. apply answered_wp. eapply wp_mono; [by apply K|]. intros [] w' t Hw'. by eapply sound_at. Qed.
Lemma answered_reading_eq {A} d (r : bb A) (k : A → ByteBuffer → gact unit) w :
  reader_safe r → bb_wf d → sound w → (∀ a rest t, r d = Done a rest t → bb_wf rest → answered (k a rest) w) →
  answered (reading d r k) w.
Proof.
  intros Hr Hd Hw Hk. unfold reading. specialize (Hr d Hd). destruct (r d) as [a rest t|f rest t].
  - eapply Hk; [done|apply Hr].
  - destruct Hr as (_ & _ & _ & pos & n & ->). split; [done|]. by do 3 eexists.
Qed.
Lemma answered_reading {A} d (r : bb A) (k : A → ByteBuffer → gact unit) w :
  reader_safe r → bb_wf d → sound w → (∀ a rest, bb_wf rest → answered (k a rest) w) → answered (reading d r k) w.
Proof. intros Hr Hd Hw Hk. apply answered_reading_eq; [done..|]. intros a rest t _. apply Hk. Qed.
Lemma answered_player sh me w (f : Player → gact unit) :
  at_shape sh w → p_in me sh →
  (∀ pl, players w !! me = Some pl → sh_players sh !! me = Some (blur_player pl) → player_det pl → answered (f pl) w) →
  answered (player_of me ≫= f) w.
Proof. intros Hw Hp Hf. apply answered_bind. by eapply wp_player_of. Qed.
Lemma answered_deref sh g w (f : Group → gact unit) :
  at_shape sh w → g_in g sh →
  (∀ gr, groups w !! g = Some gr → sh_groups sh !! g = Some (blur gr) → group_det gr → answered (f gr) w) →
  answered (deref g ≫= f) w.
Proof. intros Hw Hp Hf. apply answered_bind. by eapply wp_deref. Qed.
Lemma answered_get w (f : GroupWorld → gact unit) : answered (f w) w → answered (get ≫= f) w.
Proof. intros Hf. apply answered_bind, wp_get. done. Qed.
Lemma answered_ret w : sound w → answered (mret tt) w.
Proof. done. Qed.
Lemma answered_emit e w : sound w → answered (emit e) w.
Proof. done. Qed.

Lemma safe_skip n : 0 <= n < 2 ^ 32 → reader_safe (read_skip n).
Proof.
  intros Hn. apply safe_get. intros b [Hr Hs]. rewrite wrapu_id by (compute_pow2; lia).
  destruct (Z.ltb_spec (bb_size b) (_rpos b + n)); cbn.
  - unfold bb_wf. split_and!; try done; [lia..|]. by do 2 eexists.
  - unfold bb_wf, bb_size in *. cbn. split_and!; try done; lia.
Qed.
Lemma safe_bool : reader_safe rshift_bool.
Proof. apply safe_bind; [by apply safe_read|]. intros. apply safe_ret. Qed.
(** A byte that is read is not negative. *)
Lemma rshift_byte_nonneg d n d' t : Forall byte_ok (_storage d) → rshift_unsigned 1 d = Done n d' t → 0 <= n.
Proof.
  intros Hd Hr. unfold rshift_unsigned, read, read_at, mbind, act_bind, get in Hr. cbn -[u64 Z.ltb take drop] in Hr.
  destruct (_ <? _); [done|]. destruct (_ <? _); [done|]. cbn -[u64 take drop] in Hr. injection Hr as <- _ _.
  pose proof (Forall_drop _ (Z.to_nat (_rpos d)) _ Hd) as Hx.
  destruct (drop (Z.to_nat (_rpos d)) (_storage d)) as [|x l]; [done|].
  apply Forall_cons in Hx as [Hx _]. unfold byte_ok in Hx. change (0 <= x + 256 * 0). lia.
Qed.
#[local] Ltac safe :=
  repeat first [apply safe_string | apply safe_bool | apply safe_ret | by apply safe_read | by apply safe_skip
               | apply safe_bind; [|intros ?]].

(** The group a player is in. *)
Lemma group_of sh p pl g : links None sh → sh_players sh !! p = Some (blur_player pl) → GetGroup pl = Some g →
  ∃ b, sh_groups sh !! g = Some b ∧ m_memberSlots b ≠ [].
Proof.
  intros L Hp Hg. destruct (k_ref _ _ (k_refs _ _ L) p _ RGroup g Hp Hg) as (b & Hb & Hin). exists b. split; [done|].
  destruct (has_members None g b RGroup p sh) as [?|?]; [apply L|done..].
Qed.
Lemma slot_blur guid gr : is_Some (_getMemberSlot guid gr) ↔ guid ∈ MemberSlot.guid <$> m_memberSlots (blur gr).
Proof.
  unfold _getMemberSlot. cbn. rewrite <- list_fmap_compose, list_elem_of_fmap. split.
  - intros [s Hs]. apply head_Some_elem_of, list_elem_of_filter in Hs as [Hg Hs]. by exists s.
  - intros (s & Hg & Hs). destruct (filter _ _) as [|s' l] eqn:E; [|by eexists].
    assert (s ∈ filter (λ s, MemberSlot.guid s = guid) (m_memberSlots gr)) as Hin by by apply list_elem_of_filter.
    rewrite E in Hin. by apply elem_of_nil in Hin.
Qed.

(** ** Requests that only look, or change what no link is about *)

Lemma keeps_SetGroupMemberFlag sh g guid apply flag : g_in g sh → keeps (at_shape sh) (SetGroupMemberFlag g guid apply flag).
Proof.
  intros Hg. unfold SetGroupMemberFlag. apply keeps_deref; [done|]. intros gr Hb _.
  destruct (negb _); [apply keeps_ret|]. destruct (_getMemberSlot guid gr) eqn:Es; [|apply keeps_ret].
  destruct (negb _); [apply keeps_ret|].
  apply keeps_bind; [keep_shape|intros _]. apply keeps_bind; [keep_shape|intros _].
  apply keeps_deref; [done|]. intros gr' Hb' _. apply keeps_group_require; [|intros; keep_shape].
  apply slot_blur. assert (blur gr' = blur gr) as -> by congruence. apply slot_blur. by eexists.
Qed.

Section Handled.
Context (me : Z) (w : GroupWorld) (Hw : sound w) (Hme : is_Some (players w !! me)).

Lemma me_in : p_in me (shape_of w).
Proof. destruct Hme as [pl Hpl]. unfold p_in. cbn. rewrite lookup_fmap, Hpl. by eexists. Qed.

(** The handler looks up the player's group first. *)
Lemma answered_group (none : gact unit) (some : Player → Z → gact unit) :
  answered none w →
  (∀ pl g b, players w !! me = Some pl → GetGroup pl = Some g → sh_groups (shape_of w) !! g = Some b →
    m_memberSlots b ≠ [] → answered (some pl g) w) →
  answered (pl ← player_of me; match GetGroup pl with None => none | Some g => some pl g end) w.
Proof.
  intros Hn Hs. destruct (at_sound w Hw) as [Ha L]. eapply answered_player; [done|apply me_in|]. intros pl Hpl Hb _.
  destruct (GetGroup pl) as [g|] eqn:Eg; [|done]. destruct (group_of _ _ _ _ L Hb Eg) as (b & Hgb & Hne). by eapply Hs.
Qed.
Lemma answered_quiet (m : gact unit) : keeps (at_shape (shape_of w)) m → answered m w.
Proof. destruct (at_sound w Hw) as [Ha L]. by apply answered_keeps. Qed.
#[local] Ltac quietly := apply answered_quiet; keep_shape; eauto with shape.

Lemma answered_LootMethod d : bb_wf d → answered (HandleLootMethodOpcode me d) w.
Proof.
  intros Hd. unfold HandleLootMethodOpcode. apply answered_reading; [safe|done..|]. intros [[m l] t] rest Hrest.
  apply answered_group; [done|]. intros pl g b _ _ Hb _. assert (g_in g (shape_of w)) by by eexists. quietly.
Qed.
Lemma answered_LootRoll d : bb_wf d → answered (HandleLootRoll me d) w.
Proof.
  intros Hd. unfold HandleLootRoll. apply answered_reading; [safe|done..|]. intros [[m l] t] rest Hrest.
  apply answered_group; [done|]. intros pl g b _ _ Hb _. assert (g_in g (shape_of w)) by by eexists. quietly.
Qed.
Lemma answered_MinimapPing d : bb_wf d → answered (HandleMinimapPingOpcode me d) w.
Proof.
  intros Hd. unfold HandleMinimapPingOpcode. apply answered_group; [done|]. intros pl g b _ _ Hb _.
  assert (g_in g (shape_of w)) by by eexists. apply answered_reading; [safe|done..|]. intros [x y] rest Hrest. quietly.
Qed.
Lemma answered_RandomRoll d : bb_wf d → answered (HandleRandomRollOpcode me d) w.
Proof.
  intros Hd. unfold HandleRandomRollOpcode. apply answered_reading; [safe|done..|]. intros [a b] rest Hrest.
  destruct (Z.ltb_spec b a); cbn [orb]; [done|]. destruct (10000 <? b); [done|]. apply answered_quiet.
  apply keeps_bind; [by apply keeps_urand|]. intros roll. cbv zeta. apply keeps_player; [apply me_in|]. intros pl Hb _.
  destruct (GetGroup pl) as [g|] eqn:Eg; [|keep_shape]. destruct (at_sound w Hw) as [_ L].
  destruct (group_of _ _ _ _ L Hb Eg) as (b' & Hgb & _). apply keeps_group_BroadcastPacket. by eexists.
Qed.
Lemma answered_RaidTarget d : bb_wf d → answered (HandleRaidTargetUpdateOpcode me d) w.
Proof.
  intros Hd. unfold HandleRaidTargetUpdateOpcode. apply answered_group; [done|]. intros pl g b _ _ Hb _.
  assert (g_in g (shape_of w)) by by eexists. apply answered_reading; [safe|done..|]. intros x rest Hrest.
  destruct (x =? 255); [quietly|]. destruct (at_sound w Hw) as [Ha L].
  eapply answered_deref; [done..|]. intros gr _ _ _. destruct (_ && _); [done|].
  apply answered_reading; [safe|done..|]. intros guid rest' _. quietly.
Qed.
Lemma answered_AssistantLeader d : bb_wf d → answered (HandleGroupAssistantLeaderOpcode me d) w.
Proof.
  intros Hd. unfold HandleGroupAssistantLeaderOpcode. apply answered_group; [done|]. intros pl g b _ _ Hb _.
  assert (g_in g (shape_of w)) by by eexists. destruct (at_sound w Hw) as [Ha L].
  eapply answered_deref; [done..|]. intros gr _ _ _. destruct (negb _); [done|].
  apply answered_reading; [safe|done..|]. intros [guid ap] rest' _. apply answered_quiet.
  apply keeps_bind; [by apply keeps_SetGroupMemberFlag|intros _; keep_shape].
Qed.
Lemma answered_PartyAssignment d : bb_wf d → answered (HandlePartyAssignmentOpcode me d) w.
Proof.
  intros Hd. unfold HandlePartyAssignmentOpcode. apply answered_group; [done|]. intros pl g b _ _ Hb _.
  assert (g_in g (shape_of w)) by by eexists. destruct (at_sound w Hw) as [Ha L].
  eapply answered_deref; [done..|]. intros gr _ _ _. destruct (_ && _); [done|].
  apply answered_reading; [safe|done..|]. intros [[a ap] guid] rest' _. apply answered_quiet.
  apply keeps_bind; [|intros _; keep_shape]. destruct (a =? _); [|apply keeps_when];
    (apply keeps_bind; [keep_shape|intros _; by apply keeps_SetGroupMemberFlag]).
Qed.
Lemma answered_ReadyCheck d : bb_wf d → answered (HandleRaidReadyCheckOpcode me d) w.
Proof.
  intros Hd. unfold HandleRaidReadyCheckOpcode. apply answered_group; [done|]. intros pl g b _ _ Hb _.
  assert (g_in g (shape_of w)) by by eexists. destruct (at_sound w Hw) as [Ha L].
  eapply answered_deref; [done..|]. intros gr _ _ _. destruct (bool_decide _).
  - destruct (_ && _); [done|quietly].
  - apply answered_reading; [safe|done..|]. intros st rest _. quietly.
Qed.
Lemma answered_OptOut d : bb_wf d → answered (HandleOptOutOfLootOpcode me d) w.
Proof.
  intros Hd. unfold HandleOptOutOfLootOpcode. apply answered_reading; [safe|done..|]. intros st rest _.
  apply answered_quiet, keeps_group_player; [apply me_in|done|]. intros ? []. by split.
Qed.
Lemma answered_MemberStats d : bb_wf d → answered (HandleRequestPartyMemberStatsOpcode me d) w.
Proof.
  intros Hd. unfold HandleRequestPartyMemberStatsOpcode. apply answered_reading; [safe|done..|]. intros guid rest _.
  apply answered_get. by destruct (players w !! guid).
Qed.
Lemma wp_raid_info l : ∀ w0, Forall (λ mb, is_Some (save mb.2)) l → wp (mapM raid_info_bind l) (λ _ w' _, w' = w0) w0.
Proof.
  induction l as [|mb l IH]; intros w0 Hl; [by apply wp_ret|]. apply Forall_cons in Hl as [[s Hs] Hl]. cbn [mapM].
  apply wp_bind. unfold raid_info_bind at 1. rewrite Hs. apply wp_bind, wp_ret, wp_ret.
  apply wp_bind. eapply wp_mono; [by apply IH|]. intros rows w1 t1 ->. by apply wp_ret.
Qed.
Lemma answered_RaidInfo : answered (HandleRequestRaidInfoOpcode me) w.
Proof.
  unfold HandleRequestRaidInfoOpcode, SendRaidInfo. destruct (at_sound w Hw) as [Ha L].
  eapply answered_player; [done|by apply me_in|]. intros pl _ _ [_ Hb _ _ _ _]. apply answered_bind.
  eapply wp_mono; [apply wp_raid_info|].
  - apply Forall_forall. intros [m x] Hmx. apply list_elem_of_filter in Hmx as [_ Hmx].
    apply list_elem_of_bind in Hmx as (i & Hmx & _). rewrite hash_iter_perm in Hmx. apply elem_of_map_to_list in Hmx.
    destruct (p_boundInstances pl !! Z.to_nat i) as [b|] eqn:Eb; cbn in Hmx; [|by rewrite lookup_empty in Hmx].
    by eapply (Forall_lookup_1 _ _ _ _ Hb Eb).
  - by intros rows w1 t1 ->.
Qed.
End Handled.
(** ** Invitations declined, leaving, leading and moving *)

(** A world later than [sh0] in which [p] has no invitation. *)
Definition uninvited (p : Z) (sh0 : shape) (w : GroupWorld) : Prop :=
  ∃ sh l, at_shape sh w ∧ links None sh ∧ mono sh0 sh ∧ sh_players sh !! p = Some l ∧ l_invite l = None.
Lemma uninvited_linked p sh w : uninvited p sh w → linked sh w.
Proof. intros (sh' & l & Hw & L & M & _). by exists sh'. Qed.
Lemma linked_uninvited p sh0 l w : linked sh0 w → sh_players sh0 !! p = Some l → l_invite l = None → uninvited p sh0 w.
Proof. intros (sh & Hw & L & M) Hp Hi. destruct (M p l Hp) as (l' & Hl' & Hi'). exists sh, l'. split; [done|]. split; [done|]. split; [exact M|]. auto. Qed.
Lemma uninvited_mono p sh0 sh w : mono sh0 sh → uninvited p sh w → uninvited p sh0 w.
Proof. intros M (sh' & l & Hw & L & M' & Hp). exists sh', l. split; [done|]. split; [done|]. split; [by etrans|done]. Qed.
Lemma uninvite_player g p l sh : sh_players sh !! p = Some l → sh_players (sh_uninvite g p sh) !! p = Some (no_inv l).
Proof. intros Hp. cbn. rewrite (alter_at _ _ _ _ _ Hp). by rewrite decide_True. Qed.
Lemma no_store sh g b : links None sh → sh_groups sh !! g = Some b → m_memberSlots b = [] → ∀ i, sh_store sh !! i ≠ Some (Some g).
Proof.
  intros L Hg He i Hi. destruct (k_store _ _ (k_regs _ _ L) i g Hi) as (b' & Hb' & _ & _ & _ & Hne).
  assert (b' = b) as -> by congruence. by apply Hne.
Qed.
Lemma created_blur sh g gr : links None sh → sh_groups sh !! g = Some (blur gr) →
  GetMembersCount gr = Z.of_nat (length (m_memberSlots (blur gr))) ∧ (IsCreated gr = true ↔ m_memberSlots (blur gr) ≠ []).
Proof.
  intros L Hg. pose proof (members_count (blur gr)) as Hc. rewrite blur_count in Hc.
  rewrite Hc by (by apply (k_size _ _ (k_regs _ _ L) g)). split; [done|]. unfold IsCreated. rewrite <- blur_count, members_count
    by (by apply (k_size _ _ (k_regs _ _ L) g)).
  destruct (m_memberSlots (blur gr)) as [|s l]; cbn [length]; (split; [intros Ht|]); [done|done|done|]. intros _. apply Z.ltb_lt. lia.
Qed.
Lemma wp_UninviteFromGroup sh w p :
  at_shape sh w → links None sh → p_in p sh → wp (UninviteFromGroup p) (λ _ w' _, uninvited p sh w') w.
Proof.
  intros Hw L Hp. unfold UninviteFromGroup. apply wp_bind. eapply wp_player_of; [done..|]. intros pl _ Hb _.
  destruct (m_groupInvite pl) as [g|] eqn:Ei; [|by apply wp_ret; exists sh, (blur_player pl)].
  destruct (k_invite _ _ (k_invs _ _ L) p _ g Hb Ei) as (b & Hgb & Hin). apply wp_bind.
  eapply wp_deref; [done|by eexists|]. intros gr _ Hbr _. assert (b = blur gr) as -> by congruence.
  apply wp_bind. eapply wp_RemoveInvite; [done|by eexists|done|]. intros w1 Hw1. set (sh1 := sh_uninvite g p sh) in *.
  assert (sh_groups sh1 !! g = Some (rm_inv p (blur gr))) as Hg1 by by apply on_sh_group_at.
  assert (sh_players sh1 !! p = Some (no_inv (blur_player pl))) as Hp1 by by apply uninvite_player.
  assert (mono sh sh1) as M1 by apply mono_uninvite.
  apply wp_mono with (P := λ _ w' _, linked sh1 w').
  2:{ intros [] w' t Hw'. eapply uninvited_mono; [exact M1|]. by eapply linked_uninvited. }
  destruct (created_blur sh g gr L Hgb) as [Hcount Hcreated].
  apply wp_when.
  - intros Hle. rewrite Hcount in Hle. apply Z.leb_le in Hle. destruct (IsCreated gr) eqn:Ec.
    + assert (m_memberSlots (blur gr) ≠ []) as Hne by by apply Hcreated.
      eapply wp_mono; [eapply wp_group_Disband; [done| |done|done]|].
      * eapply links_uninvite; [done..|by right; left].
      * intros [] w' t Hw'. by eapply gone_linked.
    + assert (m_memberSlots (blur gr) = []) as He.
      { destruct (m_memberSlots (blur gr)) eqn:E; [done|]. exfalso. enough (false = true) by done. by apply Hcreated. }
      assert (links (Some g) sh1) as L1 by (eapply links_uninvite; [by apply links_weaken|done..|by left]).
      apply wp_bind. eapply wp_RemoveAllInvites; [done..| |].
      { intros q Hq. destruct (k_invitee _ _ (k_invs _ _ L1) g _ q Hg1 Hq) as (l & Hl & _). by exists l. }
      intros w2 Hw2. eapply wp_mono; [apply (wp_delete_linked sh1 _ _ _ (clear_inv (rm_inv p (blur gr))) Hw2);
        [by apply links_uninvite_all| |done| |apply mono_uninvite_all]|].
      * rewrite uninvite_all_groups, lookup_alter_eq, Hg1. done.
      * intros i. rewrite uninvite_all_store. by apply (no_store sh g (blur gr)).
      * intros [] w3 t3 Hw3. by eapply gone_linked.
  - intros Hgt. apply Z.leb_gt in Hgt. rewrite Hcount in Hgt. apply linked_here; [done|].
    eapply links_uninvite; [done..|]. right. left. by destruct (m_memberSlots (blur gr)).
Qed.

Lemma wp_find_invited sh w (f : Z → Player → bool) l : at_shape sh w → Forall (λ p, p_in p sh) l →
  wp (find_invited f l) (λ o w' _, w' = w ∧ ∀ p, o = Some p → p_in p sh) w.
Proof.
  intros Hw Hl. induction l as [|p l IH]; cbn [find_invited]; [by apply wp_ret|]. apply Forall_cons in Hl as [Hp Hl].
  apply wp_bind. eapply wp_player_of; [done..|]. intros pl _ _ _. destruct (f p pl).
  - apply wp_ret. split; [done|]. by intros q [= <-].
  - eapply wp_mono; [by apply IH|]. done.
Qed.
Lemma invitees_in sh g b : links None sh → sh_groups sh !! g = Some b → Forall (λ p, p_in p sh) (set_iter (m_invitees b)).
Proof.
  intros L Hg. apply Forall_forall. intros p Hp%set_iter_elem.
  destruct (k_invitee _ _ (k_invs _ _ L) g b p Hg Hp) as (l & Hl & _). by exists l.
Qed.
Lemma keeps_CanUninviteFromGroup sh p : links None sh → p_in p sh → keeps (at_shape sh) (CanUninviteFromGroup p).
Proof.
  intros L Hp. unfold CanUninviteFromGroup. apply keeps_world. intros w0 _. apply keeps_player; [done|]. intros pl Hb _.
  destruct (GetGroup pl) as [g|] eqn:Eg; [|apply keeps_ret]. destruct (group_of _ _ _ _ L Hb Eg) as (b & Hgb & _).
  apply keeps_deref; [by eexists|]. intros gr _ _. destruct (isLFGGroup gr); apply keeps_ret.
Qed.

Section Changed.
Context (me : Z) (w : GroupWorld) (Hw : sound w) (Hme : is_Some (players w !! me)).

Lemma answered_linked sh m : wp m (λ _ w' _, linked sh w') w → answered m w.
Proof. intros Hm. apply answered_wp. eapply wp_mono; [exact Hm|]. intros [] w' t Hw'. by eapply linked_sound. Qed.
Lemma answered_Decline : answered (HandleGroupDeclineOpcode me) w.
Proof.
  destruct (at_sound w Hw) as [Ha L]. pose proof (me_in me w Hme) as Hp. unfold HandleGroupDeclineOpcode. apply answered_get.
  eapply answered_player; [done..|]. intros pl _ Hb _. destruct (m_groupInvite pl) as [g|] eqn:Ei; [|done].
  destruct (k_invite _ _ (k_invs _ _ L) me _ g Hb Ei) as (b & Hgb & _). eapply answered_deref; [done|by eexists|].
  intros gr _ _ _. apply answered_wp, wp_bind. eapply wp_mono; [by apply wp_UninviteFromGroup|]. intros [] w1 t1 Hw1%uninvited_linked%linked_sound.
  destruct (is_online _ _); done.
Qed.
(** Removing someone, a member or one who is invited. *)
Lemma answered_UninviteGuid d : bb_wf d → answered (HandleGroupUninviteGuidOpcode me d) w.
Proof.
  intros Hd. destruct (at_sound w Hw) as [Ha L]. pose proof (me_in me w Hme) as Hp. unfold HandleGroupUninviteGuidOpcode.
  apply answered_reading; [safe|done..|]. intros [guid reason] rest _. destruct (guid =? me); [done|].
  apply answered_bind. apply wp_mono with (P := λ _ w' _, at_shape (shape_of w) w'); [by apply keeps_CanUninviteFromGroup|]. intros result w1 t1 Hw1.
  assert (sound w1) as Hs1 by by eapply sound_at.
  destruct (negb (result =? _)); [done|]. eapply answered_player; [exact Hw1|done|]. intros pl _ Hb _.
  destruct (GetGroup pl) as [g|] eqn:Eg; [|done]. destruct (group_of _ _ _ _ L Hb Eg) as (b & Hgb & Hne).
  eapply answered_deref; [exact Hw1|by eexists|]. intros gr _ Hbr _. assert (b = blur gr) as -> by congruence.
  destruct (IsLeader guid gr); [done|]. destruct (IsMember guid gr).
  - apply answered_wp. eapply wp_mono; [by eapply wp_RemoveFromGroup|]. intros [] w2 t2 Hw2. by eapply linked_sound.
  - apply answered_bind. eapply wp_mono; [eapply wp_find_invited; [done|by apply (invitees_in _ g (blur gr))]|].
    intros [p|] w2 t2 [-> Hin]; [|done].
    apply answered_wp. eapply wp_mono; [apply wp_UninviteFromGroup; [done..|by apply Hin]|]. intros [] w2 t3 Hw2.
    exact (linked_sound _ _ (uninvited_linked _ _ _ Hw2)).
Qed.
Lemma answered_Uninvite d : bb_wf d → answered (HandleGroupUninviteOpcode me d) w.
Proof.
  intros Hd. destruct (at_sound w Hw) as [Ha L]. pose proof (me_in me w Hme) as Hp. unfold HandleGroupUninviteOpcode.
  apply answered_reading; [safe|done..|]. intros name0 rest _. destruct (normalizePlayerName name0) as [name|]; [|done].
  eapply answered_player; [done..|]. intros pl _ Hb _. destruct (String.eqb _ _); [done|].
  apply answered_bind. apply wp_mono with (P := λ _ w' _, at_shape (shape_of w) w'); [by apply keeps_CanUninviteFromGroup|]. intros result w1 t1 Hw1.
  assert (sound w1) as Hs1 by by eapply sound_at.
  destruct (negb (result =? _)); [done|].
  destruct (GetGroup pl) as [g|] eqn:Eg; [|done]. destruct (group_of _ _ _ _ L Hb Eg) as (b & Hgb & Hne).
  eapply answered_deref; [exact Hw1|by eexists|]. intros gr _ Hbr _. assert (b = blur gr) as -> by congruence.
  cbv zeta. destruct (negb _).
  - apply answered_wp. eapply wp_mono; [by eapply wp_RemoveFromGroup|]. intros [] w2 t2 Hw2. by eapply linked_sound.
  - apply answered_bind. eapply wp_mono; [eapply wp_find_invited; [done|by apply (invitees_in _ g (blur gr))]|].
    intros [p|] w2 t2 [-> Hin]; [|done].
    apply answered_wp. eapply wp_mono; [apply wp_UninviteFromGroup; [done..|by apply Hin]|]. intros [] w2 t3 Hw2.
    exact (linked_sound _ _ (uninvited_linked _ _ _ Hw2)).
Qed.
Lemma answered_Leave : answered (HandleGroupDisbandOpcode me) w.
Proof.
  destruct (at_sound w Hw) as [Ha L]. unfold HandleGroupDisbandOpcode. apply answered_group; [done..|].
  intros pl g b _ _ Hb Hne. destruct (InBattleground pl); [done|]. apply answered_bind, wp_emit.
  eapply answered_linked. by eapply wp_RemoveFromGroup.
Qed.
Lemma answered_SetLeader d : bb_wf d → answered (HandleGroupSetLeaderOpcode me d) w.
Proof.
  intros Hd. destruct (at_sound w Hw) as [Ha L]. unfold HandleGroupSetLeaderOpcode.
  apply answered_reading; [safe|done..|]. intros guid rest _. apply answered_get.
  eapply answered_player; [done|by apply me_in|]. intros pl _ Hb _.
  destruct (GetGroup pl) as [g|] eqn:Eg; [|done]. destruct (FindPlayer guid w) as [player|]; [|done].
  destruct (group_of _ _ _ _ L Hb Eg) as (b & Hgb & Hne). eapply answered_deref; [done|by eexists|]. intros gr _ _ _.
  apply answered_wp, wp_when; [intros _|done]. assert (g_in g (shape_of w)) as Hg by by eexists.
  eapply wp_mono with (P := λ _ w' _, steady (shape_of w) w'); [|intros [] ? ? ?%steady_linked; by eapply linked_sound].
  apply (wp_then (steady (shape_of w))); [by apply steady_here|by apply keeps_ChangeLeader|].
  intros [] w1 Hw1. apply (keeps_steady (shape_of w)); [|done]. intros. apply keeps_SendUpdate. auto.
Qed.
Lemma answered_RaidConvert : answered (HandleGroupRaidConvertOpcode me) w.
Proof.
  destruct (at_sound w Hw) as [Ha L]. unfold HandleGroupRaidConvertOpcode. apply answered_group; [done..|].
  intros pl g b _ _ Hb Hne. destruct (InBattleground pl); [done|]. eapply answered_deref; [done|by eexists|]. intros gr _ _ _.
  destruct (_ || _); [done|]. apply answered_bind, wp_emit. eapply answered_linked. by eapply wp_ConvertToRaid.
Qed.
Lemma answered_ChangeSubGroup d :
  bb_wf d → Forall byte_ok (_storage d) → answered (HandleGroupChangeSubGroupOpcode me d) w.
Proof.
  intros Hd Hbytes. destruct (at_sound w Hw) as [Ha L]. unfold HandleGroupChangeSubGroupOpcode. apply answered_group; [done..|].
  intros pl g b _ _ Hb Hne. apply answered_reading_eq; [safe|done..|]. intros [name n] rest t Er _.
  assert (0 <= n) as Hn.
  { unfold mbind, act_bind in Er. pose proof (safe_string d Hd) as Hstr.
    destruct (rshift_string d) as [nm d1 t1|]; [|done]. destruct Hstr as [Est _]. rewrite <- Est in Hbytes.
    destruct (rshift_unsigned 1 d1) as [s d2 t2|] eqn:Es; [|done]. cbn in Er. injection Er as <- <- <- <-.
    exact (rshift_byte_nonneg _ _ _ _ Hbytes Es). }
  destruct (Z.leb_spec MAX_RAID_SUBGROUPS n) as [|Hlt]; [done|]. eapply answered_deref; [done|by eexists|]. intros gr _ Hbr _.
  destruct (_ && _); [done|]. assert (b = blur gr) as -> by congruence.
  assert (size_ok (blur gr)) as Hsz by (by apply (k_size _ _ (k_regs _ _ L) g)).
  unfold HasFreeSlotSubGroup. change (m_subGroupsCounts gr) with (m_subGroupsCounts (blur gr)).
  unfold size_ok, sizes_ok in Hsz. destruct (isRaidGroup (blur gr)); [|by destruct Hsz as [-> _]].
  destruct Hsz as [-> _]. rewrite sub_counts_lookup by (change MAX_RAID_SUBGROUPS with 8 in Hlt; lia). rewrite Z2Nat.id by done.
  apply answered_bind, wp_ret. destruct (Z.ltb_spec (in_subgroup n (m_memberSlots (blur gr))) MAXGROUPSIZE); [|done]. cbn [negb].
  apply answered_get. cbv zeta. eapply answered_linked. by eapply wp_ChangeMembersGroup.
Qed.
End Changed.
(** ** Invitations made and accepted *)

Lemma found_player name w p pl : FindPlayerByName name w = Some (p, pl) → players w !! p = Some pl.
Proof.
  unfold FindPlayerByName. intros Hf%head_Some_elem_of. apply list_elem_of_filter in Hf as [_ Hf].
  by apply hash_iter_elem in Hf.
Qed.
(** The request does not name the player himself. *)
Definition other_invited (me : Z) (d : ByteBuffer) (w : GroupWorld) : Prop :=
  ∀ name rest t name' pl, (name ← rshift_string; read_skip 4 ;; mret name) d = Done name rest t →
    normalizePlayerName name = Some name' → FindPlayerByName name' w ≠ Some (me, pl).
(** The one who made a group does not accept his own invitation to it. *)
Definition other_leads (me : Z) (w : GroupWorld) : Prop :=
  ∀ pl g gr, players w !! me = Some pl → m_groupInvite pl = Some g → groups w !! g = Some gr →
    IsLeader me gr = true → m_memberSlots gr ≠ [].

Section Joined.
Context (me : Z) (w : GroupWorld) (Hw : sound w) (Hme : is_Some (players w !! me)).

Lemma answered_Invite d : bb_wf d → other_invited me d w → answered (HandleGroupInviteOpcode me d) w.
Proof.
  intros Hd Hother. destruct (at_sound w Hw) as [Ha L]. unfold HandleGroupInviteOpcode.
  apply answered_reading_eq; [safe|done..|]. intros name0 rest t Er _.
  destruct (normalizePlayerName name0) as [name|] eqn:En; [|done]. apply answered_get.
  eapply answered_player; [done|by apply me_in|]. intros pl _ Hb _.
  destruct (FindPlayerByName name w) as [[target player]|] eqn:Ef; [|done].
  assert (me ≠ target) as Hne by (intros ->; by eapply Hother).
  pose proof (found_player _ _ _ _ Ef) as Ht. pose proof (at_player_blur _ _ _ _ Ha Ht) as Hbt.
  destruct (invite_refused me pl player); [done|].
  apply answered_bind. eapply wp_mono; [by eapply wp_normal_group|]. intros group w1 t1 [-> Hg1].
  apply answered_bind. eapply wp_mono; [by eapply wp_normal_group|]. intros group2 w2 t2 [-> Hg2].
  destruct (bool_decide (is_Some group2) || bool_decide (is_Some (m_groupInvite player))) eqn:Eb.
  { apply answered_bind, wp_emit. by destruct (bool_decide _). }
  apply orb_false_iff in Eb as [Eb1%bool_decide_eq_false Eb2%bool_decide_eq_false].
  destruct group2; [by destruct Eb1|]. destruct (m_groupInvite player) eqn:Ei; [by destruct Eb2|].
  apply answered_bind. apply wp_mono with (P := λ _ w' _, w' = w).
  { destruct group as [g|]; [|by apply wp_ret]. destruct Hg1 as (b & Hgb & _). apply wp_bind. eapply wp_deref; [done|by eexists|].
    intros gr _ _ _. by apply wp_ret. }
  intros refusal w3 t3 ->. destruct refusal; [done|]. apply answered_wp, wp_bind.
  eapply wp_mono; [eapply wp_invite_to; [done|done|by apply me_in|exact Hbt|by apply Hg2|done|]|].
  - intros g ->. exact Hg1.
  - intros ok w4 t4 Hw4. apply wp_when; [intros _|done]. apply wp_bind, wp_emit. by apply wp_emit.
Qed.

Lemma full_blur gr : IsFull (blur gr) = IsFull gr.
Proof. unfold IsFull. change (isRaidGroup (blur gr)) with (isRaidGroup gr). cbn [blur m_memberSlots]. by rewrite length_fmap. Qed.
(** A member more, and the others are told. *)
Lemma answered_join sh g b l v : at_shape sh v → links None sh → sh_groups sh !! g = Some b → m_memberSlots b ≠ [] →
  IsFull b = false → sh_players sh !! me = Some l → l_invite l = None →
  answered (ok ← AddMember g me; when ok (BroadcastGroupUpdate g)) v.
Proof.
  intros Ha L Hg Hne Hf Hp Hi. apply answered_bind. eapply wp_mono; [eapply (wp_group_AddMember sh v g b me l); try done|].
  - by apply links_weaken.
  - by apply (k_size _ _ (k_regs _ _ L) g).
  - intros Hs. by apply (k_created _ _ (k_regs _ _ L) g b).
  - intros ok v1 t1 [-> (s & _ & _ & sh1 & l1 & k1 & Hv1 & L1 & V1 & _)]. eapply answered_keeps; [done..|].
    apply keeps_BroadcastGroupUpdate. eapply g_in_view; [exact V1|]. by apply on_sh_group_in; eexists.
Qed.
Lemma answered_Accept d : bb_wf d → other_leads me w → ids_left (shape_of w) → answered (HandleGroupAcceptOpcode me d) w.
Proof.
  intros Hd Hother Hids. destruct (at_sound w Hw) as [Ha L]. unfold HandleGroupAcceptOpcode.
  apply answered_reading; [safe|done..|]. intros [] rest _. eapply answered_player; [done|by apply me_in|]. intros pl Hpl Hb _.
  destruct (m_groupInvite pl) as [g|] eqn:Ei; [|done].
  destruct (k_invite _ _ (k_invs _ _ L) me _ g Hb Ei) as (b & Hgb & Hin).
  eapply answered_deref; [done|by eexists|]. intros gr Hgr Hbr _. assert (b = blur gr) as -> by congruence.
  pose proof (Hother pl g gr Hpl Ei Hgr) as Hlead. destruct (created_blur _ g gr L Hgb) as [_ Hcreated].
  assert (IsLeader me gr = false → m_leaderGuid (blur gr) ≠ me) as Hnl.
  { intros Hl He. unfold IsLeader in Hl. apply Z.eqb_neq in Hl. by apply Hl. }
  apply answered_bind. eapply wp_RemoveInvite; [done|by eexists|by eexists|]. intros w1 Hw1.
  set (sh1 := sh_uninvite g me (shape_of w)) in *.
  assert (links None sh1) as L1.
  { eapply links_uninvite; [done..|]. right. destruct (IsLeader me gr); [left|by right; apply Hnl].
    intros He. apply (Hlead eq_refl). cbn in He. by destruct (m_memberSlots gr). }
  assert (sound w1) as Hs1 by by eapply sound_at.
  assert (sh_groups sh1 !! g = Some (rm_inv me (blur gr))) as Hg1 by by apply on_sh_group_at.
  assert (sh_players sh1 !! me = Some (no_inv (blur_player pl))) as Hp1 by by apply uninvite_player.
  destruct (IsLeader me gr) eqn:El; [done|]. specialize (Hnl eq_refl).
  destruct (IsFull gr) eqn:Ef; [done|]. apply answered_get. cbv zeta.
  destruct (IsCreated gr) eqn:Ec; cbn [negb andb].
  { cbn [when]. apply answered_bind, wp_ret. eapply (answered_join sh1); [exact Hw1|done|exact Hg1|by apply Hcreated| |exact Hp1|done].
    change (IsFull (blur gr) = false). by rewrite full_blur. }
  assert (m_memberSlots (blur gr) = []) as He.
  { destruct (m_memberSlots (blur gr)) eqn:E; [done|]. exfalso. enough (false = true) by done. by apply Hcreated. }
  assert (m_leaderGuid (blur gr) ∈ m_invitees (blur gr)) as Hli.
  { apply (k_leader _ _ (k_invs _ _ L) g (blur gr)); [done..|]. set_solver. }
  destruct (k_invitee _ _ (k_invs _ _ L) g _ _ Hgb Hli) as (ll & Hll & Hil).
  set (leader := m_leaderGuid gr) in *. change (m_leaderGuid (blur gr)) with leader in *.
  assert (sh_players sh1 !! leader = Some ll) as Hll1 by (cbn; by rewrite lookup_alter_ne).
  destruct (is_online leader w1); cbn [negb].
  2:{ apply answered_wp. eapply wp_RemoveAllInvites; [done..| |].
      - intros q Hq. destruct (k_invitee _ _ (k_invs _ _ L1) g _ q Hg1 Hq) as (l & Hl & _). by exists l.
      - intros w2 Hw2. eapply sound_at; [done|]. by apply links_uninvite_all. }
  cbn [when]. apply answered_bind, wp_bind.
  eapply wp_RemoveInvite; [done|by eexists|by eexists|]. intros w2 Hw2. set (sh2 := sh_uninvite g leader sh1) in *.
  assert (links (Some g) sh2) as L2 by (eapply links_uninvite; [by apply links_weaken|done..|by left]).
  assert (sh_groups sh2 !! g = Some (rm_inv leader (rm_inv me (blur gr)))) as Hg2 by by apply on_sh_group_at.
  pose proof (k_uncreated _ _ (k_regs _ _ L) g _ Hgb) as Hun. destruct Hun as [Hst Hraid]; [done..|].
  apply wp_bind. eapply wp_mono; [eapply (wp_group_Create sh2 w2 g _ leader (no_inv ll)); try done|].
  - by apply (k_size _ _ (k_regs _ _ L) g (blur gr)).
  - by apply (no_store (shape_of w) g (blur gr)).
  - unfold ids_left in *. assert (base.size (sh_groups sh2) = base.size (sh_groups (shape_of w))) as ->; [|done].
    rewrite <- (map_size_fmap m_memberSlots (sh_groups sh2)), <- (map_size_fmap m_memberSlots (sh_groups (shape_of w))).
    f_equal. cbn. rewrite fmap_alter_same by done. by apply fmap_alter_same.
  - by apply uninvite_player.
  - intros ok w3 t3 [-> (sh3 & b3 & Hw3 & L3 & V3 & Hg3 & Hlen & Hr3)].
    assert (keeps (at_shape sh3) (AddGroup g)) as K.
    { unfold AddGroup. apply keeps_deref; [by eexists|]. intros gr3 _ _. apply keeps_modify. intros w' Hw'.
      eapply (at_modify sh3 w' (λ w, w <| GroupStore ::= _ |>)); [done..|]. by destruct Hw' as [<- _]. }
    eapply wp_mono; [by apply K|]. intros [] w4 t4 Hw4.
    assert (∃ l3, sh_players sh3 !! me = Some l3 ∧ l_invite l3 = None) as (l3 & Hl3 & Hi3).
    { assert (sh_players sh2 !! me = Some (no_inv (blur_player pl))) as Hp2 by (cbn; rewrite lookup_alter_ne by done; exact Hp1).
      destruct (fmap_eq_lookup _ _ _ _ _ _ (eq_sym V3) Hp2) as (l3 & Hl3 & E). exists l3. split; [done|]. by rewrite <- E. }
    eapply (answered_join sh3); [exact Hw4|done|exact Hg3| | |exact Hl3|done].
    + by destruct (m_memberSlots b3).
    + unfold IsFull. rewrite Hr3, Hlen. done.
Qed.
End Joined.
(** ** Players enter and leave *)

Lemma links_delete_player p l sh :
  links None sh → sh_players sh !! p = Some l → l_group l = None → l_original l = None → l_invite l = None →
  links None (sh <| sh_players ::= delete p |>).
Proof.
  intros [[R1 R2 R3] [I1 I2 I3] [G1 G2 G3 G4 G5 G6 G7]] Hp Hg Ho Hi.
  assert (∀ q l', sh_players sh !! q = Some l' → q ≠ p → delete p (sh_players sh) !! q = Some l') as Hd
    by (intros q l' Hq Hne; by rewrite lookup_delete_ne).
  split; split; cbn; try done.
  - intros q l' k g [_ Hq]%lookup_delete_Some. by apply R1.
  - intros g b k q Hb Hin. destruct (R2 g b k q Hb Hin) as (l' & Hl' & Hk). exists l'. split; [|done]. apply Hd; [done|].
    intros ->. assert (l' = l) as -> by congruence. destruct k; cbn in Hk; congruence.
  - intros q l' g [_ Hq]%lookup_delete_Some. by apply I1.
  - intros g b q Hb Hin. destruct (I2 g b q Hb Hin) as (l' & Hl' & Hk). exists l'. split; [|done]. apply Hd; [done|].
    intros ->. congruence.
Qed.
Lemma links_insert_player p l sh :
  links None sh → sh_players sh !! p = None → l_group l = None → l_original l = None → l_invite l = None →
  links None (sh <| sh_players ::= <[p := l]> |>).
Proof.
  intros [[R1 R2 R3] [I1 I2 I3] [G1 G2 G3 G4 G5 G6 G7]] Hp Hg Ho Hi.
  assert (∀ q l', sh_players sh !! q = Some l' → <[p := l]> (sh_players sh) !! q = Some l') as Hd.
  { intros q l' Hq. rewrite lookup_insert_ne; [done|]. congruence. }
  split; split; cbn; try done.
  - intros q l' k g [[<- <-]|[_ Hq]]%lookup_insert_Some Hk; [destruct k; cbn in Hk; congruence|by eapply R1].
  - intros g b k q Hb Hin. destruct (R2 g b k q Hb Hin) as (l' & Hl' & Hk). exists l'. auto.
  - intros q l' g [[<- <-]|[_ Hq]]%lookup_insert_Some Hk; [congruence|by eapply I1].
  - intros g b q Hb Hin. destruct (I2 g b q Hb Hin) as (l' & Hl' & Hk). exists l'. auto.
Qed.
Lemma wp_delete_player sh0 w p : uninvited p sh0 w → wp (delete_player p) (λ _ w' _, sound w') w.
Proof.
  intros (sh & l & Hw & L & _ & Hp & Hi). assert (p_in p sh) as Hpi by by eexists. unfold delete_player.
  apply wp_bind. eapply wp_unlink; [done|apply L|done|]. intros w1 Hw1.
  set (sh1 := sh_unlink RGroup p sh) in *. assert (links None sh1) as L1 by by apply links_unlink.
  assert (p_in p sh1) as Hp1 by (eapply p_in_view; [apply inv_view_unlink|done]).
  apply wp_bind. eapply wp_unlink; [done|apply L1|done|]. intros w2 Hw2.
  set (sh2 := sh_unlink ROriginal p sh1) in *. assert (links None sh2) as L2 by by apply links_unlink.
  assert (inv_view sh2 = inv_view sh) as V by (unfold sh2, sh1; by rewrite !inv_view_unlink).
  apply wp_modify. pose proof Hw2 as [Es [D1 D2 D3]].
  assert (is_Some (sh_players sh2 !! p)) as [l2 Hl2] by (eapply p_in_view; [exact V|done]).
  assert (l_original l2 = None) as Ho2 by by apply (unlinked ROriginal p sh1).
  assert (l_group l2 = None) as Hg2.
  { destruct Hp1 as [l1 Hl1]. pose proof (unlinked RGroup p sh l1 Hl1) as Hn. cbn in Hn.
    unfold sh2, sh_unlink in Hl2. rewrite Hl1 in Hl2. cbn in Hl2. destruct (l_original l1) as [g|]; cbn in Hl2; [|congruence].
    rewrite lookup_alter_eq, Hl1 in Hl2. cbn in Hl2. injection Hl2 as <-. done. }
  assert (l_invite l2 = None) as Hi2.
  { injection V as _ V. destruct (fmap_eq_lookup _ _ _ _ _ _ (eq_sym V) Hp) as (l2' & Hl2' & E). congruence. }
  split.
  - pose proof (links_delete_player p l2 sh2 L2 Hl2 Hg2 Ho2 Hi2) as L3. rewrite <- Es in L3.
    assert (shape_of (w2 <| players ::= delete p |>) = (shape_of w2) <| sh_players ::= delete p |>) as ->; [|done].
    apply shape_eq; try done. cbn. by rewrite fmap_delete.
  - split; cbn; [done| |done]. intros q pl [_ Hq]%lookup_delete_Some. by eapply D2.
Qed.
Lemma wp_LogoutPlayer sh w p socket :
  at_shape sh w → links None sh → p_in p sh → wp (LogoutPlayer p socket) (λ _ w' _, uninvited p sh w') w.
Proof.
  intros Hw L Hp. unfold LogoutPlayer. apply wp_bind. eapply wp_mono; [by apply wp_UninviteFromGroup|].
  intros [] w1 t1 (sh1 & l1 & Hw1 & L1 & M1 & Hp1 & Hi1). apply wp_bind. eapply wp_player_of; [done|by eexists|]. intros pl1 _ Hb1 _.
  apply wp_bind. apply wp_mono with (P := λ _ w' _, uninvited p sh w').
  - assert (uninvited p sh w1) as Hu by by exists sh1, l1.
    destruct (GetGroup pl1) as [g|] eqn:Eg; [|by apply wp_ret]. destruct (group_of _ _ _ _ L1 Hb1 Eg) as (b & Hgb & Hne).
    apply wp_bind. eapply wp_deref; [done|by eexists|]. intros gr _ _ _. apply wp_when; [intros _|done].
    eapply wp_mono; [by eapply wp_RemoveFromGroup|]. intros [] w2 t2 Hw2. eapply uninvited_mono; [exact M1|].
    exact (linked_uninvited p sh1 l1 w2 Hw2 Hp1 Hi1).
  - intros [] w2 t2 (sh2 & l2 & Hw2 & L2 & M2 & Hp2 & Hi2). apply wp_bind. eapply wp_player_of; [done|by eexists|]. intros pl2 _ Hb2 _.
    destruct (GetGroup pl2) as [g|] eqn:Eg; [|by apply wp_ret; exists sh2, l2].
    destruct (group_of _ _ _ _ L2 Hb2 Eg) as (b & Hgb & _). assert (g_in g sh2) as Hg2 by by eexists.
    eapply wp_mono with (P := λ _ w' _, at_shape sh2 w'); [|intros [] w3 t3 Hw3; by exists sh2, l2].
    apply (wp_then (at_shape sh2)); [done|by apply keeps_SendUpdate|]. intros [] w3 Hw3. by apply keeps_ResetMaxEnchantingLevel.
Qed.
(** A player who enters has no group yet, and finds his own by its id. *)
Definition enter (me : Z) (pl : Player) (storage : option Z) : gact unit :=
  modify (λ w, w <| players ::= <[me := pl]> |>) ;; _LoadGroup me storage.
Lemma GetMemberGroup_range sh g gr guid : links None sh → sh_groups sh !! g = Some (blur gr) → 0 <= GetMemberGroup guid gr < 128.
Proof.
  intros L Hg. unfold GetMemberGroup. destruct (_getMemberSlot guid gr) as [s|] eqn:Es; [|done].
  apply head_Some_elem_of, list_elem_of_filter in Es as [_ Hin].
  assert (size_ok (blur gr)) as Hsz by (by apply (k_size _ _ (k_regs _ _ L) g)).
  assert (blur_slot s ∈ m_memberSlots (blur gr)) as Hb by by apply list_elem_of_fmap_2.
  unfold size_ok, sizes_ok in Hsz. destruct (isRaidGroup (blur gr)); destruct Hsz as (_ & Hall & _);
    rewrite Forall_forall in Hall; specialize (Hall _ Hb); cbn in Hall; [change MAX_RAID_SUBGROUPS with 8 in Hall|]; lia.
Qed.
Lemma keeps_LoadGroup sh0 p storage : links None sh0 → p_in p sh0 → keeps (relinked None sh0) (_LoadGroup p storage).
Proof.
  intros L0 Hp w Hw. unfold _LoadGroup. destruct storage as [id|]; [|by apply wp_ret]. apply wp_bind, wp_get.
  destruct (GetGroupByDbStoreId id w) as [g|] eqn:Eg; [|by apply wp_ret].
  destruct Hw as (sh & Hw & L & V1 & V2). unfold GetGroupByDbStoreId in Eg. pose proof Hw as [Es _].
  assert (sh_store sh !! Z.to_nat id = Some (Some g)) as Hst.
  { subst sh. cbn. by destruct (GroupDbStore w !! Z.to_nat id) as [[]|]; simplify_eq/=. }
  destruct (k_store _ _ (k_regs _ _ L) _ _ Hst) as (b & Hb & _ & _ & _ & Hne). apply wp_bind.
  eapply wp_deref; [done|by eexists|]. intros gr _ Hbr _. assert (b = blur gr) as -> by congruence.
  assert (g_in g sh0) as Hg0 by (eapply g_in_view; [by symmetry|by eexists]).
  assert (linkable None sh0 g) as Hl.
  { right. injection V1 as V _ _ _. destruct (fmap_eq_lookup _ _ _ _ _ _ V Hb) as (b0 & Hb0 & E). exists b0. split; [done|].
    injection E as <- _. by apply Hne. }
  apply (wp_then (relinked None sh0)); [by exists sh| |].
  { eapply joins_keeps, joins_SetGroup; [done..|]. by eapply GetMemberGroup_range. }
  intros [] w1 (sh1 & Hw1 & L1 & V1' & V2'). assert (p_in p sh1) as Hp1 by by eapply p_in_view. apply wp_bind.
  eapply wp_player_of; [done|done|]. intros pl _ _ _. apply wp_bind. eapply wp_deref; [done|by eapply g_in_view|]. intros gr1 _ _ Hd.
  apply wp_when; [intros _|intros _; by exists sh1].
  assert (keeps (at_shape sh1) (on_player p (λ pl, pl <| GetDungeonDifficulty := m_dungeonDifficulty gr1 |>
    <| GetRaidDifficulty := m_raidDifficulty gr1 |>))) as K.
  { destruct Hd. apply keeps_group_player; try done. intros ? []. by split. }
  eapply wp_mono; [by apply K|]. intros [] w2 t2 Hw2. by exists sh1.
Qed.
Lemma wp_enter w p pl storage :
  sound w → players w !! p = None → player_det pl → GetGroup pl = None → GetOriginalGroup pl = None → m_groupInvite pl = None →
  wp (enter p pl storage) (λ _ w' _, sound w') w.
Proof.
  intros [L [D1 D2 D3]] Hp Hd Hg Ho Hi. unfold enter. apply wp_bind, wp_modify. set (w1 := w <| players ::= <[p := pl]> |>).
  set (sh1 := (shape_of w) <| sh_players ::= <[p := blur_player pl]> |>).
  assert (at_shape sh1 w1) as Hw1.
  { split.
    - apply shape_eq; try done. cbn. by rewrite fmap_insert.
    - split; cbn; [done| |done]. intros q pl' [[<- <-]|[_ Hq]]%lookup_insert_Some; [done|by eapply D2]. }
  assert (links None sh1) as L1.
  { apply links_insert_player; try done. cbn. by rewrite lookup_fmap, Hp. }
  eapply wp_mono; [apply (keeps_LoadGroup sh1); [done| |by apply relinked_here]|].
  - unfold p_in. cbn. rewrite lookup_insert_eq. by eexists.
  - intros [] w2 t2 (sh2 & Hw2 & L2 & _). by eapply sound_at.
Qed.
End Requests.
