(* ===== verification/GroupTheorems.v ===== *)
(** What the group code guarantees: the claims about Group.v and GroupHandler.v,
    with a small concrete server on which they are tried. *)

From S2P Require Import Prelude ByteBuffer Util Rbac Channel Social Group GroupHandler GroupRules GroupWorlds GroupMembers GroupRegistry GroupRequests.
Open Scope string_scope.
Open Scope list_scope.
Open Scope Z_scope.

(** ** Requests *)

(** A packet of GroupHandler.cpp, or a player who enters or leaves. *)
Inductive group_request :=
  | RqInvite (d : ByteBuffer) | RqAccept (d : ByteBuffer) | RqDecline | RqUninviteGuid (d : ByteBuffer)
  | RqUninvite (d : ByteBuffer) | RqSetLeader (d : ByteBuffer) | RqDisband | RqLootMethod (d : ByteBuffer)
  | RqLootRoll (d : ByteBuffer) | RqMinimapPing (d : ByteBuffer) | RqRandomRoll (d : ByteBuffer)
  | RqRaidTarget (d : ByteBuffer) | RqRaidConvert | RqChangeSubGroup (d : ByteBuffer)
  | RqAssistantLeader (d : ByteBuffer) | RqPartyAssignment (d : ByteBuffer) | RqReadyCheck (d : ByteBuffer)
  | RqOptOut (d : ByteBuffer) | RqMemberStats (d : ByteBuffer) | RqRaidInfo | RqLogout (socket : bool) | RqEnter (pl : Player) (storage : option Z).

Section Serve.
Context `{GroupEnv, GroupHandlerEnv}.

Definition serve (me : Z) (r : group_request) : gact unit :=
  match r with
  | RqInvite d => HandleGroupInviteOpcode me d
  | RqAccept d => HandleGroupAcceptOpcode me d
  | RqDecline => HandleGroupDeclineOpcode me
  | RqUninviteGuid d => HandleGroupUninviteGuidOpcode me d
  | RqUninvite d => HandleGroupUninviteOpcode me d
  | RqSetLeader d => HandleGroupSetLeaderOpcode me d
  | RqDisband => HandleGroupDisbandOpcode me
  | RqLootMethod d => HandleLootMethodOpcode me d
  | RqLootRoll d => HandleLootRoll me d
  | RqMinimapPing d => HandleMinimapPingOpcode me d
  | RqRandomRoll d => HandleRandomRollOpcode me d
  | RqRaidTarget d => HandleRaidTargetUpdateOpcode me d
  | RqRaidConvert => HandleGroupRaidConvertOpcode me
  | RqChangeSubGroup d => HandleGroupChangeSubGroupOpcode me d
  | RqAssistantLeader d => HandleGroupAssistantLeaderOpcode me d
  | RqPartyAssignment d => HandlePartyAssignmentOpcode me d
  | RqReadyCheck d => HandleRaidReadyCheckOpcode me d
  | RqOptOut d => HandleOptOutOfLootOpcode me d
  | RqMemberStats d => HandleRequestPartyMemberStatsOpcode me d
  | RqRaidInfo => HandleRequestRaidInfoOpcode me
  | RqLogout socket => LogoutPlayer me socket ;; delete_player me
  | RqEnter pl storage => modify (λ w, w <| players ::= <[me := pl]> |>) ;; _LoadGroup me storage
  end.

Definition packet_of (r : group_request) : option ByteBuffer :=
  match r with
  | RqInvite d | RqAccept d | RqUninviteGuid d | RqUninvite d | RqSetLeader d | RqLootMethod d | RqLootRoll d
  | RqMinimapPing d | RqRandomRoll d | RqRaidTarget d | RqChangeSubGroup d | RqAssistantLeader d
  | RqPartyAssignment d | RqReadyCheck d | RqOptOut d | RqMemberStats d => Some d
  | _ => None
  end.
(** Packets are of bytes.  A player is in the world when he asks, and new when he
    enters.  No one invites himself, or accepts his own invitation to a group
    that does not exist yet; group ids are not exhausted. *)
Definition honest (me : Z) (r : group_request) (w : GroupWorld) : Prop :=
  (∀ d, packet_of r = Some d → bb_wf d ∧ Forall byte_ok (_storage d)) ∧
  match r with
  | RqEnter pl _ => players w !! me = None ∧ player_det pl ∧ GetGroup pl = None ∧ GetOriginalGroup pl = None ∧ m_groupInvite pl = None
  | _ => is_Some (players w !! me)
  end ∧
  match r with
  | RqInvite d => other_invited me d w
  | RqAccept _ => other_leads me w ∧ Z.of_nat (base.size (groups w)) < 0xFFFFFFF0
  | _ => True
  end.
(** A request is served; or some other part of the server changes what no link
    is about: levels, places, binds, loot and rolls. *)
Inductive group_step : GroupWorld → GroupWorld → Prop :=
  | step_served me r w w' t : honest me r w → serve me r w = Done tt w' t → group_step w w'
  | step_short me r w w' pos n size t :
      honest me r w → serve me r w = Fault (BBPosition false pos n size) w' t → group_step w w'
  | step_elsewhere w w' :
      shape_of w' = (shape_of w) <| sh_loots := loot_size <$> loots w' |> → details w' → group_step w w'.
End Serve.

(** The world when the server starts, without stored groups. *)
Definition empty_world : GroupWorld := mkGroupWorld ∅ 1 ∅ ∅ [] 1 1 ∅ 1 0.

Section Theorems.
Context `{GroupLaws, GroupHandlerEnv}.

Lemma serve_answered me r w : sound w → honest me r w → answered (serve me r) w.
Proof.
  intros Hw (Hd & Hme & Hr). destruct r; cbn [serve packet_of] in *; try (destruct (Hd _ eq_refl) as [Hwf Hb]).
  - by apply answered_Invite.
  - destruct Hr as [Hr Hids]. apply answered_Accept; try done. unfold ids_left. cbn. by rewrite map_size_fmap.
  - by apply answered_Decline.
  - by apply answered_UninviteGuid.
  - by apply answered_Uninvite.
  - by apply answered_SetLeader.
  - by apply answered_Leave.
  - by apply answered_LootMethod.
  - by apply answered_LootRoll.
  - by apply answered_MinimapPing.
  - by apply answered_RandomRoll.
  - by apply answered_RaidTarget.
  - by apply answered_RaidConvert.
  - by apply answered_ChangeSubGroup.
  - by apply answered_AssistantLeader.
  - by apply answered_PartyAssignment.
  - by apply answered_ReadyCheck.
  - by apply answered_OptOut.
  - by apply answered_MemberStats.
  - by apply answered_RaidInfo.
  - destruct (at_sound w Hw) as [Ha L]. apply answered_wp, wp_bind.
    eapply wp_mono; [by apply wp_LogoutPlayer; [..|apply me_in]|]. intros [] w1 t1 Hw1.
    eapply wp_mono; [by eapply wp_delete_player|]. done.
  - destruct Hme as (Hn & Hdet & Hg & Ho & Hi). apply answered_wp. by apply wp_enter.
Qed.
Lemma sound_empty : sound empty_world.
Proof.
  assert (∀ g b, sh_groups (shape_of empty_world) !! g = Some b → False) as Hg
    by (intros g b Hb; cbn in Hb; by rewrite lookup_fmap, lookup_empty in Hb).
  assert (∀ p l, sh_players (shape_of empty_world) !! p = Some l → False) as Hp
    by (intros p l Hl; cbn in Hl; by rewrite lookup_fmap, lookup_empty in Hl).
  assert (∀ i g, sh_store (shape_of empty_world) !! i = Some (Some g) → False) as Hi by (intros i g Hi; by destruct i).
  split; [|by split; intros; simplify_map_eq]. split; split; try (intros; exfalso; by eauto).
  - cbn. lia.
  - split; [done|]. intros g Hs. by eapply Hi.
  - intros g [b Hb]. exfalso. by eapply Hg.
Qed.
Lemma reachable_sound w : rtc group_step empty_world w → sound w.
Proof.
  intros Hr. pose proof sound_empty as Hs. induction Hr as [|w w1 w2 Hstep _ IH]; [done|]. apply IH.
  destruct Hstep as [me r w w1 t Hh E|me r w w1 pos n size t Hh E|w w1 E D].
  - pose proof (serve_answered me r w Hs Hh) as Ha. unfold answered in Ha. by rewrite E in Ha.
  - pose proof (serve_answered me r w Hs Hh) as Ha. unfold answered in Ha. rewrite E in Ha. by destruct Ha.
  - split; [|done]. rewrite E. destruct Hs as [[R I [G1 G2 G3 G4 G5 G6 G7]] _]. split; [|by eapply (invs_view _ (shape_of w))|by split].
    by eapply (refs_view _ (shape_of w)).
Qed.

(** ** Links *)

Lemma sound_size w g gr : sound w → groups w !! g = Some gr → size_ok (blur gr).
Proof.
  intros [L D] Hg. apply (k_size _ _ (k_regs _ _ L) g); [|done]. cbn. by rewrite lookup_fmap, Hg.
Qed.
Lemma sound_group w g gr : groups w !! g = Some gr → sh_groups (shape_of w) !! g = Some (blur gr).
Proof. intros Hg. cbn. by rewrite lookup_fmap, Hg. Qed.
Lemma sound_player w p pl : players w !! p = Some pl → sh_players (shape_of w) !! p = Some (blur_player pl).
Proof. intros Hg. cbn. by rewrite lookup_fmap, Hg. Qed.
Lemma group_unblur w g b : sh_groups (shape_of w) !! g = Some b → ∃ gr, groups w !! g = Some gr ∧ b = blur gr.
Proof. cbn. rewrite lookup_fmap. destruct (groups w !! g) as [gr|]; [|done]. intros [= <-]. by exists gr. Qed.
Lemma player_unblur w g b : sh_players (shape_of w) !! g = Some b → ∃ gr, players w !! g = Some gr ∧ b = blur_player gr.
Proof. cbn. rewrite lookup_fmap. destruct (players w !! g) as [gr|]; [|done]. intros [= <-]. by exists gr. Qed.
Lemma size_explicit gr : size_ok (blur gr) →
  if isRaidGroup gr then
    Z.of_nat (length (m_memberSlots gr)) <= MAXRAIDSIZE ∧
    ∃ c, m_subGroupsCounts gr = Some c ∧ length c = 8%nat ∧
      ∀ i n, c !! i = Some n → n = Z.of_nat (length (filter (λ s, MemberSlot.group s = Z.of_nat i) (m_memberSlots gr))) ∧ n <= MAXGROUPSIZE
  else m_subGroupsCounts gr = None ∧ Z.of_nat (length (m_memberSlots gr)) <= MAXGROUPSIZE.
Proof.
  intros Hs. pose proof (size_bound _ Hs) as Hb. cbn [blur m_memberSlots] in Hb. rewrite length_fmap in Hb.
  unfold size_ok, sizes_ok in Hs. change (isRaidGroup (blur gr)) with (isRaidGroup gr) in Hs.
  change (m_memberSlots (blur gr)) with (blur_slot <$> m_memberSlots gr) in Hs. rewrite sub_counts_blur, length_fmap in Hs.
  destruct (isRaidGroup gr).
  - destruct Hs as (Hc & _ & Hn). split; [done|]. eexists. split; [exact Hc|]. split; [apply sub_counts_length|].
    intros i n Hi. pose proof (lookup_lt_Some _ _ _ Hi) as Hlt. rewrite sub_counts_length in Hlt.
    rewrite Forall_lookup in Hn. split; [|by eapply Hn]. rewrite sub_counts_lookup in Hi by done. by simplify_eq.
  - by destruct Hs as (Hc & _ & Hn).
Qed.


(** C3: In every world that requests lead to from a fresh server, whoever sends
    them and in whatever order, as long as each is honest as in C2 (nobody
    invites himself or accepts his own invitation to a group not yet created):
    a party has at most five members and no sub-groups; a raid has at most forty,
    its eight counters count the members of the sub-groups, and none has more
    than five. *)
Theorem group_limits w g gr : rtc group_step empty_world w → groups w !! g = Some gr →
  if isRaidGroup gr then
    Z.of_nat (length (m_memberSlots gr)) <= MAXRAIDSIZE ∧
    ∃ c, m_subGroupsCounts gr = Some c ∧ length c = 8%nat ∧
      ∀ i n, c !! i = Some n → n = Z.of_nat (length (filter (λ s, MemberSlot.group s = Z.of_nat i) (m_memberSlots gr))) ∧ n <= MAXGROUPSIZE
  else m_subGroupsCounts gr = None ∧ Z.of_nat (length (m_memberSlots gr)) <= MAXGROUPSIZE.
Proof. intros Hr Hg. eapply size_explicit, sound_size; [by apply reachable_sound|done]. Qed.

(** C4: In every world that requests lead to from a fresh server, as long as each
    is honest as in C2 (after a player invites himself it is false: he points to
    a deleted group): the group a player points to exists and has his reference
    on its list, as does the group that invited him, and the references and the
    invited on a group's lists are those of players that point to it (the lists
    are [m_memberMgr], of the players online, and [m_invitees]; the roster
    [m_memberSlots], which has the players offline too, is not tied to them); a
    group with an empty roster is one that waits for its first invitation to be
    accepted, whose leader is invited too; the groups in the database are the
    ones with a roster, each under an id of its own. *)
Theorem group_links w : rtc group_step empty_world w →
  (∀ p pl k g, players w !! p = Some pl → iRefTo (ref_of k pl) = Some g → ∃ gr, groups w !! g = Some gr ∧ (k, p) ∈ m_memberMgr gr) ∧
  (∀ g gr k p, groups w !! g = Some gr → (k, p) ∈ m_memberMgr gr → ∃ pl, players w !! p = Some pl ∧ iRefTo (ref_of k pl) = Some g) ∧
  (∀ p pl g, players w !! p = Some pl → m_groupInvite pl = Some g → ∃ gr, groups w !! g = Some gr ∧ p ∈ m_invitees gr) ∧
  (∀ g gr p, groups w !! g = Some gr → p ∈ m_invitees gr → ∃ pl, players w !! p = Some pl ∧ m_groupInvite pl = Some g) ∧
  (∀ g gr, groups w !! g = Some gr → m_memberSlots gr = [] →
     m_memberMgr gr = [] ∧ stored_group gr = true ∧ isRaidGroup gr = false ∧ (m_invitees gr ≠ ∅ → m_leaderGuid gr ∈ m_invitees gr)) ∧
  (∀ id g, GetGroupByDbStoreId id w = Some g ↔ ∃ gr, groups w !! g = Some gr ∧ m_memberSlots gr ≠ [] ∧ stored_group gr = true ∧
     m_dbStoreId gr = Z.of_nat (Z.to_nat id)).
Proof.
  intros Hr. destruct (reachable_sound w Hr) as [[R I G] D].
  assert (∀ k pl, l_ref k (blur_player pl) = iRefTo (ref_of k pl)) as Er by by intros [] pl.
  split; [|split; [|split; [|split; [|split]]]].
  - intros p pl k g Hp Hk. destruct (k_ref _ _ R p _ k g (sound_player w p pl Hp)) as (b & Hb & Hin); [by rewrite Er|].
    destruct (group_unblur w g b Hb) as (gr & Hgr & ->). by exists gr.
  - intros g gr k p Hg Hin. destruct (k_mgr _ _ R g _ k p (sound_group w g gr Hg) Hin) as (l & Hl & Hk).
    destruct (player_unblur w p l Hl) as (pl & Hpl & ->). exists pl. by rewrite <- Er.
  - intros p pl g Hp Hk. destruct (k_invite _ _ I p _ g (sound_player w p pl Hp) Hk) as (b & Hb & Hin).
    destruct (group_unblur w g b Hb) as (gr & Hgr & ->). by exists gr.
  - intros g gr p Hg Hin. destruct (k_invitee _ _ I g _ p (sound_group w g gr Hg) Hin) as (l & Hl & Hk).
    destruct (player_unblur w p l Hl) as (pl & Hpl & ->). by exists pl.
  - intros g gr Hg He. pose proof (sound_group w g gr Hg) as Hb.
    assert (m_memberSlots (blur gr) = []) as He' by (cbn; by rewrite He).
    split; [by apply (k_members _ _ R g (blur gr))|]. destruct (k_uncreated _ _ G g (blur gr)) as [Hs Hra]; [done..|].
    split; [done|]. split; [done|]. by apply (k_leader _ _ I g (blur gr)).
  - intros id g. unfold GetGroupByDbStoreId. split.
    + intros Hi. assert (sh_store (shape_of w) !! Z.to_nat id = Some (Some g)) as Hs
        by (cbn; destruct (GroupDbStore w !! Z.to_nat id) as [[]|]; by simplify_eq/=).
      destruct (k_store _ _ G _ _ Hs) as (b & Hb & Hid & _ & Hst & Hne). destruct (group_unblur w g b Hb) as (gr & Hgr & ->).
      exists gr. split; [done|]. split; [|done]. intros He. apply Hne; [done|]. cbn. by rewrite He.
    + intros (gr & Hg & Hne & Hst & Hid). pose proof (k_created _ _ G g (blur gr) (sound_group w g gr Hg)) as Hs.
      change (m_dbStoreId (blur gr)) with (m_dbStoreId gr) in Hs. rewrite Hid, Nat2Z.id in Hs. cbn in Hs. rewrite Hs; [done..| |done].
      by destruct (m_memberSlots gr).
Qed.
(** ** Members, leaders and the end of a group *)

(** The members of a group with their sub-groups. *)
Definition roster (gr : Group) : list (Z * Z) := (λ s, (MemberSlot.guid s, MemberSlot.group s)) <$> m_memberSlots gr.
Lemma roster_blur gr : roster (blur gr) = roster gr.
Proof. unfold roster. cbn. by rewrite <- list_fmap_compose. Qed.
Lemma created_registered sh g b : links None sh → sh_groups sh !! g = Some b → m_memberSlots b ≠ [] →
  size_ok b ∧ (stored_group b = true → sh_store sh !! Z.to_nat (m_dbStoreId b) = Some (Some g)).
Proof.
  intros L Hg Hne. split; [by apply (k_size _ _ (k_regs _ _ L) g)|]. intros Hs. by apply (k_created _ _ (k_regs _ _ L) g b).
Qed.

(** C26: A player without an invitation who is added to a group that is not full
    becomes its last member, in the first sub-group with room, and points to it;
    the other groups keep their members, and the world stays sound. *)
Theorem member_joins w g gr p pl : sound w → groups w !! g = Some gr → m_memberSlots gr ≠ [] → IsFull gr = false →
  players w !! p = Some pl → m_groupInvite pl = None →
  wp (AddMember g p) (λ ok w' _, ok = true ∧ sound w' ∧
    (∃ s gr', free_subgroup gr = Some s ∧ groups w' !! g = Some gr' ∧ roster gr' = roster gr ++ [(p, s)]) ∧
    (∃ pl' k, players w' !! p = Some pl' ∧ iRefTo (ref_of k pl') = Some g) ∧
    (∀ g' gr', g' ≠ g → groups w !! g' = Some gr' → ∃ gr'', groups w' !! g' = Some gr'' ∧ roster gr'' = roster gr')) w.
Proof.
  intros Hw Hg Hne Hf Hp Hi. destruct (at_sound w Hw) as [Ha L]. pose proof (sound_group w g gr Hg) as Hb.
  assert (m_memberSlots (blur gr) ≠ []) as Hne' by (cbn; by destruct (m_memberSlots gr)).
  destruct (created_registered _ g _ L Hb Hne') as [Hsz Hst].
  eapply wp_mono; [eapply (wp_group_AddMember _ w g (blur gr) p (blur_player pl)); try done|].
  - by apply links_weaken.
  - by rewrite full_blur.
  - by apply sound_player.
  - intros ok w' t [-> (s & Hs & _ & sh & l & k & Hw' & L' & V1 & V2 & Hl & Hk)]. split; [done|]. split; [by eapply sound_at|].
    pose proof Hw' as [Es _].
    assert (∀ g' b', sh_groups (on_sh_group g (push p s) (shape_of w)) !! g' = Some b' →
      ∃ gr', groups w' !! g' = Some gr' ∧ roster gr' = roster b') as Hr.
    { intros g' b' Hb'. destruct (view_slots _ sh g' b' V1 Hb') as (b1 & Hb1 & E1 & _). rewrite <- Es in Hb1.
      destruct (group_unblur w' g' b1 Hb1) as (gr' & Hgr' & ->). exists gr'. split; [done|]. rewrite <- roster_blur. unfold roster. by rewrite E1. }
    split; [|split].
    + destruct (Hr g _ (on_sh_group_at g (push p s) _ _ Hb)) as (gr' & Hgr' & E). exists s, gr'. split; [done|]. split; [done|].
      rewrite E. change (m_memberSlots (push p s (blur gr))) with (m_memberSlots (blur gr) ++ [new_slot p s]).
      unfold roster at 1. change (m_memberSlots (push p s (blur gr))) with (m_memberSlots (blur gr) ++ [new_slot p s]).
      rewrite fmap_app. f_equal. apply (roster_blur gr).
    + rewrite <- Es in Hl. destruct (player_unblur w' p l Hl) as (pl' & Hpl' & ->). exists pl', k. split; [done|]. by destruct k.
    + intros g' gr' Hne2 Hg'. apply (sound_group w) in Hg'. destruct (Hr g' (blur gr')) as (gr'' & Hgr'' & E).
      { cbn. rewrite lookup_alter_ne by done. exact Hg'. }
      exists gr''. by rewrite E, roster_blur.
Qed.

(** C25: Disbanding a group with members ends, with the group gone: no player
    points to it or is invited by it, no id leads to it, and the world is sound. *)
Theorem disband_leaves_nothing w g gr hide : sound w → groups w !! g = Some gr → m_memberSlots gr ≠ [] →
  wp (Disband g hide) (λ _ w' _, sound w' ∧ groups w' !! g = None ∧
    (∀ p pl k, players w' !! p = Some pl → iRefTo (ref_of k pl) ≠ Some g ∧ m_groupInvite pl ≠ Some g) ∧
    (∀ id, GetGroupByDbStoreId id w' ≠ Some g)) w.
Proof.
  intros Hw Hg Hne. destruct (at_sound w Hw) as [Ha L].
  eapply wp_mono; [eapply wp_group_Disband; [done|done|by apply sound_group|by cbn; destruct (m_memberSlots gr)]|].
  intros [] w' t (sh & [Es D] & L' & _ & Hno). rewrite <- Es in L', Hno. split; [by split|].
  assert (groups w' !! g = None) as Hn by (cbn in Hno; rewrite lookup_fmap in Hno; by destruct (groups w' !! g)).
  split; [done|]. split.
  - intros p pl k Hp. apply (sound_player w') in Hp. split; intros Hk.
    + destruct (k_ref _ _ (k_refs _ _ L') p _ k g Hp) as (b & Hb & _); [by destruct k|congruence].
    + destruct (k_invite _ _ (k_invs _ _ L') p _ g Hp Hk) as (b & Hb & _). congruence.
  - intros id Hid. assert (sh_store (shape_of w') !! Z.to_nat id = Some (Some g)) as Hs
      by (cbn; unfold GetGroupByDbStoreId in Hid; destruct (GroupDbStore w' !! Z.to_nat id) as [[]|]; by simplify_eq/=).
    destruct (k_store _ _ (k_regs _ _ L') _ _ Hs) as (b & Hb & _). congruence.
Qed.

(** C28: When the leader leaves, the first of the remaining members who is in the
    world leads; when another one leaves, or no one is in the world, the leader
    stays.  The members stay the same. *)
Theorem leadership_passes w g gr guid : sound w → groups w !! g = Some gr →
  wp (succeed_leader g guid) (λ _ w' _, sound w' ∧ ∃ gr', groups w' !! g = Some gr' ∧ roster gr' = roster gr ∧
    m_leaderGuid gr' = if m_leaderGuid gr =? guid
                       then match List.find (λ s, is_online (MemberSlot.guid s) w) (m_memberSlots gr) with
                            | Some s => MemberSlot.guid s
                            | None => guid
                            end
                       else m_leaderGuid gr) w.
Proof.
  intros Hw Hg. destruct (at_sound w Hw) as [Ha L]. pose proof (sound_group w g gr Hg) as Hb.
  unfold succeed_leader. apply wp_bind, wp_get, wp_bind. eapply wp_deref; [done|by eexists|]. intros gr0 Hgr0 _ _.
  assert (gr0 = gr) as -> by congruence. unfold IsLeader. destruct (Z.eqb_spec (m_leaderGuid gr) guid) as [He|].
  2:{ apply wp_ret. split; [done|]. by exists gr. }
  cbn [when]. destruct (List.find _ _) as [s|] eqn:Ef; [|apply wp_ret; split; [done|]; by exists gr].
  apply find_some in Ef as [Hin Hon].
  assert (leads (MemberSlot.guid s) gr w = true) as Hl.
  { unfold leads. rewrite Hon, andb_true_r. apply bool_decide_eq_true, slot_blur. cbn. rewrite <- list_fmap_compose.
    apply list_elem_of_fmap. exists s. split; [done|]. by apply list_elem_of_In. }
  eapply wp_mono; [by eapply wp_ChangeLeader|]. intros [] w' t Hw'. rewrite Hl in Hw'.
  set (sh' := on_sh_group g (lead (MemberSlot.guid s)) (shape_of w)) in *.
  assert (links None sh') as L' by (eapply links_lead; [done..|by eapply leads_members]).
  split; [by eapply sound_at|]. pose proof Hw' as [Es _].
  pose proof (on_sh_group_at g (lead (MemberSlot.guid s)) _ _ Hb) as Hg'. fold sh' in Hg'. rewrite <- Es in Hg'.
  destruct (group_unblur w' g _ Hg') as (gr' & Hgr' & E). exists gr'. split; [done|]. split.
  - rewrite <- (roster_blur gr'), <- E, <- (roster_blur gr). done.
  - change (m_leaderGuid gr') with (m_leaderGuid (blur gr')). by rewrite <- E.
Qed.

(** C35: The id given to a new group is positive and that of no other group, the
    search for the next one ends, and what it finds is free as well. *)
Theorem group_ids_fresh w : sound w → Z.of_nat (base.size (groups w)) < 0xFFFFFFF0 →
  wp GenerateNewGroupDbStoreId (λ id w' _, 0 < id ∧ GetGroupByDbStoreId id w = None ∧ groups w' = groups w ∧
    id < NextGroupDbStoreId w' < 0xFFFFFFFF ∧ GetGroupByDbStoreId (NextGroupDbStoreId w') w' = None) w.
Proof.
  intros Hw Hids. destruct (at_sound w Hw) as [Ha L]. pose proof (k_regs _ _ L) as G.
  assert (∀ w i, (∀ g, sh_store (shape_of w) !! Z.to_nat i ≠ Some (Some g)) → GetGroupByDbStoreId i w = None) as Hnone.
  { intros w0 i Hi. unfold GetGroupByDbStoreId. cbn in Hi. destruct (GroupDbStore w0 !! Z.to_nat i) as [[g|]|]; [by destruct (Hi g)|done..]. }
  assert (frames (same groups) GenerateNewGroupDbStoreId) as F by (unfold GenerateNewGroupDbStoreId; frames_auto).
  eapply wp_mono; [apply (wp_frames (same groups)); [eapply (wp_GenerateNewGroupDbStoreId None); [done|done|]|done]|].
  - unfold ids_left. cbn. by rewrite map_size_fmap.
  - intros id w' t [[-> (n & [Es _] & Hn & _ & Hfree)] Hs]. destruct (k_next _ _ G) as [H1' H2'].
    split; [lia|]. split; [by apply Hnone|]. split; [done|].
    assert (NextGroupDbStoreId w' = n ∧ GroupDbStore w' = GroupDbStore w) as [-> Est].
    { split; [change (sh_next (shape_of w') = n)|change (sh_store (shape_of w') = sh_store (shape_of w))]; by rewrite Es. }
    split; [done|]. apply Hnone. cbn. by rewrite Est.
Qed.
(** ** Rolls *)

(** Who is given an item. *)
Definition gives (e : group_event) : option Z :=
  match e with StoreNewItem p _ _ _ _ | AutoStoreLoot p _ => Some p | _ => None end.
(** The throws of [cast] from the [d]-th random number on: the first of the
    highest. *)
Fixpoint best_throw (d : nat) (cast : list (Z * RollVote)) (best : Z * Z * RollVote) : Z * Z * RollVote :=
  match cast with
  | [] => best
  | (guid, v) :: cast' => let n := random d 1 100 in best_throw (S d) cast' (if best.1.1 <? n then (n, guid, v) else best)
  end.
Lemma best_throw_spec cast : ∀ d best,
  (best_throw d cast best = best ∧ ∀ j, (j < length cast)%nat → random (d + j) 1 100 <= best.1.1) ∨
  (∃ j guid v n, best_throw d cast best = (n, guid, v) ∧ cast !! j = Some (guid, v) ∧ n = random (d + j) 1 100 ∧
     ∀ j', (j' < length cast)%nat → random (d + j') 1 100 <= n ∧ ((j' < j)%nat → random (d + j') 1 100 < n) ∧ best.1.1 < n).
Proof.
  induction cast as [|[guid v] cast IH]; intros d best; cbn [best_throw]; [left; split; [done|]; intros j Hj; cbn in Hj; lia|].
  set (n := random d 1 100). destruct (Z.ltb_spec best.1.1 n) as [Hlt|Hge].
  - right. destruct (IH (S d) (n, guid, v)) as [[E Hle]|(j & guid' & v' & n' & E & Hj & En & Hall)]; rewrite E; cbn [fst] in *.
    + exists 0%nat, guid, v, n. split; [done|]. split; [done|]. rewrite Nat.add_0_r. split; [done|].
      intros [|j'] Hj'; [rewrite Nat.add_0_r; split; [done|split; [lia|done]]|]. split; [|split; [lia|done]].
      rewrite <- Nat.add_succ_comm. apply Hle. cbn in Hj'. lia.
    + exists (S j), guid', v', n'. split; [done|]. split; [done|]. split; [by rewrite <- Nat.add_succ_comm|].
      pose proof (lookup_lt_Some _ _ _ Hj) as Hjl. destruct (Hall j Hjl) as (_ & _ & Hn).
      intros [|j'] Hj'; [rewrite Nat.add_0_r; change (random d 1 100) with n; split; [lia|split; lia]|].
      rewrite <- Nat.add_succ_comm. cbn [length] in Hj'. destruct (Hall j') as (H1' & H2' & H3'); [lia|].
      split; [done|]. split; [|lia]. intros Hlt'. apply H2'. lia.
  - destruct (IH (S d) best) as [[E Hle]|(j & guid' & v' & n' & E & Hj & En & Hall)]; rewrite E.
    + left. split; [done|]. intros [|j'] Hj'; [by rewrite Nat.add_0_r|]. rewrite <- Nat.add_succ_comm. apply Hle. cbn in Hj'. lia.
    + right. exists (S j), guid', v', n'. split; [done|]. split; [done|]. split; [by rewrite <- Nat.add_succ_comm|].
      pose proof (lookup_lt_Some _ _ _ Hj) as Hjl. destruct (Hall j Hjl) as (_ & _ & Hn).
      intros [|j'] Hj'; [rewrite Nat.add_0_r; change (random d 1 100) with n; split; [lia|split; lia]|].
      rewrite <- Nat.add_succ_comm. cbn [length] in Hj'. destruct (Hall j') as (H1' & H2' & H3'); [lia|].
      split; [done|]. split; [|lia]. intros Hlt'. apply H2'. lia.
Qed.

Lemma wp_send_voters p data r w : wp (send_voters p data r) (λ _ w' t, w' = w ∧ Forall (λ e, gives e = None) t) w.
Proof.
  unfold send_voters. apply wp_bind, wp_get. eapply wp_mono; [apply (wp_forM _ _ (λ w', w' = w) (λ e, gives e = None)); [done|]|done].
  intros x s Hx ->. apply wp_when; [|done]. intros _. apply wp_emit. split; [done|by constructor].
Qed.
Lemma wp_throw_loop (votes : RollVote → bool) type r l : (∀ d, 1 <= random d 1 100 <= 100) → ∀ best w,
  wp (throw_loop votes type r l best) (λ res w' t, w' = w <| drawn := (drawn w + length (filter (λ gv, votes gv.2) l))%nat |> ∧
    res = best_throw (drawn w) (filter (λ gv, votes gv.2) l) best ∧ Forall (λ e, gives e = None) t) w.
Proof.
  intros Hrand. induction l as [|[guid v] l IH]; intros best w; cbn [throw_loop].
  { apply wp_ret. split; [|by split]. destruct w. cbn. by rewrite Nat.add_0_r. }
  rewrite filter_cons. cbn [snd]. destruct (votes v) eqn:Ev; cbn [negb].
  2:{ rewrite decide_False by (by rewrite ?Ev; intros []). apply IH. }
  rewrite decide_True by by rewrite ?Ev. apply wp_bind. unfold urand. change (100 <? 1) with false. cbv iota.
  apply wp_bind, wp_get, wp_bind, wp_modify, wp_ret. cbv zeta.
  assert (u8 (random (drawn w) 1 100) = random (drawn w) 1 100) as ->.
  { pose proof (Hrand (drawn w)). apply wrapu_id. lia. }
  apply wp_bind. eapply wp_mono; [apply wp_send_voters|]. intros [] w1 t1 [-> Ht1].
  eapply wp_mono; [apply IH|]. intros res w2 t2 (-> & -> & Ht2). cbn [length best_throw]. split; [|split; [done|cbn [app]; by apply Forall_app]].
  destruct w. unfold setf. cbn. f_equal. lia.
Qed.
Lemma emits_take_item l r : emits (λ e, gives e = None) (take_item l r).
Proof. unfold take_item, NotifyItemRemoved, on_loot. emits_auto; done. Qed.
Lemma emits_win_item p l r : emits (λ e, gives e = None ∨ gives e = Some p) (win_item p l r).
Proof.
  unfold win_item, item_of_roll, unblock_item, on_loot. emits_auto; try (by left); try (by right).
  intros w. eapply Forall_impl; [apply emits_take_item|]. by left.
Qed.
(** The winner gets the item when he has room for it. *)
Lemma wp_win_item sh g w p l r : g_in g sh → at_shape sh w → in_loot sh l r →
  wp (win_item p l r) (λ _ _ t, Forall (λ e, gives e = None ∨ gives e = Some p) t ∧
    ∃ lo it, loots w !! l = Some lo ∧ roll_item r lo = Some it ∧
      ((CanStoreNewItem p (itemid r) (count it)).1 = EQUIP_ERR_OK → ∃ e, e ∈ t ∧ gives e = Some p)) w.
Proof.
  intros Hg Hw Hin. pose proof Hin as (nm & Hnm & Hslot). destruct (at_loot sh g Hg w l nm Hw Hnm) as (lo & Hlo & <-).
  assert (is_Some (roll_item r lo)) as [it Hit].
  { unfold roll_item. cbn in Hslot. destruct (Z.leb_spec (Z.of_nat (length (items lo))) (itemSlot r)); apply lookup_lt_is_Some; lia. }
  eapply wp_mono; [apply (wp_emits (λ e, gives e = None ∨ gives e = Some p) _ (λ _ _ t, ∃ lo it, loots w !! l = Some lo ∧ roll_item r lo = Some it ∧
      ((CanStoreNewItem p (itemid r) (count it)).1 = EQUIP_ERR_OK → ∃ e, e ∈ t ∧ gives e = Some p))); [|apply emits_win_item]|by intros [] ? ? [? ?]].
  unfold win_item, item_of_roll. apply wp_bind, wp_bind, wp_get, wp_bind. rewrite Hlo. apply wp_ret. rewrite Hit. apply wp_ret.
  destruct (CanStoreNewItem p (itemid r) (count it)) as [msg dest] eqn:Ec.
  assert (is_Some (sh_loots sh !! l)) as Hl by by eexists.
  destruct (Z.eqb_spec msg EQUIP_ERR_OK) as [->|Hne]; apply wp_bind.
  - eapply wp_mono; [by apply (keeps_take_item sh g Hg)|]. intros [] w1 t1 _. apply wp_emit. exists lo, it. split; [done|]. split; [done|].
    intros _. exists (StoreNewItem p (itemid r) (randomPropertyId it) dest (allowedGUIDs it)). split; [|done].
    rewrite !elem_of_app, list_elem_of_singleton. tauto.
  - eapply wp_mono; [by apply (keeps_unblock_item sh g Hg)|]. intros [] w1 t1 _. apply wp_emit. exists lo, it. split; [done|]. split; [done|].
    rewrite Ec. done.
Qed.

(** What the end of a roll for need writes. *)
Definition won_by_need (w : GroupWorld) (r : Roll) (l : Z) (t : list group_event) : Prop :=
  let needers := filter (λ gv, bool_decide (gv.2 = NEED)) (map_iter (playerVote r)) in
  ∃ j winner n, needers !! j = Some (winner, NEED) ∧ n = random (drawn w + j) 1 100 ∧
    (∀ j', (j' < length needers)%nat → random (drawn w + j') 1 100 <= n ∧ ((j' < j)%nat → random (drawn w + j') 1 100 < n)) ∧
    (∀ e p, e ∈ t → gives e = Some p → p = winner) ∧
    (is_online winner w = true →
      UpdateAchievementCriteria winner ACHIEVEMENT_CRITERIA_TYPE_ROLL_NEED_ON_LOOT (itemid r) n ∈ t ∧
      ∃ lo it, loots w !! l = Some lo ∧ roll_item r lo = Some it ∧
        ((CanStoreNewItem winner (itemid r) (count it)).1 = EQUIP_ERR_OK → ∃ e, e ∈ t ∧ gives e = Some winner)).
Lemma wp_both {A} (m : gact A) P Q w : wp m P w → wp m Q w → wp m (λ a w' t, P a w' t ∧ Q a w' t) w.
Proof. unfold wp. by destruct (m w). Qed.
Lemma wp_need_outcome sh g w r l : (∀ d, 1 <= random d 1 100 <= 100) → g_in g sh → at_shape sh w → in_loot sh l r →
  filter (λ gv, bool_decide (gv.2 = NEED)) (map_iter (playerVote r)) ≠ [] →
  wp (need_outcome l r) (λ _ _ t, won_by_need w r l t) w.
Proof.
  intros Hrand Hg Hw Hin Hne. unfold need_outcome, won_by_need. set (needers := filter _ _) in *.
  destruct (map_begin (playerVote r)) as [[first v0]|] eqn:Eb.
  2:{ apply map_begin_None in Eb. unfold needers in Hne. rewrite Eb in Hne. by destruct Hne. }
  apply wp_bind. eapply wp_mono; [by apply wp_throw_loop|]. intros res w1 t1 (-> & Hres & Ht1).
  set (w1 := w <| drawn := _ |>). change (filter _ (map_iter (playerVote r))) with needers in Hres.
  destruct (best_throw_spec needers (drawn w) (0, first, NOT_VALID)) as [[_ Hle]|(j & winner & v & n & E & Hj & En & Hall)].
  { destruct needers as [|x needers']; [done|]. exfalso. specialize (Hle 0%nat). rewrite Nat.add_0_r in Hle.
    pose proof (Hrand (drawn w)). cbn in Hle. lia. }
  rewrite E in Hres. subst res. cbv iota beta. assert (v = NEED) as ->.
  { assert ((winner, v) ∈ needers) as Hel by by eapply list_elem_of_lookup_2. apply list_elem_of_filter in Hel as [Hv _].
    by apply bool_decide_spec in Hv. }
  apply wp_bind. eapply wp_mono; [apply wp_send_voters|]. intros [] w2 t2 [-> Ht2]. apply wp_bind, wp_get.
  assert (at_shape sh w1) as Hw1 by (destruct Hw as [Es []]; by split).
  change (is_online winner w1) with (is_online winner w).
  assert (∀ tail, Forall (λ e, gives e = None ∨ gives e = Some winner) tail →
    ∀ e p, e ∈ t1 ++ t2 ++ [] ++ tail → gives e = Some p → p = winner) as Honly.
  { intros tail Ht e p. rewrite Forall_forall in Ht1, Ht2, Ht. rewrite !elem_of_app. intros [He|[He|[He|He]]] Hp.
    - rewrite (Ht1 e He) in Hp. done.
    - rewrite (Ht2 e He) in Hp. done.
    - by apply elem_of_nil in He.
    - destruct (Ht e He); congruence. }
  assert (∀ j', (j' < length needers)%nat → random (drawn w + j') 1 100 <= n ∧ ((j' < j)%nat → random (drawn w + j') 1 100 < n)) as Hbest.
  { intros j' Hj'. destruct (Hall j' Hj') as (H1' & H2' & _). by split. }
  apply wp_when; intros Hon.
  - apply wp_bind, wp_emit. eapply wp_mono; [by apply (wp_win_item sh g)|]. intros [] w3 t3 [Ht3 (lo & it & Hlo & Hit & Hroom)].
    exists j, winner, n. split; [done|]. split; [done|]. split; [done|]. split.
    + apply (Honly (_ :: t3)). constructor; [by left|done].
    + intros _. rewrite !elem_of_app. rewrite list_elem_of_singleton. split; [tauto|]. exists lo, it. split; [done|]. split; [done|].
      intros Hok. destruct (Hroom Hok) as (e & He & Hp). exists e. split; [|done]. rewrite !elem_of_app. tauto.
  - exists j, winner, n. split; [done|]. split; [done|]. split; [done|]. split; [by apply (Honly [])|]. by rewrite Hon.
Qed.

(** C27: A roll that someone needs is won by the one of those who need it with the
    highest throw, the first of them if there are several.  No one else is given
    the item; the winner is, if he is in the world and has room.  The roll is
    taken off the list. *)
Theorem need_roll_winner w g gr i r l : (∀ d, 1 <= random d 1 100 <= 100) →
  sound w → groups w !! g = Some gr → RollId gr !! i = Some r → r_loot r = Some l → 0 < totalNeed r →
  filter (λ gv, bool_decide (gv.2 = NEED)) (map_iter (playerVote r)) ≠ [] →
  wp (CountTheRoll g i) (λ _ w' t, sound w' ∧ groups w' = <[g := erase_roll i gr]> (groups w) ∧ won_by_need w r l t) w.
Proof.
  intros Hrand Hw Hg Hi Hl Hneed Hne. destruct (at_sound w Hw) as [Ha L].
  assert (g_in g (shape_of w)) as Hgi by (eexists; by apply sound_group).
  assert (in_loot (shape_of w) l r) as Hin by (destruct (roll_in _ g Hgi w gr i r Ha Hg Hi) as [_ Hin]; by apply Hin).
  eapply wp_mono; [apply (wp_both _ (λ _ w' _, at_shape (shape_of w) w' ∧ groups w' = <[g := erase_roll i gr]> (groups w))
    (λ _ _ t, won_by_need w r l t))|].
  - eapply (wp_CountTheRoll _ g); [done..|by eexists].
  - unfold CountTheRoll. apply wp_bind. eapply wp_deref; [done..|]. intros gr' Hgr' _ _. assert (gr' = gr) as -> by congruence.
    rewrite Hi. apply wp_bind, wp_ret, wp_bind. rewrite Hl. destruct (Z.ltb_spec 0 (totalNeed r)); [|lia].
    eapply wp_mono; [apply (wp_both _ (λ _ w' _, at_shape (shape_of w) w') (λ _ _ t, won_by_need w r l t))|].
    + by apply (keeps_need_outcome _ g).
    + by eapply wp_need_outcome.
    + intros [] w1 t1 [Hw1 Ht1]. unfold on_group. apply wp_bind. eapply wp_deref; [done..|]. intros gr1 _ _ _.
      apply wp_modify. by rewrite !app_nil_r.
  - intros [] w' t [[Hw' Eg] Ht]. split; [by eapply sound_at|]. by split.
Qed.

(** C34: In a sound world (C2), when the loot is gone the rolls for it end: each of
    them is counted, exactly once and in their order (so that the one who wins an
    item gets it), nothing else happens, the loop that starts over after each of
    them ends, and the rolls for other loot stay. *)
Theorem rolls_end w g gr l : sound w → groups w !! g = Some gr →
  wp (EndRoll g l) (λ _ w' t, sound w' ∧ groups w' = <[g := end_rolls l gr]> (groups w) ∧
    counted g (filter (λ r, r_loot r = Some l) (RollId gr)) w w' t) w.
Proof.
  intros Hw Hg. destruct (at_sound w Hw) as [Ha L]. assert (g_in g (shape_of w)) as Hgi by (eexists; by apply sound_group).
  eapply wp_mono; [by eapply (wp_EndRoll _ g)|]. intros [] w' t (Hw' & Eg & Hc). split; [by eapply sound_at|by split].
Qed.

(** C30: Resetting the instances of a group ends, although the loop starts over
    after each bind it erases, and leaves exactly the binds whose instance is not
    reset; those of other difficulties stay. *)
Theorem instances_reset w g gr method isRaid to : sound w → groups w !! g = Some gr → stored_group gr = true →
  wp (ResetInstances g method isRaid to) (λ _ w' _, sound w' ∧ ∃ gr', groups w' !! g = Some gr' ∧
    ∀ d, m_boundInstances gr' !! d =
      (if decide (d = Z.to_nat (GetDifficulty isRaid gr))
       then filter (λ mb, reset_erases method isRaid (GetDifficulty isRaid gr) mb.1 mb.2 = false) else id) <$> m_boundInstances gr !! d) w.
Proof.
  intros Hw Hg Hs. destruct (at_sound w Hw) as [Ha L]. assert (g_in g (shape_of w)) as Hgi by (eexists; by apply sound_group).
  eapply wp_mono; [by eapply (wp_ResetInstances _ g)|]. intros [] w' t [Hw' Eg]. split; [by eapply sound_at|]. eexists. split; [exact Eg|].
  intros d. cbn. destruct (decide (d = _)) as [->|Hne].
  - by rewrite list_lookup_alter_eq.
  - rewrite list_lookup_alter_ne by done. by destruct (m_boundInstances gr !! d).
Qed.
(** ** Turns to loot *)

Definition uncounted (gr : Group) : Group := gr <| m_counter := 0 |>.
Definition loot_view (w : GroupWorld) := (players w, uncounted <$> groups w).
Lemma frames_on_group g f : (∀ gr, uncounted (f gr) = uncounted gr) → frames (same loot_view) (on_group g f).
Proof.
  intros Hf w. unfold on_group, deref, mbind, act_bind, get, require, same, loot_view, mret, act_ret, raise, modify.
  destruct (groups w !! g) as [gr|] eqn:Eg; cbn; [|done]. f_equal. rewrite fmap_insert, Hf. apply insert_id.
  by rewrite lookup_fmap, Eg.
Qed.
Lemma frames_SendUpdate g : frames (same loot_view) (SendUpdate g).
Proof.
  unfold SendUpdate, SendUpdateToPlayer, send, deref. frames_auto. by apply frames_on_group.
Qed.
Lemma after_member_at l : NoDup (MemberSlot.guid <$> l) → ∀ i s, l !! i = Some s → after_member (MemberSlot.guid s) l = drop (S i) l.
Proof.
  induction l as [|x l IH]; intros Hnd i s Hi; [done|]. apply NoDup_cons in Hnd as [Hx Hnd]. cbn [after_member].
  destruct i as [|i]; cbn in Hi; [simplify_eq; by rewrite Z.eqb_refl|].
  destruct (Z.eqb_spec (MemberSlot.guid x) (MemberSlot.guid s)) as [E|]; [|by eapply IH].
  destruct Hx. rewrite E. apply list_elem_of_fmap. exists s. split; [done|]. by eapply list_elem_of_lookup_2.
Qed.
Lemma upto_member_nonempty guid s l : ∃ l', upto_member guid (s :: l) = s :: l'.
Proof. by eexists. Qed.
Lemma find_all {A} (f : A → bool) l : (∀ x, x ∈ l → f x = true) → List.find f l = head l.
Proof. destruct l as [|x l]; [done|]. intros Hf. cbn. by rewrite (Hf x) by by left. Qed.
(** The member after the one whose turn it was, around the list. *)
Lemma next_looter (near : MemberSlot.t → bool) l i s : NoDup (MemberSlot.guid <$> l) → (∀ x, x ∈ l → near x = true) → l !! i = Some s →
  match List.find near (after_member (MemberSlot.guid s) l) with
  | Some s' => Some s'
  | None => List.find near (upto_member (MemberSlot.guid s) l)
  end = l !! (S i mod length l)%nat.
Proof.
  intros Hnd Hnear Hi. pose proof (lookup_lt_Some _ _ _ Hi) as Hlt. rewrite (after_member_at l Hnd i s Hi).
  rewrite find_all by (intros x Hx; apply Hnear; rewrite <- (take_drop (S i) l); apply elem_of_app; by right).
  rewrite head_lookup, lookup_drop, Nat.add_0_r.
  destruct (decide (S i < length l)%nat) as [Hl|Hl].
  - rewrite Nat.mod_small by done. destruct (lookup_lt_is_Some_2 l (S i) Hl) as [s' ->]. done.
  - replace (S i) with (length l) by lia. rewrite lookup_ge_None_2, Nat.Div0.mod_same by done.
    destruct l as [|x l]; [done|]. cbn. by rewrite (Hnear x) by by left.
Qed.
Definition all_near (object : LootedObject) (gr : Group) (w : GroupWorld) : Prop :=
  ∀ s, s ∈ m_memberSlots gr → near_object object w s = true.
Definition takes_turns (gr : Group) : Prop :=
  m_lootMethod gr ≠ MASTER_LOOT ∧ m_lootMethod gr ≠ FREE_FOR_ALL ∧ NoDup (MemberSlot.guid <$> m_memberSlots gr).
Definition turn_of (i : nat) (gr : Group) : Prop :=
  ∃ s, m_memberSlots gr !! (i mod length (m_memberSlots gr))%nat = Some s ∧ m_looterGuid gr = MemberSlot.guid s.
Lemma uncounted_fields gr gr' : uncounted gr = uncounted gr' →
  m_memberSlots gr = m_memberSlots gr' ∧ m_lootMethod gr = m_lootMethod gr' ∧ m_looterGuid gr = m_looterGuid gr'.
Proof. intros E. by inversion E. Qed.
Lemma wp_UpdateLooterGuid w g gr i object :
  sound w → groups w !! g = Some gr → takes_turns gr → all_near object gr w → turn_of i gr →
  wp (UpdateLooterGuid g object false) (λ _ w' _, sound w' ∧ players w' = players w ∧ ∃ gr', groups w' !! g = Some gr' ∧
    m_memberSlots gr' = m_memberSlots gr ∧ m_lootMethod gr' = m_lootMethod gr ∧ turn_of (S i) gr') w.
Proof.
  intros Hw Hg (Hm1 & Hm2 & Hnd) Hnear (s & Hs & Hl). destruct (at_sound w Hw) as [Ha L].
  assert (g_in g (shape_of w)) as Hgi by (eexists; by apply sound_group).
  unfold UpdateLooterGuid. apply wp_bind, wp_get, wp_bind. eapply wp_deref; [done..|]. intros gr0 Hgr0 _ _. assert (gr0 = gr) as -> by congruence.
  clear Hgr0. rewrite (proj2 (Z.eqb_neq _ _) Hm1), (proj2 (Z.eqb_neq _ _) Hm2).
  cbn [orb andb]. cbv zeta. rewrite Hl, (next_looter _ _ _ _ Hnd Hnear Hs).
  set (n := length (m_memberSlots gr)) in *. set (j := (i mod n)%nat) in *.
  assert (0 < n)%nat as Hn by (pose proof (lookup_lt_Some _ _ _ Hs); unfold n; lia).
  assert (S j mod n = S i mod n)%nat as Ej.
  { unfold j. change (S (i mod n)) with (1 + i mod n)%nat. rewrite Nat.Div0.add_mod_idemp_r. done. }
  rewrite Ej. destruct (lookup_lt_is_Some_2 (m_memberSlots gr) (S i mod n)) as [s' Hs']; [apply Nat.mod_upper_bound; lia|]. rewrite Hs'.
  apply wp_when; intros Hne.
  - apply wp_bind. unfold SetLooterGuid.
    eapply wp_on_group with (f' := λ x, x); [done|done|done|by intros ? _ []|by intros; left|].
    intros w1 Hw1 (gr1 & Hgr1 & ->). rewrite on_sh_group_id in Hw1. assert (gr1 = gr) as -> by congruence.
    eapply wp_mono; [apply (wp_frames (same loot_view)); [by eapply keeps_SendUpdate|by apply frames_SendUpdate]|].
    intros [] w2 t2 [Hw2 Hv]. split; [by eapply sound_at|]. injection Hv as Hp Hgs. split; [done|].
    assert (uncounted <$> groups w2 !! g = Some (uncounted (gr <| m_looterGuid := MemberSlot.guid s' |>))) as E.
    { rewrite <- lookup_fmap, Hgs. cbn. by rewrite lookup_fmap, lookup_insert_eq. }
    destruct (groups w2 !! g) as [gr2|] eqn:Eg2; [|done]. cbn [fmap option_fmap option_map] in E.
    apply (inj Some), uncounted_fields in E as (E1 & E2 & E3). cbn in E1, E2, E3. exists gr2. split; [done|]. split; [done|]. split; [done|].
    exists s'. unfold n in Hs'. by rewrite E1, E3.
  - apply negb_false_iff, Z.eqb_eq in Hne. split; [done|]. split; [done|]. exists gr. do 3 (split; [done|]).
    exists s'. split; [done|]. by rewrite Hl.
Qed.

(** C29: When the members of a group are near what they loot and take turns, the
    turn passes to the next member in the list after every corpse, around and
    around: after [k] corpses it is [k] places further, so everyone has a turn
    before anyone has a second one. *)
Theorem looter_round_robin w g gr i object k :
  sound w → groups w !! g = Some gr → takes_turns gr → all_near object gr w → turn_of i gr →
  wp (forM_ (replicate k tt) (λ _, UpdateLooterGuid g object false)) (λ _ w' _, sound w' ∧ ∃ gr', groups w' !! g = Some gr' ∧
    m_memberSlots gr' = m_memberSlots gr ∧ turn_of (i + k) gr') w.
Proof.
  intros Hw Hg Ht Hnear Hi. revert w gr i Hw Hg Ht Hnear Hi. induction k as [|k IH]; intros w gr i Hw Hg Ht Hnear Hi; cbn [replicate forM_].
  { apply wp_ret. split; [done|]. exists gr. by rewrite Nat.add_0_r. }
  apply wp_bind. eapply wp_mono; [by eapply wp_UpdateLooterGuid|]. intros [] w1 t1 (Hw1 & Hp & gr1 & Hg1 & E1 & E2 & Hi1).
  eapply wp_mono; [apply (IH w1 gr1 (S i))|].
  - done.
  - done.
  - unfold takes_turns. by rewrite E1, E2.
  - intros s Hs. rewrite E1 in Hs. specialize (Hnear s Hs). unfold near_object, is_online, FindPlayer in *. by rewrite Hp.
  - done.
  - intros [] w2 t2 (Hw2 & gr2 & Hg2 & E3 & Hi2). split; [done|]. exists gr2. split; [done|]. split; [congruence|].
    by rewrite <- Nat.add_succ_comm.
Qed.
(** ** Who may command *)

Definition still {A} (m : gact A) (w : GroupWorld) : Prop := rstate (m w) = w.
Section Still.
Context (w : GroupWorld).
Lemma still_frames {A} (m : gact A) : frames eq m → still m w.
Proof. intros Hm. symmetry. apply Hm. Qed.
Lemma still_bind {A B} (m : gact A) (f : A → gact B) : still m w → (∀ a, still (f a) w) → still (m ≫= f) w.
Proof.
  unfold still, mbind, act_bind. intros Hm Hf. destruct (m w) as [a w1 t|]; [|done]. cbn in Hm. subst w1.
  specialize (Hf a). by destruct (f a w).
Qed.
Lemma still_player {A} p pl (f : Player → gact A) : players w !! p = Some pl → still (f pl) w → still (player_of p ≫= f) w.
Proof. intros Hp. unfold still, player_of, mbind, act_bind, get, require. cbn. rewrite Hp. cbn. by destruct (f pl w). Qed.
Lemma still_deref {A} g gr (f : Group → gact A) : groups w !! g = Some gr → still (f gr) w → still (deref g ≫= f) w.
Proof. intros Hp. unfold still, deref, mbind, act_bind, get, require. cbn. rewrite Hp. cbn. by destruct (f gr w). Qed.
Lemma still_deref_ret {A B} g gr (h : Group → A) (f : A → gact B) :
  groups w !! g = Some gr → still (f (h gr)) w → still ((gr ← deref g; mret (h gr)) ≫= f) w.
Proof.
  intros Hp. unfold still, deref, mbind, act_bind, get, require, mret, act_ret. cbn. rewrite Hp. cbn. by destruct (f (h gr) w).
Qed.
Lemma still_get {A} (f : GroupWorld → gact A) : still (f w) w → still (get ≫= f) w.
Proof. unfold still, mbind, act_bind, get. cbn. by destruct (f w w). Qed.
Lemma still_reading {A} d (r : bb A) (k : A → ByteBuffer → gact unit) : (∀ a rest, still (k a rest) w) → still (reading d r k) w.
Proof. intros Hk. unfold reading. destruct (r d); [apply Hk|done]. Qed.
Lemma still_emit e : still (emit e) w.
Proof. done. Qed.
End Still.

(** The requests that command a group. *)
Definition commands (r : group_request) : bool :=
  match r with
  | RqInvite _ | RqUninviteGuid _ | RqUninvite _ | RqSetLeader _ | RqLootMethod _ | RqRaidTarget _ | RqRaidConvert
  | RqChangeSubGroup _ | RqAssistantLeader _ | RqPartyAssignment _ => true
  | _ => false
  end.

(** C36: A member who neither leads nor assists changes nothing by the requests
    that command a group: he invites, removes and moves no one, appoints no one,
    and neither the loot rules, the icons nor the kind of the group change.  (In a
    battleground he may have a group of his own, and in a group of the dungeon
    finder a removal is a vote.) *)
Theorem member_changes_nothing me r w pl g gr :
  players w !! me = Some pl → GetGroup pl = Some g → groups w !! g = Some gr →
  IsLeader me gr = false → IsAssistant me gr = false → isLFGGroup gr = false → isBGGroup gr = false →
  commands r = true → rstate (serve me r w) = w.
Proof.
  intros Hp Hg Hgr Hl Ha Hlfg Hbg Hc. change (still (serve me r) w).
  assert (∀ (f : Z → gact unit), still (f ERR_NOT_LEADER) w → still (CanUninviteFromGroup me ≫= f) w) as Hcan.
  { intros f Hf. unfold still, CanUninviteFromGroup, player_of, deref, mbind, act_bind, get, require, mret, act_ret. cbn.
    rewrite Hp. cbn. rewrite Hg. cbn. rewrite Hgr. cbn. rewrite Hlfg, Hl, Ha. cbn. unfold still in Hf. by destruct (f ERR_NOT_LEADER w). }
  destruct r; try done; cbn [serve].
  - unfold HandleGroupInviteOpcode. apply still_reading. intros name0 rest. destruct (normalizePlayerName name0); [|done].
    apply still_get. eapply still_player; [done|]. destruct (FindPlayerByName _ w) as [[target player]|]; [|done].
    destruct (invite_refused me pl player); [done|]. 
    replace (normal_group pl) with (gr ← deref g; mret (if isBGGroup gr then GetOriginalGroup pl else Some g))
      by (unfold normal_group; by rewrite Hg).
    eapply still_deref_ret; [done|]. rewrite Hbg. apply still_bind.
    { apply still_frames. unfold normal_group, deref. frames_auto. }
    intros group2. destruct (_ || _); [apply still_bind; [done|intros _; by destruct (bool_decide _)]|].
    eapply still_deref_ret; [done|]. by rewrite Hl, Ha.
  - unfold HandleGroupUninviteGuidOpcode. apply still_reading. intros [guid reason] rest. destruct (guid =? me); [done|].
    by apply Hcan.
  - unfold HandleGroupUninviteOpcode. apply still_reading. intros name0 rest. destruct (normalizePlayerName name0); [|done].
    eapply still_player; [done|]. destruct (String.eqb _ _); [done|]. by apply Hcan.
  - unfold HandleGroupSetLeaderOpcode. apply still_reading. intros guid rest. apply still_get. eapply still_player; [done|].
    rewrite Hg. destruct (FindPlayer guid w); [|done]. eapply still_deref; [done|]. by rewrite Hl.
  - unfold HandleLootMethodOpcode. apply still_reading. intros [[m l] t] rest. eapply still_player; [done|].
    rewrite Hg. eapply still_deref; [done|]. by rewrite Hl.
  - unfold HandleRaidTargetUpdateOpcode. eapply still_player; [done|]. rewrite Hg. apply still_reading. intros x rest.
    destruct (x =? 255); [by eapply still_deref|]. eapply still_deref; [done|]. by rewrite Hl, Ha.
  - unfold HandleGroupRaidConvertOpcode. eapply still_player; [done|]. rewrite Hg. destruct (InBattleground pl); [done|].
    eapply still_deref; [done|]. by rewrite Hl.
  - unfold HandleGroupChangeSubGroupOpcode. eapply still_player; [done|]. rewrite Hg. apply still_reading. intros [name n] rest.
    destruct (MAX_RAID_SUBGROUPS <=? n); [done|]. eapply still_deref; [done|]. by rewrite Hl, Ha.
  - unfold HandleGroupAssistantLeaderOpcode. eapply still_player; [done|]. rewrite Hg. eapply still_deref; [done|]. by rewrite Hl.
  - unfold HandlePartyAssignmentOpcode. eapply still_player; [done|]. rewrite Hg. eapply still_deref; [done|]. by rewrite Hl, Ha.
Qed.
End Theorems.

(** ** A small server *)

Section Tiny.

Definition tiny_env : GroupEnv := {|
  GetPlayerNameByGUID := λ _, Some "someone"; hash_iter := λ V m, map_to_list m;
  sMapStore := λ m, if m =? 0 then Some (false, false) else if m =? 1 then Some (true, false) else None;
  GetMapDifficultyData := λ _ _, true; save_map := λ _, 1; save_instance := λ s, s; save_difficulty := λ _, 0;
  CanReset := λ s, s <? 100; FindDungeonMap := λ _ _, None; InstanceMap_Reset := λ _ _, true; HavePlayers := λ _, false;
  map_is_raid_type := λ _, false; LFG_GetState := λ _, 0; LFG_GetDungeon := λ _, 0; LFG_GetDungeonMapId := λ _, 0;
  LFG_GetKicksLeft := λ _, 1; GetBgRaid := λ _ _, false; HaveAtClient := λ _ _, true; IsWithinDist := λ _ _, true;
  IsWithinDistInMap := λ _ _, true; GetItemTemplate := λ _, Some (mkItemTemplate 3 0 0 0); AllowedForPlayer := λ _ _, true;
  CanRollForItemInLFG := λ _ _ _, true; CanStoreNewItem := λ _ _ _, (EQUIP_ERR_OK, [(255, 23)]);
  random := λ n a b, a + (Z.of_nat n * 37 + 5) mod (b - a + 1) |}.
#[local] Existing Instance tiny_env.
Definition tiny_handlers : GroupHandlerEnv := {|
  CONFIG_ALLOW_GM_GROUP := true; CONFIG_ALLOW_TWO_SIDE_INTERACTION_GROUP := false;
  normalizePlayerName := λ s, Some s; GetPlayerGUIDByName := λ _, 0;
  member_stats := λ _, mkMemberStats (mkUnitStats 0 100 100 50 50 (λ _, None)) None false false false false false 12 0 0 None;
  reset_in := λ _, 0 |}.
#[local] Existing Instance tiny_handlers.
Lemma tiny_laws : GroupLaws.
Proof.
  split; [done|done|]. intros m isRaid _. done.
Qed.
#[local] Existing Instance tiny_laws.

Definition tiny_player (name : string) : Player :=
  mkPlayer name true (mkRef None 0) (mkRef None 0) None false 80 0 0 0 0 false false 0 0 false true
    (mkPlayerSocial ∅ 0) false [].
Definition invite_of (c : Z) : ByteBuffer := mkByteBuffer 0 0 [c; 0; 0; 0; 0; 0].
Definition accept_packet : ByteBuffer := mkByteBuffer 0 0 [0; 0; 0; 0].
Definition after (me : Z) (r : group_request) (w : GroupWorld) : GroupWorld := rstate (serve me r w).

(** Three players enter, the first invites the second, who accepts. *)
Definition w_three : GroupWorld :=
  after 3 (RqEnter (tiny_player "C") None) (after 2 (RqEnter (tiny_player "B") None) (after 1 (RqEnter (tiny_player "A") None) empty_world)).
Definition w_invited : GroupWorld := after 1 (RqInvite (invite_of 66)) w_three.
Definition w_party : GroupWorld := after 2 (RqAccept accept_packet) w_invited.

Definition served (me : Z) (r : group_request) (w : GroupWorld) : bool :=
  match serve me r w with Done _ _ _ => true | Fault _ _ _ => false end.
Lemma step_after me r w : honest me r w → served me r w = true → group_step w (after me r w).
Proof.
  intros Hh Hs. unfold served, after in *. destruct (serve me r w) as [[] w' t|] eqn:E; [|done]. by eapply step_served.
Qed.
Lemma tiny_det name : player_det (tiny_player name).
Proof. split; cbn; try lia; [by eexists|constructor]. Qed.
Lemma enter_step me name w : players w !! me = None → served me (RqEnter (tiny_player name) None) w = true →
  group_step w (after me (RqEnter (tiny_player name) None) w).
Proof. intros Hn Hs. apply step_after; [|done]. split; [done|]. split; [|done]. split; [done|]. split; [apply tiny_det|done]. Qed.
Lemma w_three_reachable : rtc group_step empty_world w_three.
Proof.
  eapply rtc_l; [apply (enter_step 1 "A"); vm_compute; reflexivity|].
  eapply rtc_l; [apply (enter_step 2 "B"); vm_compute; reflexivity|].
  eapply rtc_l; [apply (enter_step 3 "C"); vm_compute; reflexivity|]. apply rtc_refl.
Qed.
Lemma invite_honest : honest 1 (RqInvite (invite_of 66)) w_three.
Proof.
  split; [|split].
  - intros d [= <-]. split; [done|]. repeat (apply Forall_cons; split; [by split|]). by apply Forall_nil.
  - vm_compute. by eexists.
  - intros name rest t name' pl Hd [= <-]. vm_compute in Hd. injection Hd as <- _ _. by vm_compute.
Qed.
Lemma w_invited_reachable : rtc group_step empty_world w_invited.
Proof.
  eapply rtc_r; [apply w_three_reachable|]. apply step_after; [apply invite_honest|]. vm_compute. reflexivity.
Qed.
Lemma accept_honest : honest 2 (RqAccept accept_packet) w_invited.
Proof.
  split; [|split].
  - intros d [= <-]. split; [done|]. repeat (apply Forall_cons; split; [by split|]). by apply Forall_nil.
  - vm_compute. by eexists.
  - split; [|by vm_compute]. intros pl g gr Hp Hi Hg Hl. vm_compute in Hp. injection Hp as <-. vm_compute in Hi. injection Hi as <-.
    vm_compute in Hg. injection Hg as <-. by vm_compute in Hl.
Qed.
Lemma w_party_reachable : rtc group_step empty_world w_party.
Proof.
  eapply rtc_r; [apply w_invited_reachable|]. apply step_after; [apply accept_honest|]. vm_compute. reflexivity.
Qed.

(** Somebody rolls in the party for a ring of corpse 7: the first needs it, the
    second wants it; the party is bound to two instances. *)
Definition tiny_item : LootItem := mkLootItem 50 0 0 1 false true false false false {[ 1; 2 ]}.
Definition tiny_roll : Roll := mkRoll 900 50 0 0 1 {[ 1 := NEED; 2 := NEED ]} 2 2 0 0 0 7 (Some 7).
Definition tiny_group (gr : Group) : Group :=
  gr <| RollId := [tiny_roll] |> <| m_boundInstances := [{[ 1 := mkBind (Some 5) false; 0 := mkBind (Some 105) true ]}; ∅; ∅; ∅] |>.
Definition w_roll : GroupWorld :=
  w_party <| groups ::= alter tiny_group 1 |> <| loots := {[ 7 := mkLoot [tiny_item] [] 1 {[ 1 ]} ]} |>.
Definition the_party : Group := default new_Group (groups w_party !! 1).
Definition the_roll_party : Group := default new_Group (groups w_roll !! 1).
Definition player_in (w : GroupWorld) (p : Z) : Player := default (tiny_player "") (players w !! p).
Lemma w_party_sound : sound w_party.
Proof. apply reachable_sound, w_party_reachable. Qed.
Lemma w_roll_group : groups w_roll = <[1 := the_roll_party]> (groups w_party).
Proof. vm_compute. reflexivity. Qed.
Lemma w_roll_players : players w_roll = players w_party.
Proof. vm_compute. reflexivity. Qed.
Lemma w_roll_reachable : rtc group_step empty_world w_roll.
Proof.
  eapply rtc_r; [apply w_party_reachable|]. apply step_elsewhere; [vm_compute; reflexivity|].
  destruct w_party_sound as [_ [D1 D2 D3]]. split.
  - intros g gr Hg. rewrite w_roll_group in Hg. apply lookup_insert_Some in Hg as [[<- <-]|[_ Hg]]; [|by eapply D1].
    split; [done| |by vm_compute|by vm_compute]. change (Forall binds_ok [{[ 1 := mkBind (Some 5) false; 0 := mkBind (Some 105) true ]}; ∅; ∅; ∅]).
    apply Forall_cons; split; [|repeat (apply Forall_cons; split; [intros m x Hx; by apply lookup_empty_Some in Hx|]); by apply Forall_nil].
    intros m x [[<- <-]|[_ Hx]]%lookup_insert_Some; [by eexists|]. apply lookup_singleton_Some in Hx as [<- <-]. by eexists.
  - intros p pl Hp. rewrite w_roll_players in Hp. by eapply D2.
  - intros g gr r Hg Hr. rewrite w_roll_group in Hg. apply lookup_insert_Some in Hg as [[<- <-]|[_ Hg]].
    + change (r ∈ [tiny_roll]) in Hr. apply list_elem_of_singleton in Hr as ->. split; [by eexists|].
      intros l [= <-]. exists (1%nat, 0%nat). split; [done|]. by vm_compute.
    + destruct (D3 g gr r Hg Hr) as [Ht Hl]. split; [done|]. intros l Hl'. destruct (Hl l Hl') as (nm & Hnm & _).
      cbn in Hnm. exfalso. revert Hnm. by vm_compute.
Qed.
Lemma w_roll_sound : sound w_roll.
Proof. apply reachable_sound, w_roll_reachable. Qed.

Lemma group_limits_witness : m_subGroupsCounts the_party = None ∧ Z.of_nat (length (m_memberSlots the_party)) <= MAXGROUPSIZE.
Proof. exact (group_limits w_party 1 the_party w_party_reachable ltac:(vm_compute; reflexivity)). Defined.
Lemma group_links_witness : ∃ gr, groups w_party !! 1 = Some gr ∧ (RGroup, 2) ∈ m_memberMgr gr.
Proof.
  destruct (group_links w_party w_party_reachable) as (Href & _).
  apply (Href 2 (player_in w_party 2) RGroup 1); vm_compute; reflexivity.
Defined.
Lemma member_joins_witness : IsFull the_party = false ∧ wp (AddMember 1 3) (λ ok w' _, ok = true) w_party.
Proof.
  split; [vm_compute; reflexivity|].
  pose proof (member_joins w_party 1 the_party 3 (player_in w_party 3) w_party_sound ltac:(vm_compute; reflexivity)
    ltac:(vm_compute; discriminate) ltac:(vm_compute; reflexivity) ltac:(vm_compute; reflexivity) ltac:(vm_compute; reflexivity)) as Hj.
  eapply wp_mono; [exact Hj|]. by intros ok w' t [-> _].
Defined.
Lemma disband_leaves_nothing_witness : groups w_party !! 1 = Some the_party ∧ wp (Disband 1 false) (λ _ w' _, groups w' !! 1 = None) w_party.
Proof.
  split; [vm_compute; reflexivity|].
  pose proof (disband_leaves_nothing w_party 1 the_party false w_party_sound ltac:(vm_compute; reflexivity) ltac:(vm_compute; discriminate)) as Hd.
  eapply wp_mono; [exact Hd|]. by intros [] w' t (_ & Hn & _).
Defined.
Lemma leadership_passes_witness : m_leaderGuid the_party = 1 ∧ wp (succeed_leader 1 1) (λ _ w' _, sound w') w_party.
Proof.
  split; [vm_compute; reflexivity|].
  pose proof (leadership_passes w_party 1 the_party 1 w_party_sound ltac:(vm_compute; reflexivity)) as Hd.
  eapply wp_mono; [exact Hd|]. by intros [] w' t (Hs & _).
Defined.
Lemma group_ids_fresh_witness : NextGroupDbStoreId w_party = 2 ∧ wp GenerateNewGroupDbStoreId (λ id _ _, 0 < id) w_party.
Proof.
  split; [vm_compute; reflexivity|].
  pose proof (group_ids_fresh w_party w_party_sound ltac:(vm_compute; reflexivity)) as Hd.
  eapply wp_mono; [exact Hd|]. by intros id w' t (Hs & _).
Defined.
Lemma tiny_random d : 1 <= random d 1 100 <= 100.
Proof. cbn [random tiny_env]. pose proof (Z.mod_pos_bound (Z.of_nat d * 37 + 5) (100 - 1 + 1) ltac:(lia)). lia. Qed.
Lemma need_roll_winner_witness : RollId the_roll_party !! 0%nat = Some tiny_roll ∧
  wp (CountTheRoll 1 0) (λ _ w' t, won_by_need w_roll tiny_roll 7 t) w_roll.
Proof.
  split; [vm_compute; reflexivity|].
  pose proof (need_roll_winner w_roll 1 the_roll_party 0 tiny_roll 7 tiny_random w_roll_sound ltac:(vm_compute; reflexivity)
    ltac:(vm_compute; reflexivity) ltac:(reflexivity) ltac:(reflexivity) ltac:(vm_compute; discriminate)) as Hd.
  eapply wp_mono; [exact Hd|]. by intros [] w' t (_ & _ & Ht).
Defined.
Lemma rolls_end_witness : length (RollId the_roll_party) = 1%nat ∧
  wp (EndRoll 1 7) (λ _ w' t, sound w' ∧ ∃ i, CountTheRoll 1 i w_roll = Done tt w' t) w_roll.
Proof.
  split; [vm_compute; reflexivity|].
  pose proof (rolls_end w_roll 1 the_roll_party 7 w_roll_sound ltac:(vm_compute; reflexivity)) as Hd.
  assert (∃ r, filter (λ r, r_loot r = Some 7) (RollId the_roll_party) = [r]) as [r E]
    by (eexists; vm_compute; reflexivity).
  rewrite E in Hd. eapply wp_mono; [exact Hd|]. intros [] w' t (Hs & _ & Hc). split; [exact Hs|].
  apply counted_one in Hc as (gr & i & _ & _ & Hrun). exists i. exact Hrun.
Defined.
Lemma instances_reset_witness : base.size <$> m_boundInstances the_roll_party !! 0%nat = Some 2%nat ∧
  wp (ResetInstances 1 INSTANCE_RESET_ALL false None) (λ _ w' _, sound w') w_roll.
Proof.
  split; [vm_compute; reflexivity|].
  pose proof (instances_reset w_roll 1 the_roll_party INSTANCE_RESET_ALL false None w_roll_sound ltac:(vm_compute; reflexivity) ltac:(vm_compute; reflexivity)) as Hd.
  eapply wp_mono; [exact Hd|]. by intros [] w' t (Hs & _).
Defined.
Definition tiny_corpse : LootedObject := mkLootedObject 7 KCreature 0.
Lemma party_turns : takes_turns the_party ∧ all_near tiny_corpse the_party w_party ∧ turn_of 0 the_party.
Proof.
  split; [|split].
  - split; [by vm_compute|]. split; [by vm_compute|]. 
    assert (MemberSlot.guid <$> m_memberSlots the_party = [1; 2]) as -> by (vm_compute; reflexivity).
    apply NoDup_cons. split; [|apply NoDup_singleton]. rewrite list_elem_of_singleton. lia.
  - intros s Hs. apply list_elem_of_In in Hs. vm_compute in Hs. destruct Hs as [<-|[<-|[]]]; vm_compute; reflexivity.
  - exists (default (MemberSlot.mk 0 "" 0 0 0) (m_memberSlots the_party !! 0%nat)). split; vm_compute; reflexivity.
Qed.
Lemma looter_round_robin_witness : m_looterGuid the_party = 1 ∧
  wp (forM_ (replicate 3 tt) (λ _, UpdateLooterGuid 1 tiny_corpse false)) (λ _ w' _, ∃ gr', groups w' !! 1 = Some gr' ∧ turn_of 3 gr') w_party.
Proof.
  split; [vm_compute; reflexivity|]. destruct party_turns as (Ht & Hn & Hi).
  pose proof (looter_round_robin w_party 1 the_party 0 tiny_corpse 3 w_party_sound ltac:(vm_compute; reflexivity) Ht Hn Hi) as Hd.
  eapply wp_mono; [exact Hd|]. intros [] w' t (_ & gr' & Hg & _ & Hturn). exists gr'. split; [exact Hg|exact Hturn].
Defined.
Lemma member_changes_nothing_witness : rstate (serve 2 (RqInvite (invite_of 67)) w_party) = w_party.
Proof. apply (member_changes_nothing 2 (RqInvite (invite_of 67)) w_party (player_in w_party 2) 1 the_party); vm_compute; reflexivity. Defined.

(** ** What the honest conditions keep out *)

Definition faults (me : Z) (r : group_request) (w : GroupWorld) : bool :=
  match serve me r w with Fault NullDeref _ _ => true | _ => false end.
(** Who invites himself keeps a pointer to a group that was deleted, and the
    server uses it when he accepts. *)
Example self_invitation_dangles : let w := after 1 (RqInvite (invite_of 65)) w_three in
  m_groupInvite <$> players w !! 1 = Some (Some 1) ∧ groups w !! 1 = None ∧ faults 1 (RqAccept accept_packet) w = true.
Proof. vm_compute. repeat split. Qed.
(** Who accepts his own invitation can be invited by a third player while the
    second one still waits; when that one accepts, the second invitation is
    forgotten by its target but not by its group, which then points to a player
    who may be gone. *)
Example own_invitation_dangles :
  let w := after 1 (RqLogout true) (after 2 (RqAccept accept_packet) (after 3 (RqInvite (invite_of 65))
             (after 1 (RqAccept accept_packet) w_invited))) in
  players w !! 1 = None ∧ (m_invitees <$> groups w !! 2) = Some {[ 1; 3 ]} ∧ faults 3 (RqLogout true) w = true.
Proof. vm_compute. repeat split. Qed.
Definition by_guid (guid : Z) (more : list Z) : ByteBuffer := mkByteBuffer 0 0 ([guid; 0; 0; 0; 0; 0; 0; 0] ++ more).
Definition w_raid : GroupWorld :=
  after 1 (RqAssistantLeader (by_guid 2 [1])) (after 1 RqRaidConvert
    (after 3 (RqAccept accept_packet) (after 1 (RqInvite (invite_of 67)) w_party))).
(** An assistant may not remove the leader by guid, but by name. *)
Example assistant_removes_leader :
  let members w := (map MemberSlot.guid ∘ m_memberSlots) <$> groups w !! 1 in
  members (after 2 (RqUninviteGuid (by_guid 1 [0])) w_raid) = Some [1; 2; 3] ∧
  members (after 2 (RqUninvite (mkByteBuffer 0 0 [65; 0])) w_raid) = Some [2; 3].
Proof. vm_compute. repeat split. Qed.
(** The same player votes twice and the roll ends without the other. *)
Definition w_open_roll : GroupWorld := w_roll <| groups ::= alter (λ gr, gr <| RollId ::= fmap (λ r,
  r <| playerVote := {[ 1 := NOT_EMITED_YET; 2 := NOT_EMITED_YET ]} |> <| totalNeed := 0 |>) |>) 1 |>.
Definition vote_packet (vote : Z) : ByteBuffer := mkByteBuffer 0 0 ([132; 3; 0; 0; 0; 0; 0; 64] ++ [0; 0; 0; 0] ++ [vote]).
Definition w_open : GroupWorld :=
  w_open_roll <| groups ::= alter (λ gr, gr <| RollId ::= fmap (λ r, r <| itemGUID := 0x4000000000000384 |>) |>) 1 |>.
Example double_vote_ends_roll :
  let rolls w := (length ∘ RollId) <$> groups w !! 1 in
  rolls (after 1 (RqLootRoll (vote_packet 2)) w_open) = Some 1%nat ∧
  rolls (after 1 (RqLootRoll (vote_packet 2)) (after 1 (RqLootRoll (vote_packet 2)) w_open)) = Some 0%nat.
Proof. vm_compute. repeat split. Qed.
End Tiny.
